(* ===== verification/_CoqProject ===== *)
-Q . S2P
Prelude.v
GoText.v
GoJson.v
GoStruct.v
GoCrypto.v
GoTime.v
GoFloat.v
GoFmt.v
CanonJson.v
GoMarshal.v
GoUrl.v
GoDuration.v
RelaySig.v
Auth.v
Control.v
Dispatch.v
DispatchSafety.v
Tasks.v
Lru.v
RateLimit.v
Churn.v
Owner.v
Engine.v
EngineSafety.v
Config.v
Predicates.v
ServiceEndpoints.v
Snake.v
Diff.v
ChangeWindow.v
ConfigChange.v
KubectlExec.v
RelayClient.v
Finding.v
AlertIntake.v
AlertFlow.v
PodShell.v
Redact.v
DiscoverySink.v
Discovery.v
DiscoveryConvert.v
PvcDownsize.v
PvcSafety.v
Drain.v
PromQL.v
RightsizeApply.v
RightsizeUnits.v
Rightsize.v
KubeApi.v
Workload.v
AlertRules.v
Revert.v
RevertFacts.v
RuleApis.v
Volumes.v
MutateHandlers.v
HttpProxy.v
SvcDiscover.v
Wiring.v
ServiceMapQueries.v
ServiceMap.v
ServiceMapWorld.v
ServiceMapRender.v
ServiceMapSource.v
ClickHouseSql.v
MapCoverage.v
Interact.v
EnricherBlocks.v
RunnerPods.v
ScanJobs.v
KubeReads.v
GrafanaProxy.v
AgentListers.v
PromSamples.v
FastDecimal.v
PromSampleFacts.v
PromEnricher.v
AppStats.v
BurnRate.v
Profiler.v
