(* ===== verification/Prelude.v ===== *)
(** * The nudgebee agent: a verification development

    The agent (Go, src/runner/) runs inside a customer's Kubernetes cluster.
    It keeps an outbound WebSocket to a relay and executes the actions the
    relay forwards, polls a task queue, watches the cluster's objects to
    raise findings, receives alerts over HTTP, reports the cluster's resources
    to a collector, changes workloads on request and renders the map of the
    services that talk to each other.  Its parts interact in these chains.

    - Requests.  The relay client (pkg/relay) reads messages into a bounded
      pool of handlers.  The dispatcher (pkg/dispatch) decodes and classifies
      a message, the validator (pkg/auth) authenticates it in one of three
      modes behind a relay-signature check (pkg/relaysig), and it runs in one
      of two bounded pools.  HMAC and partial-key authentication hash the
      canonical JSON form of the request body (pkg/canonjson).  The set of
      actions that need no credentials is built at start-up (cmd/agent) and
      refreshed from the backend (pkg/control).
    - Tasks.  The poller (pkg/tasks) fetches tasks, runs each through the
      dispatcher's trusted path and posts the result.
    - Events.  Webhooks and cluster events enter through pkg/alerts, are
      queued per object, matched by the trigger engine (pkg/triggers) and
      become findings, which are forwarded to the backend.
    - Discovery.  pkg/discovery sends snapshots and changes of the watched
      resources to the collector.
    - Changes.  pkg/mutate and pkg/rightsize write to the Kubernetes API.
    - Pods and reads on request.  pkg/podrunner runs a script in a pod of its
      own, pkg/scanners runs Jobs, pkg/podexec runs a profiler next to a pod,
      pkg/kube reads objects; they answer with the envelopes of pkg/enrichers.
    - Reads through Prometheus.  pkg/enrichers runs queries, single or in
      batches, and computes the statistics of an application and the burn
      rates of an SLO from them.
    - Service map.  pkg/servicemap reads metrics from Prometheus or from a
      summary in ClickHouse, builds a graph of applications and renders it.

    ** Files

    What the source uses of Go's language and standard library:
    - Prelude: results, machine integers, durations, byte strings, prefix and
      suffix tests, sorting, counting over maps; the tactics and hints.
    - GoText: UTF-8, decimal and binary64 text ([strconv], [utf8]), splitting.
      GoFloat: binary64 arithmetic, rounding and [ParseFloat].  GoFmt: [%v].
    - GoJson: dynamic values, type assertions, [json.Unmarshal] into [any].
      GoStruct: into structs (field matching, raw members).  GoMarshal:
      [json.Marshal].
    - GoCrypto: SHA-256, HMAC, hex, base64.  GoTime: RFC 3339.  GoDuration:
      [time.ParseDuration].  GoUrl: percent-encoding, queries, header names.

    Requests (src/runner/pkg/ unless a directory is named):
    - CanonJson: canonjson/canonjson.go ([Encode] and the writers below it).
    - RelaySig: relaysig/verify.go.  Auth: auth/auth.go.  Control:
      control/refresh.go.
    - Dispatch, DispatchSafety: dispatch/dispatch.go.  [Handle] is cut at the
      points where the code waits for something else (a pool slot, a handler,
      the terminal, the proxy); [exec] runs the parts of all messages in any
      order and [reachable] is the set of states of the whole dispatcher.
    - RelayClient: relay/client.go as a step relation over connecting,
      sessions, shedding and shutdown.
    - Wiring: cmd/agent/main.go, [run] up to the dispatcher: which actions are
      registered and which are open.  Config: config/config.go.  SvcDiscover:
      svcdiscover/discover.go.
    - KubectlExec: kube/exec.go with cmdout/cmdout.go.  PodShell:
      podshell/session.go.  HttpProxy: observability/httpproxy.  Redact:
      redact/redact.go.

    Tasks: tasks/poller.go, written against the class [TrustedDispatcher],
    the counterpart of the interface in the code; [dispatcher_trusted] is the
    dispatcher's instance.

    Events (src/runner/pkg/triggers/ and alerts/):
    - Lru: the list-plus-index table that the limiter and the suppressor
      share.  RateLimit: ratelimit.go.  Churn: churn.go.  Owner: owner.go.
    - Engine, EngineSafety: types.go, engine.go, events_block.go and
      overrides.go.  A [MatcherSpec] is a record of functions, as in the code.
    - Predicates: the pod, job and node matchers of predicates.go.  ServiceEndpoints: service_endpoints.go.
    - Diff: the walk and the filters of diff.go.  ChangeWindow: its excerpts
      of changed values.  ConfigChange: its evidence blocks, and the
      configuration-change matchers and [Builtins] of predicates.go.  Snake:
      pkg/kube/snake.go, which renames the keys of rendered objects.
    - Finding: alerts/finding.go, node_subject.go, auth.go.  AlertIntake: the
      sharded queue and workers of k8s_intake.go and server.go, as a step
      relation.  AlertFlow: one event through intake, engine and finding.

    Discovery (src/runner/pkg/discovery/): DiscoverySink: sink.go, auth.go.
    Discovery: service.go.  DiscoveryConvert: converters.go, transform.go,
    helm.go and the registration of resources in cmd/agent/main.go.

    Changes (src/runner/pkg/mutate/ and rightsize/):
    - PvcDownsize, PvcSafety: pvcdownsize.go and its helpers, over the class
      [Cluster] that answers requests.  Drain: drain.go, eviction.go, as a
      step relation.
    - RightsizeApply: rightsize/apply.go.  RightsizeUnits: units.go.
      Rightsize: rightsize.go, inplace.go, handlers.go.
    - KubeApi: computations over Kubernetes calls; the server is any function
      from the calls made so far to an answer.  [only] bounds the calls a
      computation makes, [edits] relates each update to the read before it.
      The class [Accessors] states what unstructured objects promise.
    - Workload: workload.go, replica.go, mutate.go.  AlertRules:
      alertrules.go, promruleselector.go.  Revert, RevertFacts: revert.go.
      RuleApis: silence.go, lokirules.go.  Volumes: pvc.go.  MutateHandlers:
      handlers.go.

    Pods and reads on request:
    - Interact: computations that call the outside, as trees over any type
      of calls; [run] against an environment, [wp] against a contract.
    - EnricherBlocks: enrichers/finding.go.  RunnerPods: podrunner/.
      ScanJobs: scanners/, over the class [PodParts] of the corev1 types that
      are passed through.  KubeReads: kube/dynamic.go, kind_resolver.go,
      handlers.go.  GrafanaProxy: grafana/proxy.go.  Profiler:
      podexec/profiler.go, profiler_tar.go and the pod_profiler handler.
    - AgentListers: the event listers, the node locator, the node-agent
      counter and the service backends lister of cmd/agent.

    Service map (src/runner/pkg/servicemap/):
    - PromQL: the texts and the result values of Prometheus queries.
      ServiceMapQueries: queries.go and parser.go.
    - ServiceMap, ServiceMapWorld: world.go, build.go.  A Go map is a [gmap];
      [iterate] is the order of an iteration, arbitrary in every theorem.
    - ServiceMapRender: render.go, types.go.  ServiceMapSource: service.go and
      handlers.go, with the fallback and the shadow build.
    - ClickHouseSql: the statements of clickhouse_source.go and summary.go.
      MapCoverage: the coverage checks and reads of clickhouse_source.go.

    Reads through Prometheus (src/runner/pkg/enrichers/):
    - PromSamples, FastDecimal, PromSampleFacts: prom_result.go, the scanner
      of samples against the decode it replaced and its number fast path.
    - PromEnricher: prometheus.go; the goroutines of a batch as a step
      relation.
    - AppStats: app_stats.go, app_stats_queries.go, timeseries.go.  BurnRate:
      slo.go, slo_burnrate.go.

    ** How state, errors and time are modelled

    A Go error result is [result], with the error text (without the part a
    library that is a parameter would append).  A method that changes
    its receiver returns the new receiver beside its result; methods that the
    code runs under a mutex are single steps.  A map whose iteration order the
    code exposes is an association list, otherwise a [gmap].  Integers are [Z]
    with their wrap-around written out ([wrap64]); [time_sub] saturates as
    [time.Time.Sub] does.  Every reading of the clock is an argument: two
    arguments where the code reads it twice.  Goroutines are step relations
    whose steps are the parts between two waits.

    ** What the theorems show

    - Canonical JSON: the bytes do not depend on map iteration order, decode
      to the value they encode, and are injective up to nil members.
    - Relay signatures: [VerifyBody] accepts exactly the requests its comment
      describes, and a nonce accepted once is rejected for as long as the
      timestamp it came with can pass, whatever happens in between.
    - Authentication: [Validate] accepts exactly what the disjunction of its
      modes allows; an invalid relay signature never changes the verdict of
      the mode behind it; an agent without keys accepts allowlisted actions
      only; an HMAC signature binds the body unless HMAC collides.
    - Wiring: for every configuration, what a request without credentials can
      reach, which of the mutating actions that includes, and that it has a
      handler.  Configuration: rate limits cannot be switched off and a typo
      in one entry does not touch the others.
    - Dispatch: in every reachable state, an action from the relay that runs
      was accepted by the validator on arrival; the pools never exceed their
      sizes; a message is answered at most once, and exactly once when it
      asked for an answer and its handler finished.
    - Relay client: every message is handled or counted as shed, shutdown
      takes boundedly many steps, and the reconnect wait is as configured.
    - kubectl: without write mode only reads run, as kubectl itself resolves
      the verb, for any flag table that agrees with the agent's on the flags
      it lists; a refused segment stops the whole chain; chaining has the
      shell's meaning.  Pod shell: output is delivered once and in order.
      Redaction: the text does not depend on the secrets.
    - Tasks: a drain acts on every task it was handed exactly once and in
      order; every posted result carries a success field.
    - Allowlist: a refresh never removes a static action.
    - Limiter and suppressor: capacity, suppression within the window, its
      end, and the life cycle of a churning key, each as long as the table
      has not had to evict the key.
    - Engine: a match meets all the conditions of its matcher; the same
      fingerprint fires once per window over any sequence of events; recovery
      re-arms it; overrides and the resync filter behave as documented, or
      the theorem says where they do not.
    - Matchers: owners and job families, the OOM choice, fingerprints, memory
      quantities, service endpoints.
    - Configuration changes: the diff is exactly the set of changed, monitored
      leaves, so a workload update is reported if and only if its spec
      changed, and a ConfigMap update if and only if its data did; the
      excerpts of large values lose no change and stay within their cap, with
      the exception [added_data_uncapped] shows; different matchers never
      share a limiter entry.
    - Findings and intake: evidence decodes to its payload within the cap;
      events of one object are processed in order; the queue stays within its
      byte budget.
    - Discovery: a snapshot's envelopes are in sequence and only a complete
      one ends with the end mark; every item is the record of an object of
      the cluster although the cache is trimmed; records have all members
      the collector reads; posting retries as documented.
    - Volume downsizing: at every step some claim holds the whole data, with
      the exception [stuck_deletion_loses_data] shows; every request returns.
      Drain: every pod is reported once and only eligible ones are removed.
    - Rightsizing: only what is requested changes; re-applying the captured
      values restores it; runs are guarded by the thresholds; memory texts
      round up by less than ten units.
    - Mutations: calls stay on the named resource; edits of alert rules are
      local under concurrent writers; a whole rule resource is only deleted
      when that is asked for; reverting a reported diff undoes it.
    - Service map: every edge ends in an application of the map, whatever the
      answers and the iteration orders; a window read from ClickHouse is
      covered by the summary and by every agent; when it is not, the map is
      the one of Prometheus; pods are found by the edges of their workloads;
      SQL literals read back as they were.
    - Prometheus: the scanner gives what encoding/json gives; a batch is
      answered whole under any interleaving with at most eight queries in
      flight; a range query asks for at most 11000 points; the cells of a
      statistics grid and the owner of a pod; an SLO alerts exactly when both
      windows of a rule burn above its threshold.
    - Runner pods: whatever the API server does, what was created is deleted.
      Profiler: a debugger pod never stays; a tool only gets an output it
      produces.
      Scan jobs: a request creates at most one contained Job; the sweep
      deletes exactly the agent's finished Jobs; logs are capped.  Reads stay
      in scope.  Proxy: cookies are dropped; where the credentials go.
      Listers: the cached events are those of the live lister.
    Theorems that show a divergence from the comments in the code say so in
    their own comment.

    ** Fuel and bounds

    The JSON parser gets [2 * length + 2] steps for its input, and every call
    consumes a byte or descends one level that a byte opened;
    [canonical_roundtrip] shows that this suffices for every text the encoder
    writes.  [raw_members] and [raw_elements] get one step per byte, and each
    member consumes at least one.  [tokenize] of a path gets its length and
    one, [duration_sum] of a text its length and one
    ([duration_sum_fuel]).  A polling loop gets its timeout over its interval
    and two, which [downsizing_ends] and [waiting_ends] show to be enough.
    [required_buckets] gets the number of whole buckets in its window.  The
    terms of a Prometheus duration and the trailing slashes of a path get one
    round per byte.  A wait of the profiler gets one look per interval of its
    timeout, and one, as client-go's pollers make.  The twenty polls of
    an in-place resize and the three attempts of a revert are the source's
    own bounds.  Everything else is structural.  The LRU capacities and the
    pool sizes are those of the configuration records, not fixed numbers;
    [maxNonces] and the time windows are the source's.

    ** Parameters

    Ed25519 verification, RSA-OAEP decryption, the UUID, PEM, X.509, PKCS and
    OpenSSH parsers, [url.Parse] and [net.SplitHostPort], the dialer and the
    socket, the HTTP exchanges, gzip, [json.Marshal] of handler results, the
    handlers the dispatcher calls, the Kubernetes listers and informers,
    go-difflib's opcodes (with the contract that they tile their inputs), the
    YAML encoder, the shlex tokenizer, the kubectl processes, the exec
    streams, the Kubernetes API (class [Cluster], the servers of [KubeApi],
    class [ClaimApi], the environments of [Interact]), unstructured objects
    (class [Accessors]), the corev1 types of a JobSpec (class [PodParts]),
    the orders of map iterations, the ClickHouse answers and deadlines,
    [RetryOnConflict] (with the contract that it runs the function again only
    after a conflict), [resource.Quantity], Prometheus answers, [%q],
    hexadecimal float literals, the zone abbreviations of the machine, MD5 and
    the character classes of package unicode are arguments of the definitions
    that call them.

    ** Not modelled

    Logging and metrics; the ticker loops; the goroutines and the shutdown of
    the process and the construction of its clients (the rest of
    cmd/agent/main.go), whose behaviour is that of client-go, net/http and
    the runtime; the handlers that forward to a backend without logic of
    their own (pkg/observability except httpproxy, pkg/clickhouse, the
    remaining handlers of pkg/enrichers: logs, Loki, traces and query_data;
    the plain exec of pkg/podexec); pkg/telemetry, which reports what other parts count; cmd/actionctl,
    a developer's tool; internal/k8sclient and pkg/version. *)

From Stdlib Require Export ZArith Lia Ascii.
From stdpp Require Export sorting gmap strings numbers.
From stdpp Require Export prelude.

#[global] Set Default Goal Selector "!".

Declare Scope agent_scope.
Delimit Scope agent_scope with agent.
#[global] Open Scope Z_scope.
#[global] Open Scope agent_scope.

Create HintDb agent discriminated.
#[export] Hint Constants Opaque : agent.

(** ** Errors

    A Go function returning [(T, error)] or [error] is modelled by [result T]:
    [Ok v] when the error is nil and [Err msg] with the error text otherwise. *)
Inductive result (A : Type) : Type :=
| Ok (a : A)
| Err (msg : string).
Arguments Ok {A} a.
Arguments Err {A} msg.

Definition rbind {A B} (r : result A) (k : A -> result B) : result B :=
  match r with
  | Ok a => k a
  | Err e => Err e
  end.

(** [fmt.Errorf(prefix + "%w", err)]. *)
Definition rwrap {A} (prefix : string) (r : result A) : result A :=
  match r with
  | Ok a => Ok a
  | Err e => Err (prefix +:+ e)
  end.

(** Linear arithmetic with division and remainder by constants. *)
Ltac div_lia := Z.to_euclidean_division_equations; lia.

Notation "'let?' x ':=' c 'in' k" := (rbind c (fun x => k))
  (at level 10, x pattern, c at level 100, k at level 200) : agent_scope.

Definition is_ok {A} (r : result A) : bool :=
  match r with Ok _ => true | Err _ => false end.

Lemma rbind_Ok {A B} (r : result A) (k : A -> result B) b :
  rbind r k = Ok b <-> exists a, r = Ok a /\ k a = Ok b.
Proof. destruct r; naive_solver. Qed.

Lemma rwrap_Ok {A} p (r : result A) a : rwrap p r = Ok a <-> r = Ok a.
Proof. by destruct r. Qed.
Lemma is_ok_Ok {A} (r : result A) : is_ok r = true <-> exists a, r = Ok a.
Proof. destruct r; naive_solver. Qed.
Lemma is_ok_unit (r : result unit) : is_ok r = true <-> r = Ok tt.
Proof. destruct r as [[]|]; naive_solver. Qed.

#[export] Instance result_eq_dec {A} `{EqDecision A} : EqDecision (result A).
Proof. solve_decision. Defined.

(** ** Machine integers and time

    [int64] arithmetic wraps; [time.Duration] is an int64 count of
    nanoseconds and [time.Time.Sub] saturates.  A [time.Time] is the number
    of nanoseconds since the zero instant [time.Time{}], so that [IsZero] is
    the test against 0. *)
Definition int64_min : Z := - 2 ^ 63.
Definition int64_max : Z := 2 ^ 63 - 1.
Definition wrap64 (z : Z) : Z := (z + 2 ^ 63) mod 2 ^ 64 - 2 ^ 63.

Abbreviation time := Z (only parsing).
Abbreviation duration := Z (only parsing).

Definition nanosecond : duration := 1.
Definition millisecond : duration := 1000000.
Definition second : duration := 1000000000.
Definition minute : duration := 60 * second.
Definition hour : duration := 60 * minute.

Definition zero_time : time := 0.
Definition is_zero_time (t : time) : bool := t =? zero_time.

(** [t.Sub(u)], saturating at the extreme durations. *)
Definition time_sub (t u : time) : duration :=
  Z.max int64_min (Z.min int64_max (t - u)).
(** [t.Add(d)] and [t.Before(u)]. *)
Definition time_add (t : time) (d : duration) : time := t + d.
Definition time_before (t u : time) : bool := t <? u.

Lemma time_sub_exact t u :
  int64_min <= t - u <= int64_max -> time_sub t u = t - u.
Proof. unfold time_sub. lia. Qed.

Lemma time_sub_le t u d : int64_min <= d < int64_max ->
  time_sub t u <= d <-> t - u <= d.
Proof. unfold time_sub, int64_min, int64_max. lia. Qed.

Lemma wrap64_id z : int64_min <= z <= int64_max -> wrap64 z = z.
Proof.
  unfold wrap64, int64_min, int64_max. intros H.
  rewrite Z.mod_small; lia.
Qed.

Lemma wrap64_range z : int64_min <= wrap64 z <= int64_max.
Proof.
  unfold wrap64, int64_min, int64_max.
  pose proof (Z.mod_pos_bound (z + 2 ^ 63) (2 ^ 64) ltac:(lia)). lia.
Qed.

(** ** Strings

    A Go string is a sequence of bytes: [string] with [ascii] as the byte. *)
Definition byte (c : ascii) : Z := Z.of_N (N_of_ascii c).
Definition chr (z : Z) : ascii := ascii_of_N (Z.to_N z).

Lemma byte_range c : 0 <= byte c < 256.
Proof. unfold byte. pose proof (N_ascii_bounded c). lia. Qed.

Lemma byte_chr z : 0 <= z < 256 -> byte (chr z) = z.
Proof. intros H. unfold byte, chr. rewrite N_ascii_embedding; lia. Qed.

Lemma chr_byte c : chr (byte c) = c.
Proof. unfold byte, chr. rewrite N2Z.id. apply ascii_N_embedding. Qed.

Lemma byte_inj c d : byte c = byte d -> c = d.
Proof. intros H. rewrite <- (chr_byte c), <- (chr_byte d). by rewrite H. Qed.

Definition strlen (s : string) : nat := String.length s.

Lemma app_nil_l s : "" +:+ s = s.
Proof. reflexivity. Qed.
Lemma app_cons c s t : String c s +:+ t = String c (s +:+ t).
Proof. reflexivity. Qed.
Lemma sapp_nil_r s : s +:+ "" = s.
Proof. induction s; [done|]. rewrite app_cons. by f_equal. Qed.
Lemma sapp_assoc s t u : (s +:+ t) +:+ u = s +:+ (t +:+ u).
Proof. induction s; [done|]. rewrite !app_cons. by f_equal. Qed.
Lemma strlen_app s t : strlen (s +:+ t) = (strlen s + strlen t)%nat.
Proof. induction s; [done|]. rewrite app_cons. unfold strlen in *. simpl. lia. Qed.
Lemma strlen_cons c s : strlen (String c s) = S (strlen s).
Proof. reflexivity. Qed.
#[global] Arguments strlen : simpl never.
(** Expands the lengths of concatenations everywhere. *)
Ltac len_norm := repeat first [rewrite !strlen_app in * | rewrite !strlen_cons in * ].
Lemma substring_prefix x y : String.substring 0 (strlen x) (x +:+ y) = x.
Proof.
  induction x as [|c x IH]; [by destruct y|]. rewrite app_cons, strlen_cons. simpl. by rewrite IH.
Qed.
Lemma substring_suffix x y : String.substring (strlen x) (strlen y) (x +:+ y) = y.
Proof.
  induction x as [|c x IH]; rewrite ?app_nil_l, ?app_cons, ?strlen_cons; [|done].
  change (strlen "") with 0%nat. rewrite <- (sapp_nil_r y) at 2. apply substring_prefix.
Qed.
Lemma sapp_inj_l s t u : s +:+ t = s +:+ u -> t = u.
Proof. induction s; [done|]. rewrite !app_cons. intros [=]. auto. Qed.

Create Rewrite HintDb str.
#[export] Hint Rewrite app_nil_l app_cons sapp_nil_r sapp_assoc : str.
(** Normalises concatenations to right-nested conses. *)
Ltac str_norm := autorewrite with str.

(** [strings.HasPrefix] and the remainder after the prefix. *)
Fixpoint strip_prefix (p s : string) : option string :=
  match p, s with
  | EmptyString, _ => Some s
  | String c p', String d s' => if decide (c = d) then strip_prefix p' s' else None
  | String _ _, EmptyString => None
  end.
Definition has_prefix (s p : string) : bool :=
  match strip_prefix p s with Some _ => true | None => false end.

Lemma strip_prefix_Some p s r : strip_prefix p s = Some r <-> s = p +:+ r.
Proof.
  revert s. induction p as [|c p IH]; intros s; simpl.
  - rewrite app_nil_l. naive_solver.
  - destruct s as [|d s]; [naive_solver|]. rewrite app_cons.
    case_decide; [|naive_solver]. subst. rewrite IH. naive_solver.
Qed.

Lemma strip_prefix_app p r : strip_prefix p (p +:+ r) = Some r.
Proof. by apply strip_prefix_Some. Qed.

Lemma has_prefix_spec s p : has_prefix s p = true <-> exists r, s = p +:+ r.
Proof.
  unfold has_prefix. destruct (strip_prefix p s) eqn:E.
  - apply strip_prefix_Some in E. naive_solver.
  - split; [done|]. intros [r ->]. by rewrite strip_prefix_app in E.
Qed.

Fixpoint srev_app (s acc : string) : string :=
  match s with
  | EmptyString => acc
  | String c r => srev_app r (String c acc)
  end.
Definition srev (s : string) : string := srev_app s "".

Lemma srev_app_spec s acc : srev_app s acc = srev s +:+ acc.
Proof.
  unfold srev. revert acc. induction s as [|c s IH]; intros acc; simpl; [done|].
  rewrite IH, (IH (String c "")), sapp_assoc. by rewrite app_cons, app_nil_l.
Qed.
Lemma srev_cons c s : srev (String c s) = srev s +:+ String c "".
Proof. unfold srev at 1. simpl. by rewrite srev_app_spec. Qed.
Lemma srev_snoc s c : srev (s +:+ String c "") = String c (srev s).
Proof.
  induction s as [|d s IH]; [done|].
  by rewrite app_cons, srev_cons, IH, app_cons, srev_cons.
Qed.
Lemma srev_involutive s : srev (srev s) = s.
Proof. induction s as [|c s IH]; [done|]. by rewrite srev_cons, srev_snoc, IH. Qed.
Lemma srev_sapp s t : srev (s +:+ t) = srev t +:+ srev s.
Proof.
  induction s as [|c s IH]; [by rewrite app_nil_l, sapp_nil_r|].
  by rewrite app_cons, !srev_cons, IH, sapp_assoc.
Qed.

(** [strings.HasSuffix] and [strings.TrimSuffix]. *)
Definition has_suffix (s suf : string) : bool := has_prefix (srev s) (srev suf).
Definition trim_suffix (s suf : string) : string :=
  match strip_prefix (srev suf) (srev s) with
  | Some r => srev r
  | None => s
  end.

Lemma trim_suffix_app s suf : trim_suffix (s +:+ suf) suf = s.
Proof.
  unfold trim_suffix. rewrite srev_sapp, strip_prefix_app. apply srev_involutive.
Qed.

Lemma has_suffix_spec s suf : has_suffix s suf = true <-> exists r, s = r +:+ suf.
Proof.
  unfold has_suffix. rewrite has_prefix_spec. split.
  - intros [r Hr]. exists (srev r).
    rewrite <- (srev_involutive s), Hr, srev_sapp. by rewrite srev_involutive.
  - intros [r ->]. exists (srev r). apply srev_sapp.
Qed.

(** [strings.Join]. *)
Fixpoint join (sep : string) (l : list string) : string :=
  match l with
  | [] => ""
  | [s] => s
  | s :: l' => s +:+ sep +:+ join sep l'
  end.

(** ASCII case folding; the program folds only kind names, header names and
    JSON field names, which are ASCII. *)
Definition lower_ascii (c : ascii) : ascii :=
  if (65 <=? byte c) && (byte c <=? 90) then chr (byte c + 32) else c.
Fixpoint to_lower (s : string) : string :=
  match s with
  | EmptyString => ""
  | String c r => String (lower_ascii c) (to_lower r)
  end.

Definition contains_byte (c : ascii) (s : string) : bool :=
  existsb (fun d => bool_decide (d = c)) (String.list_ascii_of_string s).

(** [strings.TrimSpace] on the ASCII white space bytes. *)
Definition is_space (c : ascii) : bool :=
  (byte c =? 32) || ((9 <=? byte c) && (byte c <=? 13)).
Fixpoint trim_left (s : string) : string :=
  match s with
  | String c r => if is_space c then trim_left r else s
  | EmptyString => ""
  end.
Definition trim_space (s : string) : string := srev (trim_left (srev (trim_left s))).

(** [strings.Contains]. *)
Fixpoint contains (s sub : string) : bool :=
  has_prefix s sub ||
  match s with
  | EmptyString => false
  | String _ r => contains r sub
  end.

(** [strings.FieldsFunc]: the maximal runs of bytes not satisfying [p]. *)
Fixpoint fields_func (p : ascii -> bool) (cur : string) (s : string) : list string :=
  match s with
  | EmptyString => if bool_decide (cur = "") then [] else [srev cur]
  | String c r =>
    if p c then (if bool_decide (cur = "") then [] else [srev cur]) ++ fields_func p "" r
    else fields_func p (String c cur) r
  end.

(** [sort.Strings]: byte-wise lexicographic order. *)
Definition sort_strings (l : list string) : list string := merge_sort String.le l.

Lemma sort_strings_perm l : sort_strings l ≡ₚ l.
Proof. apply merge_sort_Permutation. Qed.
Lemma sort_strings_sorted l : StronglySorted String.le (sort_strings l).
Proof. apply (StronglySorted_merge_sort _). Qed.
(** The result depends on the multiset of keys only, not on Go's random map
    iteration order. *)
Lemma sort_strings_unique l k : l ≡ₚ k -> sort_strings l = sort_strings k.
Proof.
  intros H. apply (StronglySorted_unique String.le).
  - apply sort_strings_sorted.
  - apply sort_strings_sorted.
  - by rewrite !sort_strings_perm.
Qed.

(** ** Counting the entries of a table that satisfy a test *)
Definition count_map {A} (f : A -> bool) (m : gmap nat A) : Z :=
  Z.of_nat (size (filter (fun kv : nat * A => f kv.2 = true) m)).
Lemma count_map_insert {A} (f : A -> bool) m i x : m !! i = None ->
  count_map f (<[i:=x]> m) = count_map f m + (if f x then 1 else 0).
Proof.
  intros Hi. unfold count_map. destruct (f x) eqn:E.
  - rewrite map_filter_insert_True by done. rewrite map_size_insert_None; [lia|].
    by apply map_lookup_filter_None_2; left.
  - rewrite map_filter_insert_False by (simpl; congruence). rewrite delete_id by done. lia.
Qed.
Lemma count_map_delete {A} (f : A -> bool) m i x : m !! i = Some x ->
  count_map f (delete i m) = count_map f m - (if f x then 1 else 0).
Proof.
  intros Hi. rewrite <- (insert_delete_id m i x Hi) at 2.
  rewrite count_map_insert by apply lookup_delete_eq. lia.
Qed.
Lemma count_map_update {A} (f : A -> bool) m i x y : m !! i = Some x ->
  count_map f (<[i:=y]> m) = count_map f m - (if f x then 1 else 0) + (if f y then 1 else 0).
Proof.
  intros Hi. rewrite <- insert_delete_eq, count_map_insert by apply lookup_delete_eq.
  by rewrite (count_map_delete f m i x).
Qed.
Lemma count_map_nonneg {A} (f : A -> bool) (m : gmap nat A) : 0 <= count_map f m.
Proof. unfold count_map. lia. Qed.

(** ** Sums over lists *)
Fixpoint sum_map {A} (f : A -> Z) (l : list A) : Z :=
  match l with
  | [] => 0
  | x :: l => f x + sum_map f l
  end.

Lemma sum_map_app {A} (f : A -> Z) l k : sum_map f (l ++ k) = sum_map f l + sum_map f k.
Proof. induction l as [|x l IH]; simpl; lia. Qed.
Lemma sum_map_insert {A} (f : A -> Z) l i x y : l !! i = Some x ->
  sum_map f (<[i := y]> l) = sum_map f l - f x + f y.
Proof.
  revert i. induction l as [|z l IH]; intros [|i]; simpl; try done.
  - intros [= ->]. lia.
  - intros Hi. specialize (IH i Hi). lia.
Qed.
Lemma sum_map_delete {A} (f : A -> Z) l i x : l !! i = Some x ->
  sum_map f (delete i l) = sum_map f l - f x.
Proof.
  revert i. induction l as [|z l IH]; intros [|i]; simpl; try done.
  - intros [= ->]. lia.
  - intros Hi. specialize (IH i Hi). lia.
Qed.
Lemma sum_map_le {A} (f g : A -> Z) l : (forall x, f x <= g x) -> sum_map f l <= sum_map g l.
Proof. intros H. induction l as [|x l IH]; simpl; [lia|]. specialize (H x). lia. Qed.
Lemma sum_map_zero {A} (f : A -> Z) l : (forall x, x ∈ l -> f x = 0) -> sum_map f l = 0.
Proof.
  induction l as [|x l IH]; intros H; simpl; [done|].
  rewrite (H x) by left. rewrite IH; [done|]. intros y Hy. apply H. by right.
Qed.
Lemma sum_map_add {A} (f g : A -> Z) l : sum_map (fun x => f x + g x) l = sum_map f l + sum_map g l.
Proof. induction l as [|x l IH]; simpl; lia. Qed.
