(* ===== verification/GoText.v ===== *)
(** * Text: UTF-8, decimal numbers and float64

    The parts of Go's [unicode/utf8], [strconv] and [utf16] packages the
    agent relies on when it encodes and decodes JSON: rune decoding and
    encoding, [FormatInt], [ParseFloat] and [FormatFloat(f, 'g', -1, 64)].
    Floats are exact binary64 values; formatting searches for the shortest
    decimal that parses back to the same float. *)

From S2P Require Import Prelude.

(** ** UTF-8 *)
Definition rune_error : Z := 65533.

Definition in_range (lo hi z : Z) : bool := (lo <=? z) && (z <=? hi).

(** [utf8.DecodeRuneInString]: the first rune of [s] and its width in bytes;
    [(RuneError, 1)] for an invalid encoding, [(RuneError, 0)] at the end. *)
Definition decode_rune (s : string) : Z * nat :=
  match s with
  | EmptyString => (rune_error, 0%nat)
  | String c0 r0 =>
    let b0 := byte c0 in
    if b0 <? 128 then (b0, 1%nat) else
    match r0 with
    | EmptyString => (rune_error, 1%nat)
    | String c1 r1 =>
      let b1 := byte c1 in
      if in_range 194 223 b0 then
        if in_range 128 191 b1 then ((b0 - 192) * 64 + (b1 - 128), 2%nat)
        else (rune_error, 1%nat)
      else
      match r1 with
      | EmptyString => (rune_error, 1%nat)
      | String c2 r2 =>
        let b2 := byte c2 in
        if in_range 224 239 b0 then
          let lo := if b0 =? 224 then 160 else 128 in
          let hi := if b0 =? 237 then 159 else 191 in
          if in_range lo hi b1 && in_range 128 191 b2
          then ((b0 - 224) * 4096 + (b1 - 128) * 64 + (b2 - 128), 3%nat)
          else (rune_error, 1%nat)
        else
        match r2 with
        | EmptyString => (rune_error, 1%nat)
        | String c3 _ =>
          let b3 := byte c3 in
          if in_range 240 244 b0 then
            let lo := if b0 =? 240 then 144 else 128 in
            let hi := if b0 =? 244 then 143 else 191 in
            if in_range lo hi b1 && in_range 128 191 b2 && in_range 128 191 b3
            then ((b0 - 240) * 262144 + (b1 - 128) * 4096
                  + (b2 - 128) * 64 + (b3 - 128), 4%nat)
            else (rune_error, 1%nat)
          else (rune_error, 1%nat)
        end
      end
    end
  end.

(** A Unicode scalar value. *)
Definition valid_rune (r : Z) : bool :=
  in_range 0 1114111 r && negb (in_range 55296 57343 r).

(** [utf8.AppendRune]; invalid runes are written as U+FFFD. *)
Definition encode_rune (r0 : Z) : string :=
  let r := if valid_rune r0 then r0 else rune_error in
  if r <? 128 then String (chr r) ""
  else if r <? 2048 then
    String (chr (192 + r / 64)) (String (chr (128 + r mod 64)) "")
  else if r <? 65536 then
    String (chr (224 + r / 4096)) (String (chr (128 + r / 64 mod 64))
      (String (chr (128 + r mod 64)) ""))
  else
    String (chr (240 + r / 262144)) (String (chr (128 + r / 4096 mod 64))
      (String (chr (128 + r / 64 mod 64)) (String (chr (128 + r mod 64)) ""))).

(** The runes a [for range]-style loop over a string visits; [skip] counts
    the continuation bytes of the rune already reported. *)
Fixpoint runes_from (skip : nat) (s : string) : list Z :=
  match s with
  | EmptyString => []
  | String _ s' =>
    match skip with
    | S k => runes_from k s'
    | O => let '(r, sz) := decode_rune s in r :: runes_from (pred sz) s'
    end
  end.
Definition runes (s : string) : list Z := runes_from 0 s.

Definition encode_runes (l : list Z) : string :=
  foldr (fun r acc => encode_rune r +:+ acc) "" l.

(** [utf8.ValidString]. *)
Definition valid_utf8 (s : string) : bool := bool_decide (encode_runes (runes s) = s).

(** [utf8.RuneStart]: not a continuation byte. *)
Definition rune_start (c : ascii) : bool := negb (in_range 128 191 (byte c)).

(** ** Decimal integers: [strconv.FormatInt] in base 10 *)
Definition digit (d : Z) : ascii := chr (48 + d).
Definition is_digit (c : ascii) : bool := in_range 48 57 (byte c).

Fixpoint dec_digits (fuel : nat) (n : Z) (acc : string) : string :=
  match fuel with
  | O => acc
  | S f =>
    let acc' := String (digit (n mod 10)) acc in
    if n <? 10 then acc' else dec_digits f (n / 10) acc'
  end.
(** A number below [2 ^ k] has at most [k] decimal digits. *)
Definition utoa (n : Z) : string := dec_digits (S (Z.to_nat (Z.log2 n))) n "".
Definition itoa (z : Z) : string :=
  if z <? 0 then "-" +:+ utoa (- z) else utoa z.

(** [strconv.ParseInt]-style digit strings. *)
Fixpoint digits_value (acc : Z) (s : string) : Z :=
  match s with
  | EmptyString => acc
  | String c r => digits_value (acc * 10 + (byte c - 48)) r
  end.
Fixpoint all_digits (s : string) : bool :=
  match s with
  | EmptyString => true
  | String c r => is_digit c && all_digits r
  end.

Fixpoint span_digits (s : string) : string * string :=
  match s with
  | String c r =>
    if is_digit c then let '(d, t) := span_digits r in (String c d, t)
    else ("", s)
  | EmptyString => ("", "")
  end.

(** ** float64 *)

(** [F64 neg m e] is [(-1)^neg * m * 2^e] with [m < 2^53] and
    [-1074 <= e <= 971], normalised as in IEEE-754 binary64. *)
Inductive float64 : Type :=
| F64 (neg : bool) (m e : Z)
| F64Inf (neg : bool)
| F64NaN.

#[export] Instance float64_eq_dec : EqDecision float64.
Proof. solve_decision. Defined.

(** Round-half-even quotient. *)
Definition div_half_even (n d : Z) : Z :=
  let q := n / d in
  let r2 := 2 * (n mod d) in
  if r2 <? d then q else if d <? r2 then q + 1
  else if Z.even q then q else q + 1.

(** [n / (d * 2^e)] as a numerator and a denominator. *)
Definition scale2 (n d e : Z) : Z * Z :=
  if 0 <=? e then (n, d * 2 ^ e) else (n * 2 ^ (- e), d).

(** The binary64 nearest to the positive rational [n / d], ties to even;
    [None] when it overflows. *)
Definition round_rat (n d : Z) : option (Z * Z) :=
  let e1 := Z.max (-1074) (Z.log2 n - Z.log2 d - 53) in
  let '(n1, d1) := scale2 n d e1 in
  let e := if 2 ^ 53 <=? n1 / d1 then e1 + 1 else e1 in
  let '(n2, d2) := scale2 n d e in
  let q := div_half_even n2 d2 in
  let '(m, e') := if q =? 2 ^ 53 then (2 ^ 52, e + 1) else (q, e) in
  if 971 <? e' then None else Some (m, e').

(** [(-1)^neg * m * 10^e10] to float64; out-of-range exponents are settled
    without computing the power. *)
Definition decimal_to_float (neg : bool) (m e10 : Z) (ndigits : Z) : option float64 :=
  if m =? 0 then Some (F64 neg 0 (-1074))
  else if 310 <? ndigits + e10 then None
  else if ndigits + e10 <? -330 then Some (F64 neg 0 (-1074))
  else
    let '(n, d) := if 0 <=? e10 then (m * 10 ^ e10, 1) else (m, 10 ^ (- e10)) in
    match round_rat n d with
    | Some (m', e) => Some (F64 neg m' (if m' =? 0 then -1074 else e))
    | None => None
    end.

(** The optional exponent part of a decimal literal. *)
Definition parse_exponent (s : string) : option Z :=
  match s with
  | EmptyString => Some 0
  | String c r =>
    if (byte c =? 101) || (byte c =? 69) then
      let '(sgn, ds) :=
        match r with
        | String c1 r1 =>
          if byte c1 =? 45 then (-1, r1) else if byte c1 =? 43 then (1, r1) else (1, r)
        | EmptyString => (1, "")
        end in
      if bool_decide (ds = "") || negb (all_digits ds) then None
      else Some (sgn * digits_value 0 ds)
    else None
  end.

(** [strconv.ParseFloat(s, 64)] on decimal literals (the only ones JSON has). *)
Definition parse_float (s : string) : option float64 :=
  let '(neg, s1) := match s with
                    | String c r => if byte c =? 45 then (true, r) else (false, s)
                    | EmptyString => (false, s)
                    end in
  let '(ip, s2) := span_digits s1 in
  let '(fp, s3) := match s2 with
                   | String c r => if byte c =? 46 then span_digits r else ("", s2)
                   | EmptyString => ("", s2)
                   end in
  match parse_exponent s3 with
  | Some x =>
    let ds := ip +:+ fp in
    if bool_decide (ds = "") then None
    else decimal_to_float neg (digits_value 0 ds)
           (x - Z.of_nat (strlen fp)) (Z.of_nat (strlen ds))
  | None => None
  end.

(** [%e] of the shortest digits [ds] with decimal point position [dp]
    (value [0.ds * 10^dp]). *)
Definition fmt_e (neg : bool) (ds : string) (dp : Z) : string :=
  let '(d0, rest) := match ds with
                     | String c r => (String c "", r)
                     | EmptyString => ("0", "")
                     end in
  let x := if bool_decide (ds = "") then 0 else dp - 1 in
  (if neg then "-" else "") +:+ d0
  +:+ (if bool_decide (rest = "") then "" else "." +:+ rest)
  +:+ "e" +:+ (if x <? 0 then "-" else "+")
  +:+ (if Z.abs x <? 10 then "0" else "") +:+ utoa (Z.abs x).

Definition zeros (n : Z) : string := String.concat "" (repeat "0" (Z.to_nat n)).

(** [%f] with exactly the digits needed. *)
Definition fmt_f (neg : bool) (ds : string) (dp : Z) : string :=
  let nd := Z.of_nat (strlen ds) in
  let ip := if dp <=? 0 then "0"
            else String.substring 0 (Z.to_nat dp) ds +:+ zeros (dp - nd) in
  let fp := if nd <=? dp then ""
            else "." +:+ zeros (- dp)
                 +:+ String.substring (Z.to_nat dp) (strlen ds) ds in
  (if neg then "-" else "") +:+ ip +:+ fp.

(** [%g]: the exponent form below 1e-4 and from 1e6 on when the precision is
    the shortest one. *)
Definition fmt_g (neg : bool) (ds : string) (dp : Z) : string :=
  let x := dp - 1 in
  if (x <? -4) || (6 <=? x) then fmt_e neg ds dp else fmt_f neg ds dp.

Fixpoint strip_zeros_rev (s : string) : string :=
  match s with
  | String c r => if byte c =? 48 then strip_zeros_rev r else s
  | EmptyString => ""
  end.
Definition strip_trailing_zeros (s : string) : string := srev (strip_zeros_rev (srev s)).

(** The decimal point position [p] with [10^(p-1) <= n/d < 10^p], searched
    upwards from a lower estimate. *)
Fixpoint dec_point (fuel : nat) (n d p : Z) : Z :=
  match fuel with
  | O => p
  | S f =>
    let ge := if 0 <=? p then d * 10 ^ p <=? n else d <=? n * 10 ^ (- p) in
    if ge then dec_point f n d (p + 1) else p
  end.

(** The two [k]-digit decimals around [n/d], the closer one first. *)
Definition candidates (n d p k : Z) : list Z :=
  let x := p - k in
  let '(n1, d1) := if 0 <=? x then (n, d * 10 ^ x) else (n * 10 ^ (- x), d) in
  let q := n1 / d1 in
  if 2 * (n1 mod d1) <=? d1 then [q; q + 1] else [q + 1; q].

Fixpoint shortest_search (fmt : bool -> string -> Z -> string) (f : float64) (neg : bool)
  (n d p : Z) (ks : list Z) : option string :=
  match ks with
  | [] => None
  | k :: ks' =>
    let texts := map (fun q =>
      let ds := utoa q in
      fmt neg (strip_trailing_zeros ds) (Z.of_nat (strlen ds) + p - k))
      (candidates n d p k) in
    match List.find (fun t => bool_decide (parse_float t = Some f)) texts with
    | Some t => Some t
    | None => shortest_search fmt f neg n d p ks'
    end
  end.

(** The shortest text in the form [fmt] that reads back as the finite float. *)
Definition format_shortest (fmt : bool -> string -> Z -> string) (f : float64) : option string :=
  match f with
  | F64 neg m e =>
    if m =? 0 then Some (fmt_f neg "" 0)
    else
      let '(n, d) := if 0 <=? e then (m * 2 ^ e, 1) else (m, 2 ^ (- e)) in
      let p0 := (Z.log2 n - Z.log2 d) * 30103 / 100000 - 1 in
      shortest_search fmt f neg n d (dec_point 6 n d p0)
        [1;2;3;4;5;6;7;8;9;10;11;12;13;14;15;16;17]
  | _ => None
  end.

(** [strconv.FormatFloat(f, 'g', -1, 64)] on finite floats. *)
Definition format_float : float64 -> option string := format_shortest fmt_g.

Definition float_of_Z (z : Z) : option float64 := parse_float (itoa z).

(** ** Properties of runes *)

Lemma in_range_true lo hi z : in_range lo hi z = true <-> lo <= z <= hi.
Proof. unfold in_range. lia. Qed.
Lemma in_range_false lo hi z : in_range lo hi z = false <-> ~ (lo <= z <= hi).
Proof. unfold in_range. lia. Qed.

(** Case analysis on every boolean byte test of the goal. *)
Ltac split_tests :=
  repeat match goal with
  | |- context [if ?b then _ else _] =>
    lazymatch b with
    | context [if _ then _ else _] => fail
    | _ => let E := fresh "E" in destruct b eqn:E
    end
  end.
(** Turns boolean range tests into linear arithmetic. *)
Ltac range_lia :=
  unfold in_range in *;
  repeat match goal with
  | H : _ && _ = true |- _ => apply andb_prop in H as [? ?]
  | H : negb _ = true |- _ => apply negb_true_iff in H
  end; lia.

(** Decoding only ever reports scalar values. *)
Lemma decode_rune_valid s : valid_rune (decode_rune s).1 = true.
Proof.
  unfold decode_rune, valid_rune, rune_error.
  destruct s as [|c0 [|c1 [|c2 [|c3 s]]]]; simpl;
    try pose proof (byte_range c0); try pose proof (byte_range c1);
    try pose proof (byte_range c2); try pose proof (byte_range c3).
  all: split_tests; simpl; try reflexivity; range_lia.
Qed.

#[global] Arguments decode_rune : simpl never.

Lemma runes_from_valid skip s : Forall (fun r => valid_rune r = true) (runes_from skip s).
Proof.
  revert skip. induction s as [|c s IH]; intros skip; simpl; [constructor|].
  destruct skip; [|apply IH].
  destruct (decode_rune (String c s)) as [r sz] eqn:E. constructor; [|apply IH].
  pose proof (decode_rune_valid (String c s)) as H. by rewrite E in H.
Qed.

Lemma runes_valid s : Forall (fun r => valid_rune r = true) (runes s).
Proof. apply runes_from_valid. Qed.

(** ** Properties of decimal integers *)

Lemma byte_digit d : 0 <= d < 10 -> byte (digit d) = 48 + d.
Proof. intros. unfold digit. apply byte_chr. lia. Qed.

Lemma is_digit_digit d : 0 <= d < 10 -> is_digit (digit d) = true.
Proof. intros. unfold is_digit. rewrite byte_digit by lia. range_lia. Qed.

Lemma all_digits_app s t : all_digits (s +:+ t) = all_digits s && all_digits t.
Proof.
  induction s as [|c s IH]; [done|]. rewrite app_cons. simpl.
  by rewrite IH, andb_assoc.
Qed.

(** [dec_digits] prepends the digits of [n], the first one non-zero when [n]
    is. *)
Lemma dec_digits_spec fuel n acc : 0 <= n < 10 ^ Z.of_nat fuel -> fuel <> 0%nat ->
  exists d ds, dec_digits fuel n acc = String (digit d) (ds +:+ acc)
    /\ 0 <= d < 10 /\ all_digits ds = true
    /\ (n = 0 -> d = 0 /\ ds = "") /\ (0 < n -> 0 < d).
Proof.
  revert n acc. induction fuel as [|fuel IH]; intros n acc Hn Hf; [done|].
  simpl. destruct (n <? 10) eqn:E.
  - exists n, "". rewrite Z.mod_small by lia. split_and!; try done; lia.
  - destruct fuel as [|fuel'].
    { change (10 ^ Z.of_nat 1) with 10 in Hn. lia. }
    rewrite Nat2Z.inj_succ, Z.pow_succ_r in Hn by lia.
    destruct (IH (n / 10) (String (digit (n mod 10)) acc)) as (d & ds & Heq & Hd & Hds & _ & Hp).
    { split; [apply Z.div_pos; lia|]. apply Z.div_lt_upper_bound; lia. }
    { done. }
    exists d, (ds +:+ String (digit (n mod 10)) ""). rewrite Heq.
    split; [by rewrite sapp_assoc, app_cons, app_nil_l|].
    split; [done|]. split.
    { rewrite all_digits_app, Hds. simpl.
      rewrite is_digit_digit; [done|]. apply Z.mod_pos_bound. lia. }
    split; [lia|]. intros _. apply Hp. apply Z.div_str_pos. lia.
Qed.

Lemma utoa_spec n : 0 <= n ->
  exists d ds, utoa n = String (digit d) ds /\ 0 <= d < 10 /\ all_digits ds = true
    /\ (n = 0 -> d = 0 /\ ds = "") /\ (0 < n -> 0 < d).
Proof.
  intros Hn. unfold utoa.
  assert (n < 10 ^ Z.of_nat (S (Z.to_nat (Z.log2 n)))) as Hb.
  { destruct (Z.eq_dec n 0) as [->|]; [done|].
    pose proof (Z.log2_spec n ltac:(lia)) as [_ H2].
    pose proof (Z.log2_nonneg n).
    rewrite Nat2Z.inj_succ, Z2Nat.id by lia.
    eapply Z.lt_le_trans; [exact H2|]. apply Z.pow_le_mono_l. lia. }
  destruct (dec_digits_spec (S (Z.to_nat (Z.log2 n))) n "" (conj Hn Hb) ltac:(done))
    as (d & ds & Heq & H). exists d, ds. rewrite Heq, sapp_nil_r. done.
Qed.

Lemma span_digits_app ds s :
  all_digits ds = true ->
  (forall c r, s = String c r -> is_digit c = false) ->
  span_digits (ds +:+ s) = (ds, s).
Proof.
  intros Hds Hs. induction ds as [|c ds IH]; simpl in *; rewrite ?app_nil_l, ?app_cons.
  - destruct s as [|c s]; [done|]. simpl. by rewrite (Hs c s).
  - apply andb_prop in Hds as [Hc Hds]. simpl. by rewrite Hc, IH.
Qed.

Lemma span_digits_spec s ds r : span_digits s = (ds, r) ->
  s = ds +:+ r /\ all_digits ds = true /\ (forall c t, r = String c t -> is_digit c = false).
Proof.
  revert ds r. induction s as [|c s IH]; intros ds r; simpl.
  - intros [= <- <-]. done.
  - destruct (is_digit c) eqn:Ec.
    + destruct (span_digits s) as [d t] eqn:E. intros [= <- <-].
      destruct (IH d t eq_refl) as (-> & Hd & Ht). simpl. by rewrite Ec.
    + intros [= <- <-]. split; [done|]. split; [done|]. naive_solver.
Qed.

(** Decimal text read back. *)
Lemma digits_value_le acc s : all_digits s = true -> 0 <= acc -> acc <= digits_value acc s.
Proof.
  revert acc. induction s as [|c s IH]; intros acc H Ha; simpl in *; [lia|].
  apply andb_prop in H as [Hc%in_range_true Hs]. specialize (IH (acc * 10 + (byte c - 48)) Hs). lia.
Qed.
Lemma digits_value_dec_digits fuel n acc : 0 <= n < 10 ^ Z.of_nat fuel -> fuel <> 0%nat ->
  digits_value 0 (dec_digits fuel n acc) = digits_value n acc.
Proof.
  revert n acc. induction fuel as [|fuel IH]; intros n acc Hn Hf; [done|]. cbn [dec_digits].
  pose proof (Z.mod_pos_bound n 10 ltac:(lia)) as Hm.
  destruct (Z.ltb_spec n 10).
  - cbn [digits_value]. unfold digit. rewrite byte_chr by lia. rewrite Z.mod_small by lia. f_equal. lia.
  - destruct fuel as [|fuel']; [change (10 ^ Z.of_nat 1) with 10 in Hn; lia|].
    rewrite Nat2Z.inj_succ, Z.pow_succ_r in Hn by lia. rewrite IH; [|split; [apply Z.div_pos; lia|apply Z.div_lt_upper_bound; lia]|done].
    cbn [digits_value]. unfold digit. rewrite byte_chr by lia. f_equal. pose proof (Z.div_mod n 10). lia.
Qed.
Lemma digits_value_utoa n : 0 <= n -> digits_value 0 (utoa n) = n.
Proof.
  intros Hn. unfold utoa. rewrite digits_value_dec_digits; [done| |done]. split; [done|].
  destruct (Z.eq_dec n 0) as [->|]; [done|]. pose proof (Z.log2_spec n ltac:(lia)) as [_ H2]. pose proof (Z.log2_nonneg n).
  rewrite Nat2Z.inj_succ, Z2Nat.id by lia. eapply Z.lt_le_trans; [exact H2|]. apply Z.pow_le_mono_l. lia.
Qed.
Lemma utoa_span n t : 0 <= n -> (t = "" \/ exists c r, t = String c r /\ is_digit c = false) -> span_digits (utoa n +:+ t) = (utoa n, t).
Proof.
  intros Hn Ht. destruct (utoa_spec n Hn) as (d & ds & E & Hd & Hds & _). apply span_digits_app.
  2: { intros c r ->. destruct Ht as [|(c' & r' & [= -> ->] & ?)]; done. }
  rewrite E. cbn. by rewrite is_digit_digit, Hds.
Qed.
Lemma dec_digits_fuel f n acc : (strlen (dec_digits f n acc) <= f + strlen acc)%nat.
Proof using.
  revert n acc. induction f as [|f IH]; intros n acc; cbn [dec_digits]; [lia|].
  destruct (n <? 10); [rewrite strlen_cons; lia|].
  specialize (IH (n / 10) (String (digit (n mod 10)) acc)). rewrite strlen_cons in IH. lia.
Qed.

(** [strings.TrimRight(s, "/")] *)
Fixpoint trim_slashes (s : string) : string :=
  match s with
  | EmptyString => ""
  | String c r => match trim_slashes r with
                  | EmptyString => if bool_decide (c = chr 47) then "" else String c ""
                  | t => String c t
                  end
  end.

(** [strings.Split] at a one-byte separator. *)
Fixpoint split_at (sep : ascii) (s : string) : list string :=
  match s with
  | EmptyString => [""]
  | String c r =>
    if bool_decide (c = sep) then "" :: split_at sep r
    else match split_at sep r with
         | t :: ts => String c t :: ts
         | [] => [String c ""]
         end
  end.
(** [strings.IndexByte] with the parts before and behind the byte. *)
Fixpoint cut (c : Z) (s : string) : option (string * string) :=
  match s with
  | EmptyString => None
  | String d r => if byte d =? c then Some ("", r) else kv ← cut c r; Some (String d kv.1, kv.2)
  end.
(** [strings.Index(s, sub)]: the texts around the first occurrence. *)
Fixpoint cut_first (sub s : string) : option (string * string) :=
  match strip_prefix sub s with
  | Some r => Some ("", r)
  | None =>
    match s with
    | EmptyString => None
    | String c r =>
      match cut_first sub r with
      | Some (a, b) => Some (String c a, b)
      | None => None
      end
    end
  end.

(** [strings.LastIndexByte]: the texts around the last occurrence. *)
Fixpoint cut_last (sep : ascii) (s : string) : option (string * string) :=
  match s with
  | EmptyString => None
  | String c r =>
    match cut_last sep r with
    | Some (a, b) => Some (String c a, b)
    | None => if bool_decide (c = sep) then Some ("", r) else None
    end
  end.
Lemma last_cut_Some sep s a b : cut_last sep s = Some (a, b) -> s = a +:+ String sep b /\ cut_last sep b = None.
Proof using.
  revert a. induction s as [|c s IH]; intros a; cbn [cut_last]; [done|].
  destruct (cut_last sep s) as [[a' b']|] eqn:E.
  - intros [= <- <-]. destruct (IH a' eq_refl) as [-> Hb]. by rewrite app_cons.
  - case_bool_decide; [|done]. intros [= <- <-]. subst c. by rewrite app_nil_l.
Qed.
Lemma last_cut_app sep a b : cut_last sep (a +:+ String sep b)
  = match cut_last sep b with
    | Some (x, y) => Some (a +:+ String sep x, y)
    | None => Some (a, b)
    end.
Proof using.
  induction a as [|c a IH]; [rewrite app_nil_l; cbn [cut_last]|rewrite app_cons; cbn [cut_last]; rewrite IH].
  - destruct (cut_last sep b) as [[x y]|]; [by rewrite app_nil_l|]. by rewrite bool_decide_true.
  - destruct (cut_last sep b) as [[x y]|]; by rewrite ?app_cons.
Qed.

(** [strings.ReplaceAll(s, old, new)] for a non-empty [old]; [skip] bytes
    belong to the occurrence before. *)
Fixpoint replace_from (old new : string) (skip : nat) (s : string) : string :=
  match s with
  | EmptyString => ""
  | String c r =>
    match skip with
    | S k => replace_from old new k r
    | O => if has_prefix s old then new +:+ replace_from old new (pred (strlen old)) r
           else String c (replace_from old new 0 r)
    end
  end.
Definition ReplaceAll (s old new : string) : string := replace_from old new 0 s.
Example replace_overlapping : ReplaceAll "aaaXaa" "aa" "b" = "baXb".
Proof. reflexivity. Qed.

Fixpoint all_of (p : ascii -> bool) (s : string) : bool :=
  match s with
  | EmptyString => true
  | String c r => p c && all_of p r
  end.
(** The longest prefix of characters in a class, and the rest. *)
Fixpoint span (p : ascii -> bool) (s : string) : string * string :=
  match s with
  | EmptyString => ("", "")
  | String c r => if p c then let '(a, b) := span p r in (String c a, b) else ("", s)
  end.

Lemma all_of_app p a b : all_of p (a +:+ b) = all_of p a && all_of p b.
Proof. induction a as [|c a IH]; [done|]. rewrite app_cons. simpl. by rewrite IH, andb_assoc. Qed.
