(* ===== verification/GoJson.v ===== *)
(** * JSON values and [encoding/json]

    Dynamic values ([any]) as the agent handles them, Go's two-value type
    assertions on them, and [json.Unmarshal]: a parser over bytes that keeps
    the raw text of every member of the top-level object, as
    [json.RawMessage] fields need it. *)

From S2P Require Import Prelude GoText.

(** ** Values

    A [map[string]any] is an association list with distinct keys; its order
    stands for Go's unspecified iteration order.  [JInt] is any of Go's
    integer kinds; decoding JSON never produces one.  [JOther] is a value of
    any other dynamic type. *)
Inductive json : Type :=
| JNull
| JBool (b : bool)
| JInt (z : Z)
| JFloat (f : float64)
| JStr (s : string)
| JArr (l : list json)
| JObj (m : list (string * json))
| JOther (tag : string).

Section json_ind.
Variable P : json -> Prop.
Hypothesis HNull : P JNull.
Hypothesis HBool : forall b, P (JBool b).
Hypothesis HInt : forall z, P (JInt z).
Hypothesis HFloat : forall f, P (JFloat f).
Hypothesis HStr : forall s, P (JStr s).
Hypothesis HArr : forall l, Forall P l -> P (JArr l).
Hypothesis HObj : forall m, Forall (fun kv => P kv.2) m -> P (JObj m).
Hypothesis HOther : forall t, P (JOther t).

(** Induction with hypotheses for the elements of arrays and objects. *)
Fixpoint json_nested_ind (v : json) : P v :=
  match v with
  | JNull => HNull
  | JBool b => HBool b
  | JInt z => HInt z
  | JFloat f => HFloat f
  | JStr s => HStr s
  | JArr l => HArr l
      ((fix go l : Forall P l :=
          match l with
          | [] => Forall_nil_2 P
          | x :: l' => Forall_cons_2 P x l' (json_nested_ind x) (go l')
          end) l)
  | JObj m => HObj m
      ((fix go m : Forall (fun kv => P kv.2) m :=
          match m with
          | [] => Forall_nil_2 _
          | (k, x) :: m' => Forall_cons_2 (fun kv => P kv.2) (k, x) m' (json_nested_ind x) (go m')
          end) m)
  | JOther t => HOther t
  end.
End json_ind.

#[export] Instance json_eq_dec : EqDecision json.
Proof.
  refine (fix go (x y : json) : Decision (x = y) :=
    let _ : EqDecision json := @go in
    match x, y with
    | JNull, JNull => left eq_refl
    | JBool a, JBool b => cast_if (decide (a = b))
    | JInt a, JInt b => cast_if (decide (a = b))
    | JFloat a, JFloat b => cast_if (decide (a = b))
    | JStr a, JStr b => cast_if (decide (a = b))
    | JArr a, JArr b => cast_if (decide (a = b))
    | JObj a, JObj b => cast_if (decide (a = b))
    | JOther a, JOther b => cast_if (decide (a = b))
    | _, _ => right _
    end); abstract congruence.
Defined.

(** A [map[string]any] variable: [None] is the nil map. *)
Abbreviation gomap := (option (list (string * json))).

Fixpoint assoc {A} (k : string) (m : list (string * A)) : option A :=
  match m with
  | [] => None
  | (k', v) :: m' => if decide (k = k') then Some v else assoc k m'
  end.

(** [m[k]] on a map or nil map; an absent key reads as nil. *)
Definition mget (m : gomap) (k : string) : json :=
  match m with
  | Some m => default JNull (assoc k m)
  | None => JNull
  end.
(** [_, ok := m[k]]. *)
Definition mhas (m : gomap) (k : string) : bool :=
  match m with Some m => bool_decide (is_Some (assoc k m)) | None => false end.

(** [m[k] = v]: overwrite in place, or add the key. *)
Fixpoint mset {A} (k : string) (v : A) (m : list (string * A)) : list (string * A) :=
  match m with
  | [] => [(k, v)]
  | (k', v') :: m' => if decide (k = k') then (k, v) :: m' else (k', v') :: mset k v m'
  end.
(** [delete(m, k)]. *)
Definition mdel {A} (k : string) (m : list (string * A)) : list (string * A) :=
  List.filter (fun kv => negb (bool_decide (kv.1 = k))) m.

(** Type assertions [x, _ := v.(T)], with the zero value on failure. *)
Definition as_obj (v : json) : gomap := match v with JObj m => Some m | _ => None end.
Definition as_arr (v : json) : list json := match v with JArr l => l | _ => [] end.
Definition as_str (v : json) : string := match v with JStr s => s | _ => "" end.
Definition as_bool (v : json) : bool := match v with JBool b => b | _ => false end.
Definition is_str (v : json) : bool := match v with JStr _ => true | _ => false end.

Definition get_str (m : gomap) (k : string) : string := as_str (mget m k).
Definition get_obj (m : gomap) (k : string) : gomap := as_obj (mget m k).
Definition get_arr (m : gomap) (k : string) : list json := as_arr (mget m k).

Lemma assoc_mset {A} k k' (v : A) m :
  assoc k' (mset k v m) = if decide (k' = k) then Some v else assoc k' m.
Proof.
  induction m as [|[j w] m IH]; simpl; [done|].
  repeat (case_decide; simpl in *); congruence.
Qed.

Lemma assoc_mdel {A} k k' (m : list (string * A)) :
  assoc k' (mdel k m) = if decide (k' = k) then None else assoc k' m.
Proof.
  induction m as [|[j w] m IH]; simpl; [by case_decide|].
  case_bool_decide; simpl in *; rewrite ?IH; repeat (case_decide; simpl in *); congruence.
Qed.

Lemma assoc_In {A} k (v : A) m : assoc k m = Some v -> (k, v) ∈ m.
Proof.
  induction m as [|[j w] m IH]; simpl; [done|].
  case_decide; intros; simplify_eq; [left|right; auto].
Qed.

Lemma In_assoc {A} k (v : A) m : NoDup m.*1 -> (k, v) ∈ m -> assoc k m = Some v.
Proof.
  induction m as [|[j w] m IH]; csimpl; [by intros _ ?%elem_of_nil|].
  intros [Hj Hm]%NoDup_cons [?|Hin]%elem_of_cons; simplify_eq.
  - by rewrite decide_True.
  - rewrite decide_False; [by apply IH|].
    intros ->. apply Hj. apply list_elem_of_fmap. by exists (j, v).
Qed.

Lemma assoc_None {A} k (m : list (string * A)) : assoc k m = None <-> k ∉ m.*1.
Proof.
  induction m as [|[j w] m IH]; csimpl.
  - split; [by intros _ ?%elem_of_nil|done].
  - rewrite not_elem_of_cons. case_decide; naive_solver.
Qed.

(** Reading a map does not depend on the iteration order. *)
Lemma assoc_perm {A} k (m m' : list (string * A)) :
  NoDup m.*1 -> m ≡ₚ m' -> assoc k m = assoc k m'.
Proof.
  intros Hnd Hp.
  assert (Hnd' : NoDup m'.*1) by (by rewrite <- Hp).
  destruct (assoc k m) eqn:E.
  - symmetry. apply In_assoc; [done|]. rewrite <- Hp. by apply assoc_In.
  - symmetry. apply assoc_None. rewrite <- Hp. by apply assoc_None.
Qed.

(** ** Lexing *)
Definition is_ws (c : ascii) : bool :=
  (byte c =? 32) || (byte c =? 9) || (byte c =? 10) || (byte c =? 13).
Fixpoint skip_ws (s : string) : string :=
  match s with
  | String c r => if is_ws c then skip_ws r else s
  | EmptyString => ""
  end.

Definition hex_val (c : ascii) : option Z :=
  let b := byte c in
  if in_range 48 57 b then Some (b - 48)
  else if in_range 97 102 b then Some (b - 87)
  else if in_range 65 70 b then Some (b - 55)
  else None.
Definition hex4 (a b c d : ascii) : option Z :=
  match hex_val a, hex_val b, hex_val c, hex_val d with
  | Some x, Some y, Some z, Some w => Some (((x * 16 + y) * 16 + z) * 16 + w)
  | _, _, _, _ => None
  end.

Definition is_surrogate (u : Z) : bool := in_range 55296 57343 u.
(** [utf16.DecodeRune] on a proper pair. *)
Definition surrogate_pair (u v : Z) : option Z :=
  if in_range 55296 56319 u && in_range 56320 57343 v
  then Some ((u - 55296) * 1024 + (v - 56320) + 65536)
  else None.

Definition simple_escape (c : ascii) : option ascii :=
  let b := byte c in
  if b =? 98 then Some (chr 8) else if b =? 102 then Some (chr 12)
  else if b =? 110 then Some (chr 10) else if b =? 114 then Some (chr 13)
  else if b =? 116 then Some (chr 9)
  else if (b =? 34) || (b =? 92) || (b =? 47) then Some c
  else None.

Definition emit (t : string) (r : option (string * string)) : option (string * string) :=
  match r with
  | Some (u, rest) => Some (t +:+ u, rest)
  | None => None
  end.

(** The code unit of a [\uXXXX] escape whose [\u] has been read. *)
Definition take4 (s : string) : option (Z * string) :=
  match s with
  | String a (String b (String c (String d r))) =>
    match hex4 a b c d with Some u => Some (u, r) | None => None end
  | _ => None
  end.

(** The rune of the surrogate pair that [u] starts, when a low surrogate
    escape follows. *)
Definition low_surrogate (u : Z) (s : string) : option Z :=
  match s with
  | String b (String c r) =>
    if (byte b =? 92) && (byte c =? 117) then
      match take4 r with Some (v, _) => surrogate_pair u v | None => None end
    else None
  | _ => None
  end.

(** The text one escape sequence denotes and its width, backslash included. *)
Definition escape_at (s : string) : option (string * nat) :=
  match s with
  | EmptyString => None
  | String e r =>
    if byte e =? 117 then
      match take4 r with
      | None => None
      | Some (u, r2) =>
        if is_surrogate u then
          match low_surrogate u r2 with
          | Some rn => Some (encode_rune rn, 12%nat)
          | None => Some (encode_rune rune_error, 6%nat)
          end
        else Some (encode_rune u, 6%nat)
      end
    else
      match simple_escape e with
      | Some ch => Some (String ch "", 2%nat)
      | None => None
      end
  end.

(** The text the first character of a literal's body denotes and its width.
    Unpaired surrogates and invalid UTF-8 decode to U+FFFD. *)
Definition unit_at (s : string) : option (string * nat) :=
  match s with
  | EmptyString => None
  | String c r =>
    if byte c =? 92 then escape_at r
    else if byte c <? 32 then None
    else if byte c <? 128 then Some (String c "", 1%nat)
    else let '(rn, sz) := decode_rune s in Some (encode_rune rn, sz)
  end.

(** The decoded contents of a string literal whose opening quote has been
    read, and what follows its closing quote; [skip] counts the bytes left of
    the character being read. *)
Fixpoint lex_from (skip : nat) (s : string) : option (string * string) :=
  match s with
  | EmptyString => None
  | String c r =>
    match skip with
    | S k => lex_from k r
    | O =>
      if byte c =? 34 then Some ("", r)
      else match unit_at s with
           | Some (t, w) => emit t (lex_from (pred w) r)
           | None => None
           end
    end
  end.
Definition lex_str (s : string) : option (string * string) := lex_from 0 s.

(** The exponent part of a number literal, empty when there is none. *)
Definition lex_exp (s : string) : option (string * string) :=
  match s with
  | String c r =>
    if (byte c =? 101) || (byte c =? 69) then
      let '(sg, r1) :=
        match r with
        | String c1 r1 =>
          if (byte c1 =? 45) || (byte c1 =? 43) then (String c1 "", r1) else ("", r)
        | EmptyString => ("", r)
        end in
      let '(ds, r2) := span_digits r1 in
      if bool_decide (ds = "") then None else Some (String c (sg +:+ ds), r2)
    else Some ("", s)
  | EmptyString => Some ("", s)
  end.
Definition lex_frac (s : string) : option (string * string) :=
  match s with
  | String c r =>
    if byte c =? 46 then
      let '(ds, r1) := span_digits r in
      if bool_decide (ds = "") then None else Some (String c ds, r1)
    else Some ("", s)
  | EmptyString => Some ("", s)
  end.
(** The integer part: a single zero, or digits not starting with zero. *)
Definition lex_int (s : string) : option (string * string) :=
  match s with
  | String c r =>
    if byte c =? 48 then Some (String c "", r)
    else if is_digit c then Some (span_digits s)
    else None
  | EmptyString => None
  end.
Definition lex_number (s : string) : option (string * string) :=
  let '(sg, s1) := match s with
                   | String c r => if byte c =? 45 then (String c "", r) else ("", s)
                   | EmptyString => ("", s)
                   end in
  match lex_int s1 with
  | Some (ip, s2) =>
    match lex_frac s2 with
    | Some (fp, s3) =>
      match lex_exp s3 with
      | Some (xp, s4) => Some (sg +:+ ip +:+ fp +:+ xp, s4)
      | None => None
      end
    | None => None
    end
  | None => None
  end.

(** ** Parsing *)
Definition max_nesting_depth : Z := 10000.

(** A number literal decoded into [any]; one outside the float64 range stays
    a [JOther], on which decoding into a Go value fails. *)
Definition number_value (lit : string) : json :=
  match parse_float lit with
  | Some f => JFloat f
  | None => JOther lit
  end.

(** Every recursive call is on a strictly shorter input, except the call
    [pelems] makes on its first element; hence the fuel in [parse]. *)
Fixpoint pval (fuel : nat) (depth : Z) (s : string) : option (json * string) :=
  match fuel with
  | O => None
  | S fuel =>
    match s with
    | EmptyString => None
    | String c r =>
      let b := byte c in
      if b =? 123 then
        if max_nesting_depth <=? depth then None else
        match skip_ws r with
        | EmptyString => None
        | String c1 r1 =>
          if byte c1 =? 125 then Some (JObj [], r1)
          else pmembers fuel (depth + 1) (String c1 r1) []
        end
      else if b =? 91 then
        if max_nesting_depth <=? depth then None else
        match skip_ws r with
        | EmptyString => None
        | String c1 r1 =>
          if byte c1 =? 93 then Some (JArr [], r1)
          else pelems fuel (depth + 1) (String c1 r1) []
        end
      else if b =? 34 then
        match lex_str r with
        | Some (t, r1) => Some (JStr t, r1)
        | None => None
        end
      else if b =? 116 then
        match strip_prefix "true" s with Some r1 => Some (JBool true, r1) | None => None end
      else if b =? 102 then
        match strip_prefix "false" s with Some r1 => Some (JBool false, r1) | None => None end
      else if b =? 110 then
        match strip_prefix "null" s with Some r1 => Some (JNull, r1) | None => None end
      else
        match lex_number s with
        | Some (lit, r1) => Some (number_value lit, r1)
        | None => None
        end
    end
  end
with pelems (fuel : nat) (depth : Z) (s : string) (acc : list json)
  : option (json * string) :=
  match fuel with
  | O => None
  | S fuel =>
    match pval fuel depth s with
    | None => None
    | Some (v, r) =>
      match skip_ws r with
      | EmptyString => None
      | String c r1 =>
        if byte c =? 44 then pelems fuel depth (skip_ws r1) (acc ++ [v])
        else if byte c =? 93 then Some (JArr (acc ++ [v]), r1)
        else None
      end
    end
  end
with pmembers (fuel : nat) (depth : Z) (s : string) (acc : list (string * json))
  : option (json * string) :=
  match fuel with
  | O => None
  | S fuel =>
    match s with
    | EmptyString => None
    | String q r =>
      if byte q =? 34 then
        match lex_str r with
        | None => None
        | Some (k, r1) =>
          match skip_ws r1 with
          | EmptyString => None
          | String c r2 =>
            if byte c =? 58 then
              match pval fuel depth (skip_ws r2) with
              | None => None
              | Some (v, r3) =>
                match skip_ws r3 with
                | EmptyString => None
                | String c' r4 =>
                  if byte c' =? 44 then pmembers fuel depth (skip_ws r4) (mset k v acc)
                  else if byte c' =? 125 then Some (JObj (mset k v acc), r4)
                  else None
                end
              end
            else None
          end
        end
      else None
    end
  end.

(** A whole document: one value between optional white space. *)
Definition parse (s : string) : option json :=
  let s := skip_ws s in
  match pval (2 * strlen s + 2) 0 s with
  | Some (v, r) => if decide (skip_ws r = "") then Some v else None
  | None => None
  end.

Fixpoint has_other (v : json) : bool :=
  match v with
  | JOther _ => true
  | JArr l => existsb has_other l
  | JObj m => existsb (fun kv => has_other kv.2) m
  | _ => false
  end.

(** [json.Unmarshal(data, &v)] for [var v any]. *)
Definition unmarshal_any (s : string) : option json :=
  match parse s with
  | Some v => if has_other v then None else Some v
  | None => None
  end.

(** ** Lexing a literal followed by more input *)

(** [s] cannot continue a number literal. *)
Definition num_end (s : string) : bool :=
  match s with
  | EmptyString => true
  | String c _ => negb (is_digit c) && negb (byte c =? 46)
                  && negb (byte c =? 101) && negb (byte c =? 69)
  end.

Lemma num_end_head c s : num_end (String c s) = true ->
  is_digit c = false /\ (byte c =? 46) = false
  /\ (byte c =? 101) = false /\ (byte c =? 69) = false.
Proof. simpl. rewrite !andb_true_iff, !negb_true_iff. tauto. Qed.

Lemma span_digits_ext s ds r t : span_digits s = (ds, r) -> num_end t = true ->
  span_digits (s +:+ t) = (ds, r +:+ t).
Proof.
  intros (-> & Hd & Hr)%span_digits_spec Ht. rewrite sapp_assoc.
  apply span_digits_app; [done|]. intros c u.
  destruct r as [|c' r]; rewrite ?app_nil_l, ?app_cons.
  - intros ->. by apply num_end_head in Ht as [? _].
  - intros [=]. subst. by apply (Hr c r).
Qed.

Lemma lex_int_ext s ip r t : lex_int s = Some (ip, r) -> num_end t = true ->
  lex_int (s +:+ t) = Some (ip, r +:+ t).
Proof.
  intros H Ht. destruct s as [|c s]; [done|]. unfold lex_int in *.
  rewrite app_cons. destruct (byte c =? 48); [by simplify_eq|].
  destruct (is_digit c); [|done]. injection H as H.
  rewrite <- app_cons. f_equal. by apply span_digits_ext.
Qed.

Lemma lex_frac_ext s fp r t : lex_frac s = Some (fp, r) -> num_end t = true ->
  lex_frac (s +:+ t) = Some (fp, r +:+ t).
Proof.
  intros H Ht. unfold lex_frac in *. destruct s as [|c s].
  - rewrite app_nil_l. injection H as <- <-. destruct t as [|c t]; [done|].
    apply num_end_head in Ht as (_ & -> & _). done.
  - rewrite app_cons. destruct (byte c =? 46); [|by simplify_eq].
    destruct (span_digits s) as [ds r1] eqn:E.
    rewrite (span_digits_ext _ _ _ _ E Ht). by case_bool_decide; simplify_eq.
Qed.

Lemma lex_exp_ext s xp r t : lex_exp s = Some (xp, r) -> num_end t = true ->
  lex_exp (s +:+ t) = Some (xp, r +:+ t).
Proof.
  intros H Ht. unfold lex_exp in *. destruct s as [|c s].
  - rewrite app_nil_l. injection H as <- <-. destruct t as [|c t]; [done|].
    apply num_end_head in Ht as (_ & _ & -> & ->). done.
  - rewrite app_cons. destruct ((byte c =? 101) || (byte c =? 69)); [|by simplify_eq].
    destruct s as [|c1 s]; [done|]. rewrite app_cons.
    destruct ((byte c1 =? 45) || (byte c1 =? 43)).
    + destruct (span_digits s) as [ds r1] eqn:E.
      rewrite (span_digits_ext _ _ _ _ E Ht). by case_bool_decide; simplify_eq.
    + destruct (span_digits (String c1 s)) as [ds r1] eqn:E.
      rewrite <- app_cons, (span_digits_ext _ _ _ _ E Ht). by case_bool_decide; simplify_eq.
Qed.

(** A number literal is lexed the same whatever follows it, provided that
    does not continue the number. *)
Lemma lex_number_ext s lit r t : lex_number s = Some (lit, r) -> num_end t = true ->
  lex_number (s +:+ t) = Some (lit, r +:+ t).
Proof.
  intros H Ht. unfold lex_number in *. destruct s as [|c s]; [done|].
  rewrite app_cons. destruct (byte c =? 45).
  all: match goal with
       | H : match lex_int ?u with _ => _ end = _ |- _ =>
         destruct (lex_int u) as [[ip s2]|] eqn:E1; [|done]
       end;
       destruct (lex_frac s2) as [[fp s3]|] eqn:E2; [|done];
       destruct (lex_exp s3) as [[xp s4]|] eqn:E3; [|done].
  - rewrite (lex_int_ext _ _ _ _ E1 Ht), (lex_frac_ext _ _ _ _ E2 Ht),
      (lex_exp_ext _ _ _ _ E3 Ht). by simplify_eq.
  - rewrite <- app_cons, (lex_int_ext _ _ _ _ E1 Ht), (lex_frac_ext _ _ _ _ E2 Ht),
      (lex_exp_ext _ _ _ _ E3 Ht). by simplify_eq.
Qed.

(** The decimal text of an integer is a number literal. *)
Lemma lex_int_utoa n : 0 <= n -> lex_int (utoa n) = Some (utoa n, "").
Proof.
  intros Hn. destruct (utoa_spec n Hn) as (d & ds & -> & Hd & Hds & H0 & Hp).
  unfold lex_int. rewrite byte_digit by lia.
  destruct (Z.eq_dec n 0) as [Hz|Hz].
  - destruct (H0 Hz) as [-> ->]. done.
  - replace (48 + d =? 48) with false by lia. rewrite is_digit_digit by lia.
    f_equal. rewrite <- (sapp_nil_r (String (digit d) ds)) at 1.
    apply span_digits_app; [|done]. simpl. by rewrite is_digit_digit, Hds by lia.
Qed.

Lemma lex_number_itoa z : lex_number (itoa z) = Some (itoa z, "").
Proof.
  unfold itoa. destruct (z <? 0) eqn:E.
  - unfold lex_number. rewrite app_cons, app_nil_l.
    replace (byte "-" =? 45) with true by reflexivity.
    rewrite lex_int_utoa by lia. simpl. by rewrite !sapp_nil_r, app_cons.
  - unfold lex_number. pose proof (lex_int_utoa z ltac:(lia)) as H.
    destruct (utoa_spec z ltac:(lia)) as (d & ds & Heq & Hd & _). rewrite Heq in *.
    rewrite byte_digit by lia. replace (48 + d =? 45) with false by lia.
    rewrite H. simpl. by rewrite sapp_nil_r.
Qed.
