(* ===== verification/GoStruct.v ===== *)
(** * Decoding JSON into Go structs

    [json.Unmarshal(data, &s)] for a struct [s]: the members of the top-level
    object are visited in source order, each is matched to a field by exact
    and then by case-folded name, and a type mismatch is remembered while
    decoding goes on.  A [json.RawMessage] field keeps the member's text. *)

From S2P Require Import Prelude GoText GoJson.

(** The first [n] bytes of a string. *)
Definition stake (n : nat) (s : string) : string := String.substring 0 n s.

(** A member of the top-level object: key, source text and decoded value. *)
Record member := MkMember { m_key : string; m_raw : string; m_val : json }.

Inductive document :=
| DObject (ms : list member)
| DNull
| DOther.

(** The members of an object whose opening brace has been read. *)
Fixpoint raw_members (fuel : nat) (s : string) (acc : list member)
  : option (list member * string) :=
  match fuel with
  | O => None
  | S fuel =>
    match s with
    | EmptyString => None
    | String q r =>
      if byte q =? 34 then
        match lex_str r with
        | None => None
        | Some (k, r1) =>
          match skip_ws r1 with
          | EmptyString => None
          | String c r2 =>
            if byte c =? 58 then
              let vs := skip_ws r2 in
              match pval (2 * strlen vs + 2) 1 vs with
              | None => None
              | Some (v, r3) =>
                let acc := acc ++ [MkMember k (stake (strlen vs - strlen r3) vs) v] in
                match skip_ws r3 with
                | EmptyString => None
                | String c' r4 =>
                  if byte c' =? 44 then raw_members fuel (skip_ws r4) acc
                  else if byte c' =? 125 then Some (acc, r4)
                  else None
                end
              end
            else None
          end
        end
      else None
    end
  end.

(** The whole input is checked before any field is set. *)
Definition read_document (data : string) : option document :=
  let s := skip_ws data in
  match s with
  | String c r =>
    if byte c =? 123 then
      match skip_ws r with
      | EmptyString => None
      | String c1 r1 =>
        if byte c1 =? 125 then if bool_decide (skip_ws r1 = "") then Some (DObject []) else None
        else match raw_members (strlen s) (String c1 r1) [] with
             | Some (ms, rest) => if bool_decide (skip_ws rest = "") then Some (DObject ms) else None
             | None => None
             end
      end
    else match parse data with
         | None => None
         | Some JNull => Some DNull
         | Some _ => Some DOther
         end
  | EmptyString => None
  end.

(** [foldName] of encoding/json, on the runes that fold to ASCII letters;
    other runes never match a field of the program, whose names are ASCII. *)
Definition fold_rune (r : Z) : Z :=
  if in_range 97 122 r then r - 32
  else if r =? 383 then 83 else if r =? 8490 then 75 else r.
Definition fold_name (s : string) : list Z := map fold_rune (runes s).

(** [strings.EqualFold] against an ASCII string. *)
Definition fold_equal (s t : string) : bool := bool_decide (fold_name s = fold_name t).

(** The field a key is decoded into. *)
Definition match_field (fields : list string) (key : string) : option string :=
  if decide (key ∈ fields) then Some key
  else List.find (fun f => fold_equal f key) fields.

(** ** Field decoders: new value and whether the member's type fits *)
Definition set_string (old : string) (m : member) : string * bool :=
  match m_val m with
  | JStr s => (s, true)
  | JNull => (old, true)
  | _ => (old, false)
  end.

(** [strconv.ParseInt(text, 10, 64)] on a number literal. *)
Definition parse_int (text : string) : option Z :=
  let '(neg, ds) := match text with
                    | String c r => if byte c =? 45 then (true, r) else (false, text)
                    | EmptyString => (false, text)
                    end in
  if bool_decide (ds = "") || negb (all_digits ds) then None
  else let z := if neg : bool then - digits_value 0 ds else digits_value 0 ds in
       if (int64_min <=? z) && (z <=? int64_max) then Some z else None.
(** [json.Unmarshal] into a map; [null] gives the nil map. *)
Definition unmarshal_map (s : string) : option gomap :=
  match parse s with
  | Some (JObj m) => if has_other (JObj m) then None else Some (Some m)
  | Some JNull => Some None
  | _ => None
  end.
(** [strconv.Atoi]: an optional sign and digits, in the int64 range. *)
Definition atoi (s : string) : option Z :=
  match s with
  | String c r => if byte c =? 43 then (if has_prefix r "-" then None else parse_int r)
                  else parse_int s
  | EmptyString => None
  end.
Definition set_int (old : Z) (m : member) : Z * bool :=
  match m_val m with
  | JNull => (old, true)
  | JFloat _ | JOther _ =>
    match parse_int (m_raw m) with Some z => (z, true) | None => (old, false) end
  | _ => (old, false)
  end.

(** [map[string]any]: an existing map is reused and keeps its entries. *)
Definition set_map (old : gomap) (m : member) : gomap * bool :=
  match m_val m with
  | JObj kvs => (Some (foldl (fun acc kv => mset kv.1 kv.2 acc) (default [] old) kvs),
                 negb (has_other (JObj kvs)))
  | JNull => (None, true)
  | _ => (old, false)
  end.

(** [json.RawMessage] and [*json.RawMessage]. *)
Definition set_raw (m : member) : string := m_raw m.
Definition set_raw_ptr (m : member) : option string :=
  match m_val m with JNull => None | _ => Some (m_raw m) end.

(** The elements of a JSON array decoded into a [[]string]: a null element
    leaves the slot as it is. *)
Fixpoint set_strings (old : list string) (l : list json) : list string * bool :=
  match l with
  | [] => ([], true)
  | v :: l' =>
    let prev := default "" (head old) in
    let '(rest, ok) := set_strings (tail old) l' in
    match v with
    | JStr s => (s :: rest, ok)
    | JNull => (prev :: rest, ok)
    | _ => (prev :: rest, false)
    end
  end.
Definition set_string_list (old : list string) (v : json) : list string * bool :=
  match v with
  | JArr l => set_strings old l
  | JNull => ([], true)
  | _ => (old, false)
  end.

Section unmarshal.
Context {S : Type} (fields : list string) (set_field : string -> member -> S -> S * bool).

Definition decode_member (acc : S * bool) (m : member) : S * bool :=
  match match_field fields (m_key m) with
  | Some f => let '(s, ok) := set_field f m acc.1 in (s, acc.2 && ok)
  | None => acc
  end.

(** The struct after decoding and whether the error is nil. *)
Definition unmarshal_struct (data : string) (zero : S) : S * bool :=
  match read_document data with
  | None => (zero, false)
  | Some DNull => (zero, true)
  | Some DOther => (zero, false)
  | Some (DObject ms) => foldl decode_member (zero, true) ms
  end.
End unmarshal.

(** ** Nested values

    A field of struct type is decoded from the member's text, over the value
    it has; a [[]T] of structs element by element, over the elements it has. *)
Definition of_raw (raw : string) : member :=
  MkMember "" raw (default JNull (parse raw)).

(** The elements of an array whose opening bracket has been read. *)
Fixpoint raw_elements (fuel : nat) (s : string) (acc : list string) : option (list string) :=
  match fuel with
  | O => None
  | S fuel =>
    let vs := skip_ws s in
    match pval (2 * strlen vs + 2) 1 vs with
    | None => None
    | Some (_, r) =>
      let acc := acc ++ [stake (strlen vs - strlen r) vs] in
      match skip_ws r with
      | EmptyString => None
      | String c r' =>
        if byte c =? 44 then raw_elements fuel r' acc
        else if byte c =? 93 then Some acc
        else None
      end
    end
  end.
Definition array_elements (raw : string) : list string :=
  match skip_ws raw with
  | String _ r =>
    match skip_ws r with
    | String c _ => if byte c =? 93 then [] else default [] (raw_elements (strlen raw) r [])
    | EmptyString => []
    end
  | EmptyString => []
  end.

Definition set_struct {S} (fields : list string) (set_field : string -> member -> S -> S * bool)
  (old : S) (m : member) : S * bool :=
  unmarshal_struct fields set_field (m_raw m) old.

Fixpoint set_elements {S} (decode : S -> member -> S * bool) (zero : S) (old : list S)
  (raws : list string) : list S * bool :=
  match raws with
  | [] => ([], true)
  | r :: raws =>
    let '(x, ok) := decode (default zero (head old)) (of_raw r) in
    let '(xs, ok') := set_elements decode zero (tail old) raws in
    (x :: xs, ok && ok')
  end.
Definition set_list {S} (decode : S -> member -> S * bool) (zero : S) (old : list S) (m : member)
  : list S * bool :=
  match m_val m with
  | JArr _ => set_elements decode zero old (array_elements (m_raw m))
  | JNull => ([], true)
  | _ => (old, false)
  end.

(** [map[string]string]; [None] is the nil map. *)
Definition smap := option (list (string * string)).
Definition sget (m : smap) (k : string) : string :=
  match m with Some l => default "" (assoc k l) | None => "" end.
Definition set_string_map (old : smap) (m : member) : smap * bool :=
  match read_document (m_raw m) with
  | Some (DObject ms) =>
    let '(l, ok) :=
      foldl (fun acc mm => let '(v, ok) := set_string "" mm in (mset (m_key mm) v acc.1, acc.2 && ok))
        (default [] old, true) ms in
    (Some l, ok)
  | Some DNull => (None, true)
  | _ => (old, false)
  end.

Example duplicate_members :
  read_document (" {" +:+ String (chr 34) ("a" +:+ String (chr 34) " : [1] , ")
                 +:+ String (chr 34) ("A" +:+ String (chr 34) ": {} }"))
  = Some (DObject [MkMember "a" "[1]" (JArr [number_value "1"]); MkMember "A" "{}" (JObj [])]).
Proof. vm_compute. reflexivity. Qed.

Example nested_array :
  array_elements " [ {} , [1, 2],null]" = ["{}"; "[1, 2]"; "null"].
Proof. vm_compute. reflexivity. Qed.

Lemma atoi_itoa n : 0 <= n <= int64_max -> atoi (itoa n) = Some n.
Proof.
  intros Hn. unfold itoa. replace (n <? 0) with false by lia. destruct (utoa_spec n) as (d & ds & E & Hd & Hds & _); [lia|].
  pose proof (byte_digit d Hd) as Hb. unfold atoi, parse_int. rewrite E. replace (byte (digit d) =? 43) with false by lia.
  replace (byte (digit d) =? 45) with false by lia. rewrite bool_decide_eq_false_2 by done. rewrite <- E, digits_value_utoa by lia.
  rewrite E. cbn [all_digits]. rewrite is_digit_digit, Hds by done. cbn [negb andb orb].
  destruct (Z.leb_spec int64_min n), (Z.leb_spec n int64_max); try done; unfold int64_min in *; lia.
Qed.
