(* ===== verification/GoCrypto.v ===== *)
(** * Hashing and byte encodings

    [crypto/sha256], [crypto/hmac], [encoding/hex] and
    [base64.StdEncoding], on byte strings.  The public-key primitives
    (Ed25519 and RSA-OAEP) are parameters of the components that use them. *)

From S2P Require Import Prelude GoText.

(** ** SHA-256 (FIPS 180-4) on 32-bit words *)
Module Sha256.
Definition w32 (z : Z) : Z := z mod 2 ^ 32.
Definition add32 (x y : Z) : Z := w32 (x + y).
Definition rotr (n x : Z) : Z := Z.lor (Z.shiftr x n) (w32 (Z.shiftl x (32 - n))).
Definition not32 (x : Z) : Z := Z.lxor x (2 ^ 32 - 1).

Definition ch (x y z : Z) : Z := Z.lxor (Z.land x y) (Z.land (not32 x) z).
Definition maj (x y z : Z) : Z := Z.lxor (Z.lxor (Z.land x y) (Z.land x z)) (Z.land y z).
Definition bsig0 (x : Z) : Z := Z.lxor (Z.lxor (rotr 2 x) (rotr 13 x)) (rotr 22 x).
Definition bsig1 (x : Z) : Z := Z.lxor (Z.lxor (rotr 6 x) (rotr 11 x)) (rotr 25 x).
Definition ssig0 (x : Z) : Z := Z.lxor (Z.lxor (rotr 7 x) (rotr 18 x)) (Z.shiftr x 3).
Definition ssig1 (x : Z) : Z := Z.lxor (Z.lxor (rotr 17 x) (rotr 19 x)) (Z.shiftr x 10).

(** The constants, as the standard defines them: the first 32 bits of the
    fractional parts of the cube roots of the first 64 primes, and of the
    square roots of the first 8 for the initial state. *)
Definition is_prime (n : nat) : bool :=
  forallb (fun d => negb (Nat.eqb (Nat.modulo n d) 0)) (seq 2 (n - 2)).
Definition primes : list Z :=
  Eval vm_compute in (fun n => Z.of_nat n) <$> List.filter is_prime (seq 2 310).

(** The largest [r] below [2 ^ bits] with [r ^ e <= n], bit by bit. *)
Fixpoint root (e : Z) (n : Z) (bits : nat) (acc : Z) : Z :=
  match bits with
  | O => acc
  | S b => let r := acc + 2 ^ Z.of_nat b in root e n b (if r ^ e <=? n then r else acc)
  end.
Definition root_fraction (e p : Z) : Z := w32 (root e (p * 2 ^ (32 * e)) 40 0).

Definition K : list Z := Eval vm_compute in root_fraction 3 <$> primes.

Record hash := Hash { ha : Z; hb : Z; hc : Z; hd : Z; he : Z; hf : Z; hg : Z; hh : Z }.
Definition init : hash := Eval vm_compute in
  let q (i : nat) := root_fraction 2 (nth i primes 0) in
  Hash (q 0%nat) (q 1%nat) (q 2%nat) (q 3%nat) (q 4%nat) (q 5%nat) (q 6%nat) (q 7%nat).

(** Big-endian words of a byte string. *)
Fixpoint words (s : string) : list Z :=
  match s with
  | String a (String b (String c (String d r))) =>
    (byte a * 16777216 + byte b * 65536 + byte c * 256 + byte d) :: words r
  | _ => []
  end.
Definition word_bytes (w : Z) : string :=
  String (chr (Z.shiftr w 24 mod 256)) (String (chr (Z.shiftr w 16 mod 256))
    (String (chr (Z.shiftr w 8 mod 256)) (String (chr (w mod 256)) ""))).

(** The message schedule, kept as the last 16 words, newest first. *)
Fixpoint schedule (n : nat) (prev : list Z) : list Z :=
  match n with
  | O => []
  | S n' =>
    let w := add32 (add32 (ssig1 (nth 1 prev 0)) (nth 6 prev 0))
                   (add32 (ssig0 (nth 14 prev 0)) (nth 15 prev 0)) in
    w :: schedule n' (w :: take 15 prev)
  end.

Definition round (s : hash) (kw : Z * Z) : hash :=
  let t1 := add32 (add32 (hh s) (bsig1 (he s)))
              (add32 (ch (he s) (hf s) (hg s)) (add32 kw.1 kw.2)) in
  let t2 := add32 (bsig0 (ha s)) (maj (ha s) (hb s) (hc s)) in
  Hash (add32 t1 t2) (ha s) (hb s) (hc s) (add32 (hd s) t1) (he s) (hf s) (hg s).

Definition compress (s : hash) (block : list Z) : hash :=
  let ws := block ++ schedule 48 (rev block) in
  let r := foldl round s (zip K ws) in
  Hash (add32 (ha s) (ha r)) (add32 (hb s) (hb r)) (add32 (hc s) (hc r)) (add32 (hd s) (hd r))
       (add32 (he s) (he r)) (add32 (hf s) (hf r)) (add32 (hg s) (hg r)) (add32 (hh s) (hh r)).

Fixpoint blocks (n : nat) (s : hash) (ws : list Z) : hash :=
  match n with
  | O => s
  | S n' => blocks n' (compress s (take 16 ws)) (drop 16 ws)
  end.

Fixpoint zero_bytes (n : nat) : string :=
  match n with O => "" | S n' => String (chr 0) (zero_bytes n') end.

Definition pad (s : string) : string :=
  let len := Z.of_nat (strlen s) in
  let k := (55 - len) mod 64 in
  s +:+ String (chr 128) (zero_bytes (Z.to_nat k))
    +:+ word_bytes (Z.shiftr (len * 8) 32) +:+ word_bytes (w32 (len * 8)).

Definition sum256 (s : string) : string :=
  let p := pad s in
  let h := blocks (Nat.div (strlen p) 64) init (words p) in
  word_bytes (ha h) +:+ word_bytes (hb h) +:+ word_bytes (hc h) +:+ word_bytes (hd h)
  +:+ word_bytes (he h) +:+ word_bytes (hf h) +:+ word_bytes (hg h) +:+ word_bytes (hh h).
End Sha256.

Definition sha256 : string -> string := Sha256.sum256.

(** ** HMAC-SHA256 *)
Fixpoint xor_bytes (k : Z) (s : string) : string :=
  match s with
  | EmptyString => ""
  | String c r => String (chr (Z.lxor (byte c) k)) (xor_bytes k r)
  end.

Definition hmac_sha256 (key msg : string) : string :=
  let k := if (64 <? Z.of_nat (strlen key)) then sha256 key else key in
  let k := k +:+ Sha256.zero_bytes (64 - strlen k) in
  sha256 (xor_bytes 0x5c k +:+ sha256 (xor_bytes 0x36 k +:+ msg)).

(** ** [hex.EncodeToString] *)
Definition hex_lower (d : Z) : ascii := if d <? 10 then chr (48 + d) else chr (87 + d).
Fixpoint hex_encode (s : string) : string :=
  match s with
  | EmptyString => ""
  | String c r => String (hex_lower (byte c / 16)) (String (hex_lower (byte c mod 16)) (hex_encode r))
  end.

Lemma hex_lower_inj d e : 0 <= d < 16 -> 0 <= e < 16 -> hex_lower d = hex_lower e -> d = e.
Proof.
  unfold hex_lower. intros ? ? H%(f_equal byte).
  destruct (d <? 10) eqn:?, (e <? 10) eqn:?; rewrite !byte_chr in H; lia.
Qed.

Lemma hex_encode_inj s t : hex_encode s = hex_encode t -> s = t.
Proof.
  revert t. induction s as [|c s IH]; intros [|d t]; simpl; try done.
  intros [= Hh Hl Ht]. f_equal; [|by apply IH].
  pose proof (byte_range c). pose proof (byte_range d). apply byte_inj.
  apply hex_lower_inj in Hh; [|div_lia..]. apply hex_lower_inj in Hl; [|div_lia..]. div_lia.
Qed.

(** ** [base64.StdEncoding] *)
Definition b64_char (v : Z) : ascii :=
  if v <? 26 then chr (65 + v) else if v <? 52 then chr (71 + v)
  else if v <? 62 then chr (v - 4) else if v =? 62 then chr 43 else chr 47.
Definition b64_val (c : ascii) : option Z :=
  let b := byte c in
  if in_range 65 90 b then Some (b - 65)
  else if in_range 97 122 b then Some (b - 71)
  else if in_range 48 57 b then Some (b + 4)
  else if b =? 43 then Some 62 else if b =? 47 then Some 63 else None.

Fixpoint b64_encode (s : string) : string :=
  match s with
  | EmptyString => ""
  | String a EmptyString =>
    String (b64_char (byte a / 4)) (String (b64_char (byte a mod 4 * 16)) "==")
  | String a (String b EmptyString) =>
    String (b64_char (byte a / 4)) (String (b64_char (byte a mod 4 * 16 + byte b / 16))
      (String (b64_char (byte b mod 16 * 4)) "="))
  | String a (String b (String c r)) =>
    String (b64_char (byte a / 4)) (String (b64_char (byte a mod 4 * 16 + byte b / 16))
      (String (b64_char (byte b mod 16 * 4 + byte c / 64))
        (String (b64_char (byte c mod 64)) (b64_encode r))))
  end.

(** Decoding ignores CR and LF, needs complete padded quanta, and refuses
    anything after the padding. *)
Definition is_nl (c : ascii) : bool := (byte c =? 10) || (byte c =? 13).
Fixpoint strip_nl (s : string) : string :=
  match s with
  | EmptyString => ""
  | String c r => if is_nl c then strip_nl r else String c (strip_nl r)
  end.
Fixpoint b64_quanta (s : string) : option string :=
  match s with
  | EmptyString => Some ""
  | String a (String b (String c (String d r))) =>
    match b64_val a, b64_val b with
    | Some x, Some y =>
      let b0 := String (chr (x * 4 + y / 16)) "" in
      if byte d =? 61 then
        if bool_decide (r = "") then
          if byte c =? 61 then Some b0
          else match b64_val c with
               | Some z => Some (b0 +:+ String (chr (y mod 16 * 16 + z / 4)) "")
               | None => None
               end
        else None
      else
        match b64_val c, b64_val d with
        | Some z, Some w =>
          match b64_quanta r with
          | Some t => Some (b0 +:+ String (chr (y mod 16 * 16 + z / 4))
                              (String (chr (z mod 4 * 64 + w)) t))
          | None => None
          end
        | _, _ => None
        end
    | _, _ => None
    end
  | _ => None
  end.
Definition b64_decode (s : string) : option string := b64_quanta (strip_nl s).

(** ** Test vectors *)
Example sha256_abc :
  hex_encode (sha256 "abc") = "ba7816bf8f01cfea414140de5dae2223b00361a396177a9cb410ff61f20015ad".
Proof. vm_compute. reflexivity. Qed.
Example hmac_quick_brown_fox :
  hex_encode (hmac_sha256 "key" "The quick brown fox jumps over the lazy dog")
  = "f7bc83f430538424b13298e6aa6fb143ef4d59a14946175997479dbc2d1a3cd8".
Proof. vm_compute. reflexivity. Qed.
Example b64_man : b64_encode "Many hands" = "TWFueSBoYW5kcw==" /\ b64_decode "TWFueSBoYW5kcw==" = Some "Many hands".
Proof. split; vm_compute; reflexivity. Qed.
