(* ===== verification/GoTime.v ===== *)
(** * RFC 3339 timestamps: [time.Parse] with the RFC3339 layouts *)

From S2P Require Import Prelude GoText.

Definition is_leap (y : Z) : bool :=
  (y mod 4 =? 0) && (negb (y mod 100 =? 0) || (y mod 400 =? 0)).
Definition days_in (m y : Z) : Z :=
  if m =? 2 then (if is_leap y then 29 else 28)
  else if (m =? 4) || (m =? 6) || (m =? 9) || (m =? 11) then 30 else 31.
(** Days from 1 January of year 1 to 1 January of year [y]. *)
Definition days_before_year (y : Z) : Z :=
  let p := y - 1 in 365 * p + p / 4 - p / 100 + p / 400.
Fixpoint days_before_month (m : nat) (y : Z) : Z :=
  match m with
  | O | 1%nat => 0
  | S m' => days_before_month m' y + days_in (Z.of_nat m') y
  end.

(** [time.Date(...)] in UTC, as nanoseconds since the zero instant. *)
Definition civil (y mo d h mi s ns : Z) : time :=
  ((days_before_year y + days_before_month (Z.to_nat mo) y + (d - 1)) * 86400
   + h * 3600 + mi * 60 + s) * second + ns.

(** Exactly [n] digits. *)
Fixpoint take_num (n : nat) (acc : Z) (s : string) : option (Z * string) :=
  match n with
  | O => Some (acc, s)
  | S n' =>
    match s with
    | String c r => if is_digit c then take_num n' (acc * 10 + (byte c - 48)) r else None
    | EmptyString => None
    end
  end.
(** One or two digits, as the hour field allows. *)
Definition take_num12 (s : string) : option (Z * string) :=
  match take_num 2 0 s with
  | Some p => Some p
  | None => take_num 1 0 s
  end.
Definition expect (c : ascii) (s : string) : option string :=
  match s with
  | String d r => if decide (c = d) then Some r else None
  | EmptyString => None
  end.

(** Optional fractional seconds after the seconds field, truncated to
    nanoseconds. *)
Definition take_fraction (s : string) : Z * string :=
  match s with
  | String c r =>
    if (byte c =? 46) || (byte c =? 44) then
      let '(ds, r1) := span_digits r in
      if bool_decide (ds = "") then (0, s)
      else
        let ds9 := String.substring 0 9 ds in
        (digits_value 0 ds9 * 10 ^ (9 - Z.of_nat (strlen ds9)), r1)
    else (0, s)
  | EmptyString => (0, s)
  end.

(** [Z] or a [+hh:mm] / [-hh:mm] offset, in seconds east of UTC. *)
Definition take_zone (s : string) : option (Z * string) :=
  match s with
  | EmptyString => None
  | String c r =>
    if byte c =? 90 then Some (0, r)
    else if (byte c =? 43) || (byte c =? 45) then
      '(h, r1) ← take_num 2 0 r;
      r2 ← expect ":" r1;
      '(m, r3) ← take_num 2 0 r2;
      if (24 <? h) || (60 <? m) then None
      else Some ((if byte c =? 45 then -1 else 1) * (h * 3600 + m * 60), r3)
    else None
  end.

(** [time.Parse(time.RFC3339, s)] and [time.Parse(time.RFC3339Nano, s)]: both
    accept fractional seconds. *)
Definition parse_rfc3339 (s : string) : option time :=
  '(y, s) ← take_num 4 0 s; s ← expect "-" s;
  '(mo, s) ← take_num 2 0 s; s ← expect "-" s;
  '(d, s) ← take_num 2 0 s; s ← expect "T" s;
  '(h, s) ← take_num12 s; s ← expect ":" s;
  '(mi, s) ← take_num 2 0 s; s ← expect ":" s;
  '(sec, s) ← take_num 2 0 s;
  let '(ns, s) := take_fraction s in
  '(off, s) ← take_zone s;
  if bool_decide (s = "") && in_range 1 12 mo && (1 <=? d) && (d <=? days_in mo y)
     && (h <? 24) && (mi <? 60) && (sec <? 60)
  then Some (civil y mo d h mi sec ns - off * second)
  else None.

(** The Unix epoch is 62135596800 seconds after the zero instant. *)
Definition unix_to_internal : Z := 62135596800 * second.
Definition unix_seconds (t : time) : Z := (t - unix_to_internal) / second.

(** ** [t.UTC().Format(time.RFC3339)] *)
Definition pad (n : nat) (z : Z) : string :=
  let d := utoa z in String.concat "" (repeat "0" (n - strlen d)) +:+ d.
Definition year_and_day (days : Z) : Z * Z :=
  let n400 := days / 146097 in let r := days mod 146097 in
  let n100 := Z.min 3 (r / 36524) in let r := r - n100 * 36524 in
  let n4 := r / 1461 in let r := r - n4 * 1461 in
  let n1 := Z.min 3 (r / 365) in
  (400 * n400 + 100 * n100 + 4 * n4 + n1 + 1, r - n1 * 365).
Fixpoint month_and_day (fuel : nat) (m y d : Z) : Z * Z :=
  match fuel with
  | O => (m, d + 1)
  | S fuel => if d <? days_in m y then (m, d + 1) else month_and_day fuel (m + 1) y (d - days_in m y)
  end.
Definition format_rfc3339 (t : time) : string :=
  let secs := t / second in
  let '(y, yd) := year_and_day (secs / 86400) in
  let '(m, d) := month_and_day 11 1 y yd in
  let s := secs mod 86400 in
  pad 4 y +:+ "-" +:+ pad 2 m +:+ "-" +:+ pad 2 d +:+ "T" +:+ pad 2 (s / 3600) +:+ ":"
  +:+ pad 2 (s mod 3600 / 60) +:+ ":" +:+ pad 2 (s mod 60) +:+ "Z".

Example format_leap_day :
  format_rfc3339 (unix_to_internal + 1709188200 * second) = "2024-02-29T06:30:00Z".
Proof. vm_compute. reflexivity. Qed.
Example format_last_day : format_rfc3339 (civil 2000 12 31 23 59 59 5) = "2000-12-31T23:59:59Z".
Proof. vm_compute. reflexivity. Qed.
Example parse_epoch : parse_rfc3339 "1970-01-01T00:00:00Z" = Some unix_to_internal.
Proof. reflexivity. Qed.
Example parse_offset :
  parse_rfc3339 "2024-02-29T12:00:00.5+05:30" = Some (unix_to_internal + 1709188200 * second + 500 * millisecond).
Proof. vm_compute. reflexivity. Qed.
Example parse_bad_day : parse_rfc3339 "2023-02-29T12:00:00Z" = None.
Proof. reflexivity. Qed.

(** ** Formatting and parsing are inverse *)

(** Days to year and day of the year, for all days from year 1 on. *)
Lemma year_and_day_spec days y yd : 0 <= days -> year_and_day days = (y, yd) ->
  1 <= y /\ days_before_year y + yd = days /\ 0 <= yd < 365 + (if is_leap y then 1 else 0).
Proof.
  intros Hd. unfold year_and_day.
  set (a := days / 146097). set (r := days mod 146097).
  set (b := Z.min 3 (r / 36524)). set (r1 := r - b * 36524).
  set (c := r1 / 1461). set (r2 := r1 - c * 1461).
  set (d := Z.min 3 (r2 / 365)). intros [= <- <-].
  assert (0 <= r < 146097 /\ days = 146097 * a + r) as [Hr Ha] by (subst a r; div_lia).
  assert (0 <= b <= 3 /\ 0 <= r1 < 36525 /\ (b < 3 -> r1 < 36524) /\ r = 36524 * b + r1)
    as (Hb & Hr1 & Hb3 & Hb4) by (subst b r1; div_lia).
  assert (0 <= c <= 24 /\ 0 <= r2 <= 1460 /\ r1 = 1461 * c + r2) as (Hc & Hr2 & Hc2) by (subst c r2; div_lia).
  assert (0 <= d <= 3 /\ 0 <= r2 - d * 365 <= 365 /\ (r2 - d * 365 = 365 -> d = 3)) as (Hd3 & Hyd & Hlast)
    by (subst d; div_lia).
  assert (0 <= a) by (subst a; div_lia).
  clearbody a r b r1 c r2 d.
  set (p := 400 * a + 100 * b + 4 * c + d).
  assert (p / 4 = 100 * a + 25 * b + c) as E4 by (subst p; div_lia).
  assert (p / 100 = 4 * a + b) as E100 by (subst p; div_lia).
  assert (p / 400 = a) as E400 by (subst p; div_lia).
  replace (400 * a + 100 * b + 4 * c + d + 1) with (p + 1) by (subst p; lia).
  split; [subst p; lia|]. unfold days_before_year. replace (p + 1 - 1) with p by lia.
  rewrite E4, E100, E400. split; [subst p; lia|].
  destruct (Z.eq_dec (r2 - d * 365) 365) as [E|]; [|destruct (is_leap (p + 1)); lia].
  specialize (Hlast E). subst d.
  assert (is_leap (p + 1) = true) as ->; [|lia].
  unfold is_leap. apply andb_true_iff. split; [apply Z.eqb_eq; subst p; div_lia|].
  apply orb_true_iff. destruct (Z.eq_dec c 24) as [->|].
  - right. apply Z.eqb_eq. assert (b = 3) by lia. subst p. div_lia.
  - left. apply negb_true_iff, Z.eqb_neq. subst p. div_lia.
Qed.

(** Days left from month [m] to the end of the year. *)
Fixpoint days_left (n : nat) (m y : Z) : Z :=
  match n with
  | O => days_in m y
  | S n => days_in m y + days_left n (m + 1) y
  end.

Lemma days_before_month_S m y : 1 <= m ->
  days_before_month (Z.to_nat (m + 1)) y = days_before_month (Z.to_nat m) y + days_in m y.
Proof.
  intros Hm. replace (Z.to_nat (m + 1)) with (S (Z.to_nat m)) by lia.
  destruct (Z.to_nat m) as [|k] eqn:E; [lia|]. cbn [days_before_month].
  replace (Z.of_nat (S k)) with m by lia. reflexivity.
Qed.

Lemma month_and_day_spec n m y yd mo d : 1 <= m -> m + Z.of_nat n = 12 -> 0 <= yd < days_left n m y ->
  month_and_day n m y yd = (mo, d) ->
  1 <= mo <= 12 /\ 1 <= d <= days_in mo y /\
  days_before_month (Z.to_nat mo) y + (d - 1) = days_before_month (Z.to_nat m) y + yd.
Proof.
  revert m yd. induction n as [|n IH]; intros m yd Hm Hn Hyd; cbn [month_and_day days_left] in *.
  - intros [= <- <-]. lia.
  - destruct (Z.ltb_spec yd (days_in m y)) as [Hl|Hl]; [intros [= <- <-]; lia|].
    intros H. apply IH in H; [|lia|lia|lia]. rewrite days_before_month_S in H by lia. lia.
Qed.

Lemma year_length y : days_left 11 1 y = 365 + (if is_leap y then 1 else 0).
Proof. unfold days_left, days_in. simpl. destruct (is_leap y); reflexivity. Qed.

(** The digits of a padded number. *)
Definition pad2_ok (z : Z) : bool :=
  bool_decide (pad 2 z = String (digit (z / 10)) (String (digit (z mod 10)) "")).
Definition pad4_ok (z : Z) : bool :=
  bool_decide (pad 4 z = String (digit (z / 1000)) (String (digit (z / 100 mod 10))
    (String (digit (z / 10 mod 10)) (String (digit (z mod 10)) "")))).
Lemma all_below (f : Z -> bool) n z :
  forallb (fun i => f (Z.of_nat i)) (seq 0 n) = true -> 0 <= z < Z.of_nat n -> f z = true.
Proof.
  rewrite forallb_forall. intros H Hz. specialize (H (Z.to_nat z)).
  rewrite Z2Nat.id in H by lia. apply H. apply in_seq. lia.
Qed.
Lemma pad2 z : 0 <= z < 100 -> pad 2 z = String (digit (z / 10)) (String (digit (z mod 10)) "").
Proof.
  intros Hz. assert (pad2_ok z = true) as H; [|by apply bool_decide_eq_true in H].
  apply (all_below pad2_ok 100); [vm_compute; reflexivity|lia].
Qed.
Lemma pad4 z : 0 <= z < 10000 ->
  pad 4 z = String (digit (z / 1000)) (String (digit (z / 100 mod 10))
    (String (digit (z / 10 mod 10)) (String (digit (z mod 10)) ""))).
Proof.
  intros Hz. assert (pad4_ok z = true) as H; [|by apply bool_decide_eq_true in H].
  apply (all_below pad4_ok (Z.to_nat 10000)); [vm_compute; reflexivity|lia].
Qed.

Lemma take_digit n acc d s : 0 <= d < 10 ->
  take_num (S n) acc (String (digit d) s) = take_num n (acc * 10 + d) s.
Proof.
  intros Hd. cbn [take_num]. unfold is_digit, digit. rewrite byte_chr by lia.
  replace (in_range 48 57 (48 + d)) with true by (symmetry; apply in_range_true; lia).
  f_equal. lia.
Qed.
Lemma take_pad2 z s : 0 <= z < 100 -> take_num 2 0 (pad 2 z +:+ s) = Some (z, s).
Proof.
  intros Hz. rewrite pad2 by done. rewrite !app_cons, app_nil_l.
  rewrite !take_digit by div_lia. cbn [take_num]. f_equal. f_equal. div_lia.
Qed.
Lemma take_pad4 z s : 0 <= z < 10000 -> take_num 4 0 (pad 4 z +:+ s) = Some (z, s).
Proof.
  intros Hz. rewrite pad4 by done. rewrite !app_cons, app_nil_l.
  rewrite !take_digit by div_lia. cbn [take_num]. f_equal. f_equal. div_lia.
Qed.

(** The first instant of year 10000. *)
Definition year_10000 : time := days_before_year 10000 * 86400 * second.

Lemma rfc3339_roundtrip t : 0 <= t < year_10000 ->
  parse_rfc3339 (format_rfc3339 t) = Some (t / second * second).
Proof.
  intros Ht. unfold format_rfc3339. set (secs := t / second).
  assert (0 <= secs < days_before_year 10000 * 86400) as Hs.
  { subst secs. unfold year_10000, second in *. split; [apply Z.div_pos; lia|].
    apply Z.div_lt_upper_bound; lia. }
  clearbody secs. clear t Ht.
  destruct (year_and_day (secs / 86400)) as [y yd] eqn:Ey.
  apply year_and_day_spec in Ey as (Hy & Ed & Hyd); [|div_lia].
  destruct (month_and_day 11 1 y yd) as [mo d] eqn:Em.
  apply month_and_day_spec in Em as (Hmo & Hd & Edm); [|lia|done|rewrite year_length; lia].
  change (days_before_month (Z.to_nat 1) y) with 0 in Edm.
  assert (y < 10000) as Hy2.
  { destruct (Z_lt_ge_dec y 10000) as [|Hge]; [done|]. exfalso.
    assert (days_before_year 10000 <= days_before_year y) by (unfold days_before_year; div_lia).
    assert (secs / 86400 < days_before_year 10000) by (apply Z.div_lt_upper_bound; lia). lia. }
  assert (d <= 31) by (unfold days_in in Hd; repeat case_match; lia).
  unfold parse_rfc3339. rewrite take_pad4 by lia. cbn [mbind option_bind].
  rewrite ?app_cons, ?app_nil_l. cbn [expect]. rewrite decide_True by done. cbn [mbind option_bind].
  rewrite take_pad2 by lia. cbn [mbind option_bind expect]. rewrite ?app_cons, ?app_nil_l.
  cbn [expect]. rewrite decide_True by done. cbn [mbind option_bind].
  rewrite take_pad2 by lia. cbn [mbind option_bind expect]. rewrite ?app_cons, ?app_nil_l.
  cbn [expect]. rewrite decide_True by done. cbn [mbind option_bind].
  unfold take_num12. rewrite take_pad2 by div_lia. cbn [mbind option_bind expect]. rewrite ?app_cons, ?app_nil_l.
  cbn [expect]. rewrite decide_True by done. cbn [mbind option_bind].
  rewrite take_pad2 by div_lia. cbn [mbind option_bind expect]. rewrite ?app_cons, ?app_nil_l.
  cbn [expect]. rewrite decide_True by done. cbn [mbind option_bind].
  rewrite take_pad2 by div_lia. cbn [mbind option_bind].
  change (take_fraction "Z") with (0, "Z"). cbn iota. change (take_zone "Z") with (Some (0, "")).
  cbn [mbind option_bind].
  assert (in_range 1 12 mo = true) as -> by (apply in_range_true; lia).
  rewrite bool_decide_true by done.
  rewrite (proj2 (Z.leb_le 1 d)), (proj2 (Z.leb_le d _)) by lia.
  rewrite !(proj2 (Z.ltb_lt _ _)) by div_lia. simpl. f_equal. unfold civil.
  assert (secs mod 86400 / 3600 * 3600 + secs mod 86400 mod 3600 / 60 * 60 + secs mod 86400 mod 60
          = secs mod 86400) by div_lia.
  assert (secs = secs / 86400 * 86400 + secs mod 86400) by div_lia.
  unfold second. lia.
Qed.
