(* ===== verification/GoFloat.v ===== *)
(** * float64 arithmetic and fixed-point formatting

    The operations of the language and of package math on binary64, by exact
    rational arithmetic and one rounding to nearest, ties to even; [%.nf]
    rounds the exact value.  Converting an out-of-range value to an integer
    is left to the implementation by the language; the result here is the one
    of amd64. *)

From S2P Require Import Prelude GoText.

Definition float_zero : float64 := F64 false 0 (-1074).
Definition signed (neg : bool) (m : Z) : Z := if neg then - m else m.
(** [p / d] rounded, for [0 <= p] and [0 < d]. *)
Definition of_ratio (neg : bool) (p d : Z) : float64 :=
  if p =? 0 then F64 neg 0 (-1074)
  else match round_rat p d with
       | Some (m, e) => F64 neg m (if m =? 0 then -1074 else e)
       | None => F64Inf neg
       end.
(** [p * 2^e / d]. *)
Definition of_scaled (neg : bool) (p e d : Z) : float64 :=
  if 0 <=? e then of_ratio neg (p * 2 ^ e) d else of_ratio neg p (d * 2 ^ (- e)).
Definition f_of_Z (z : Z) : float64 := of_ratio (z <? 0) (Z.abs z) 1.

Definition f_neg (a : float64) : float64 :=
  match a with F64 s m e => F64 (negb s) m e | F64Inf s => F64Inf (negb s) | F64NaN => F64NaN end.
Definition f_abs (a : float64) : float64 :=
  match a with F64 _ m e => F64 false m e | F64Inf _ => F64Inf false | F64NaN => F64NaN end.
Definition float_add (a b : float64) : float64 :=
  match a, b with
  | F64 s m e, F64 s' m' e' =>
    let e0 := Z.min e e' in
    let n := signed s (m * 2 ^ (e - e0)) + signed s' (m' * 2 ^ (e' - e0)) in
    if n =? 0 then F64 (s && s') 0 (-1074) else of_scaled (n <? 0) (Z.abs n) e0 1
  | F64NaN, _ | _, F64NaN => F64NaN
  | F64Inf s, F64Inf s' => if Bool.eqb s s' then F64Inf s else F64NaN
  | F64Inf s, _ | _, F64Inf s => F64Inf s
  end.
Definition f_sub (a b : float64) : float64 := float_add a (f_neg b).
Definition f_mul (a b : float64) : float64 :=
  match a, b with
  | F64NaN, _ | _, F64NaN => F64NaN
  | F64 s m e, F64 s' m' e' => of_scaled (xorb s s') (m * m') (e + e') 1
  | F64Inf s, F64 s' m _ | F64 s' m _, F64Inf s => if m =? 0 then F64NaN else F64Inf (xorb s s')
  | F64Inf s, F64Inf s' => F64Inf (xorb s s')
  end.
Definition f_div (a b : float64) : float64 :=
  match a, b with
  | F64NaN, _ | _, F64NaN | F64Inf _, F64Inf _ => F64NaN
  | F64Inf s, F64 s' _ _ => F64Inf (xorb s s')
  | F64 s _ _, F64Inf s' => F64 (xorb s s') 0 (-1074)
  | F64 s m e, F64 s' m' e' =>
    if m' =? 0 then (if m =? 0 then F64NaN else F64Inf (xorb s s'))
    else of_scaled (xorb s s') m (e - e') m'
  end.

(** Comparison; [None] if one is NaN. *)
Definition f_compare (a b : float64) : option comparison :=
  match a, b with
  | F64NaN, _ | _, F64NaN => None
  | F64Inf s, F64Inf s' => Some (if Bool.eqb s s' then Eq else if s then Lt else Gt)
  | F64Inf s, _ => Some (if s then Lt else Gt)
  | _, F64Inf s => Some (if s then Gt else Lt)
  | F64 s m e, F64 s' m' e' =>
    let e0 := Z.min e e' in Some (signed s (m * 2 ^ (e - e0)) ?= signed s' (m' * 2 ^ (e' - e0)))
  end.
Definition f_lt (a b : float64) : bool := match f_compare a b with Some Lt => true | _ => false end.
Definition f_le (a b : float64) : bool := match f_compare a b with Some Lt | Some Eq => true | _ => false end.
Definition f_eq (a b : float64) : bool := match f_compare a b with Some Eq => true | _ => false end.
Definition is_nan (a : float64) : bool := match a with F64NaN => true | _ => false end.

(** [math.Max] *)
Definition f_max (a b : float64) : float64 :=
  match a, b with
  | F64Inf false, _ | _, F64Inf false => F64Inf false
  | F64NaN, _ | _, F64NaN => F64NaN
  | F64 s m _, F64 s' m' _ => if (m =? 0) && (m' =? 0) then F64 (s && s') 0 (-1074) else if f_lt b a then a else b
  | F64Inf true, _ => b
  | _, F64Inf true => a
  end.

(** [math.Floor], [math.Ceil], [math.Round] (half away from zero) and
    [int(x)]: what becomes of the magnitude [n / d]. *)
Definition f_integral (up : bool -> Z -> Z -> Z) (a : float64) : float64 :=
  match a with
  | F64 s m e => if 0 <=? e then a else of_ratio s (up s m (2 ^ (- e))) 1
  | _ => a
  end.
Definition div_up (n d : Z) : Z := - (- n / d).
Definition f_floor : float64 -> float64 := f_integral (fun s n d => if s : bool then div_up n d else n / d).
Definition f_ceil : float64 -> float64 := f_integral (fun s n d => if s : bool then n / d else div_up n d).
Definition f_round : float64 -> float64 := f_integral (fun _ n d => (2 * n + d) / (2 * d)).
Definition f_to_int (a : float64) : Z :=
  match a with
  | F64 s m e =>
    let z := signed s (if 0 <=? e then m * 2 ^ e else m / 2 ^ (- e)) in
    if (int64_min <=? z) && (z <=? int64_max) then z else int64_min
  | _ => int64_min
  end.

(** [%.nf] *)
Fixpoint pad_left (n : nat) (s : string) : string :=
  match n with O => s | S n => if (strlen s <=? n)%nat then String (chr 48) (pad_left n s) else s end.
Definition fixed (prec : nat) (a : float64) : string :=
  match a with
  | F64 s m e =>
    let p10 := 10 ^ Z.of_nat prec in
    let q := if 0 <=? e then m * 2 ^ e * p10 else div_half_even (m * p10) (2 ^ (- e)) in
    (if s then "-" else "") +:+ utoa (q / p10)
    +:+ match prec with O => "" | _ => "." +:+ pad_left prec (utoa (q mod p10)) end
  | F64Inf s => if s then "-Inf" else "+Inf"
  | F64NaN => "NaN"
  end.

(** [strconv.ParseFloat(s, 64)] without hexadecimal literals and digit
    separators, which [other] reads. *)
Definition special_float (s : string) : option float64 :=
  if bool_decide (s = "inf") || bool_decide (s = "infinity") then Some (F64Inf false)
  else if bool_decide (s = "nan") then Some F64NaN else None.
Definition ParseFloat (other : string -> option float64) (s : string) : option float64 :=
  let '(neg, body) := match s with
                      | String c r => if byte c =? 43 then (false, r) else if byte c =? 45 then (true, r) else (false, s)
                      | EmptyString => (false, "")
                      end in
  match special_float (to_lower body) with
  | Some F64NaN => if bool_decide (body = s) then Some F64NaN else None
  | Some f => Some (if neg : bool then f_neg f else f)
  | None => match parse_float body with
            | Some f => if has_prefix body "-" then None else Some (if neg : bool then f_neg f else f)
            | None => other s
            end
  end.

Example fixed_halves : map (fixed 0) [of_ratio false 5 2; of_ratio false 7 2; of_ratio true 1 4] = ["2"; "4"; "-0"].
Proof. vm_compute. reflexivity. Qed.
Example fixed_tenths : map (fixed 1) [of_ratio false 1 3; of_ratio false 2999 100] = ["0.3"; "30.0"].
Proof. vm_compute. reflexivity. Qed.
Example product_rounds : f_to_int (f_mul (f_div (f_of_Z 29) (f_of_Z 100)) (f_of_Z 100)) = 28.
Proof. vm_compute. reflexivity. Qed.
Example parse_specials : map (ParseFloat (fun _ => None)) ["+Inf"; "-inf"; "NaN"; "+1.5"; "--1"; ""]
  = [Some (F64Inf false); Some (F64Inf true); Some F64NaN; Some (of_ratio false 3 2); None; None].
Proof. vm_compute. reflexivity. Qed.

(** ** Exact results *)

(** [p / d = m * 2^k] with a full mantissa is not rounded. *)
Definition scaled_eq (p d m k : Z) : Prop := p * 2 ^ (Z.max 0 (- k)) = m * d * 2 ^ (Z.max 0 k).
Lemma pow2_split a b : 0 <= a -> 0 <= b -> 2 ^ (a + b) = 2 ^ a * 2 ^ b.
Proof. intros. by apply Z.pow_add_r. Qed.
Lemma scale2_exact p d m k e : 0 < d -> scaled_eq p d m k -> e <= k ->
  let '(n1, d1) := scale2 p d e in 0 < d1 /\ n1 = m * 2 ^ (k - e) * d1.
Proof.
  intros Hd E Hk. unfold scale2, scaled_eq in *. destruct (Z.leb_spec 0 e).
  - rewrite Z.max_l, Z.max_r, Z.pow_0_r in E by lia. pose proof (Z.pow_pos_nonneg 2 e).
    split; [lia|]. replace k with ((k - e) + e) in E at 1 by lia. rewrite pow2_split in E by lia.
    rewrite Z.mul_1_r in E. rewrite E. ring.
  - split; [lia|]. destruct (Z.leb_spec 0 k).
    + rewrite Z.max_l, Z.max_r, Z.pow_0_r in E by lia. replace (k - e) with (k + - e) by lia. rewrite pow2_split by lia. nia.
    + rewrite Z.max_r, Z.max_l, Z.pow_0_r in E by lia. replace (- e) with (- k + (k - e)) by lia. rewrite pow2_split by lia. nia.
Qed.
Lemma div_half_even_exact m d : 0 < d -> div_half_even (m * d) d = m.
Proof.
  intros Hd. unfold div_half_even. rewrite Z.div_mul, Z.mod_mul by lia. replace (2 * 0 <? d) with true by lia. done.
Qed.
Lemma log2_ratio p d m k : 0 < p -> 0 < d -> 2 ^ 52 <= m < 2 ^ 53 -> scaled_eq p d m k ->
  52 + k <= Z.log2 p - Z.log2 d <= 53 + k.
Proof.
  intros Hp Hd Hm E. assert (Z.log2 m = 52) as Hl by (apply Z.log2_unique; lia).
  unfold scaled_eq in E. apply (f_equal Z.log2) in E. rewrite Z.log2_mul_pow2 in E by lia.
  rewrite (Z.log2_mul_pow2 (m * d)) in E by lia.
  pose proof (Z.log2_mul_below m d) as H1. pose proof (Z.log2_mul_above m d) as H2. lia.
Qed.
Lemma round_rat_exact p d m k : 0 < p -> 0 < d -> 2 ^ 52 <= m < 2 ^ 53 -> -1074 <= k <= 971 -> scaled_eq p d m k ->
  round_rat p d = Some (m, k).
Proof.
  intros Hp Hd Hm Hk E. pose proof (log2_ratio p d m k Hp Hd Hm E) as Hl. unfold round_rat.
  set (e1 := Z.max (-1074) (Z.log2 p - Z.log2 d - 53)).
  assert (e1 = k \/ e1 = k - 1) as He by lia.
  pose proof (scale2_exact p d m k e1 Hd E ltac:(lia)) as H1. destruct (scale2 p d e1) as [n1 d1]. destruct H1 as [Hd1 ->].
  rewrite Z.div_mul by lia.
  assert ((if 2 ^ 53 <=? m * 2 ^ (k - e1) then e1 + 1 else e1) = k) as ->.
  { destruct He as [->| ->]; [rewrite Z.sub_diag, Z.pow_0_r; destruct (Z.leb_spec (2 ^ 53) (m * 1)); lia|].
    replace (k - (k - 1)) with 1 by lia. destruct (Z.leb_spec (2 ^ 53) (m * 2 ^ 1)); lia. }
  pose proof (scale2_exact p d m k k Hd E ltac:(lia)) as H2. destruct (scale2 p d k) as [n2 d2]. destruct H2 as [Hd2 ->].
  rewrite Z.sub_diag, Z.pow_0_r, Z.mul_1_r, div_half_even_exact by done.
  destruct (Z.eqb_spec m (2 ^ 53)); [lia|]. destruct (Z.ltb_spec 971 k); [lia|done].
Qed.
Lemma of_ratio_exact neg p d m k : 0 < p -> 0 < d -> 2 ^ 52 <= m < 2 ^ 53 -> -1074 <= k <= 971 -> scaled_eq p d m k ->
  of_ratio neg p d = F64 neg m k.
Proof.
  intros Hp Hd Hm Hk E. unfold of_ratio. rewrite (round_rat_exact p d m k) by done.
  destruct (Z.eqb_spec p 0); [lia|]. destruct (Z.eqb_spec m 0); [lia|done].
Qed.

(** [val a j] is the float of value [a / 2^j], for [0 < a < 2^53]. *)
Definition mant (a : Z) : Z := a * 2 ^ (52 - Z.log2 a).
Definition val (a j : Z) : float64 := F64 false (mant a) (Z.log2 a - 52 - j).
Lemma log2_range a : 0 < a < 2 ^ 53 -> 0 <= Z.log2 a <= 52.
Proof. intros Ha. split; [apply Z.log2_nonneg|]. assert (Z.log2 a < 53); [|lia]. apply Z.log2_lt_pow2; lia. Qed.
Lemma mant_range a : 0 < a < 2 ^ 53 -> 2 ^ 52 <= mant a < 2 ^ 53.
Proof.
  intros Ha. pose proof (log2_range a Ha). unfold mant. destruct (Z.log2_spec a) as [H1 H2]; [lia|].
  assert (2 ^ 52 = 2 ^ Z.log2 a * 2 ^ (52 - Z.log2 a)) as E1 by (rewrite <- pow2_split by lia; f_equal; lia).
  assert (2 ^ 53 = 2 ^ Z.succ (Z.log2 a) * 2 ^ (52 - Z.log2 a)) as E2 by (rewrite <- pow2_split by lia; f_equal; lia).
  pose proof (Z.pow_pos_nonneg 2 (52 - Z.log2 a)). rewrite E1, E2. nia.
Qed.
Lemma val_ratio a j p d : 0 < a < 2 ^ 53 -> -900 <= j <= 1000 -> 0 < p -> 0 < d ->
  p * 2 ^ (Z.max 0 j) = a * d * 2 ^ (Z.max 0 (- j)) -> of_ratio false p d = val a j.
Proof.
  intros Ha Hj Hp Hd E. pose proof (log2_range a Ha) as Hl. apply of_ratio_exact; [done|done|by apply mant_range|lia|].
  unfold scaled_eq, mant. set (l := Z.log2 a) in *. clearbody l.
  replace (- (l - 52 - j)) with (52 - l + j) by lia.
  destruct (Z.leb_spec 0 j).
  - rewrite (Z.max_r 0 (52 - l + j)), (Z.max_l 0 (l - 52 - j)) by lia. rewrite Z.max_r, Z.max_l in E by lia.
    rewrite pow2_split by lia. rewrite Z.pow_0_r in *. nia.
  - rewrite Z.max_l, Z.max_r in E by lia. rewrite Z.pow_0_r, Z.mul_1_r in E. subst p.
    destruct (Z.leb_spec 0 (52 - l + j)).
    + rewrite (Z.max_r 0 (52 - l + j)), (Z.max_l 0 (l - 52 - j)) by lia. rewrite Z.pow_0_r.
      assert (2 ^ (52 - l) = 2 ^ (- j) * 2 ^ (52 - l + j)) as -> by (rewrite <- pow2_split by lia; f_equal; lia). ring.
    + rewrite (Z.max_l 0 (52 - l + j)), (Z.max_r 0 (l - 52 - j)) by lia. rewrite Z.pow_0_r.
      assert (2 ^ (- j) = 2 ^ (52 - l) * 2 ^ (l - 52 - j)) as -> by (rewrite <- pow2_split by lia; f_equal; lia). ring.
Qed.
Lemma f_of_Z_val a : 0 < a < 2 ^ 53 -> f_of_Z a = val a 0.
Proof.
  intros Ha. unfold f_of_Z. replace (a <? 0) with false by lia. rewrite Z.abs_eq by lia. apply val_ratio; [lia..|].
  change (2 ^ Z.max 0 0) with 1. change (2 ^ Z.max 0 (- 0)) with 1. lia.
Qed.

Lemma val_div_pow2 a j i : 0 < a < 2 ^ 53 -> 0 <= i -> -800 <= j -> j + i <= 900 ->
  f_div (val a j) (val 1 (- i)) = val a (j + i).
Proof.
  intros Ha Hi Hj Hji. pose proof (log2_range a Ha) as Hl. unfold f_div, val at 1 2. change (mant 1) with (2 ^ 52).
  change (2 ^ 52 =? 0) with false. change (Z.log2 1) with 0. cbv iota. unfold of_scaled. cbn [xorb].
  set (l := Z.log2 a) in *. replace (l - 52 - j - (0 - 52 - - i)) with (l - (j + i)) by lia.
  assert (0 < mant a) as Hm by (pose proof (mant_range a Ha); lia).
  assert (mant a * 2 ^ l = a * 2 ^ 52) as Em.
  { unfold mant. fold l. assert (2 ^ 52 = 2 ^ (52 - l) * 2 ^ l) as -> by (rewrite <- pow2_split by lia; f_equal; lia). ring. }
  destruct (Z.leb_spec 0 (l - (j + i))).
  - apply val_ratio; [done|lia|apply Z.mul_pos_pos; [done|apply Z.pow_pos_nonneg; lia]|lia|].
    destruct (Z.leb_spec 0 (j + i)).
    + rewrite Z.max_r, Z.max_l by lia. rewrite Z.pow_0_r, Z.mul_1_r, <- Em.
      assert (2 ^ l = 2 ^ (l - (j + i)) * 2 ^ (j + i)) as -> by (rewrite <- pow2_split by lia; f_equal; lia). ring.
    + rewrite Z.max_l, Z.max_r by lia. rewrite Z.pow_0_r, Z.mul_1_r, <- Em.
      assert (2 ^ (l - (j + i)) = 2 ^ l * 2 ^ (- (j + i))) as -> by (rewrite <- pow2_split by lia; f_equal; lia). ring.
  - apply val_ratio; [done|lia|done|apply Z.mul_pos_pos; [lia|apply Z.pow_pos_nonneg; lia]|].
    rewrite Z.max_r, Z.max_l by lia. rewrite Z.pow_0_r, Z.mul_1_r.
    assert (2 ^ (j + i) = 2 ^ l * 2 ^ (- (l - (j + i)))) as -> by (rewrite <- pow2_split by lia; f_equal; lia).
    rewrite Z.mul_assoc, Em. ring.
Qed.
Lemma f_lt_val a j b l T : 0 < a < 2 ^ 53 -> 0 < b < 2 ^ 53 -> 0 <= T - j -> 0 <= T - l ->
  f_lt (val a j) (val b l) = (a * 2 ^ (T - j) <? b * 2 ^ (T - l)).
Proof.
  intros Ha Hb Hj Hl. unfold f_lt, f_compare, val. set (e := Z.log2 a - 52 - j). set (e' := Z.log2 b - 52 - l). cbn [signed].
  pose proof (log2_range a Ha). pose proof (log2_range b Hb).
  assert (forall x k ex, 0 < x < 2 ^ 53 -> 0 <= T - k -> ex = Z.log2 x - 52 - k -> Z.min e e' <= ex ->
    mant x * 2 ^ (ex - Z.min e e') * 2 ^ (52 + T + Z.min e e') = x * 2 ^ (T - k) * 2 ^ 52) as Hs.
  { intros x k ex Hx Hk -> Hmin. pose proof (log2_range x Hx). rewrite <- Z.mul_assoc, <- pow2_split by lia. unfold mant.
    rewrite <- !Z.mul_assoc. f_equal. rewrite <- !pow2_split by lia. f_equal. lia. }
  pose proof (Hs a j e Ha Hj eq_refl ltac:(lia)) as H1. pose proof (Hs b l e' Hb Hl eq_refl ltac:(lia)) as H2.
  pose proof (Z.pow_pos_nonneg 2 (52 + T + Z.min e e') ltac:(lia) ltac:(lia)) as Hc.
  set (A := mant a * _) in *. set (B := mant b * _) in *. set (C := 2 ^ (52 + T + Z.min e e')) in *.
  destruct (Z.compare_spec A B), (Z.ltb_spec (a * 2 ^ (T - j)) (b * 2 ^ (T - l))); try done; exfalso; nia.
Qed.

(** ** Near results *)
Lemma div_half_even_bounds n d : 0 < d -> 2 * n - d <= 2 * d * div_half_even n d <= 2 * n + d.
Proof.
  intros Hd. unfold div_half_even. pose proof (Z.div_mod n d ltac:(lia)) as E. pose proof (Z.mod_pos_bound n d Hd) as Hm.
  set (q := n / d) in *. set (r := n mod d) in *.
  destruct (Z.ltb_spec (2 * r) d); [nia|]. destruct (Z.ltb_spec d (2 * r)); [nia|]. destruct (Z.even q); nia.
Qed.
(** The quotient of a value below 1024 is rounded at a position far below the
    binary point. *)
Lemma round_rat_small p d : 0 < p -> 0 < d -> p < 1024 * d -> d < 1024 * p ->
  exists s, 43 <= s <= 900 /\
    ((exists q, q = div_half_even (p * 2 ^ s) d /\ q < 2 ^ 53 /\ round_rat p d = Some (q, - s)) \/
     (div_half_even (p * 2 ^ s) d = 2 ^ 53 /\ round_rat p d = Some (2 ^ 52, 1 - s))).
Proof.
  intros Hp Hd Hsmall Hbig.
  assert (Z.log2 p <= Z.log2 d + 10) as Hu.
  { rewrite Z.add_comm, <- (Z.log2_mul_pow2 d 10) by lia. apply Z.log2_le_mono. change (2 ^ 10) with 1024. lia. }
  assert (Z.log2 d <= Z.log2 p + 10) as Hl.
  { rewrite Z.add_comm, <- (Z.log2_mul_pow2 p 10) by lia. apply Z.log2_le_mono. change (2 ^ 10) with 1024. lia. }
  unfold round_rat. rewrite Z.max_r by lia. set (e1 := Z.log2 p - Z.log2 d - 53).
  assert (-63 <= e1 <= -43) as He1 by lia.
  assert (forall e, e < 0 -> scale2 p d e = (p * 2 ^ (- e), d)) as Hsc.
  { intros e He. unfold scale2. by destruct (Z.leb_spec 0 e); [lia|]. }
  rewrite Hsc by lia. set (e := if 2 ^ 53 <=? _ then e1 + 1 else e1).
  assert (-63 <= e <= -43) as He.
  { unfold e. destruct (Z.leb_spec (2 ^ 53) (p * 2 ^ (- e1) / d)) as [Hge|]; [|lia].
    assert (e1 <> -43) as Hne; [|lia]. intros E. rewrite E in Hge.
    assert (p * 2 ^ 43 / d < 2 ^ 53); [|change (- -43) with 43 in Hge; lia]. apply Z.div_lt_upper_bound; lia. }
  rewrite Hsc by lia. exists (- e). split; [lia|]. rewrite Z.opp_involutive.
  set (q := div_half_even (p * 2 ^ (- e)) d).
  assert (q <= 2 ^ 53) as Hq.
  { pose proof (div_half_even_bounds (p * 2 ^ (- e)) d Hd) as Hb. fold q in Hb.
    assert (p * 2 ^ (- e) < 2 ^ 53 * d); [|nia].
    unfold e. destruct (Z.leb_spec (2 ^ 53) (p * 2 ^ (- e1) / d)) as [_|Hlt].
    - replace (- (e1 + 1)) with (Z.log2 d + 52 - Z.log2 p) by lia.
      pose proof (Z.log2_nonneg p). pose proof (Z.log2_nonneg d).
      destruct (Z.log2_spec p Hp) as [_ H1]. destruct (Z.log2_spec d Hd) as [H2 _].
      assert (2 ^ Z.succ (Z.log2 p) * 2 ^ (Z.log2 d + 52 - Z.log2 p) = 2 ^ 53 * 2 ^ Z.log2 d) as E
        by (rewrite <- !pow2_split by lia; f_equal; lia).
      pose proof (Z.pow_pos_nonneg 2 (Z.log2 d + 52 - Z.log2 p) ltac:(lia) ltac:(lia)) as Hc.
      apply (Z.mul_lt_mono_pos_r (2 ^ (Z.log2 d + 52 - Z.log2 p))) in H1; [|done]. lia.
    - pose proof (Z.div_mod (p * 2 ^ (- e1)) d ltac:(lia)). pose proof (Z.mod_pos_bound (p * 2 ^ (- e1)) d Hd). nia. }
  destruct (Z.eqb_spec q (2 ^ 53)) as [E|E].
  - right. split; [done|]. replace (1 - - e) with (e + 1) by lia. destruct (Z.ltb_spec 971 (e + 1)); [lia|done].
  - left. exists q. split; [done|]. split; [lia|]. destruct (Z.ltb_spec 971 e); [lia|done].
Qed.
Lemma div_up_unique x y k : 0 < y -> (k - 1) * y < x <= k * y -> div_up x y = k.
Proof. intros Hy Hk. unfold div_up. assert (- x / y = - k); [|lia]. symmetry. apply (Z.div_unique _ _ _ (k * y - x)); lia. Qed.
Lemma div_up_spec x y : 0 < y -> (div_up x y - 1) * y < x <= div_up x y * y.
Proof.
  intros Hy. unfold div_up. pose proof (Z.div_mod (- x) y ltac:(lia)) as E. pose proof (Z.mod_pos_bound (- x) y Hy). nia.
Qed.
(** Rounding a quotient with a denominator below [2^44] does not move its
    ceiling. *)
Lemma ceil_of_ratio p d n D : 0 < p -> 0 < d -> 0 < n -> 0 < D < 2 ^ 44 -> p * D = n * d -> p < 1024 * d -> d < 1024 * p ->
  f_ceil (of_ratio false p d) = f_of_Z (div_up n D).
Proof.
  intros Hp Hd Hn HD E Hs Hb. set (K := div_up n D). pose proof (div_up_spec n D ltac:(lia)) as HK. fold K in HK.
  assert (0 < K) as HK0 by nia. assert ((K - 1) * d < p <= K * d) as Hpk by nia.
  unfold f_of_Z. replace (K <? 0) with false by lia. rewrite Z.abs_eq by lia.
  destruct (round_rat_small p d Hp Hd Hs Hb) as (s & Hss & Hr).
  assert (2 ^ 44 <= 2 ^ (s + 1)) as Hpow by (apply Z.pow_le_mono_r; lia).
  rewrite pow2_split in Hpow by lia. change (2 ^ 1) with 2 in Hpow.
  pose proof (div_half_even_bounds (p * 2 ^ s) d Hd) as Hq. set (q := div_half_even (p * 2 ^ s) d) in *.
  set (S := 2 ^ s) in *. assert (0 < S) as HS by lia.
  assert ((K - 1) * S < q <= K * S) as Hqk.
  { assert (d < 2 * S * (p - (K - 1) * d)) as Hgap.
    { assert (D * (p - (K - 1) * d) >= d) by nia. nia. }
    split; nia. }
  assert (q <> 0) as Hq0 by nia.
  unfold of_ratio at 1. destruct (Z.eqb_spec p 0); [lia|]. destruct Hr as [(q' & -> & Hlt & Hr)|[Eq Hr]]; rewrite Hr.
  - fold q. destruct (Z.eqb_spec q 0); [done|]. unfold f_ceil, f_integral. destruct (Z.leb_spec 0 (- s)); [lia|].
    rewrite Z.opp_involutive. fold S. f_equal. by apply div_up_unique.
  - change (2 ^ 52 =? 0) with false. unfold f_ceil, f_integral. destruct (Z.leb_spec 0 (1 - s)); [lia|]. f_equal.
    apply div_up_unique; [apply Z.pow_pos_nonneg; lia|].
    assert (S = 2 * 2 ^ (- (1 - s))) as ES by (unfold S; rewrite <- (Z.pow_succ_r 2) by lia; f_equal; lia).
    rewrite Eq, ES in Hqk. lia.
Qed.
