(* ===== verification/GoFmt.v ===== *)
(** * [fmt]: the default format of dynamic values

    [fmt.Sprintf("%v", v)] for the values JSON decoding and the Kubernetes
    dynamic client produce.  Maps print their entries sorted by key. *)

From S2P Require Import Prelude GoText GoJson.

Definition float_text (f : float64) : string :=
  match f with
  | F64Inf neg => if neg then "-Inf" else "+Inf"
  | F64NaN => "NaN"
  | F64 _ _ _ => default "" (format_float f)
  end.

Fixpoint sprint_v (v : json) : string :=
  match v with
  | JNull => "<nil>"
  | JBool b => if b then "true" else "false"
  | JInt z => itoa z
  | JFloat f => float_text f
  | JStr s => s
  | JArr l => "[" +:+ join " " (map sprint_v l) +:+ "]"
  | JObj m =>
    let texts := map (fun kv => (kv.1, sprint_v kv.2)) m in
    "map[" +:+ join " " (map (fun k => k +:+ ":" +:+ default "" (assoc k texts)) (sort_strings m.*1)) +:+ "]"
  | JOther tag => tag
  end.

Example sprint_nested :
  sprint_v (JObj [("b", JArr [JInt 1; JNull]); ("a", JBool true)]) = "map[a:true b:[1 <nil>]]".
Proof. vm_compute. reflexivity. Qed.
Example sprint_million : sprint_v (JFloat (F64 false 5629499534213120 (-29))) = "1.048576e+07".
Proof. vm_compute. reflexivity. Qed.
