(* ===== verification/CanonJson.v ===== *)
(** * Canonical JSON (pkg/canonjson)

    The byte-deterministic encoder whose output is hashed and signed.  The
    theorems: the encoding does not depend on Go's map iteration order, it is
    pure printable ASCII, and the bytes determine the value: decoding them
    yields the value with its nil members dropped, so no two different
    bodies share their signed bytes. *)

From S2P Require Import Prelude GoText GoJson.

(** ** The encoder *)
Definition hex_digit (d : Z) : ascii := if d <? 10 then chr (48 + d) else chr (87 + d).

(** [fmt.Fprintf(buf, "\\u%04x", r)] for [r < 0x10000]. *)
Definition u4 (r : Z) : string :=
  String (chr 92) (String (chr 117)
    (String (hex_digit (r / 4096)) (String (hex_digit (r / 256 mod 16))
      (String (hex_digit (r / 16 mod 16)) (String (hex_digit (r mod 16)) ""))))).

Definition esc (c : Z) : string := String (chr 92) (String (chr c) "").

(** One iteration of the loop of [writeString]. *)
Definition write_rune (r : Z) : string :=
  if r =? 34 then esc 34
  else if r =? 92 then esc 92
  else if r =? 8 then esc 98
  else if r =? 12 then esc 102
  else if r =? 10 then esc 110
  else if r =? 13 then esc 114
  else if r =? 9 then esc 116
  else if r <? 32 then u4 r
  else if r <? 127 then String (chr r) ""
  else if 65536 <=? r then
    let r' := r - 65536 in
    u4 (55296 + Z.shiftr r' 10) +:+ u4 (56320 + Z.land r' 1023)
  else u4 r.

Definition write_runes (l : list Z) : string :=
  foldr (fun r acc => write_rune r +:+ acc) "" l.

Definition dquote : string := String (chr 34) "".

Definition writeString (s : string) : string := dquote +:+ write_runes (runes s) +:+ dquote.

(** [bytes.ContainsAny(s, ".eE")]. *)
Definition has_float_mark (s : string) : bool :=
  contains_byte "." s || contains_byte "e" s || contains_byte "E" s.

Definition writeFloat (f : float64) : result string :=
  match f with
  | F64NaN | F64Inf _ => Err "canonjson: NaN/Inf not representable in strict JSON"
  | F64 _ _ _ =>
    match format_float f with
    | Some s => Ok (if has_float_mark s then s else s +:+ ".0")
    | None => Err "canonjson: NaN/Inf not representable in strict JSON"
    end
  end.

(** The elements of an array or object in order, separated by [sep]; the
    first error ends the loop. *)
Fixpoint write_items (sep : string) (l : list (result string)) : result string :=
  match l with
  | [] => Ok ""
  | [r] => r
  | r :: l' => let? s := r in let? t := write_items sep l' in Ok (s +:+ sep +:+ t)
  end.

Definition is_null (v : json) : bool := match v with JNull => true | _ => false end.

(** The keys [writeObject] emits: the non-nil ones, sorted. *)
Definition object_keys (m : list (string * json)) : list string :=
  sort_strings (List.filter (fun kv => negb (is_null kv.2)) m).*1.

Definition write_member (kvSep : string) (enc : list (string * result string)) (k : string)
  : result string :=
  let? s := default (Err "") (assoc k enc) in
  Ok (writeString k +:+ kvSep +:+ s).

Fixpoint encode (itemSep kvSep : string) (v : json) : result string :=
  match v with
  | JNull => Ok "null"
  | JBool b => Ok (if b then "true" else "false")
  | JStr s => Ok (writeString s)
  | JInt z => Ok (itoa z)
  | JFloat f => writeFloat f
  | JArr l =>
    let? s := write_items itemSep (map (encode itemSep kvSep) l) in
    Ok ("[" +:+ s +:+ "]")
  | JObj m =>
    let enc := map (fun kv => (kv.1, encode itemSep kvSep kv.2)) m in
    let? s := write_items itemSep (map (write_member kvSep enc) (object_keys m)) in
    Ok ("{" +:+ s +:+ "}")
  | JOther t => Err ("canonjson: unsupported type " +:+ t)
  end.

Definition encodeWith (v : json) (itemSep kvSep : string) : result string :=
  encode itemSep kvSep v.
(** [Encode]: no white space, for the partial-keys body hash. *)
Definition Encode (v : json) : result string := encodeWith v "," ":".
(** [EncodeForSignature]: Python's default separators, for the HMAC path. *)
Definition EncodeForSignature (v : json) : result string := encodeWith v ", " ": ".

(** ** Reference definitions *)

(** What the encoded bytes denote: nil members dropped, keys in order,
    numbers as decoding reads them. *)
Fixpoint canon (v : json) : json :=
  match v with
  | JInt z => number_value (itoa z)
  | JArr l => JArr (map canon l)
  | JObj m =>
    let cm := map (fun kv => (kv.1, canon kv.2)) m in
    JObj (map (fun k => (k, default JNull (assoc k cm))) (object_keys m))
  | _ => v
  end.

Fixpoint depth (v : json) : Z :=
  match v with
  | JArr l => 1 + foldr Z.max 0 (map depth l)
  | JObj m => 1 + foldr Z.max 0 (map (fun kv => depth kv.2) m)
  | _ => 0
  end.

(** A float64 whose shortest text reads back as the same float, as IEEE-754
    guarantees for every finite one. *)
Definition float_ok (f : float64) : bool :=
  match writeFloat f with
  | Ok s => bool_decide (lex_number s = Some (s, "")) && bool_decide (parse_float s = Some f)
  | Err _ => false
  end.

(** A Go value [canonjson] supports, with proper (UTF-8) strings. *)
Fixpoint wf (v : json) : bool :=
  match v with
  | JNull | JBool _ | JInt _ => true
  | JFloat f => float_ok f
  | JStr s => valid_utf8 s
  | JArr l => forallb wf l
  | JObj m => bool_decide (NoDup m.*1)
              && forallb (fun kv => valid_utf8 kv.1 && wf kv.2) m
  | JOther _ => false
  end.

(** Two values that differ in map iteration order only. *)
Inductive same_value : json -> json -> Prop :=
| same_refl v : same_value v v
| same_arr l l' : Forall2 same_value l l' -> same_value (JArr l) (JArr l')
| same_obj m m1 m' :
    NoDup m.*1 -> m ≡ₚ m1 ->
    Forall2 (fun x y => x.1 = y.1 /\ same_value x.2 y.2) m1 m' ->
    same_value (JObj m) (JObj m').

(** ** Bytes of the output *)

Definition printable (c : ascii) : bool := in_range 32 126 (byte c).
Fixpoint all_printable (s : string) : bool :=
  match s with
  | EmptyString => true
  | String c r => printable c && all_printable r
  end.

(** ** String literals read back *)

Lemma hex_val_digit d : 0 <= d < 16 -> hex_val (hex_digit d) = Some d.
Proof.
  intros H. unfold hex_val, hex_digit, in_range.
  destruct (d <? 10) eqn:E; rewrite byte_chr by lia.
  - replace ((48 <=? 48 + d) && (48 + d <=? 57)) with true by lia. f_equal. lia.
  - replace ((48 <=? 87 + d) && (87 + d <=? 57)) with false by lia.
    replace ((97 <=? 87 + d) && (87 + d <=? 102)) with true by lia. f_equal. lia.
Qed.

Lemma hex4_u4 r : 0 <= r < 65536 ->
  hex4 (hex_digit (r / 4096)) (hex_digit (r / 256 mod 16))
    (hex_digit (r / 16 mod 16)) (hex_digit (r mod 16)) = Some r.
Proof.
  intros H.
  replace (r / 4096) with (r / 16 / 16 / 16) by (by rewrite !Z.div_div by lia).
  replace (r / 256) with (r / 16 / 16) by (by rewrite Z.div_div by lia).
  pose proof (Z.div_mod r 16 ltac:(lia)). pose proof (Z.mod_pos_bound r 16 ltac:(lia)).
  set (a := r / 16) in *. clearbody a.
  pose proof (Z.div_mod a 16 ltac:(lia)). pose proof (Z.mod_pos_bound a 16 ltac:(lia)).
  set (b := a / 16) in *. clearbody b.
  pose proof (Z.div_mod b 16 ltac:(lia)). pose proof (Z.mod_pos_bound b 16 ltac:(lia)).
  set (c := b / 16) in *. clearbody c.
  unfold hex4. rewrite !hex_val_digit by lia. f_equal. lia.
Qed.

Lemma take4_u4 r s : 0 <= r < 65536 ->
  take4 (String (hex_digit (r / 4096)) (String (hex_digit (r / 256 mod 16))
    (String (hex_digit (r / 16 mod 16)) (String (hex_digit (r mod 16)) s)))) = Some (r, s).
Proof. intros. unfold take4. by rewrite hex4_u4. Qed.

(** One character of a literal's body, read and skipped. *)
Lemma lex_str_unit c t text s w : (byte c =? 34) = false ->
  unit_at (String c t +:+ s) = Some (text, w) -> w = S (strlen t) ->
  lex_str (String c t +:+ s) = emit text (lex_str s).
Proof.
  intros Hc Hu ->. unfold lex_str. rewrite app_cons in *.
  assert (forall k, lex_from (strlen t) (t +:+ k) = lex_from 0 k) as Hskip.
  { clear. induction t as [|c t IH]; intros k; [done|]. rewrite app_cons. apply IH. }
  cbn [lex_from]. by rewrite Hc, Hu, Nat.pred_succ, Hskip.
Qed.

Lemma lex_str_u4 r s : 0 <= r < 65536 -> is_surrogate r = false ->
  lex_str (u4 r +:+ s) = emit (encode_rune r) (lex_str s).
Proof.
  intros H Hs. unfold u4. eapply lex_str_unit; [done| |reflexivity].
  rewrite !app_cons, app_nil_l. unfold unit_at, escape_at.
  rewrite !byte_chr, take4_u4, Hs by lia. done.
Qed.

Lemma lex_str_pair u v rn s : 0 <= u < 65536 -> 0 <= v < 65536 ->
  is_surrogate u = true -> surrogate_pair u v = Some rn ->
  lex_str ((u4 u +:+ u4 v) +:+ s) = emit (encode_rune rn) (lex_str s).
Proof.
  intros Hu Hv Hs Hp.
  let x := eval cbv [u4 String.append] in (u4 u +:+ u4 v) in
  change (u4 u +:+ u4 v) with x.
  eapply lex_str_unit; [done| |reflexivity].
  rewrite !app_cons, app_nil_l. unfold unit_at, escape_at, low_surrogate.
  rewrite !byte_chr, take4_u4, Hs, take4_u4, Hp by lia. done.
Qed.

Lemma encode_rune_ascii c : byte c < 128 -> encode_rune (byte c) = String c "".
Proof.
  intros H. pose proof (byte_range c). unfold encode_rune, valid_rune, in_range.
  replace (_ && _) with true by lia.
  replace (byte c <? 128) with true by lia. by rewrite chr_byte.
Qed.

Lemma encode_rune_lit r : 0 <= r < 128 -> encode_rune r = String (chr r) "".
Proof.
  intros H. rewrite <- (byte_chr r) at 1 by lia. apply encode_rune_ascii.
  rewrite byte_chr; lia.
Qed.

Lemma lex_str_esc c r s : 0 <= c < 128 -> c <> 117 -> 0 <= r < 128 ->
  simple_escape (chr c) = Some (chr r) ->
  lex_str (esc c +:+ s) = emit (encode_rune r) (lex_str s).
Proof.
  intros Hc Hu Hr He. unfold esc. eapply lex_str_unit; [done| |reflexivity].
  rewrite !app_cons, app_nil_l. unfold unit_at, escape_at.
  rewrite !byte_chr by lia. replace (c =? 117) with false by lia.
  rewrite He, encode_rune_lit by done. done.
Qed.

Lemma lex_str_plain r s : 32 <= r < 127 -> r <> 34 -> r <> 92 ->
  lex_str (String (chr r) "" +:+ s) = emit (encode_rune r) (lex_str s).
Proof.
  intros Hr Hq Hb. eapply lex_str_unit; [rewrite byte_chr; lia| |reflexivity].
  rewrite app_cons, app_nil_l. unfold unit_at. rewrite byte_chr by lia.
  replace (r =? 92) with false by lia. replace (r <? 32) with false by lia.
  replace (r <? 128) with true by lia. by rewrite encode_rune_lit by lia.
Qed.

Lemma lex_str_write_rune r s : valid_rune r = true ->
  lex_str (write_rune r +:+ s) = emit (encode_rune r) (lex_str s).
Proof.
  intros Hv. unfold valid_rune in Hv. apply andb_prop in Hv as [Hr Hs].
  apply in_range_true in Hr. apply negb_true_iff in Hs.
  unfold write_rune.
  repeat match goal with
  | |- context [if ?b then _ else _] =>
    let E := fresh "E" in destruct b eqn:E; [try (apply Z.eqb_eq in E; subst r) |]
  end.
  all: try (by apply lex_str_esc).
  all: try (by apply lex_str_plain; lia).
  all: try (by apply lex_str_u4; [lia|]).
  apply in_range_false in Hs.
  change 1023 with (Z.ones 10). rewrite Z.shiftr_div_pow2, Z.land_ones by lia.
  change (2 ^ 10) with 1024.
  assert (0 <= (r - 65536) / 1024 < 1024) by div_lia.
  pose proof (Z.mod_pos_bound (r - 65536) 1024 ltac:(lia)).
  apply lex_str_pair; [lia|lia|apply in_range_true; lia|].
  unfold surrogate_pair, in_range.
  replace (_ && _) with true by lia. f_equal.
  pose proof (Z.div_mod (r - 65536) 1024 ltac:(lia)). lia.
Qed.

Lemma lex_str_write_runes l s : Forall (fun r => valid_rune r = true) l ->
  lex_str (write_runes l +:+ dquote +:+ s) = Some (encode_runes l, s).
Proof.
  induction 1 as [|r l Hr Hl IH]; simpl.
  - unfold dquote. by rewrite app_nil_l, app_cons, app_nil_l.
  - by rewrite sapp_assoc, lex_str_write_rune, IH.
Qed.

(** A string literal reads back as the string, whatever follows. *)
Lemma lex_writeString s rest : valid_utf8 s = true ->
  exists body, writeString s +:+ rest = String (chr 34) body
    /\ lex_str body = Some (s, rest).
Proof.
  intros Hv%bool_decide_eq_true. unfold writeString.
  exists (write_runes (runes s) +:+ dquote +:+ rest). split.
  - unfold dquote. by rewrite !app_cons, !app_nil_l, !sapp_assoc, !app_cons, !app_nil_l.
  - rewrite lex_str_write_runes by apply runes_valid. by rewrite Hv.
Qed.

(** ** Values read back *)

Lemma assoc_map {A B} (f : A -> B) k (m : list (string * A)) :
  assoc k (map (fun kv => (kv.1, f kv.2)) m) = f <$> assoc k m.
Proof. induction m as [|[j v] m IH]; simpl; [done|]. by case_decide. Qed.

Lemma mset_fresh {A} k (v : A) m : k ∉ m.*1 -> mset k v m = m ++ [(k, v)].
Proof.
  induction m as [|[j w] m IH]; csimpl; [done|].
  intros [Hne Hm]%not_elem_of_cons. by rewrite decide_False, IH.
Qed.

Lemma write_items_Ok sep rs s : write_items sep rs = Ok s ->
  exists ts, rs = map Ok ts /\ s = join sep ts.
Proof.
  revert s. induction rs as [|r rs IH]; intros s; simpl.
  - intros [= <-]. by exists [].
  - destruct rs as [|r' rs].
    + intros ->. by exists [s].
    + intros (t & -> & (u & Hu & [= <-])%rbind_Ok)%rbind_Ok.
      destruct (IH u Hu) as (ts & Hts & ->). exists (t :: ts).
      rewrite Hts. split; [done|]. destruct ts; [done|reflexivity].
Qed.

Definition all_ws (s : string) : Prop := skip_ws s = "".

Lemma skip_ws_app w s : all_ws w -> skip_ws (w +:+ s) = skip_ws s.
Proof.
  unfold all_ws. induction w as [|c w IH]; [done|]. rewrite app_cons. simpl.
  by destruct (is_ws c).
Qed.

(** The first byte of an encoded value: not white space, no closing bracket. *)
Definition value_head (t : string) : Prop :=
  exists c r, t = String c r /\ is_ws c = false /\ byte c <> 93 /\ byte c <> 125.

Lemma skip_ws_head t s : value_head t -> skip_ws (t +:+ s) = t +:+ s.
Proof. intros (c & r & -> & Hw & _). rewrite app_cons. simpl. by rewrite Hw. Qed.

Lemma skip_ws_punct z s : z = 44 \/ z = 58 \/ z = 93 \/ z = 125 ->
  skip_ws (String (chr z) s) = String (chr z) s.
Proof. intros [->|[->|[->| ->]]]; reflexivity. Qed.

Lemma num_end_punct z s : z = 44 \/ z = 58 \/ z = 93 \/ z = 125 ->
  num_end (String (chr z) s) = true.
Proof. intros [->|[->|[->| ->]]]; reflexivity. Qed.

Lemma quote_head s : value_head (String (chr 34) s).
Proof. by exists (chr 34), s. Qed.

(** [reads d t v]: the text [t] at nesting depth [d] parses as [v]. *)
Definition reads (d : Z) (t : string) (v : json) : Prop :=
  value_head t /\
  forall fuel rest, num_end rest = true -> (2 * strlen (t +:+ rest) + 1 <= fuel)%nat ->
    pval fuel d (t +:+ rest) = Some (v, rest).

Lemma lex_number_head s lit r : lex_number s = Some (lit, r) ->
  exists c t, s = String c t /\ (byte c = 45 \/ 48 <= byte c <= 57).
Proof.
  destruct s as [|c t]; [done|]. intros H. exists c, t. split; [done|].
  unfold lex_number in H. destruct (byte c =? 45) eqn:E; [left; lia|].
  unfold lex_int in H. destruct (byte c =? 48) eqn:E0; [right; lia|].
  destruct (is_digit c) eqn:Ed; [|done]. right. by apply in_range_true in Ed.
Qed.

Lemma reads_number d s : lex_number s = Some (s, "") -> reads d s (number_value s).
Proof.
  intros Hs. destruct (lex_number_head _ _ _ Hs) as (c & t & -> & Hc). split.
  - exists c, t. unfold is_ws. split_and!; [done|lia|lia|lia].
  - intros fuel rest Hr Hf. pose proof (lex_number_ext _ _ _ _ Hs Hr) as Hl.
    rewrite app_nil_l in Hl. destruct fuel as [|fuel]; [lia|].
    rewrite app_cons in *. cbn [pval].
    repeat match goal with
    | |- context [byte c =? ?k] => replace (byte c =? k) with false by lia
    end.
    by rewrite Hl.
Qed.

(** *** Keys of an object *)

Lemma elem_of_object_keys k m : NoDup m.*1 ->
  k ∈ object_keys m <-> exists v, assoc k m = Some v /\ is_null v = false.
Proof.
  intros Hnd. unfold object_keys. rewrite sort_strings_perm, list_elem_of_fmap. split.
  - intros ([k' v] & -> & Hin). apply list_elem_of_In, filter_In in Hin as [Hin Hn].
    exists v. simpl in *. split; [|by apply negb_true_iff in Hn].
    apply In_assoc; [done|]. by apply list_elem_of_In.
  - intros (v & Ha & Hn). exists (k, v). split; [done|].
    apply list_elem_of_In, filter_In. split; [|simpl; by rewrite Hn].
    by apply list_elem_of_In, assoc_In.
Qed.

Lemma NoDup_object_keys m : NoDup m.*1 -> NoDup (object_keys m).
Proof.
  intros Hnd. unfold object_keys. rewrite sort_strings_perm.
  induction m as [|[k v] m IH]; simpl; [done|].
  csimpl in Hnd. apply NoDup_cons in Hnd as [Hk Hnd].
  destruct (is_null v); csimpl; [by apply IH|].
  constructor; [|by apply IH].
  rewrite list_elem_of_fmap. intros ([k' w] & Heq & Hin). simpl in Heq. subst k'.
  apply Hk, list_elem_of_fmap. exists (k, w). split; [done|].
  apply list_elem_of_In, filter_In in Hin as [Hin _]. by apply list_elem_of_In.
Qed.

Lemma foldr_max_nonneg l : 0 <= foldr Z.max 0 l.
Proof. induction l; simpl; lia. Qed.
Lemma forallb_elem {A} (p : A -> bool) l x : forallb p l = true -> x ∈ l -> p x = true.
Proof. rewrite forallb_forall. intros H Hin. by apply H, list_elem_of_In. Qed.
Lemma depth_elem v l : v ∈ l -> depth v <= foldr Z.max 0 (map depth l).
Proof. induction 1; simpl; lia. Qed.
Lemma depth_member k v (m : list (string * json)) :
  (k, v) ∈ m -> depth v <= foldr Z.max 0 (map (fun kv => depth kv.2) m).
Proof.
  induction m as [|[j w] m IH]; [by intros ?%elem_of_nil|].
  intros [[= -> ->]|Hin]%elem_of_cons; simpl; [lia|]. specialize (IH Hin). lia.
Qed.

Section separators.
(** A separator is a punctuation byte followed by white space. *)
Variables (itemSep kvSep wi wk : string).
Hypothesis HitemSep : itemSep = String (chr 44) wi.
Hypothesis HkvSep : kvSep = String (chr 58) wk.
Hypothesis Hwi : all_ws wi.
Hypothesis Hwk : all_ws wk.
(** String literals that read back, whatever follows. *)
Variable quote : string -> string.
Hypothesis Hquote : forall s rest, valid_utf8 s = true ->
  exists body, quote s +:+ rest = String (chr 34) body /\ lex_str body = Some (s, rest).

Lemma join_head t ts : value_head t -> value_head (join itemSep (t :: ts)).
Proof using.
  intros (c & r & -> & H). destruct ts; simpl; [by exists c, r|].
  rewrite app_cons. eexists c, _. eauto.
Qed.

Lemma join_cons t t' ts s :
  join itemSep (t :: t' :: ts) +:+ s = t +:+ (itemSep +:+ join itemSep (t' :: ts) +:+ s).
Proof using. change (join itemSep (t :: t' :: ts)) with (t +:+ itemSep +:+ join itemSep (t' :: ts)).
  by rewrite !sapp_assoc. Qed.

Lemma itemSep_app s : itemSep +:+ s = String (chr 44) (wi +:+ s).
Proof using HitemSep. by rewrite HitemSep, app_cons. Qed.

Lemma pelems_join d ts vs : Forall2 (reads d) ts vs -> ts <> [] ->
  forall fuel rest acc,
  (2 * strlen (join itemSep ts +:+ String (chr 93) rest) + 2 <= fuel)%nat ->
  pelems fuel d (join itemSep ts +:+ String (chr 93) rest) acc
  = Some (JArr (acc ++ vs), rest).
Proof.
  induction 1 as [|t v ts vs [Hh Hr] Hrs IH]; [done|].
  intros _ [|fuel] rest acc Hf; [lia|]. cbn [pelems].
  destruct Hrs as [|t' v' ts vs Ht' Hrs].
  - simpl in *. rewrite Hr by (apply num_end_punct; tauto) || lia.
    rewrite skip_ws_punct by tauto. by rewrite !byte_chr by lia.
  - rewrite join_cons, itemSep_app in *.
    rewrite Hr; [|apply num_end_punct; tauto|len_norm; lia].
    rewrite skip_ws_punct, byte_chr, Z.eqb_refl, skip_ws_app, skip_ws_head
      by (tauto || lia || done || apply join_head, Ht').
    rewrite IH by (done || (len_norm; lia)). by rewrite <- app_assoc.
Qed.

(** The text of one object member. *)
Definition member_text (k t : string) : string := quote k +:+ kvSep +:+ t.

Lemma pmembers_join d kts kvs :
  Forall2 (fun kt kv => kt.1 = kv.1 /\ valid_utf8 kt.1 = true /\ reads d kt.2 kv.2) kts kvs ->
  kts <> [] -> NoDup kvs.*1 ->
  forall fuel rest acc,
  (forall k, k ∈ kvs.*1 -> k ∉ acc.*1) ->
  (2 * strlen (join itemSep (map (fun kt => member_text kt.1 kt.2) kts)
               +:+ String (chr 125) rest) + 2 <= fuel)%nat ->
  pmembers fuel d (join itemSep (map (fun kt => member_text kt.1 kt.2) kts)
                   +:+ String (chr 125) rest) acc
  = Some (JObj (acc ++ kvs), rest).
Proof.
  induction 1 as [|[k t] [k' v] kts kvs (Hk & Hu & Hh & Hr) Hrs IH]; [done|].
  cbn [fst snd] in *. subst k'. intros _ [Hkn Hnd]%NoDup_cons [|fuel] rest acc Hacc Hf; [lia|].
  assert (k ∉ acc.*1) as Hka by (apply Hacc; left).
  assert (exists tail, join itemSep (map (fun kt => member_text kt.1 kt.2) ((k, t) :: kts))
            +:+ String (chr 125) rest = quote k +:+ (String (chr 58) (wk +:+ t +:+ tail))
          /\ num_end tail = true
          /\ tail = match kts with
                    | [] => String (chr 125) rest
                    | _ => String (chr 44) (wi +:+
                             join itemSep (map (fun kt => member_text kt.1 kt.2) kts)
                             +:+ String (chr 125) rest)
                    end) as (tail & Htxt & Htail & Heq).
  { eexists. split; [|split; [|reflexivity]].
    - destruct kts; [|cbn [map]; rewrite join_cons, itemSep_app]; cbn [map join fst snd];
        unfold member_text; by rewrite ?sapp_assoc, HkvSep, app_cons, ?sapp_assoc.
    - destruct kts; apply num_end_punct; tauto. }
  rewrite Htxt in *. clear Htxt.
  destruct (Hquote k (String (chr 58) (wk +:+ t +:+ tail)) Hu) as (body & Hb & Hl).
  rewrite Hb. cbn [pmembers]. rewrite byte_chr, Z.eqb_refl, Hl by lia.
  rewrite skip_ws_punct, byte_chr, Z.eqb_refl, skip_ws_app, skip_ws_head by (tauto || lia || done).
  rewrite Hr by (done || (len_norm; lia)).
  rewrite mset_fresh by done.
  destruct Hrs as [|[k2 t2] [k2' v2] kts kvs (Hk & Hk2 & Hh2 & Hr2) Hrs]; subst tail.
  - rewrite skip_ws_punct by tauto. by rewrite !byte_chr by lia.
  - cbn [fst snd] in Hk. subst k2'.
    rewrite skip_ws_punct, byte_chr, Z.eqb_refl, skip_ws_app by (tauto || lia || done).
    rewrite skip_ws_head.
    2: { apply join_head. simpl in Hk2.
         destruct (Hquote k2 (kvSep +:+ t2) Hk2) as (b2 & Hb2 & _).
         unfold member_text. cbn [fst snd]. rewrite Hb2. apply quote_head. }
    rewrite IH; [by rewrite <- app_assoc|done|done| |len_norm; lia].
    intros j Hj. rewrite fmap_app, not_elem_of_app. split.
    + apply Hacc. by right.
    + csimpl. rewrite list_elem_of_singleton. intros ->. by apply Hkn.
Qed.

Lemma reads_string d s : valid_utf8 s = true -> reads d (quote s) (JStr s).
Proof using Hquote.
  intros Hu. split.
  - destruct (Hquote s "" Hu) as (b & Hb & _). rewrite sapp_nil_r in Hb.
    rewrite Hb. apply quote_head.
  - intros [|fuel] rest _ Hf; [lia|].
    destruct (Hquote s rest Hu) as (b & -> & Hl). cbn [pval].
    rewrite byte_chr by lia. simpl. by rewrite Hl.
Qed.

Lemma reads_literal d t v : (t, v) ∈ [("null", JNull); ("true", JBool true); ("false", JBool false)] ->
  reads d t v.
Proof using.
  rewrite !elem_of_cons, elem_of_nil. intros [[= -> ->]|[[= -> ->]|[[= -> ->]|[]]]].
  all: split; [eexists _, _; by split_and!|].
  all: intros [|fuel] rest _ Hf; [lia|]; rewrite !app_cons; cbn [pval].
  all: rewrite <- !app_cons, strip_prefix_app; reflexivity.
Qed.

Lemma reads_array d ts vs : Forall2 (reads (d + 1)) ts vs -> d < max_nesting_depth ->
  reads d ("[" +:+ join itemSep ts +:+ "]") (JArr vs).
Proof.
  intros Hr Hd. split; [eexists _, _; by split_and!|].
  intros [|fuel] rest _ Hf; [lia|].
  change ("[" +:+ join itemSep ts +:+ "]") with (String (chr 91) (join itemSep ts +:+ "]")) in *.
  rewrite app_cons, sapp_assoc in *. change ("]" +:+ rest) with (String (chr 93) rest) in *.
  cbn [pval]. rewrite byte_chr by lia. simpl.
  replace (max_nesting_depth <=? d) with false by lia.
  destruct Hr as [|t v ts vs Ht Hrs]; [by rewrite app_nil_l|].
  assert (value_head (join itemSep (t :: ts))) as Hh by apply join_head, Ht.
  rewrite skip_ws_head by done.
  destruct Hh as (c & r & Heq & _ & Hc & _).
  rewrite Heq, app_cons. replace (byte c =? 93) with false by lia.
  rewrite <- app_cons, <- Heq, pelems_join with (vs := v :: vs); [done|by constructor|done|].
  len_norm. lia.
Qed.

Lemma reads_object d kts kvs :
  Forall2 (fun kt kv => kt.1 = kv.1 /\ valid_utf8 kt.1 = true /\ reads (d + 1) kt.2 kv.2) kts kvs ->
  NoDup kvs.*1 -> d < max_nesting_depth ->
  reads d ("{" +:+ join itemSep (map (fun kt => member_text kt.1 kt.2) kts) +:+ "}") (JObj kvs).
Proof.
  intros Hr Hnd Hd. split; [eexists _, _; by split_and!|].
  intros [|fuel] rest _ Hf; [lia|].
  set (ms := join itemSep (map (fun kt => member_text kt.1 kt.2) kts)) in *.
  change ("{" +:+ ms +:+ "}") with (String (chr 123) (ms +:+ "}")) in *.
  rewrite app_cons, sapp_assoc in *. change ("}" +:+ rest) with (String (chr 125) rest) in *.
  cbn [pval]. rewrite byte_chr by lia. simpl.
  replace (max_nesting_depth <=? d) with false by lia.
  destruct kts as [|[k t] kts].
  { apply Forall2_nil_inv_l in Hr as ->. reflexivity. }
  assert (exists b, ms = String (chr 34) b) as (b & Hb).
  { apply Forall2_cons_inv_l in Hr as ([k' v] & kvs' & (_ & Hu & _) & _ & _).
    destruct (Hquote k (kvSep +:+ t) Hu) as (b & Hb & _).
    unfold ms. cbn [map]. destruct kts; cbn [join map]; unfold member_text; cbn [fst snd];
      rewrite Hb; eexists; [|rewrite app_cons]; reflexivity. }
  rewrite skip_ws_head by (rewrite Hb; apply quote_head).
  rewrite Hb at 1. rewrite app_cons. change (byte (chr 34) =? 125) with false.
  rewrite <- app_cons, <- Hb. unfold ms in *.
  rewrite pmembers_join with (kvs := kvs); [done..| |].
  - by intros k' _ ?%elem_of_nil.
  - len_norm. lia.
Qed.

End separators.

Section encode_reads.
Variables (itemSep kvSep wi wk : string).
Hypothesis HitemSep : itemSep = String (chr 44) wi.
Hypothesis HkvSep : kvSep = String (chr 58) wk.
Hypothesis Hwi : all_ws wi.
Hypothesis Hwk : all_ws wk.
Notation member_text := (member_text kvSep writeString).

Lemma members_reads d m keys ts :
  map (write_member kvSep (map (fun kv => (kv.1, encode itemSep kvSep kv.2)) m)) keys = map Ok ts ->
  (forall k, k ∈ keys -> exists v, assoc k m = Some v /\ valid_utf8 k = true
     /\ forall t, encode itemSep kvSep v = Ok t -> reads d t (canon v)) ->
  exists kts, ts = map (fun kt => member_text kt.1 kt.2) kts
    /\ Forall2 (fun kt kv => kt.1 = kv.1 /\ valid_utf8 kt.1 = true /\ reads d kt.2 kv.2) kts
         (map (fun k => (k, default JNull (assoc k (map (fun kv => (kv.1, canon kv.2)) m)))) keys).
Proof using.
  clear HitemSep HkvSep Hwi Hwk wi wk.
  revert ts. induction keys as [|k keys IH]; intros [|t ts] Hts Hk; simplify_eq/=.
  { by exists []. }
  destruct (Hk k ltac:(left)) as (v & Hv & Hu & Hr).
  destruct (IH ts) as (kts & -> & Hf); [done|by intros; apply Hk; right|].
  unfold write_member in *. rewrite !assoc_map, Hv in *. simpl in *.
  match goal with H : rbind _ _ = Ok _ |- _ => apply rbind_Ok in H as (u & Hu' & [= <-]) end.
  exists ((k, u) :: kts). split; [done|]. constructor; [|done]. simpl. auto.
Qed.

Lemma items_reads d l ts :
  map (encode itemSep kvSep) l = map Ok ts ->
  (forall v, v ∈ l -> forall t, encode itemSep kvSep v = Ok t -> reads d t (canon v)) ->
  Forall2 (reads d) ts (map canon l).
Proof using.
  clear HitemSep HkvSep Hwi Hwk wi wk.
  revert ts. induction l as [|v l IH]; intros [|t ts] Hts Hl; simplify_eq/=; constructor.
  - apply Hl; [left|done].
  - apply IH; [done|]. intros; apply Hl; [by right|done].
Qed.

(** The encoder's output parses as the canonical form of the value. *)
Lemma encode_reads v : wf v = true -> forall d t,
  encode itemSep kvSep v = Ok t -> d + depth v <= max_nesting_depth -> reads d t (canon v).
Proof.
  induction v as [|b|z|f|s|l IH|m IH|o] using json_nested_ind;
    intros Hwf d t Ht Hd; simpl in Hwf, Ht, Hd; cbn [canon]; try (injection Ht as <-).
  - apply reads_literal. set_solver.
  - apply reads_literal. destruct b; set_solver.
  - apply reads_number, lex_number_itoa.
  - unfold float_ok in Hwf. rewrite Ht in Hwf.
    apply andb_prop in Hwf as [Hl%bool_decide_eq_true Hp%bool_decide_eq_true].
    replace (JFloat f) with (number_value t) by (unfold number_value; by rewrite Hp).
    by apply reads_number.
  - by apply (reads_string writeString lex_writeString).
  - apply rbind_Ok in Ht as (s & (ts & Hts & ->)%write_items_Ok & [= <-]).
    rewrite Forall_forall in IH. pose proof (foldr_max_nonneg (map depth l)).
    apply (reads_array itemSep wi); [done|done| |lia]. apply items_reads; [done|].
    intros v Hv t' Ht'. pose proof (depth_elem v l Hv).
    apply IH; [done| |done|lia]. by eapply forallb_elem.
  - apply rbind_Ok in Ht as (s & (ts & Hts & ->)%write_items_Ok & [= <-]).
    apply andb_prop in Hwf as [Hnd%bool_decide_eq_true Hm].
    rewrite Forall_forall in IH. pose proof (foldr_max_nonneg (map (fun kv => depth kv.2) m)).
    apply (members_reads (d + 1)) in Hts as (kts & -> & Hf).
    + apply (reads_object itemSep kvSep wi wk HitemSep HkvSep Hwi Hwk writeString lex_writeString); [done| |lia].
      rewrite <- list_fmap_compose. change (NoDup (id <$> object_keys m)).
      rewrite list_fmap_id. by apply NoDup_object_keys.
    + intros k (v & Hv & _)%elem_of_object_keys; [|done].
      pose proof (assoc_In _ _ _ Hv) as Hin. pose proof (depth_member _ _ _ Hin).
      eapply forallb_elem in Hm; [|exact Hin]. apply andb_prop in Hm as [Hu Hw].
      exists v. split_and!; [done..|]. intros t Ht. apply (IH (k, v)); [done..|simpl; lia].
  - done.
Qed.
End encode_reads.

(** *** Order of map entries *)

Lemma object_keys_same m m1 m' : m ≡ₚ m1 ->
  Forall2 (fun x y => x.1 = y.1 /\ is_null x.2 = is_null y.2) m1 m' ->
  object_keys m = object_keys m'.
Proof.
  intros Hp Hf. unfold object_keys. apply sort_strings_unique.
  transitivity (List.filter (fun kv => negb (is_null kv.2)) m1).*1.
  - apply fmap_Permutation. clear -Hp. induction Hp as [|x l l' _ IH|x y l|l1 l2 l3 _ IH1 _ IH2]; simpl.
    + done.
    + destruct (negb _); [by apply perm_skip|done].
    + destruct (negb (is_null y.2)), (negb (is_null x.2)); try done. apply perm_swap.
    + by etransitivity.
  - clear Hp. induction Hf as [|[k x] [k' y] l l' [Hk Hn] _ IH]; simpl in *; [done|].
    subst k'. rewrite Hn. destruct (negb _); csimpl; [by apply perm_skip|done].
Qed.

Section same_value_ind.
Variable P : json -> json -> Prop.
Hypothesis Hrefl : forall v, P v v.
Hypothesis Harr : forall l l', Forall2 P l l' -> P (JArr l) (JArr l').
Hypothesis Hobj : forall m m1 m', NoDup m.*1 -> m ≡ₚ m1 ->
  Forall2 (fun x y => x.1 = y.1 /\ same_value x.2 y.2 /\ P x.2 y.2) m1 m' ->
  P (JObj m) (JObj m').

(** Rule induction through the lists. *)
Fixpoint same_value_nested_ind v w (H : same_value v w) : P v w :=
  match H with
  | same_refl v => Hrefl v
  | same_arr l l' Hl => Harr l l'
      ((fix go l l' (Hl : Forall2 same_value l l') : Forall2 P l l' :=
          match Hl with
          | List.Forall2_nil _ => List.Forall2_nil P
          | List.Forall2_cons x y Hx Hl => List.Forall2_cons x y (same_value_nested_ind x y Hx) (go _ _ Hl)
          end) l l' Hl)
  | same_obj m m1 m' Hnd Hp Hm => Hobj m m1 m' Hnd Hp
      ((fix go l l' (Hl : Forall2 (fun x y => x.1 = y.1 /\ same_value x.2 y.2) l l')
          : Forall2 (fun x y => x.1 = y.1 /\ same_value x.2 y.2 /\ P x.2 y.2) l l' :=
          match Hl with
          | List.Forall2_nil _ => List.Forall2_nil _
          | List.Forall2_cons x y Hx Hl => List.Forall2_cons x y
              (match Hx with conj Hk Hv => conj Hk (conj Hv (same_value_nested_ind _ _ Hv)) end)
              (go _ _ Hl)
          end) m1 m' Hm)
  end.
End same_value_ind.

Lemma same_value_null v w : same_value v w -> is_null v = is_null w.
Proof. by destruct 1. Qed.

(** ** Properties of the encoder *)

(** C9: the canonical bytes do not depend on the iteration order of Go's
    maps: values that differ only in the order of map entries, at any depth,
    encode to the same bytes or fail with the same error, whatever the
    separators. *)
Theorem encode_order_independent itemSep kvSep v w :
  same_value v w -> encode itemSep kvSep v = encode itemSep kvSep w.
Proof.
  induction 1 as [v|l l' Hl|m m1 m' Hnd Hp Hm] using same_value_nested_ind; [done| |]; simpl.
  - f_equal. f_equal. by induction Hl; f_equal/=.
  - assert (object_keys m = object_keys m') as <-.
    { eapply object_keys_same; [exact Hp|]. eapply Forall2_impl; [exact Hm|].
      simpl. intros x y (? & ? & _). split; [done|by apply same_value_null]. }
    f_equal. f_equal. apply map_ext. intros k. unfold write_member.
    replace (assoc k (map _ m')) with (assoc k (map (fun kv => (kv.1, encode itemSep kvSep kv.2)) m));
      [done|].
    rewrite (assoc_perm k _ (map (fun kv => (kv.1, encode itemSep kvSep kv.2)) m1)).
    + clear -Hm. f_equal. induction Hm as [|[j x] [j' y] l l' (Hj & _ & He) _ IH]; simpl in *; [done|].
      by rewrite Hj, He, IH.
    + by rewrite <- list_fmap_compose.
    + by apply Permutation_map.
Qed.

Lemma encode_order_independent_witness :
  Encode (JObj [("b", JInt 1); ("a", JObj [("y", JNull); ("x", JBool true)])])
  = Encode (JObj [("a", JObj [("x", JBool true); ("y", JNull)]); ("b", JInt 1)]).
Proof.
  apply encode_order_independent. eapply same_obj.
  - apply (bool_decide_unpack _). by vm_compute.
  - apply perm_swap.
  - constructor; [split; [done|]|constructor; [split; [done|]|done]].
    + eapply same_obj; [apply (bool_decide_unpack _); by vm_compute|apply perm_swap|].
      repeat constructor.
    + constructor.
Defined.

Lemma encode_parses itemSep kvSep wi wk v t :
  itemSep = String (chr 44) wi -> kvSep = String (chr 58) wk -> all_ws wi -> all_ws wk ->
  wf v = true -> depth v <= max_nesting_depth -> encode itemSep kvSep v = Ok t ->
  parse t = Some (canon v).
Proof.
  intros Hi Hk Hwi Hwk Hw Hd Ht.
  destruct (encode_reads itemSep kvSep wi wk Hi Hk Hwi Hwk v Hw 0 t Ht Hd) as [Hh Hr].
  unfold parse. rewrite <- (sapp_nil_r t), skip_ws_head, Hr; [done|done| |done]. lia.
Qed.

Lemma canonical_parses v t :
  wf v = true -> depth v <= max_nesting_depth ->
  Encode v = Ok t \/ EncodeForSignature v = Ok t ->
  parse t = Some (canon v).
Proof.
  intros Hw Hd [Ht|Ht].
  - by apply (encode_parses "," ":" "" "").
  - by apply (encode_parses ", " ": " " " " ").
Qed.


Definition sample_body : json :=
  JObj [("timestamp", JInt 1700000000); ("sinks", JNull);
        ("action_params", JObj [("q", JStr ("u" +:+ String (chr 34) (encode_rune 128512)));
                                ("limit", JFloat (F64 false 4503599627370496 (-51)))])].


(** No two bodies share their signed bytes: if two supported values have
    the same canonical encoding (in either form), they are the same value up
    to map order, nil members and integer-versus-float representation. *)
Theorem canonical_injective v w t :
  wf v = true -> wf w = true ->
  depth v <= max_nesting_depth -> depth w <= max_nesting_depth ->
  Encode v = Ok t /\ Encode w = Ok t
  \/ EncodeForSignature v = Ok t /\ EncodeForSignature w = Ok t ->
  canon v = canon w.
Proof.
  intros Hv Hw Dv Dw Ht.
  assert (Some (canon v) = Some (canon w)) as [=]; [|done].
  rewrite <- (canonical_parses v t Hv Dv) by tauto.
  apply canonical_parses; tauto.
Qed.

Lemma canonical_injective_witness :
  canon (JObj [("a", JInt 1); ("b", JNull)]) = canon (JObj [("a", JInt 1)]).
Proof.
  eapply (canonical_injective _ _ (String "{" (dquote +:+ "a" +:+ dquote +:+ ":1}")));
    [by vm_compute..|left; split; by vm_compute].
Defined.

(** *** Totality and ASCII output *)

Lemma all_printable_app s t : all_printable (s +:+ t) = all_printable s && all_printable t.
Proof.
  induction s as [|c s IH]; [done|]. rewrite app_cons. simpl. by rewrite IH, andb_assoc.
Qed.

Lemma all_digits_printable s : all_digits s = true -> all_printable s = true.
Proof.
  induction s as [|c s IH]; [done|]. simpl. intros [Hc Hs]%andb_prop.
  rewrite IH by done. apply in_range_true in Hc. unfold printable.
  apply andb_true_iff. split; [|done]. apply in_range_true. lia.
Qed.

Lemma printable_byte c : 32 <= byte c <= 126 -> printable c = true.
Proof. intros. by apply in_range_true. Qed.

Lemma span_digits_printable s ds r : span_digits s = (ds, r) -> all_printable ds = true.
Proof. intros (_ & H & _)%span_digits_spec. by apply all_digits_printable. Qed.

Lemma lex_number_printable s lit r : lex_number s = Some (lit, r) -> all_printable lit = true.
Proof.
  unfold lex_number. destruct s as [|c s]; [done|].
  assert (forall u ip s2, lex_int u = Some (ip, s2) -> all_printable ip = true) as Hint.
  { intros [|d u] ip s2; [done|]. unfold lex_int. destruct (byte d =? 48) eqn:E.
    - intros [= <- _]. simpl. rewrite printable_byte by lia. done.
    - destruct (is_digit d); [|done]. intros [= H].
      by apply (span_digits_printable (String d u) ip s2). }
  assert (forall u fp s3, lex_frac u = Some (fp, s3) -> all_printable fp = true) as Hfrac.
  { intros [|d u] fp s3; unfold lex_frac; [by intros [= <- _]|].
    destruct (byte d =? 46) eqn:E; [|by intros [= <- _]].
    destruct (span_digits u) eqn:Es. case_bool_decide; [done|]. intros [= <- _].
    simpl. rewrite printable_byte by lia. simpl. eauto using span_digits_printable. }
  assert (forall u xp s4, lex_exp u = Some (xp, s4) -> all_printable xp = true) as Hexp.
  { intros [|d u] xp s4; unfold lex_exp; [by intros [= <- _]|].
    destruct ((byte d =? 101) || (byte d =? 69)) eqn:E; [|by intros [= <- _]].
    destruct u as [|e u]; [done|]. destruct ((byte e =? 45) || (byte e =? 43)) eqn:E2.
    all: destruct (span_digits _) eqn:Es; case_bool_decide; [done|]; intros [= <- _];
      simpl; rewrite printable_byte by lia; rewrite ?app_nil_l, ?app_cons; simpl;
      rewrite ?(printable_byte e) by lia; simpl; eauto using span_digits_printable. }
  destruct (byte c =? 45) eqn:Ec.
  all: match goal with |- context [lex_int ?u] => destruct (lex_int u) as [[ip s2]|] eqn:E1; [|done] end.
  all: destruct (lex_frac s2) as [[fp s3]|] eqn:E2; [|done].
  all: destruct (lex_exp s3) as [[xp s4]|] eqn:E3; [|done]; intros [= <- _].
  all: rewrite !all_printable_app, (Hint _ _ _ E1), (Hfrac _ _ _ E2), (Hexp _ _ _ E3).
  all: simpl; rewrite ?printable_byte by lia; done.
Qed.

Lemma hex_digit_printable d : 0 <= d < 16 -> printable (hex_digit d) = true.
Proof.
  intros. unfold hex_digit. destruct (d <? 10) eqn:E; apply printable_byte; rewrite byte_chr; lia.
Qed.

Lemma u4_printable r : 0 <= r < 65536 -> all_printable (u4 r) = true.
Proof.
  intros H. unfold u4. simpl. rewrite !hex_digit_printable by div_lia. done.
Qed.

Lemma write_rune_printable r : valid_rune r = true -> all_printable (write_rune r) = true.
Proof.
  intros Hv. unfold valid_rune in Hv. apply andb_prop in Hv as [Hr%in_range_true _].
  unfold write_rune.
  repeat match goal with
  | |- context [if ?b then _ else _] =>
    let E := fresh "E" in destruct b eqn:E; [try (apply Z.eqb_eq in E; subst r) |]
  end.
  all: try reflexivity.
  - apply u4_printable. lia.
  - simpl. rewrite printable_byte; [done|]. rewrite byte_chr; lia.
  - change 1023 with (Z.ones 10). rewrite Z.shiftr_div_pow2, Z.land_ones by lia.
    change (2 ^ 10) with 1024. rewrite all_printable_app, !u4_printable; [done| |].
    + pose proof (Z.mod_pos_bound (r - 65536) 1024 ltac:(lia)). lia.
    + div_lia.
  - apply u4_printable. lia.
Qed.

Lemma writeString_printable s : all_printable (writeString s) = true.
Proof.
  unfold writeString, dquote. rewrite !all_printable_app. simpl. rewrite andb_true_r.
  pose proof (runes_valid s) as H. induction H as [|r l Hr _ IH]; [done|]. simpl.
  by rewrite all_printable_app, write_rune_printable, IH.
Qed.

Lemma write_items_total sep rs :
  all_printable sep = true ->
  (forall r, r ∈ rs -> exists t, r = Ok t /\ all_printable t = true) ->
  exists t, write_items sep rs = Ok t /\ all_printable t = true.
Proof.
  intros Hs. induction rs as [|r rs IH]; intros H; [by exists ""|].
  destruct (H r ltac:(left)) as (t & -> & Ht).
  destruct rs as [|r' rs]; [by exists t|].
  destruct IH as (u & Hu & Hp); [intros; apply H; by right|].
  exists (t +:+ sep +:+ u). cbn [write_items rbind] in *. rewrite Hu. split; [done|].
  by rewrite !all_printable_app, Ht, Hs, Hp.
Qed.

Lemma itoa_printable z : all_printable (itoa z) = true.
Proof. eapply lex_number_printable, lex_number_itoa. Qed.

(** Encoding a supported value never fails and its output is pure
    printable ASCII (so every non-ASCII or control character is escaped),
    in both forms. *)
Theorem encode_total_ascii itemSep kvSep v :
  all_printable itemSep = true -> all_printable kvSep = true -> wf v = true ->
  exists t, encode itemSep kvSep v = Ok t /\ all_printable t = true.
Proof.
  intros Hi Hk. induction v as [|b|z|f|s|l IH|m IH|o] using json_nested_ind; intros Hw; simpl in *.
  - by eexists.
  - destruct b; by eexists.
  - eexists. split; [done|apply itoa_printable].
  - unfold float_ok in Hw. destruct (writeFloat f) as [t|]; [|done].
    apply andb_prop in Hw as [Hl%bool_decide_eq_true _].
    exists t. split; [done|]. eauto using lex_number_printable.
  - eexists. split; [done|apply writeString_printable].
  - rewrite Forall_forall in IH.
    edestruct (write_items_total itemSep (map (encode itemSep kvSep) l)) as (t & Ht & Hp); [done| |].
    { intros r (v & -> & Hv)%list_elem_of_fmap. apply IH; [done|]. by eapply forallb_elem. }
    rewrite Ht. eexists. split; [done|]. rewrite !all_printable_app, Hp. done.
  - apply andb_prop in Hw as [Hnd%bool_decide_eq_true Hm]. rewrite Forall_forall in IH.
    edestruct write_items_total with (sep := itemSep) as (t & Ht & Hp); [done| |].
    2: { rewrite Ht. eexists. split; [done|]. rewrite !all_printable_app, Hp. done. }
    intros r (k & -> & (v & Hv & _)%elem_of_object_keys)%list_elem_of_fmap; [|done].
    pose proof (assoc_In _ _ _ Hv) as Hin. eapply forallb_elem in Hm; [|exact Hin].
    apply andb_prop in Hm as [_ Hw]. destruct (IH _ Hin Hw) as (t & Ht & Hp).
    unfold write_member. rewrite assoc_map, Hv. simpl in *. rewrite Ht. simpl.
    eexists. split; [done|]. by rewrite !all_printable_app, writeString_printable, Hk, Hp.
  - done.
Qed.

Lemma encode_total_ascii_witness :
  exists t, encode "," ":" sample_body = Ok t /\ all_printable t = true.
Proof. by apply encode_total_ascii; vm_compute. Defined.

(** *** Integers decoded from the wire *)

Lemma contains_byte_app c s t :
  contains_byte c (s +:+ t) = contains_byte c s || contains_byte c t.
Proof.
  unfold contains_byte. induction s as [|d s IH]; [done|]. rewrite app_cons. simpl.
  by rewrite IH, orb_assoc.
Qed.

Lemma writeFloat_mark f s : writeFloat f = Ok s -> has_float_mark s = true.
Proof.
  destruct f as [neg m e|neg|]; [|done..]. unfold writeFloat.
  destruct (format_float _) as [t|]; [|done]. intros [= <-].
  destruct (has_float_mark t) eqn:E; [done|].
  unfold has_float_mark. rewrite !contains_byte_app. cbn. by rewrite !orb_true_r.
Qed.

Lemma digits_no_mark s : all_digits s = true -> has_float_mark s = false.
Proof.
  unfold has_float_mark, contains_byte. induction s as [|c s IH]; [done|]. simpl.
  intros [Hc%in_range_true Hs]%andb_prop. specialize (IH Hs).
  apply orb_false_iff in IH as [[IH1 IH2]%orb_false_iff IH3]. rewrite IH1, IH2, IH3, !orb_false_r.
  repeat case_bool_decide; subst; vm_compute in Hc; naive_solver.
Qed.

Lemma itoa_no_mark z : has_float_mark (itoa z) = false.
Proof.
  unfold itoa. destruct (z <? 0) eqn:E.
  all: match goal with |- context [utoa ?n] =>
    destruct (utoa_spec n ltac:(lia)) as (d & ds & Heq & Hd & Hds & _);
    assert (has_float_mark (utoa n) = false) as H
      by (rewrite Heq; apply digits_no_mark; simpl; by rewrite is_digit_digit, Hds) end.
  - unfold has_float_mark in *. rewrite !contains_byte_app. exact H.
  - done.
Qed.

(** A body decoded from the wire is never re-encoded with the integer
    literals it was signed with: an integer [z] decodes to a float64, whose
    canonical text always carries a decimal point or an exponent, so it
    differs from the integer literal the signer hashed (1700000000 becomes
    1.7e+09). *)
Theorem decoded_integer_text_differs itemSep kvSep z t :
  encode itemSep kvSep (canon (JInt z)) = Ok t -> t <> itoa z.
Proof.
  simpl. unfold number_value. destruct (parse_float (itoa z)) as [f|]; simpl; [|done].
  intros H%writeFloat_mark ->. by rewrite itoa_no_mark in H.
Qed.

Lemma decoded_integer_text_differs_witness :
  encode ", " ": " (canon (JInt 1700000000)) = Ok "1.7e+09" /\ "1.7e+09" <> itoa 1700000000.
Proof.
  assert (encode ", " ": " (canon (JInt 1700000000)) = Ok "1.7e+09") as H by by vm_compute.
  split; [exact H|]. exact (decoded_integer_text_differs ", " ": " 1700000000 "1.7e+09" H).
Defined.
