(* ===== verification/GoMarshal.v ===== *)
(** * [json.Marshal] on JSON-shaped values

    Keys in byte order, HTML-sensitive characters escaped, floats in the
    form encoding/json chooses.  The escape writers and the lexer lemmas are
    those of CanonJson.  The texts are self-delimiting, so equal texts of two
    objects or arrays have equal texts for their members: comparing values by
    their marshalled bytes is a congruence for member access. *)

From S2P Require Import Prelude GoText GoJson CanonJson.

Set Default Proof Using "Type".

(** ** The encoder *)

(** [htmlSafeSet]: ASCII characters written as they are. *)
Definition html_safe (b : Z) : bool :=
  (32 <=? b) && negb (bool_decide (b ∈ [34; 38; 60; 62; 92])).

Definition marshal_ascii (b : Z) : string :=
  if html_safe b then String (chr b) ""
  else if b =? 34 then esc 34
  else if b =? 92 then esc 92
  else if b =? 8 then esc 98
  else if b =? 12 then esc 102
  else if b =? 10 then esc 110
  else if b =? 13 then esc 114
  else if b =? 9 then esc 116
  else u4 b.

(** One character: invalid UTF-8 and the two line separators are escaped. *)
Definition marshal_char (r : Z) (sz : nat) : string :=
  if r <? 128 then marshal_ascii r
  else if (r =? rune_error) && bool_decide (sz = 1%nat) then u4 rune_error
  else if (r =? 8232) || (r =? 8233) then u4 r
  else encode_rune r.

Fixpoint marshal_from (skip : nat) (s : string) : string :=
  match s with
  | EmptyString => ""
  | String _ s' =>
    match skip with
    | S k => marshal_from k s'
    | O => let '(r, sz) := decode_rune s in marshal_char r sz +:+ marshal_from (pred sz) s'
    end
  end.
Definition marshal_string (s : string) : string := dquote +:+ marshal_from 0 s +:+ dquote.

(** [floatEncoder]: the exponent form below 1e-6 and from 1e21 on, with the
    exponent's leading zero removed. *)
Definition fmt_json (neg : bool) (ds : string) (dp : Z) : string :=
  let x := dp - 1 in
  if (x <? -6) || (21 <=? x) then
    let '(d0, rest) := match ds with
                       | String c r => (String c "", r)
                       | EmptyString => ("0", "")
                       end in
    (if neg then "-" else "") +:+ d0
    +:+ (if bool_decide (rest = "") then "" else "." +:+ rest)
    +:+ "e" +:+ (if x <? 0 then "-" else "+") +:+ utoa (Z.abs x)
  else fmt_f neg ds dp.

(** All texts or none. *)
Fixpoint texts (l : list (option string)) : option (list string) :=
  match l with
  | [] => Some []
  | Some t :: l' => match texts l' with Some ts => Some (t :: ts) | None => None end
  | None :: _ => None
  end.

Definition marshal_member (enc : list (string * option string)) (k : string) : option string :=
  match assoc k enc with
  | Some (Some t) => Some (marshal_string k +:+ ":" +:+ t)
  | _ => None
  end.

(** [None] is an encoding error: a NaN or an infinity, or a value that is
    not JSON-shaped. *)
Fixpoint marshal (v : json) : option string :=
  match v with
  | JNull => Some "null"
  | JBool b => Some (if b then "true" else "false")
  | JInt z => Some (itoa z)
  | JFloat f => format_shortest fmt_json f
  | JStr s => Some (marshal_string s)
  | JArr l =>
    match texts (map marshal l) with
    | Some ts => Some ("[" +:+ join "," ts +:+ "]")
    | None => None
    end
  | JObj m =>
    let enc := map (fun kv => (kv.1, marshal kv.2)) m in
    match texts (map (marshal_member enc) (sort_strings m.*1)) with
    | Some ts => Some ("{" +:+ join "," ts +:+ "}")
    | None => None
    end
  | JOther _ => None
  end.

(** Proper strings and keys, no duplicate keys, and everything has a text. *)
Fixpoint proper (v : json) : bool :=
  match v with
  | JStr s => valid_utf8 s
  | JArr l => forallb proper l
  | JObj m =>
    bool_decide (NoDup m.*1) && forallb (fun kv => valid_utf8 kv.1 && proper kv.2) m
  | JFloat (F64 neg m e) =>
    (0 <=? m) && bool_decide (is_Some (format_shortest fmt_json (F64 neg m e)))
  | JFloat _ => false
  | JOther _ => false
  | _ => true
  end.

Example marshal_sample :
  marshal (JObj [("b", JStr "<a>"); ("a", JArr [JInt 3; JNull; JBool true])])
  = Some ("{" +:+ dquote +:+ "a" +:+ dquote +:+ ":[3,null,true]," +:+ dquote +:+ "b" +:+ dquote
          +:+ ":" +:+ dquote +:+ u4 60 +:+ "a" +:+ u4 62 +:+ dquote +:+ "}").
Proof. vm_compute. reflexivity. Qed.
Example marshal_floats :
  map (fun t => match parse_float t with Some f => marshal (JFloat f) | None => None end)
    ["1"; "1.5"; "1e20"; "1e21"; "0.000001"; "1e-7"; "2500000"; "-0"]
  = [Some "1"; Some "1.5"; Some "100000000000000000000"; Some "1e+21"; Some "0.000001";
     Some "1e-7"; Some "2500000"; Some "-0"].
Proof. vm_compute. reflexivity. Qed.

(** ** Strings read back *)

Lemma decode_encode_rune r s : valid_rune r = true -> 128 <= r ->
  exists c t, encode_rune r = String c t /\ 128 <= byte c
    /\ decode_rune (String c t +:+ s) = (r, S (strlen t)).
Proof.
  intros Hv Hr. unfold encode_rune. rewrite Hv. apply andb_prop in Hv as [Hv Hs].
  apply in_range_true in Hv. apply negb_true_iff, in_range_false in Hs.
  pose proof (Z.div_mod r 64 ltac:(lia)). pose proof (Z.mod_pos_bound r 64 ltac:(lia)).
  pose proof (Z.div_mod (r / 64) 64 ltac:(lia)). pose proof (Z.mod_pos_bound (r / 64) 64 ltac:(lia)).
  pose proof (Z.div_mod (r / 4096) 64 ltac:(lia)). pose proof (Z.mod_pos_bound (r / 4096) 64 ltac:(lia)).
  assert (r / 64 / 64 = r / 4096) as E1 by (rewrite Z.div_div by lia; done).
  assert (r / 4096 / 64 = r / 262144) as E2 by (rewrite Z.div_div by lia; done).
  rewrite E1, E2 in *.
  replace (r <? 128) with false by lia.
  destruct (r <? 2048) eqn:C2; [|destruct (r <? 65536) eqn:C3].
  all: eexists _, _; split; [reflexivity|]; rewrite byte_chr by lia; split; [lia|].
  all: rewrite !app_cons; unfold decode_rune; rewrite !byte_chr by lia.
  all: unfold in_range; split_tests; try (exfalso; range_lia).
  all: cbn [strlen String.length]; f_equal; lia.
Qed.

(** Encoded characters decode to themselves. *)
Lemma runes_encode_rune r s : valid_rune r = true ->
  runes (encode_rune r +:+ s) = r :: runes s.
Proof.
  intros Hv. unfold runes.
  assert (forall t k, runes_from (strlen t) (t +:+ k) = runes_from 0 k) as Hskip.
  { intros t k. induction t as [|c t IH]; [done|]. rewrite app_cons. apply IH. }
  destruct (decide (r < 128)) as [Hr|Hr].
  - pose proof Hv as Hv'. apply andb_prop in Hv' as [?%in_range_true _].
    rewrite encode_rune_lit, app_cons, app_nil_l by lia. cbn [runes_from].
    unfold decode_rune. rewrite byte_chr by lia. by replace (r <? 128) with true by lia.
  - destruct (decode_encode_rune r s Hv ltac:(lia)) as (c & t & -> & _ & Hd).
    rewrite app_cons in *. cbn [runes_from]. by rewrite Hd, Nat.pred_succ, Hskip.
Qed.
Lemma runes_encode l : Forall (fun r => valid_rune r = true) l -> runes (encode_runes l) = l.
Proof.
  induction 1 as [|r l Hr _ IH]; [done|].
  change (encode_runes (r :: l)) with (encode_rune r +:+ encode_runes l).
  by rewrite runes_encode_rune, IH.
Qed.
Lemma encode_runes_valid l : Forall (fun r => valid_rune r = true) l -> valid_utf8 (encode_runes l) = true.
Proof. intros H. apply bool_decide_eq_true. by rewrite runes_encode. Qed.

Lemma lex_raw_rune r s : valid_rune r = true -> 128 <= r ->
  lex_str (encode_rune r +:+ s) = emit (encode_rune r) (lex_str s).
Proof.
  intros Hv Hr. destruct (decode_encode_rune r s Hv Hr) as (c & t & E & Hc & Hd).
  rewrite E at 1. eapply lex_str_unit; [lia| |reflexivity].
  rewrite app_cons in *. unfold unit_at.
  replace (byte c =? 92) with false by lia. replace (byte c <? 32) with false by lia.
  replace (byte c <? 128) with false by lia. by rewrite Hd.
Qed.

Lemma lex_marshal_ascii b s : 0 <= b < 128 ->
  lex_str (marshal_ascii b +:+ s) = emit (encode_rune b) (lex_str s).
Proof.
  intros Hb. unfold marshal_ascii. destruct (html_safe b) eqn:Eh.
  - unfold html_safe in Eh. apply andb_prop in Eh as [Hl Hn%negb_true_iff%bool_decide_eq_false].
    rewrite !not_elem_of_cons in Hn. destruct Hn as (? & ? & ? & ? & ? & _).
    destruct (decide (b = 127)) as [->|].
    + eapply lex_str_unit; [done| |reflexivity]. reflexivity.
    + apply lex_str_plain; lia.
  - repeat match goal with
    | |- context [if ?k then _ else _] =>
      let E := fresh "E" in destruct k eqn:E; [apply Z.eqb_eq in E; subst b|]
    end.
    all: try (by apply lex_str_esc).
    apply lex_str_u4; [lia|]. unfold is_surrogate. range_lia.
Qed.

(** A marshalled string reads back as the string with its invalid bytes
    replaced, whatever follows. *)
Lemma lex_marshal_from skip s rest :
  lex_str (marshal_from skip s +:+ dquote +:+ rest)
  = Some (encode_runes (runes_from skip s), rest).
Proof.
  revert skip. induction s as [|c s IH]; intros skip; cbn [marshal_from runes_from].
  - unfold dquote. by rewrite app_nil_l, app_cons, app_nil_l.
  - destruct skip; [|apply IH].
    pose proof (decode_rune_valid (String c s)) as Hv.
    destruct (decode_rune (String c s)) as [r sz]. simpl in Hv. rewrite sapp_assoc.
    change (encode_runes (r :: ?l)) with (encode_rune r +:+ encode_runes l).
    enough (forall t, lex_str (marshal_char r sz +:+ t) = emit (encode_rune r) (lex_str t)) as H
      by (by rewrite H, IH).
    intros t. pose proof Hv as Hr. apply andb_prop in Hr as [Hr%in_range_true _].
    unfold marshal_char. destruct (r <? 128) eqn:E1; [apply lex_marshal_ascii; lia|].
    destruct (_ && _) eqn:E2.
    { apply andb_prop in E2 as [->%Z.eqb_eq _]. by apply lex_str_u4. }
    destruct (_ || _) eqn:E3; [|apply lex_raw_rune; [done|lia]].
    apply lex_str_u4; [lia|]. unfold is_surrogate. range_lia.
Qed.

(** Marshalled proper strings are self-delimiting. *)
Lemma marshal_string_split s s' r r' : valid_utf8 s = true -> valid_utf8 s' = true ->
  marshal_string s +:+ r = marshal_string s' +:+ r' -> s = s' /\ r = r'.
Proof.
  intros Hs%bool_decide_eq_true Hs'%bool_decide_eq_true. unfold marshal_string, dquote at 1 3.
  rewrite !app_cons, !app_nil_l, !sapp_assoc. intros [= H].
  apply (f_equal lex_str) in H. rewrite !lex_marshal_from in H.
  change (runes_from 0 s) with (runes s) in H. change (runes_from 0 s') with (runes s') in H.
  rewrite Hs, Hs' in H. by injection H.
Qed.

(** ** Numbers *)

(** The characters of a number literal. *)
Definition num_char (c : ascii) : bool :=
  is_digit c || bool_decide (byte c ∈ [43; 45; 46; 101]).
Fixpoint all_num (s : string) : bool :=
  match s with
  | EmptyString => true
  | String c r => num_char c && all_num r
  end.

Lemma all_num_app s t : all_num (s +:+ t) = all_num s && all_num t.
Proof.
  induction s as [|c s IH]; [done|]. rewrite app_cons. simpl. by rewrite IH, andb_assoc.
Qed.
Lemma all_digits_num s : all_digits s = true -> all_num s = true.
Proof.
  induction s as [|c s IH]; [done|]. simpl. intros [Hc Hs]%andb_prop.
  unfold num_char. by rewrite Hc, IH.
Qed.
Lemma all_digits_substring i n s : all_digits s = true -> all_digits (String.substring i n s) = true.
Proof.
  revert i n. induction s as [|c s IH]; intros [|i] [|n]; try done; simpl; intros [Hc Hs]%andb_prop;
    rewrite ?Hc, ?IH; auto.
Qed.
Lemma all_digits_zeros n : all_digits (zeros n) = true.
Proof.
  unfold zeros. induction (Z.to_nat n) as [|k IH]; [done|]. simpl.
  destruct (repeat "0" k); [done|]. exact IH.
Qed.
Lemma utoa_digits n : 0 <= n -> all_digits (utoa n) = true.
Proof.
  intros Hn. destruct (utoa_spec n Hn) as (d & ds & -> & Hd & Hds & _).
  simpl. by rewrite is_digit_digit, Hds.
Qed.
Lemma all_digits_srev s : all_digits (srev s) = all_digits s.
Proof.
  induction s as [|c s IH]; [done|]. rewrite srev_cons, all_digits_app, IH. simpl.
  by rewrite andb_true_r, andb_comm.
Qed.
Lemma strip_zeros_digits s : all_digits s = true -> all_digits (strip_trailing_zeros s) = true.
Proof.
  intros Hs. unfold strip_trailing_zeros. rewrite all_digits_srev.
  rewrite <- all_digits_srev in Hs. revert Hs. generalize (srev s). clear s.
  intros s. induction s as [|c s IH]; [done|]. simpl. intros [Hc Hs]%andb_prop.
  destruct (byte c =? 48); [auto|]. simpl. by rewrite Hc, Hs.
Qed.

Lemma fmt_f_num neg ds dp : all_digits ds = true -> all_num (fmt_f neg ds dp) = true.
Proof.
  intros Hd. unfold fmt_f. rewrite !all_num_app.
  repeat case_match; rewrite ?all_num_app, ?(all_digits_num (zeros _)), ?(all_digits_num (String.substring _ _ _))
    by auto using all_digits_zeros, all_digits_substring; done.
Qed.
Lemma fmt_json_num neg ds dp : all_digits ds = true -> all_num (fmt_json neg ds dp) = true.
Proof.
  intros Hd. unfold fmt_json. destruct (_ || _); [|by apply fmt_f_num].
  assert (all_num (utoa (Z.abs (dp - 1))) = true) by (apply all_digits_num, utoa_digits; lia).
  destruct ds as [|c ds]; simpl in Hd.
  - rewrite !all_num_app. repeat case_match; simpl; rewrite ?H; done.
  - apply andb_prop in Hd as [Hc Hd]. apply all_digits_num in Hd.
    assert (num_char c = true) by (unfold num_char; by rewrite Hc).
    rewrite !all_num_app. simpl. rewrite H0, H.
    repeat case_match; rewrite ?all_num_app; simpl; rewrite ?Hd; done.
Qed.

Lemma candidates_nonneg n d p k : 0 <= n -> 0 < d -> Forall (fun q => 0 <= q) (candidates n d p k).
Proof.
  intros Hn Hd. unfold candidates.
  assert (forall a b, 0 <= a -> 0 < b -> 0 <= a / b) as Hdiv by (intros; apply Z.div_pos; lia).
  destruct (0 <=? p - k) eqn:E.
  - assert (0 <= n / (d * 10 ^ (p - k))) by (apply Hdiv; [lia|]; apply Z.mul_pos_pos; lia).
    case_match; repeat constructor; lia.
  - assert (0 <= n * 10 ^ (- (p - k)) / d) by (apply Hdiv; [apply Z.mul_nonneg_nonneg; lia|lia]).
    case_match; repeat constructor; lia.
Qed.

Lemma shortest_num f neg n d p ks t : 0 <= n -> 0 < d ->
  shortest_search fmt_json f neg n d p ks = Some t -> all_num t = true.
Proof.
  intros Hn Hd. induction ks as [|k ks IH]; [done|]. cbn [shortest_search].
  destruct (List.find _ _) as [u|] eqn:E; [|done]. intros [= <-].
  apply find_some in E as [(q & <- & Hq)%in_map_iff _].
  apply fmt_json_num, strip_zeros_digits, utoa_digits.
  pose proof (candidates_nonneg n d p k Hn Hd) as Hc. rewrite Forall_forall in Hc.
  apply Hc. by apply list_elem_of_In.
Qed.

Lemma float_text_num neg m e t : 0 <= m ->
  format_shortest fmt_json (F64 neg m e) = Some t -> all_num t = true.
Proof.
  intros Hm. unfold format_shortest. destruct (m =? 0) eqn:E0.
  - intros [= <-]. by apply fmt_f_num.
  - destruct (0 <=? e) eqn:E; apply shortest_num; try lia.
Qed.

(** ** Self-delimiting texts *)

(** What can follow a value inside an array or object, or at the end. *)
Definition stop (r : string) : Prop :=
  match r with
  | EmptyString => True
  | String c _ => byte c = 44 \/ byte c = 93 \/ byte c = 125
  end.
Definition head_ok (t : string) : Prop :=
  exists c s, t = String c s /\ byte c <> 44 /\ byte c <> 93 /\ byte c <> 125.
Definition delimited (t u : string) : Prop :=
  forall r r', stop r -> stop r' -> t +:+ r = u +:+ r' -> t = u /\ r = r'.

Lemma num_char_stop c s : num_char c = true -> stop (String c s) -> False.
Proof.
  unfold num_char, is_digit. intros Hc Hs. simpl in Hs.
  apply orb_prop in Hc as [Hc%in_range_true|Hc%bool_decide_eq_true]; [lia|].
  rewrite !elem_of_cons, elem_of_nil in Hc. lia.
Qed.

Lemma num_delimited t u : all_num t = true -> all_num u = true -> delimited t u.
Proof.
  revert u. induction t as [|c t IH]; intros [|d u] Ht Hu r r' Hr Hr'; simpl in Ht, Hu;
    rewrite ?app_nil_l, ?app_cons.
  - done.
  - intros ->. apply andb_prop in Hu as [Hu _]. by destruct (num_char_stop _ _ Hu Hr).
  - intros <-. apply andb_prop in Ht as [Ht _]. by destruct (num_char_stop _ _ Ht Hr').
  - apply andb_prop in Ht as [_ Ht], Hu as [_ Hu]. intros [= -> H].
    by destruct (IH u Ht Hu r r' Hr Hr' H) as [-> ->].
Qed.

Lemma num_head t : all_num t = true -> t <> "" -> head_ok t.
Proof.
  destruct t as [|c t]; [done|]. simpl. intros [Hc _]%andb_prop _. exists c, t.
  split; [done|]. pose proof (num_char_stop c "" Hc) as H. simpl in H. tauto.
Qed.

Definition join_tail (ts : list string) (r : string) : string :=
  match ts with [] => r | _ => "," +:+ join "," ts +:+ r end.
Lemma join_tail_eq t ts r : join "," (t :: ts) +:+ r = t +:+ join_tail ts r.
Proof. destruct ts; [done|]. apply join_cons. Qed.

Lemma join_split ts us z r r' : z = 93 \/ z = 125 ->
  (forall t u, t ∈ ts -> u ∈ us -> delimited t u) -> Forall head_ok ts -> Forall head_ok us ->
  join "," ts +:+ String (chr z) r = join "," us +:+ String (chr z) r' -> ts = us /\ r = r'.
Proof.
  intros Hz. assert (byte (chr z) = z) as Hbz by (apply byte_chr; lia).
  assert (forall ts r, stop (join_tail ts (String (chr z) r))) as Hstop.
  { intros [|t l] q; simpl; [rewrite Hbz; tauto|by left]. }
  assert (forall t ts q q', head_ok t -> String (chr z) q = t +:+ join_tail ts (String (chr z) q') -> False)
    as Hclash.
  { intros t l q q' (c & s & -> & H) E. rewrite app_cons in E. injection E as <- _. lia. }
  revert us. induction ts as [|t ts IH]; intros [|u us] Hd Ht Hu; rewrite ?join_tail_eq.
  - rewrite !app_nil_l. intros [= ->]. done.
  - intros E. apply Forall_cons in Hu as [Hu _]. by destruct (Hclash _ _ _ _ Hu E).
  - intros E. symmetry in E. apply Forall_cons in Ht as [Ht _]. by destruct (Hclash _ _ _ _ Ht E).
  - intros E. apply Forall_cons in Ht as [_ Ht], Hu as [_ Hu].
    apply Hd in E as [-> E]; [|left|left|apply Hstop|apply Hstop].
    destruct ts as [|t' ts], us as [|u' us]; cbn [join_tail] in E.
    + by injection E as ->.
    + rewrite app_cons in E. injection E as E _. apply (f_equal byte) in E. rewrite Hbz in E.
      change (byte ",") with 44 in E. lia.
    + rewrite app_cons in E. injection E as E _. apply (f_equal byte) in E. rewrite Hbz in E.
      change (byte ",") with 44 in E. lia.
    + rewrite !app_cons, !app_nil_l in E. injection E as E.
      destruct (IH (u' :: us)) as [-> ->]; [by intros; apply Hd; right|done..].
Qed.

(** *** Values *)

Lemma texts_Forall2 l ts : texts l = Some ts <-> Forall2 (fun o t => o = Some t) l ts.
Proof.
  revert ts. induction l as [|[t|] l IH]; intros ts; cbn [texts].
  - split; [by intros [= <-]|]. by intros ->%Forall2_nil_inv_l.
  - destruct (texts l) as [us|] eqn:E.
    + split.
      * intros [= <-]. constructor; [done|]. by apply IH.
      * intros H. apply Forall2_cons_inv_l in H as (t' & us' & [= <-] & H & ->).
        apply IH in H. by injection H as ->.
    + split; [done|]. intros H. apply Forall2_cons_inv_l in H as (t' & us' & _ & H & ->).
      by apply IH in H.
  - split; [done|]. intros H. by apply Forall2_cons_inv_l in H as (t' & us' & ? & _ & _).
Qed.

Lemma itoa_num z : all_num (itoa z) = true /\ itoa z <> "".
Proof.
  unfold itoa. destruct (z <? 0) eqn:E.
  - split; [|done]. rewrite all_num_app. simpl. apply all_digits_num, utoa_digits. lia.
  - destruct (utoa_spec z ltac:(lia)) as (d & ds & H & _). split; [|by rewrite H].
    apply all_digits_num, utoa_digits. lia.
Qed.

Lemma shortest_nonempty fmt f neg n d p ks t :
  shortest_search fmt f neg n d p ks = Some t -> t <> "".
Proof.
  induction ks as [|k ks IH]; [done|]. cbn [shortest_search].
  destruct (List.find _ _) as [u|] eqn:E; [|done]. intros [= <-].
  apply find_some in E as [_ E%bool_decide_eq_true]. by intros ->.
Qed.

Lemma float_text f t : proper (JFloat f) = true -> marshal (JFloat f) = Some t ->
  all_num t = true /\ t <> "".
Proof.
  destruct f as [neg m e|neg|]; [|done..]. cbn [proper marshal].
  intros [Hm _]%andb_prop H. split; [apply float_text_num in H; [done|lia]|].
  revert H. unfold format_shortest. destruct (m =? 0); [intros [= <-]; by destruct neg|].
  destruct (0 <=? e); apply shortest_nonempty.
Qed.

Definition is_num (v : json) : bool := match v with JInt _ | JFloat _ => true | _ => false end.
(** The first byte of the text of anything but a number. *)
Definition lead (v : json) : Z :=
  match v with
  | JNull => 110 | JBool true => 116 | JBool false => 102 | JStr _ => 34
  | JArr _ => 91 | JObj _ => 123 | _ => 0
  end.

Lemma marshal_num v t : is_num v = true -> proper v = true -> marshal v = Some t ->
  all_num t = true /\ t <> "".
Proof.
  destruct v; try done; intros _ Hp H; [|by eapply float_text].
  injection H as <-. apply itoa_num.
Qed.
Lemma marshal_lead v t : is_num v = false -> marshal v = Some t ->
  exists s, t = String (chr (lead v)) s.
Proof.
  destruct v as [| [] | | | | l | m |]; try done; intros _ H; cbn [marshal] in H.
  1-4: injection H as <-; by eexists.
  - destruct (texts _); [|done]. injection H as <-. by eexists.
  - destruct (texts _); [|done]. injection H as <-. by eexists.
Qed.

Lemma marshal_head v t : proper v = true -> marshal v = Some t -> head_ok t.
Proof.
  intros Hp Hm. destruct (is_num v) eqn:E.
  - apply marshal_num in Hm as [? ?]; [|done..]. by apply num_head.
  - destruct (marshal_lead v t E Hm) as [s ->]. exists (chr (lead v)), s.
    split; [done|]. destruct v as [|[]| | | | | |]; done.
Qed.

Lemma elem_of_texts {A} (f : A -> option string) l ts t :
  texts (map f l) = Some ts -> t ∈ ts -> exists x, x ∈ l /\ f x = Some t.
Proof.
  intros H%texts_Forall2 (i & Hi)%list_elem_of_lookup.
  destruct (Forall2_lookup_r _ _ _ _ _ H Hi) as (o & Ho & ->).
  rewrite list_lookup_fmap in Ho. destruct (l !! i) as [x|] eqn:E; [|done].
  exists x. split; [by eapply list_elem_of_lookup_2|]. by injection Ho.
Qed.

Lemma proper_arr l v : proper (JArr l) = true -> v ∈ l -> proper v = true.
Proof. cbn [proper]. rewrite forallb_forall. intros H Hv. by apply H, list_elem_of_In. Qed.
Lemma proper_obj m : proper (JObj m) = true ->
  NoDup m.*1 /\ forall k v, assoc k m = Some v -> valid_utf8 k = true /\ proper v = true.
Proof.
  cbn [proper]. intros [Hn%bool_decide_eq_true H]%andb_prop. split; [done|].
  intros k v Hk%assoc_In. rewrite forallb_forall in H.
  specialize (H (k, v) ltac:(by apply list_elem_of_In)). by apply andb_prop in H.
Qed.

(** A member of a marshalled object. *)
Lemma marshal_member_Some m k t :
  marshal_member (map (fun kv => (kv.1, marshal kv.2)) m) k = Some t <->
  exists v s, assoc k m = Some v /\ marshal v = Some s /\ t = marshal_string k +:+ ":" +:+ s.
Proof.
  unfold marshal_member. rewrite assoc_map.
  destruct (assoc k m) as [v|]; simpl; [|naive_solver].
  destruct (marshal v) as [s|] eqn:E; naive_solver.
Qed.

Lemma member_head k s : head_ok (marshal_string k +:+ s).
Proof. unfold marshal_string, dquote. rewrite !app_cons. by eexists _, _. Qed.

Lemma member_delimited k k' s s' : valid_utf8 k = true -> valid_utf8 k' = true ->
  delimited s s' -> delimited (marshal_string k +:+ ":" +:+ s) (marshal_string k' +:+ ":" +:+ s').
Proof.
  intros Hk Hk' Hd r r' Hr Hr'. rewrite !sapp_assoc.
  intros [-> E]%marshal_string_split; [|done..]. rewrite !app_cons, !app_nil_l in E.
  injection E as E. by destruct (Hd r r' Hr Hr' E) as [-> ->].
Qed.

Lemma clash c d s s' : c <> d -> delimited (String c s) (String d s').
Proof. intros Hne r r' _ _. rewrite !app_cons. by intros [= ? _]. Qed.
Lemma delimited_sym t u : delimited t u -> delimited u t.
Proof. intros H r r' Hr Hr' E. by destruct (H r' r Hr' Hr (eq_sym E)) as [-> ->]. Qed.

Lemma lead_not_num v : is_num v = false -> num_char (chr (lead v)) = false.
Proof. by destruct v as [|[]| | | | | |]. Qed.

Lemma num_clash v w t u : is_num v = true -> is_num w = false -> proper v = true ->
  marshal v = Some t -> marshal w = Some u -> delimited t u.
Proof.
  intros Ev Ew Hv Ht Hu. destruct (marshal_num v t Ev Hv Ht) as [Hn Hne].
  destruct (marshal_lead w u Ew Hu) as [s ->]. destruct t as [|c t]; [done|].
  apply clash. intros ->. simpl in Hn. by rewrite (lead_not_num w Ew) in Hn.
Qed.

Lemma arr_split l l' ts us r r' :
  (forall v w t u, v ∈ l -> w ∈ l' -> marshal v = Some t -> marshal w = Some u -> delimited t u) ->
  proper (JArr l) = true -> proper (JArr l') = true ->
  texts (map marshal l) = Some ts -> texts (map marshal l') = Some us ->
  ("[" +:+ join "," ts +:+ "]") +:+ r = ("[" +:+ join "," us +:+ "]") +:+ r' -> ts = us /\ r = r'.
Proof.
  intros Hd Hl Hl' Ht Hu. rewrite !app_cons, !app_nil_l, !sapp_assoc. intros [= E].
  apply (join_split ts us 93 r r') in E; [done|by left| | |].
  - intros t u (v & Hv & Et)%(elem_of_texts _ _ _ _ Ht) (w & Hw & Eu)%(elem_of_texts _ _ _ _ Hu).
    by eapply Hd.
  - apply Forall_forall. intros t (v & Hv & Et)%(elem_of_texts _ _ _ _ Ht).
    exact (marshal_head v t (proper_arr l v Hl Hv) Et).
  - apply Forall_forall. intros t (v & Hv & Et)%(elem_of_texts _ _ _ _ Hu).
    exact (marshal_head v t (proper_arr l' v Hl' Hv) Et).
Qed.

Abbreviation members m :=
  (texts (map (marshal_member (map (fun kv => (kv.1, marshal kv.2)) m)) (sort_strings m.*1))).

Lemma obj_split m m' ts us r r' :
  (forall k k' v w t u, assoc k m = Some v -> assoc k' m' = Some w ->
     marshal v = Some t -> marshal w = Some u -> delimited t u) ->
  proper (JObj m) = true -> proper (JObj m') = true ->
  members m = Some ts -> members m' = Some us ->
  ("{" +:+ join "," ts +:+ "}") +:+ r = ("{" +:+ join "," us +:+ "}") +:+ r' -> ts = us /\ r = r'.
Proof.
  intros Hd [_ Hm]%proper_obj [_ Hm']%proper_obj Ht Hu.
  rewrite !app_cons, !app_nil_l, !sapp_assoc. intros [= E].
  assert (forall m ts, members m = Some ts -> Forall head_ok ts) as Hhead.
  { intros n l Hl. apply Forall_forall.
    intros t (k & _ & (v & s & _ & _ & ->)%marshal_member_Some)%(elem_of_texts _ _ _ _ Hl).
    apply member_head. }
  apply (join_split ts us 125 r r') in E; [done|by right| |by eapply Hhead..].
  intros t u (k & _ & (v & s & Hk & Hs & ->)%marshal_member_Some)%(elem_of_texts _ _ _ _ Ht).
  intros (k' & _ & (w & s' & Hk' & Hs' & ->)%marshal_member_Some)%(elem_of_texts _ _ _ _ Hu).
  apply member_delimited; [by eapply Hm|by eapply Hm'|by eapply (Hd k k')].
Qed.

(** Texts of different kinds are told apart by their first byte. *)
Lemma marshal_kinds v w t u : proper v = true -> proper w = true ->
  marshal v = Some t -> marshal w = Some u ->
  delimited t u \/ (is_num v = false /\ is_num w = false /\ lead v = lead w).
Proof.
  intros Hv Hw Ht Hu. destruct (is_num v) eqn:Ev, (is_num w) eqn:Ew.
  - left. apply num_delimited; [by eapply (marshal_num v)|by eapply (marshal_num w)].
  - left. by eapply (num_clash v w).
  - left. apply delimited_sym. by eapply (num_clash w v).
  - destruct (decide (lead v = lead w)) as [|Hne]; [by right|left].
    destruct (marshal_lead v t Ev Ht) as [s ->], (marshal_lead w u Ew Hu) as [s' ->].
    apply clash. intros E%(f_equal byte). rewrite !byte_chr in E; [done| |];
      [destruct w as [|[]| | | | | |]|destruct v as [|[]| | | | | |]]; simpl; lia.
Qed.

(** The texts of proper values can be told apart from what follows them. *)
Lemma marshal_delimited v w t u : proper v = true -> proper w = true ->
  marshal v = Some t -> marshal w = Some u -> delimited t u.
Proof.
  revert w t u. induction v as [| b | z | f | s | l IH | m IH | tag] using json_nested_ind;
    intros w t u Hv Hw Ht Hu;
    destruct (marshal_kinds _ _ _ _ Hv Hw Ht Hu) as [Hd|(Ev & Ew & El)]; try done.
  - destruct w as [|[]| | | | | |]; try done. injection Ht as <-. injection Hu as <-.
    intros r r' _ _ E. split; [done|]. by apply sapp_inj_l in E.
  - destruct w as [|[]| | | | | |], b; try done; injection Ht as <-; injection Hu as <-;
      intros r r' _ _ E; split; try done; by apply sapp_inj_l in E.
  - destruct w as [|[]| | | | | |]; try done. injection Ht as <-. injection Hu as <-.
    intros r r' _ _ [-> ->]%marshal_string_split; done.
  - destruct w as [|[]| | | |l'| |]; try done. cbn [marshal] in Ht, Hu.
    destruct (texts (map marshal l)) as [ts|] eqn:E1; [|done].
    destruct (texts (map marshal l')) as [us|] eqn:E2; [|done].
    injection Ht as <-. injection Hu as <-. intros r r' _ _ E.
    apply (arr_split l l' ts us) in E as [-> ->]; try done.
    intros v w p q Hvl Hwl. rewrite Forall_forall in IH.
    apply IH; [done|exact (proper_arr l v Hv Hvl)|exact (proper_arr l' w Hw Hwl)].
  - destruct w as [|[]| | | | |m'|]; try done. cbn [marshal] in Ht, Hu.
    destruct (members m) as [ts|] eqn:E1; [|done].
    destruct (members m') as [us|] eqn:E2; [|done].
    injection Ht as <-. injection Hu as <-. intros r r' _ _ E.
    apply (obj_split m m' ts us) in E as [-> ->]; try done.
    intros k k' v w p q Hk Hk'. rewrite Forall_forall in IH.
    apply proper_obj in Hv as [_ Hv], Hw as [_ Hw].
    apply (IH (k, v)); [by apply assoc_In|by eapply Hv|by eapply Hw].
Qed.

(** ** Comparing by text *)

(** Every proper value has a text. *)
Lemma texts_total {A} (f : A -> option string) l :
  (forall x, x ∈ l -> is_Some (f x)) -> is_Some (texts (map f l)).
Proof.
  induction l as [|x l IH]; intros H; cbn [map texts]; [by eexists|].
  destruct (H x) as [t ->]; [left|]. destruct IH as [ts ->]; [by intros; apply H; right|].
  by eexists.
Qed.

Lemma marshal_total v : proper v = true -> is_Some (marshal v).
Proof.
  induction v as [| b | z | f | s | l IH | m IH | tag] using json_nested_ind; cbn [marshal];
    intros Hp; try done; try (by eexists).
  - destruct f; try done. cbn [proper] in Hp. by apply andb_prop in Hp as [_ ?%bool_decide_eq_true].
  - destruct (texts_total marshal l) as [ts ->]; [|by eexists].
    intros x Hx. rewrite Forall_forall in IH. apply IH; [done|exact (proper_arr l x Hp Hx)].
  - destruct (texts_total (marshal_member (map (fun kv => (kv.1, marshal kv.2)) m)) (sort_strings m.*1))
      as [ts ->]; [|by eexists].
    apply proper_obj in Hp as [Hn Hp]. intros k Hk. rewrite sort_strings_perm in Hk.
    destruct (assoc k m) as [v|] eqn:Ek; [|by apply assoc_None in Ek].
    rewrite Forall_forall in IH.
    destruct (IH (k, v)) as [t Ht]; [by apply assoc_In|by eapply Hp|].
    eexists. apply marshal_member_Some. eauto.
Qed.

(** Equal texts of two objects: the same keys, with equal texts. *)
Lemma members_member m m' ts k v : proper (JObj m) = true -> proper (JObj m') = true ->
  members m = Some ts -> members m' = Some ts -> assoc k m = Some v ->
  exists w, assoc k m' = Some w /\ marshal w = marshal v.
Proof.
  intros [_ Hp]%proper_obj [_ Hp']%proper_obj Ht Ht' Hk.
  assert (k ∈ sort_strings m.*1) as (i & Hi)%list_elem_of_lookup.
  { rewrite sort_strings_perm, list_elem_of_fmap. exists (k, v). split; [done|by apply assoc_In]. }
  apply texts_Forall2 in Ht, Ht'.
  destruct (Forall2_lookup_l _ _ _ i (marshal_member (map (fun kv => (kv.1, marshal kv.2)) m) k) Ht)
    as (t & Hts & Hm); [by rewrite list_lookup_fmap, Hi|].
  destruct (Forall2_lookup_r _ _ _ i t Ht' Hts) as (o & Ho & ->).
  rewrite list_lookup_fmap in Ho. destruct (sort_strings m'.*1 !! i) as [k'|]; [|done].
  injection Ho as Hm'.
  apply marshal_member_Some in Hm as (v0 & s & Hv0 & Hs & ->), Hm' as (w & s' & Hw & Hs' & E).
  rewrite Hk in Hv0. injection Hv0 as <-.
  apply marshal_string_split in E as [<- E]; [|by eapply Hp|by eapply Hp'].
  exists w. split; [done|]. rewrite !app_cons, !app_nil_l in E. injection E as ->. congruence.
Qed.

Lemma marshal_obj_inj m m' k : proper (JObj m) = true -> proper (JObj m') = true ->
  marshal (JObj m) = marshal (JObj m') ->
  (marshal <$> assoc k m) = (marshal <$> assoc k m').
Proof.
  intros Hm Hm' E. pose proof (marshal_total _ Hm) as [t Ht].
  assert (exists ts, members m = Some ts /\ members m' = Some ts) as (ts & Hts & Hts').
  { rewrite Ht in E. symmetry in E. cbn [marshal] in Ht, E.
    destruct (members m) as [ts|] eqn:E1; [|done]. destruct (members m') as [us|] eqn:E2; [|done].
    exists ts. split; [done|]. injection Ht as <-. injection E as E.
    apply (f_equal (fun x => String "{" x +:+ "")) in E.
    apply (obj_split m' m us ts "" "") in E as [-> _]; try done.
    intros j j' v w p q Hj Hj'. apply marshal_delimited;
      [by eapply (proj2 (proper_obj m' Hm'))|by eapply (proj2 (proper_obj m Hm))]. }
  destruct (assoc k m) as [v|] eqn:Ek.
  - destruct (members_member m m' ts k v Hm Hm' Hts Hts' Ek) as (w & -> & H). simpl. by rewrite H.
  - destruct (assoc k m') as [w|] eqn:Ek'; [|done].
    destruct (members_member m' m ts k w Hm' Hm Hts' Hts Ek') as (v & Hv & _). congruence.
Qed.

Lemma marshal_arr_inj l l' i : proper (JArr l) = true -> proper (JArr l') = true ->
  marshal (JArr l) = marshal (JArr l') -> (marshal <$> l !! i) = (marshal <$> l' !! i).
Proof.
  intros Hl Hl' E. pose proof (marshal_total _ Hl) as [t Ht].
  assert (map marshal l = map marshal l') as Hmap.
  { rewrite Ht in E. symmetry in E. cbn [marshal] in Ht, E.
    destruct (texts (map marshal l)) as [ts|] eqn:E1; [|done].
    destruct (texts (map marshal l')) as [us|] eqn:E2; [|done].
    injection Ht as <-. injection E as E.
    apply (f_equal (fun x => String "[" x +:+ "")) in E.
    apply (arr_split l' l us ts "" "") in E as [-> _]; try done.
    2: { intros v w p q Hv Hw. apply marshal_delimited;
         [exact (proper_arr l' v Hl' Hv)|exact (proper_arr l w Hl Hw)]. }
    apply texts_Forall2 in E1, E2.
    assert (forall os (us : list string), Forall2 (fun o t => o = Some t) os us -> os = map Some us) as Hs.
    { induction 1 as [|o x os us -> _ IH]; [done|]. cbn [map]. by rewrite IH. }
    rewrite (Hs _ _ E1), (Hs _ _ E2). done. }
  pose proof (f_equal (fun x => x !! i) Hmap) as H. by rewrite !list_lookup_fmap in H.
Qed.

(** ** Reading back

    What decoding the text of a value yields: keys in byte order, integers
    as JSON numbers. *)
Fixpoint decoded (v : json) : json :=
  match v with
  | JInt z => number_value (itoa z)
  | JFloat f => match marshal (JFloat f) with Some t => number_value t | None => v end
  | JArr l => JArr (map decoded l)
  | JObj m =>
    let dec := map (fun kv => (kv.1, decoded kv.2)) m in
    JObj (map (fun k => (k, default JNull (assoc k dec))) (sort_strings m.*1))
  | _ => v
  end.

(** Proper strings and keys, no duplicate keys, floats with a literal. *)
Fixpoint readable (v : json) : bool :=
  match v with
  | JStr s => valid_utf8 s
  | JArr l => forallb readable l
  | JObj m =>
    bool_decide (NoDup m.*1) && forallb (fun kv => valid_utf8 kv.1 && readable kv.2) m
  | JFloat f => match marshal (JFloat f) with
                | Some t => bool_decide (lex_number t = Some (t, ""))
                | None => false
                end
  | JOther _ => false
  | _ => true
  end.

Lemma lex_marshal_string s rest : valid_utf8 s = true ->
  exists body, marshal_string s +:+ rest = String (chr 34) body /\ lex_str body = Some (s, rest).
Proof.
  intros Hv%bool_decide_eq_true. exists (marshal_from 0 s +:+ dquote +:+ rest). split.
  - unfold marshal_string, dquote. by rewrite !app_cons, !app_nil_l, !sapp_assoc, !app_cons, !app_nil_l.
  - rewrite lex_marshal_from. change (runes_from 0 s) with (runes s). by rewrite Hv.
Qed.

Lemma texts_map {A} (f : A -> option string) l ts :
  texts (map f l) = Some ts -> Forall2 (fun x t => f x = Some t) l ts.
Proof. rewrite texts_Forall2, Forall2_fmap_l. done. Qed.

Lemma members_texts (m : list (string * json)) d keys ts :
  Forall2 (fun k t => marshal_member (map (fun kv => (kv.1, marshal kv.2)) m) k = Some t) keys ts ->
  (forall k, k ∈ keys -> valid_utf8 k = true /\
     forall v t, assoc k m = Some v -> marshal v = Some t -> reads d t (decoded v)) ->
  exists kts, ts = map (fun kt => member_text ":" marshal_string kt.1 kt.2) kts
    /\ Forall2 (fun kt kv => kt.1 = kv.1 /\ valid_utf8 kt.1 = true /\ reads d kt.2 kv.2) kts
         (map (fun k => (k, default JNull (assoc k (map (fun kv => (kv.1, decoded kv.2)) m)))) keys).
Proof.
  induction 1 as [|k t keys ts Hm _ IH]; intros Hk; [by exists []|].
  destruct (Hk k ltac:(left)) as [Hu Hr].
  destruct IH as (kts & -> & Hf); [by intros; apply Hk; right|].
  apply marshal_member_Some in Hm as (v & u & Hv & Hu' & ->).
  exists ((k, u) :: kts). split; [done|]. constructor; [|done]. simpl.
  rewrite assoc_map, Hv. simpl. eauto.
Qed.

Lemma items_texts d l ts : Forall2 (fun v t => marshal v = Some t) l ts ->
  (forall v t, v ∈ l -> marshal v = Some t -> reads d t (decoded v)) ->
  Forall2 (reads d) ts (map decoded l).
Proof.
  induction 1 as [|v t l ts Hm _ IH]; intros Hl; cbn [map]; constructor.
  - apply Hl; [left|done].
  - apply IH. intros; apply Hl; [by right|done].
Qed.

(** The text of a value parses as its decoded form. *)
Lemma marshal_reads v : readable v = true -> forall d t,
  marshal v = Some t -> d + depth v <= max_nesting_depth -> reads d t (decoded v).
Proof.
  induction v as [|b|z|f|s|l IH|m IH|o] using json_nested_ind;
    intros Hwf d t Ht Hd; cbn [readable] in Hwf; cbn [marshal] in Ht; cbn [decoded depth] in *;
    try (injection Ht as <-).
  - apply reads_literal. set_solver.
  - apply reads_literal. destruct b; set_solver.
  - apply reads_number, lex_number_itoa.
  - cbn [marshal] in Hwf |- *. rewrite Ht in Hwf |- *. apply bool_decide_eq_true in Hwf.
    by apply reads_number.
  - by apply (reads_string marshal_string lex_marshal_string).
  - destruct (texts (map marshal l)) as [ts|] eqn:E; [|done]. injection Ht as <-.
    apply texts_map in E. rewrite Forall_forall in IH. pose proof (foldr_max_nonneg (map depth l)).
    apply (reads_array "," ""); [done|done| |lia].
    apply items_texts; [exact E|]. intros v u Hin Hu. pose proof (depth_elem v l Hin).
    apply IH; [done| |done|lia]. by eapply forallb_elem.
  - destruct (texts _) as [ts|] eqn:E; [|done]. injection Ht as <-.
    apply andb_prop in Hwf as [Hnd%bool_decide_eq_true Hm].
    rewrite Forall_forall in IH. pose proof (foldr_max_nonneg (map (fun kv => depth kv.2) m)).
    apply texts_map, (members_texts m (d + 1)) in E as (kts & -> & Hf).
    + apply (reads_object "," ":" "" ""); [done..|apply lex_marshal_string|exact Hf| |lia].
      rewrite <- list_fmap_compose. change (NoDup (id <$> sort_strings m.*1)).
      rewrite list_fmap_id. by rewrite sort_strings_perm.
    + intros k Hk. rewrite sort_strings_perm in Hk.
      apply list_elem_of_fmap in Hk as ([k' w] & -> & Hin). simpl.
      pose proof (forallb_elem _ _ _ Hm Hin) as [Hu _]%andb_prop. split; [done|].
      intros v t Hv Ht. apply assoc_In in Hv. pose proof (depth_member _ _ _ Hv).
      pose proof (forallb_elem _ _ _ Hm Hv) as [_ Hw]%andb_prop.
      apply (IH (k', v)); [done..|simpl; lia].
  - done.
Qed.

Lemma marshal_readable_total v : readable v = true -> is_Some (marshal v).
Proof.
  induction v as [|b|z|f|s|l IH|m IH|o] using json_nested_ind; intros Hr; cbn [readable] in Hr;
    try done; try (by cbn [marshal]; eexists).
  - destruct (marshal (JFloat f)) as [t|]; [by exists t|done].
  - rewrite Forall_forall in IH. cbn [marshal].
    destruct (texts_total marshal l) as [ts ->]; [|by eexists].
    intros v Hv. apply IH; [done|]. by eapply forallb_elem.
  - apply andb_prop in Hr as [Hnd%bool_decide_eq_true Hm]. rewrite Forall_forall in IH. cbn [marshal].
    destruct (texts_total (marshal_member (map (fun kv => (kv.1, marshal kv.2)) m)) (sort_strings m.*1))
      as [ts ->]; [|by eexists].
    intros k Hk. rewrite sort_strings_perm in Hk.
    destruct (assoc k m) as [v|] eqn:Ek; [|by apply assoc_None in Ek].
    pose proof (assoc_In _ _ _ Ek) as Hin. pose proof (forallb_elem _ _ _ Hm Hin) as [_ Hv]%andb_prop.
    destruct (IH (k, v) Hin Hv) as [t Ht]. eexists. apply marshal_member_Some. eauto.
Qed.

Lemma marshal_parses v t : readable v = true -> depth v <= max_nesting_depth ->
  marshal v = Some t -> parse t = Some (decoded v).
Proof.
  intros Hr Hd Ht. destruct (marshal_reads v Hr 0 t Ht ltac:(lia)) as [Hh Hp].
  unfold parse. rewrite <- (sapp_nil_r t), skip_ws_head, sapp_nil_r by done.
  rewrite <- (sapp_nil_r t) at 2. rewrite Hp; [done|done|rewrite sapp_nil_r; lia].
Qed.

(** ** Structs: the fields in declaration order, with their texts *)
Definition struct_text (fields : list (string * string)) : string :=
  "{" +:+ join "," (map (fun kt => member_text ":" marshal_string kt.1 kt.2) fields) +:+ "}".
(** A string field, and one with [omitempty]. *)
Definition string_field (k v : string) : string * string := (k, marshal_string v).
Definition omit_empty (k v : string) : list (string * string) :=
  if bool_decide (v = "") then [] else [string_field k v].

Lemma struct_parses fields kvs :
  Forall2 (fun kt kv => kt.1 = kv.1 /\ valid_utf8 kt.1 = true /\ reads 1 kt.2 kv.2) fields kvs ->
  NoDup kvs.*1 -> parse (struct_text fields) = Some (JObj kvs).
Proof.
  intros Hf Hnd. assert (reads 0 (struct_text fields) (JObj kvs)) as [Hh Hp].
  { by apply (reads_object "," ":" "" ""); [..|apply lex_marshal_string|exact Hf| |]. }
  unfold parse. rewrite <- (sapp_nil_r (struct_text fields)), skip_ws_head, sapp_nil_r by done.
  rewrite <- (sapp_nil_r (struct_text fields)) at 2. rewrite Hp; [done|done|rewrite sapp_nil_r; lia].
Qed.

Lemma reads_marshal_string d s : valid_utf8 s = true -> reads d (marshal_string s) (JStr s).
Proof. apply (reads_string marshal_string lex_marshal_string). Qed.
#[export] Hint Resolve reads_marshal_string : agent.

(** ** The encoder writes UTF-8, whatever the strings hold *)
(** ASCII text is valid UTF-8. *)
Lemma printable_utf8 s : all_printable s = true -> valid_utf8 s = true.
Proof.
  intros Hs. apply bool_decide_eq_true. unfold runes.
  induction s as [|c s IH]; [done|]. cbn [all_printable] in Hs. apply andb_prop in Hs as [Hc Hs].
  unfold printable in Hc. apply in_range_true in Hc. cbn [runes_from].
  unfold decode_rune at 1. replace (byte c <? 128) with true by lia. cbn [pred].
  change (encode_runes (?r :: ?l)) with (encode_rune r +:+ encode_runes l).
  rewrite IH by done. rewrite encode_rune_ascii by lia. by rewrite app_cons, app_nil_l.
Qed.
Lemma Forall2_In_r {A B} (P : A -> B -> Prop) l k y : Forall2 P l k -> y ∈ k -> exists x, x ∈ l /\ P x y.
Proof. intros Hl [i Hi]%list_elem_of_lookup_1. destruct (Forall2_lookup_r _ _ _ _ _ Hl Hi) as (x & Hx & HP). exists x. split; [by eapply list_elem_of_lookup_2|done]. Qed.
Definition utf8 (s : string) : Prop := exists l, Forall (fun r => valid_rune r = true) l /\ s = encode_runes l.
Lemma utf8_valid s : utf8 s -> valid_utf8 s = true.
Proof. intros (l & Hl & ->). by apply encode_runes_valid. Qed.
Lemma utf8_of_valid s : valid_utf8 s = true -> utf8 s.
Proof. intros <-%bool_decide_eq_true. exists (runes s). split; [apply runes_valid|]. done. Qed.
Lemma utf8_app s t : utf8 s -> utf8 t -> utf8 (s +:+ t).
Proof.
  intros (l & Hl & ->) (l' & Hl' & ->). exists (l ++ l'). split; [by apply Forall_app|].
  induction Hl as [|r l _ _ IH]; [done|]. change (encode_runes (?r :: ?l)) with (encode_rune r +:+ encode_runes l).
  cbn [app]. change (encode_runes (?r :: ?l)) with (encode_rune r +:+ encode_runes l). by rewrite <- IH, sapp_assoc.
Qed.
Lemma utf8_printable s : all_printable s = true -> utf8 s.
Proof. intros. by apply utf8_of_valid, printable_utf8. Qed.
Lemma utf8_join sep l : utf8 sep -> Forall utf8 l -> utf8 (join sep l).
Proof.
  intros Hs. induction 1 as [|x l Hx Hl IH]; [by exists []|]. destruct l as [|y l]; [done|].
  change (join sep (x :: y :: l)) with (x +:+ sep +:+ join sep (y :: l)). by apply utf8_app, utf8_app.
Qed.
Lemma utf8_marshal_from skip s : utf8 (marshal_from skip s).
Proof.
  revert skip. induction s as [|c s IH]; intros skip; [by exists []|]. destruct skip as [|k]; [|apply IH].
  cbn [marshal_from]. pose proof (runes_from_valid 0 (String c s)) as Hv. cbn [runes_from] in Hv.
  destruct (decode_rune (String c s)) as [r sz]. apply Forall_cons in Hv as [Hr _]. apply utf8_app; [|apply IH].
  unfold marshal_char. pose proof Hr as [Hr0%in_range_true _]%andb_prop. destruct (r <? 128) eqn:E.
  - apply Z.ltb_lt in E. unfold marshal_ascii. case_match.
    + exists [r]. split; [by constructor|]. unfold encode_runes. cbn. rewrite sapp_nil_r. symmetry. apply encode_rune_lit. lia.
    + apply utf8_printable. repeat case_match; [done..|]. clear -E Hr0. assert (forall n : nat, (n < 128)%nat -> all_printable (u4 (Z.of_nat n)) = true) as Hn.
      { intros n Hn. do 128 (destruct n as [|n]; [vm_compute; reflexivity|]). lia. }
      rewrite <- (Z2Nat.id r) by lia. apply Hn. lia.
  - case_match; [by apply utf8_printable|]. case_match.
    + apply utf8_printable. match goal with H : _ || _ = true |- _ => apply orb_prop in H as [->%Z.eqb_eq | ->%Z.eqb_eq] end; done.
    + exists [r]. split; [by constructor|]. unfold encode_runes. cbn. by rewrite ?sapp_nil_r.
Qed.
Lemma utf8_marshal_string s : utf8 (marshal_string s).
Proof. unfold marshal_string. apply utf8_app; [by apply utf8_printable|]. apply utf8_app; [apply utf8_marshal_from|by apply utf8_printable]. Qed.
Lemma marshal_utf8 v t : readable v = true -> marshal v = Some t -> utf8 t.
Proof.
  revert t. induction v as [|b|z|f|s|l IH|m IH|o] using json_nested_ind; intros t Hr Ht; cbn [readable] in Hr.
  - injection Ht as <-. by apply utf8_printable.
  - injection Ht as <-. by destruct b; apply utf8_printable.
  - injection Ht as <-. by apply utf8_printable, itoa_printable.
  - rewrite Ht in Hr. apply bool_decide_eq_true in Hr. by eapply utf8_printable, lex_number_printable.
  - injection Ht as <-. apply utf8_marshal_string.
  - cbn [marshal] in Ht. destruct (texts (map marshal l)) as [ts|] eqn:E; [|done]. injection Ht as <-. apply texts_map in E.
    apply utf8_app; [by apply utf8_printable|]. apply utf8_app; [|by apply utf8_printable]. apply utf8_join; [by apply utf8_printable|].
    rewrite Forall_forall in IH. rewrite Forall_forall. intros u Hu. destruct (Forall2_In_r _ _ _ _ E Hu) as (v & Hv & Hm).
    apply (IH v); [done|by eapply forallb_elem|done].
  - apply andb_prop in Hr as [_ Hm]. cbn [marshal] in Ht. destruct (texts _) as [ts|] eqn:E; [|done]. injection Ht as <-. apply texts_map in E.
    apply utf8_app; [by apply utf8_printable|]. apply utf8_app; [|by apply utf8_printable]. apply utf8_join; [by apply utf8_printable|].
    rewrite Forall_forall in IH. rewrite Forall_forall. intros u Hu. destruct (Forall2_In_r _ _ _ _ E Hu) as (k & Hk & Hv).
    apply marshal_member_Some in Hv as (v & s & Ha & Hs & ->). apply assoc_In in Ha.
    pose proof (forallb_elem _ _ _ Hm Ha) as [_ Hv]%andb_prop.
    apply utf8_app; [apply utf8_marshal_string|]. apply utf8_app; [by apply utf8_printable|]. by apply (IH (k, v)).
  - done.
Qed.
