(* ===== verification/GoUrl.v ===== *)
(** * [net/url] and [net/textproto]

    Percent-encoding of path segments and query parameters, encoded queries,
    canonical header names. *)

From S2P Require Import Prelude GoText GoJson CanonJson.

#[local] Set Default Proof Using "Type".

Definition upper_hex (d : Z) : ascii := if d <? 10 then chr (48 + d) else chr (55 + d).
Definition unreserved (c : ascii) : bool :=
  let b := byte c in
  in_range 97 122 b || in_range 65 90 b || in_range 48 57 b || (b =? 45) || (b =? 95) || (b =? 46) || (b =? 126).
(** [$ & + : = @] stay in a path segment. *)
Definition segment_byte (c : ascii) : bool :=
  let b := byte c in unreserved c || (b =? 36) || (b =? 38) || (b =? 43) || (b =? 58) || (b =? 61) || (b =? 64).
Definition percent (c : ascii) : string := String (chr 37) (String (upper_hex (byte c / 16)) (String (upper_hex (byte c mod 16)) "")).
Fixpoint PathEscape (s : string) : string :=
  match s with
  | EmptyString => ""
  | String c r => (if segment_byte c then String c "" else percent c) +:+ PathEscape r
  end.
Fixpoint QueryEscape (s : string) : string :=
  match s with
  | EmptyString => ""
  | String c r => (if unreserved c then String c "" else if byte c =? 32 then "+" else percent c) +:+ QueryEscape r
  end.
(** What a server reads in a path segment. *)
Fixpoint PathUnescape (s : string) : option string :=
  match s with
  | EmptyString => Some ""
  | String c r =>
    if byte c =? 37 then
      match r with
      | String a (String b r) => x ← hex_val a; y ← hex_val b; t ← PathUnescape r; Some (String (chr (x * 16 + y)) t)
      | _ => None
      end
    else t ← PathUnescape r; Some (String c t)
  end.

(** [url.Values]: the values of each key; [Encode] sorts by key. *)
Definition values := list (string * list string).
Definition encode_query (q : values) : string :=
  join "&" (concat (map (fun k => map (fun v => QueryEscape k +:+ "=" +:+ QueryEscape v) (default [] (assoc k q))) (sort_strings q.*1))).
Definition add_value (k v : string) (q : values) : values := mset k (default [] (assoc k q) ++ [v]) q.

(** Header names are canonical when they are tokens. *)
Definition token_byte (c : ascii) : bool :=
  let b := byte c in
  in_range 48 57 b || in_range 65 90 b || in_range 97 122 b || existsb (Z.eqb b) [33; 35; 36; 37; 38; 39; 42; 43; 45; 46; 94; 95; 96; 124; 126].
Fixpoint canonical_case (upper : bool) (s : string) : string :=
  match s with
  | EmptyString => ""
  | String c r =>
    let b := byte c in
    let c' := if upper && in_range 97 122 b then chr (b - 32) else if negb upper && in_range 65 90 b then chr (b + 32) else c in
    String c' (canonical_case (b =? 45) r)
  end.
Definition CanonicalMIMEHeaderKey (s : string) : string :=
  if forallb token_byte (String.list_ascii_of_string s) then canonical_case true s else s.

Lemma hex_val_upper d : 0 <= d < 16 -> hex_val (upper_hex d) = Some d.
Proof.
  intros Hd. unfold hex_val, upper_hex, in_range. destruct (Z.ltb_spec d 10); rewrite byte_chr by lia;
    repeat (match goal with |- context [?a <=? ?b] => destruct (Z.leb_spec a b); try lia end; simpl); f_equal; lia.
Qed.
Lemma segment_not_percent c : segment_byte c = true -> (byte c =? 37) = false.
Proof. intros H. apply Z.eqb_neq. intros E. unfold segment_byte, unreserved in H. rewrite E in H. vm_compute in H. done. Qed.
(** A server gets back what was put into the path. *)
Lemma path_roundtrip s : PathUnescape (PathEscape s) = Some s.
Proof.
  induction s as [|c s IH]; [done|]. cbn [PathEscape]. destruct (segment_byte c) eqn:E.
  - rewrite app_cons, app_nil_l. cbn [PathUnescape]. rewrite (segment_not_percent c E), IH. done.
  - unfold percent. rewrite !app_cons, app_nil_l. cbn [PathUnescape]. replace (byte (chr 37) =? 37) with true by done.
    pose proof (byte_range c). rewrite !hex_val_upper by (split; [apply Z.div_pos || apply Z.mod_pos_bound|apply Z.div_lt_upper_bound || apply Z.mod_pos_bound]; lia).
    simpl. rewrite IH. simpl. do 2 f_equal. rewrite <- (chr_byte c) at 3. f_equal. pose proof (Z.div_mod (byte c) 16). lia.
Qed.
#[export] Instance PathEscape_inj : Inj (=) (=) PathEscape.
Proof. intros a b E. apply (f_equal PathUnescape) in E. rewrite !path_roundtrip in E. by injection E. Qed.
Lemma hex_no_slash d : 0 <= d < 16 -> upper_hex d <> "/"%char.
Proof. intros Hd E. apply (f_equal hex_val) in E. rewrite hex_val_upper in E by done. done. Qed.
Lemma escaped_no_slash s : contains_byte "/" (PathEscape s) = false.
Proof.
  induction s as [|c s IH]; [done|]. cbn [PathEscape]. rewrite contains_byte_app, IH, orb_false_r. destruct (segment_byte c) eqn:E.
  - unfold contains_byte. simpl. rewrite orb_false_r. apply bool_decide_eq_false_2. intros ->. done.
  - pose proof (byte_range c). unfold contains_byte, percent. simpl. rewrite !bool_decide_eq_false_2; try done; apply hex_no_slash;
      (split; [apply Z.div_pos || apply Z.mod_pos_bound|apply Z.div_lt_upper_bound || apply Z.mod_pos_bound]; lia).
Qed.
Lemma split_at_slash a b c d : contains_byte "/" a = false -> contains_byte "/" c = false -> a +:+ "/" +:+ b = c +:+ "/" +:+ d -> a = c /\ b = d.
Proof.
  revert c. induction a as [|x a IH]; intros [|y c] Ha Hc; cbn.
  - by intros [=].
  - intros [= <- _]. unfold contains_byte in Hc. done.
  - intros [= -> _]. unfold contains_byte in Ha. done.
  - unfold contains_byte in Ha, Hc. simpl in Ha, Hc. apply orb_false_elim in Ha as [_ Ha], Hc as [_ Hc]. intros [= -> E].
    by destruct (IH c Ha Hc E) as [-> ->].
Qed.
