(* ===== verification/GoDuration.v ===== *)
(** * [time.ParseDuration]

    A signed sum of decimal numbers with units, in nanoseconds.  The
    accumulators are 64-bit unsigned; the overflow checks are written out. *)

From S2P Require Import Prelude GoText GoJson GoTime GoFloat.

#[local] Set Default Proof Using "Type".

Definition two63 : Z := 9223372036854775808.
(** U+00B5 and U+03BC in UTF-8. *)
Definition micro_sign : string := String (chr 194) (String (chr 181) "s").
Definition mu_sign : string := String (chr 206) (String (chr 188) "s").
Definition unitMap : list (string * Z) :=
  [("ns", 1); ("us", 1000); (micro_sign, 1000); (mu_sign, 1000); ("ms", 1000000); ("s", second); ("m", 60 * second); ("h", 3600 * second)].

Fixpoint leadingInt (x : Z) (s : string) : option (Z * string) :=
  match s with
  | String c r =>
    if is_digit c then
      if two63 / 10 <? x then None
      else let x := x * 10 + (byte c - 48) in if two63 <? x then None else leadingInt x r
    else Some (x, s)
  | EmptyString => Some (x, "")
  end.
(** The digits that fit, the power of ten they are scaled by, the rest. *)
Fixpoint leadingFraction (x : Z) (scale : float64) (overflow : bool) (s : string) : Z * float64 * string :=
  match s with
  | String c r =>
    if is_digit c then
      if overflow then leadingFraction x scale true r
      else if (two63 - 1) / 10 <? x then leadingFraction x scale true r
      else let y := x * 10 + (byte c - 48) in
           if two63 <? y then leadingFraction x scale true r else leadingFraction y (f_mul scale (f_of_Z 10)) false r
    else (x, scale, s)
  | EmptyString => (x, scale, "")
  end.
Fixpoint take_unit (s : string) : string * string :=
  match s with
  | String c r => if (byte c =? 46) || is_digit c then ("", s) else let '(u, t) := take_unit r in (String c u, t)
  | EmptyString => ("", "")
  end.
(** One number with its unit. *)
Definition duration_term (s : string) : option (Z * string) :=
  match s with
  | EmptyString => None
  | String c _ =>
    if negb ((byte c =? 46) || is_digit c) then None
    else
      '(v, s1) ← leadingInt 0 s;
      let pre := negb (bool_decide (strlen s1 = strlen s)) in
      let '(f, scale, s2, post) :=
        match s1 with
        | String d r => if byte d =? 46 then let '(f, scale, t) := leadingFraction 0 (f_of_Z 1) false r in (f, scale, t, negb (bool_decide (strlen t = strlen r)))
                        else (0, f_of_Z 1, s1, false)
        | EmptyString => (0, f_of_Z 1, s1, false)
        end in
      if negb pre && negb post then None
      else
        let '(u, s3) := take_unit s2 in
        if bool_decide (u = "") then None
        else
          unit ← assoc u unitMap;
          if two63 / unit <? v then None
          else
            let v := v * unit in
            if 0 <? f then
              let v := v + f_to_int (f_mul (f_of_Z f) (f_div (f_of_Z unit) scale)) in
              if two63 <? v then None else Some (v, s3)
            else Some (v, s3)
  end.
(** The terms add up; each one takes at least two bytes. *)
Fixpoint duration_sum (fuel : nat) (d : Z) (s : string) : option Z :=
  match fuel with
  | O => None
  | S fuel =>
    if bool_decide (s = "") then Some d
    else
      '(v, t) ← duration_term s;
      let d := (d + v) mod 2 ^ 64 in if two63 <? d then None else duration_sum fuel d t
  end.
Definition ParseDuration (s : string) : option Z :=
  let '(neg, body) := match s with
                      | String c r => if byte c =? 45 then (true, r) else if byte c =? 43 then (false, r) else (false, s)
                      | EmptyString => (false, "")
                      end in
  if bool_decide (body = "0") then Some 0
  else if bool_decide (body = "") then None
  else d ← duration_sum (S (strlen body)) 0 body;
       if neg : bool then Some (wrap64 (- d)) else if two63 - 1 <? d then None else Some d.

Example durations : map ParseDuration ["1h30m"; "1.5h"; "-2us"; "300ms"; ".5s"; "0"; "5"; ""; "1d"; "9223372036854775808ns"; "-9223372036854775808ns"]
  = [Some (5400 * second); Some (5400 * second); Some (-2000); Some 300000000; Some 500000000; Some 0; None; None; None; None; Some (- two63)].
Proof. vm_compute. reflexivity. Qed.

(** Each term takes at least the byte of its unit, so the fuel suffices. *)
Lemma leadingInt_length x s v t : leadingInt x s = Some (v, t) -> (strlen t <= strlen s)%nat.
Proof.
  revert x. induction s as [|c s IH]; intros x; cbn [leadingInt]; [by intros [= _ <-]|]. rewrite strlen_cons.
  case_match; [|intros [= _ <-]; rewrite strlen_cons; lia]. case_match; [done|]. cbv zeta. case_match; [done|]. intros E%IH. lia.
Qed.
Lemma leadingFraction_length x scale o s : (strlen (leadingFraction x scale o s).2 <= strlen s)%nat.
Proof.
  revert x scale o. induction s as [|c s IH]; intros x scale o; cbn [leadingFraction]; [done|]. rewrite strlen_cons.
  assert (forall x scale o, strlen (leadingFraction x scale o s).2 <= S (strlen s))%nat as IH' by (intros x' scale' o'; specialize (IH x' scale' o'); lia).
  repeat (case_match; try apply IH'). cbn. by rewrite strlen_cons.
Qed.
Lemma take_unit_length s : (strlen (take_unit s).1 + strlen (take_unit s).2 = strlen s)%nat.
Proof.
  induction s as [|c s IH]; cbn [take_unit]; [done|]. case_match; [done|]. destruct (take_unit s). cbn in *. rewrite !strlen_cons. lia.
Qed.
Lemma duration_term_shorter s v t : duration_term s = Some (v, t) -> (strlen t < strlen s)%nat.
Proof.
  unfold duration_term. destruct s as [|c s]; [done|]. destruct (negb _); [done|]. destruct (leadingInt 0 (String c s)) as [[x s1]|] eqn:E1; [|done].
  apply leadingInt_length in E1. cbn [mbind option_bind].
  set (q := match s1 with EmptyString => _ | String d r => _ end).
  assert (strlen q.1.2 <= strlen s1)%nat as Hq.
  { subst q. destruct s1 as [|d r]; [done|]. destruct (byte d =? 46); [|done].
    pose proof (leadingFraction_length 0 (f_of_Z 1) false r). destruct (leadingFraction _ _ _ r) as [[]]. cbn in *. rewrite strlen_cons. lia. }
  destruct q as [[[f scale] s2] post]. cbn in Hq. destruct (_ && _); [done|]. pose proof (take_unit_length s2) as Hu. destruct (take_unit s2) as [u s3]. cbn in Hu.
  case_bool_decide as Hne; [done|]. assert (0 < strlen u)%nat by (destruct u; [done|rewrite strlen_cons; lia]).
  destruct (assoc u unitMap); [|done]. cbn [mbind option_bind]. case_match; [done|]. cbv zeta. repeat case_match; intros [= _ <-]; lia.
Qed.
Lemma duration_sum_fuel n k d s : (strlen s < n)%nat -> duration_sum (n + k) d s = duration_sum n d s.
Proof.
  revert d s. induction n as [|n IH]; intros d s Hn; [lia|]. cbn [duration_sum Nat.add]. case_bool_decide; [done|].
  destruct (duration_term s) as [[v t]|] eqn:E; [|done]. apply duration_term_shorter in E. cbn [mbind option_bind]. cbv zeta. case_match; [done|].
  apply IH. lia.
Qed.

(** ** [Duration.String] *)
Definition fraction_text (v : Z) (digits : nat) : string :=
  let r := v mod 10 ^ Z.of_nat digits in
  if r =? 0 then "" else "." +:+ strip_trailing_zeros (pad digits r).
Definition duration_string (d : Z) : string :=
  let u := Z.abs d in
  if u =? 0 then "0s" else
  (if d <? 0 then "-" else "") +:+
  (if u <? 1000 then itoa u +:+ "ns"
   else if u <? 1000000 then itoa (u / 1000) +:+ fraction_text u 3 +:+ micro_sign
   else if u <? second then itoa (u / 1000000) +:+ fraction_text u 6 +:+ "ms"
   else let s := u / second in let m := s / 60 in let h := m / 60 in
     (if 0 <? h then itoa h +:+ "h" else "") +:+ (if 0 <? m then itoa (m mod 60) +:+ "m" else "")
     +:+ itoa (s mod 60) +:+ fraction_text u 9 +:+ "s").
Example duration_strings : map duration_string [60 * second; 5400 * second; 1500000000; 1500; -1; 0]
  = ["1m0s"; "1h30m0s"; "1.5s"; "1.5" +:+ micro_sign; "-1ns"; "0s"].
Proof. vm_compute. reflexivity. Qed.
