(* ===== verification/RelaySig.v ===== *)
(** * Relay signatures (pkg/relaysig)

    The Ed25519 check on request bodies and its replay guard.  Ed25519, SSH
    and X.509 parsing are parameters; the clock is an argument of each call,
    read once for the skew check and once when the nonce is recorded, as in
    the code. *)

From S2P Require Import Prelude GoText GoTime GoCrypto.

Definition maxTimestampSkew : duration := 5 * minute.
Definition maxNonces : nat := 10000.

(** The [relay_*] fields of a request. *)
Record Envelope := MkEnvelope {
  Signature : string;
  SignedAt : string;
  Nonce : string;
  KeyID : string
}.

Definition Present (e : Envelope) : bool := negb (bool_decide (Signature e = "")).

Record Verifier := MkVerifier {
  publicKeys : list string;
  seenNonces : gmap string time;
  lastCleanup : time
}.

Definition Enabled (v : Verifier) : bool := negb (bool_decide (publicKeys v = [])).

(** Negation of the most negative duration wraps to itself. *)
Definition absDuration (d : duration) : duration := if d <? 0 then wrap64 (- d) else d.

(** ** Public keys *)
Section keys.
(** [ssh.ParseAuthorizedKey] with the two type checks after it; [pem.Decode]
    and [x509.ParsePKIXPublicKey] likewise. *)
Variable ssh_ed25519_key : string -> result string.
Variable pem_block : string -> option string.
Variable pkix_ed25519_key : string -> result string.

Definition parsePublicKey (s0 : string) : result string :=
  let s := trim_space s0 in
  if has_prefix s "ssh-ed25519 " then ssh_ed25519_key s
  else match pem_block s with
  | Some block => pkix_ed25519_key block
  | None =>
    match b64_decode s with
    | None => Err "base64 decode failed"
    | Some k => if decide (strlen k = 32%nat) then Ok k else Err "expected 32 bytes"
    end
  end.

Fixpoint parse_fields (fields : list string) : result (list string) :=
  match fields with
  | [] => Ok []
  | f :: rest =>
    let f := trim_space f in
    if bool_decide (f = "") then parse_fields rest
    else let? k := parsePublicKey f in let? ks := parse_fields rest in Ok (k :: ks)
  end.

Definition parsePublicKeys (s0 : string) : result (list string) :=
  let s := trim_space s0 in
  if bool_decide (s = "") then Ok []
  else parse_fields
    (if contains s "-----BEGIN" then [s]
     else fields_func (fun c => (byte c =? 44) || (byte c =? 10)) "" s).

Definition NewVerifier (s : string) : result Verifier :=
  let? keys := rwrap "invalid relay signing public key: " (parsePublicKeys s) in
  Ok (MkVerifier keys ∅ zero_time).
End keys.

(** ** Verification *)
Section verify.
(** [ed25519.Verify(key, message, signature)]. *)
Variable ed25519_verify : string -> string -> string -> bool.

(** The locked check-then-record of a nonce at clock reading [now]. *)
Definition checkAndRecordNonce (now : time) (nonce : string) (v : Verifier)
  : result unit * Verifier :=
  if decide (is_Some (seenNonces v !! nonce))
  then (Err "relay signature: nonce already seen (replay)", v)
  else
    let seen := <[nonce := now]> (seenNonces v) in
    if bool_decide (maxNonces < size seen)%nat && (minute <? time_sub now (lastCleanup v)) then
      let cutoff := time_add now (- (maxTimestampSkew * 2)) in
      (Ok tt, MkVerifier (publicKeys v)
                (filter (fun nt => time_before nt.2 cutoff = false) seen) now)
    else (Ok tt, MkVerifier (publicKeys v) seen (lastCleanup v)).

(** [VerifyBody]: [now] is the clock at the skew check, [now'] when the
    nonce is recorded. *)
Definition VerifyBody (now now' : time) (bodyRaw : string) (env : Envelope) (v : Verifier)
  : result unit * Verifier :=
  if negb (Enabled v) then (Err "relay signature verification not configured", v)
  else if bool_decide (Signature env = "") then (Err "relay signature: missing relay_signature", v)
  else if bool_decide (SignedAt env = "") then (Err "relay signature: missing relay_signed_at", v)
  else if bool_decide (Nonce env = "") then (Err "relay signature: missing relay_nonce", v)
  else if bool_decide (bodyRaw = "") then (Err "relay signature: empty body", v)
  else match parse_rfc3339 (SignedAt env) with
  | None => (Err "relay signature: invalid relay_signed_at", v)
  | Some signedAt =>
    if maxTimestampSkew <? absDuration (time_sub now signedAt)
    then (Err "relay signature: relay_signed_at outside window", v)
    else match b64_decode (Signature env) with
    | None => (Err "relay signature: invalid signature encoding", v)
    | Some sig =>
      if negb (existsb (fun pk => ed25519_verify pk bodyRaw sig) (publicKeys v))
      then (Err "relay signature: invalid signature", v)
      else checkAndRecordNonce now' (Nonce env) v
    end
  end.

(** One call, with its two clock readings. *)
Record call := MkCall { c_now : time; c_now' : time; c_body : string; c_env : Envelope }.
Definition step (v : Verifier) (c : call) : Verifier :=
  (VerifyBody (c_now c) (c_now' c) (c_body c) (c_env c) v).2.
Definition accepted (v : Verifier) (c : call) : bool :=
  is_ok (VerifyBody (c_now c) (c_now' c) (c_body c) (c_env c) v).1.

(** Clock readings of successive calls never go back. *)
Fixpoint clock_from (t : time) (cs : list call) : Prop :=
  match cs with
  | [] => True
  | c :: cs' => t <= c_now c /\ c_now c <= c_now' c /\ clock_from (c_now' c) cs'
  end.

(** ** Lemmas *)

Lemma verify_inv now now' body env v v' :
  VerifyBody now now' body env v = (Ok tt, v') ->
  exists signedAt sig,
    parse_rfc3339 (SignedAt env) = Some signedAt
    /\ absDuration (time_sub now signedAt) <= maxTimestampSkew
    /\ b64_decode (Signature env) = Some sig
    /\ existsb (fun pk => ed25519_verify pk body sig) (publicKeys v) = true
    /\ Enabled v = true /\ Nonce env <> "" /\ body <> ""
    /\ Signature env <> "" /\ SignedAt env <> ""
    /\ checkAndRecordNonce now' (Nonce env) v = (Ok tt, v').
Proof.
  unfold VerifyBody. destruct (Enabled v) eqn:?; simpl; [|done].
  repeat case_bool_decide; try done.
  destruct (parse_rfc3339 _) as [sa|] eqn:?; [|done].
  destruct (_ <? _) eqn:?; [done|].
  destruct (b64_decode _) as [sg|] eqn:?; [|done].
  destruct (existsb _ _) eqn:Ex; simpl; [|done].
  intros. exists sa, sg. split_and!; done || lia.
Qed.

Lemma verify_intro now now' body env v signedAt sig :
  parse_rfc3339 (SignedAt env) = Some signedAt ->
  absDuration (time_sub now signedAt) <= maxTimestampSkew ->
  b64_decode (Signature env) = Some sig ->
  existsb (fun pk => ed25519_verify pk body sig) (publicKeys v) = true ->
  Nonce env <> "" -> body <> "" -> Signature env <> "" -> SignedAt env <> "" ->
  VerifyBody now now' body env v = checkAndRecordNonce now' (Nonce env) v.
Proof.
  intros Hp Hs Hb Hv ? ? ? ?. unfold VerifyBody, Enabled.
  rewrite !bool_decide_eq_false_2 by (done || (intros E; by rewrite E in Hv)). simpl.
  rewrite Hp. replace (_ <? _) with false by lia. by rewrite Hb, Hv.
Qed.

Lemma verify_result_unit now now' body env v (r : result unit) v' :
  VerifyBody now now' body env v = (r, v') -> is_ok r = true -> r = Ok tt.
Proof. destruct r as [[]|]; done. Qed.

(** A recorded nonce stays recorded with its time until the clock is more
    than twice the skew past it. *)
Definition remembers (n : string) (t clock : time) (v : Verifier) : Prop :=
  seenNonces v !! n = Some t \/ t + 2 * maxTimestampSkew < clock.

Lemma check_remembers n t clock now nonce v :
  remembers n t clock v -> clock <= now ->
  remembers n t now (checkAndRecordNonce now nonce v).2.
Proof.
  intros [Hn|Hlt] Hc; [|right; lia]. unfold checkAndRecordNonce.
  case_decide as Hs; [by left|]. simpl.
  assert (<[nonce:=now]> (seenNonces v) !! n = Some t) as Hi.
  { rewrite lookup_insert_ne; [done|]. intros ->. apply Hs. by eexists. }
  destruct (bool_decide _ && _); simpl; [|by left].
  destruct (time_before t (time_add now (- (maxTimestampSkew * 2)))) eqn:Et.
  - right. unfold time_before, time_add in Et. lia.
  - left. apply map_lookup_filter_Some. done.
Qed.

Lemma check_records now nonce v v' :
  checkAndRecordNonce now nonce v = (Ok tt, v') -> seenNonces v' !! nonce = Some now.
Proof.
  unfold checkAndRecordNonce. case_decide; [done|].
  destruct (bool_decide _ && _); intros [= <-]; simpl.
  - apply map_lookup_filter_Some. rewrite lookup_insert_eq. split; [done|].
    unfold time_before, time_add, maxTimestampSkew, minute, second. simpl. lia.
  - apply lookup_insert_eq.
Qed.

Lemma step_cases v c :
  step v c = v \/ step v c = (checkAndRecordNonce (c_now' c) (Nonce (c_env c)) v).2.
Proof.
  unfold step, VerifyBody.
  repeat match goal with
  | |- context [if ?b then _ else _] => destruct b; [by left|]
  end.
  destruct (parse_rfc3339 _); [|by left]. destruct (_ <? _); [by left|].
  destruct (b64_decode _); [|by left]. destruct (negb _); [by left|by right].
Qed.

Lemma run_remembers n t clock v cs :
  remembers n t clock v -> clock_from clock cs ->
  exists clock', clock <= clock' /\ remembers n t clock' (foldl step v cs)
    /\ forall c, clock_from clock (cs ++ [c]) -> clock' <= c_now c.
Proof.
  revert clock v. induction cs as [|c cs IH]; intros clock v Hr Hc; simpl in *.
  - exists clock. split_and!; [lia|done|]. naive_solver.
  - destruct Hc as (H1 & H2 & H3).
    destruct (IH (c_now' c) (step v c)) as (clock' & Hle & Hr' & Hlast).
    { destruct (step_cases v c) as [-> | ->].
      - destruct Hr; [by left|right; lia].
      - eapply check_remembers; [done|lia]. }
    { done. }
    exists clock'. split_and!; [lia|done|]. intros c' (_ & _ & Hc'). by apply Hlast.
Qed.
End verify.

(** ** Properties *)
Section properties.
Variable ed25519_verify : string -> string -> string -> bool.

Lemma verify_ok_iff now now' body env v :
  is_ok (VerifyBody ed25519_verify now now' body env v).1 = true <->
  exists signedAt sig pk,
    parse_rfc3339 (SignedAt env) = Some signedAt
    /\ absDuration (time_sub now signedAt) <= maxTimestampSkew
    /\ b64_decode (Signature env) = Some sig
    /\ pk ∈ publicKeys v /\ ed25519_verify pk body sig = true
    /\ Signature env <> "" /\ SignedAt env <> "" /\ Nonce env <> "" /\ body <> ""
    /\ seenNonces v !! Nonce env = None.
Proof.
  split.
  - destruct (VerifyBody _ _ _ _ _ _) as [[[]|] v'] eqn:E; [|done]. intros _.
    apply verify_inv in E as (sa & sg & ? & ? & ? & Hex & ? & ? & ? & ? & ? & Hn).
    apply existsb_exists in Hex as (pk & Hin & ?). exists sa, sg, pk.
    split_and!; try done; [by apply list_elem_of_In|].
    unfold checkAndRecordNonce in Hn. case_decide as Hd; [done|]. by apply eq_None_not_Some.
  - intros (sa & sg & pk & ? & ? & ? & Hpk & ? & ? & ? & ? & ? & Hn).
    erewrite verify_intro; try done.
    + unfold checkAndRecordNonce. rewrite decide_False by (by apply eq_None_not_Some).
      by destruct (bool_decide _ && _).
    + apply existsb_exists. exists pk. by rewrite <- list_elem_of_In.
Qed.

Lemma verify_err_unchanged now now' body env v :
  is_ok (VerifyBody ed25519_verify now now' body env v).1 = false ->
  (VerifyBody ed25519_verify now now' body env v).2 = v.
Proof.
  unfold VerifyBody. intros Hf.
  repeat match type of Hf with
  | context [if ?b then (Err _, _) else _] => destruct b; [done|]
  end.
  destruct (parse_rfc3339 _); [|done]. destruct (_ <? _); [done|].
  destruct (b64_decode _); [|done]. destruct (negb _); [done|].
  unfold checkAndRecordNonce in *. case_decide; [done|].
  destruct (bool_decide _ && _); done.
Qed.

(** A call is accepted exactly when some configured key verifies the
    signature over the raw body, the timestamp parses and passes the skew
    test, every field is present, and the nonce is not in the seen set; a
    rejected call leaves the verifier unchanged, so forged or stale
    messages cannot burn a nonce. *)
Theorem VerifyBody_spec now now' body env v :
  (is_ok (VerifyBody ed25519_verify now now' body env v).1 = true <->
   exists signedAt sig pk,
     parse_rfc3339 (SignedAt env) = Some signedAt
     /\ absDuration (time_sub now signedAt) <= maxTimestampSkew
     /\ b64_decode (Signature env) = Some sig
     /\ pk ∈ publicKeys v /\ ed25519_verify pk body sig = true
     /\ Signature env <> "" /\ SignedAt env <> "" /\ Nonce env <> "" /\ body <> ""
     /\ seenNonces v !! Nonce env = None)
  /\ (is_ok (VerifyBody ed25519_verify now now' body env v).1 = false ->
      (VerifyBody ed25519_verify now now' body env v).2 = v).
Proof. split; [apply verify_ok_iff|apply verify_err_unchanged]. Qed.

Lemma skew_bound now signedAt :
  absDuration (time_sub now signedAt) <= maxTimestampSkew ->
  signedAt - now < 2 ^ 63 -> signedAt <= now + maxTimestampSkew.
Proof.
  unfold absDuration, time_sub, maxTimestampSkew, minute, second, int64_min, int64_max.
  intros H Hfar. destruct (_ <? 0) eqn:E; [|lia].
  rewrite wrap64_id in H; unfold int64_min, int64_max; lia.
Qed.

Lemma late_rejected now signedAt :
  signedAt + maxTimestampSkew < now -> maxTimestampSkew < absDuration (time_sub now signedAt).
Proof.
  unfold absDuration, time_sub, maxTimestampSkew, minute, second, int64_min, int64_max.
  intros H. destruct (_ <? 0) eqn:E; lia.
Qed.


(** The skew test does not bound the future: a [relay_signed_at] more
    than 2^63 ns (about 292 years) ahead of the clock saturates the
    subtraction, its absolute value wraps to a negative duration, and the
    timestamp is accepted although it is outside the window. *)
Theorem far_future_timestamp_accepted now now' body env v signedAt sig pk :
  parse_rfc3339 (SignedAt env) = Some signedAt -> 2 ^ 63 <= signedAt - now ->
  b64_decode (Signature env) = Some sig -> Signature env <> "" ->
  pk ∈ publicKeys v -> ed25519_verify pk body sig = true ->
  Nonce env <> "" -> body <> "" -> seenNonces v !! Nonce env = None ->
  is_ok (VerifyBody ed25519_verify now now' body env v).1 = true.
Proof.
  intros Hp Hfar. intros. apply verify_ok_iff. exists signedAt, sig, pk.
  split_and!; try done.
  - unfold absDuration, time_sub. replace (Z.max _ _) with int64_min
      by (unfold int64_min, int64_max; lia). by vm_compute.
  - intros Hs. by rewrite Hs in Hp.
Qed.

(** The replay guard is keyed on fields the signature does not cover:
    a body and signature that were accepted once are accepted again under
    any fresh nonce and any timestamp within the skew, by any verifier with
    the same keys. *)
Theorem resend_with_fresh_nonce_accepted v c v2 now now' env' signedAt :
  accepted ed25519_verify v c = true -> publicKeys v2 = publicKeys v ->
  Signature env' = Signature (c_env c) -> Nonce env' <> "" ->
  seenNonces v2 !! Nonce env' = None ->
  parse_rfc3339 (SignedAt env') = Some signedAt ->
  absDuration (time_sub now signedAt) <= maxTimestampSkew ->
  is_ok (VerifyBody ed25519_verify now now' (c_body c) env' v2).1 = true.
Proof.
  unfold accepted. intros Ha Hk Hsig Hn Hseen Hp Hskew.
  apply verify_ok_iff in Ha as (sa & sg & pk & _ & _ & ? & ? & ? & ? & ? & ? & ? & _).
  apply verify_ok_iff. exists signedAt, sg, pk. rewrite Hsig, Hk.
  split_and!; try done. intros Hs. by rewrite Hs in Hp.
Qed.
End properties.

(** ** Witnesses

    A toy signature scheme: the signature of a body under a key is their
    concatenation. *)
Definition toy_verify (pk msg sig : string) : bool := bool_decide (sig = pk +:+ msg).
Definition toy_now : time := unix_to_internal + 1700000000 * second.
Definition toy_env (nonce signedAt : string) : Envelope :=
  MkEnvelope (b64_encode "kbody") signedAt nonce "".
Definition toy_verifier : Verifier := MkVerifier ["k"] ∅ zero_time.
Definition toy_call (nonce signedAt : string) (t : time) : call :=
  MkCall t t "body" (toy_env nonce signedAt).

Lemma VerifyBody_spec_witness :
  (VerifyBody toy_verify toy_now toy_now "forged" (toy_env "n" "2023-11-14T22:13:20Z") toy_verifier).2
  = toy_verifier.
Proof.
  apply (VerifyBody_spec toy_verify toy_now toy_now "forged" (toy_env "n" "2023-11-14T22:13:20Z") toy_verifier).
  by vm_compute.
Defined.


Lemma far_future_timestamp_accepted_witness :
  is_ok (VerifyBody toy_verify toy_now toy_now "body" (toy_env "n" "9999-12-31T23:59:59Z") toy_verifier).1
  = true.
Proof.
  eapply (far_future_timestamp_accepted toy_verify) with (pk := "k") (sig := "kbody");
    try by vm_compute.
  apply list_elem_of_here.
Defined.

Lemma resend_with_fresh_nonce_accepted_witness :
  is_ok (VerifyBody toy_verify (toy_now + hour) (toy_now + hour) "body"
           (toy_env "other" "2023-11-14T23:13:20Z")
           (step toy_verify toy_verifier (toy_call "n" "2023-11-14T22:13:20Z" toy_now))).1 = true.
Proof.
  apply (resend_with_fresh_nonce_accepted toy_verify toy_verifier
           (toy_call "n" "2023-11-14T22:13:20Z" toy_now)) with (signedAt := toy_now + hour);
    by vm_compute.
Defined.
