(* ===== verification/Auth.v ===== *)
(** * Request authentication (pkg/auth)

    The validator with its three modes and the relay-signature pre-check in
    front of them.  RSA-OAEP decryption, Ed25519 and the UUID parser are
    parameters; HMAC-SHA256, SHA-256, hex, base64 and the JSON decoder are
    the definitions of GoCrypto and GoStruct. *)

From S2P Require Import Prelude GoText GoJson GoStruct GoCrypto GoTime CanonJson RelaySig.

Set Default Proof Using "Type".

(** An incoming request after JSON decoding. *)
Record Request := MkRequest {
  Body : gomap;
  ActionName : string;
  HmacSignature : string;
  PartialAuthA : string;
  PartialAuthB : string;
  RelaySig : Envelope;
  BodyRaw : string
}.

(** A set-valued [map[string]struct{}]; [None] is the nil map.  The private
    key is its DER text. *)
Record Validator := MkValidator {
  SigningKey : string;
  PrivateKey : option string;
  LightActions : option (gset string);
  lightActionsAtomic : option (gset string);
  RelayVerifier : option Verifier
}.

Definition SetLightActions (actions : option (gset string)) (v : Validator) : Validator :=
  MkValidator (SigningKey v) (PrivateKey v) (LightActions v) actions (RelayVerifier v).

Definition LightActionsSet (v : Validator) : option (gset string) :=
  match lightActionsAtomic v with
  | Some p => Some p
  | None => LightActions v
  end.

Definition with_verifier (rv : Verifier) (v : Validator) : Validator :=
  MkValidator (SigningKey v) (PrivateKey v) (LightActions v) (lightActionsAtomic v) (Some rv).

(** The value the canonical encoder sees: a nil map encodes like an empty one. *)
Definition body_value (m : gomap) : json := JObj (default [] m).

(** ** The private key file *)
Section load.
Variable pem_decode : string -> option (string * string).
Variable parse_pkcs1 : string -> result string.
(** [Ok (Some key)] for an RSA key, [Ok None] for a key of another kind. *)
Variable parse_pkcs8 : string -> result (option string).

Definition LoadPrivateKey (path : string) (file : result string) : result string :=
  match file with
  | Err e => Err ("auth: read RSA key from " +:+ path +:+ ": " +:+ e)
  | Ok data =>
    match pem_decode data with
    | None => Err ("auth: " +:+ path +:+ " does not contain a PEM block")
    | Some (ty, bytes) =>
      if bool_decide (ty = "RSA PRIVATE KEY") then parse_pkcs1 bytes
      else if bool_decide (ty = "PRIVATE KEY") then
        let? k := parse_pkcs8 bytes in
        match k with
        | Some rsaKey => Ok rsaKey
        | None => Err ("auth: " +:+ path +:+ " contains a non-RSA private key")
        end
      else Err "auth: unexpected PEM block type"
    end
  end.
End load.

(** ** The [{hash, key}] payload of a partial key *)
Record partial := MkPartial { p_hash : string; p_key : string }.
Definition set_partial (f : string) (m : member) (p : partial) : partial * bool :=
  if bool_decide (f = "hash")
  then let '(s, ok) := set_string (p_hash p) m in (MkPartial s (p_key p), ok)
  else let '(s, ok) := set_string (p_key p) m in (MkPartial (p_hash p) s, ok).
Definition unmarshal_partial (plain : string) : option partial :=
  let '(p, ok) := unmarshal_struct ["hash"; "key"] set_partial plain (MkPartial "" "") in
  if ok then Some p else None.

Section validate.
Variable ed25519_verify : string -> string -> string -> bool.
(** [rsa.DecryptOAEP(sha256.New(), nil, key, ciphertext, nil)]. *)
Variable oaep_decrypt : string -> string -> option string.
(** [uuid.Parse] of github.com/google/uuid, as a 128-bit number. *)
Variable uuid_parse : string -> option Z.

Definition validateLightAction (r : Request) (v : Validator) : result unit :=
  match LightActionsSet v with
  | None => Err "auth: light-action mode disabled"
  | Some set =>
    if decide (ActionName r ∈ set) then Ok tt
    else Err ("auth: action " +:+ ActionName r +:+ " not in light-action allowlist")
  end.

Definition hmac_text (key body : string) : string :=
  "v0=" +:+ hex_encode (hmac_sha256 key ("v0:" +:+ body)).

Definition validateHMAC (r : Request) (v : Validator) : result unit :=
  if bool_decide (SigningKey v = "") then Err "auth: signing key not configured"
  else
    let? body := rwrap "auth: encode body for sig: " (EncodeForSignature (body_value (Body r))) in
    if bool_decide (hmac_text (SigningKey v) body = HmacSignature r) then Ok tt
    else Err "auth: signature mismatch".

Definition hash_text (body : string) : string := "v0=" +:+ hex_encode (sha256 body).

Definition extractPartialKey (key encoded expectedHash : string) : result Z :=
  match b64_decode encoded with
  | None => Err "base64"
  | Some ciphertext =>
    match oaep_decrypt key ciphertext with
    | None => Err "rsa-oaep"
    | Some plain =>
      match unmarshal_partial plain with
      | None => Err "json"
      | Some auth =>
        if bool_decide (p_hash auth = expectedHash) then
          match uuid_parse (p_key auth) with
          | Some parsed => Ok parsed
          | None => Err "key not a UUID"
          end
        else Err "hash mismatch"
      end
    end
  end.

Definition validatePartialKeys (r : Request) (v : Validator) : result unit :=
  match PrivateKey v with
  | None => Err "auth: private key not configured"
  | Some key =>
    if bool_decide (SigningKey v = "") then Err "auth: signing key not configured"
    else if bool_decide (PartialAuthA r = "") || bool_decide (PartialAuthB r = "")
    then Err "auth: missing partial auth"
    else
      let? body := rwrap "auth: encode body for partial-key hash: " (Encode (body_value (Body r))) in
      let expectedHash := hash_text body in
      let? keyA := rwrap "auth: partial_auth_a: "
                      (extractPartialKey key (PartialAuthA r) expectedHash) in
      let? keyB := rwrap "auth: partial_auth_b: "
                      (extractPartialKey key (PartialAuthB r) expectedHash) in
      match uuid_parse (SigningKey v) with
      | None => Err "auth: signing key not a UUID"
      | Some want =>
        if Z.lxor keyA keyB =? want then Ok tt
        else Err "auth: key_a XOR key_b does not match signing key"
      end
  end.

(** The mode the request selects; at most one is tried. *)
Definition validate_mode (r : Request) (v : Validator) : result unit :=
  if negb (bool_decide (HmacSignature r = "")) then validateHMAC r v
  else if negb (bool_decide (PartialAuthA r = "")) || negb (bool_decide (PartialAuthB r = ""))
  then validatePartialKeys r v
  else validateLightAction r v.

(** [Validate], with the two clock readings of [VerifyBody]. *)
Definition Validate (now now' : time) (r : Request) (v : Validator) : result unit * Validator :=
  match RelayVerifier v with
  | Some rv =>
    if Present (RelaySig r) && Enabled rv then
      match VerifyBody ed25519_verify now now' (BodyRaw r) (RelaySig r) rv with
      | (Ok tt, rv') => (Ok tt, with_verifier rv' v)
      | (Err _, rv') => (validate_mode r v, with_verifier rv' v)
      end
    else (validate_mode r v, v)
  | None => (validate_mode r v, v)
  end.

(** ** What each mode checks *)
Definition hmac_valid (r : Request) (v : Validator) : Prop :=
  SigningKey v <> ""
  /\ exists body, EncodeForSignature (body_value (Body r)) = Ok body
     /\ HmacSignature r = hmac_text (SigningKey v) body.

(** A partial key seals the hash of the body and a 128-bit share. *)
Definition seals (key encoded hash : string) (share : Z) : Prop :=
  exists cipher plain p, b64_decode encoded = Some cipher
    /\ oaep_decrypt key cipher = Some plain /\ unmarshal_partial plain = Some p
    /\ p_hash p = hash /\ uuid_parse (p_key p) = Some share.

Definition partial_valid (r : Request) (v : Validator) : Prop :=
  exists key body a b secret, PrivateKey v = Some key /\ SigningKey v <> ""
    /\ Encode (body_value (Body r)) = Ok body
    /\ PartialAuthA r <> "" /\ PartialAuthB r <> ""
    /\ seals key (PartialAuthA r) (hash_text body) a
    /\ seals key (PartialAuthB r) (hash_text body) b
    /\ uuid_parse (SigningKey v) = Some secret /\ Z.lxor a b = secret.

Definition light_allowed (r : Request) (v : Validator) : Prop :=
  exists set, LightActionsSet v = Some set /\ ActionName r ∈ set.

Definition relay_valid (now now' : time) (r : Request) (v : Validator) : Prop :=
  exists rv, RelayVerifier v = Some rv
    /\ is_ok (VerifyBody ed25519_verify now now' (BodyRaw r) (RelaySig r) rv).1 = true.

Lemma validateHMAC_iff r v : validateHMAC r v = Ok tt <-> hmac_valid r v.
Proof.
  unfold validateHMAC, hmac_valid. case_bool_decide; [split; [done|by intros []]|].
  rewrite rbind_Ok. setoid_rewrite rwrap_Ok. split.
  - intros (body & ? & E). case_bool_decide; [|done]. eauto.
  - intros (_ & body & ? & ->). exists body. by rewrite bool_decide_eq_true_2.
Qed.

Lemma extractPartialKey_iff key encoded hash k :
  extractPartialKey key encoded hash = Ok k <-> seals key encoded hash k.
Proof.
  unfold extractPartialKey, seals. split.
  - destruct (b64_decode encoded) as [c|]; [|done].
    destruct (oaep_decrypt key c) as [pl|] eqn:?; [|done].
    destruct (unmarshal_partial pl) as [p|] eqn:?; [|done]. case_bool_decide; [|done].
    destruct (uuid_parse (p_key p)) eqn:?; [|done]. intros [= ->]. by exists c, pl, p.
  - intros (c & pl & p & -> & -> & -> & -> & ->). by rewrite bool_decide_eq_true_2.
Qed.

Lemma validatePartialKeys_iff r v : validatePartialKeys r v = Ok tt <-> partial_valid r v.
Proof.
  unfold validatePartialKeys, partial_valid. split.
  - destruct (PrivateKey v) as [key|]; [|done]. repeat case_bool_decide; try done. simpl.
    rewrite rbind_Ok. setoid_rewrite rwrap_Ok. intros (body & ? & Hk).
    apply rbind_Ok in Hk as (a & Ha%rwrap_Ok%extractPartialKey_iff & Hk).
    apply rbind_Ok in Hk as (b & Hb%rwrap_Ok%extractPartialKey_iff & Hk).
    destruct (uuid_parse _) as [w|]; [|done]. destruct (_ =? _) eqn:E; [|done].
    exists key, body, a, b, w. split_and!; done || lia.
  - intros (key & body & a & b & w & -> & ? & -> & ? & ? & Ha & Hb & Hw & Hx).
    apply extractPartialKey_iff in Ha, Hb. rewrite !bool_decide_eq_false_2 by done. simpl.
    rewrite Ha. simpl. rewrite Hb. simpl. rewrite Hw. by rewrite (proj2 (Z.eqb_eq _ _)).
Qed.

Lemma validateLightAction_iff r v : validateLightAction r v = Ok tt <-> light_allowed r v.
Proof.
  unfold validateLightAction, light_allowed. destruct (LightActionsSet v) as [s|]; [|naive_solver].
  case_decide; naive_solver.
Qed.

(** The pre-check only ever adds the acceptance of a valid signature; when it
    fails, the request is judged by its mode and the verifier is as before. *)
Lemma Validate_cases now now' r v :
  (relay_valid now now' r v /\ (Validate now now' r v).1 = Ok tt)
  \/ (~ relay_valid now now' r v /\ Validate now now' r v = (validate_mode r v, v)).
Proof.
  unfold Validate, relay_valid. destruct (RelayVerifier v) as [rv|] eqn:Erv.
  2: { right. split; [naive_solver|done]. }
  destruct (VerifyBody _ _ _ _ _ rv) as [res rv'] eqn:E.
  assert (is_ok res = true -> Present (RelaySig r) && Enabled rv = true) as Hok.
  { intros Hr. destruct res as [[]|]; [|done].
    apply verify_inv in E as (sa & sg & _ & _ & _ & _ & He & _ & _ & Hs & _ & _).
    unfold Present. rewrite He, bool_decide_eq_false_2 by done. done. }
  destruct res as [[]|e].
  - left. rewrite (Hok eq_refl). split; [|done]. exists rv. by rewrite E.
  - right. split; [intros (rv0 & [= <-] & H); by rewrite E in H|].
    destruct (_ && _); [|done].
    pose proof (verify_err_unchanged ed25519_verify now now' (BodyRaw r) (RelaySig r) rv) as Hu.
    rewrite E in Hu. simpl in Hu. rewrite (Hu eq_refl).
    unfold with_verifier. by destruct v; simpl in *; subst.
Qed.

Lemma validate_mode_iff r v :
  validate_mode r v = Ok tt <->
  (HmacSignature r <> "" /\ hmac_valid r v)
  \/ (HmacSignature r = "" /\ partial_valid r v)
  \/ (HmacSignature r = "" /\ PartialAuthA r = "" /\ PartialAuthB r = "" /\ light_allowed r v).
Proof.
  clear ed25519_verify.
  unfold validate_mode. destruct (decide (HmacSignature r = "")) as [Hs|Hs].
  2: { rewrite bool_decide_eq_false_2 by done. simpl. rewrite validateHMAC_iff. naive_solver. }
  rewrite (bool_decide_eq_true_2 _ Hs). simpl.
  destruct (decide (PartialAuthA r = "" /\ PartialAuthB r = "")) as [[Ha Hb]|Hp].
  - rewrite !bool_decide_eq_true_2 by done. simpl. rewrite validateLightAction_iff.
    unfold partial_valid. naive_solver.
  - replace (_ || _) with true by (repeat case_bool_decide; naive_solver).
    rewrite validatePartialKeys_iff. naive_solver.
Qed.
End validate.

(** ** Properties *)
Section properties.
Variable ed25519_verify : string -> string -> string -> bool.
Variable oaep_decrypt : string -> string -> option string.
Variable uuid_parse : string -> option Z.

Abbreviation Validate := (Validate ed25519_verify oaep_decrypt uuid_parse).
Abbreviation relay_valid := (relay_valid ed25519_verify).
Abbreviation partial_valid := (partial_valid oaep_decrypt uuid_parse).

(** C1: a request is accepted exactly when its relay signature is valid, or
    the single mode it selects (HMAC before partial keys before the
    allowlist) accepts it: the HMAC over the canonical body matches, or both
    partial keys decrypt, seal the hash of the canonical body and XOR to the
    signing key, or no credential is presented and the action is on the
    active allowlist. *)
Theorem Validate_spec now now' r v :
  is_ok (Validate now now' r v).1 = true <->
  relay_valid now now' r v
  \/ (HmacSignature r <> "" /\ hmac_valid r v)
  \/ (HmacSignature r = "" /\ partial_valid r v)
  \/ (HmacSignature r = "" /\ PartialAuthA r = "" /\ PartialAuthB r = "" /\ light_allowed r v).
Proof.
  rewrite is_ok_unit, <- (validate_mode_iff oaep_decrypt uuid_parse).
  destruct (Validate_cases ed25519_verify oaep_decrypt uuid_parse now now' r v)
    as [[H ->]|[H ->]]; simpl; tauto.
Qed.

Definition without_relay_signature (r : Request) : Request :=
  MkRequest (Body r) (ActionName r) (HmacSignature r) (PartialAuthA r) (PartialAuthB r)
    (MkEnvelope "" "" "" "") (BodyRaw r).

(** Falling through never grants extra access: a request whose relay
    signature is not valid is answered, and leaves the validator, exactly as
    the same request with no relay signature at all. *)
Theorem invalid_relay_signature_ignored now now' r v :
  ~ relay_valid now now' r v ->
  Validate now now' r v = Validate now now' (without_relay_signature r) v
  /\ (Validate now now' r v).2 = v.
Proof.
  intros Hr.
  destruct (Validate_cases ed25519_verify oaep_decrypt uuid_parse now now' r v)
    as [[H _]|[_ ->]]; [done|]. split; [|done].
  unfold Validate, Auth.Validate. by destruct (RelayVerifier v).
Qed.

(** On an agent with neither relay keys nor a signing key, the only
    requests accepted carry no credential at all and name an action of the
    active allowlist; whatever signatures or partial keys a caller adds. *)
Theorem unkeyed_agent_only_light_actions now now' r v :
  RelayVerifier v = None -> SigningKey v = "" ->
  is_ok (Validate now now' r v).1 = true ->
  HmacSignature r = "" /\ PartialAuthA r = "" /\ PartialAuthB r = ""
  /\ exists set, LightActionsSet v = Some set /\ ActionName r ∈ set.
Proof.
  intros Hv Hk H%is_ok_unit. unfold Validate, Auth.Validate in H. rewrite Hv in H. simpl in H.
  apply validate_mode_iff in H as [[_ []]|[[_ Hp]|H]]; [done| |exact H].
  by destruct Hp as (? & ? & ? & ? & ? & ? & ? & _).
Qed.

(** An HMAC signature binds the canonical body: two requests accepted
    in HMAC mode under one key and one signature carry the same canonical
    body, unless their texts collide under HMAC-SHA256. *)
Theorem hmac_signature_binds_body r1 r2 v :
  hmac_valid r1 v -> hmac_valid r2 v -> HmacSignature r1 = HmacSignature r2 ->
  wf (body_value (Body r1)) = true -> wf (body_value (Body r2)) = true ->
  depth (body_value (Body r1)) <= max_nesting_depth ->
  depth (body_value (Body r2)) <= max_nesting_depth ->
  canon (body_value (Body r1)) = canon (body_value (Body r2))
  \/ exists t1 t2, t1 <> t2 /\ hmac_sha256 (SigningKey v) t1 = hmac_sha256 (SigningKey v) t2.
Proof.
  intros (_ & b1 & H1 & S1) (_ & b2 & H2 & S2) HS W1 W2 D1 D2. rewrite S1, S2 in HS.
  destruct (decide (b1 = b2)) as [<-|Hne].
  - left. apply (inj Some).
    by rewrite <- (canonical_parses _ b1 W1 D1), <- (canonical_parses _ b1 W2 D2) by auto.
  - right. exists ("v0:" +:+ b1), ("v0:" +:+ b2). split.
    + intros E%(sapp_inj_l "v0:"). done.
    + by apply hex_encode_inj, (sapp_inj_l "v0=").
Qed.

(** The two partial keys are interchangeable: exchanging them never
    changes whether a request is accepted in partial-keys mode. *)
Theorem partial_keys_commute r v :
  partial_valid r v <->
  partial_valid (MkRequest (Body r) (ActionName r) (HmacSignature r)
                   (PartialAuthB r) (PartialAuthA r) (RelaySig r) (BodyRaw r)) v.
Proof.
  unfold partial_valid, Auth.partial_valid. simpl.
  split; intros (key & body & a & b & w & ? & ? & ? & ? & ? & ? & ? & ? & <-);
    exists key, body, b, a, (Z.lxor a b); split_and!; done || by rewrite Z.lxor_comm.
Qed.
End properties.

(** ** Witnesses *)
Definition no_uuid (s : string) : option Z := None.
Definition no_oaep (k c : string) : option string := None.
Definition toy_request (action sig : string) : Request :=
  MkRequest (Some [("action_name", JStr action)]) action sig "" ""
    (MkEnvelope "bad" "2023-11-14T22:13:20Z" "n" "") "raw".
Definition toy_validator (key : string) (rv : option Verifier) : Validator :=
  MkValidator key None (Some {["ping"]}) None rv.

Lemma invalid_relay_signature_ignored_witness :
  (Auth.Validate toy_verify no_oaep no_uuid toy_now toy_now (toy_request "ping" "")
     (toy_validator "" (Some toy_verifier))).2 = toy_validator "" (Some toy_verifier).
Proof.
  apply (invalid_relay_signature_ignored toy_verify no_oaep no_uuid).
  intros (rv & [= <-] & H). by vm_compute in H.
Defined.

Lemma unkeyed_agent_only_light_actions_witness :
  exists set, LightActionsSet (toy_validator "" None) = Some set /\ "ping" ∈ set.
Proof.
  apply (unkeyed_agent_only_light_actions toy_verify no_oaep no_uuid toy_now toy_now
           (toy_request "ping" "") (toy_validator "" None)); by vm_compute.
Defined.

Definition toy_signature : string :=
  Eval vm_compute in
  match EncodeForSignature (JObj [("action_name", JStr "ping")]) with
  | Ok b => hmac_text "secret" b
  | Err _ => ""
  end.

Lemma hmac_signature_binds_body_witness :
  let r := toy_request "ping" toy_signature in
  canon (body_value (Body r)) = canon (body_value (Body r))
  \/ exists t1 t2, t1 <> t2 /\ hmac_sha256 "secret" t1 = hmac_sha256 "secret" t2.
Proof.
  intros r.
  assert (hmac_valid r (toy_validator "secret" None)) as H.
  { split; [done|]. eexists. split; [by vm_compute|by vm_compute]. }
  apply (hmac_signature_binds_body r r (toy_validator "secret" None)); done || by vm_compute.
Defined.
