(* ===== verification/Control.v ===== *)
(** * Allowlist refresh (pkg/control)

    [refresh_playbook] pulls the light-action allowlist from the backend and
    swaps it into the validator.  The HTTP exchange is a parameter: building
    the request, then either an error or a status with the result of reading
    the body. *)

From S2P Require Import Prelude GoText GoJson GoStruct GoCrypto GoTime CanonJson RelaySig Auth.

Set Default Proof Using "Type".

Record Refresher := MkRefresher {
  BackendURL : string;
  AuthSecretKey : string;
  AccountID : string;
  ClusterName : string;
  StaticActions : list string
}.

Record http_request := MkHttpRequest { h_url : string; h_headers : list (string * string) }.

Definition New (backendURL authSecret accountID cluster : string) : Refresher :=
  MkRefresher (trim_slashes backendURL) authSecret accountID cluster [].

(** [configResponse]. *)
Definition set_config (f : string) (m : member) (l : list string) : list string * bool :=
  set_string_list l (m_val m).
Definition unmarshal_config (body : string) : option (list string) :=
  let '(l, ok) := unmarshal_struct ["light_actions"] set_config body [] in
  if ok then Some l else None.

Definition config_request (r : Refresher) : http_request :=
  MkHttpRequest (BackendURL r +:+ "/v1/agent/config")
    ((if bool_decide (AuthSecretKey r = "") then []
      else [("Authorization", b64_encode (AuthSecretKey r))])
     ++ (if bool_decide (AccountID r = "") then [] else [("X-NB-Account-Id", AccountID r)])
     ++ (if bool_decide (ClusterName r = "") then [] else [("X-NB-Cluster", ClusterName r)])).

Section refresh.
(** [http.NewRequestWithContext] on the URL. *)
Variable new_request : string -> result unit.

(** What the exchange gives: an error, or the status and the body read. *)
Abbreviation http_outcome := (result (Z * result string)).

Definition merged_actions (r : Refresher) (backend : list string) : gset string :=
  list_to_set (StaticActions r) ∪ list_to_set backend.

(** [Refresh] on the validator the refresher points to ([None]: nil). *)
Definition Refresh (http_do : http_request -> http_outcome) (r : Refresher) (v : option Validator)
  : result json * option Validator :=
  match v with
  | None => (Err "control: validator not configured", None)
  | Some vd =>
    if bool_decide (BackendURL r = "") then
      (Ok (JObj [("refreshed", JBool false);
                 ("reason", JStr "no config source — NUDGEBEE_ENDPOINT not set")]), Some vd)
    else match new_request (h_url (config_request r)) with
    | Err e => (Err e, Some vd)
    | Ok _ =>
      match http_do (config_request r) with
      | Err e => (Err ("control: fetch config: " +:+ e), Some vd)
      | Ok (status, Err e) => (Err e, Some vd)
      | Ok (status, Ok body) =>
        if 400 <=? status then
          (Err ("control: HTTP " +:+ itoa status +:+ ": " +:+ body), Some vd)
        else match unmarshal_config body with
        | None => (Err "control: parse config", Some vd)
        | Some backend =>
          let merged := merged_actions r backend in
          (Ok (JObj [("refreshed", JBool true);
                     ("action_count", JInt (Z.of_nat (size merged)));
                     ("backend_count", JInt (Z.of_nat (length backend)));
                     ("static_count", JInt (Z.of_nat (length (StaticActions r))))]),
           Some (SetLightActions (Some merged) vd))
        end
      end
    end
  end.

Lemma Refresh_cases http_do r vd :
  (Refresh http_do r (Some vd)).2 = Some vd
  \/ exists backend, (Refresh http_do r (Some vd)).2
       = Some (SetLightActions (Some (merged_actions r backend)) vd).
Proof.
  unfold Refresh. case_bool_decide; [by left|].
  destruct (new_request _); [|by left].
  destruct (http_do _) as [[st [body|]]|]; [|by left..].
  destruct (_ <=? _); [by left|]. destruct (unmarshal_config body) as [l|]; [right; by exists l|by left].
Qed.

(** A refresh takes effect exactly when the backend is configured, the
    exchange completes with a status below 400 and the body decodes; the
    active allowlist is then the static actions together with the backend's.
    In every other case the validator is untouched. *)
Theorem Refresh_spec http_do r vd vd' :
  BackendURL r <> "" -> new_request (h_url (config_request r)) = Ok tt ->
  (Refresh http_do r (Some vd)).2 = Some vd' ->
  (exists status body backend, http_do (config_request r) = Ok (status, Ok body) /\ status < 400
     /\ unmarshal_config body = Some backend
     /\ LightActionsSet vd' = Some (list_to_set (StaticActions r) ∪ list_to_set backend)
     /\ is_ok (Refresh http_do r (Some vd)).1 = true
     /\ SigningKey vd' = SigningKey vd /\ RelayVerifier vd' = RelayVerifier vd)
  \/ (is_ok (Refresh http_do r (Some vd)).1 = false /\ vd' = vd).
Proof.
  intros Hu Hn. unfold Refresh. rewrite bool_decide_eq_false_2, Hn by done.
  destruct (http_do _) as [[st [body|]]|]; [|by right; simplify_eq/=..].
  destruct (_ <=? _) eqn:Est; [by right; simplify_eq/=|].
  destruct (unmarshal_config body) as [l|] eqn:El; [|by right; simplify_eq/=].
  intros [= <-]. left. exists st, body, l. by split_and!; [|lia|..].
Qed.

(** Static actions cannot be locked out: whatever the backend answers in
    any sequence of refreshes, a request without credentials for a static
    action that was allowed before is still accepted in light-action mode. *)
Theorem static_actions_survive_refreshes https r vd a :
  a ∈ StaticActions r ->
  (exists set, LightActionsSet vd = Some set /\ a ∈ set) ->
  exists vd' set, foldl (fun v http_do => (Refresh http_do r v).2) (Some vd) https = Some vd'
    /\ LightActionsSet vd' = Some set /\ a ∈ set
    /\ validateLightAction (MkRequest None a "" "" "" (MkEnvelope "" "" "" "") "") vd' = Ok tt.
Proof.
  intros Ha. revert vd. induction https as [|h https IH]; intros vd Hset; cbn [foldl].
  - destruct Hset as (set & Hs & Hin). exists vd, set. split_and!; try done.
    unfold validateLightAction. by rewrite Hs, decide_True.
  - destruct (Refresh_cases h r vd) as [-> | (backend & ->)]; apply IH; [done|].
    eexists. split; [done|]. unfold merged_actions. set_solver.
Qed.
End refresh.

Definition toy_refresher : Refresher := MkRefresher "https://b" "k" "" "" ["ping"].
Definition any_url (u : string) : result unit := Ok tt.
Definition answers (body : string) (r : http_request) : result (Z * result string) :=
  Ok (200, Ok body).

Lemma Refresh_spec_witness :
  let vd' := SetLightActions (Some (merged_actions toy_refresher [])) (toy_validator "" None) in
  (exists status body backend, answers "{}" (config_request toy_refresher) = Ok (status, Ok body)
     /\ status < 400 /\ unmarshal_config body = Some backend
     /\ LightActionsSet vd' = Some (list_to_set ["ping"] ∪ list_to_set backend)
     /\ is_ok (Refresh any_url (answers "{}") toy_refresher (Some (toy_validator "" None))).1 = true
     /\ SigningKey vd' = "" /\ RelayVerifier vd' = None)
  \/ (is_ok (Refresh any_url (answers "{}") toy_refresher (Some (toy_validator "" None))).1 = false
      /\ vd' = toy_validator "" None).
Proof.
  exact (Refresh_spec any_url (answers "{}") toy_refresher (toy_validator "" None) _
    ltac:(done) ltac:(done) ltac:(reflexivity)).
Defined.

Lemma static_actions_survive_refreshes_witness :
  exists vd' set,
    foldl (fun v http_do => (Refresh any_url http_do toy_refresher v).2)
      (Some (toy_validator "" None)) [answers "{}"; answers "oops"] = Some vd'
    /\ LightActionsSet vd' = Some set /\ "ping" ∈ set
    /\ validateLightAction (MkRequest None "ping" "" "" "" (MkEnvelope "" "" "" "") "") vd' = Ok tt.
Proof.
  apply (static_actions_survive_refreshes any_url); [set_solver|].
  eexists. split; [done|]. set_solver.
Defined.
