(* ===== verification/Dispatch.v ===== *)
(** * Action dispatch (pkg/dispatch)

    [Handle] for one relay message is modelled in two parts: [handle_start]
    runs from the raw bytes to the point where the code either is done or
    waits for something outside it (a pool slot, the terminal handler, the
    proxy handler), and a [finish_*] function per wait gives the effects of
    what comes back.  [exec] composes them into the concurrent system: the
    relay starts one goroutine per message, so parts of different messages
    interleave freely. *)

From S2P Require Import Prelude GoText GoJson GoStruct GoCrypto GoTime CanonJson RelaySig Auth.

Set Default Proof Using "Type".

(** ** Configuration *)
Record Config := MkConfig {
  NormalPoolSize : Z;
  HighPriorityPoolSize : Z;
  TaskTimeout : duration;
  LongTaskTimeout : duration;
  LongActions : gset string
}.

(** Registered action names stand for the handler map; the bool fields say
    which optional sinks are wired. *)
Record Dispatcher := MkDispatcher {
  d_cfg : Config;
  d_auth : option Validator;
  d_handlers : gset string;
  d_metrics : bool;
  d_terminal : bool;
  d_grafana : bool
}.

Definition New (cfg : Config) (v : option Validator) (handlers : gset string) : Dispatcher :=
  MkDispatcher
    (MkConfig (if NormalPoolSize cfg <=? 0 then 10 else NormalPoolSize cfg)
              (if HighPriorityPoolSize cfg <=? 0 then 3 else HighPriorityPoolSize cfg)
              (if TaskTimeout cfg <=? 0 then 180 * second else TaskTimeout cfg)
              (LongTaskTimeout cfg) (LongActions cfg))
    v handlers false false false.

Definition SetTerminal (d : Dispatcher) : Dispatcher :=
  MkDispatcher (d_cfg d) (d_auth d) (d_handlers d) (d_metrics d) true (d_grafana d).
Definition SetGrafana (d : Dispatcher) : Dispatcher :=
  MkDispatcher (d_cfg d) (d_auth d) (d_handlers d) (d_metrics d) (d_terminal d) true.
Definition SetMetrics (d : Dispatcher) : Dispatcher :=
  MkDispatcher (d_cfg d) (d_auth d) (d_handlers d) true (d_terminal d) (d_grafana d).
Definition with_auth (v : Validator) (d : Dispatcher) : Dispatcher :=
  MkDispatcher (d_cfg d) (Some v) (d_handlers d) (d_metrics d) (d_terminal d) (d_grafana d).

(** ** Wire shapes *)
Record probe := MkProbe {
  pr_body : option string;
  pr_action : string;
  pr_method : string;
  pr_url : string;
  pr_request_id : string
}.
Definition set_probe (f : string) (m : member) (p : probe) : probe * bool :=
  let '(MkProbe b a me u i) := p in
  if bool_decide (f = "body") then (MkProbe (set_raw_ptr m) a me u i, true)
  else if bool_decide (f = "action") then let '(s, ok) := set_string a m in (MkProbe b s me u i, ok)
  else if bool_decide (f = "method") then let '(s, ok) := set_string me m in (MkProbe b a s u i, ok)
  else if bool_decide (f = "url") then let '(s, ok) := set_string u m in (MkProbe b a me s i, ok)
  else let '(s, ok) := set_string i m in (MkProbe b a me u s, ok).
(** The error is ignored; the fields that decoded are kept. *)
Definition read_probe (msg : string) : probe :=
  (unmarshal_struct ["body"; "action"; "method"; "url"; "request_id"] set_probe msg
     (MkProbe None "" "" "" "")).1.

Record envelope := MkEnv {
  e_body : gomap;
  e_signature : string;
  e_partial_a : string;
  e_partial_b : string;
  e_request_id : string;
  e_relay_signature : string;
  e_relay_signed_at : string;
  e_relay_nonce : string;
  e_relay_key_id : string
}.
Definition set_envelope (f : string) (m : member) (e : envelope) : envelope * bool :=
  let '(MkEnv b s pa pb i rs ra rn rk) := e in
  if bool_decide (f = "body") then let '(x, ok) := set_map b m in (MkEnv x s pa pb i rs ra rn rk, ok)
  else if bool_decide (f = "signature") then let '(x, ok) := set_string s m in (MkEnv b x pa pb i rs ra rn rk, ok)
  else if bool_decide (f = "partial_auth_a") then let '(x, ok) := set_string pa m in (MkEnv b s x pb i rs ra rn rk, ok)
  else if bool_decide (f = "partial_auth_b") then let '(x, ok) := set_string pb m in (MkEnv b s pa x i rs ra rn rk, ok)
  else if bool_decide (f = "request_id") then let '(x, ok) := set_string i m in (MkEnv b s pa pb x rs ra rn rk, ok)
  else if bool_decide (f = "relay_signature") then let '(x, ok) := set_string rs m in (MkEnv b s pa pb i x ra rn rk, ok)
  else if bool_decide (f = "relay_signed_at") then let '(x, ok) := set_string ra m in (MkEnv b s pa pb i rs x rn rk, ok)
  else if bool_decide (f = "relay_nonce") then let '(x, ok) := set_string rn m in (MkEnv b s pa pb i rs ra x rk, ok)
  else let '(x, ok) := set_string rk m in (MkEnv b s pa pb i rs ra rn x, ok).
Definition envelope_fields : list string :=
  ["body"; "signature"; "partial_auth_a"; "partial_auth_b"; "request_id";
   "relay_signature"; "relay_signed_at"; "relay_nonce"; "relay_key_id"].
Definition read_envelope (msg : string) : option envelope :=
  let '(e, ok) := unmarshal_struct envelope_fields set_envelope msg
                    (MkEnv None "" "" "" "" "" "" "" "") in
  if ok then Some e else None.

(** The second decoding, which keeps the text of [body] only. *)
Definition read_body_raw (msg : string) : string :=
  (unmarshal_struct ["body"] (fun _ m _ => (set_raw m, true)) msg "").1.

Record TerminalRequest := MkTerminal {
  t_action : string;
  t_session_id : string;
  t_name : string;
  t_namespace : string;
  t_command : string;
  t_request_id : string;
  t_container : string
}.
Definition set_terminal (f : string) (m : member) (t : TerminalRequest) : TerminalRequest * bool :=
  let '(MkTerminal a s n ns c i k) := t in
  if bool_decide (f = "action") then let '(x, ok) := set_string a m in (MkTerminal x s n ns c i k, ok)
  else if bool_decide (f = "session_id") then let '(x, ok) := set_string s m in (MkTerminal a x n ns c i k, ok)
  else if bool_decide (f = "name") then let '(x, ok) := set_string n m in (MkTerminal a s x ns c i k, ok)
  else if bool_decide (f = "namespace") then let '(x, ok) := set_string ns m in (MkTerminal a s n x c i k, ok)
  else if bool_decide (f = "command") then let '(x, ok) := set_string c m in (MkTerminal a s n ns x i k, ok)
  else if bool_decide (f = "request_id") then let '(x, ok) := set_string i m in (MkTerminal a s n ns c x k, ok)
  else let '(x, ok) := set_string k m in (MkTerminal a s n ns c i x, ok).
Definition read_terminal (msg : string) : option TerminalRequest :=
  let '(t, ok) := unmarshal_struct
                    ["action"; "session_id"; "name"; "namespace"; "command"; "request_id"; "container"]
                    set_terminal msg (MkTerminal "" "" "" "" "" "" "") in
  if ok then Some t else None.

Record GrafanaRequest := MkGrafana {
  g_method : string;
  g_url : string;
  g_content_length : Z;
  g_body : string;
  g_header : list (string * list string)
}.

Definition set_header (old : list (string * list string)) (m : member)
  : list (string * list string) * bool :=
  match m_val m with
  | JObj kvs => foldl (fun acc kv => let '(l, ok) := set_string_list [] kv.2 in
                                     (mset kv.1 l acc.1, acc.2 && ok)) (old, true) kvs
  | JNull => ([], true)
  | _ => (old, false)
  end.
Definition set_grafana (f : string) (m : member) (g : GrafanaRequest) : GrafanaRequest * bool :=
  let '(MkGrafana me u n b h) := g in
  if bool_decide (f = "method") then let '(x, ok) := set_string me m in (MkGrafana x u n b h, ok)
  else if bool_decide (f = "url") then let '(x, ok) := set_string u m in (MkGrafana me x n b h, ok)
  else if bool_decide (f = "content_length") then let '(x, ok) := set_int n m in (MkGrafana me u x b h, ok)
  else if bool_decide (f = "body") then let '(x, ok) := set_string b m in (MkGrafana me u n x h, ok)
  else let '(x, ok) := set_header h m in (MkGrafana me u n b x, ok).
Definition read_grafana (msg : string) : option GrafanaRequest :=
  let '(g, ok) := unmarshal_struct ["method"; "url"; "content_length"; "body"; "header"]
                    set_grafana msg (MkGrafana "" "" 0 "" []) in
  if ok then Some g else None.

(** The header list's order stands for Go's map iteration order. *)
Fixpoint firstHeader (h : list (string * list string)) (key : string) : string :=
  match h with
  | [] => ""
  | (k, v) :: h' =>
    match v with
    | x :: _ => if fold_equal k key then x else firstHeader h' key
    | [] => firstHeader h' key
    end
  end.

Fixpoint is_object_text (s : string) : bool :=
  match s with
  | EmptyString => false
  | String c r => if is_ws c then is_object_text r else byte c =? 123
  end.
Definition isJSONObject (raw : option string) : bool :=
  match raw with None => false | Some s => is_object_text s end.

Definition isHighPriority (params : gomap) : bool :=
  match params with
  | None => false
  | Some _ => as_bool (mget params "high_priority")
  end.

(** ** Responses and other effects *)
Record Response := MkResponse {
  r_request_id : string;
  r_status : Z;
  r_data : json;
  r_output_type : string
}.

Inductive effect :=
| Send (r : Response)
| OnAction (action status : string)
| OnActionDuration (action : string) (elapsed : duration).

Definition respond (requestID : string) (status : Z) (data : json) : list effect :=
  if bool_decide (requestID = "") then []
  else [Send (MkResponse requestID status data "actions")].
Definition sendErr (requestID : string) (status : Z) (msg : string) : list effect :=
  if bool_decide (requestID = "") then []
  else [Send (MkResponse requestID status (JStr msg) "")].
Definition error_data (msg : string) : json := JObj [("error", JStr msg)].

(** ** One message *)
Record queued := MkQueued {
  q_action : string;
  q_params : gomap;
  q_high : bool;
  q_request_id : string;
  q_timeout : duration
}.

Inductive proxy_kind := ProxyAPI (base : string) | ProxyPrometheus | ProxyGrafana.

(** Where [Handle] stands after its straight-line part. *)
Inductive plan :=
| Done (effects : list effect)
| CallTerminal (req : TerminalRequest)
| CallGrafana (kind : proxy_kind) (requestID : string) (req : GrafanaRequest)
| Queue (q : queued).

Section handle.
Variable ed25519_verify : string -> string -> string -> bool.
Variable oaep_decrypt : string -> string -> option string.
Variable uuid_parse : string -> option Z.
(** [json.Marshal] of a response value. *)
Variable marshal : json -> option string.

Definition respondString (requestID : string) (status : Z) (data : json) (outputType : string)
  : list effect :=
  if bool_decide (requestID = "") then []
  else match marshal data with
  | None => []
  | Some encoded => [Send (MkResponse requestID status (JStr encoded) outputType)]
  end.

Definition handleTerminal (msg : string) (d : Dispatcher) : plan :=
  match read_terminal msg with
  | None => Done []
  | Some req =>
    if negb (d_terminal d) then
      Done (respondString (t_request_id req) 501
              (error_data "pod_shell not enabled on this agent") "Terminal")
    else CallTerminal req
  end.
Definition finish_terminal (req : TerminalRequest) (resp : json) (status : Z) : list effect :=
  respondString (t_request_id req) status resp "Terminal".

Definition handleGrafana (msg : string) (d : Dispatcher) : plan :=
  match read_grafana msg with
  | None => Done []
  | Some req =>
    let requestID := firstHeader (g_header req) "X-Nb-Request-Id" in
    let requestType := firstHeader (g_header req) "X-NB-Request-Type" in
    let requestType := if bool_decide (requestType = "") then "Grafana" else requestType in
    if negb (d_grafana d) then
      Done (respondString requestID 501
              (error_data "grafana proxy not enabled on this agent") "Grafana")
    else CallGrafana
           (if bool_decide (requestType = "APIProxy")
            then ProxyAPI (firstHeader (g_header req) "X-API-Base-URL")
            else if bool_decide (requestType = "Prometheus") then ProxyPrometheus
            else ProxyGrafana)
           requestID req
  end.
Definition finish_grafana (requestID : string) (resp : json) : list effect :=
  respondString requestID 200 resp "Grafana".

Definition auth_request (msg : string) (raw : envelope) : Request :=
  MkRequest (e_body raw) (get_str (e_body raw) "action_name") (e_signature raw)
    (e_partial_a raw) (e_partial_b raw)
    (MkEnvelope (e_relay_signature raw) (e_relay_signed_at raw) (e_relay_nonce raw)
       (e_relay_key_id raw))
    (read_body_raw msg).

(** From the handler lookup to the wait for a slot. *)
Definition lookup_action (raw : envelope) (d : Dispatcher) : plan :=
  let actionName := get_str (e_body raw) "action_name" in
  if decide (actionName ∈ d_handlers d) then
    let params := get_obj (e_body raw) "action_params" in
    Queue (MkQueued actionName params (isHighPriority params) (e_request_id raw)
             (TaskTimeout (d_cfg d)))
  else Done (respond (e_request_id raw) 404 (error_data ("action not registered: " +:+ actionName))).

(** The action flow: decode, authenticate, look up. *)
Definition handle_action (now now' : time) (msg : string) (d : Dispatcher) : plan * Dispatcher :=
  match read_envelope msg with
  | None => (Done (sendErr (pr_request_id (read_probe msg)) 400 "malformed request envelope"), d)
  | Some raw =>
    match d_auth d with
    | None => (lookup_action raw d, d)
    | Some v =>
      match Validate ed25519_verify oaep_decrypt uuid_parse now now' (auth_request msg raw) v with
      | (Ok _, v') => (lookup_action raw d, with_auth v' d)
      | (Err e, v') => (Done (respond (e_request_id raw) 401 (error_data e)), with_auth v' d)
      end
    end
  end.

Definition is_terminal_action (a : string) : bool :=
  bool_decide (a = "start") || bool_decide (a = "exec")
  || bool_decide (a = "read") || bool_decide (a = "close").

(** [Handle] up to its first wait. *)
Definition handle_start (now now' : time) (msg : string) (d : Dispatcher) : plan * Dispatcher :=
  let p := read_probe msg in
  if isJSONObject (pr_body p) then handle_action now now' msg d
  else if negb (bool_decide (pr_method p = "")) && negb (bool_decide (pr_url p = ""))
  then (handleGrafana msg d, d)
  else if is_terminal_action (pr_action p) then (handleTerminal msg d, d)
  else handle_action now now' msg d.

(** What a handler returned; [errors.Is(err, context.DeadlineExceeded)] is
    its own case. *)
Inductive handler_result := HOk (data : json) | HError (msg : string) | HDeadline (msg : string).

Definition finish_action (d : Dispatcher) (q : queued) (elapsed : duration) (res : handler_result)
  : list effect :=
  let metric e := if d_metrics d then [e] else [] in
  metric (OnActionDuration (q_action q) elapsed)
  ++ match res with
     | HDeadline _ => respond (q_request_id q) 504 (error_data "task timeout")
                      ++ metric (OnAction (q_action q) "timeout")
     | HError e => respond (q_request_id q) 500 (error_data e)
                   ++ metric (OnAction (q_action q) "error")
     | HOk data => respond (q_request_id q) 200 data ++ metric (OnAction (q_action q) "ok")
     end.

(** The slot was not obtained in time; on cancellation nothing is sent. *)
Definition acquire_failed (q : queued) : list effect :=
  respond (q_request_id q) 503 (error_data "agent overloaded").

(** *** The trusted path of the task poller *)
Definition trusted_timeout (d : Dispatcher) (action : string) : duration :=
  if 0 <? LongTaskTimeout (d_cfg d) then
    if decide (action ∈ LongActions (d_cfg d)) then LongTaskTimeout (d_cfg d)
    else TaskTimeout (d_cfg d)
  else TaskTimeout (d_cfg d).

(** [None]: the action is not registered. *)
Definition trusted_start (action : string) (params : gomap) (high : bool) (d : Dispatcher)
  : option queued :=
  if decide (action ∈ d_handlers d)
  then Some (MkQueued action params high "" (trusted_timeout d action))
  else None.

(** What [HandleTrusted] returns and the metrics it reports. *)
Definition finish_trusted (d : Dispatcher) (q : queued) (elapsed : duration) (res : handler_result)
  : result json * list effect :=
  let metric e := if d_metrics d then [e] else [] in
  match res with
  | HDeadline e => (Err e, metric (OnActionDuration (q_action q) elapsed)
                           ++ metric (OnAction (q_action q) "timeout"))
  | HError e => (Err e, metric (OnActionDuration (q_action q) elapsed)
                        ++ metric (OnAction (q_action q) "error"))
  | HOk data => (Ok data, metric (OnActionDuration (q_action q) elapsed)
                          ++ metric (OnAction (q_action q) "ok"))
  end.

(** ** The concurrent system *)
Inductive job :=
| Waiting (trusted : bool) (q : queued)
| Running (trusted : bool) (q : queued)
| InTerminal (req : TerminalRequest)
| InGrafana (requestID : string).

(** What has happened so far, oldest first.  [EvStarted] is a handler call
    and carries the job's origin. *)
Inductive event :=
| EvReceived (id : nat) (now now' : time) (msg : string) (d : Dispatcher)
| EvStarted (id : nat) (trusted : bool) (q : queued)
| EvTerminal (id : nat) (req : TerminalRequest)
| EvGrafana (id : nat) (kind : proxy_kind) (req : GrafanaRequest)
| EvEffect (id : nat) (e : effect)
| EvCancelled (id : nat).

Record sys := MkSys {
  s_disp : Dispatcher;
  s_normal : Z;
  s_high : Z;
  s_jobs : gmap nat job;
  s_next : nat;
  s_trace : list event
}.

Definition init (d : Dispatcher) : sys := MkSys d 0 0 ∅ 0 [].

Inductive label :=
| LReceive (now now' : time) (msg : string)
| LTrusted (action : string) (params : gomap) (high : bool)
| LAcquire (id : nat)
| LDeadline (id : nat)
| LCancel (id : nat)
| LFinish (id : nat) (elapsed : duration) (res : handler_result)
| LTerminalDone (id : nat) (resp : json) (status : Z)
| LGrafanaDone (id : nat) (resp : json).

Definition effects_of (id : nat) (es : list effect) : list event := map (EvEffect id) es.

(** The job [id] ends with the events [tr]. *)
Definition end_job (id : nat) (tr : list event) (s : sys) : sys :=
  MkSys (s_disp s) (s_normal s) (s_high s) (delete id (s_jobs s)) (s_next s) (s_trace s ++ tr).
Definition add_slots (high : bool) (n : Z) (s : sys) : sys :=
  MkSys (s_disp s) (if high then s_normal s else s_normal s + n)
    (if high then s_high s + n else s_high s) (s_jobs s) (s_next s) (s_trace s).
Definition free_slot (high : bool) (s : sys) : bool :=
  if high then s_high s <? HighPriorityPoolSize (d_cfg (s_disp s))
  else s_normal s <? NormalPoolSize (d_cfg (s_disp s)).

(** The job a fresh message becomes, with its first events. *)
Definition plan_job (id : nat) (p : plan) : option job * list event :=
  match p with
  | Done es => (None, effects_of id es)
  | CallTerminal req => (Some (InTerminal req), [EvTerminal id req])
  | CallGrafana k rid req => (Some (InGrafana rid), [EvGrafana id k req])
  | Queue q => (Some (Waiting false q), [])
  end.

Definition exec (l : label) (s : sys) : option sys :=
  match l with
  | LReceive now now' msg =>
    let '(p, d') := handle_start now now' msg (s_disp s) in
    let '(j, tr) := plan_job (s_next s) p in
    Some (MkSys d' (s_normal s) (s_high s)
            (match j with Some j => <[s_next s := j]> (s_jobs s) | None => s_jobs s end)
            (S (s_next s))
            (s_trace s ++ EvReceived (s_next s) now now' msg (s_disp s) :: tr))
  | LTrusted action params high =>
    match trusted_start action params high (s_disp s) with
    | None => Some s
    | Some q => Some (MkSys (s_disp s) (s_normal s) (s_high s)
                        (<[s_next s := Waiting true q]> (s_jobs s)) (S (s_next s)) (s_trace s))
    end
  | LAcquire id =>
    match s_jobs s !! id with
    | Some (Waiting t q) =>
      if free_slot (q_high q) s then
        let s := add_slots (q_high q) 1 s in
        Some (MkSys (s_disp s) (s_normal s) (s_high s) (<[id := Running t q]> (s_jobs s))
                (s_next s) (s_trace s ++ [EvStarted id t q]))
      else None
    | _ => None
    end
  | LDeadline id =>
    match s_jobs s !! id with
    | Some (Waiting false q) => Some (end_job id (effects_of id (acquire_failed q)) s)
    | Some (Waiting true q) => Some (end_job id [] s)
    | _ => None
    end
  | LCancel id =>
    match s_jobs s !! id with
    | Some (Waiting _ q) => Some (end_job id [EvCancelled id] s)
    | _ => None
    end
  | LFinish id elapsed res =>
    match s_jobs s !! id with
    | Some (Running t q) =>
      let es := if t : bool then (finish_trusted (s_disp s) q elapsed res).2
                else finish_action (s_disp s) q elapsed res in
      Some (add_slots (q_high q) (-1) (end_job id (effects_of id es) s))
    | _ => None
    end
  | LTerminalDone id resp status =>
    match s_jobs s !! id with
    | Some (InTerminal req) => Some (end_job id (effects_of id (finish_terminal req resp status)) s)
    | _ => None
    end
  | LGrafanaDone id resp =>
    match s_jobs s !! id with
    | Some (InGrafana rid) => Some (end_job id (effects_of id (finish_grafana rid resp)) s)
    | _ => None
    end
  end.

Inductive reachable (d : Dispatcher) : sys -> Prop :=
| reach_init : reachable d (init d)
| reach_step s l s' : reachable d s -> exec l s = Some s' -> reachable d s'.

(** ** Pools *)
Definition runs_in (high : bool) (j : job) : bool :=
  match j with
  | Running _ q => Bool.eqb (q_high q) high
  | _ => false
  end.

(** The counters are the numbers of running jobs, every identifier in use is
    below [s_next], and no pool is over its size. *)
Record pool_inv (cfg : Config) (s : sys) : Prop := MkPoolInv {
  pi_cfg : d_cfg (s_disp s) = cfg;
  pi_fresh : forall id, is_Some (s_jobs s !! id) -> (id < s_next s)%nat;
  pi_normal : s_normal s = count_map (runs_in false) (s_jobs s);
  pi_high : s_high s = count_map (runs_in true) (s_jobs s);
  pi_normal_le : s_normal s <= NormalPoolSize cfg;
  pi_high_le : s_high s <= HighPriorityPoolSize cfg
}.

Lemma handle_start_cfg now now' msg d :
  d_cfg (handle_start now now' msg d).2 = d_cfg d
  /\ (is_Some (d_auth d) -> is_Some (d_auth (handle_start now now' msg d).2)).
Proof.
  assert (d_cfg (handle_action now now' msg d).2 = d_cfg d
          /\ (is_Some (d_auth d) -> is_Some (d_auth (handle_action now now' msg d).2))) as H.
  { unfold handle_action. destruct (read_envelope msg); [|done].
    destruct (d_auth d) eqn:E; [|simpl; by rewrite E].
    by destruct (Validate _ _ _ _ _ _ _) as [[]]. }
  unfold handle_start. by repeat (case_match; [done|]).
Qed.

Lemma fresh_job s : (forall id, is_Some (s_jobs s !! id) -> (id < s_next s)%nat) ->
  s_jobs s !! s_next s = None.
Proof. intros H. destruct (s_jobs s !! s_next s) eqn:E; [|done]. specialize (H (s_next s)). rewrite E in H. pose proof (H ltac:(eauto)). lia. Qed.

Lemma fresh_insert (m : gmap nat job) n j :
  (forall id, is_Some (m !! id) -> (id < n)%nat) ->
  forall id, is_Some (<[n:=j]> m !! id) -> (id < S n)%nat.
Proof.
  intros H id. destruct (decide (id = n)) as [->|Hne]; [lia|].
  rewrite lookup_insert_ne by done. intros Hs%H. lia.
Qed.

Lemma end_job_inv cfg s id j tr : pool_inv cfg s -> s_jobs s !! id = Some j ->
  (forall high, runs_in high j = false) -> pool_inv cfg (end_job id tr s).
Proof.
  intros [] Hj Hr. constructor; simpl; try done.
  - intros i [x [_ Hx]%lookup_delete_Some]. eauto.
  - rewrite (count_map_delete _ _ _ j) by done. rewrite Hr. lia.
  - rewrite (count_map_delete _ _ _ j) by done. rewrite Hr. lia.
Qed.

Lemma receive_inv cfg s now now' msg s' :
  pool_inv cfg s -> exec (LReceive now now' msg) s = Some s' -> pool_inv cfg s'.
Proof.
  intros [] H. unfold exec in H.
  pose proof (proj1 (handle_start_cfg now now' msg (s_disp s))) as Hc.
  destruct (handle_start now now' msg (s_disp s)) as [p d']. simpl in Hc.
  pose proof (fresh_job s pi_fresh0) as Hf.
  destruct p; simpl in H; injection H as <-; constructor; simpl;
    try done; try congruence; try (by apply fresh_insert);
    try (intros i Hi%pi_fresh0; lia); rewrite count_map_insert by done; simpl; lia.
Qed.

Lemma trusted_inv cfg s a ps h s' :
  pool_inv cfg s -> exec (LTrusted a ps h) s = Some s' -> pool_inv cfg s'.
Proof.
  intros I H. simpl in H. destruct (trusted_start _ _ _ _); injection H as <-; [|done].
  destruct I. constructor; simpl; try done; [by apply fresh_insert| |];
    rewrite count_map_insert by (by apply fresh_job); simpl; lia.
Qed.

Lemma acquire_inv cfg s id s' :
  pool_inv cfg s -> exec (LAcquire id) s = Some s' -> pool_inv cfg s'.
Proof.
  intros [] H. simpl in H. destruct (s_jobs s !! id) as [[t q| | |]|] eqn:E; try done.
  destruct (free_slot _ _) eqn:Ef; [|done]. injection H as <-.
  unfold free_slot in Ef. rewrite pi_cfg0 in Ef.
  constructor; simpl; try done.
  - intros i. destruct (decide (i = id)) as [->|]; [eauto|]. rewrite lookup_insert_ne by done. eauto.
  - rewrite (count_map_update _ _ _ _ _ E). simpl. destruct (q_high q); simpl; lia.
  - rewrite (count_map_update _ _ _ _ _ E). simpl. destruct (q_high q); simpl; lia.
  - destruct (q_high q); lia.
  - destruct (q_high q); lia.
Qed.

Lemma finish_inv cfg s id el res s' :
  pool_inv cfg s -> exec (LFinish id el res) s = Some s' -> pool_inv cfg s'.
Proof.
  intros [] H. simpl in H. destruct (s_jobs s !! id) as [[|t q| |]|] eqn:E; try done.
  injection H as <-. constructor; simpl; try done.
  - intros i [x [_ Hx]%lookup_delete_Some]. eauto.
  - rewrite (count_map_delete _ _ _ _ E). simpl. destruct (q_high q); simpl; lia.
  - rewrite (count_map_delete _ _ _ _ E). simpl. destruct (q_high q); simpl; lia.
  - destruct (q_high q); lia.
  - destruct (q_high q); lia.
Qed.

Lemma exec_inv cfg s l s' : pool_inv cfg s -> exec l s = Some s' -> pool_inv cfg s'.
Proof.
  intros I. destruct l as [| | |id|id| |id|id];
    eauto using receive_inv, trusted_inv, acquire_inv, finish_inv; simpl;
    destruct (s_jobs s !! id) as [[[]| | |]|] eqn:E; intros; simplify_eq/=; by eapply end_job_inv.
Qed.

Lemma reachable_pool_inv d s : 0 <= NormalPoolSize (d_cfg d) -> 0 <= HighPriorityPoolSize (d_cfg d) ->
  reachable d s -> pool_inv (d_cfg d) s.
Proof.
  intros Hn Hh. induction 1 as [|s l s' _ IH Hs]; [|by eapply exec_inv].
  constructor; simpl; try done. intros id [x Hx]. by rewrite lookup_empty in Hx.
Qed.

(** ** Responses *)
Definition is_send (id : nat) (e : event) : bool :=
  match e with EvEffect i (Send _) => bool_decide (i = id) | _ => false end.
Definition responses (id : nat) (tr : list event) : nat := length (List.filter (is_send id) tr).

Lemma responses_app id t u : responses id (t ++ u) = (responses id t + responses id u)%nat.
Proof. unfold responses. by rewrite List.filter_app, length_app. Qed.
Lemma responses_effects i id es :
  responses i (effects_of id es)
  = if decide (i = id) then responses id (effects_of id es) else 0%nat.
Proof.
  case_decide; subst; [done|]. unfold responses, effects_of. induction es as [|[] es IH]; simpl; try done.
  by rewrite bool_decide_eq_false_2.
Qed.

Lemma responses_none id : (responses id (effects_of id []) <= 1)%nat.
Proof. unfold responses. simpl. lia. Qed.
Lemma responses_one id r : (responses id (effects_of id [Send r]) <= 1)%nat.
Proof. unfold responses. simpl. by rewrite bool_decide_eq_true_2. Qed.
#[local] Hint Resolve responses_none responses_one : agent.

(** Every straight-line piece sends at most one response. *)
Lemma respond_once id rid st data : (responses id (effects_of id (respond rid st data)) <= 1)%nat.
Proof. unfold respond. case_bool_decide; auto with agent. Qed.
Lemma respondString_once id rid st data o :
  (responses id (effects_of id (respondString rid st data o)) <= 1)%nat.
Proof. unfold respondString. case_bool_decide; [|destruct (marshal data)]; auto with agent. Qed.
Lemma sendErr_once id rid st m : (responses id (effects_of id (sendErr rid st m)) <= 1)%nat.
Proof. unfold sendErr. case_bool_decide; auto with agent. Qed.
#[local] Hint Resolve respond_once respondString_once sendErr_once : agent.
Lemma finish_action_once id d q el res :
  (responses id (effects_of id (finish_action d q el res)) <= 1)%nat.
Proof.
  unfold finish_action, effects_of. rewrite map_app, responses_app.
  replace (responses id (map _ (if d_metrics d then _ else _))) with 0%nat by (by destruct (d_metrics d)).
  assert (forall s, responses id (map (EvEffect id) (if d_metrics d then [OnAction (q_action q) s] else [])) = 0%nat)
    as Hm by (intros; by destruct (d_metrics d)).
  destruct res; rewrite map_app, responses_app, Hm, Nat.add_0_l, Nat.add_0_r; apply respond_once.
Qed.
Lemma finish_trusted_silent i id d q el res :
  responses i (effects_of id (finish_trusted d q el res).2) = 0%nat.
Proof. unfold finish_trusted. by destruct res, (d_metrics d). Qed.
Lemma plan_once now now' msg d es id :
  (handle_start now now' msg d).1 = Done es -> (responses id (effects_of id es) <= 1)%nat.
Proof.
  assert (forall es, (handle_action now now' msg d).1 = Done es ->
            (responses id (effects_of id es) <= 1)%nat) as Ha.
  { intros es'. unfold handle_action. destruct (read_envelope msg); [|intros [= <-]; auto with agent].
    unfold lookup_action. repeat case_match; simpl; try done; intros [= <-]; auto with agent. }
  unfold handle_start, handleGrafana, handleTerminal.
  repeat case_match; simpl; auto; try done; intros [= <-]; auto with agent.
Qed.

(** A message is answered at most once, and not before its job has ended. *)
Record reply_inv (s : sys) : Prop := MkReplyInv {
  ri_fresh : forall id, is_Some (s_jobs s !! id) -> (id < s_next s)%nat;
  ri_new : forall id, (s_next s <= id)%nat -> responses id (s_trace s) = 0%nat;
  ri_open : forall id, is_Some (s_jobs s !! id) -> responses id (s_trace s) = 0%nat;
  ri_once : forall id, (responses id (s_trace s) <= 1)%nat
}.

Lemma end_job_reply s id j tr :
  reply_inv s -> s_jobs s !! id = Some j -> (responses id tr <= 1)%nat ->
  (forall i, i <> id -> responses i tr = 0%nat) -> reply_inv (end_job id tr s).
Proof.
  intros [Hf Hn Ho H1] Hj Ht Hother. pose proof (Ho id (ex_intro _ j Hj)) as H0.
  pose proof (Hf id (ex_intro _ j Hj)) as Hlt.
  constructor; simpl; intros i; rewrite ?responses_app.
  - intros [x [_ Hx]%lookup_delete_Some]. apply Hf. by exists x.
  - intros Hi. rewrite Hn, Hother; lia.
  - intros [x [Hne Hx]%lookup_delete_Some]. rewrite Ho, Hother; [done|done|by exists x].
  - destruct (decide (i = id)) as [->|Hne]; [lia|]. rewrite Hother by done. pose proof (H1 i). lia.
Qed.

Lemma end_job_effects_reply s id j es :
  reply_inv s -> s_jobs s !! id = Some j -> (responses id (effects_of id es) <= 1)%nat ->
  reply_inv (end_job id (effects_of id es) s).
Proof.
  intros I Hj H1. eapply end_job_reply; [done..|]. intros i Hi.
  by rewrite responses_effects, decide_False.
Qed.

Lemma slots_reply high n s : reply_inv s -> reply_inv (add_slots high n s).
Proof. by intros []. Qed.

Lemma quiet_reply s d n h jobs next tr :
  reply_inv s -> (s_next s <= next)%nat -> (forall i, responses i tr = 0%nat) ->
  (forall i, is_Some (jobs !! i) -> (i < next)%nat /\ (is_Some (s_jobs s !! i) \/ (s_next s <= i)%nat)) ->
  reply_inv (MkSys d n h jobs next (s_trace s ++ tr)).
Proof.
  intros [] Hn Ht Hj. constructor; simpl; intros i; rewrite ?responses_app, ?Ht, ?Nat.add_0_r; eauto.
  - intros H%Hj. tauto.
  - intros Hi. apply ri_new0. lia.
  - intros [_ [?|?]]%Hj; eauto.
Qed.

Lemma insert_new_ids s j i : reply_inv s -> is_Some (<[s_next s:=j]> (s_jobs s) !! i) ->
  (i < S (s_next s))%nat /\ (is_Some (s_jobs s !! i) \/ (s_next s <= i)%nat).
Proof.
  intros [] H. destruct (decide (i = s_next s)) as [->|Hne]; [split; [lia|right; lia]|].
  rewrite lookup_insert_ne in H by done. split; [|by left]. pose proof (ri_fresh0 i H). lia.
Qed.

Lemma receive_reply s now now' msg s' :
  reply_inv s -> exec (LReceive now now' msg) s = Some s' -> reply_inv s'.
Proof.
  intros I H. unfold exec in H.
  pose proof (plan_once now now' msg (s_disp s)) as Hp.
  destruct (handle_start now now' msg (s_disp s)) as [p d'].
  destruct p as [es|req|k rid req|q]; simpl in H; injection H as <-;
    [|apply quiet_reply; try done; try lia; intros; by eapply insert_new_ids..].
  pose proof (Hp es (s_next s) eq_refl) as H1. destruct I. constructor; simpl; intros i.
  - intros Hi%ri_fresh0. lia.
  - intros Hi. rewrite responses_app. change (?e :: ?t) with ([e] ++ t).
    rewrite responses_app, responses_effects, decide_False by lia. rewrite ri_new0 by lia. done.
  - intros Hi. pose proof (ri_fresh0 i Hi). rewrite responses_app. change (?e :: ?t) with ([e] ++ t).
    rewrite responses_app, responses_effects, decide_False by lia. rewrite ri_open0 by done. done.
  - rewrite responses_app. change (?e :: ?t) with ([e] ++ t).
    rewrite responses_app, responses_effects. change (responses i [_]) with 0%nat.
    pose proof (ri_once0 i). case_decide; [|lia]. subst. rewrite ri_new0; lia.
Qed.

Lemma exec_reply s l s' : reply_inv s -> exec l s = Some s' -> reply_inv s'.
Proof.
  intros I. destruct l as [now now' msg|a ps h|id|id|id|id el res|id r st|id r]; simpl.
  1: by apply receive_reply.
  1: { destruct (trusted_start _ _ _ _); intros [= <-]; [|done].
       rewrite <- (app_nil_r (s_trace s)). apply quiet_reply; try done; [lia|].
       intros. by eapply insert_new_ids. }
  all: destruct (s_jobs s !! id) as [[[] q|[] q|req|rid]|] eqn:E; try done.
  1-2: destruct (free_slot _ _); [|done]; intros [= <-]; destruct I; apply quiet_reply;
    [done|simpl; lia|done|]; simpl; intros i;
    destruct (decide (i = id)) as [->|]; [eauto|rewrite lookup_insert_ne by done; eauto].
  all: intros [= <-]; try apply slots_reply.
  all: first [eapply end_job_effects_reply|eapply end_job_reply]; [done|done|..].
  all: auto using finish_action_once with agent.
  all: try (rewrite finish_trusted_silent); try apply respond_once; try apply respondString_once.
  all: try done; try lia; by unfold responses; simpl; lia.
Qed.

(** ** Where running handlers come from *)
Definition came_from (tr : list event) (id : nat) (q : queued) : Prop :=
  exists now now' msg d, EvReceived id now now' msg d ∈ tr /\ (handle_start now now' msg d).1 = Queue q.

Record history_inv (authed : Prop) (s : sys) : Prop := MkHistoryInv {
  hi_auth : authed -> is_Some (d_auth (s_disp s));
  hi_seen : forall id now now' msg d, EvReceived id now now' msg d ∈ s_trace s ->
    authed -> is_Some (d_auth d);
  hi_jobs : forall id q, s_jobs s !! id = Some (Waiting false q)
    \/ s_jobs s !! id = Some (Running false q) -> came_from (s_trace s) id q;
  hi_started : forall id q, EvStarted id false q ∈ s_trace s -> came_from (s_trace s) id q
}.

Lemma came_from_app tr tr' id q : came_from tr id q -> came_from (tr ++ tr') id q.
Proof. intros (n & n' & m & d & ? & ?). exists n, n', m, d. set_solver. Qed.

(** Events that neither start a relay job nor receive a message. *)
Definition internal (e : event) : bool :=
  match e with EvReceived _ _ _ _ _ => false | EvStarted _ t _ => t | _ => true end.

Lemma end_job_history A s id tr :
  history_inv A s -> forallb internal tr = true -> history_inv A (end_job id tr s).
Proof.
  intros [Ha Hs Hj Ht] Hi. rewrite forallb_forall in Hi. constructor; simpl; [done|..].
  - intros i n n' m d [?|H%list_elem_of_In%Hi]%elem_of_app; eauto. done.
  - intros i q [[_ H]%lookup_delete_Some|[_ H]%lookup_delete_Some]; apply came_from_app; eauto.
  - intros i q [?|H%list_elem_of_In%Hi]%elem_of_app; [apply came_from_app; eauto|done].
Qed.

Lemma effects_internal id es : forallb internal (effects_of id es) = true.
Proof. by induction es. Qed.

Lemma receive_history A s now now' msg s' :
  history_inv A s -> exec (LReceive now now' msg) s = Some s' -> history_inv A s'.
Proof.
  intros [Ha Hs Hj Ht] H. unfold exec in H.
  pose proof (proj2 (handle_start_cfg now now' msg (s_disp s))) as Hc.
  destruct (handle_start now now' msg (s_disp s)) as [p d'] eqn:E. simpl in Hc.
  assert (forallb internal (plan_job (s_next s) p).2 = true) as Hi
    by (destruct p; simpl; auto using effects_internal).
  rewrite forallb_forall in Hi. destruct (plan_job (s_next s) p) as [j tr] eqn:Ep.
  simpl in Hi. injection H as <-. constructor; simpl; [auto|..].
  - intros i n n' m d [?|[Hx|Hx%list_elem_of_In%Hi]%elem_of_cons]%elem_of_app; [by eapply Hs| |done].
    simplify_eq. auto.
  - intros i q Hq. destruct j as [j|]; [|by apply came_from_app, Hj].
    destruct (decide (i = s_next s)) as [->|].
    + rewrite !lookup_insert_eq in Hq.
      assert (p = Queue q) as -> by (destruct p; naive_solver).
      exists now, now', msg, (s_disp s). rewrite E. split; [set_solver|done].
    + rewrite !lookup_insert_ne in Hq by done. by apply came_from_app, Hj.
  - intros i q [?|[Hx|Hx%list_elem_of_In%Hi]%elem_of_cons]%elem_of_app; [|done..].
    by apply came_from_app, Ht.
Qed.

Lemma exec_history A s l s' : history_inv A s -> exec l s = Some s' -> history_inv A s'.
Proof.
  intros I. destruct l as [now now' msg|a ps h|id|id|id|id el res|id r st|id r]; simpl.
  1: by apply receive_history.
  1: { destruct (trusted_start _ _ _ _); intros [= <-]; [|done]. destruct I as [Ha Hs Hj Ht].
       constructor; simpl; [done..| |done]. intros i q'.
       destruct (decide (i = s_next s)) as [->|];
         [rewrite !lookup_insert_eq; naive_solver|rewrite !lookup_insert_ne by done; auto]. }
  1: { destruct (s_jobs s !! id) as [[t q| | |]|] eqn:E; try done.
       destruct (free_slot _ _); [|done]. intros [= <-]. destruct I as [Ha Hs Hj Ht].
       constructor; simpl; [done|..].
       - intros i n n' m d [?|Hx%list_elem_of_singleton]%elem_of_app; [by eapply Hs|done].
       - intros i q'. destruct (decide (i = id)) as [->|].
         + rewrite !lookup_insert_eq. intros Hq. apply came_from_app, Hj. left. naive_solver.
         + rewrite !lookup_insert_ne by done. intros. by apply came_from_app, Hj.
       - intros i q' [?|Hx%list_elem_of_singleton]%elem_of_app; [by apply came_from_app, Ht|].
         injection Hx as -> <- ->. apply came_from_app, Hj. by left. }
  all: destruct (s_jobs s !! id) as [[[] q|[] q|req|rid]|] eqn:E; try done; intros [= <-].
  all: try (by apply end_job_history; [|apply effects_internal]).
  all: try (by apply end_job_history).
  all: match goal with
       | |- history_inv _ (add_slots ?h ?n ?s1) =>
         assert (history_inv A s1) as [] by (by apply end_job_history; [|apply effects_internal]);
         by constructor
       end.
Qed.

Lemma reachable_history d s : reachable d s -> history_inv (is_Some (d_auth d)) s.
Proof.
  induction 1 as [|s l s' _ IH Hs]; [|by eapply exec_history].
  constructor; simpl; [done|set_solver| |set_solver].
  intros id q [H|H]; by rewrite lookup_empty in H.
Qed.

Lemma reachable_reply d s : reachable d s -> reply_inv s.
Proof.
  induction 1 as [|s l s' _ IH Hs]; [|by eapply exec_reply].
  constructor; simpl; intros id; [|done| |unfold responses; simpl; lia];
    intros [x Hx]; by rewrite lookup_empty in Hx.
Qed.

(** A message is queued for a handler only past the validator. *)
Lemma queue_authorised now now' msg d q :
  (handle_start now now' msg d).1 = Queue q ->
  exists raw, read_envelope msg = Some raw
    /\ q_action q = get_str (e_body raw) "action_name" /\ q_action q ∈ d_handlers d
    /\ q_params q = get_obj (e_body raw) "action_params" /\ q_request_id q = e_request_id raw
    /\ forall v, d_auth d = Some v ->
         is_ok (Validate ed25519_verify oaep_decrypt uuid_parse now now' (auth_request msg raw) v).1 = true.
Proof.
  assert (forall raw, lookup_action raw d = Queue q ->
     q_action q = get_str (e_body raw) "action_name" /\ q_action q ∈ d_handlers d
     /\ q_params q = get_obj (e_body raw) "action_params" /\ q_request_id q = e_request_id raw) as Hl.
  { intros raw. unfold lookup_action. case_decide; [|done]. by intros [= <-]. }
  assert ((handle_start now now' msg d).1 = Queue q -> (handle_action now now' msg d).1 = Queue q) as Hs.
  { unfold handle_start, handleGrafana, handleTerminal. repeat case_match; simpl; done. }
  intros H%Hs. unfold handle_action in H. destruct (read_envelope msg) as [raw|]; [|done].
  exists raw. split; [done|]. destruct (d_auth d) as [v|].
  - destruct (Validate _ _ _ _ _ _ v) as [[] v'] eqn:E; [|done].
    destruct (Hl raw H) as (? & ? & ? & ?). split_and!; try done. intros v0 [= <-]. by rewrite E.
  - destruct (Hl raw H) as (? & ? & ? & ?). by split_and!.
Qed.
End handle.
