(* ===== verification/DispatchSafety.v ===== *)
(** * Properties of the dispatcher

    Safety of the concurrent system of Dispatch.v in every reachable state,
    what a finished job sends, and how the shape of a message decides between
    the authenticated action flow and the two proxy flows. *)

From S2P Require Import Prelude GoText GoJson GoStruct GoCrypto GoTime CanonJson RelaySig Auth Dispatch.

Set Default Proof Using "Type".

(** ** Decoding lemmas *)
Lemma bad_document_zero {S} fields set (zero : S) msg :
  read_document msg = None -> unmarshal_struct fields set msg zero = (zero, false).
Proof. unfold unmarshal_struct. by intros ->. Qed.

(** *** Duplicate members *)
Definition is_body_key (k : string) : bool := bool_decide (match_field ["body"] k = Some "body").

Lemma body_key_envelope k : match_field envelope_fields k = Some "body" -> is_body_key k = true.
Proof.
  unfold is_body_key, match_field. case_decide as Hk; [intros [= ->]; by vm_compute|].
  intros [_ Hf]%List.find_some. apply bool_decide_eq_true_2.
  rewrite decide_False by set_solver. simpl. by rewrite Hf.
Qed.

Definition with_body (b : gomap) (e : envelope) : envelope :=
  MkEnv b (e_signature e) (e_partial_a e) (e_partial_b e) (e_request_id e)
    (e_relay_signature e) (e_relay_signed_at e) (e_relay_nonce e) (e_relay_key_id e).

(** Members other than [body] neither read nor write the body. *)
Lemma decode_frame b e ok m : is_body_key (m_key m) = false ->
  decode_member envelope_fields set_envelope (with_body b e, ok) m
  = (with_body b (decode_member envelope_fields set_envelope (e, ok) m).1,
     (decode_member envelope_fields set_envelope (e, ok) m).2)
  /\ e_body (decode_member envelope_fields set_envelope (e, ok) m).1 = e_body e.
Proof.
  intros Hk. unfold decode_member. destruct (match_field _ _) as [f|] eqn:Ef; [|done]. simpl.
  assert (f <> "body") as Hf by (intros ->; apply body_key_envelope in Ef; congruence).
  unfold set_envelope, with_body. destruct e. simpl. rewrite (bool_decide_eq_false_2 _ Hf).
  repeat case_bool_decide; by destruct (set_string _ m).
Qed.

Lemma decode_frame_list b e ok ms : forallb (fun m => negb (is_body_key (m_key m))) ms = true ->
  foldl (decode_member envelope_fields set_envelope) (with_body b e, ok) ms
  = (with_body b (foldl (decode_member envelope_fields set_envelope) (e, ok) ms).1,
     (foldl (decode_member envelope_fields set_envelope) (e, ok) ms).2).
Proof.
  revert e ok. induction ms as [|m ms IH]; intros e ok Hm; [done|]. simpl in *.
  apply andb_prop in Hm as [Hm%negb_true_iff Hms].
  destruct (decode_frame b e ok m Hm) as [-> _].
  destruct (decode_member _ _ (e, ok) m) as [e' ok']. by apply IH.
Qed.

Lemma body_raw_frame raw ms : forallb (fun m => negb (is_body_key (m_key m))) ms = true ->
  (foldl (decode_member ["body"] (fun _ m _ => (set_raw m, true))) (raw, true) ms).1 = raw.
Proof.
  induction ms as [|m ms IH]; intros Hm; [done|]. simpl in *.
  apply andb_prop in Hm as [Hm%negb_true_iff Hms].
  replace (decode_member _ _ (raw, true) m) with (raw, true); [by apply IH|].
  unfold decode_member. destruct (match_field ["body"] (m_key m)) as [f|] eqn:Ef; [|done].
  assert (f = "body") as ->.
  { revert Ef. unfold match_field. case_decide as Hk; [|intros [Hf _]%List.find_some; set_solver].
    intros [= <-]. set_solver. }
  unfold is_body_key in Hm. by rewrite Ef, bool_decide_eq_true_2 in Hm.
Qed.

(** [body] members decoded one after the other into the same map. *)
Definition merge_body (m1 m2 : list (string * json)) : list (string * json) :=
  foldl (fun acc kv => mset kv.1 kv.2 acc) (foldl (fun acc kv => mset kv.1 kv.2 acc) [] m1) m2.

(** Decoding one [body] member into an envelope that has the body [b]. *)
Lemma decode_body raw kvs b e ok :
  decode_member envelope_fields set_envelope (with_body b e, ok) (MkMember "body" raw (JObj kvs))
  = (with_body (Some (foldl (fun acc kv => mset kv.1 kv.2 acc) (default [] b) kvs)) e,
     ok && negb (has_other (JObj kvs))).
Proof. reflexivity. Qed.

Definition zero_envelope : envelope := MkEnv None "" "" "" "" "" "" "" "".

Lemma decode_two_bodies raw raw' m m' : has_other (JObj m) = false ->
  foldl (decode_member envelope_fields set_envelope) (zero_envelope, true)
    [MkMember "body" raw (JObj m); MkMember "body" raw' (JObj m')]
  = (with_body (Some (merge_body m m')) zero_envelope, negb (has_other (JObj m'))).
Proof.
  intros H. change zero_envelope with (with_body None zero_envelope) at 1. cbn [foldl].
  by rewrite !decode_body, H.
Qed.

(** Several leading [body] members followed by other members. *)
Lemma read_bodies msg bodies b ok rest :
  read_document msg = Some (DObject (bodies ++ rest)) ->
  foldl (decode_member envelope_fields set_envelope) (zero_envelope, true) bodies
  = (with_body b zero_envelope, ok) ->
  forallb (fun x => negb (is_body_key (m_key x))) rest = true ->
  let F := foldl (decode_member envelope_fields set_envelope) (zero_envelope, ok) rest in
  read_envelope msg = if F.2 then Some (with_body b F.1) else None.
Proof.
  intros Hd Hb Hrest. unfold read_envelope, unmarshal_struct. rewrite Hd. fold zero_envelope.
  rewrite foldl_app, Hb.
  by rewrite (decode_frame_list b zero_envelope ok rest Hrest).
Qed.

Lemma read_raw_bodies msg m ms rest : m_key m = "body" ->
  read_document msg = Some (DObject ((ms ++ [m]) ++ rest)) ->
  forallb (fun x => negb (is_body_key (m_key x))) rest = true -> read_body_raw msg = m_raw m.
Proof.
  intros Hm Hd Hrest. unfold read_body_raw, unmarshal_struct. rewrite Hd, !foldl_app. simpl.
  set (st := foldl _ ("", true) ms). assert (st.2 = true) as Hst.
  { clear. unfold st. clear st. set (s := "") at 2. clearbody s. revert s.
    induction ms as [|x ms IH]; intros s; [done|]. simpl.
    unfold decode_member at 2. destruct (match_field _ _); apply IH. }
  replace (decode_member _ _ st m) with (m_raw m, true); [by apply body_raw_frame|].
  unfold decode_member. rewrite Hm. simpl. by rewrite Hst.
Qed.

Section properties.
Variable ed25519_verify : string -> string -> string -> bool.
Variable oaep_decrypt : string -> string -> option string.
Variable uuid_parse : string -> option Z.
Variable marshal : json -> option string.

Abbreviation Validate := (Validate ed25519_verify oaep_decrypt uuid_parse).
Abbreviation handle_start := (handle_start ed25519_verify oaep_decrypt uuid_parse marshal).
Abbreviation handle_action := (handle_action ed25519_verify oaep_decrypt uuid_parse).
Abbreviation exec := (exec ed25519_verify oaep_decrypt uuid_parse marshal).
Abbreviation reachable := (reachable ed25519_verify oaep_decrypt uuid_parse marshal).

(** C3: on an agent with a validator, in every interleaving, each handler
    call made for a relay message has behind it a received message whose
    envelope decodes, which the validator accepted in the state it was in
    then, and whose body names the registered action and carries the very
    parameters the handler gets. *)
Theorem handler_calls_authenticated d v0 s id q :
  d_auth d = Some v0 -> reachable d s -> EvStarted id false q ∈ s_trace s ->
  exists now now' msg d0 raw v, EvReceived id now now' msg d0 ∈ s_trace s
    /\ read_envelope msg = Some raw /\ d_auth d0 = Some v
    /\ is_ok (Validate now now' (auth_request msg raw) v).1 = true
    /\ q_action q = get_str (e_body raw) "action_name" /\ q_action q ∈ d_handlers d0
    /\ q_params q = get_obj (e_body raw) "action_params".
Proof.
  intros Hd Hr Hs. pose proof (reachable_history _ _ _ _ _ _ Hr) as [_ Hauth _ Hst].
  destruct (Hst id q Hs) as (now & now' & msg & d0 & Hin & Hq).
  destruct (Hauth _ _ _ _ _ Hin ltac:(by rewrite Hd)) as [v Hv].
  apply queue_authorised in Hq as (raw & ? & ? & ? & ? & _ & Hval).
  exists now, now', msg, d0, raw, v. split_and!; auto.
Qed.

(** Neither pool ever has more running handlers than its size, and no
    slot leaks: the counter of a pool is the number of handlers running in
    it, so a waiting job can always get a slot once its pool is idle. *)
Theorem pools_bounded cfg v hs s id t q :
  reachable (New cfg v hs) s -> s_jobs s !! id = Some (Waiting t q) ->
  count_map (runs_in false) (s_jobs s) <= NormalPoolSize (d_cfg (New cfg v hs))
  /\ count_map (runs_in true) (s_jobs s) <= HighPriorityPoolSize (d_cfg (New cfg v hs))
  /\ (count_map (runs_in (q_high q)) (s_jobs s) = 0 -> is_Some (exec (LAcquire id) s)).
Proof.
  intros Hr Hj.
  assert (0 < NormalPoolSize (d_cfg (New cfg v hs))) by (simpl; case_match; lia).
  assert (0 < HighPriorityPoolSize (d_cfg (New cfg v hs))) by (simpl; case_match; lia).
  apply reachable_pool_inv in Hr as []; [|lia..].
  split_and!; [lia..|]. intros Hidle. unfold exec, Dispatch.exec. rewrite Hj.
  replace (free_slot (q_high q) s) with true; [by eexists|].
  unfold free_slot. rewrite pi_cfg. destruct (q_high q); lia.
Qed.

(** C25: no message is ever answered twice, and none is answered while its
    job is still waiting or running. *)
Theorem at_most_one_response d s id :
  reachable d s ->
  (responses id (s_trace s) <= 1)%nat
  /\ (is_Some (s_jobs s !! id) -> responses id (s_trace s) = 0%nat).
Proof. intros Hr. pose proof (reachable_reply _ _ _ _ _ _ Hr) as []. split; auto. Qed.

Definition status_of (res : handler_result) : Z :=
  match res with HOk _ => 200 | HError _ => 500 | HDeadline _ => 504 end.

(** C26: when the handler of a relay message returns, its slot is released
    and exactly one response is on the trace for the message if it carried a
    request id, none otherwise; the response carries that id and the status
    of the outcome (200, 500 or 504). *)
Theorem completed_job_answered d s id q elapsed res :
  reachable d s -> s_jobs s !! id = Some (Running false q) ->
  exists s', exec (LFinish id elapsed res) s = Some s' /\ s_jobs s' !! id = None
    /\ (if q_high q then s_high s' = s_high s - 1 else s_normal s' = s_normal s - 1)
    /\ (q_request_id q = "" -> responses id (s_trace s') = 0%nat)
    /\ (q_request_id q <> "" -> responses id (s_trace s') = 1%nat
        /\ exists r, EvEffect id (Send r) ∈ s_trace s' /\ r_request_id r = q_request_id q
                     /\ r_status r = status_of res).
Proof.
  intros Hr Hj. pose proof (reachable_reply _ _ _ _ _ _ Hr) as [_ _ Ho _].
  assert (responses id (s_trace s) = 0%nat) as H0 by (apply Ho; by rewrite Hj).
  unfold exec, Dispatch.exec. rewrite Hj. eexists. split; [done|]. simpl.
  rewrite lookup_delete_eq. split; [done|]. split; [by destruct (q_high q)|].
  assert (forall e, responses id (map (EvEffect id) (if d_metrics (s_disp s) then [OnAction (q_action q) e] else [])) = 0%nat
     /\ responses id (map (EvEffect id) (if d_metrics (s_disp s) then [OnActionDuration (q_action q) elapsed] else [])) = 0%nat)
    as Hm by (intros; by destruct (d_metrics (s_disp s))).
  unfold finish_action, effects_of, respond. rewrite responses_app, H0, map_app, responses_app.
  rewrite (proj2 (Hm "")). split; intros Hq.
  - rewrite bool_decide_eq_true_2 by done. destruct res; simpl; apply Hm.
  - rewrite bool_decide_eq_false_2 by done. split.
    + destruct res; simpl; unfold responses; simpl; rewrite bool_decide_eq_true_2 by done; simpl;
        f_equal; apply Hm.
    + exists (MkResponse (q_request_id q) (status_of res)
                (match res with HOk data => data | HError e => error_data e
                 | HDeadline _ => error_data "task timeout" end) "actions").
      split; [|done]. apply elem_of_app. right. apply elem_of_app. right.
      destruct res; apply elem_of_cons; by left.
Qed.

(** The terminal and proxy flows are outside the authentication: a
    message without an object body reaches the pod-shell handler, or the
    HTTP proxy, whatever the validator is and without consulting it. *)
Theorem terminal_and_proxy_unauthenticated now now' msg d :
  isJSONObject (pr_body (read_probe msg)) = false ->
  (forall req, pr_method (read_probe msg) = "" ->
     is_terminal_action (pr_action (read_probe msg)) = true ->
     read_terminal msg = Some req -> d_terminal d = true ->
     handle_start now now' msg d = (CallTerminal req, d))
  /\ (forall req, pr_method (read_probe msg) <> "" -> pr_url (read_probe msg) <> "" ->
     read_grafana msg = Some req -> d_grafana d = true ->
     exists kind rid, handle_start now now' msg d = (CallGrafana kind rid req, d)).
Proof.
  intros Hb. unfold handle_start, Dispatch.handle_start. rewrite Hb. split.
  - intros req -> -> Hr Ht. simpl. unfold handleTerminal. by rewrite Hr, Ht.
  - intros req Hm Hu Hr Hg. rewrite !bool_decide_eq_false_2 by done. simpl.
    unfold handleGrafana. rewrite Hr, Hg. simpl. by eexists _, _.
Qed.

(** A malformed envelope is answered with one 400 response exactly when
    the text is valid JSON whose top-level [request_id] decodes to a
    non-empty string; text that is not JSON is dropped without any answer. *)
Theorem malformed_envelope_reply now now' msg d :
  (read_document msg = None -> handle_start now now' msg d = (Done [], d))
  /\ (read_envelope msg = None -> pr_request_id (read_probe msg) <> "" ->
      handle_action now now' msg d
      = (Done [Send (MkResponse (pr_request_id (read_probe msg)) 400
                       (JStr "malformed request envelope") "")], d)).
Proof.
  split.
  - intros Hd.
    assert (read_probe msg = MkProbe None "" "" "" "") as Hp
      by (unfold read_probe; by rewrite bad_document_zero).
    unfold handle_start, Dispatch.handle_start. rewrite Hp. simpl.
    unfold handle_action, Dispatch.handle_action. rewrite Hp.
    unfold read_envelope. by rewrite bad_document_zero.
  - intros He Hr. unfold handle_action, Dispatch.handle_action. rewrite He.
    unfold sendErr. by rewrite bool_decide_eq_false_2.
Qed.

(** A relay signature covers the text of the last [body] member only,
    but the decoder merges every [body] member into the map the action runs
    from.  Prepending a second [body] to a message with a valid relay
    signature therefore gives a message that is still accepted, with the
    entries of the unsigned body wherever the signed one has none. *)
Theorem duplicate_body_escapes_signature now now' msg msg' raw raw' m m' rest e d v :
  read_document msg = Some (DObject (MkMember "body" raw (JObj m) :: rest)) ->
  read_document msg' = Some (DObject (MkMember "body" raw' (JObj m')
                                      :: MkMember "body" raw (JObj m) :: rest)) ->
  forallb (fun x => negb (is_body_key (m_key x))) rest = true -> has_other (JObj m') = false ->
  read_envelope msg = Some e -> d_auth d = Some v ->
  Auth.relay_valid ed25519_verify now now' (auth_request msg e) v ->
  exists e', read_envelope msg' = Some e' /\ e_body e' = Some (merge_body m' m)
    /\ is_ok (Validate now now' (auth_request msg' e') v).1 = true
    /\ (handle_action now now' msg' d).1 = lookup_action e' d.
Proof.
  intros Hd Hd' Hrest Hok He Hv (rv & Hrv & Hrel).
  set (b1 := MkMember "body" raw (JObj m)) in *. set (b0 := MkMember "body" raw' (JObj m')) in *.
  pose proof (read_raw_bodies msg b1 [] rest eq_refl Hd Hrest) as Hraw.
  pose proof (read_raw_bodies msg' b1 [b0] rest eq_refl Hd' Hrest) as Hraw'.
  erewrite (read_bodies msg [b1] _ _ rest Hd) in He; [|reflexivity|done].
  assert (He' := read_bodies msg' [b0; b1] (Some (merge_body m' m)) (negb (has_other (JObj m))) rest Hd').
  specialize (He' (decode_two_bodies raw' raw m' m Hok) Hrest).
  simpl in He, He'.
  destruct (foldl _ _ rest) as [eF [|]]; [|done]. simpl in He, He'. injection He as <-.
  exists (with_body (Some (merge_body m' m)) eF).
  assert (is_ok (Validate now now' (auth_request msg' (with_body (Some (merge_body m' m)) eF)) v).1 = true) as Ha.
  { apply is_ok_unit.
    destruct (Validate_cases ed25519_verify oaep_decrypt uuid_parse now now'
                (auth_request msg' (with_body (Some (merge_body m' m)) eF)) v) as [[_ ->]|[Hn _]]; [done|].
    exfalso. apply Hn. exists rv. split; [done|]. revert Hrel. unfold auth_request. simpl.
    by rewrite Hraw, Hraw'. }
  split_and!; [done..|]. unfold handle_action, Dispatch.handle_action. rewrite He', Hv.
  by destruct (Validate _ _ _ v) as [[]].
Qed.
End properties.

(** ** Witnesses *)
Definition quoted (s : string) : string := String (chr 34) (s +:+ String (chr 34) "").
Definition field (k v : string) : string := quoted k +:+ ":" +:+ v.
Definition object (fs : list string) : string := "{" +:+ join "," fs +:+ "}".

Definition toy_body : string := object [field "action_name" (quoted "ping")].
Definition toy_msg : string := object [field "body" toy_body; field "request_id" (quoted "r1")].
Definition toy_config : Config := MkConfig 1 1 0 0 ∅.
Definition no_marshal (v : json) : option string := None.

(** Actions [ls] run in order from the initial state, when all are enabled. *)
Definition run_labels (d : Dispatcher) (ls : list label) : option sys :=
  foldl (fun s l => s ≫= exec toy_verify no_oaep no_uuid no_marshal l) (Some (init d)) ls.

Lemma run_labels_reachable d ls s :
  run_labels d ls = Some s -> reachable toy_verify no_oaep no_uuid no_marshal d s.
Proof.
  revert s. induction ls as [|l ls IH] using rev_ind; intros s; unfold run_labels.
  - intros [= <-]. constructor.
  - rewrite foldl_app. simpl. intros (s0 & H0 & Hs)%bind_Some. eapply reach_step; [|exact Hs]. by apply IH.
Qed.

Definition toy_dispatcher : Dispatcher := New toy_config (Some (toy_validator "" None)) {["ping"]}.
Definition toy_run (ls : list label) : sys := default (init toy_dispatcher) (run_labels toy_dispatcher ls).
Lemma toy_run_reachable ls : bool_decide (is_Some (run_labels toy_dispatcher ls)) = true ->
  reachable toy_verify no_oaep no_uuid no_marshal toy_dispatcher (toy_run ls).
Proof.
  intros [s Hs]%bool_decide_eq_true. apply (run_labels_reachable _ ls). unfold toy_run. by rewrite Hs.
Qed.

Definition toy_queued : queued := MkQueued "ping" None false "r1" (180 * second).
Definition two_waiting : list label := [LReceive 0 0 toy_msg; LReceive 0 0 toy_msg; LAcquire 0].

Lemma handler_calls_authenticated_witness :
  exists now now' msg d0 raw v,
    EvReceived 0 now now' msg d0 ∈ s_trace (toy_run two_waiting)
    /\ read_envelope msg = Some raw /\ d_auth d0 = Some v
    /\ is_ok (Auth.Validate toy_verify no_oaep no_uuid now now' (auth_request msg raw) v).1 = true
    /\ "ping" = get_str (e_body raw) "action_name" /\ "ping" ∈ d_handlers d0
    /\ None = get_obj (e_body raw) "action_params".
Proof.
  apply (handler_calls_authenticated toy_verify no_oaep no_uuid no_marshal toy_dispatcher
           (toy_validator "" None) (toy_run two_waiting) 0 toy_queued eq_refl).
  - apply toy_run_reachable. by vm_compute.
  - apply list_elem_of_In. vm_compute. tauto.
Defined.

Lemma pools_bounded_witness :
  count_map (runs_in false) (s_jobs (toy_run two_waiting)) <= 1.
Proof.
  apply (pools_bounded toy_verify no_oaep no_uuid no_marshal toy_config
           (Some (toy_validator "" None)) {["ping"]} (toy_run two_waiting) 1 false toy_queued).
  - apply toy_run_reachable. by vm_compute.
  - by vm_compute.
Defined.

Lemma at_most_one_response_witness :
  (responses 0 (s_trace (toy_run (two_waiting ++ [LFinish 0 0 (HOk JNull)]))) <= 1)%nat
  /\ responses 0 (s_trace (toy_run (two_waiting ++ [LFinish 0 0 (HOk JNull)]))) = 1%nat.
Proof.
  split; [|by vm_compute].
  apply (at_most_one_response toy_verify no_oaep no_uuid no_marshal toy_dispatcher).
  apply toy_run_reachable. by vm_compute.
Defined.

Lemma completed_job_answered_witness :
  exists s', exec toy_verify no_oaep no_uuid no_marshal (LFinish 0 0 (HDeadline "late"))
               (toy_run two_waiting) = Some s'
    /\ s_jobs s' !! 0%nat = None /\ s_normal s' = s_normal (toy_run two_waiting) - 1
    /\ ("r1" = "" -> responses 0 (s_trace s') = 0%nat)
    /\ ("r1" <> "" -> responses 0 (s_trace s') = 1%nat
        /\ exists r, EvEffect 0 (Send r) ∈ s_trace s' /\ r_request_id r = "r1" /\ r_status r = 504).
Proof.
  apply (completed_job_answered toy_verify no_oaep no_uuid no_marshal toy_dispatcher
           (toy_run two_waiting) 0 toy_queued 0 (HDeadline "late")).
  - apply toy_run_reachable. by vm_compute.
  - by vm_compute.
Defined.

Definition shell_msg : string :=
  object [field "action" (quoted "start"); field "name" (quoted "pod"); field "request_id" (quoted "r1")].

Lemma terminal_and_proxy_unauthenticated_witness :
  handle_start toy_verify no_oaep no_uuid no_marshal 0 0 shell_msg (SetTerminal toy_dispatcher)
  = (CallTerminal (MkTerminal "start" "" "pod" "" "" "r1" ""), SetTerminal toy_dispatcher).
Proof.
  apply (terminal_and_proxy_unauthenticated toy_verify no_oaep no_uuid no_marshal 0 0 shell_msg
           (SetTerminal toy_dispatcher)); by vm_compute.
Defined.

(** A signed request without parameters, and the same request with an
    unsigned body in front that supplies them. *)
Definition signed_fields : list string :=
  [field "body" toy_body; field "relay_signature" (quoted (b64_encode ("k" +:+ toy_body)));
   field "relay_signed_at" (quoted "2023-11-14T22:13:20Z"); field "relay_nonce" (quoted "n")].
Definition injected_body : string :=
  object [field "action_params" (object [field "target" (quoted "prod")])].

Lemma duplicate_body_escapes_signature_witness :
  let d := New toy_config (Some (toy_validator "" (Some toy_verifier))) {["ping"]} in
  let msg' := object (field "body" injected_body :: signed_fields) in
  exists e', read_envelope msg' = Some e'
    /\ e_body e' = Some [("action_params", JObj [("target", JStr "prod")]); ("action_name", JStr "ping")]
    /\ is_ok (Auth.Validate toy_verify no_oaep no_uuid toy_now toy_now (auth_request msg' e')
                (toy_validator "" (Some toy_verifier))).1 = true
    /\ (handle_action toy_verify no_oaep no_uuid toy_now toy_now msg' d).1 = lookup_action e' d.
Proof.
  intros d msg'.
  eapply (duplicate_body_escapes_signature toy_verify no_oaep no_uuid toy_now toy_now
           (object signed_fields) msg' toy_body injected_body
           [("action_name", JStr "ping")] [("action_params", JObj [("target", JStr "prod")])]);
    [vm_compute; reflexivity..|].
  exists toy_verifier. split; vm_compute; reflexivity.
Defined.
