(* ===== verification/Tasks.v ===== *)
(** * The task poller (pkg/tasks)

    Tasks pulled from the collector's queue run through the dispatcher's
    trusted path and their results are posted back.  The poller is written
    against an interface with the one method it needs, as in the code; the
    dispatcher's trusted path is shown to be an instance. *)

From S2P Require Import Prelude GoText GoJson GoStruct GoCrypto GoTime CanonJson GoMarshal RelaySig Auth Dispatch.

Set Default Proof Using "Type".

(** ** The dispatcher interface

    [HandleTrusted] returns [None] when the action is not registered
    ([ok = false]), and the handler's data or error otherwise. *)
Class TrustedDispatcher := {
  registered : gset string;
  HandleTrusted : string -> gomap -> bool -> option (result json);
  HandleTrusted_registered a ps h : is_Some (HandleTrusted a ps h) <-> a ∈ registered
}.

(** The trusted path of Dispatch.v, for given pool and handler behaviour. *)
Definition run_trusted (d : Dispatcher) (acquire : queued -> result unit)
  (handler : queued -> duration * handler_result) (a : string) (ps : gomap) (h : bool)
  : option (result json) :=
  match trusted_start a ps h d with
  | None => None
  | Some q =>
    Some (let? _ := rwrap "pool acquire: " (acquire q) in
          let '(elapsed, res) := handler q in (finish_trusted d q elapsed res).1)
  end.

#[export] Program Instance dispatcher_trusted (d : Dispatcher) (acquire : queued -> result unit)
  (handler : queued -> duration * handler_result) : TrustedDispatcher := {
  registered := d_handlers d;
  HandleTrusted := run_trusted d acquire handler
}.
Next Obligation.
  intros d acquire handler a ps h. unfold run_trusted, trusted_start.
  case_decide; simpl; split; try done; by intros [? ?].
Qed.

(** ** Data *)
Record task := MkTask { TaskID : string; Payload : string; Source : string }.

Definition set_task (f : string) (m : member) (t : task) : task * bool :=
  let '(MkTask i p s) := t in
  if bool_decide (f = "task_id") then let '(x, ok) := set_string i m in (MkTask x p s, ok)
  else if bool_decide (f = "payload") then (MkTask i (set_raw m) s, true)
  else let '(x, ok) := set_string s m in (MkTask i p x, ok).

Definition zero_task : task := MkTask "" "" "".
Definition decode_task : task -> member -> task * bool := set_struct ["task_id"; "payload"; "source"] set_task.

Record queue_page := MkPage { Data : list task; Remaining : Z }.
Definition set_page (f : string) (m : member) (p : queue_page) : queue_page * bool :=
  if bool_decide (f = "data") then
    let '(l, ok) := set_list decode_task zero_task (Data p) m in (MkPage l (Remaining p), ok)
  else let '(n, ok) := set_int (Remaining p) m in (MkPage (Data p) n, ok).

(** [s[:n] + "…"] *)
Definition truncate (s : string) (n : nat) : string :=
  if decide (strlen s <= n)%nat then s else stake n s +:+ "…".

(** [fetch] on what the HTTP exchange gave. *)
Definition fetch (outcome : result (Z * result string)) : result queue_page :=
  match outcome with
  | Err e => Err e
  | Ok (_, Err e) => Err e
  | Ok (status, Ok body) =>
    if 400 <=? status then Err ("HTTP " +:+ itoa status +:+ ": " +:+ truncate body 256)
    else
      let '(p, ok) := unmarshal_struct ["data"; "remaining_task_count"] set_page body (MkPage [] 0) in
      if ok then Ok p else Err "decode tasks"
  end.

(** [json.Unmarshal] into a [string]. *)
Definition unmarshal_string (s : string) : option string :=
  match parse s with
  | Some (JStr t) => Some t
  | Some JNull => Some ""
  | _ => None
  end.

Definition unpackPayload (raw : string) : result gomap :=
  if bool_decide (raw = "") then Err "empty payload"
  else match unmarshal_map raw with
  | Some obj => Ok obj
  | None =>
    match unmarshal_string raw with
    | None => Err "payload is neither an object nor a string"
    | Some s =>
      match unmarshal_map s with
      | Some obj => Ok obj
      | None => Err "payload string is not valid JSON"
      end
    end
  end.

Definition ParseTaskWindow (s : string) : duration :=
  if bool_decide (s = "") then 120 * second
  else match atoi s with
  | None => 120 * second
  | Some n => if n <=? 0 then 120 * second else wrap64 (n * second)
  end.

(** [d.Round(time.Second).Seconds()] truncated to an int: half a second
    rounds away from zero; an elapsed time is not negative. *)
Definition round_seconds (d : duration) : Z := (d + second / 2) / second.

(** ** Processing *)
Record Service := MkService {
  Endpoint : string; AuthSecret : string; Period : duration; LongActions : gset string }.

(** The requests of the poller: the pull, and the result of a task; none is
    sent for a body that cannot be encoded. *)
Record task_request := MkTaskRequest {
  tr_method : string; tr_url : string; tr_headers : list (string * string); tr_body : string }.
Definition auth_header (svc : Service) : list (string * string) :=
  if bool_decide (AuthSecret svc = "") then [] else [("Authorization", b64_encode (AuthSecret svc))].
Definition fetch_request (svc : Service) : task_request :=
  MkTaskRequest "GET" (Endpoint svc +:+ "/v1/k8s/tasks") (auth_header svc) "".
Definition respond (svc : Service) (taskID : string) (body : list (string * json)) : option task_request :=
  match marshal (JObj body) with
  | Some buf => Some (MkTaskRequest "POST" (Endpoint svc +:+ "/v1/k8s/tasks/" +:+ taskID)
                        (("Content-Type", "application/json") :: auth_header svc) buf)
  | None => None
  end.

(** What the poller does for a task: post a result now, or start a
    goroutine that will. *)
Inductive action :=
| Post (task_id : string) (body : gomap)
| Detach (task_id actionName : string) (params : gomap).

Definition failure (msg : string) : list (string * json) :=
  [("success", JBool false); ("msg", JStr msg)].

Section process.
Context `{TrustedDispatcher} (svc : Service).
(** The wall-clock time a run took. *)
Variable elapsed : string -> string -> gomap -> duration.

(** The body [runTask] posts. *)
Definition run_response (taskID actionName : string) (params : gomap) : list (string * json) :=
  let resp :=
    match HandleTrusted actionName params false with
    | None => failure ("action not registered: " +:+ actionName)
    | Some (Err e) => failure e
    | Some (Ok (JObj d)) => if decide (is_Some (assoc "success" d)) then d
                            else mset "success" (JBool true) d
    | Some (Ok d) => [("success", JBool true); ("data", d)]
    end in
  mset "task_processing_duration" (JInt (round_seconds (elapsed taskID actionName params))) resp.
Definition runTask (taskID actionName : string) (params : gomap) : action :=
  Post taskID (Some (run_response taskID actionName params)).

Definition process (t : task) : action :=
  match unpackPayload (Payload t) with
  | Err e => Post (TaskID t) (Some (failure ("invalid payload: " +:+ e)))
  | Ok payload =>
    let actionName := get_str payload "action_name" in
    if bool_decide (actionName = "") then
      Post (TaskID t) (Some (failure "payload missing action_name"))
    else
      let params := get_obj payload "action_params" in
      if decide (actionName ∈ LongActions svc) then Detach (TaskID t) actionName params
      else runTask (TaskID t) actionName params
  end.

Inductive drained := DrainDone | DrainFailed (msg : string) | DrainPolling.

(** [drain] against the collector's successive answers; [DrainPolling] when
    they run out before the loop ends. *)
Fixpoint drain (answers : list (result (Z * result string))) : list action * drained :=
  match answers with
  | [] => ([], DrainPolling)
  | a :: rest =>
    match fetch a with
    | Err e => ([], DrainFailed e)
    | Ok page =>
      let acts := map process (Data page) in
      if Remaining page =? 0 then (acts, DrainDone)
      else let '(more, r) := drain rest in (acts ++ more, r)
    end
  end.

(** ** [Run]

    What the loop's select receives: the end of the context, or the timer,
    with the collector's answers to the drain that follows. *)
Inductive poll_event := ContextDone | Tick (answers : list (result (Z * result string))).
Definition poll_period : duration := if Period svc <=? 0 then 120 * second else Period svc.
(** The actions of the loop, the times the timer was armed for, and whether
    [Run] returned. *)
Fixpoint poll_loop (events : list poll_event) : list action * list duration * bool :=
  match events with
  | [] => ([], [], false)
  | ContextDone :: _ => ([], [], true)
  | Tick answers :: events =>
    let '(acts, armed, returned) := poll_loop events in
    ((drain answers).1 ++ acts, poll_period :: armed, returned)
  end.
Definition Run (events : list poll_event) : list action * list duration * bool :=
  if bool_decide (Endpoint svc = "")
  then ([], [], existsb (fun e => match e with ContextDone => true | Tick _ => false end) events)
  else let '(acts, armed, returned) := poll_loop events in (acts, poll_period :: armed, returned).
End process.

(** ** Properties *)
Definition action_task (a : action) : string :=
  match a with Post i _ => i | Detach i _ _ => i end.

(** The task ids on the pages the loop reads, up to the page that ends it. *)
Fixpoint handed_out (answers : list (result (Z * result string))) : list string :=
  match answers with
  | [] => []
  | a :: rest =>
    match fetch a with
    | Err _ => []
    | Ok page => map TaskID (Data page) ++ (if Remaining page =? 0 then [] else handed_out rest)
    end
  end.

Section properties.
Context `{TrustedDispatcher} (svc : Service) (elapsed : string -> string -> gomap -> duration).

Lemma process_task t : action_task (process svc elapsed t) = TaskID t.
Proof.
  unfold process, runTask. destruct (unpackPayload _); [|done].
  case_bool_decide; [done|]. by case_decide.
Qed.

Lemma drain_tasks answers : map action_task (drain svc elapsed answers).1 = handed_out answers.
Proof.
  induction answers as [|a rest IH]; simpl; [done|]. destruct (fetch a) as [page|]; simpl; [|done].
  assert (map action_task (map (process svc elapsed) (Data page)) = map TaskID (Data page)) as Hp.
  { rewrite map_map. apply map_ext, process_task. }
  destruct (Remaining page =? 0); simpl; [by rewrite app_nil_r|].
  destruct (drain svc elapsed rest) as [more r]. simpl in *. by rewrite map_app, Hp, IH.
Qed.

(** The poller accounts for every task it is handed, once and in order:
    the results posted and the long tasks detached are, task by task, the
    tasks of the pages read; and the loop ends exactly at the first page
    whose remaining count is zero or the first failed fetch. *)
Theorem drain_accounts_for_every_task answers :
  map action_task (drain svc elapsed answers).1 = handed_out answers
  /\ ((drain svc elapsed answers).2 = DrainPolling <->
      Forall (fun a => exists page, fetch a = Ok page /\ Remaining page <> 0) answers).
Proof.
  split; [apply drain_tasks|].
  induction answers as [|a rest IHd]; simpl; [by split; [constructor|]|].
  destruct (fetch a) as [page|] eqn:E; simpl.
  2: { split; [done|]. intros [(? & ? & ?) _]%Forall_cons. congruence. }
  destruct (Remaining page =? 0) eqn:Er; simpl.
  - split; [done|]. intros [(p & Hpg & Hne) _]%Forall_cons. rewrite Hpg in E. injection E as ->. lia.
  - destruct (drain svc elapsed rest) as [more r]. simpl in *.
    rewrite IHd, Forall_cons. split; [|tauto]. intros. split; [|done]. exists page. split; [done|lia].
Qed.

(** Whatever a task's action does, the body posted for it has a
    [success] entry and its duration; [success] is false with a message when
    the action is not registered or failed, and when the handler returned
    its own [success] that value is kept. *)
Theorem task_result_has_success taskID actionName params :
  let resp := run_response elapsed taskID actionName params in
  let res := HandleTrusted actionName params false in
  is_Some (assoc "success" resp) /\ is_Some (assoc "task_processing_duration" resp)
  /\ (actionName ∉ registered -> assoc "success" resp = Some (JBool false))
  /\ (forall e, res = Some (Err e) ->
        assoc "success" resp = Some (JBool false) /\ assoc "msg" resp = Some (JStr e))
  /\ (forall d v, res = Some (Ok (JObj d)) -> assoc "success" d = Some v ->
        assoc "success" resp = Some v).
Proof.
  intros resp res. unfold resp, run_response. rewrite !assoc_mset. simpl.
  pose proof (HandleTrusted_registered actionName params false) as Hreg.
  fold res in Hreg |- *. destruct res as [[d|e]|] eqn:Er.
  - split_and!.
    + destruct d; simpl; eauto. case_decide; [done|]. rewrite assoc_mset. simpl. eauto.
    + eauto.
    + intros Hn. exfalso. apply Hn, Hreg. eauto.
    + done.
    + intros d' v [= ->] Hv. rewrite decide_True by eauto. done.
  - split_and!; try done; eauto. intros e' [= ->]. done.
  - split_and!; try done; eauto.
Qed.

(** The answers to the drains before the context ended. *)
Fixpoint drains (events : list poll_event) : list (list (result (Z * result string))) :=
  match events with
  | Tick answers :: events => answers :: drains events
  | _ => []
  end.
(** The poller drains once per tick, re-arms its timer after every drain with
    a positive period, and stops only at the end of the context: a failed
    drain does not end it. *)
Theorem poller_drains_every_tick events : Endpoint svc <> "" ->
  map action_task (Run svc elapsed events).1.1 = concat (map handed_out (drains events))
  /\ (Run svc elapsed events).1.2 = replicate (S (length (drains events))) (poll_period svc)
  /\ 0 < poll_period svc
  /\ ((Run svc elapsed events).2 = true <-> ContextDone ∈ events).
Proof.
  intros He. unfold Run. rewrite bool_decide_false by done.
  assert (map action_task (poll_loop svc elapsed events).1.1 = concat (map handed_out (drains events))
    /\ (poll_loop svc elapsed events).1.2 = replicate (length (drains events)) (poll_period svc)
    /\ ((poll_loop svc elapsed events).2 = true <-> ContextDone ∈ events)) as (H1 & H2 & H3).
  { induction events as [|[|answers] events (IH1 & IH2 & IH3)]; simpl.
    - split_and!; try done. by rewrite elem_of_nil.
    - split_and!; try done. split; [left|done].
    - destruct (poll_loop svc elapsed events) as [[acts armed] returned]. simpl in *. rewrite map_app, IH1, IH2, IH3.
      split_and!; [by rewrite drain_tasks|done|]. rewrite elem_of_cons. naive_solver. }
  destruct (poll_loop svc elapsed events) as [[acts armed] returned]. simpl in *.
  split_and!; [done|by rewrite H2| |done].
  unfold poll_period. destruct (Z.leb_spec (Period svc) 0); [unfold second|]; lia.
Qed.

(** The posted result of a task goes to the task's own URL and decodes to
    the response that was built for it. *)
Theorem task_result_decodes taskID actionName params :
  let resp := run_response elapsed taskID actionName params in
  readable (JObj resp) = true -> depth (JObj resp) <= max_nesting_depth ->
  exists req, respond svc taskID resp = Some req /\
    tr_url req = Endpoint svc +:+ "/v1/k8s/tasks/" +:+ taskID /\ parse (tr_body req) = Some (decoded (JObj resp)).
Proof.
  intros resp Hr Hd. destruct (marshal_readable_total _ Hr) as [t Ht]. unfold respond. rewrite Ht.
  eexists. split; [reflexivity|]. split; [done|]. by apply marshal_parses.
Qed.
End properties.

Lemma unmarshal_writeString s : valid_utf8 s = true ->
  unmarshal_map (writeString s) = None /\ unmarshal_string (writeString s) = Some s.
Proof.
  intros Hu. unfold unmarshal_map, unmarshal_string.
  rewrite (canonical_parses (JStr s) (writeString s)); [done|done|done|by left].
Qed.

(** The two forms in which the queue stores a payload are equivalent: a
    payload object and the same text wrapped in a JSON string unpack to the
    same map. *)
Theorem payload_string_or_object raw m :
  valid_utf8 raw = true -> unmarshal_map raw = Some m ->
  unpackPayload raw = Ok m /\ unpackPayload (writeString raw) = Ok m.
Proof.
  intros Hu Hm. destruct (unmarshal_writeString raw Hu) as [Hn Hs].
  unfold unpackPayload. rewrite Hn, Hs, Hm, !bool_decide_eq_false_2; [done|done|]. by intros ->.
Qed.

(** The poll period is the configured number of seconds for every
    positive value whose nanoseconds fit an int64, and the default for text
    that is not a positive number. *)
Theorem task_window_bounds s :
  (atoi s = None -> ParseTaskWindow s = 120 * second)
  /\ (forall n, atoi s = Some n -> n <= 0 -> ParseTaskWindow s = 120 * second)
  /\ (forall n, atoi s = Some n -> 0 < n <= 9223372036 -> ParseTaskWindow s = n * second).
Proof.
  unfold ParseTaskWindow. destruct (decide (s = "")) as [->|Hs].
  { rewrite bool_decide_eq_true_2 by done. done. }
  rewrite bool_decide_eq_false_2 by done. split_and!.
  - by intros ->.
  - intros n -> Hn. by replace (n <=? 0) with true by lia.
  - intros n -> Hn. replace (n <=? 0) with false by lia.
    apply wrap64_id. unfold int64_min, int64_max, second. lia.
Qed.

(** Beyond that the multiplication wraps: a window of some 585 years polls
    three times a second. *)
Example task_window_wraps : ParseTaskWindow "18446744074" = 290448384.
Proof. vm_compute. reflexivity. Qed.

Definition toy_payload : string :=
  "{" +:+ dquote +:+ "action_name" +:+ dquote +:+ ":" +:+ dquote +:+ "krr_scan" +:+ dquote +:+ "}".
Lemma payload_string_or_object_witness :
  unpackPayload toy_payload = Ok (Some [("action_name", JStr "krr_scan")])
  /\ unpackPayload (writeString toy_payload) = Ok (Some [("action_name", JStr "krr_scan")]).
Proof. apply payload_string_or_object; by vm_compute. Defined.
