(* ===== verification/Lru.v ===== *)
(** * Bounded LRU tables (the container/list + index map of pkg/triggers)

    RateLimiter and ChurnSuppressor keep a doubly linked list of entries,
    front newest, with an index from key to list element.  The list is
    [order] and the key set of the index is [index]; an element is found
    through its key. *)

From S2P Require Import Prelude.

Set Default Proof Using "Type".

(** The elements that pass a test, and where a surviving element lands. *)
Lemma filter_lookup {A} (p : A -> bool) (l : list A) i x :
  l !! i = Some x -> p x = true -> exists j, (j <= i)%nat /\ List.filter p l !! j = Some x.
Proof.
  revert i. induction l as [|y l IH]; intros i Hi Hp; [done|]. destruct i as [|i]; simpl in *.
  - simplify_eq. rewrite Hp. exists 0%nat. split; [lia|done].
  - destruct (IH i Hi Hp) as (j & Hj & Hl). destruct (p y); [exists (S j)|exists j]; (split; [lia|done]).
Qed.

Lemma elem_of_lfilter {A} (p : A -> bool) (l : list A) x :
  x ∈ List.filter p l <-> x ∈ l /\ p x = true.
Proof. rewrite !list_elem_of_In. apply List.filter_In. Qed.

Lemma lookup_removelast {A} (l : list A) i x :
  l !! i = Some x -> (S i < length l)%nat -> removelast l !! i = Some x.
Proof.
  revert i. induction l as [|y l IH]; intros i Hi Hl; [done|]. destruct l as [|z l]; [simpl in *; lia|].
  change (removelast (y :: z :: l)) with (y :: removelast (z :: l)).
  destruct i as [|i]; [done|]. apply IH; [done|]. simpl in *. lia.
Qed.

Section lru.
Context {E : Type} (key : E -> string).

Record lru := MkLru { capacity : nat; order : list E; index : gset string }.

Definition empty (n : nat) : lru := MkLru n [] ∅.

Definition has_key (k : string) (e : E) : bool := bool_decide (key e = k).

(** [el, ok := index[k]]. *)
Definition find (k : string) (t : lru) : option E :=
  if decide (k ∈ index t) then List.find (has_key k) (order t) else None.

(** [order.MoveToFront(el)], the element holding [e] from now on. *)
Definition to_front (e : E) (t : lru) : lru :=
  MkLru (capacity t) (e :: List.filter (fun x => negb (has_key (key e) x)) (order t)) (index t).

(** [delete(index, k); order.Remove(el)]. *)
Definition remove (k : string) (t : lru) : lru :=
  MkLru (capacity t) (List.filter (fun x => negb (has_key k x)) (order t)) (index t ∖ {[k]}).

(** Evict the back element when the table is full. *)
Definition evict (t : lru) : lru :=
  if decide (capacity t <= length (order t))%nat then
    match last (order t) with
    | Some old => MkLru (capacity t) (removelast (order t)) (index t ∖ {[key old]})
    | None => t
    end
  else t.
(** A new element at the front. *)
Definition push (e : E) (t : lru) : lru :=
  let t := evict t in MkLru (capacity t) (e :: order t) ({[key e]} ∪ index t).

(** ** Well-formedness *)
Record lru_ok (t : lru) : Prop := MkLruOk {
  ok_capacity : (0 < capacity t)%nat;
  ok_bounded : (length (order t) <= capacity t)%nat;
  ok_nodup : NoDup (key <$> order t);
  ok_index : index t = list_to_set (key <$> order t)
}.

Lemma empty_ok n : (0 < n)%nat -> lru_ok (empty n).
Proof. intros. constructor; simpl; done || lia || constructor. Qed.

Lemma nodup_filter p l : NoDup (key <$> l) -> NoDup (key <$> List.filter p l).
Proof.
  induction l as [|x l IH]; csimpl; [done|]. intros [Hx Hl]%NoDup_cons.
  destruct (p x); csimpl; [|by apply IH]. apply NoDup_cons. split; [|by apply IH].
  intros (y & Hy & [Hin _]%elem_of_lfilter)%list_elem_of_fmap. apply Hx.
  rewrite Hy. by apply list_elem_of_fmap_2.
Qed.

Lemma keys_filter k l :
  list_to_set (C := gset string) (key <$> List.filter (fun x => negb (has_key k x)) l)
  = list_to_set (key <$> l) ∖ {[k]}.
Proof.
  induction l as [|x l IH]; csimpl; [set_solver|]. unfold has_key at 1.
  case_bool_decide; csimpl; rewrite ?IH; set_solver.
Qed.

Lemma length_lfilter {A} (p : A -> bool) l : (length (List.filter p l) <= length l)%nat.
Proof. induction l as [|x l IH]; simpl; [lia|]. destruct (p x); simpl; lia. Qed.

Lemma length_lfilter_lt {A} (p : A -> bool) l x :
  x ∈ l -> p x = false -> (length (List.filter p l) < length l)%nat.
Proof.
  induction l as [|y l IH]; intros Hx Hp; [set_solver|]. simpl. pose proof (length_lfilter p l).
  apply elem_of_cons in Hx as [->|Hx]; [rewrite Hp; lia|].
  specialize (IH Hx Hp). destruct (p y); simpl; lia.
Qed.

Lemma find_Some k t e : lru_ok t -> find k t = Some e <-> e ∈ order t /\ key e = k.
Proof.
  intros [_ _ Hnd Hi]. unfold find. split.
  - case_decide; [|done]. intros [Hin Hk%bool_decide_eq_true]%List.find_some.
    by rewrite list_elem_of_In.
  - intros [Hin <-]. rewrite decide_True.
    2: { rewrite Hi. apply elem_of_list_to_set. by apply list_elem_of_fmap_2. }
    clear Hi. induction (order t) as [|x l IH]; [set_solver|]. csimpl in *. unfold has_key at 1.
    apply NoDup_cons in Hnd as [Hx Hl]. apply elem_of_cons in Hin as [->|Hin].
    + by rewrite bool_decide_eq_true_2.
    + rewrite bool_decide_eq_false_2; [by apply IH|]. intros He. apply Hx. rewrite He.
      by apply list_elem_of_fmap_2.
Qed.

Lemma find_None k t : lru_ok t -> find k t = None <-> k ∉ index t.
Proof.
  intros Hok. pose proof (ok_index t Hok) as Hi. split.
  - intros Hf Hk. rewrite Hi in Hk. apply elem_of_list_to_set, list_elem_of_fmap in Hk as (e & -> & He).
    assert (find (key e) t = Some e) by (by apply find_Some). congruence.
  - intros Hk. unfold find. by rewrite decide_False.
Qed.

Lemma to_front_ok e e0 t : lru_ok t -> find (key e) t = Some e0 -> lru_ok (to_front e t).
Proof.
  intros Hok [Hin Hk]%find_Some; [|done]. destruct Hok as [Hc Hb Hnd Hi]. constructor; simpl; [done|..].
  - pose proof (length_lfilter_lt (fun x => negb (has_key (key e) x)) (order t) e0 Hin) as Hl.
    unfold has_key in Hl at 1. rewrite bool_decide_eq_true_2 in Hl by done. specialize (Hl eq_refl). lia.
  - apply NoDup_cons. split; [|by apply nodup_filter].
    intros (y & Hy & [_ Hp]%elem_of_lfilter)%list_elem_of_fmap. unfold has_key in Hp.
    by rewrite bool_decide_eq_true_2 in Hp.
  - rewrite keys_filter, Hi.
    assert (key e ∈ list_to_set (C := gset string) (key <$> order t)) as Hm.
    { apply elem_of_list_to_set. rewrite <- Hk. by apply list_elem_of_fmap_2. }
    revert Hm. generalize (list_to_set (C := gset string) (key <$> order t)). intros X Hm.
    by rewrite <- union_difference_singleton_L.
Qed.

Lemma remove_ok k t : lru_ok t -> lru_ok (remove k t).
Proof.
  intros [Hc Hb Hnd Hi]. constructor; simpl; [done|..].
  - pose proof (length_lfilter (fun x => negb (has_key k x)) (order t)). lia.
  - by apply nodup_filter.
  - by rewrite keys_filter, Hi.
Qed.

Lemma evict_ok t : lru_ok t ->
  lru_ok (evict t) /\ (length (order (evict t)) < capacity (evict t))%nat
  /\ capacity (evict t) = capacity t /\ index (evict t) ⊆ index t.
Proof.
  intros Hok. unfold evict. case_decide as Hfull; [|split_and!; [done|lia|done|done]].
  destruct Hok as [Hc Hb Hnd Hi].
  destruct (order t) as [|x l] eqn:El using rev_ind; [simpl in *; lia|]. clear IHl.
  rewrite last_snoc, List.removelast_last. rewrite length_app in *. simpl in *.
  rewrite fmap_app in Hnd, Hi. apply NoDup_app in Hnd as (Hl & Hdis & _).
  assert (key x ∉ key <$> l) as Hx by (intros Hin; apply (Hdis (key x) Hin); csimpl; set_solver).
  split_and!; [|lia|done|set_solver].
  constructor; simpl; [done|lia|done|]. rewrite Hi, list_to_set_app_L. csimpl.
  assert (key x ∉ list_to_set (C := gset string) (key <$> l)) as Hx' by (by rewrite elem_of_list_to_set).
  revert Hx'. generalize (list_to_set (C := gset string) (key <$> l)). set_solver.
Qed.

Lemma push_ok e t : lru_ok t -> find (key e) t = None -> lru_ok (push e t).
Proof.
  intros Hok Hf. apply find_None in Hf; [|done]. destruct (evict_ok t Hok) as (Hok' & Hlt & Hcap & Hsub).
  unfold push. destruct Hok' as [Hc Hb Hnd Hi]. constructor; simpl; [done|lia|..].
  - csimpl. apply NoDup_cons. split; [|done]. intros Hin. apply Hf, Hsub. rewrite Hi.
    by apply elem_of_list_to_set.
  - csimpl. by rewrite Hi.
Qed.

(** ** An entry stays while it is recent

    [recent n e t]: the entry [e] is among the [n] most recent ones. *)
Definition recent (n : nat) (e : E) (t : lru) : Prop :=
  exists i, (i < n)%nat /\ order t !! i = Some e.

Lemma recent_find n e t : lru_ok t -> recent n e t -> find (key e) t = Some e.
Proof. intros Hok (i & _ & Hi). apply find_Some; [done|]. split; [by eapply list_elem_of_lookup_2|done]. Qed.

Lemma recent_front e t : recent 1 e (to_front e t).
Proof. exists 0%nat. split; [lia|done]. Qed.
Lemma recent_pushed e t : recent 1 e (push e t).
Proof. exists 0%nat. split; [lia|done]. Qed.

Lemma recent_to_front n e e' t : key e <> key e' -> recent n e t -> recent (S n) e (to_front e' t).
Proof.
  intros Hne (i & Hi & Hl). simpl.
  destruct (filter_lookup (fun x => negb (has_key (key e') x)) _ _ _ Hl) as (j & Hj & Hlj).
  { unfold has_key. by rewrite bool_decide_eq_false_2. }
  exists (S j). split; [lia|done].
Qed.

Lemma recent_remove n e k t : key e <> k -> recent n e t -> recent n e (remove k t).
Proof.
  intros Hne (i & Hi & Hl). simpl.
  destruct (filter_lookup (fun x => negb (has_key k x)) _ _ _ Hl) as (j & Hj & Hlj).
  { unfold has_key. by rewrite bool_decide_eq_false_2. }
  exists j. split; [lia|done].
Qed.

Lemma recent_push n e e' t : (n < capacity t)%nat -> recent n e t -> recent (S n) e (push e' t).
Proof.
  intros Hn (i & Hi & Hl). unfold push, evict. case_decide as Hfull.
  - destruct (last (order t)) as [old|]; exists (S i); (split; [lia|]); simpl; [|done].
    apply lookup_removelast; [done|lia].
  - exists (S i). split; [lia|done].
Qed.

Lemma recent_weaken n m e t : (n <= m)%nat -> recent n e t -> recent m e t.
Proof. intros ? (i & ? & ?). exists i. split; [lia|done]. Qed.
End lru.

#[global] Arguments MkLru {_} _ _ _.
#[global] Arguments capacity {_} _.
#[global] Arguments order {_} _.
#[global] Arguments index {_} _.
#[global] Arguments empty {_} _.
