(* ===== verification/RateLimit.v ===== *)
(** * Trigger rate limiting (pkg/triggers/ratelimit.go)

    A bounded LRU of fingerprints with expiry times.  The clock reading is an
    argument of each call; the mutex makes calls atomic. *)

From S2P Require Import Prelude Lru.

Set Default Proof Using "Type".

Record entry := MkEntry { e_key : string; expiresAt : time }.
Abbreviation RateLimiter := (lru (E := entry)).

Definition NewRateLimiter (maxEntries : Z) : RateLimiter :=
  empty (Z.to_nat (if maxEntries <=? 0 then 10000 else maxEntries)).

Definition Allow (now : time) (k : string) (window : duration) (r : RateLimiter)
  : bool * RateLimiter :=
  if window <=? 0 then (true, r)
  else match find e_key k r with
  | Some e =>
    if time_before now (expiresAt e) then (false, r)
    else (true, to_front e_key (MkEntry (e_key e) (time_add now window)) r)
  | None => (true, push e_key (MkEntry k (time_add now window)) r)
  end.

Definition Forget (k : string) (r : RateLimiter) : bool * RateLimiter :=
  match find e_key k r with
  | Some _ => (true, remove e_key k r)
  | None => (false, r)
  end.

Definition Len (r : RateLimiter) : nat := length (order r).

(** ** Sequences of calls *)
Inductive op :=
| OAllow (now : time) (k : string) (window : duration)
| OForget (k : string).
Definition apply_op (r : RateLimiter) (o : op) : RateLimiter :=
  match o with
  | OAllow now k w => (Allow now k w r).2
  | OForget k => (Forget k r).2
  end.

Abbreviation limiter_ok := (lru_ok e_key).

Lemma Allow_ok now k w r : limiter_ok r -> limiter_ok (Allow now k w r).2.
Proof.
  intros Hok. unfold Allow. destruct (w <=? 0); [done|].
  destruct (find e_key k r) as [e|] eqn:Ef; simpl.
  - destruct (time_before _ _); [done|]. eapply to_front_ok; [done|]. simpl.
    apply find_Some in Ef as [Hin Hk]; [|done]. by apply find_Some.
  - by apply push_ok.
Qed.

Lemma Forget_ok k r : limiter_ok r -> limiter_ok (Forget k r).2.
Proof. intros Hok. unfold Forget. destruct (find e_key k r); [by apply remove_ok|done]. Qed.

Lemma apply_op_ok r o : limiter_ok r -> limiter_ok (apply_op r o).
Proof. destruct o; eauto using Allow_ok, Forget_ok. Qed.

Lemma apply_op_capacity r o : capacity (apply_op r o) = capacity r.
Proof.
  destruct o as [now k w|k]; simpl; unfold Allow, Forget.
  - destruct (w <=? 0); [done|]. destruct (find e_key k r); simpl.
    + by destruct (time_before _ _).
    + unfold push, evict. case_decide; [|done]. by destruct (last _).
  - by destruct (find e_key k r).
Qed.

(** The call leaves the record of [k], which expires at [until], alone: it is
    about another key, or it is an [Allow] before the expiry. *)
Definition spares (k : string) (until : time) (o : op) : Prop :=
  match o with
  | OAllow now k' _ => k' = k -> now < until
  | OForget k' => k' <> k
  end.

Lemma apply_op_spares n e r o : limiter_ok r -> (n < capacity r)%nat ->
  spares (e_key e) (expiresAt e) o -> recent n e r -> recent (S n) e (apply_op r o).
Proof.
  intros Hok Hn Hs Hr. destruct o as [now k w|k]; simpl in *; unfold Allow, Forget.
  - destruct (w <=? 0); [eapply recent_weaken; [|done]; lia|].
    destruct (decide (k = e_key e)) as [->|Hk].
    + rewrite (recent_find e_key n e) by done. specialize (Hs eq_refl).
      unfold time_before. replace (now <? expiresAt e) with true by lia.
      eapply recent_weaken; [|done]. lia.
    + destruct (find e_key k r) as [e'|] eqn:Ef; simpl.
      * apply find_Some in Ef as [_ Hk']; [|done].
        destruct (time_before _ _); [eapply recent_weaken; [|done]; lia|].
        apply recent_to_front; [|done]. simpl. congruence.
      * by apply recent_push.
  - destruct (find e_key k r); simpl; eapply recent_weaken with n; try lia; [|done].
    apply recent_remove; done.
Qed.

Lemma run_spares n e r ops : limiter_ok r -> (n + length ops <= capacity r)%nat ->
  Forall (spares (e_key e) (expiresAt e)) ops -> recent n e r ->
  recent (n + length ops) e (foldl apply_op r ops) /\ limiter_ok (foldl apply_op r ops).
Proof.
  revert n r. induction ops as [|o ops IH]; intros n r Hok Hn Hs Hr; simpl in *.
  - by rewrite Nat.add_0_r.
  - apply Forall_cons in Hs as [Ho Hs]. rewrite <- Nat.add_succ_comm.
    apply IH; [by apply apply_op_ok|rewrite apply_op_capacity; lia|done|].
    apply apply_op_spares; [done|lia|done|done].
Qed.

Lemma allowed_recent now k w r : limiter_ok r -> 0 < w -> (Allow now k w r).1 = true ->
  recent 1 (MkEntry k (now + w)) (Allow now k w r).2.
Proof.
  intros Hok Hw. unfold Allow. replace (w <=? 0) with false by lia.
  destruct (find e_key k r) as [e|] eqn:Ef; simpl.
  - apply find_Some in Ef as [_ <-]; [|done]. destruct (time_before _ _); [done|].
    intros _. apply recent_front.
  - intros _. apply recent_pushed.
Qed.

(** An allowed key is refused for the rest of its window. *)
Lemma window_suppresses r now k w ops now' w' :
  limiter_ok r -> 0 < w -> 0 < w' -> (Allow now k w r).1 = true ->
  (length ops < capacity r)%nat -> Forall (spares k (now + w)) ops -> now' < now + w ->
  (Allow now' k w' (foldl apply_op (Allow now k w r).2 ops)).1 = false.
Proof.
  intros Hok Hw Hw' Ha Hlen Hops Hnow'.
  pose proof (allowed_recent now k w r Hok Hw Ha) as Hr.
  destruct (run_spares 1 (MkEntry k (now + w)) (Allow now k w r).2 ops) as [Hrec Hok'];
    [by apply Allow_ok| |done|done|].
  { change (Allow now k w r).2 with (apply_op r (OAllow now k w)). rewrite apply_op_capacity. lia. }
  unfold Allow at 1. replace (w' <=? 0) with false by lia.
  pose proof (recent_find e_key _ _ _ Hok' Hrec) as Hf. simpl in Hf. rewrite Hf. simpl.
  unfold time_before. by replace (now' <? now + w) with true by lia.
Qed.

Lemma forgotten_allowed now k w r : limiter_ok r -> (Allow now k w (Forget k r).2).1 = true.
Proof.
  intros Hok. assert (limiter_ok (Forget k r).2) as Hok' by (by apply Forget_ok).
  unfold Allow. destruct (w <=? 0); [done|].
  assert (find e_key k (Forget k r).2 = None) as ->; [|done]. apply find_None; [done|].
  unfold Forget. destruct (find e_key k r) eqn:Ef; simpl; [set_solver|]. by apply (find_None e_key k r).
Qed.

(** ** Properties *)

(** The limiter stays well formed under every sequence of calls: the
    index is exactly the set of keys on the list, no key is listed twice and
    the list never exceeds the capacity. *)
Theorem limiter_bounded maxEntries ops :
  let r := foldl apply_op (NewRateLimiter maxEntries) ops in
  (Len r <= Z.to_nat (if (maxEntries <=? 0)%Z then 10000 else maxEntries)%Z)%nat
  /\ NoDup (e_key <$> order r) /\ index r = list_to_set (e_key <$> order r).
Proof.
  intros r.
  assert (limiter_ok r /\ capacity r = Z.to_nat (if maxEntries <=? 0 then 10000 else maxEntries)) as [[] Hc].
  { unfold r. clear r. induction ops as [|o ops IH] using rev_ind.
    - split; [|done]. apply empty_ok. destruct (maxEntries <=? 0) eqn:?; lia.
    - rewrite foldl_app. simpl. rewrite apply_op_capacity. destruct IH. split; [by apply apply_op_ok|done]. }
  rewrite <- Hc. by split_and!.
Qed.

(** At most one fire per window: after a key has been allowed with a
    window, it is refused at every time before the window ends, whatever
    other keys are allowed or forgotten in between, as long as fewer calls
    than the capacity come in between and the key itself is not forgotten. *)
Theorem suppressed_within_window r now k w ops now' w' :
  limiter_ok r -> 0 < w -> 0 < w' -> (Allow now k w r).1 = true ->
  (length ops < capacity r)%nat -> Forall (spares k (now + w)) ops -> now' < now + w ->
  (Allow now' k w' (foldl apply_op (Allow now k w r).2 ops)).1 = false.
Proof. apply window_suppresses. Qed.

(** Suppression always ends: a key is allowed again as soon as its
    window has passed, after [Forget], and whenever it has no record; a
    refused call changes nothing, so a condition that keeps firing cannot
    extend its own suppression. *)
Theorem suppression_ends now k w r :
  limiter_ok r ->
  ((Allow now k w r).1 = false <->
     0 < w /\ exists e, e ∈ order r /\ e_key e = k /\ now < expiresAt e)
  /\ ((Allow now k w r).1 = false -> (Allow now k w r).2 = r)
  /\ (Allow now k w (Forget k r).2).1 = true.
Proof.
  intros Hok. split_and!.
  - unfold Allow. destruct (w <=? 0) eqn:Ew; [split; [done|lia]|].
    destruct (find e_key k r) as [e|] eqn:Ef; simpl.
    + apply find_Some in Ef as [Hin Hk]; [|done]. unfold time_before.
      destruct (now <? expiresAt e) eqn:Et; simpl.
      * split; [|done]. intros _. split; [lia|]. exists e. split_and!; [done..|lia].
      * split; [done|]. intros (_ & e' & Hin' & Hk' & Hlt).
        assert (find e_key k r = Some e) as H1 by (by apply find_Some).
        assert (find e_key k r = Some e') as H2 by (by apply find_Some).
        simplify_eq. lia.
    + split; [done|]. intros (_ & e & Hin & Hk & _).
      assert (find e_key k r = Some e) by (by apply find_Some). congruence.
  - unfold Allow. destruct (w <=? 0); [done|]. destruct (find e_key k r); simpl; [|done].
    by destruct (time_before _ _).
  - by apply forgotten_allowed.
Qed.

Lemma suppressed_within_window_witness :
  (Allow (5 * second) "k" hour
     (foldl apply_op (Allow 0 "k" hour (NewRateLimiter 2)).2 [OAllow second "other" minute])).1 = false.
Proof.
  apply (suppressed_within_window (NewRateLimiter 2) 0 "k" hour [OAllow second "other" minute]);
    try done.
  - apply empty_ok; simpl; lia.
  - simpl. lia.
  - apply Forall_singleton. by intros ?.
Defined.

Lemma suppression_ends_witness :
  (Allow second "k" hour (Forget "k" (Allow 0 "k" hour (NewRateLimiter 2)).2).2).1 = true.
Proof.
  apply (suppression_ends second "k" hour (Allow 0 "k" hour (NewRateLimiter 2)).2).
  apply Allow_ok. apply empty_ok; simpl; lia.
Defined.
