(* ===== verification/Churn.v ===== *)
(** * Churn suppression (pkg/triggers/churn.go)

    Changes of a resource that keeps rewriting itself are suppressed.  The
    verdict for a key is a small automaton on the key's own entry
    ([key_step]); the LRU around it only decides which entries are kept. *)

From S2P Require Import Prelude Lru.

Set Default Proof Using "Type".

Definition DefaultChurnThreshold : Z := 3.
Definition DefaultChurnWindow : duration := 10 * minute.
Definition DefaultChurnCooldown : duration := 6 * hour.

Record churnEntry := MkChurn {
  ce_key : string;
  fires : Z;
  windowStart : time;
  cooldownUntil : time
}.

Record ChurnSuppressor := MkSuppressor {
  table : lru (E := churnEntry);
  threshold : Z;
  window : duration;
  cooldown : duration
}.

Definition NewChurnSuppressor (maxEntries thr : Z) (win cool : duration) : ChurnSuppressor :=
  MkSuppressor (empty (Z.to_nat (if maxEntries <=? 0 then 10000 else maxEntries)))
    (if thr <=? 0 then DefaultChurnThreshold else thr)
    (if win <=? 0 then DefaultChurnWindow else win)
    (if cool <=? 0 then DefaultChurnCooldown else cool).

(** What a call does to the entry of its key: (allowed, classified) and the
    entry afterwards. *)
Definition key_step (c : ChurnSuppressor) (now : time) (k : string) (st : option churnEntry)
  : bool * bool * churnEntry :=
  match st with
  | None => (true, false, MkChurn k 1 now zero_time)
  | Some e =>
    if time_before now (cooldownUntil e) then (false, false, e)
    else if negb (is_zero_time (cooldownUntil e)) then (true, false, MkChurn k 1 now zero_time)
    else if window c <? time_sub now (windowStart e) then (true, false, MkChurn k 1 now (cooldownUntil e))
    else
      let n := fires e + 1 in
      if threshold c <? n
      then (false, true, MkChurn k n (windowStart e) (time_add now (cooldown c)))
      else (true, false, MkChurn k n (windowStart e) (cooldownUntil e))
  end.

Definition Allow (now : time) (k : string) (c : ChurnSuppressor) : bool * bool * ChurnSuppressor :=
  let '(allowed, classified, e) := key_step c now k (find ce_key k (table c)) in
  let t := match find ce_key k (table c) with
           | None => push ce_key e (table c)
           | Some _ => to_front ce_key e (table c)
           end in
  (allowed, classified, MkSuppressor t (threshold c) (window c) (cooldown c)).

Definition Len (c : ChurnSuppressor) : nat := length (order (table c)).

Abbreviation churn_ok c := (lru_ok ce_key (table c)).

Lemma key_step_key c now k st : (forall e, st = Some e -> ce_key e = k) ->
  ce_key (key_step c now k st).2 = k.
Proof. intros H. destruct st as [e|]; [|done]. simpl. specialize (H e eq_refl). by repeat case_match. Qed.

Lemma find_key k (t : lru) e : lru_ok ce_key t -> find ce_key k t = Some e -> ce_key e = k.
Proof. intros Hok H. by apply find_Some in H as []. Qed.

Lemma churn_table_ok now k c : churn_ok c -> churn_ok (Allow now k c).2.
Proof.
  intros Hok. unfold Allow.
  pose proof (key_step_key c now k (find ce_key k (table c)) (fun e => find_key k _ e Hok)) as Hk.
  destruct (key_step _ _ _ _) as [[a cl] e] eqn:Es. simpl in *. subst k.
  destruct (find ce_key (ce_key e) (table c)) as [e0|] eqn:Ef.
  - by eapply to_front_ok.
  - by apply push_ok.
Qed.

(** After a call the key's entry is the automaton's, at the front. *)
Lemma Allow_recent now k c : churn_ok c ->
  (Allow now k c).1 = (key_step c now k (find ce_key k (table c))).1
  /\ recent 1 (key_step c now k (find ce_key k (table c))).2 (table (Allow now k c).2).
Proof.
  intros Hok. unfold Allow. destruct (key_step _ _ _ _) as [[a cl] e]. split; [done|]. simpl.
  destruct (find ce_key k (table c)); [apply recent_front|apply recent_pushed].
Qed.

Lemma Allow_capacity now k c : capacity (table (Allow now k c).2) = capacity (table c).
Proof.
  unfold Allow. destruct (key_step _ _ _ _) as [[a cl] e]. simpl. destruct (find _ _ _); [done|].
  unfold push, evict. case_decide; [|done]. by destruct (last _).
Qed.

(** Calls on other keys keep a recent entry, and never create one. *)
Lemma Allow_other_recent n e now k c : churn_ok c -> (n < capacity (table c))%nat ->
  ce_key e <> k -> recent n e (table c) -> recent (S n) e (table (Allow now k c).2).
Proof.
  intros Hok Hn Hk Hr. unfold Allow.
  pose proof (key_step_key c now k (find ce_key k (table c)) (fun e => find_key k _ e Hok)) as Hk'.
  destruct (key_step _ _ _ _) as [[a cl] e']. simpl in *.
  destruct (find ce_key k (table c)); simpl; [|by apply recent_push].
  apply recent_to_front; [congruence|done].
Qed.

Lemma Allow_other_absent now k k' c : churn_ok c -> k <> k' ->
  find ce_key k (table c) = None -> find ce_key k (table (Allow now k' c).2) = None.
Proof.
  intros Hok Hk Hf. pose proof (churn_table_ok now k' c Hok) as Hok'.
  apply find_None; [done|]. apply (find_None ce_key k (table c) Hok) in Hf.
  pose proof (key_step_key c now k' (find ce_key k' (table c)) (fun e => find_key k' _ e Hok)) as Hk'.
  unfold Allow in *. destruct (key_step _ _ _ _) as [[a cl] e']. simpl in *.
  destruct (find ce_key k' (table c)); simpl; [done|].
  destruct (evict_ok ce_key (table c) Hok) as (_ & _ & _ & Hsub). set_solver.
Qed.

(** ** Sequences of calls *)
Fixpoint verdicts (k : string) (calls : list (time * string)) (c : ChurnSuppressor)
  : list (bool * bool) :=
  match calls with
  | [] => []
  | (now, k') :: rest =>
    let r := Allow now k' c in
    (if decide (k' = k) then [r.1] else []) ++ verdicts k rest r.2
  end.

Fixpoint run_key (c : ChurnSuppressor) (k : string) (st : option churnEntry) (times : list time)
  : list (bool * bool) :=
  match times with
  | [] => []
  | now :: rest => let r := key_step c now k st in r.1 :: run_key c k (Some r.2) rest
  end.

Definition times_of (k : string) (calls : list (time * string)) : list time :=
  map fst (List.filter (fun p => bool_decide (p.2 = k)) calls).

Lemma key_step_params c c' now k st :
  threshold c = threshold c' -> window c = window c' -> cooldown c = cooldown c' ->
  key_step c now k st = key_step c' now k st.
Proof. intros Ht Hw Hc. unfold key_step. by rewrite Ht, Hw, Hc. Qed.

Lemma Allow_params now k c : threshold (Allow now k c).2 = threshold c
  /\ window (Allow now k c).2 = window c /\ cooldown (Allow now k c).2 = cooldown c.
Proof. unfold Allow. by destruct (key_step _ _ _ _) as [[? ?] ?]. Qed.

Lemma run_key_params c c' k st times :
  threshold c = threshold c' -> window c = window c' -> cooldown c = cooldown c' ->
  run_key c k st times = run_key c' k st times.
Proof.
  intros Ht Hw Hc. revert st. induction times as [|t ts IH]; intros st; [done|]. simpl.
  by rewrite (key_step_params c c') by done; rewrite IH.
Qed.

Lemma verdicts_run n k calls c : churn_ok c -> (n + length calls <= capacity (table c))%nat ->
  (forall e, find ce_key k (table c) = Some e -> recent n e (table c)) ->
  verdicts k calls c = run_key c k (find ce_key k (table c)) (times_of k calls).
Proof.
  revert n c. induction calls as [|[now k'] calls IH]; intros n c Hok Hn Hr; [done|].
  simpl in *. unfold times_of. simpl.
  destruct (Allow_params now k' c) as (Ht & Hw & Hcd).
  pose proof (churn_table_ok now k' c Hok) as Hok'.
  destruct (decide (k' = k)) as [->|Hk].
  - rewrite bool_decide_eq_true_2 by done. simpl.
    destruct (Allow_recent now k c Hok) as [-> Hfront]. f_equal.
    pose proof (recent_find ce_key _ _ _ Hok' Hfront) as Hf.
    rewrite (key_step_key c now k _ (fun e => find_key k _ e Hok)) in Hf.
    rewrite (IH (S n) (Allow now k c).2 Hok'), Hf.
    + by apply run_key_params.
    + rewrite Allow_capacity. lia.
    + intros e He. rewrite Hf in He. simplify_eq. eapply recent_weaken; [|done]. lia.
  - rewrite bool_decide_eq_false_2 by done. simpl.
    assert (find ce_key k (table (Allow now k' c).2) = find ce_key k (table c)
            /\ forall e, find ce_key k (table c) = Some e -> recent (S n) e (table (Allow now k' c).2)) as [Hf Hr'].
    { destruct (find ce_key k (table c)) as [e|] eqn:Ef.
      - pose proof (find_key k _ e Hok Ef) as He.
        assert (recent (S n) e (table (Allow now k' c).2)) as Hre
          by (apply Allow_other_recent; [done|lia|congruence|by apply Hr]).
        split; [|by intros ? [= <-]]. rewrite <- He. by eapply recent_find.
      - split; [|done]. by apply Allow_other_absent. }
    rewrite (IH (S n) (Allow now k' c).2 Hok'), Hf.
    + by apply run_key_params.
    + rewrite Allow_capacity. lia.
    + intros e He. apply Hr'. congruence.
Qed.

(** ** Properties *)

(** In a suppressor fresh from its constructor, the verdicts on a key are
    those of the automaton run on that key's own calls, however calls on
    other keys interleave, for as many calls as the table has entries. *)
Theorem churn_verdicts_per_key maxEntries thr win cool k calls :
  let c := NewChurnSuppressor maxEntries thr win cool in
  (length calls <= capacity (table c))%nat ->
  verdicts k calls c = run_key c k None (times_of k calls).
Proof.
  intros c Hn. assert (churn_ok c) as Hok.
  { apply empty_ok. destruct (maxEntries <=? 0) eqn:?; lia. }
  assert (find ce_key k (table c) = None) as Hf by (apply find_None; [done|set_solver]).
  rewrite (verdicts_run 0 k calls c Hok Hn), Hf; [done|]. intros e. by rewrite Hf.
Qed.

(** [m] more fires are reported, the next one is classified, later ones are
    refused. *)
Fixpoint burst (m len : nat) {struct len} : list (bool * bool) :=
  match len with
  | O => []
  | S l => match m with
           | S m' => (true, false) :: burst m' l
           | O => (false, true) :: replicate l (false, false)
           end
  end.

Lemma run_cooling c k e times : Forall (fun t => t < cooldownUntil e) times ->
  run_key c k (Some e) times = replicate (length times) (false, false).
Proof.
  induction 1 as [|t ts Ht _ IH]; [done|]. simpl. unfold time_before.
  replace (t <? cooldownUntil e) with true by lia. simpl. by rewrite IH.
Qed.

Lemma run_burst c k n t0 times : 0 < t0 -> 0 < window c < int64_max -> window c < cooldown c ->
  n <= threshold c -> Forall (fun t => t0 <= t <= t0 + window c) times ->
  run_key c k (Some (MkChurn k n t0 zero_time)) times
  = burst (Z.to_nat (threshold c - n)) (length times).
Proof.
  intros Ht0 Hw Hwc. revert n. induction times as [|t ts IH]; intros n Hn Hts; [done|].
  apply Forall_cons in Hts as [Ht Hts]. simpl. unfold time_before, is_zero_time, zero_time.
  replace (t <? 0) with false by lia. simpl.
  assert (time_sub t t0 <= window c) as Hsub
    by (apply time_sub_le; unfold int64_min in *; lia).
  replace (window c <? time_sub t t0) with false by lia.
  destruct (threshold c <? n + 1) eqn:E.
  - replace (Z.to_nat (threshold c - n)) with 0%nat by lia. simpl. f_equal.
    apply run_cooling. simpl. unfold time_add. eapply Forall_impl; [exact Hts|]. simpl. lia.
  - replace (Z.to_nat (threshold c - n)) with (S (Z.to_nat (threshold c - (n + 1)))) by lia.
    simpl. f_equal. apply IH; [lia|done].
Qed.

(** The life of a churning key.  Of the changes inside one window after
    a key's first, exactly [threshold] are reported, the next one is
    classified (once) and the rest are refused; while it cools down every
    change is refused; the first change after the cooldown is reported and
    starts a fresh window. *)
Theorem churn_life_cycle c k t0 times :
  0 < t0 -> 1 <= threshold c -> 0 < window c < int64_max -> window c < cooldown c ->
  Forall (fun t => t0 <= t <= t0 + window c) times ->
  run_key c k None (t0 :: times)
  = burst (Z.to_nat (threshold c)) (S (length times))
  /\ forall e cooling now, cooldownUntil e <> zero_time ->
       Forall (fun t => t < cooldownUntil e) cooling -> cooldownUntil e <= now ->
       run_key c k (Some e) (cooling ++ now :: times)
       = replicate (length cooling) (false, false)
         ++ (true, false) :: run_key c k (Some (MkChurn k 1 now zero_time)) times.
Proof.
  intros Ht0 Hthr Hw Hwc Hts. split.
  - simpl. rewrite run_burst by (done || lia).
    replace (Z.to_nat (threshold c)) with (S (Z.to_nat (threshold c - 1))) by lia. done.
  - intros e cooling now He Hcool Hnow. induction Hcool as [|t ts Ht _ IH]; simpl.
    + unfold time_before, is_zero_time. replace (now <? cooldownUntil e) with false by lia.
      replace (cooldownUntil e =? zero_time) with false by lia. done.
    + unfold time_before. replace (t <? cooldownUntil e) with true by lia. simpl. by rewrite IH.
Qed.

Lemma churn_verdicts_per_key_witness :
  let c := NewChurnSuppressor 8 0 0 0 in
  verdicts "cm" [(1, "cm"); (2, "x"); (3, "cm"); (4, "cm"); (5, "cm")] c
  = run_key c "cm" None [1; 3; 4; 5].
Proof.
  intros c. apply (churn_verdicts_per_key 8 0 0 0 "cm" [(1, "cm"); (2, "x"); (3, "cm"); (4, "cm"); (5, "cm")]).
  simpl. lia.
Defined.

Lemma churn_life_cycle_witness :
  run_key (NewChurnSuppressor 8 0 0 0) "cm" None [1; 2; 3; 4; 5]
  = burst (Z.to_nat (threshold (NewChurnSuppressor 8 0 0 0))) 5.
Proof.
  apply (fun H1 H2 H3 H4 H5 =>
    proj1 (churn_life_cycle (NewChurnSuppressor 8 0 0 0) "cm" 1 [2; 3; 4; 5] H1 H2 H3 H4 H5)).
  - lia.
  - simpl. unfold DefaultChurnThreshold. lia.
  - by vm_compute.
  - by vm_compute.
  - simpl. unfold DefaultChurnWindow, minute, second. repeat (apply Forall_cons; split; [lia|]).
    by apply Forall_nil.
Defined.
