(* ===== verification/Owner.v ===== *)
(** * Owners and subjects of watched objects (pkg/triggers/owner.go)

    The regular expressions of the code all match a suffix that starts at a
    dash and contains no further dash (or, for the UUID, four of them), so
    they are modelled by cutting the name at its last dash. *)

From S2P Require Import Prelude GoText GoJson.

Set Default Proof Using "Type".

Record OwnerRef := MkOwner { o_name : string; o_kind : string }.
Definition no_owner : OwnerRef := MkOwner "" "".

(** The name split at its last dash. *)
Fixpoint cut_last (s : string) : option (string * string) :=
  match s with
  | EmptyString => None
  | String c r =>
    match cut_last r with
    | Some (p, t) => Some (String c p, t)
    | None => if byte c =? 45 then Some ("", r) else None
    end
  end.

Fixpoint all_chars (p : ascii -> bool) (s : string) : bool :=
  match s with
  | EmptyString => true
  | String c r => p c && all_chars p r
  end.

(** [bcdfghjklmnpqrstvwxz2456789]. *)
Definition is_hash_char (c : ascii) : bool := contains_byte c "bcdfghjklmnpqrstvwxz2456789".
Definition is_hex_char (c : ascii) : bool := is_digit c || in_range 97 102 (byte c).

Definition is_template_hash (t : string) : bool :=
  all_chars is_hash_char t && bool_decide (8 <= strlen t <= 12)%nat.
Definition stripPodTemplateHash (name : string) : string :=
  match cut_last name with
  | Some (p, t) => if is_template_hash t then p else name
  | None => name
  end.

(** [-([0-9]{5,}|[0-9a-f]{8,})$]. *)
Definition is_generated (t : string) : bool :=
  (all_chars is_digit t && bool_decide (5 <= strlen t)%nat)
  || (all_chars is_hex_char t && bool_decide (8 <= strlen t)%nat).
Definition strip_generated (name : string) : string :=
  match cut_last name with
  | Some (p, t) => if is_generated t then p else name
  | None => name
  end.

Definition is_hex_group (n : nat) (t : string) : bool :=
  all_chars is_hex_char t && bool_decide (strlen t = n).
(** The name without trailing dash-separated hex groups of these lengths,
    last group first. *)
Fixpoint strip_groups (ns : list nat) (name : string) : option string :=
  match ns with
  | [] => Some name
  | n :: ns' =>
    match cut_last name with
    | Some (p, t) => if is_hex_group n t then strip_groups ns' p else None
    | None => None
    end
  end.
Definition strip_uuid (name : string) : string :=
  default name (strip_groups [12%nat; 4%nat; 4%nat; 4%nat; 8%nat] name).

Definition JobFamily (name : string) : string :=
  let stripped := strip_generated (strip_uuid name) in
  if bool_decide (stripped = "") then name else stripped.

Definition canonicalOwner (kind name : string) (labels : gomap) : OwnerRef :=
  let lk := to_lower kind in
  if bool_decide (lk = "replicaset") then
    let hash := get_str labels "rollouts-pod-template-hash" in
    if negb (bool_decide (hash = "")) then MkOwner (trim_suffix name ("-" +:+ hash)) "rollout"
    else MkOwner (stripPodTemplateHash name) "deployment"
  else MkOwner name lk.

(** The loop over [ownerReferences]. *)
Fixpoint resolve_refs (labels : gomap) (refs : list json) : OwnerRef :=
  match refs with
  | [] => no_owner
  | r :: rest =>
    match as_obj r with
    | None => resolve_refs labels rest
    | Some _ as ref =>
      let skip := match mget ref "controller" with JBool b => negb b | _ => false end in
      let name := get_str ref "name" in
      let kind := get_str ref "kind" in
      if skip || bool_decide (name = "") || bool_decide (kind = "") then resolve_refs labels rest
      else canonicalOwner kind name labels
    end
  end.
Definition ResolveOwner (obj : gomap) : OwnerRef :=
  match get_obj obj "metadata" with
  | None => no_owner
  | Some _ as meta => resolve_refs (get_obj meta "labels") (get_arr meta "ownerReferences")
  end.

(** (name, namespace, lower-case kind, node). *)
Definition SubjectFromObj (kind : string) (obj : gomap) : string * string * string * string :=
  let meta := get_obj obj "metadata" in
  let lowerKind := to_lower kind in
  (get_str meta "name", get_str meta "namespace", lowerKind,
   if bool_decide (lowerKind = "pod") then get_str (get_obj obj "spec") "nodeName" else "").

(** ** Lemmas *)
Lemma cut_last_none t : all_chars (fun c => negb (byte c =? 45)) t = true -> cut_last t = None.
Proof.
  induction t as [|c t IH]; [done|]. simpl. intros [Hc Ht]%andb_prop. rewrite IH by done.
  by destruct (byte c =? 45).
Qed.

Lemma cut_last_app p t : all_chars (fun c => negb (byte c =? 45)) t = true ->
  cut_last (p +:+ String (chr 45) t) = Some (p, t).
Proof.
  intros Ht. induction p as [|c p IH].
  - rewrite app_nil_l. simpl. rewrite (cut_last_none t Ht). done.
  - rewrite app_cons. simpl. by rewrite IH.
Qed.

Lemma all_chars_impl (p q : ascii -> bool) s :
  (forall c, p c = true -> q c = true) -> all_chars p s = true -> all_chars q s = true.
Proof.
  intros H. induction s as [|c s IH]; [done|]. simpl. intros [Hc Hs]%andb_prop.
  by rewrite (H c Hc), IH.
Qed.

Lemma digit_not_dash c : is_digit c = true -> negb (byte c =? 45) = true.
Proof. unfold is_digit. rewrite in_range_true. intros. apply negb_true_iff. lia. Qed.
Lemma hex_not_dash c : is_hex_char c = true -> negb (byte c =? 45) = true.
Proof.
  unfold is_hex_char, is_digit. rewrite orb_true_iff, !in_range_true. intros. apply negb_true_iff. lia.
Qed.
Lemma hash_not_dash c : is_hash_char c = true -> negb (byte c =? 45) = true.
Proof.
  unfold is_hash_char. intros H. apply negb_true_iff. destruct (byte c =? 45) eqn:E; [|done].
  assert (c = chr 45) as -> by (rewrite <- (chr_byte c); f_equal; lia). by vm_compute in H.
Qed.

Lemma strip_hash p t : is_template_hash t = true -> stripPodTemplateHash (p +:+ String (chr 45) t) = p.
Proof.
  intros H. unfold stripPodTemplateHash. rewrite cut_last_app; [by rewrite H|].
  apply andb_prop in H as [H _]. eapply all_chars_impl; [|exact H]. apply hash_not_dash.
Qed.

Lemma generated_chars t : is_generated t = true -> all_chars (fun c => negb (byte c =? 45)) t = true.
Proof.
  unfold is_generated. rewrite orb_true_iff, !andb_true_iff. intros [[H _]|[H _]].
  - eapply all_chars_impl; [|exact H]. apply digit_not_dash.
  - eapply all_chars_impl; [|exact H]. apply hex_not_dash.
Qed.

Lemma strip_uuid_other p t : is_generated t = true -> strlen t <> 12%nat ->
  strip_uuid (p +:+ String (chr 45) t) = p +:+ String (chr 45) t.
Proof.
  intros Hg Hl. unfold strip_uuid. cbn [strip_groups].
  rewrite cut_last_app by (by apply generated_chars). unfold is_hex_group.
  rewrite (bool_decide_eq_false_2 _ Hl). by rewrite andb_false_r.
Qed.

(** ** Properties *)

(** Every pod of a Deployment resolves to the Deployment, across
    rollouts: when the controlling owner is a ReplicaSet named after the
    Deployment with any hash of the controller's alphabet and length, the
    resolved owner is the Deployment, and an Argo Rollout when the pod
    carries the rollout label with that hash. *)
Theorem pods_resolve_to_their_workload meta rest labels name hash others :
  is_template_hash hash = true -> name <> "" ->
  get_arr (Some meta) "ownerReferences"
  = JObj [("name", JStr (name +:+ String (chr 45) hash)); ("kind", JStr "ReplicaSet");
          ("controller", JBool true)] :: others ->
  get_obj (Some meta) "labels" = labels ->
  get_obj (Some rest) "metadata" = Some meta ->
  ResolveOwner (Some rest)
  = (if bool_decide (get_str labels "rollouts-pod-template-hash" = hash)
     then MkOwner name "rollout"
     else if bool_decide (get_str labels "rollouts-pod-template-hash" = "")
     then MkOwner name "deployment"
     else MkOwner (trim_suffix (name +:+ String (chr 45) hash)
                     ("-" +:+ get_str labels "rollouts-pod-template-hash")) "rollout").
Proof.
  intros Hh Hn Hrefs Hl Hm. unfold ResolveOwner. rewrite Hm, Hrefs, Hl. cbn [resolve_refs as_obj].
  replace (get_str (Some _) "name") with (name +:+ String (chr 45) hash) by done.
  replace (get_str (Some _) "kind") with "ReplicaSet" by done.
  rewrite bool_decide_eq_false_2 by (by destruct name).
  rewrite bool_decide_eq_false_2 by done. simpl.
  unfold canonicalOwner. simpl. set (l := get_str labels _).
  assert (hash <> "") as Hh0 by (intros ->; by vm_compute in Hh).
  destruct (decide (l = "")) as [->|Hne].
  - rewrite (bool_decide_eq_true_2 ("" = "")) by done. simpl. rewrite strip_hash by done.
    by rewrite bool_decide_eq_false_2.
  - rewrite (bool_decide_eq_false_2 (l = "") Hne). simpl. case_bool_decide as E; [|done].
    rewrite E. f_equal. apply (trim_suffix_app name (String (chr 45) hash)).
Qed.

(** All runs of one generated job share one family: stripping the run
    suffix (a number of five digits or more, or eight or more hex digits,
    other than a 12-character tail, which may be the end of a UUID) gives
    back the base name; and a family name is never empty. *)
Theorem job_runs_share_family base t :
  base <> "" -> is_generated t = true -> strlen t <> 12%nat ->
  JobFamily (base +:+ String (chr 45) t) = base
  /\ forall name, name <> "" -> JobFamily name <> "".
Proof.
  intros Hb Hg Hl. split.
  - unfold JobFamily. rewrite strip_uuid_other by done. unfold strip_generated.
    rewrite cut_last_app by (by apply generated_chars). rewrite Hg.
    by rewrite bool_decide_eq_false_2.
  - intros name Hn. unfold JobFamily. case_bool_decide; done.
Qed.

Definition web_pod : list (string * json) :=
  [("ownerReferences", JArr [JObj [("name", JStr "web-7f9d8c5b6"); ("kind", JStr "ReplicaSet");
                                   ("controller", JBool true)]])].
Lemma pods_resolve_to_their_workload_witness :
  ResolveOwner (Some [("metadata", JObj web_pod)]) = MkOwner "web" "deployment".
Proof.
  exact (pods_resolve_to_their_workload web_pod [("metadata", JObj web_pod)] None "web" "7f9d8c5b6" []
    ltac:(by vm_compute) ltac:(done) ltac:(reflexivity) ltac:(reflexivity) ltac:(reflexivity)).
Defined.

Lemma job_runs_share_family_witness :
  JobFamily "blinq-api-healthchecks-29764215" = "blinq-api-healthchecks".
Proof.
  apply (job_runs_share_family "blinq-api-healthchecks" "29764215"); by vm_compute.
Defined.
