(* ===== verification/Engine.v ===== *)
(** * The trigger engine (pkg/triggers: types.go, engine.go, events_block.go, overrides.go)

    Matchers are records of functions, as in the code; [Match] runs all of
    them on one event and threads the rate limiter and the churn suppressor
    through the loop.  Clock readings are arguments: [now] is what the
    matchers' own functions read, [now_rl i] and [now_churn i] what the
    limiter and the suppressor read while spec number [i] is processed. *)

From S2P Require Import Prelude GoText GoJson GoStruct GoTime Lru RateLimit Churn Owner.

Set Default Proof Using "Type".

(** ** Types *)
Record IncomingK8sEvent := MkEvent {
  Operation : string;
  Kind : string;
  Obj : gomap;
  OldObj : gomap
}.

Record K8sEvent := MkK8sEvent {
  ev_type : string;
  ev_reason : string;
  ev_message : string;
  ev_count : Z;
  ev_last_seen : time;
  ev_source : string
}.

(** [ListEvents(ctx, namespace, kind, name, limit)]. *)
Definition K8sEventsLister := string -> string -> string -> Z -> result (list K8sEvent).

Record PodLabelSample := MkSample { s_name : string; s_labels : list (string * string) }.
Record ServiceBackendsLister := MkBackends {
  AnyPodMatching : string -> list (string * string) -> result bool;
  AnyWorkloadTemplateMatching : string -> list (string * string) -> result bool;
  ListPodLabels : string -> Z -> result (list PodLabelSample)
}.

Record EnrichContext := MkContext {
  EventsLister : option K8sEventsLister;
  ServiceBackends : option ServiceBackendsLister
}.

Record MatcherSpec := MkSpec {
  Name : string;
  SpecKind : string;
  Operations : list string;
  Predicate : option (time -> gomap -> gomap -> bool);
  PredicateCtx : option (time -> gomap -> gomap -> EnrichContext -> bool);
  RecoveryPredicate : option (time -> gomap -> gomap -> bool);
  AggregationKey : string;
  Priority : string;
  FindingType : string;
  RateLimit : duration;
  FingerprintFn : option (time -> gomap -> string);
  OccurrenceKeyFn : option (gomap -> string);
  SuppressChurn : bool;
  SuppressOnResync : bool;
  EnrichBlocks : option (time -> gomap -> gomap -> EnrichContext -> list json)
}.

(** [Spec] is the index of the matcher that fired. *)
Record MatchResult := MkMatch {
  m_spec : nat;
  m_name : string;
  m_fingerprint : string;
  m_occurrence : string;
  m_owner : OwnerRef;
  m_subject : string * string * string * string;
  m_extra : list json
}.

Record Engine := MkEngine {
  specs : list MatcherSpec;
  rl : RateLimiter;
  churn : ChurnSuppressor;
  startTime : time;
  graceWindow : duration;
  eventsLister : option K8sEventsLister;
  serviceBackends : option ServiceBackendsLister
}.

Definition DefaultGraceWindow : duration := 2 * minute.

Definition NewEngine (sp : list MatcherSpec) (agentStartTime : time) : Engine :=
  MkEngine sp (NewRateLimiter 0) (NewChurnSuppressor 0 0 0 0) agentStartTime DefaultGraceWindow
    None None.
Definition WithEventsLister (l : K8sEventsLister) (e : Engine) : Engine :=
  MkEngine (specs e) (rl e) (churn e) (startTime e) (graceWindow e) (Some l) (serviceBackends e).
Definition WithServiceBackendsLister (l : ServiceBackendsLister) (e : Engine) : Engine :=
  MkEngine (specs e) (rl e) (churn e) (startTime e) (graceWindow e) (eventsLister e) (Some l).

Definition enrichContext (e : Engine) : EnrichContext :=
  MkContext (eventsLister e) (serviceBackends e).

(** ** Event tables *)
Definition recentEventsLimit : Z := 30.
Definition supplementaryEventsLimit : Z := 10.

(** [s[:max-1] + "…"], by bytes. *)
Definition truncate (s : string) (max : nat) : string :=
  if decide (strlen s <= max)%nat then s else String.substring 0 (max - 1) s +:+ "…".

(** Whole days are counted exactly; the code divides in floating point. *)
Definition formatEventTimeAgo (now t : time) : string :=
  if is_zero_time t then "unknown"
  else
    let d := time_sub now t in
    if d <? 0 then format_rfc3339 t
    else if d <? minute then itoa (d / second) +:+ "s ago"
    else if d <? hour then itoa (d / minute) +:+ "m ago"
    else if d <? 24 * hour then itoa (d / hour) +:+ "h ago"
    else itoa (d / (24 * hour)) +:+ "d ago".

(** Most recent first; the order of equal times is not fixed by the code's
    unstable sort, this is one of the possible orders. *)
Definition after_or_equal (a b : K8sEvent) : Prop := ev_last_seen b <= ev_last_seen a.
#[local] Instance after_or_equal_dec : RelDecision after_or_equal.
Proof. intros a b. unfold after_or_equal. apply _. Defined.

Definition event_row (now : time) (e : K8sEvent) : json :=
  JArr [JStr (formatEventTimeAgo now (ev_last_seen e)); JStr (ev_type e); JStr (ev_reason e);
        JStr (ev_source e); JStr (itoa (if ev_count e =? 0 then 1 else ev_count e));
        JStr (truncate (ev_message e) 200)].

Definition recentEventsTable (now : time) (ec : EnrichContext) (namespace kind name title : string)
  (limit : Z) : list json :=
  match EventsLister ec with
  | None => []
  | Some l =>
    match l namespace kind name limit with
    | Err _ => []
    | Ok [] => []
    | Ok events =>
      let events := merge_sort after_or_equal events in
      [JObj [("type", JStr "table");
             ("data", JObj [("table_name", JStr title);
                            ("headers", JArr (map JStr ["Last Seen"; "Type"; "Reason"; "Source"; "Count"; "Message"]));
                            ("rows", JArr (map (event_row now) events));
                            ("column_renderers", JObj [])]);
             ("additional_info", JObj [("object_kind", JStr kind); ("object_namespace", JStr namespace);
                                       ("object_name", JStr name);
                                       ("event_count", JInt (Z.of_nat (length events)))])]]
    end
  end.

Definition empty_str (s : string) : bool := bool_decide (s = "").

Definition fetchSubjectEvents (now : time) (e : Engine) (kind namespace name : string) : list json :=
  if empty_str namespace || empty_str name || empty_str kind then []
  else recentEventsTable now (MkContext (eventsLister e) None) namespace kind name
         ("Recent " +:+ kind +:+ " events") recentEventsLimit.
Definition fetchNodeEvents (now : time) (e : Engine) (node : string) : list json :=
  if empty_str node then []
  else recentEventsTable now (MkContext (eventsLister e) None) "" "Node" node
         ("Recent Node events on " +:+ node) supplementaryEventsLimit.
Definition fetchNamespaceEvents (now : time) (e : Engine) (namespace : string) : list json :=
  if empty_str namespace then []
  else recentEventsTable now (MkContext (eventsLister e) None) namespace "" ""
         ("Recent events in namespace " +:+ namespace) supplementaryEventsLimit.

(** ** Filters *)
Definition kindMatches (specKind eventKind : string) : bool :=
  empty_str specKind || bool_decide (specKind = "Any") || fold_equal specKind eventKind.

Definition operationMatches (specOps : list string) (eventOp : string) : bool :=
  match specOps with
  | [] => true
  | _ => existsb (fun op => bool_decide (op = eventOp)) specOps
  end.

Definition HandlesKind (kind : string) (e : Engine) : bool :=
  existsb (fun s => kindMatches (SpecKind s) kind) (specs e).

Definition suppressedByResync (e : Engine) (obj : gomap) : bool :=
  match get_obj obj "metadata" with
  | None => false
  | Some _ as meta =>
    match parse_rfc3339 (get_str meta "creationTimestamp") with
    | None => false
    | Some t => time_before t (time_add (startTime e) (- graceWindow e))
    end
  end.

Definition fingerprint_of (now : time) (s : MatcherSpec) (obj : gomap) : string :=
  match FingerprintFn s with Some f => f now obj | None => "" end.
Definition limiter_key (now : time) (s : MatcherSpec) (obj : gomap) : string :=
  Name s +:+ ":" +:+ fingerprint_of now s obj.
Definition predicate_holds (now : time) (s : MatcherSpec) (ev : IncomingK8sEvent) (ec : EnrichContext)
  : bool :=
  match PredicateCtx s with
  | Some p => p now (Obj ev) (OldObj ev) ec
  | None => match Predicate s with Some p => p now (Obj ev) (OldObj ev) | None => false end
  end.
Definition recovered (now : time) (s : MatcherSpec) (ev : IncomingK8sEvent) : bool :=
  match RecoveryPredicate s with Some p => p now (Obj ev) (OldObj ev) | None => false end.

(** ** Matching *)
Section matching.
Variables (now_rl now_churn : nat -> time) (now : time).

Definition build_match (e : Engine) (i : nat) (s : MatcherSpec) (ev : IncomingK8sEvent) : MatchResult :=
  let '(name, namespace, lowerKind, node) := SubjectFromObj (Kind ev) (Obj ev) in
  MkMatch i (Name s) (fingerprint_of now s (Obj ev))
    (match OccurrenceKeyFn s with Some f => f (Obj ev) | None => "" end)
    (ResolveOwner (Obj ev)) (name, namespace, lowerKind, node)
    ((match EnrichBlocks s with Some f => f now (Obj ev) (OldObj ev) (enrichContext e) | None => [] end)
     ++ fetchSubjectEvents now e (Kind ev) namespace name
     ++ fetchNodeEvents now e node ++ fetchNamespaceEvents now e namespace).

(** One iteration of the loop: whether spec [i] fires, and the limiter and
    suppressor afterwards. *)
Definition match_spec (e : Engine) (i : nat) (s : MatcherSpec) (ev : IncomingK8sEvent)
  (r : RateLimiter) (c : ChurnSuppressor) : bool * RateLimiter * ChurnSuppressor :=
  if negb (kindMatches (SpecKind s) (Kind ev)) then (false, r, c)
  else if negb (operationMatches (Operations s) (Operation ev)) then (false, r, c)
  else if recovered now s ev then
    (false, match FingerprintFn s with
            | Some _ => (Forget (limiter_key now s (Obj ev)) r).2
            | None => r
            end, c)
  else if negb (predicate_holds now s ev (enrichContext e)) then (false, r, c)
  else if SuppressOnResync s && suppressedByResync e (Obj ev) then (false, r, c)
  else match RateLimit.Allow (now_rl i) (limiter_key now s (Obj ev)) (RateLimit s) r with
  | (false, r') => (false, r', c)
  | (true, r') =>
    if SuppressChurn s then
      let '(allowed, _, c') := Churn.Allow (now_churn i) (limiter_key now s (Obj ev)) c in
      (allowed, r', c')
    else (true, r', c)
  end.

Fixpoint match_loop (e : Engine) (i : nat) (l : list MatcherSpec) (ev : IncomingK8sEvent)
  (r : RateLimiter) (c : ChurnSuppressor) : list MatchResult * RateLimiter * ChurnSuppressor :=
  match l with
  | [] => ([], r, c)
  | s :: l' =>
    let '(fired, r', c') := match_spec e i s ev r c in
    let '(ms, r2, c2) := match_loop e (S i) l' ev r' c' in
    ((if fired then [build_match e i s ev] else []) ++ ms, r2, c2)
  end.

Definition Match (ev : IncomingK8sEvent) (e : Engine) : list MatchResult * Engine :=
  match Obj ev with
  | None => ([], e)
  | Some _ =>
    let '(ms, r, c) := match_loop e 0 (specs e) ev (rl e) (churn e) in
    (ms, MkEngine (specs e) r c (startTime e) (graceWindow e) (eventsLister e) (serviceBackends e))
  end.
End matching.

(** ** Overrides *)
Definition with_rate_limit (w : duration) (s : MatcherSpec) : MatcherSpec :=
  MkSpec (Name s) (SpecKind s) (Operations s) (Predicate s) (PredicateCtx s) (RecoveryPredicate s)
    (AggregationKey s) (Priority s) (FindingType s) w (FingerprintFn s) (OccurrenceKeyFn s)
    (SuppressChurn s) (SuppressOnResync s) (EnrichBlocks s).

(** The specs after the overrides, the names applied and the names unknown. *)
Definition ApplyRateLimits (sp : list MatcherSpec) (overrides : list (string * duration))
  : list MatcherSpec * list string * list string :=
  match overrides with
  | [] => (sp, [], [])
  | _ =>
    (map (fun s => match assoc (Name s) overrides with
                   | Some w => with_rate_limit w s
                   | None => s
                   end) sp,
     sort_strings (List.filter (fun n => bool_decide (is_Some (assoc n overrides))) (map Name sp)),
     sort_strings (List.filter (fun n => negb (bool_decide (n ∈ map Name sp))) (map fst overrides)))
  end.

Definition MatcherNames (sp : list MatcherSpec) : list string := sort_strings (map Name sp).

(** ** Limiter traffic of an event *)
Section traffic.
Variables (now_rl now_churn : nat -> time) (now : time).

(** Whether the event gets past every filter in front of the limiter. *)
Definition reaches_limiter (e : Engine) (s : MatcherSpec) (ev : IncomingK8sEvent) : bool :=
  kindMatches (SpecKind s) (Kind ev) && operationMatches (Operations s) (Operation ev)
  && negb (recovered now s ev) && predicate_holds now s ev (enrichContext e)
  && negb (SuppressOnResync s && suppressedByResync e (Obj ev)).

Definition spec_ops (e : Engine) (i : nat) (s : MatcherSpec) (ev : IncomingK8sEvent) : list op :=
  if kindMatches (SpecKind s) (Kind ev) && operationMatches (Operations s) (Operation ev)
     && recovered now s ev
  then match FingerprintFn s with Some _ => [OForget (limiter_key now s (Obj ev))] | None => [] end
  else if reaches_limiter e s ev then [OAllow (now_rl i) (limiter_key now s (Obj ev)) (RateLimit s)]
  else [].

Fixpoint loop_ops (e : Engine) (i : nat) (l : list MatcherSpec) (ev : IncomingK8sEvent) : list op :=
  match l with
  | [] => []
  | s :: l' => spec_ops e i s ev ++ loop_ops e (S i) l' ev
  end.

Lemma match_spec_rl e i s ev r c :
  (match_spec now_rl now_churn now e i s ev r c).1.2 = foldl apply_op r (spec_ops e i s ev).
Proof.
  unfold match_spec, spec_ops, reaches_limiter.
  destruct (kindMatches _ _); [|done]. destruct (operationMatches _ _); [|done]. simpl.
  destruct (recovered now s ev); simpl; [by destruct (FingerprintFn s)|].
  destruct (predicate_holds _ _ _); [|done]. simpl. destruct (_ && _); [done|]. simpl.
  destruct (RateLimit.Allow _ _ _ r) as [[] r']; [|done].
  destruct (SuppressChurn s); [|done]. by destruct (Churn.Allow _ _ c) as [[? ?] ?].
Qed.

Lemma match_spec_fires e i s ev r c :
  (match_spec now_rl now_churn now e i s ev r c).1.1 = true ->
  reaches_limiter e s ev = true
  /\ (RateLimit.Allow (now_rl i) (limiter_key now s (Obj ev)) (RateLimit s) r).1 = true.
Proof.
  unfold match_spec, reaches_limiter.
  destruct (kindMatches _ _); [|done]. destruct (operationMatches _ _); [|done]. simpl.
  destruct (recovered now s ev); simpl; [done|].
  destruct (predicate_holds _ _ _); [|done]. simpl. destruct (_ && _); [done|]. simpl.
  by destruct (RateLimit.Allow _ _ _ r) as [[] r'].
Qed.

Lemma spec_ops_reaches e i s ev : reaches_limiter e s ev = true ->
  spec_ops e i s ev = [OAllow (now_rl i) (limiter_key now s (Obj ev)) (RateLimit s)].
Proof.
  unfold spec_ops. intros H. rewrite H. unfold reaches_limiter in H.
  rewrite !andb_true_iff in H. destruct H as [[[[-> ->] Hr%negb_true_iff] _] _]. by rewrite Hr.
Qed.

Lemma spec_ops_length e i s ev : (length (spec_ops e i s ev) <= 1)%nat.
Proof.
  unfold spec_ops. destruct (_ && _); [destruct (FingerprintFn s); simpl; lia|].
  destruct (reaches_limiter e s ev); simpl; lia.
Qed.
Lemma loop_ops_length e i l ev : (length (loop_ops e i l ev) <= length l)%nat.
Proof.
  revert i. induction l as [|s l IH]; intros i; simpl; [lia|]. rewrite length_app.
  pose proof (spec_ops_length e i s ev). specialize (IH (S i)). lia.
Qed.

Lemma loop_ops_app e i l l' ev :
  loop_ops e i (l ++ l') ev = loop_ops e i l ev ++ loop_ops e (i + length l) l' ev.
Proof.
  revert i. induction l as [|s l IH]; intros i; simpl; [by rewrite Nat.add_0_r|].
  rewrite IH. by rewrite app_assoc, Nat.add_succ_r.
Qed.

Lemma match_loop_rl e i l ev r c :
  (match_loop now_rl now_churn now e i l ev r c).1.2 = foldl apply_op r (loop_ops e i l ev).
Proof.
  revert i r c. induction l as [|s l IH]; intros i r c; [done|]. simpl.
  pose proof (match_spec_rl e i s ev r c) as Hs.
  destruct (match_spec _ _ _ e i s ev r c) as [[f r'] c']. simpl in Hs. subst r'.
  specialize (IH (S i) (foldl apply_op r (spec_ops e i s ev)) c').
  destruct (match_loop _ _ _ e (S i) l ev _ c') as [[ms r2] c2]. simpl in *.
  by rewrite foldl_app.
Qed.

Lemma match_loop_fires e i l ev r c m :
  m ∈ (match_loop now_rl now_churn now e i l ev r c).1.1 ->
  exists j s, l !! j = Some s /\ m = build_match now e (i + j) s ev
    /\ reaches_limiter e s ev = true
    /\ (RateLimit.Allow (now_rl (i + j)) (limiter_key now s (Obj ev)) (RateLimit s)
          (foldl apply_op r (loop_ops e i (take j l) ev))).1 = true.
Proof.
  revert i r c. induction l as [|s l IH]; intros i r c; simpl; [set_solver|].
  pose proof (match_spec_rl e i s ev r c) as Hs. pose proof (match_spec_fires e i s ev r c) as Hf.
  destruct (match_spec _ _ _ e i s ev r c) as [[f r'] c']. simpl in Hs, Hf. subst r'.
  specialize (IH (S i) (foldl apply_op r (spec_ops e i s ev)) c').
  destruct (match_loop _ _ _ e (S i) l ev _ c') as [[ms r2] c2]. simpl in *.
  intros [Hm|Hm]%elem_of_app.
  - destruct f; [|set_solver]. apply list_elem_of_singleton in Hm as ->.
    exists 0%nat, s. rewrite Nat.add_0_r. destruct (Hf eq_refl). split_and!; done.
  - destruct (IH Hm) as (j & s' & Hl & -> & Hr & Ha). exists (S j), s'.
    rewrite Nat.add_succ_r. simpl. rewrite foldl_app. split_and!; done.
Qed.
End traffic.
