(* ===== verification/EngineSafety.v ===== *)
(** * Properties of the trigger engine

    What a fired match guarantees, and how the limiter behaves across a
    sequence of events. *)

From S2P Require Import Prelude GoText GoJson GoStruct GoTime Lru RateLimit Churn Owner Engine.

Set Default Proof Using "Type".

(** An event with the clock readings made while it is matched. *)
Record arrival := MkArrival {
  a_rl : nat -> time;
  a_churn : nat -> time;
  a_now : time;
  a_event : IncomingK8sEvent
}.
Definition matches (a : arrival) (e : Engine) : list MatchResult :=
  (Match (a_rl a) (a_churn a) (a_now a) (a_event a) e).1.
Definition after (e : Engine) (a : arrival) : Engine :=
  (Match (a_rl a) (a_churn a) (a_now a) (a_event a) e).2.

Definition arrival_ops (e : Engine) (a : arrival) : list op :=
  match Obj (a_event a) with
  | None => []
  | Some _ => loop_ops (a_rl a) (a_now a) e 0 (specs e) (a_event a)
  end.

(** Matching changes the limiter and the suppressor only. *)
Definition config (e : Engine) :=
  (specs e, startTime e, graceWindow e, eventsLister e, serviceBackends e).

Lemma after_rl e a : rl (after e a) = foldl apply_op (rl e) (arrival_ops e a)
  /\ config (after e a) = config e.
Proof.
  unfold after, Match, arrival_ops. destruct (Obj (a_event a)) eqn:Eo; [|done].
  pose proof (match_loop_rl (a_rl a) (a_churn a) (a_now a) e 0 (specs e) (a_event a) (rl e) (churn e)) as H.
  destruct (match_loop _ _ _ e 0 _ _ _ _) as [[ms r] c]. simpl in *. by subst.
Qed.

Lemma spec_ops_config now_rl now e e' i s ev : config e = config e' ->
  spec_ops now_rl now e i s ev = spec_ops now_rl now e' i s ev.
Proof.
  unfold config. intros [= _ H1 H2 H3 H4].
  unfold spec_ops, reaches_limiter, enrichContext, suppressedByResync. by rewrite H1, H2, H3, H4.
Qed.

Lemma arrival_ops_config e e' a : config e = config e' -> arrival_ops e a = arrival_ops e' a.
Proof.
  intros Hc. unfold arrival_ops. assert (specs e = specs e') as <- by (unfold config in Hc; congruence).
  destruct (Obj (a_event a)); [|done]. generalize 0%nat.
  induction (specs e) as [|s l' IH]; intros i; simpl; [done|].
  by rewrite (spec_ops_config _ _ e e') by done; rewrite IH.
Qed.

Lemma run_rl e l : rl (foldl after e l) = foldl apply_op (rl e) (concat (map (arrival_ops e) l))
  /\ config (foldl after e l) = config e.
Proof.
  revert e. induction l as [|a l IH]; intros e; [done|]. simpl.
  destruct (after_rl e a) as [Hr Hc]. destruct (IH (after e a)) as [-> ->].
  rewrite foldl_app, Hr. split; [|done]. f_equal. f_equal.
  apply map_ext. intros x. by apply arrival_ops_config.
Qed.

Lemma arrival_ops_length e a : (length (arrival_ops e a) <= length (specs e))%nat.
Proof. unfold arrival_ops. destruct (Obj _); simpl; [apply loop_ops_length|lia]. Qed.

Lemma run_ops_length e l :
  (length (concat (map (arrival_ops e) l)) <= length l * length (specs e))%nat.
Proof.
  induction l as [|a l IH]; simpl; [lia|]. rewrite length_app. pose proof (arrival_ops_length e a). lia.
Qed.

(** The event is handled before [until] and no matcher with this key sees a
    recovery in it. *)
Definition quiet (e : Engine) (k : string) (until : time) (a : arrival) : Prop :=
  (forall i, a_rl a i < until)
  /\ forall s, s ∈ specs e -> recovered (a_now a) s (a_event a) = true ->
       limiter_key (a_now a) s (Obj (a_event a)) <> k.

Lemma quiet_spares e k until a i l : quiet e k until a -> (forall s, s ∈ l -> s ∈ specs e) ->
  Forall (spares k until) (loop_ops (a_rl a) (a_now a) e i l (a_event a)).
Proof.
  intros [Ht Hrec]. revert i. induction l as [|s l IH]; intros i Hl; simpl; [constructor|].
  apply Forall_app. split; [|apply IH; set_solver]. unfold spec_ops.
  destruct (_ && _) eqn:Eb.
  - apply andb_prop in Eb as [_ Hr]. destruct (FingerprintFn s); [|constructor].
    apply Forall_singleton. simpl. apply Hrec; [set_solver|done].
  - destruct (reaches_limiter _ _ _); [|constructor]. apply Forall_singleton. simpl. intros _. apply Ht.
Qed.

Lemma quiet_specs e e' k until a : specs e = specs e' -> quiet e k until a -> quiet e' k until a.
Proof. unfold quiet. by intros ->. Qed.

Lemma quiet_run e k until l : Forall (quiet e k until) l ->
  Forall (spares k until) (concat (map (arrival_ops e) l)).
Proof.
  induction 1 as [|a l Ha _ IH]; simpl; [constructor|]. apply Forall_app. split; [|done].
  unfold arrival_ops. destruct (Obj _); [|constructor]. by apply quiet_spares.
Qed.

Lemma build_match_spec now e i s ev : m_spec (build_match now e i s ev) = i.
Proof. unfold build_match. by destruct (SubjectFromObj _ _) as [[[? ?] ?] ?]. Qed.

Lemma matches_inv a e m : m ∈ matches a e ->
  exists i s, specs e !! i = Some s /\ m = build_match (a_now a) e i s (a_event a)
    /\ arrival_ops e a = loop_ops (a_rl a) (a_now a) e 0 (specs e) (a_event a)
    /\ reaches_limiter (a_now a) e s (a_event a) = true
    /\ (RateLimit.Allow (a_rl a i) (limiter_key (a_now a) s (Obj (a_event a))) (RateLimit s)
          (foldl apply_op (rl e) (loop_ops (a_rl a) (a_now a) e 0 (take i (specs e)) (a_event a)))).1 = true.
Proof.
  unfold matches, Match, arrival_ops. destruct (Obj (a_event a)) eqn:Eo; [|set_solver].
  pose proof (match_loop_fires (a_rl a) (a_churn a) (a_now a) e 0 (specs e) (a_event a) (rl e) (churn e) m) as H.
  destruct (match_loop _ _ _ e 0 _ _ _ _) as [[ms r] c]. simpl in *. intros Hm.
  destruct (H Hm) as (j & s & Hl & -> & Hr & Ha). exists j, s. rewrite Eo in *. by split_and!.
Qed.

(** The limiter traffic of an event, around one matcher that reaches it. *)
Lemma ops_split e a i s : specs e !! i = Some s -> reaches_limiter (a_now a) e s (a_event a) = true ->
  loop_ops (a_rl a) (a_now a) e 0 (specs e) (a_event a)
  = loop_ops (a_rl a) (a_now a) e 0 (take i (specs e)) (a_event a)
    ++ OAllow (a_rl a i) (limiter_key (a_now a) s (Obj (a_event a))) (RateLimit s)
    :: loop_ops (a_rl a) (a_now a) e (S i) (drop (S i) (specs e)) (a_event a).
Proof.
  intros Hs Hr. rewrite <- (take_drop_middle (specs e) i s Hs) at 1.
  rewrite loop_ops_app. simpl. rewrite (spec_ops_reaches _ _ e _ s) by done.
  rewrite length_take_le by (apply lookup_lt_Some in Hs; lia). done.
Qed.

Lemma apply_ops_ok r ops : lru_ok e_key r -> lru_ok e_key (foldl apply_op r ops).
Proof. revert r. induction ops as [|o ops IH]; intros r H; [done|]. by apply IH, apply_op_ok. Qed.
Lemma apply_ops_capacity r ops : capacity (foldl apply_op r ops) = capacity r.
Proof. revert r. induction ops as [|o ops IH]; intros r; [done|]. simpl. by rewrite IH, apply_op_capacity. Qed.

(** ** Properties *)

(** The engine is sound: every match it returns comes from a registered
    matcher whose kind and operation filters accept the event, whose
    recovery test is false and whose predicate is true, which is not
    suppressed as a resync, and which the limiter lets through at that point
    of the loop; an event without an object matches nothing and changes
    nothing. *)
Theorem matches_are_sound a e :
  (forall m, m ∈ matches a e -> exists i s, specs e !! i = Some s
     /\ m = build_match (a_now a) e i s (a_event a)
     /\ kindMatches (SpecKind s) (Kind (a_event a)) = true
     /\ operationMatches (Operations s) (Operation (a_event a)) = true
     /\ recovered (a_now a) s (a_event a) = false
     /\ predicate_holds (a_now a) s (a_event a) (enrichContext e) = true
     /\ SuppressOnResync s && suppressedByResync e (Obj (a_event a)) = false
     /\ (RateLimit.Allow (a_rl a i) (limiter_key (a_now a) s (Obj (a_event a))) (RateLimit s)
           (foldl apply_op (rl e) (loop_ops (a_rl a) (a_now a) e 0 (take i (specs e)) (a_event a)))).1 = true)
  /\ (Obj (a_event a) = None -> matches a e = [] /\ after e a = e).
Proof.
  split.
  - intros m (i & s & Hl & -> & _ & Hr & Ha)%matches_inv. exists i, s.
    unfold reaches_limiter in Hr. rewrite !andb_true_iff, !negb_true_iff in Hr. tauto.
  - intros Eo. unfold matches, after, Match. by rewrite Eo.
Qed.

(** C6: one Finding per window, end to end: after a matcher with a rate
    limit has fired for a fingerprint, it does not fire again for that
    fingerprint before the window ends, through any sequence of events in
    which no recovery is seen for it, as long as the events times the
    matchers stay below the limiter's capacity. *)
Theorem fires_once_per_window e a1 between a2 i s m1 m2 :
  lru_ok e_key (rl e) -> specs e !! i = Some s -> 0 < RateLimit s ->
  ((2 + length between) * length (specs e) <= capacity (rl e))%nat ->
  m1 ∈ matches a1 e -> m_spec m1 = i ->
  Forall (quiet e (limiter_key (a_now a1) s (Obj (a_event a1))) (a_rl a1 i + RateLimit s)) (a1 :: between ++ [a2]) ->
  m2 ∈ matches a2 (foldl after (after e a1) between) -> m_spec m2 = i ->
  limiter_key (a_now a2) s (Obj (a_event a2)) <> limiter_key (a_now a1) s (Obj (a_event a1)).
Proof.
  intros Hok Hs Hw Hcap Hm1 Hi1 Hq Hm2 Hi2 Hkey.
  set (k := limiter_key (a_now a1) s (Obj (a_event a1))) in *. set (until := a_rl a1 i + RateLimit s) in *.
  apply Forall_cons in Hq as [Hq1 Hq]. apply Forall_app in Hq as [Hqb Hq2].
  rewrite Forall_singleton in Hq2.
  apply matches_inv in Hm1 as (i1 & s1 & Hs1 & -> & Ho1 & Hr1 & Ha1).
  rewrite build_match_spec in Hi1. subst i1. rewrite Hs in Hs1. injection Hs1 as <-.
  destruct (run_rl (after e a1) between) as [Hrl Hc]. destruct (after_rl e a1) as [Hrl1 Hc1].
  set (e2 := foldl after (after e a1) between) in *.
  assert (config e2 = config e) as Hc2 by congruence.
  assert (specs e2 = specs e) as Hsp by (unfold config in Hc2; congruence).
  apply matches_inv in Hm2 as (i2 & s2 & Hs2 & -> & Ho2 & Hr2 & Ha2).
  rewrite build_match_spec in Hi2. subst i2. rewrite Hsp, Hs in Hs2. injection Hs2 as <-.
  rewrite (ops_split e a1 i s Hs Hr1) in Ho1.
  set (pre := loop_ops (a_rl a1) (a_now a1) e 0 (take i (specs e)) (a_event a1)) in *.
  set (post := loop_ops (a_rl a1) (a_now a1) e (S i) (drop (S i) (specs e)) (a_event a1)) in *.
  set (mid := concat (map (arrival_ops (after e a1)) between)) in *.
  set (pre2 := loop_ops (a_rl a2) (a_now a2) e2 0 (take i (specs e2)) (a_event a2)) in *.
  rewrite Hrl, Hrl1, Ho1, foldl_app in Ha2. simpl in Ha2. rewrite Hkey in Ha2. fold k in Ha2.
  rewrite <- !foldl_app in Ha2.
  assert (specs (after e a1) = specs e) as Hsp1 by (unfold config in Hc1; congruence).
  rewrite window_suppresses in Ha2; [done|..].
  - by apply apply_ops_ok.
  - done.
  - done.
  - done.
  - rewrite apply_ops_capacity, !length_app.
    pose proof (run_ops_length (after e a1) between) as Hlm. fold mid in Hlm. rewrite Hsp1 in Hlm.
    pose proof (loop_ops_length (a_rl a1) (a_now a1) e (S i) (drop (S i) (specs e)) (a_event a1)) as Hlp.
    pose proof (loop_ops_length (a_rl a2) (a_now a2) e2 0 (take i (specs e2)) (a_event a2)) as Hl2.
    fold post in Hlp. fold pre2 in Hl2. rewrite length_drop in Hlp. rewrite Hsp, length_take in Hl2.
    apply lookup_lt_Some in Hs. lia.
  - rewrite !Forall_app. split_and!.
    + apply quiet_spares; [done|]. intros x Hx. rewrite <- (take_drop (S i) (specs e)). set_solver.
    + apply quiet_run. eapply Forall_impl; [exact Hqb|]. intros a. by apply (quiet_specs e (after e a1) k until a (eq_sym Hsp1)).
    + apply quiet_spares; [exact (quiet_specs e e2 k until a2 (eq_sym Hsp) Hq2)|]. intros x Hx. rewrite <- (take_drop i (specs e2)). set_solver.
  - apply Hq2.
Qed.

(** Recovery re-arms a matcher: after an event that a matcher with a
    fingerprint takes as a recovery, the next failing event with the same
    fingerprint fires at once, however recently the matcher had fired
    (matchers under churn suppression apart). *)
Theorem recovery_rearms now_rl now_churn now now_rl' now_churn' now' e i s ev ev' r c :
  lru_ok e_key r -> is_Some (FingerprintFn s) -> SuppressChurn s = false ->
  kindMatches (SpecKind s) (Kind ev) = true -> operationMatches (Operations s) (Operation ev) = true ->
  recovered now s ev = true ->
  fingerprint_of now' s (Obj ev') = fingerprint_of now s (Obj ev) -> reaches_limiter now' e s ev' = true ->
  let '(fired, r1, c1) := match_spec now_rl now_churn now e i s ev r c in
  fired = false /\ (match_spec now_rl' now_churn' now' e i s ev' r1 c1).1.1 = true.
Proof.
  intros Hok [f Hf] Hch Hk Ho Hr Hfp Hl. unfold match_spec at 1. rewrite Hk, Ho, Hr, Hf. simpl.
  split; [done|]. unfold match_spec, reaches_limiter in *. rewrite !andb_true_iff, !negb_true_iff in Hl.
  destruct Hl as [[[[-> ->] ->] ->] ->]. simpl.
  replace (limiter_key now' s (Obj ev')) with (limiter_key now s (Obj ev)) by (unfold limiter_key; by rewrite Hfp).
  pose proof (forgotten_allowed (now_rl' i) (limiter_key now s (Obj ev)) (RateLimit s) r Hok) as Ha.
  destruct (RateLimit.Allow _ _ _ _) as [[] r2]; [|done]. by rewrite Hch.
Qed.

(** The resync test compares with the start of the agent minus the grace
    window: an object is dropped as a resync exactly when its creation
    timestamp parses and lies more than the grace window before the start;
    in particular one created in the two minutes before the agent started,
    or after, is never dropped. *)
Theorem resync_boundary e meta obj :
  get_obj obj "metadata" = Some meta ->
  (suppressedByResync e obj = true <->
   exists t, parse_rfc3339 (get_str (Some meta) "creationTimestamp") = Some t
     /\ t < startTime e - graceWindow e).
Proof.
  intros Hm. unfold suppressedByResync. rewrite Hm.
  destruct (parse_rfc3339 _) as [t|]; [|naive_solver].
  unfold time_before, time_add. split.
  - intros. exists t. split; [done|lia].
  - intros (t' & [= <-] & ?). lia.
Qed.

(** Rate-limit overrides: a matcher named in the overrides gets that
    window and nothing else about it changes, the others are untouched, and
    the override names are divided into those applied and those unknown. *)
Theorem overrides_applied sp overrides :
  overrides <> [] ->
  let '(sp', applied, unknown) := ApplyRateLimits sp overrides in
  length sp' = length sp
  /\ (forall i s, sp !! i = Some s ->
        sp' !! i = Some (with_rate_limit (default (RateLimit s) (assoc (Name s) overrides)) s))
  /\ (forall n, n ∈ applied <-> n ∈ map Name sp /\ is_Some (assoc n overrides))
  /\ (forall n, n ∈ unknown <-> n ∈ map fst overrides /\ n ∉ map Name sp).
Proof.
  intros Hne. unfold ApplyRateLimits. destruct overrides as [|o os] eqn:Eo; [done|]. rewrite <- Eo in *.
  split_and!.
  - apply length_map.
  - intros i s Hs. rewrite list_lookup_fmap, Hs. simpl. f_equal.
    destruct (assoc (Name s) overrides); [done|]. by destruct s.
  - intros n. rewrite sort_strings_perm, elem_of_lfilter. by rewrite bool_decide_eq_true.
  - intros n. rewrite sort_strings_perm, elem_of_lfilter. rewrite negb_true_iff. by rewrite bool_decide_eq_false.
Qed.

(** ** Witnesses *)
Definition toy_spec : MatcherSpec :=
  MkSpec "toy" "Pod" ["update"]
    (Some (fun _ obj _ => bool_decide (get_str obj "phase" = "Failed"))) None
    (Some (fun _ obj _ => bool_decide (get_str obj "phase" = "Running")))
    "toy" "HIGH" "issue" hour (Some (fun _ obj => get_str (get_obj obj "metadata") "name")) None
    false false None.
Definition toy_engine : Engine :=
  MkEngine [toy_spec] (NewRateLimiter 8) (NewChurnSuppressor 8 0 0 0) 0 DefaultGraceWindow None None.
Definition toy_event (phase name : string) : IncomingK8sEvent :=
  MkEvent "update" "pod" (Some [("phase", JStr phase); ("metadata", JObj [("name", JStr name)])]) None.
Definition toy_arrival (t : time) (name : string) : arrival :=
  MkArrival (fun _ => t) (fun _ => t) t (toy_event "Failed" name).

Lemma fires_once_per_window_witness :
  limiter_key 7 toy_spec (Obj (toy_event "Failed" "b")) <> limiter_key 5 toy_spec (Obj (toy_event "Failed" "a")).
Proof.
  apply (fires_once_per_window toy_engine (toy_arrival 5 "a") [toy_arrival 6 "a"] (toy_arrival 7 "b") 0
           toy_spec
           (build_match 5 toy_engine 0 toy_spec (toy_event "Failed" "a"))
           (build_match 7 toy_engine 0 toy_spec (toy_event "Failed" "b"))).
  - apply empty_ok. simpl. lia.
  - reflexivity.
  - reflexivity.
  - simpl. lia.
  - apply list_elem_of_In. vm_compute. by left.
  - reflexivity.
  - repeat (apply Forall_cons; split; [split|]); try (by apply Forall_nil);
      try (intros i; by vm_compute); intros s ->%list_elem_of_singleton Hr; by vm_compute in Hr.
  - apply list_elem_of_In. vm_compute. by left.
  - reflexivity.
Defined.

Lemma recovery_rearms_witness :
  let r := (RateLimit.Allow 5 "toy:a" hour (NewRateLimiter 8)).2 in
  let '(fired, r1, c1) := match_spec (fun _ => 6) (fun _ => 6) 6 toy_engine 0 toy_spec
                            (toy_event "Running" "a") r (churn toy_engine) in
  fired = false
  /\ (match_spec (fun _ => 7) (fun _ => 7) 7 toy_engine 0 toy_spec (toy_event "Failed" "a") r1 c1).1.1 = true.
Proof.
  intros r.
  apply (recovery_rearms (fun _ => 6) (fun _ => 6) 6 (fun _ => 7) (fun _ => 7) 7 toy_engine 0 toy_spec
           (toy_event "Running" "a") (toy_event "Failed" "a") r (churn toy_engine)); try by vm_compute.
  - apply RateLimit.Allow_ok, empty_ok. simpl. lia.
  - by eexists.
Defined.

Lemma resync_boundary_witness :
  suppressedByResync (NewEngine [] (unix_to_internal + 600 * second))
    (Some [("metadata", JObj [("creationTimestamp", JStr "1970-01-01T00:00:00Z")])]) = true.
Proof.
  apply (resync_boundary (NewEngine [] (unix_to_internal + 600 * second))
           [("creationTimestamp", JStr "1970-01-01T00:00:00Z")]); [done|].
  exists unix_to_internal. split; by vm_compute.
Defined.

Lemma overrides_applied_witness :
  let '(sp', applied, unknown) := ApplyRateLimits [toy_spec] [("toy", minute); ("typo", hour)] in
  length sp' = 1%nat
  /\ (forall i s, [toy_spec] !! i = Some s ->
        sp' !! i = Some (with_rate_limit (default (RateLimit s) (assoc (Name s) [("toy", minute); ("typo", hour)])) s))
  /\ (forall n, n ∈ applied <-> n ∈ map Name [toy_spec] /\ is_Some (assoc n [("toy", minute); ("typo", hour)]))
  /\ (forall n, n ∈ unknown <-> n ∈ map fst [("toy", minute); ("typo", hour)] /\ n ∉ map Name [toy_spec]).
Proof. by apply (overrides_applied [toy_spec] [("toy", minute); ("typo", hour)]). Defined.
