(* ===== verification/Config.v ===== *)
(** * Configuration (pkg/config)

    The environment variables of the agent, the parsers of the lists some of
    them hold, and what a malformed entry does. *)

From S2P Require Import Prelude GoText GoJson GoStruct GoUrl GoTime GoDuration Engine.

#[local] Set Default Proof Using "Type".

(** ** Lists in one variable *)

(** A trimmed piece at its first separator, with a name before it. *)
Definition name_and_value (sep : Z) (piece : string) : option (string * string) :=
  let pair := trim_space piece in
  if bool_decide (pair = "") then None
  else match cut sep pair with
       | Some (name, value) => if bool_decide (name = "") then None else Some (trim_space name, trim_space value)
       | None => None
       end.
Definition collect {A} (entry : string -> option (string * A)) (pieces : list string) : list (string * A) :=
  foldl (fun out piece => match entry piece with Some kv => mset kv.1 kv.2 out | None => out end) [] pieces.
Definition window_entry (piece : string) : option (string * duration) :=
  match name_and_value 61 piece with
  | Some (name, value) =>
    match ParseDuration value with
    | Some d => if (d <=? 0) || bool_decide (name = "") then None else Some (name, d)
    | None => None
    end
  | None => None
  end.
Definition ParseTriggerRateLimits (s : string) : list (string * duration) :=
  if bool_decide (s = "") then [] else collect window_entry (split_at "," s).
Definition target_entry (piece : string) : option (string * string) :=
  match name_and_value 61 piece with
  | Some (k, v) => if bool_decide (k = "") then None else Some (k, v)
  | None => None
  end.
Definition ParseTargets (s : string) : list (string * string) :=
  if bool_decide (s = "") then [] else collect target_entry (split_at ";" s).

(** [http.Header.Add]. *)
Definition header := list (string * list string).
Definition add_header (h : header) (k v : string) : header :=
  let k := CanonicalMIMEHeaderKey k in mset k (default [] (assoc k h) ++ [v]) h.
Definition looks_like_header (piece : string) : bool :=
  let part := trim_space piece in
  bool_decide (part = "") || match cut 58 part with Some (name, _) => negb (bool_decide (name = "")) | None => false end.
Definition HeadersUseLegacyCommaSplit (s : string) : bool :=
  if contains_byte ";" s || negb (contains_byte "," s) then false else forallb looks_like_header (split_at "," s).
Definition ParseHeaders (s : string) : header :=
  if bool_decide (s = "") then []
  else
    let sep := if HeadersUseLegacyCommaSplit s then ","%char else ";"%char in
    foldl (fun h part => match name_and_value 58 part with
                         | Some (k, v) => if bool_decide (k = "") then h else add_header h k v
                         | None => h
                         end) [] (split_at sep s).

(** ** The variables *)
Record Config := MkConfig {
  AuthSecretKey : string; RelayURL : string; BackendEndpoint : string; AccountID : string; ClusterName : string; PrometheusURL : string;
  PrometheusHeaders : string; LokiURL : string; LokiHeaders : string; LokiUsername : string; LokiPassword : string;
  CoralogixPrometheusToken : string; AWSAccessKey : string; AWSSecretAccessKey : string; AWSServiceName : string; AWSRegion : string;
  AzureUseManagedID : string; AzureClientSecret : string; AzureClientID : string; AzureTenantID : string; AzureResource : string;
  AzureMetadataEndpoint : string; AzureTokenEndpoint : string; ElasticsearchURL : string; ElasticsearchUser : string;
  ElasticsearchPassword : string; ElasticsearchAPIKey : string; ElasticsearchHeaders : string; ElasticsearchEnabled : bool;
  ElasticsearchSSLVerify : bool; SignozURL : string; SignozAPIKey : string; SignozUser : string; SignozPassword : string;
  JaegerURL : string; JaegerToken : string; ChronosphereURL : string; ChronosphereAPIKey : string; PinotURL : string;
  PinotAuthToken : string; PinotUsername : string; PinotPassword : string; HTTPProxyTargets : string; LokiRulesURL : string;
  GCPEnabled : bool; GCPProjectID : string; HTTPListenAddr : string; PprofEnabled : bool; DiscoveryEnabled : bool;
  DiscoveryResync : duration; AlertRulesInterval : duration; DiscoverySnapshotBatching : bool; DiscoveryBatchSize : Z;
  IncrementalBatchSize : Z; IncrementalBatchWindow : duration; EmitTombstones : bool; ForwardPoolSize : Z; KubewatchWorkers : Z;
  KubewatchQueueSize : Z; KubewatchQueueMaxBytes : Z; TriggerEventsCache : bool; RelayHandlerPoolSize : Z;
  TriggerRateLimits : list (string * duration); KubeEnabled : bool; KubectlAllowWrite : bool; ScannersEnabled : bool;
  ScannerNamespace : string; ScannerServiceAccount : string; ScannerAutoCopyPullSecrets : bool; PodExecEnabled : bool;
  MutateEnabled : bool; AlertManagerURL : string; RSAPrivateKeyPath : string; RelaySigningPublicKey : string; ClickHouseEnabled : bool;
  ClickHouseHost : string; ClickHousePort : Z; ClickHouseUser : string; ClickHousePassword : string; ClickHouseDB : string;
  ClickHouseSSL : bool; ServiceMapSource : string; ClickHouseLogsDatabase : string; ClickHouseLogsTable : string;
  ClickHouseLogsCollected : bool; ClickHouseReaderUser : string }.

Section env.
(** [os.Getenv]. *)
Context (Getenv : string -> string).
Definition cmp (a fallback : string) : string := if bool_decide (a = "") then fallback else a.
Definition envBool (name : string) (fallback : bool) : bool :=
  if bool_decide (Getenv name = "true") then true else if bool_decide (Getenv name = "false") then false else fallback.
Definition envInt (name : string) (fallback : Z) : Z := default fallback (atoi (Getenv name)).
Definition parseDuration (s : string) (fallback : duration) : duration := default fallback (ParseDuration s).
Definition config_of_env : Config :=
  {| AuthSecretKey := Getenv "NUDGEBEE_AUTH_SECRET_KEY"; RelayURL := Getenv "WEBSOCKET_RELAY_ADDRESS";
     BackendEndpoint := Getenv "NUDGEBEE_ENDPOINT"; AccountID := Getenv "ACCOUNT_ID"; ClusterName := Getenv "CLUSTER_NAME";
     PrometheusURL := Getenv "PROMETHEUS_URL"; PrometheusHeaders := Getenv "PROMETHEUS_HEADERS"; LokiURL := Getenv "LOKI_URL";
     LokiHeaders := Getenv "LOKI_EXTRA_HEADER"; LokiUsername := Getenv "LOKI_USERNAME"; LokiPassword := Getenv "LOKI_PASSWORD";
     CoralogixPrometheusToken := Getenv "CORALOGIX_PROMETHEUS_TOKEN"; AWSAccessKey := Getenv "AWS_ACCESS_KEY";
     AWSSecretAccessKey := Getenv "AWS_SECRET_ACCESS_KEY"; AWSServiceName := cmp (Getenv "AWS_SERVICE_NAME") "aps";
     AWSRegion := Getenv "AWS_REGION"; AzureUseManagedID := Getenv "AZURE_USE_MANAGED_ID";
     AzureClientSecret := Getenv "AZURE_CLIENT_SECRET"; AzureClientID := Getenv "AZURE_CLIENT_ID";
     AzureTenantID := Getenv "AZURE_TENANT_ID"; AzureResource := cmp (Getenv "AZURE_RESOURCE") "https://prometheus.monitor.azure.com";
     AzureMetadataEndpoint := cmp (Getenv "AZURE_METADATA_ENDPOINT") "http://169.254.169.254/metadata/identity/oauth2/token";
     AzureTokenEndpoint := cmp (Getenv "AZURE_TOKEN_ENDPOINT")
       ("https://login.microsoftonline.com/" +:+ Getenv "AZURE_TENANT_ID" +:+ "/oauth2/token"); ElasticsearchURL := Getenv "ELASTICSEARCH_URL";
     ElasticsearchUser := Getenv "ELASTICSEARCH_USERNAME"; ElasticsearchPassword := Getenv "ELASTICSEARCH_PASSWORD";
     ElasticsearchAPIKey := Getenv "ELASTICSEARCH_APIKEY"; ElasticsearchHeaders := Getenv "ELASTICSEARCH_HEADERS";
     ElasticsearchEnabled := envBool "ELASTICSEARCH_ENABLED" false; ElasticsearchSSLVerify := envBool "ELASTICSEARCH_SSL_VERIFY" false;
     SignozURL := Getenv "SIGNOZ_URL"; SignozAPIKey := Getenv "SIGNOZ_API_KEY"; SignozUser := Getenv "SIGNOZ_USER";
     SignozPassword := Getenv "SIGNOZ_PASSWORD"; JaegerURL := cmp (Getenv "JAEGER_URL") (Getenv "JAEGER_QUERY_URL");
     JaegerToken := Getenv "JAEGER_TOKEN"; ChronosphereURL := Getenv "CHRONOSPHERE_URL";
     ChronosphereAPIKey := Getenv "CHRONOSPHERE_API_KEY"; PinotURL := Getenv "PINOT_URL"; PinotAuthToken := Getenv "PINOT_AUTH_TOKEN";
     PinotUsername := Getenv "PINOT_USERNAME"; PinotPassword := Getenv "PINOT_PASSWORD"; HTTPProxyTargets := Getenv "HTTP_PROXY_TARGETS";
     LokiRulesURL := Getenv "LOKI_RULES_URL"; GCPEnabled := envBool "GCP_ENABLED" false; GCPProjectID := Getenv "GCP_PROJECT_ID";
     HTTPListenAddr := cmp (Getenv "HTTP_LISTEN_ADDR") ":5000"; PprofEnabled := envBool "PPROF_ENABLED" false;
     DiscoveryEnabled := envBool "DISCOVERY_ENABLED" true; DiscoveryResync := parseDuration (Getenv "DISCOVERY_RESYNC") (1800 * second);
     AlertRulesInterval := parseDuration (Getenv "ALERT_RULES_INTERVAL") (1800 * second);
     DiscoverySnapshotBatching := envBool "DISCOVERY_SNAPSHOT_BATCHING" false; DiscoveryBatchSize := envInt "DISCOVERY_BATCH_SIZE" 1000;
     IncrementalBatchSize := envInt "DISCOVERY_INCREMENTAL_BATCH_SIZE" 1;
     IncrementalBatchWindow := parseDuration (Getenv "DISCOVERY_INCREMENTAL_BATCH_WINDOW") 0;
     EmitTombstones := envBool "DISCOVERY_EMIT_TOMBSTONES" false; ForwardPoolSize := envInt "FORWARD_POOL_SIZE" 64;
     KubewatchWorkers := envInt "KUBEWATCH_WORKERS" 8; KubewatchQueueSize := envInt "KUBEWATCH_QUEUE_SIZE" 2048;
     KubewatchQueueMaxBytes := envInt "KUBEWATCH_QUEUE_MAX_BYTES" 67108864; TriggerEventsCache := envBool "TRIGGER_EVENTS_CACHE" true;
     RelayHandlerPoolSize := envInt "RELAY_HANDLER_POOL_SIZE" 32;
     TriggerRateLimits := ParseTriggerRateLimits (Getenv "TRIGGER_RATE_LIMITS"); KubeEnabled := envBool "KUBE_ENABLED" true;
     KubectlAllowWrite := envBool "KUBECTL_ALLOW_WRITE" false; ScannersEnabled := envBool "SCANNERS_ENABLED" false;
     ScannerNamespace := cmp (Getenv "SCANNER_NAMESPACE") "nudgebee-agent"; ScannerServiceAccount := Getenv "SCANNER_SERVICE_ACCOUNT";
     ScannerAutoCopyPullSecrets := envBool "SCANNER_AUTO_COPY_PULL_SECRETS" true; PodExecEnabled := envBool "PODEXEC_ENABLED" true;
     MutateEnabled := envBool "MUTATE_ENABLED" false; AlertManagerURL := Getenv "ALERTMANAGER_URL";
     RSAPrivateKeyPath := Getenv "RSA_PRIVATE_KEY_PATH"; RelaySigningPublicKey := Getenv "RELAY_SIGNING_PUBLIC_KEY";
     ClickHouseEnabled := envBool "CLICKHOUSE_ENABLED" true; ClickHouseHost := Getenv "CLICKHOUSE_HOST";
     ClickHousePort := envInt "CLICKHOUSE_PORT" 8123; ClickHouseUser := Getenv "CLICKHOUSE_USER";
     ClickHousePassword := Getenv "CLICKHOUSE_PASSWORD"; ClickHouseDB := cmp (Getenv "CLICKHOUSE_DB") "default";
     ClickHouseSSL := envBool "CLICKHOUSE_SSL_ENABLED" false; ServiceMapSource := cmp (Getenv "SERVICE_MAP_SOURCE") "prometheus";
     ClickHouseLogsDatabase := cmp (Getenv "CLICKHOUSE_LOGS_DATABASE") (cmp (Getenv "CLICKHOUSE_DB") "default"); ClickHouseLogsTable := cmp (Getenv "CLICKHOUSE_LOGS_TABLE") "otel_logs";
     ClickHouseLogsCollected := envBool "CLICKHOUSE_LOGS_COLLECTED" false; ClickHouseReaderUser := Getenv "CLICKHOUSE_READER_USER" |}.
Definition FromEnv : result Config :=
  if bool_decide (RelayURL config_of_env = "") then Err "WEBSOCKET_RELAY_ADDRESS not set"
  else if bool_decide (AuthSecretKey config_of_env = "") then Err "NUDGEBEE_AUTH_SECRET_KEY not set"
  else Ok config_of_env.
End env.

(** ** Lists of entries *)
Lemma split_whole sep s : contains_byte sep s = false -> split_at sep s = [s].
Proof.
  induction s as [|c s IH]; [done|]. cbn [split_at]. unfold contains_byte. simpl. intros [Hc Hs]%orb_false_elim. rewrite Hc. by rewrite (IH Hs).
Qed.
Lemma split_app sep s t : contains_byte sep s = false -> split_at sep (s +:+ String sep t) = s :: split_at sep t.
Proof.
  induction s as [|c s IH]; intros Hs.
  - rewrite app_nil_l. cbn [split_at]. by rewrite bool_decide_eq_true_2.
  - rewrite app_cons. cbn [split_at]. unfold contains_byte in Hs. simpl in Hs. apply orb_false_elim in Hs as [Hc Hs]. rewrite Hc. by rewrite (IH Hs).
Qed.
(** Joining and splitting at a separator that is in no piece. *)
Lemma split_join sep pieces : Forall (fun p => contains_byte sep p = false) pieces -> pieces <> [] ->
  split_at sep (join (String sep "") pieces) = pieces.
Proof.
  induction 1 as [|p pieces Hp Hps IH]; [done|]. intros _. destruct pieces as [|q pieces]; [by apply split_whole|].
  change (join _ (p :: q :: pieces)) with (p +:+ String sep "" +:+ join (String sep "") (q :: pieces)). rewrite app_cons, app_nil_l.
  rewrite split_app by done. f_equal. by apply IH.
Qed.
Lemma collect_skip {A} (entry : string -> option (string * A)) l1 bad l2 : entry bad = None -> collect entry (l1 ++ bad :: l2) = collect entry (l1 ++ l2).
Proof. intros Hb. unfold collect. rewrite !foldl_app. cbn [foldl]. by rewrite Hb. Qed.
Definition named_entry {A} (entry : string -> option (string * A)) (n piece : string) : option A :=
  kv ← entry piece; if bool_decide (kv.1 = n) then Some kv.2 else None.
(** The last entry of a name counts. *)
Lemma assoc_collect {A} (entry : string -> option (string * A)) n pieces : assoc n (collect entry pieces) = last (omap (named_entry entry n) pieces).
Proof.
  unfold collect. induction pieces as [|p pieces IH] using rev_ind; [done|]. rewrite foldl_app, omap_app. cbn [foldl omap list_omap].
  unfold named_entry at 2. destruct (entry p) as [[k v]|]; cbn [mbind option_bind fst snd]; [|by rewrite app_nil_r].
  rewrite assoc_mset. case_bool_decide as Hk.
  - rewrite decide_True by done. by rewrite last_snoc.
  - rewrite decide_False by done. by rewrite app_nil_r.
Qed.
Lemma collect_Forall {A} (P : string * A -> Prop) (entry : string -> option (string * A)) pieces :
  (forall p kv, entry p = Some kv -> P kv) -> Forall P (collect entry pieces).
Proof.
  intros He. unfold collect. induction pieces as [|p pieces IH] using rev_ind; [by constructor|]. rewrite foldl_app. cbn [foldl].
  destruct (entry p) as [[k v]|] eqn:E; [|done]. apply He in E. revert IH. generalize (foldl (fun out piece => match entry piece with Some kv => mset kv.1 kv.2 out | None => out end) [] pieces).
  intros m Hm. cbn. induction Hm as [|[k' v'] m Hkv Hm IH]; cbn; [by repeat constructor|]. case_match; by constructor.
Qed.
Lemma window_entry_positive p kv : window_entry p = Some kv -> 0 < kv.2 /\ kv.1 <> "".
Proof.
  unfold window_entry. destruct (name_and_value 61 p) as [[n v]|]; [|done]. destruct (ParseDuration v) as [d|]; [|done].
  destruct (Z.leb_spec d 0); cbn; [done|]. case_bool_decide; [done|]. by intros [= <-].
Qed.
Lemma windows_of_text s : ParseTriggerRateLimits s = collect window_entry (split_at "," s).
Proof. unfold ParseTriggerRateLimits. by case_bool_decide; subst. Qed.

(** The rate limits cannot be switched off, and a typo in one entry of
    TRIGGER_RATE_LIMITS leaves the others alone.  Whatever the variable
    holds, matchers with positive windows keep positive windows; a malformed
    entry changes nothing, wherever it stands; and a matcher whose name has
    well-formed entries gets the window of the last of them. *)
Theorem rate_limits_stay_on (sp : list MatcherSpec) s : Forall (fun m => 0 < RateLimit m) sp ->
  Forall (fun m => 0 < RateLimit m) (ApplyRateLimits sp (ParseTriggerRateLimits s)).1.1 /\
  (forall l1 bad l2, Forall (fun p => contains_byte "," p = false) (l1 ++ bad :: l2) -> window_entry bad = None ->
     ParseTriggerRateLimits (join "," (l1 ++ bad :: l2)) = ParseTriggerRateLimits (join "," (l1 ++ l2))) /\
  (forall i m, sp !! i = Some m -> exists m', (ApplyRateLimits sp (ParseTriggerRateLimits s)).1.1 !! i = Some m' /\ Name m' = Name m /\
     RateLimit m' = default (RateLimit m) (last (omap (named_entry window_entry (Name m)) (split_at "," s)))).
Proof.
  intros Hsp. pose (over := fun m => match assoc (Name m) (ParseTriggerRateLimits s) with Some w => with_rate_limit w m | None => m end).
  assert ((ApplyRateLimits sp (ParseTriggerRateLimits s)).1.1 = map over sp) as ->.
  { unfold over, ApplyRateLimits. destruct (ParseTriggerRateLimits s) as [|kv l]; [|done]. cbn. symmetry. apply List.map_id. }
  split_and!.
  - apply Forall_map. eapply Forall_impl; [exact Hsp|]. intros m Hm. unfold over.
    destruct (assoc (Name m) _) as [w|] eqn:E; [|done]. apply assoc_In in E. cbn.
    assert (Forall (fun kv => 0 < kv.2) (ParseTriggerRateLimits s)) as Hall
      by (rewrite windows_of_text; apply collect_Forall; intros p kv Hp; by destruct (window_entry_positive p kv Hp)).
    rewrite Forall_forall in Hall. apply (Hall _ E).
  - intros l1 bad l2 Hc Hb. rewrite !windows_of_text, (split_join "," (l1 ++ bad :: l2)); [|done|by destruct l1].
    rewrite (collect_skip _ l1 bad l2 Hb). destruct (decide (l1 ++ l2 = [])) as [->|Hne]; [done|]. rewrite split_join; [done| |done].
    apply Forall_app in Hc as [H1 [_ H2]%Forall_cons]. by apply Forall_app.
  - intros i m Hi. exists (over m). change (map over sp) with (over <$> sp). rewrite list_lookup_fmap, Hi. split; [done|].
    unfold over. rewrite windows_of_text, assoc_collect. by destruct (last _).
Qed.

(** ** Sample *)
Definition sample_spec : MatcherSpec :=
  MkSpec "pod_oom_killed" "Pod" [] None None None "" "" "" (3600 * second) None None false false None.
Example sample_windows : map (fun m => RateLimit m) (ApplyRateLimits [sample_spec] (ParseTriggerRateLimits "pod_oom_killed=5m,x=0s,typo=, pod_oom_killed = 1m30s")).1.1
  = [90 * second].
Proof. vm_compute. reflexivity. Qed.
Lemma rate_limits_stay_on_witness :
  Forall (fun m => 0 < RateLimit m) (ApplyRateLimits [sample_spec] (ParseTriggerRateLimits "pod_oom_killed=0s")).1.1 /\
  window_entry "pod_oom_killed=0s" = None /\ ParseTriggerRateLimits (join "," (["a=1s"] ++ "pod_oom_killed=0s" :: [])) = ParseTriggerRateLimits (join "," (["a=1s"] ++ [])).
Proof.
  assert (Forall (fun m => 0 < RateLimit m) [sample_spec]) as Hs by (constructor; [done|constructor]).
  destruct (rate_limits_stay_on [sample_spec] "pod_oom_killed=0s" Hs) as (H1 & H2 & _). split; [exact H1|]. split; [reflexivity|].
  apply H2; [|reflexivity]. repeat constructor.
Defined.
Example header_lists : map ParseHeaders ["accept: text/html, application/json"; "X-a: 1, x-A: 2"; "X-A: 1,2; B:3"]
  = [[("Accept", ["text/html, application/json"])]; [("X-A", ["1"; "2"])]; [("X-A", ["1,2"]); ("B", ["3"])]].
Proof. vm_compute. reflexivity. Qed.
