(* ===== verification/Predicates.v ===== *)
(** * Built-in matchers on pods, jobs and nodes (pkg/triggers/predicates.go)

    The object walks of the predicates, their fingerprints and the evidence
    blocks.  Functions that read the clock take the reading as an argument.
    Their properties follow at the end. *)

From S2P Require Import Prelude GoText GoJson GoStruct GoCrypto GoTime Lru RateLimit Churn Owner Engine.

#[local] Set Default Proof Using "Type".

(** ** Helpers *)
Definition metaName (obj : gomap) : string := get_str (get_obj obj "metadata") "name".
Definition metaNS (obj : gomap) : string := get_str (get_obj obj "metadata") "namespace".

(** The text that is hashed into a fingerprint. *)
Definition fp_text (parts : list string) : string := join ":" parts.
Definition fp (parts : list string) : string := hex_encode (sha256 (fp_text parts)).

(** [int(f)] of a float64, truncating; zero for a value that is no float64. *)
Definition float_trunc (f : float64) : Z :=
  match f with
  | F64 neg m e =>
    let a := if 0 <=? e then m * 2 ^ e else m / 2 ^ (- e) in
    if neg : bool then - a else a
  | _ => 0
  end.
Definition get_int (m : gomap) (k : string) : Z :=
  match mget m k with JFloat f => float_trunc f | _ => 0 end.

Definition durationSinceRFC3339 (now : time) (ts : string) : option duration :=
  if bool_decide (ts = "") then None
  else match parse_rfc3339 ts with
  | None => None
  | Some t => Some (time_sub now t)
  end.

(** The elements of an array that are objects. *)
Definition objects (l : list json) : list gomap :=
  List.filter (fun m => bool_decide (is_Some m)) (map as_obj l).

Definition podContainerStatuses (obj : gomap) : list gomap :=
  let st := get_obj obj "status" in
  concat (map (fun key => objects (get_arr st key))
            ["containerStatuses"; "initContainerStatuses"; "ephemeralContainerStatuses"]).
Definition podRegularContainerStatuses (obj : gomap) : list gomap :=
  objects (get_arr (get_obj obj "status") "containerStatuses").

Definition waiting_of (cs : gomap) : gomap := get_obj (get_obj cs "state") "waiting".

(** The status entry of the first condition of a type, and another field of
    that condition.  Elements that are no objects have no type. *)
Definition find_condition (obj : gomap) (condType : string) : option gomap :=
  List.find (fun cm => bool_decide (get_str cm "type" = condType))
    (map as_obj (get_arr (get_obj obj "status") "conditions")).
Definition condition_field (obj : gomap) (condType field : string) : string :=
  match find_condition obj condType with
  | Some cm => get_str cm field
  | None => ""
  end.

Definition jobHasFailedCondition (obj : gomap) : bool :=
  existsb (fun c => bool_decide (get_str (as_obj c) "type" = "Failed")
                    && bool_decide (get_str (as_obj c) "status" = "True"))
    (get_arr (get_obj obj "status") "conditions").

Definition nodeReadyStatus (obj : gomap) : string := condition_field obj "Ready" "status".
Definition nodeReadyLastTransition (obj : gomap) : string :=
  condition_field obj "Ready" "lastTransitionTime".
Definition nodeConditionStatus (obj : gomap) (condType : string) : string :=
  condition_field obj condType "status".
Definition nodeConditionLastTransition (obj : gomap) (condType : string) : string :=
  condition_field obj condType "lastTransitionTime".
Definition activeNodePressure (obj : gomap) : string :=
  default "" (List.find (fun cond => bool_decide (nodeConditionStatus obj cond = "True"))
                ["DiskPressure"; "MemoryPressure"; "PIDPressure"]).
Definition nodeUnschedulable (obj : gomap) : bool :=
  as_bool (mget (get_obj obj "spec") "unschedulable").
Definition nodeUnschedulableSince (obj : gomap) : string :=
  match List.find (fun t => bool_decide (get_str (as_obj t) "key" = "node.kubernetes.io/unschedulable"))
          (get_arr (get_obj obj "spec") "taints") with
  | Some t => get_str (as_obj t) "timeAdded"
  | None => ""
  end.
Definition podScheduledFalse (obj : gomap) : bool * string :=
  match find_condition obj "PodScheduled" with
  | Some cm => if bool_decide (get_str cm "status" = "False")
               then (true, get_str cm "lastTransitionTime") else (false, "")
  | None => (false, "")
  end.

Definition markdownBlock (text : string) : json :=
  JObj [("type", JStr "markdown"); ("data", JStr text); ("additional_info", JNull)].
Definition headerBlock (text : string) : json :=
  JObj [("type", JStr "header"); ("data", JStr text); ("additional_info", JNull)].

(** The owner's name when there is one, else the object's own. *)
Definition owner_or_self (obj : gomap) : string :=
  let owner := o_name (ResolveOwner obj) in
  if bool_decide (owner = "") then metaName obj else owner.

(** ** Pod CrashLoopBackOff *)
Definition minRestarts : Z := 2.
Definition podCrashLoopPredicate (now : time) (obj oldObj : gomap) : bool :=
  existsb (fun cs => bool_decide (is_Some (waiting_of cs))
                     && bool_decide (get_str (waiting_of cs) "reason" = "CrashLoopBackOff")
                     && (minRestarts <=? get_int cs "restartCount"))
    (podContainerStatuses obj).

Definition podCrashLoopFingerprint (now : time) (obj : gomap) : string :=
  fp ["report_crash_loop"; metaNS obj; owner_or_self obj].

Definition podCrashLoopStableWindow : duration := 10 * minute.

Definition container_stable (now : time) (cs : gomap) : bool :=
  as_bool (mget cs "ready")
  && match get_obj (get_obj cs "state") "running" with
     | None => false
     | Some _ as running =>
       match durationSinceRFC3339 now (get_str running "startedAt") with
       | Some since => podCrashLoopStableWindow <=? since
       | None => false
       end
     end.
Definition podCrashLoopRecovered (now : time) (obj : gomap) : bool :=
  match obj with
  | None => false
  | Some _ =>
    let statuses := podRegularContainerStatuses obj in
    match statuses with
    | [] => false
    | _ => forallb (container_stable now) statuses
    end
  end.

(** A reason line, when the sub-object has one. *)
Definition reason_block (name label : string) (m : gomap) : list json :=
  let reason := get_str m "reason" in
  if bool_decide (reason = "") then []
  else [markdownBlock ("*" +:+ name +:+ "* " +:+ label +:+ " reason: " +:+ reason)].
Definition crash_blocks (cs : gomap) : list json :=
  let name := get_str cs "name" in
  let st := get_obj cs "state" in
  let rc := get_int cs "restartCount" in
  if negb (bool_decide (is_Some (waiting_of cs))) || (rc <? 1) || bool_decide (name = "") then []
  else markdownBlock ("*" +:+ name +:+ "* restart count: " +:+ itoa rc)
       :: reason_block name "waiting" (waiting_of cs)
       ++ reason_block name "termination" (get_obj st "terminated")
       ++ reason_block name "termination" (get_obj (get_obj cs "lastState") "terminated").
Definition crashLoopEnrichBlocks (now : time) (obj oldObj : gomap) (ec : EnrichContext) : list json :=
  concat (map crash_blocks (podContainerStatuses obj)).

Definition podCrashLoopMatcher : MatcherSpec :=
  MkSpec "pod_crash_loop" "Pod" ["update"] (Some podCrashLoopPredicate) None
    (Some (fun now obj _ => podCrashLoopRecovered now obj))
    "report_crash_loop" "HIGH" "issue" hour (Some podCrashLoopFingerprint) None false false
    (Some crashLoopEnrichBlocks).

(** ** Pod OOMKilled *)
Definition oomFreshWindow : duration := hour.

Definition terminatedState (v : json) : gomap := get_obj (as_obj v) "terminated".
Definition isOOM (terminated : gomap) : bool := bool_decide (get_str terminated "reason" = "OOMKilled").

(** The termination and its finish time when the most recent one was an OOM. *)
Definition containerOOMTermination (cs : gomap) : option (gomap * string) :=
  let oom st := Some (st, get_str st "finishedAt") in
  match terminatedState (mget cs "state") with
  | Some _ as st => if isOOM st then oom st else None
  | None =>
    match terminatedState (mget cs "lastState") with
    | Some _ as st => if isOOM st then oom st else None
    | None => None
    end
  end.

(** [s > t] on strings. *)
Definition string_gt (s t : string) : bool := negb (bool_decide (String.le s t)).

Definition better_oom (best : option (gomap * string)) (cs : gomap) : option (gomap * string) :=
  match containerOOMTermination cs with
  | None => best
  | Some (_, ts) =>
    match best with
    | None => Some (cs, ts)
    | Some (_, bestTS) => if string_gt ts bestTS then Some (cs, ts) else best
    end
  end.
Definition mostRecentOOMKilledContainerStatus (obj : gomap) : option gomap :=
  fst <$> foldl better_oom None (podContainerStatuses obj).

Definition podOOMKilledPredicate (now : time) (obj oldObj : gomap) : bool :=
  match mostRecentOOMKilledContainerStatus obj with
  | None => false
  | Some cs =>
    match parse_rfc3339 (match containerOOMTermination cs with Some (_, ts) => ts | None => "" end) with
    | None => true
    | Some finishedAt => time_sub now finishedAt <=? oomFreshWindow
    end
  end.

Definition oomOccurrenceKey (obj : gomap) : string :=
  match mostRecentOOMKilledContainerStatus obj with
  | None => ""
  | Some cs =>
    let ts := match containerOOMTermination cs with Some (_, ts) => ts | None => "" end in
    if bool_decide (ts = "") then ""
    else join "/" [metaNS obj; metaName obj; get_str cs "name"; ts]
  end.

Definition podNodeName (obj : gomap) : string := get_str (get_obj obj "spec") "nodeName".

(** ** Memory quantities *)

(** The loop of [parseInt64] over the runes of the text, on int64. *)
Fixpoint parse_runes (n : Z) (seenDigit : bool) (l : list Z) : Z :=
  match l with
  | [] => if seenDigit then n else 0
  | c :: l' =>
    if in_range 48 57 c then parse_runes (wrap64 (n * 10 + (c - 48))) true l'
    else if c =? 46 then (if seenDigit then n else 0)
    else 0
  end.
Definition parseInt64 (s : string) : Z := parse_runes 0 false (runes s).

Definition binary_multiplier (suffix : string) : option Z :=
  assoc suffix [("Ki", 1024); ("Mi", 1024 ^ 2); ("Gi", 1024 ^ 3); ("Ti", 1024 ^ 4);
                ("Pi", 1024 ^ 5); ("Ei", 1024 ^ 6)].
Definition si_multiplier (suffix : string) : option Z :=
  assoc suffix [("k", 1000); ("K", 1000); ("M", 1000 ^ 2); ("G", 1000 ^ 3); ("T", 1000 ^ 4);
                ("P", 1000 ^ 5); ("E", 1000 ^ 6)].

(** [s[:len(s)-n]] and [s[len(s)-n:]]. *)
Definition split_end (n : nat) (s : string) : string * string :=
  (String.substring 0 (strlen s - n) s, String.substring (strlen s - n) n s).

Definition parseMemBytes (s0 : string) : Z :=
  let s := trim_space s0 in
  if bool_decide (s = "") then 0
  else
    let '(num2, suf2) := split_end 2 s in
    let '(num1, suf1) := split_end 1 s in
    match (if decide (2 < strlen s)%nat then binary_multiplier suf2 else None) with
    | Some mult => wrap64 (parseInt64 num2 * mult)
    | None =>
      match (if decide (1 < strlen s)%nat then si_multiplier suf1 else None) with
      | Some mult => wrap64 (parseInt64 num1 * mult)
      | None => parseInt64 s
      end
    end.
(** Division truncates toward zero. *)
Definition parseMemMB (s : string) : Z := Z.quot (parseMemBytes s) (1024 * 1024).

Definition containerMemoryResourcesMB (obj : gomap) (containerName : string) : Z * Z :=
  let spec := get_obj obj "spec" in
  match List.find (fun c => bool_decide (get_str c "name" = containerName))
          (concat (map (fun key => objects (get_arr spec key))
                     ["containers"; "initContainers"; "ephemeralContainers"])) with
  | None => (0, 0)
  | Some c =>
    let res := get_obj c "resources" in
    (parseMemMB (get_str (get_obj res "requests") "memory"),
     parseMemMB (get_str (get_obj res "limits") "memory"))
  end.

Definition row (field value : string) : json := JArr [JStr field; JStr value].
Definition row_unless_empty (field value : string) : list json :=
  if bool_decide (value = "") then [] else [row field value].

Definition oomKilledEnrichBlocks (now : time) (obj oldObj : gomap) (ec : EnrichContext) : list json :=
  match mostRecentOOMKilledContainerStatus obj with
  | None => []
  | Some cs =>
    let cName := get_str cs "name" in
    let '(req, lim) := containerMemoryResourcesMB obj cName in
    let memReq := if 0 <? req then itoa req +:+ "MB request" else "No request" in
    let memLim := if 0 <? lim then itoa lim +:+ "MB limit" else "No limit" in
    let rows :=
      [row "Pod" (metaName obj); row "Namespace" (metaNS obj)]
      ++ row_unless_empty "Node Name" (podNodeName obj)
      ++ (if bool_decide (cName = "") then []
          else [row "Container name" cName; row "Container memory" (memReq +:+ ", " +:+ memLim)])
      ++ match containerOOMTermination cs with
         | Some (t, _) => row_unless_empty "Container started at" (get_str t "startedAt")
                          ++ row_unless_empty "Container finished at" (get_str t "finishedAt")
         | None => []
         end in
    [JObj [("type", JStr "table");
           ("data", JObj [("table_name", JStr "*Pod and Node OOMKilled data*");
                          ("headers", JArr [JStr "field"; JStr "value"]);
                          ("rows", JArr rows); ("column_renderers", JObj [])]);
           ("additional_info", JNull)]]
  end.

Definition podOOMKilledMatcher : MatcherSpec :=
  MkSpec "pod_oom_killed" "Pod" ["update"] (Some podOOMKilledPredicate) None None
    "pod_oom_killer_enricher" "HIGH" "issue" hour
    (Some (fun _ obj => fp ["pod_oom_killer_enricher"; metaNS obj; owner_or_self obj]))
    (Some oomOccurrenceKey) false false (Some oomKilledEnrichBlocks).

(** ** Image pull backoff *)
Definition in_pull_backoff (cs : gomap) : bool :=
  let reason := get_str (waiting_of cs) "reason" in
  bool_decide (is_Some (waiting_of cs))
  && (bool_decide (reason = "ImagePullBackOff") || bool_decide (reason = "ErrImagePull")).

Definition containersInImagePullBackoff (obj : gomap) : gset string :=
  list_to_set (map (fun cs => get_str cs "name")
                 (List.filter in_pull_backoff (podContainerStatuses obj))).
Definition firstFailingImage (obj : gomap) : string :=
  match List.find in_pull_backoff (podContainerStatuses obj) with
  | Some cs => get_str cs "image"
  | None => ""
  end.

Definition imagePullBackoffEnrichBlocks (now : time) (obj oldObj : gomap) (ec : EnrichContext)
  : list json :=
  concat (map (fun cs =>
    let name := get_str cs "name" in
    if negb (in_pull_backoff cs) || bool_decide (name = "") then []
    else [headerBlock ("ImagePullBackOff in container " +:+ name);
          markdownBlock ("*Image:* " +:+ get_str cs "image")]) (podContainerStatuses obj)).

Definition imagePullFingerprint (now : time) (obj : gomap) : string :=
  let owner := ResolveOwner obj in
  let name :=
    if bool_decide (o_name owner = "") then metaName obj
    else if bool_decide (o_kind owner = "job") then JobFamily (o_name owner) else o_name owner in
  fp ["image_pull_backoff_reporter"; metaNS obj; name; firstFailingImage obj].

Definition imagePullBackoffMatcher : MatcherSpec :=
  MkSpec "image_pull_backoff" "Pod" ["update"]
    (Some (fun _ obj _ => bool_decide (containersInImagePullBackoff obj ≠ ∅))) None None
    "image_pull_backoff_reporter" "MEDIUM" "issue" (10 * minute) (Some imagePullFingerprint) None
    false false (Some imagePullBackoffEnrichBlocks).

(** ** Jobs *)
Definition jobFailureFingerprint (now : time) (obj : gomap) : string :=
  let owner := o_name (ResolveOwner obj) in
  fp ["job_failure"; metaNS obj;
      if bool_decide (owner = "") then JobFamily (metaName obj) else owner].
Definition jobFailureMatcher : MatcherSpec :=
  MkSpec "job_failure" "Job" ["update"]
    (Some (fun _ obj oldObj => jobHasFailedCondition obj && negb (jobHasFailedCondition oldObj)))
    None None "job_failure" "MEDIUM" "issue" (10 * minute) (Some jobFailureFingerprint) None
    false false None.

(** ** Nodes *)
Definition nodeNotReadyMinDuration : duration := 15 * minute.
Definition nodeUnschedulableMinDuration : duration := 15 * minute.
Definition nodePressureWindow : duration := 6 * hour.

(** The time since a timestamp is known and at least [d]. *)
Definition lasted (now : time) (ts : string) (d : duration) : bool :=
  match durationSinceRFC3339 now ts with
  | Some since => d <=? since
  | None => false
  end.

Definition nodeNotReadyMatcher : MatcherSpec :=
  MkSpec "node_not_ready" "Node" ["update"]
    (Some (fun now obj _ => bool_decide (nodeReadyStatus obj = "False")
                            && lasted now (nodeReadyLastTransition obj) nodeNotReadyMinDuration))
    None None "node_not_ready" "HIGH" "issue" (6 * hour)
    (Some (fun _ obj => fp ["node_not_ready"; metaName obj; nodeReadyLastTransition obj]))
    None false false None.

Definition nodeUnschedulableMatcher : MatcherSpec :=
  MkSpec "node_unschedulable" "Node" ["update"]
    (Some (fun now obj _ => nodeUnschedulable obj
                            && lasted now (nodeUnschedulableSince obj) nodeUnschedulableMinDuration))
    None None "node_unschedulable" "MEDIUM" "issue" (6 * hour)
    (Some (fun _ obj => fp ["node_unschedulable"; metaName obj; nodeUnschedulableSince obj]))
    None false false None.

(** [t.Truncate(d)]: down to a multiple of [d] since the zero instant. *)
Definition time_truncate (t : time) (d : duration) : time := t - t mod d.
Definition pressure_bucket (now : time) (ts : string) : Z :=
  unix_seconds (time_truncate (default now (parse_rfc3339 ts)) nodePressureWindow).
Definition nodePressureFingerprint (now : time) (obj : gomap) : string :=
  let cond := activeNodePressure obj in
  fp ["node_pressure"; metaName obj; cond;
      "b" +:+ itoa (pressure_bucket now (nodeConditionLastTransition obj cond))].
Definition nodePressureMatcher : MatcherSpec :=
  MkSpec "node_pressure" "Node" ["update"]
    (Some (fun _ obj _ => negb (bool_decide (activeNodePressure obj = "")))) None None
    "node_pressure" "HIGH" "issue" nodePressureWindow (Some nodePressureFingerprint)
    None false false None.

(** ** Unschedulable pods *)
Definition podUnschedulableMinDuration : duration := 10 * minute.
Definition podUnschedulableMatcher : MatcherSpec :=
  MkSpec "pod_unschedulable" "Pod" ["update"]
    (Some (fun now obj _ => let '(ok, ts) := podScheduledFalse obj in
                            ok && lasted now ts podUnschedulableMinDuration)) None None
    "pod_unschedulable" "HIGH" "issue" (6 * hour)
    (Some (fun _ obj => fp ["pod_unschedulable"; metaNS obj; owner_or_self obj;
                            (podScheduledFalse obj).2]))
    None false false None.

(** * Properties of the matchers *)

(** ** Fingerprints *)
Definition no_colon (s : string) : bool := negb (contains_byte ":" s).

Lemma contains_byte_cons c d s :
  contains_byte c (String d s) = bool_decide (d = c) || contains_byte c s.
Proof. reflexivity. Qed.

Lemma colon_split s s' t t' : no_colon s = true -> no_colon s' = true ->
  s +:+ String ":" t = s' +:+ String ":" t' -> s = s' /\ t = t'.
Proof.
  unfold no_colon. rewrite !negb_true_iff. revert s'.
  induction s as [|c s IH]; intros [|c' s']; rewrite ?app_nil_l, ?app_cons, ?contains_byte_cons; intros Hs Hs'.
  - by intros [= ->].
  - intros [= <- ?]. by rewrite bool_decide_eq_true_2 in Hs'.
  - intros [= -> ?]. by rewrite bool_decide_eq_true_2 in Hs.
  - apply orb_false_elim in Hs as [_ Hs], Hs' as [_ Hs'].
    intros [= -> H]. destruct (IH s' Hs Hs' H) as [-> ->]. done.
Qed.

Lemma fp_text_inj ps qs : length ps = length qs ->
  forallb no_colon (removelast ps) = true -> forallb no_colon (removelast qs) = true ->
  fp_text ps = fp_text qs -> ps = qs.
Proof.
  revert qs. induction ps as [|p ps IH]; intros [|q qs] Hl Hp Hq H; try done.
  destruct ps as [|p2 ps], qs as [|q2 qs]; try done; [by unfold fp_text in H; simpl in H; subst|].
  change (removelast (p :: p2 :: ps)) with (p :: removelast (p2 :: ps)) in Hp.
  change (removelast (q :: q2 :: qs)) with (q :: removelast (q2 :: qs)) in Hq.
  change (fp_text (p :: p2 :: ps)) with (p +:+ String ":" (fp_text (p2 :: ps))) in H.
  change (fp_text (q :: q2 :: qs)) with (q +:+ String ":" (fp_text (q2 :: qs))) in H.
  cbn [forallb] in Hp, Hq. apply andb_prop in Hp as [Hp1 Hp], Hq as [Hq1 Hq].
  destruct (colon_split _ _ _ _ Hp1 Hq1 H) as [-> H2]. f_equal.
  apply IH; [simpl in *; lia|done..].
Qed.

(** A fingerprint identifies its parts: two fingerprints of the same
    shape whose parts, the last apart, contain no colon (as Kubernetes names
    never do) are equal only if all parts are, or SHA-256 collides. *)
Theorem fingerprint_identifies_parts ps qs :
  length ps = length qs ->
  forallb no_colon (removelast ps) = true -> forallb no_colon (removelast qs) = true ->
  fp ps = fp qs ->
  ps = qs \/ exists a b, a <> b /\ sha256 a = sha256 b.
Proof.
  intros Hl Hp Hq H%hex_encode_inj. destruct (decide (fp_text ps = fp_text qs)) as [He|Hne].
  - left. by apply fp_text_inj.
  - right. by exists (fp_text ps), (fp_text qs).
Qed.

(** The crash-loop fingerprint depends on the pod's metadata only, so
    the record a crashing pod left is the one a healthy pod clears. *)
Theorem crash_fingerprint_stable now now' obj obj' :
  get_obj obj "metadata" = get_obj obj' "metadata" ->
  podCrashLoopFingerprint now obj = podCrashLoopFingerprint now' obj'.
Proof.
  intros H. unfold podCrashLoopFingerprint, owner_or_self, metaNS, metaName, ResolveOwner. by rewrite H.
Qed.

(** The recovery test outranks the failure test: a pod whose regular
    containers have been ready and running for the stable window never
    fires [pod_crash_loop], even while one of its init containers (a native
    sidecar) is in CrashLoopBackOff with enough restarts and the predicate
    holds; each such event clears the suppression instead. *)
Theorem crash_loop_masked_by_recovery now now_rl now_churn e i ev r c :
  podCrashLoopRecovered now (Obj ev) = true ->
  (match_spec now_rl now_churn now e i podCrashLoopMatcher ev r c).1.1 = false.
Proof.
  intros Hr. unfold match_spec. destruct (negb (kindMatches _ _)); [done|].
  destruct (negb (operationMatches _ _)); [done|].
  replace (recovered now podCrashLoopMatcher ev) with true by done. done.
Qed.

(** ** The most recent OOM kill *)
Definition oom_ts (cs : gomap) : option string := snd <$> containerOOMTermination cs.

Lemma better_oom_spec best cs :
  match best with Some (b, bt) => oom_ts b = Some bt | None => True end ->
  match better_oom best cs with
  | Some (b, bt) => oom_ts b = Some bt
      /\ (b = cs \/ exists bt0, best = Some (b, bt0) /\ bt0 = bt)
      /\ (forall b0 bt0, best = Some (b0, bt0) -> String.le bt0 bt)
      /\ (forall ts, oom_ts cs = Some ts -> String.le ts bt)
  | None => best = None /\ oom_ts cs = None
  end.
Proof.
  unfold better_oom, oom_ts. intros Hb. destruct (containerOOMTermination cs) as [[t ts]|] eqn:E; simpl.
  - destruct best as [[b bt]|].
    + unfold string_gt. case_bool_decide as Hle; simpl.
      * split_and!; [done|right; by exists bt|intros ? ? [= <- <-]; done|by intros ? [= <-]].
      * rewrite E. split_and!; [done|by left| |intros ? [= <-]; done].
        intros ? ? [= <- <-]. destruct (total String.le bt ts); [done|contradiction].
    + rewrite E. split_and!; [done|by left|done|intros ? [= <-]; done].
  - destruct best as [[b bt]|]; [|done]. split_and!; [done|right; by exists bt| |done].
    intros ? ? [= <- <-]. done.
Qed.

Lemma fold_oom_spec l best :
  match best with Some (b, bt) => oom_ts b = Some bt | None => True end ->
  match foldl better_oom best l with
  | Some (b, bt) => oom_ts b = Some bt /\ (b ∈ l \/ exists bt0, best = Some (b, bt0))
      /\ (forall b0 bt0, best = Some (b0, bt0) -> String.le bt0 bt)
      /\ (forall cs ts, cs ∈ l -> oom_ts cs = Some ts -> String.le ts bt)
  | None => best = None /\ forall cs, cs ∈ l -> oom_ts cs = None
  end.
Proof.
  revert best. induction l as [|cs l IH]; intros best Hb; simpl.
  - destruct best as [[b bt]|]; [|set_solver]. split_and!; [done|right; by exists bt| |set_solver].
    intros ? ? [= <- <-]. done.
  - pose proof (better_oom_spec best cs Hb) as Hs.
    specialize (IH (better_oom best cs)).
    destruct (better_oom best cs) as [[b1 bt1]|]; simpl in *.
    + destruct Hs as (H1 & H2 & H3 & H4). specialize (IH H1).
      destruct (foldl better_oom _ l) as [[b bt]|]; [|by destruct IH].
      destruct IH as (G1 & G2 & G3 & G4). pose proof (G3 b1 bt1 eq_refl) as G5. split_and!; [done|..].
      * destruct G2 as [?|[bt0 [= -> ->]]]; [left; set_solver|]. destruct H2 as [->|(bt0' & -> & _)]; [left; set_solver|].
        right. by eexists.
      * intros b0 bt0 Hb0. transitivity bt1; [by eapply H3|done].
      * intros cs' ts [->|Hin]%elem_of_cons Hts; [|by eapply G4]. transitivity bt1; [by apply H4|done].
    + destruct Hs as [-> H2]. specialize (IH I).
      destruct (foldl better_oom _ l) as [[b bt]|]; simpl in *.
      * destruct IH as (G1 & G2 & G3 & G4). split_and!; [done| |done|].
        { destruct G2 as [?|[? [=]]]. left. set_solver. }
        intros cs' ts [->|Hin]%elem_of_cons Hts; [congruence|by eapply G4].
      * destruct IH as [_ G]. split; [done|]. intros cs' [->|Hin]%elem_of_cons; auto.
Qed.

(** The OOM matcher reports the most recent kill: the container status
    it picks belongs to the pod, its own most recent termination is an OOM
    kill, and no other container of the pod was OOM-killed later; it picks
    none exactly when no container's most recent termination is an OOM. *)
Theorem most_recent_oom_spec obj :
  match mostRecentOOMKilledContainerStatus obj with
  | Some cs => cs ∈ podContainerStatuses obj
      /\ exists ts, oom_ts cs = Some ts
         /\ forall cs' ts', cs' ∈ podContainerStatuses obj -> oom_ts cs' = Some ts' -> String.le ts' ts
  | None => forall cs, cs ∈ podContainerStatuses obj -> oom_ts cs = None
  end.
Proof.
  unfold mostRecentOOMKilledContainerStatus.
  pose proof (fold_oom_spec (podContainerStatuses obj) None I) as H.
  destruct (foldl better_oom None _) as [[b bt]|]; simpl.
  - destruct H as (H1 & [H2|[? [=]]] & _ & H4). split; [done|]. exists bt. eauto.
  - by destruct H.
Qed.

(** ** Memory quantities *)
Lemma split_end_app n x y : strlen y = n -> split_end n (x +:+ y) = (x, y).
Proof.
  intros <-. unfold split_end. rewrite strlen_app. replace (_ + _ - _)%nat with (strlen x) by lia.
  by rewrite substring_prefix, substring_suffix.
Qed.

Lemma trim_left_id c s : is_space c = false -> trim_left (String c s) = String c s.
Proof. intros H. simpl. by rewrite H. Qed.
Lemma trim_space_id c s d : is_space c = false -> is_space d = false ->
  trim_space (String c s +:+ String d "") = String c s +:+ String d "".
Proof.
  intros Hc Hd. unfold trim_space. rewrite app_cons, (trim_left_id c _ Hc). rewrite <- app_cons.
  rewrite srev_snoc, (trim_left_id d _ Hd). by rewrite <- srev_snoc, srev_involutive.
Qed.

Lemma runes_ascii c s : byte c < 128 -> runes (String c s) = byte c :: runes s.
Proof.
  intros H. unfold runes. cbn [runes_from]. unfold decode_rune. by replace (byte c <? 128) with true by lia.
Qed.

(** What may follow the digits without adding to them. *)
Definition fraction (t : string) : bool :=
  match t with EmptyString => true | String c _ => byte c =? 46 end.

Lemma parse_runes_digits n seen ds t : all_digits ds = true -> 0 <= n ->
  digits_value n ds <= int64_max -> fraction t = true -> (seen = true \/ ds <> "") ->
  parse_runes n seen (runes (ds +:+ t)) = digits_value n ds.
Proof.
  revert n seen. induction ds as [|c ds IH]; intros n seen Hd Hn Hmax Ht Hs.
  - rewrite app_nil_l. destruct Hs as [->|]; [|done]. destruct t as [|c t]; [done|]. simpl in *.
    rewrite runes_ascii by lia. by replace (byte c) with 46 by lia.
  - simpl in Hd. apply andb_prop in Hd as [Hc Hd]. pose proof Hc as Hc'%in_range_true.
    rewrite app_cons, runes_ascii by lia. cbn [parse_runes].
    unfold is_digit in Hc. rewrite Hc. simpl in Hmax.
    pose proof (digits_value_le (n * 10 + (byte c - 48)) ds Hd ltac:(lia)) as Hle.
    rewrite wrap64_id by (unfold int64_min; lia). apply IH; [done|lia|done|done|by left].
Qed.

(** Binary memory quantities: digits with a binary suffix parse to their
    exact number of bytes when it fits an int64, and any decimal fraction
    between the digits and the suffix is dropped before scaling, so "1.5Gi"
    is read as 1 GiB. *)
Theorem memory_quantity ds frac suf mult :
  all_digits ds = true -> ds <> "" -> fraction frac = true -> binary_multiplier suf = Some mult ->
  digits_value 0 ds * mult <= int64_max ->
  parseMemBytes (ds +:+ frac +:+ suf) = digits_value 0 ds * mult.
Proof.
  intros Hd Hne Hf Hm Hmax.
  assert (exists a, suf = String a "i" /\ 1 <= mult) as (a & -> & Hmult).
  { unfold binary_multiplier in Hm. simpl in Hm.
    repeat (case_decide; [simplify_eq; eexists; split; [reflexivity|lia]|]). done. }
  destruct ds as [|c ds]; [done|]. pose proof Hd as Hc. simpl in Hc.
  apply andb_prop in Hc as [Hc%in_range_true _].
  pose proof (digits_value_le 0 (String c ds) Hd ltac:(lia)) as Hv.
  unfold parseMemBytes. rewrite <- sapp_assoc.
  rewrite (app_cons c ds frac).
  assert (trim_space (String c (ds +:+ frac) +:+ String a "i") = String c (ds +:+ frac) +:+ String a "i") as Ht.
  { change (String a "i") with (String a "" +:+ String "i" ""). rewrite <- sapp_assoc, app_cons.
    apply trim_space_id; [|done]. unfold is_space. lia. }
  rewrite Ht. rewrite bool_decide_eq_false_2 by done.
  rewrite (split_end_app 2 (String c (ds +:+ frac)) (String a "i")) by done.
  destruct (split_end 1 _) as [num1 suf1].
  rewrite decide_True by (rewrite strlen_app, !strlen_cons; lia). rewrite Hm. unfold parseInt64.
  rewrite <- app_cons, parse_runes_digits; [|done|lia|nia|done|by right].
  apply wrap64_id. unfold int64_min. nia.
Qed.

(** ** Node pressure *)

(** The node-pressure fingerprint distinguishes transitions by absolute
    six-hour buckets: two transitions share a bucket exactly when they fall
    in the same six-hour period counted from the zero instant, so two flaps
    a second apart across a boundary get different rate-limit keys. *)
Theorem pressure_buckets now now' ts ts' t t' :
  parse_rfc3339 ts = Some t -> parse_rfc3339 ts' = Some t' ->
  (pressure_bucket now ts = pressure_bucket now' ts' <-> t / (6 * hour) = t' / (6 * hour)).
Proof.
  intros H H'. unfold pressure_bucket. rewrite H, H'. simpl.
  unfold unix_seconds, time_truncate, nodePressureWindow, unix_to_internal, hour, minute, second. div_lia.
Qed.

(** ** Witnesses *)
Lemma fingerprint_identifies_parts_witness :
  ["job_failure"; "ns"; "a"] = ["job_failure"; "ns"; "a"] \/ exists a b, a <> b /\ sha256 a = sha256 b.
Proof. by apply fingerprint_identifies_parts. Defined.

(** A pod whose regular container has run since the epoch while its sidecar
    crash-loops. *)
Definition sidecar_pod : gomap :=
  Some [("metadata", JObj [("name", JStr "web"); ("namespace", JStr "ns")]);
        ("status", JObj
          [("containerStatuses", JArr [JObj
             [("ready", JBool true);
              ("state", JObj [("running", JObj [("startedAt", JStr "1970-01-01T00:00:00Z")])])]]);
           ("initContainerStatuses", JArr [JObj
             [("name", JStr "proxy"); ("restartCount", number_value "7");
              ("state", JObj [("waiting", JObj [("reason", JStr "CrashLoopBackOff")])])]])])].

Lemma crash_fingerprint_stable_witness :
  podCrashLoopFingerprint 0 sidecar_pod
  = podCrashLoopFingerprint 1 (Some [("metadata", JObj [("name", JStr "web"); ("namespace", JStr "ns")])]).
Proof. by apply crash_fingerprint_stable. Defined.

Lemma crash_loop_masked_by_recovery_witness :
  let now := unix_to_internal + hour in
  let ev := MkEvent "update" "Pod" sidecar_pod None in
  podCrashLoopPredicate now sidecar_pod None = true
  /\ (match_spec (fun _ => now) (fun _ => now) now (NewEngine [podCrashLoopMatcher] 0) 0
        podCrashLoopMatcher ev (NewRateLimiter 8) (NewChurnSuppressor 8 0 0 0)).1.1 = false.
Proof.
  intros now ev. split; [by vm_compute|].
  apply (crash_loop_masked_by_recovery now). by vm_compute.
Defined.

Lemma memory_quantity_witness :
  parseMemBytes "1.5Gi" = 1073741824 /\ parseMemMB "1.5Gi" = 1024.
Proof.
  assert (parseMemBytes ("1" +:+ ".5" +:+ "Gi") = digits_value 0 "1" * 1024 ^ 3) as H
    by (apply memory_quantity; by vm_compute).
  split; [exact H|]. unfold parseMemMB. change "1.5Gi" with ("1" +:+ ".5" +:+ "Gi"). rewrite H. reflexivity.
Defined.

Lemma pressure_buckets_witness :
  pressure_bucket 0 "2024-01-01T05:59:59Z" <> pressure_bucket 0 "2024-01-01T06:00:00Z".
Proof.
  intros H.
  apply (pressure_buckets 0 0 _ _ (civil 2024 1 1 5 59 59 0) (civil 2024 1 1 6 0 0 0)) in H;
    [|by vm_compute..].
  by vm_compute in H.
Defined.
