(* ===== verification/ServiceEndpoints.v ===== *)
(** * Services without endpoints (pkg/triggers/service_endpoints.go)

    The matcher that reads cluster state through the backends lister. *)

From S2P Require Import Prelude GoText GoJson GoStruct GoCrypto GoTime Lru RateLimit Churn Owner Engine Predicates.

Set Default Proof Using "Type".

Definition podLabelSampleLimit : Z := 15.

(** [map[string]string]; an empty result stands for nil. *)
Definition serviceSelector (obj : gomap) : list (string * string) :=
  map (fun kv => (kv.1, as_str kv.2)) (default [] (get_obj (get_obj obj "spec") "selector")).
Definition serviceType (obj : gomap) : string := get_str (get_obj obj "spec") "type".

Definition formatSelector (sel : list (string * string)) : string :=
  join "," (sort_strings (map (fun kv => kv.1 +:+ "=" +:+ kv.2) sel)).

Definition serviceNoEndpointsPredicate (now : time) (obj oldObj : gomap) (ec : EnrichContext) : bool :=
  match ServiceBackends ec with
  | None => false
  | Some b =>
    let sel := serviceSelector obj in
    let ns := metaNS obj in
    match sel with
    | [] => false
    | _ =>
      if bool_decide (serviceType obj = "ExternalName") then false
      else if bool_decide (ns = "") then false
      else match AnyPodMatching b ns sel with
      | Err _ | Ok true => false
      | Ok false =>
        match AnyWorkloadTemplateMatching b ns sel with
        | Err _ | Ok true => false
        | Ok false => true
        end
      end
    end
  end.

Definition podLabelComparisonTable (ec : EnrichContext) (ns : string) : list json :=
  match ServiceBackends ec with
  | None => []
  | Some b =>
    if bool_decide (ns = "") then []
    else match ListPodLabels b ns podLabelSampleLimit with
    | Err _ => []
    | Ok [] => [markdownBlock ("Namespace `" +:+ ns +:+ "` currently has no pods at all.")]
    | Ok samples =>
      [JObj [("type", JStr "table");
             ("data", JObj [("table_name", JStr ("*Pod labels in namespace " +:+ ns +:+ "*"));
                            ("headers", JArr [JStr "pod"; JStr "labels"]);
                            ("rows", JArr (map (fun s => JArr [JStr (s_name s); JStr (formatSelector (s_labels s))])
                                             samples));
                            ("column_renderers", JObj [])]);
             ("additional_info", JNull)]]
    end
  end.

Definition serviceNoEndpointsEnrichBlocks (now : time) (obj oldObj : gomap) (ec : EnrichContext)
  : list json :=
  match obj with
  | None => []
  | Some _ =>
    let sel := serviceSelector obj in
    let ns := metaNS obj in
    [headerBlock ("Service " +:+ metaName obj +:+ " has no matching endpoints");
     markdownBlock ("*Configured selector:* `" +:+ formatSelector sel +:+ "`");
     JObj [("type", JStr "markdown");
           ("data", JStr ("No pods and no workload pod templates in namespace `" +:+ ns
              +:+ "` match this selector. The Service has no endpoints and cannot route traffic — requests to it fail even though the Service object itself looks healthy."));
           ("additional_info", JObj [("insights", JArr [JObj
              [("message", JStr ("Service " +:+ ns +:+ "/" +:+ metaName obj +:+ " selector ("
                 +:+ formatSelector sel
                 +:+ ") matches no pods and no workload pod templates — traffic to the Service is failing"));
               ("severity", JStr "Critical")]])])]]
    ++ podLabelComparisonTable ec ns
  end.

Definition serviceNoEndpointsMatcher : MatcherSpec :=
  MkSpec "service_no_endpoints" "Service" ["update"] None (Some serviceNoEndpointsPredicate) None
    "service_no_endpoints" "HIGH" "issue" (6 * hour)
    (Some (fun _ obj => fp ["service_no_endpoints"; metaNS obj; metaName obj;
                            formatSelector (serviceSelector obj)]))
    None false false (Some serviceNoEndpointsEnrichBlocks).

(** The matcher never fires on missing data: it fires exactly when a
    backends lister is wired, the Service has a selector and a namespace and
    is no ExternalName, and both reads succeed and find neither a pod nor a
    workload template; any read error keeps it silent. *)
Theorem service_no_endpoints_spec now obj oldObj ec :
  serviceNoEndpointsPredicate now obj oldObj ec = true <->
  exists b, ServiceBackends ec = Some b
    /\ serviceSelector obj <> [] /\ serviceType obj <> "ExternalName" /\ metaNS obj <> ""
    /\ AnyPodMatching b (metaNS obj) (serviceSelector obj) = Ok false
    /\ AnyWorkloadTemplateMatching b (metaNS obj) (serviceSelector obj) = Ok false.
Proof.
  unfold serviceNoEndpointsPredicate. split.
  - destruct (ServiceBackends ec) as [b|]; [|done].
    destruct (serviceSelector obj) as [|kv sel] eqn:Es; [done|].
    repeat case_bool_decide; try done.
    destruct (AnyPodMatching _ _ _) as [[]|] eqn:Ep; try done.
    destruct (AnyWorkloadTemplateMatching _ _ _) as [[]|] eqn:Et; try done.
    intros _. exists b. by split_and!.
  - intros (b & -> & Hs & Ht & Hn & Hp & Hw). destruct (serviceSelector obj) as [|kv sel] eqn:Es; [done|].
    rewrite !bool_decide_eq_false_2 by done. by rewrite Hp, Hw.
Qed.

(** The selector part of the fingerprint does not depend on Go's map
    iteration order: any order of the same label pairs is rendered alike. *)
Theorem selector_order_irrelevant sel sel' : sel ≡ₚ sel' -> formatSelector sel = formatSelector sel'.
Proof.
  intros H. unfold formatSelector. f_equal. apply sort_strings_unique. by apply fmap_Permutation.
Qed.

Lemma selector_order_irrelevant_witness :
  formatSelector [("b", "2"); ("a", "1")] = "a=1,b=2"
  /\ formatSelector [("b", "2"); ("a", "1")] = formatSelector [("a", "1"); ("b", "2")].
Proof. split; [by vm_compute|]. apply selector_order_irrelevant. apply Permutation_swap. Defined.
