(* ===== verification/Snake.v ===== *)
(** * Snake-case keys (pkg/kube/snake.go)

    The renaming of Kubernetes field names the diff blocks and the
    get_resource actions apply before rendering.  The character classes of
    package unicode are parameters; on ASCII they are the usual ones. *)

From S2P Require Import Prelude GoText GoJson.

Set Default Proof Using "Type".

Section snake.
(** [unicode.IsUpper], [IsLower], [IsDigit] and [ToLower]. *)
Variables (is_upper is_lower is_digit_rune : Z -> bool) (to_lower_rune : Z -> Z).

(** Whether an underscore goes before [r], which follows [prev]. *)
Definition word_start (prev : option Z) (r : Z) (rest : list Z) : bool :=
  match prev with
  | None => false
  | Some p =>
    is_upper r && (is_lower p || is_digit_rune p
                   || match rest with next :: _ => is_lower next | [] => false end)
  end.

Fixpoint snake_runes (prev : option Z) (l : list Z) : string :=
  match l with
  | [] => ""
  | r :: rest =>
    (if word_start prev r rest then "_" else "") +:+ encode_rune (to_lower_rune r)
    +:+ snake_runes (Some r) rest
  end.

(** [strings.ContainsAny(s, "_./-:")]. *)
Definition has_punctuation (s : string) : bool :=
  contains_byte "_" s || contains_byte "." s || contains_byte "/" s || contains_byte "-" s
  || contains_byte ":" s.

Definition toSnakeCase (s : string) : string :=
  if bool_decide (s = "") then s
  else if has_punctuation s then s
  else snake_runes None (runes s).

Definition userDataContainerFields : list string :=
  ["labels"; "annotations"; "match_labels"; "node_selector"; "data"; "string_data"; "binary_data";
   "sysctls"].
Definition isUserDataContainer (field : string) : bool :=
  bool_decide (field ∈ userDataContainerFields).

(** A map literal filled key by key: a later key that renames to an earlier
    one overwrites it. *)
Definition fill (l : list (string * json)) : list (string * json) :=
  foldl (fun m kv => mset kv.1 kv.2 m) [] l.

Fixpoint convertWithParent (v : json) (parentField : string) : json :=
  match v with
  | JObj x =>
    if isUserDataContainer parentField then JObj (fill x)
    else JObj (fill (map (fun kv => (toSnakeCase kv.1, convertWithParent kv.2 (toSnakeCase kv.1))) x))
  | JArr x => JArr (map (fun item => convertWithParent item parentField) x)
  | _ => v
  end.
Definition SnakeKeysDeep (v : json) : json := convertWithParent v "".

(** Copying a map keeps it. *)
Lemma fill_from (m acc : list (string * json)) : NoDup (acc.*1 ++ m.*1) ->
  foldl (fun m kv => mset kv.1 kv.2 m) acc m = acc ++ m.
Proof.
  revert acc. induction m as [|[k v] m IH]; intros acc Hn; simpl; [by rewrite app_nil_r|].
  assert (mset k v acc = acc ++ [(k, v)]) as ->.
  { csimpl in Hn. apply NoDup_app in Hn as (_ & Hd & _). clear IH.
    induction acc as [|[j w] acc IH]; [done|]. simpl. rewrite decide_False.
    - by rewrite IH by (intros x Hx; apply Hd; by right).
    - intros ->. apply (Hd j); csimpl; left. }
  rewrite IH; [by rewrite <- app_assoc|]. by rewrite fmap_app, <- app_assoc.
Qed.
Lemma fill_id (m : list (string * json)) : NoDup m.*1 -> fill m = m.
Proof. intros Hn. apply fill_from. done. Qed.

(** Labels, annotations and the data of ConfigMaps are user data: the walk
    leaves the keys and values of such a map as they are. *)
Lemma user_data_kept m field : isUserDataContainer field = true -> NoDup m.*1 ->
  convertWithParent (JObj m) field = JObj m.
Proof. intros Hf Hn. cbn [convertWithParent]. rewrite Hf. by rewrite fill_id. Qed.
End snake.

(** The ASCII letters and digits. *)
Definition ascii_upper (r : Z) : bool := in_range 65 90 r.
Definition ascii_lower (r : Z) : bool := in_range 97 122 r.
Definition ascii_digit (r : Z) : bool := in_range 48 57 r.
Definition ascii_to_lower (r : Z) : Z := if ascii_upper r then r + 32 else r.
Example snake_names :
  map (toSnakeCase ascii_upper ascii_lower ascii_digit ascii_to_lower)
    ["accessModes"; "APIVersion"; "podIP"; "app.kubernetes.io/name"; "ipv4Address"]
  = ["access_modes"; "api_version"; "pod_ip"; "app.kubernetes.io/name"; "ipv4_address"].
Proof. vm_compute. reflexivity. Qed.
