(* ===== verification/Diff.v ===== *)
(** * Path-level diffs of objects (pkg/triggers/diff.go)

    [ComputeSpecDiff] walks two versions of an object and reports the leaves
    that changed, filtered by path prefixes.  Values are compared by their
    [json.Marshal] texts, as in the code.  The walk is shown to report exactly
    the changed leaves; a nil and an absent member read the same. *)

From S2P Require Import Prelude GoText GoJson CanonJson GoMarshal.

Set Default Proof Using "Type".

Record DiffEntry := MkDiff { Path : string; Before : json; After : json }.
#[export] Instance DiffEntry_eq_dec : EqDecision DiffEntry.
Proof. solve_decision. Defined.

Record SpecDiffOptions := MkDiffOptions {
  FieldsToMonitor : list string;
  FieldsToOmit : list string
}.

Definition lastAppliedAnnotation : string := "kubectl.kubernetes.io/last-applied-configuration".

Definition omitted_fields : list string :=
  ["status"; "metadata.generation"; "metadata.resourceVersion"; "metadata.managedFields"].
Definition DefaultSpecDiffOptions : SpecDiffOptions :=
  MkDiffOptions ["spec"; "spec.replicas"] omitted_fields.
Definition ConfigMapDiffOptions : SpecDiffOptions := MkDiffOptions ["data"; "binaryData"] [].
Definition IngressDiffOptions : SpecDiffOptions :=
  MkDiffOptions ["spec"; "metadata.annotations"]
    (omitted_fields ++ ["metadata.annotations." +:+ lastAppliedAnnotation]).

(** ** The walk *)

(** A marshalling error leaves a nil byte slice. *)
Definition jsonEqual (a b : json) : bool :=
  bool_decide (default "" (marshal a) = default "" (marshal b)).

Definition unionKeys (a b : list (string * json)) : list string :=
  sort_strings (remove_dups (a.*1 ++ b.*1)).

Definition joinPath (prefix key : string) : string :=
  if bool_decide (prefix = "") then key else prefix +:+ "." +:+ key.
(** [fmt.Sprintf("%s[%d]", path, i)]. *)
Definition indexPath (path : string) (i : nat) : string :=
  path +:+ "[" +:+ itoa (Z.of_nat i) +:+ "]".

(** Two values that are not both maps or both arrays. *)
Definition leaf_diff (path : string) (before after : json) : list DiffEntry :=
  if jsonEqual before after then [] else [MkDiff path before after].

(** The walks of the members of [before] are collected first, so that the
    recursion is on a member of it; a member it lacks is nil and has no
    members of its own. *)
Fixpoint walkDiff (before : json) (path : string) (after : json) : list DiffEntry :=
  if jsonEqual before after then []
  else match before, after with
  | JObj bMap, JObj aMap =>
    let walks := map (fun kv => (kv.1, walkDiff kv.2)) bMap in
    flat_map (fun k => default (fun p a => leaf_diff p JNull a) (assoc k walks)
                         (joinPath path k) (mget (Some aMap) k))
      (unionKeys bMap aMap)
  | JArr bArr, JArr aArr =>
    let walks := map (fun b => walkDiff b) bArr in
    flat_map (fun i => nth i walks (fun p a => leaf_diff p JNull a)
                         (indexPath path i) (nth i aArr JNull))
      (seq 0 (Nat.max (length bArr) (length aArr)))
  | _, _ => [MkDiff path before after]
  end.

(** ** Filtering *)
Definition pathMatchesAny (path : string) (prefixes : list string) : bool :=
  existsb (fun p => bool_decide (path = p) || has_prefix path (p +:+ ".")
                    || has_prefix path (p +:+ "[")) prefixes.

Definition filterDiffs (diffs : list DiffEntry) (opt : SpecDiffOptions) : list DiffEntry :=
  List.filter (fun d => pathMatchesAny (Path d) (FieldsToMonitor opt)
                        && negb (pathMatchesAny (Path d) (FieldsToOmit opt))) diffs.

Definition ComputeSpecDiff (obj oldObj : gomap) (opt : SpecDiffOptions) : list DiffEntry :=
  match oldObj, obj with
  | Some o, Some n =>
    let opt := if bool_decide (FieldsToMonitor opt = []) then DefaultSpecDiffOptions else opt in
    filterDiffs (walkDiff (JObj o) "" (JObj n)) opt
  | _, _ => []
  end.

(** ** The Markdown summary *)

(** [strings.ReplaceAll(s, "|", `\|`)]. *)
Fixpoint escape_pipes (s : string) : string :=
  match s with
  | EmptyString => ""
  | String c r => if bool_decide (c = "|"%char) then String (chr 92) (String c (escape_pipes r))
                  else String c (escape_pipes r)
  end.
Definition renderValueCell (v : json) : string :=
  match v with
  | JNull => "_(unset)_"
  | _ =>
    let s := default "" (marshal v) in
    let s := if (200 <? Z.of_nat (strlen s)) then String.substring 0 200 s +:+ "…" else s in
    escape_pipes s
  end.
Definition RenderDiffMarkdown (diffs : list DiffEntry) : string :=
  if bool_decide (diffs = []) then ""
  else
    let nl := String (chr 10) "" in
    "**Changed fields:**" +:+ nl +:+ nl +:+ "| Path | Before | After |" +:+ nl +:+ "|---|---|---|" +:+ nl
    +:+ String.concat "" (map (fun d =>
          "| `" +:+ Path d +:+ "` | " +:+ renderValueCell (Before d) +:+ " | "
          +:+ renderValueCell (After d) +:+ " |" +:+ nl) diffs).

(** ** Leaves *)
Inductive seg := Key (k : string) | Idx (i : nat).

Definition seg_path (path : string) (s : seg) : string :=
  match s with Key k => joinPath path k | Idx i => indexPath path i end.
Definition render_from (path : string) (p : list seg) : string := foldl seg_path path p.
Definition render (p : list seg) : string := render_from "" p.

(** What is at a place; nil when there is nothing. *)
Definition member (v : json) (s : seg) : json :=
  match s with Key k => mget (as_obj v) k | Idx i => nth i (as_arr v) JNull end.
Definition at_path (v : json) (p : list seg) : json := foldl member v p.

Definition same_container (b a : json) : bool :=
  match b, a with JObj _, JObj _ | JArr _, JArr _ => true | _, _ => false end.

(** [p] leads through containers of one kind to two different values that
    are not. *)
Fixpoint leaf_change (b a : json) (p : list seg) : Prop :=
  match p with
  | [] => same_container b a = false /\ jsonEqual b a = false
  | s :: p' => same_container b a = true /\ leaf_change (member b s) (member a s) p'
  end.

Lemma jsonEqual_refl v : jsonEqual v v = true.
Proof. by apply bool_decide_eq_true. Qed.

(** One step of the walk, with members read as in the code. *)
Lemma walkDiff_eq b path a :
  walkDiff b path a =
  if jsonEqual b a then []
  else match b, a with
  | JObj bm, JObj am =>
    flat_map (fun k => walkDiff (mget (Some bm) k) (joinPath path k) (mget (Some am) k))
      (unionKeys bm am)
  | JArr bl, JArr al =>
    flat_map (fun i => walkDiff (nth i bl JNull) (indexPath path i) (nth i al JNull))
      (seq 0 (Nat.max (length bl) (length al)))
  | _, _ => [MkDiff path b a]
  end.
Proof.
  destruct b, a; try done; cbn [walkDiff]; destruct (jsonEqual _ _); try done;
    apply flat_map_ext; intros x.
  - destruct (decide (x < length l)%nat) as [Hx|Hx].
    + rewrite (nth_indep _ _ (walkDiff JNull)) by (by rewrite length_map).
      by rewrite map_nth.
    + rewrite (nth_overflow (map _ _)), (nth_overflow l) by (rewrite ?length_map; lia). done.
  - rewrite assoc_map. unfold mget at 2. by destruct (assoc x m).
Qed.

(** The keys of either map. *)
Lemma elem_of_unionKeys k a b : k ∈ unionKeys a b <-> k ∈ a.*1 \/ k ∈ b.*1.
Proof. unfold unionKeys. by rewrite sort_strings_perm, elem_of_remove_dups, elem_of_app. Qed.

(** *** Comparison of members *)
Lemma proper_member v s : proper v = true -> proper (member v s) = true.
Proof.
  intros Hv. destruct s as [k|i]; simpl.
  - destruct v; try done. simpl. destruct (assoc k m) as [w|] eqn:E; [|done].
    by eapply proper_obj in Hv as [_ [_ ?]%(fun f => f k w E)].
  - destruct v as [| | | | |l| |]; simpl; try (by destruct i).
    destruct (nth_in_or_default i l JNull) as [Hi| ->]; [|done].
    apply (proper_arr l _ Hv), list_elem_of_In, Hi.
Qed.

Lemma jsonEqual_marshal a b : marshal a = marshal b -> jsonEqual a b = true.
Proof. intros E. apply bool_decide_eq_true. by rewrite E. Qed.
Lemma marshal_jsonEqual a b : proper a = true -> proper b = true ->
  jsonEqual a b = true -> marshal a = marshal b.
Proof.
  intros [t Ha]%marshal_total [u Hb]%marshal_total. unfold jsonEqual.
  rewrite Ha, Hb. intros H%bool_decide_eq_true. simpl in H. by subst.
Qed.

(** Equal texts have equal members. *)
Lemma jsonEqual_member b a s : proper b = true -> proper a = true ->
  same_container b a = true -> jsonEqual b a = true -> jsonEqual (member b s) (member a s) = true.
Proof.
  intros Hb Ha Hc E%marshal_jsonEqual; [|done..]. apply jsonEqual_marshal.
  destruct b as [| | | | |bl|bm|], a as [| | | | |al|am|]; try done; destruct s as [k|i]; simpl; try done.
  - pose proof (marshal_arr_inj bl al i Hb Ha E) as H.
    rewrite !nth_lookup. by destruct (bl !! i), (al !! i); simpl in *; simplify_eq.
  - pose proof (marshal_obj_inj bm am k Hb Ha E) as H.
    by destruct (assoc k bm), (assoc k am); simpl in *; simplify_eq.
Qed.

Lemma leaf_change_differs b a p : proper b = true -> proper a = true ->
  leaf_change b a p -> jsonEqual b a = false.
Proof.
  revert b a. induction p as [|s p IH]; intros b a Hb Ha; simpl; [tauto|].
  intros [Hc Hl]. apply IH in Hl; [|by apply proper_member..].
  destruct (jsonEqual b a) eqn:E; [|done].
  by rewrite (jsonEqual_member b a s) in Hl.
Qed.

(** *** The walk reports exactly the changed leaves *)
Lemma walk_sound b : forall path a e, e ∈ walkDiff b path a ->
  exists p, leaf_change b a p
    /\ e = MkDiff (render_from path p) (at_path b p) (at_path a p).
Proof.
  assert (forall b path a e, same_container b a = false -> e ∈ walkDiff b path a ->
    exists p, leaf_change b a p
      /\ e = MkDiff (render_from path p) (at_path b p) (at_path a p)) as Hleaf.
  { clear b. intros b path a e Hc. rewrite walkDiff_eq.
    destruct (jsonEqual b a) eqn:E; [by intros ?%elem_of_nil|].
    intros He. exists []. simpl. split; [done|].
    destruct b, a; try done; by apply list_elem_of_singleton in He. }
  induction b as [| | | | |bl IH|bm IH|] using json_nested_ind; intros path a e He;
    try (by eapply Hleaf).
  - destruct a as [| | | | |al| |]; try (by eapply Hleaf).
    rewrite walkDiff_eq in He. destruct (jsonEqual _ _); [by apply elem_of_nil in He|].
    apply list_elem_of_In, in_flat_map in He as (i & Hi & He%list_elem_of_In).
    assert (exists p, leaf_change (nth i bl JNull) (nth i al JNull) p
      /\ e = MkDiff (render_from (indexPath path i) p)
           (at_path (nth i bl JNull) p) (at_path (nth i al JNull) p)) as (p & Hp & ->).
    { destruct (nth_in_or_default i bl JNull) as [Hn|Hn].
      - rewrite Forall_forall in IH. apply (IH _ (proj2 (list_elem_of_In _ _) Hn)). done.
      - rewrite Hn in *. by apply Hleaf. }
    by exists (Idx i :: p).
  - destruct a as [| | | | | |am|]; try (by eapply Hleaf).
    rewrite walkDiff_eq in He. destruct (jsonEqual _ _); [by apply elem_of_nil in He|].
    apply list_elem_of_In, in_flat_map in He as (k & Hk & He%list_elem_of_In).
    assert (exists p, leaf_change (mget (Some bm) k) (mget (Some am) k) p
      /\ e = MkDiff (render_from (joinPath path k) p)
           (at_path (mget (Some bm) k) p) (at_path (mget (Some am) k) p)) as (p & Hp & ->).
    { unfold mget in *. destruct (assoc k bm) as [v|] eqn:E; [|by apply Hleaf].
      rewrite Forall_forall in IH. by apply (IH (k, v) (assoc_In _ _ _ E)). }
    by exists (Key k :: p).
Qed.

Lemma walk_complete b path a p : proper b = true -> proper a = true -> leaf_change b a p ->
  MkDiff (render_from path p) (at_path b p) (at_path a p) ∈ walkDiff b path a.
Proof.
  revert b path a. induction p as [|s p IH]; intros b path a Hb Ha Hl; rewrite walkDiff_eq;
    rewrite (leaf_change_differs _ _ _ Hb Ha Hl).
  - destruct Hl as [Hc _]. destruct b, a; try done; by apply list_elem_of_singleton.
  - destruct Hl as [Hc Hl].
    pose proof (IH _ (seg_path path s) _ (proper_member b s Hb) (proper_member a s Ha) Hl) as H.
    pose proof (leaf_change_differs _ _ _ (proper_member b s Hb) (proper_member a s Ha) Hl) as Hd.
    destruct b as [| | | | |bl|bm|], a as [| | | | |al|am|], s as [k|i]; try done.
    + apply list_elem_of_In, in_flat_map. exists i. split; [|by apply list_elem_of_In].
      apply in_seq. destruct (decide (i < Nat.max (length bl) (length al))%nat); [lia|].
      simpl in Hd. by rewrite !nth_overflow in Hd by lia.
    + apply list_elem_of_In, in_flat_map. exists k. split; [|by apply list_elem_of_In].
      apply list_elem_of_In, elem_of_unionKeys.
      destruct (decide (k ∈ bm.*1)) as [|Hk%assoc_None]; [by left|].
      destruct (decide (k ∈ am.*1)) as [|Hk'%assoc_None]; [by right|].
      simpl in Hd. by rewrite Hk, Hk' in Hd.
    + destruct i; simpl in Hd; by rewrite jsonEqual_refl in Hd.
Qed.

(** ** Monitored fields *)

(** The part of a path before the first dot or bracket. *)
Definition is_sep (c : ascii) : bool := (byte c =? 46) || (byte c =? 91).
Fixpoint head_key (path : string) : string :=
  match path with
  | EmptyString => ""
  | String c r => if is_sep c then "" else String c (head_key r)
  end.
(** A field name without dots and brackets. *)
Definition plain (f : string) : bool := negb (bool_decide (f = "")) && bool_decide (head_key f = f).

Definition sep_start (s : string) : Prop :=
  s = "" \/ exists c r, s = String c r /\ is_sep c = true.

Lemma head_key_app f s : plain f = true -> sep_start s -> head_key (f +:+ s) = f.
Proof.
  intros [_ Hf%bool_decide_eq_true]%andb_prop Hs. revert Hf. induction f as [|c f IH]; intros Hf.
  - rewrite app_nil_l. by destruct Hs as [->|(c & r & -> & Hc)]; simpl; rewrite ?Hc.
  - rewrite app_cons. simpl in *. destruct (is_sep c); [done|]. injection Hf as Hf. by rewrite IH.
Qed.
Lemma head_key_split path : exists s, path = head_key path +:+ s /\ sep_start s.
Proof.
  induction path as [|c path (s & IH & Hs)]; simpl; [exists ""; split; [done|by left]|].
  destruct (is_sep c) eqn:E.
  - exists (String c path). split; [done|]. right. eauto.
  - exists s. split; [|done]. by rewrite app_cons, <- IH.
Qed.

Lemma matches_plain path f : plain f = true ->
  pathMatchesAny path [f] = bool_decide (head_key path = f).
Proof.
  intros Hf. unfold pathMatchesAny. cbn [existsb]. rewrite orb_false_r.
  apply eq_true_iff_eq. rewrite !orb_true_iff, !bool_decide_eq_true, !has_prefix_spec. split.
  - intros [[-> |(r & ->)]|(r & ->)].
    + rewrite <- (sapp_nil_r f) at 1. apply head_key_app; [done|by left].
    + rewrite sapp_assoc. apply head_key_app; [done|]. right. by eexists _, _.
    + rewrite sapp_assoc. apply head_key_app; [done|]. right. by eexists _, _.
  - intros Hk. destruct (head_key_split path) as (s & Hp & Hs). rewrite Hk in Hp.
    destruct Hs as [->|(c & r & -> & Hc)]; [rewrite sapp_nil_r in Hp; auto|].
    assert (c = "."%char \/ c = "["%char) as [->| ->].
    { apply orb_prop in Hc as [Hc|Hc]; apply Z.eqb_eq in Hc; [left|right]; by apply byte_inj. }
    + left. right. exists r. by rewrite Hp, sapp_assoc.
    + right. exists r. by rewrite Hp, sapp_assoc.
Qed.

(** A dotted prefix only matches below its first field. *)
Lemma matches_head path f s : plain f = true -> sep_start s ->
  pathMatchesAny path [f +:+ s] = true -> head_key path = f.
Proof.
  intros Hf Hs. unfold pathMatchesAny. cbn [existsb]. rewrite orb_false_r.
  rewrite !orb_true_iff, !bool_decide_eq_true, !has_prefix_spec.
  assert (forall t, sep_start t -> sep_start (s +:+ t)) as Happ.
  { intros t Ht. destruct Hs as [->|(c & r & -> & Hc)]; [done|]. right. rewrite app_cons. eauto. }
  intros [[-> |(r & ->)]|(r & ->)]; rewrite ?sapp_assoc; apply head_key_app; try done; apply Happ;
    right; by eexists _, _.
Qed.

Lemma pathMatchesAny_elem path l : pathMatchesAny path l = true <->
  exists f, f ∈ l /\ pathMatchesAny path [f] = true.
Proof.
  unfold pathMatchesAny. rewrite existsb_exists.
  split; intros (f & Hin & Hf); exists f; rewrite ?list_elem_of_In in *; (split; [done|]);
    cbn [existsb] in *; by rewrite orb_false_r in *.
Qed.

Definition kept (opt : SpecDiffOptions) (path : string) : bool :=
  pathMatchesAny path (FieldsToMonitor opt) && negb (pathMatchesAny path (FieldsToOmit opt)).

Lemma default_kept path : kept DefaultSpecDiffOptions path = bool_decide (head_key path ∈ ["spec"]).
Proof.
  apply eq_true_iff_eq. unfold kept. rewrite andb_true_iff, negb_true_iff, bool_decide_eq_true.
  rewrite list_elem_of_singleton. split.
  - intros [(f & Hf & Hm)%pathMatchesAny_elem _]. cbn [FieldsToMonitor DefaultSpecDiffOptions] in Hf.
    rewrite !elem_of_cons, elem_of_nil in Hf. destruct Hf as [->|[->|[]]].
    + rewrite matches_plain in Hm by done. by apply bool_decide_eq_true in Hm.
    + apply (matches_head _ "spec" ".replicas") in Hm; [done..|]. right. by eexists _, _.
  - intros Hk. split.
    + apply pathMatchesAny_elem. exists "spec". split; [left|]. rewrite matches_plain by done.
      by apply bool_decide_eq_true.
    + apply not_true_iff_false. intros (f & Hf & Hm)%pathMatchesAny_elem.
      change (f ∈ omitted_fields) in Hf. unfold omitted_fields in Hf.
      rewrite !elem_of_cons, elem_of_nil in Hf.
      assert (exists g s, f = g +:+ s /\ plain g = true /\ sep_start s /\ g <> "spec")
        as (g & s & -> & Hg & Hs & Hne).
      { destruct Hf as [->|[->|[->|[->|[]]]]].
        1: exists "status", ""; split_and!; [done|done|by left|done].
        all: exists "metadata"; eexists; split_and!; [reflexivity|done|right; by eexists _, _|done]. }
      apply matches_head in Hm; [|done..]. congruence.
Qed.

Lemma configmap_kept path :
  kept ConfigMapDiffOptions path = bool_decide (head_key path ∈ ["data"; "binaryData"]).
Proof.
  apply eq_true_iff_eq. unfold kept. cbn [FieldsToOmit FieldsToMonitor ConfigMapDiffOptions].
  rewrite andb_true_r, bool_decide_eq_true, pathMatchesAny_elem. split.
  - intros (f & Hf & Hm). rewrite matches_plain in Hm.
    + apply bool_decide_eq_true in Hm. congruence.
    + by rewrite !elem_of_cons, elem_of_nil in Hf; destruct Hf as [->|[->|[]]].
  - intros Hk. exists (head_key path). split; [done|].
    rewrite matches_plain; [by apply bool_decide_eq_true|].
    by rewrite !elem_of_cons, elem_of_nil in Hk; destruct Hk as [->|[->|[]]].
Qed.

Lemma elem_of_filterDiffs e l opt : e ∈ filterDiffs l opt <-> e ∈ l /\ kept opt (Path e) = true.
Proof. unfold filterDiffs. by rewrite !list_elem_of_In, filter_In. Qed.

(** Where a path below a plain field starts. *)
Lemma render_from_sep path p : path <> "" ->
  exists s, render_from path p = path +:+ s /\ sep_start s.
Proof.
  intros Hp. revert path Hp. induction p as [|s p IH]; intros path Hp; simpl.
  - exists "". rewrite sapp_nil_r. split; [done|by left].
  - assert (exists t, seg_path path s = path +:+ t /\ exists c r, t = String c r /\ is_sep c = true)
      as (t & Ht & c & r & -> & Hc).
    { destruct s as [k|i]; simpl; [unfold joinPath; rewrite bool_decide_eq_false_2 by done|
        unfold indexPath]; eexists; (split; [reflexivity|]); eexists _, _; (split; [reflexivity|done]). }
    rewrite Ht. destruct (IH (path +:+ String c r)) as (s' & -> & _).
    { by destruct path. }
    rewrite sapp_assoc, app_cons. eexists. split; [done|]. right. eauto.
Qed.

Lemma head_key_render f p : plain f = true -> head_key (render (Key f :: p)) = f.
Proof.
  intros Hf. unfold render, render_from. simpl. unfold joinPath. rewrite bool_decide_eq_true_2 by done.
  assert (f <> "") as Hne by (apply andb_prop in Hf as [Hf%negb_true_iff%bool_decide_eq_false _]; done).
  destruct (render_from_sep f p Hne) as (s & Hs & Hsep). unfold render_from in Hs. rewrite Hs.
  by apply head_key_app.
Qed.

Lemma leaf_change_nil p : ~ leaf_change JNull JNull p.
Proof. destruct p; simpl; [|by intros []]. intros [_ H]. by rewrite jsonEqual_refl in H. Qed.

(** A change of an object is a change of one of its members. *)
Lemma leaf_change_obj o n p : leaf_change (JObj o) (JObj n) p ->
  exists k p', p = Key k :: p' /\ leaf_change (mget (Some o) k) (mget (Some n) k) p'
    /\ (k ∈ o.*1 \/ k ∈ n.*1).
Proof.
  destruct p as [|[k|i] p]; simpl; [by intros [] |..].
  - intros [_ H]. exists k, p. split; [done|]. split; [done|].
    destruct (decide (k ∈ o.*1)) as [|Hk%assoc_None]; [by left|].
    destruct (decide (k ∈ n.*1)) as [|Hk'%assoc_None]; [by right|].
    rewrite Hk, Hk' in H. by apply leaf_change_nil in H.
  - intros [_ H]. destruct i; by apply leaf_change_nil in H.
Qed.

Lemma monitored_fields opt fs o n :
  FieldsToMonitor opt <> [] -> (forall path, kept opt path = bool_decide (head_key path ∈ fs)) ->
  forallb plain fs = true -> proper (JObj o) = true -> proper (JObj n) = true ->
  forallb plain (o.*1 ++ n.*1) = true ->
  (ComputeSpecDiff (Some n) (Some o) opt <> [] <->
   exists f p, f ∈ fs /\ leaf_change (mget (Some o) f) (mget (Some n) f) p).
Proof.
  intros Hopt Hkept Hfs Ho Hn Hkeys. unfold ComputeSpecDiff.
  rewrite bool_decide_eq_false_2 by done. rewrite forallb_forall in Hfs, Hkeys.
  split.
  - destruct (filterDiffs _ _) as [|e l] eqn:E; [done|]. intros _.
    assert (e ∈ filterDiffs (walkDiff (JObj o) "" (JObj n)) opt) as He by (rewrite E; left).
    apply elem_of_filterDiffs in He as [(p & Hp & ->)%walk_sound Hk]. rewrite Hkept in Hk.
    apply leaf_change_obj in Hp as (k & p' & -> & Hl & Hin). cbn [Path] in Hk.
    apply bool_decide_eq_true in Hk. change (render_from "" ?q) with (render q) in Hk.
    rewrite head_key_render in Hk; [by exists k, p'|]. apply Hkeys, list_elem_of_In.
    by apply elem_of_app.
  - intros (f & p & Hf & Hl) E.
    assert (plain f = true) as Hpl by (by apply Hfs, list_elem_of_In).
    eapply (not_elem_of_nil _). rewrite <- E. apply elem_of_filterDiffs. split.
    + by apply (walk_complete (JObj o) "" (JObj n) (Key f :: p)).
    + rewrite Hkept. cbn [Path]. change (render_from "" ?q) with (render q).
      rewrite head_key_render by done. by apply bool_decide_eq_true.
Qed.

(** C32: The filtered diff consists of exactly the changed leaves whose path is
    monitored and not omitted, each with the two values at that place. *)
Theorem diff_reports_changed_leaves opt o n e :
  FieldsToMonitor opt <> [] -> proper (JObj o) = true -> proper (JObj n) = true ->
  e ∈ ComputeSpecDiff (Some n) (Some o) opt <->
  exists p, leaf_change (JObj o) (JObj n) p
    /\ e = MkDiff (render p) (at_path (JObj o) p) (at_path (JObj n) p)
    /\ pathMatchesAny (render p) (FieldsToMonitor opt) = true
    /\ pathMatchesAny (render p) (FieldsToOmit opt) = false.
Proof.
  intros Hopt Ho Hn. unfold ComputeSpecDiff. rewrite bool_decide_eq_false_2 by done.
  rewrite elem_of_filterDiffs. unfold kept. rewrite andb_true_iff, negb_true_iff. split.
  - intros [(p & Hp & ->)%walk_sound [Hm Ho']]. by exists p.
  - intros (p & Hp & -> & Hm & Ho'). split; [|done]. by apply walk_complete.
Qed.

Definition toy_old : list (string * json) :=
  [("metadata", JObj [("generation", JInt 1)]); ("spec", JObj [("replicas", JInt 1)])].
Definition toy_new : list (string * json) :=
  [("metadata", JObj [("generation", JInt 2)]); ("spec", JObj [("replicas", JInt 3)])].

Lemma diff_reports_changed_leaves_witness :
  MkDiff "spec.replicas" (JInt 1) (JInt 3)
    ∈ ComputeSpecDiff (Some toy_new) (Some toy_old) DefaultSpecDiffOptions.
Proof.
  apply (diff_reports_changed_leaves DefaultSpecDiffOptions toy_old toy_new _
    ltac:(done) ltac:(by vm_compute) ltac:(by vm_compute)).
  exists [Key "spec"; Key "replicas"]. split_and!; by vm_compute.
Defined.
