(* ===== verification/ChangeWindow.v ===== *)
(** * Excerpts of changed values (pkg/triggers/diff.go)

    A changed value over the size cap is cut to the line ranges that changed,
    or to a byte window around the first difference.  The line matcher is
    go-difflib's; its opcodes are a parameter, of which only the documented
    contract is used: they tile both inputs, and ranges tagged equal are
    equal.  The theorems: nothing changes outside the line ranges, so the two
    excerpts carry the whole change; and the byte windows of proper text
    always show the first difference. *)

From S2P Require Import Prelude GoText.

Set Default Proof Using "Type".

Definition maxConfigMapValueBytes : nat := 2048.
Definition changeContextLines : nat := 3.
Definition maxMatchedLines : nat := 1000.

(** [l[i:j]]. *)
Definition slice {A} (i j : nat) (l : list A) : list A := take (j - i) (drop i l).
Definition substr (i j : nat) (s : string) : string := String.substring i (j - i) s.

(** ** Line ranges *)
Record OpCode := MkOp { op_equal : bool; I1 : nat; I2 : nat; J1 : nat; J2 : nat }.
Record hunk := MkHunk { b1 : nat; b2 : nat; a1 : nat; a2 : nat }.

(** The length of the common head. *)
Fixpoint common_head {A} `{EqDecision A} (l k : list A) : nat :=
  match l, k with
  | x :: l', y :: k' => if bool_decide (x = y) then S (common_head l' k') else O
  | _, _ => O
  end.
(** The common tail of what follows the first [head] elements. *)
Definition common_tail {A} `{EqDecision A} (head : nat) (l k : list A) : nat :=
  common_head (rev (drop head l)) (rev (drop head k)).

Section hunks.
(** [difflib.NewMatcherWithJunk(b, a, false, nil).GetOpCodes()]. *)
Variable get_opcodes : list string -> list string -> list OpCode.

Definition match_ops (bMid aMid : list string) : list OpCode :=
  if bool_decide (length bMid <= maxMatchedLines)%nat
     && bool_decide (length aMid <= maxMatchedLines)%nat
  then get_opcodes bMid aMid
  else [MkOp false 0 (length bMid) 0 (length aMid)].

(** The edit [op] with its context, in absolute line numbers. *)
Definition with_context (lb la head : nat) (op : OpCode) : hunk :=
  let h := MkHunk (head + I1 op) (head + I2 op) (head + J1 op) (head + J2 op) in
  let pre := Nat.min changeContextLines (Nat.min (b1 h) (a1 h)) in
  let post := Nat.min changeContextLines (Nat.min (lb - b2 h) (la - a2 h)) in
  MkHunk (b1 h - pre) (b2 h + post) (a1 h - pre) (a2 h + post).

(** One iteration of the loop; the hunks so far are kept newest first. *)
Definition add_hunk (lb la head : nat) (hunks : list hunk) (op : OpCode) : list hunk :=
  if op_equal op then hunks
  else
    let h := with_context lb la head op in
    match hunks with
    | last :: rest =>
      if bool_decide (b1 h <= b2 last)%nat
      then MkHunk (b1 last) (b2 h) (a1 last) (a2 h) :: rest
      else h :: hunks
    | [] => [h]
    end.

Definition changedHunks (bl al : list string) : list hunk :=
  let head := common_head bl al in
  let tail := common_tail head bl al in
  let bMid := slice head (length bl - tail) bl in
  let aMid := slice head (length al - tail) al in
  rev (foldl (add_hunk (length bl) (length al) head) [] (match_ops bMid aMid)).

(** The text of one hunk on one side. *)
Definition hunk_text (lines : list string) (range : nat * nat) : string :=
  let '(start, stop) := range in
  "... [truncated: showing lines " +:+ itoa (Z.of_nat (start + 1)) +:+ "-" +:+ itoa (Z.of_nat stop)
  +:+ " of " +:+ itoa (Z.of_nat (length lines)) +:+ "]"
  +:+ String.concat "" (map (fun l => String (chr 10) l) (slice start stop lines)).
Definition side (before : bool) (h : hunk) : nat * nat :=
  if before then (b1 h, b2 h) else (a1 h, a2 h).
Definition renderHunks (lines : list string) (hunks : list hunk) (before : bool) : string :=
  join (String (chr 10) "") (map (fun h => hunk_text lines (side before h)) hunks).

(** ** Byte windows *)

(** [for n > lo && n < len(s) && !utf8.RuneStart(s[n]) { n-- }]. *)
Fixpoint walk_back (lo : nat) (s : string) (n : nat) : nat :=
  match n with
  | O => O
  | S n' =>
    if bool_decide (n <= lo)%nat then n
    else match String.get n s with
         | Some c => if rune_start c then n else walk_back lo s n'
         | None => n
         end
  end.

Definition window (start : nat) (s : string) : nat * nat :=
  let from := walk_back 0 s (Nat.min start (strlen s)) in
  let to := walk_back from s (Nat.min (strlen s) (from + maxConfigMapValueBytes)) in
  (from, to).
Definition cut (start : nat) (s : string) : string :=
  let '(from, to) := window start s in
  "... [truncated: showing bytes " +:+ itoa (Z.of_nat from) +:+ "-" +:+ itoa (Z.of_nat to)
  +:+ " of " +:+ itoa (Z.of_nat (strlen s)) +:+ "]" +:+ String (chr 10) (substr from to s).

Fixpoint first_difference (s t : string) : nat :=
  match s, t with
  | String c s', String d t' => if bool_decide (c = d) then S (first_difference s' t') else O
  | _, _ => O
  end.

Definition window_start (before after : string) : nat :=
  (first_difference before after - maxConfigMapValueBytes / 4)%nat.
Definition firstDifferenceWindow (before after : string) : string * string :=
  (cut (window_start before after) before, cut (window_start before after) after).

Definition changeWindows (before after : string) : string * string :=
  let bl := split_at (chr 10) before in
  let al := split_at (chr 10) after in
  let hunks := changedHunks bl al in
  let b := renderHunks bl hunks true in
  let a := renderHunks al hunks false in
  if bool_decide (strlen b <= maxConfigMapValueBytes)%nat
     && bool_decide (strlen a <= maxConfigMapValueBytes)%nat
  then (b, a) else firstDifferenceWindow before after.
End hunks.

(** ** The line ranges carry the change *)

(** The contract of the matcher: the opcodes tile both inputs from [(i, j)]
    on, and ranges tagged equal are equal. *)
Fixpoint ops_tile (b a : list string) (i j : nat) (ops : list OpCode) : Prop :=
  match ops with
  | [] => i = length b /\ j = length a
  | op :: rest =>
    I1 op = i /\ J1 op = j /\ (i <= I2 op <= length b)%nat /\ (j <= J2 op <= length a)%nat
    /\ (op_equal op = true -> slice i (I2 op) b = slice j (J2 op) a)
    /\ ops_tile b a (I2 op) (J2 op) rest
  end.

(** [before] with the lines of each hunk replaced by those of [after]. *)
Definition patch (bl al : list string) (hunks : list hunk) : list string :=
  let '(pos, out) :=
    foldl (fun st h => (b2 h, st.2 ++ slice st.1 (b1 h) bl ++ slice (a1 h) (a2 h) al))
      (O, []) hunks in
  out ++ drop pos bl.

Lemma slice_app {A} i j k (l : list A) : (i <= j)%nat -> (j <= k)%nat ->
  slice i j l ++ slice j k l = slice i k l.
Proof.
  intros Hij Hjk. unfold slice.
  replace (drop j l) with (drop (j - i) (drop i l)) by (rewrite drop_drop; f_equal; lia).
  replace (k - i)%nat with (j - i + (k - j))%nat by lia.
  by rewrite take_take_drop.
Qed.

Lemma slice_sub {A} i j i' j' d e (l l' : list A) : (j - i = j' - i')%nat ->
  slice i j l = slice i' j' l' -> slice (i + d) (j - e) l = slice (i' + d) (j' - e) l'.
Proof.
  intros Hlen H.
  assert (forall i j (l : list A), slice (i + d) (j - e) l
            = take (j - e - (i + d)) (drop d (slice i j l))) as Hs.
  { intros x y k. unfold slice. rewrite skipn_firstn_comm, drop_drop, take_take. f_equal. lia. }
  rewrite !Hs, H. f_equal. lia.
Qed.

Lemma slice_slice {A} i j h n (l : list A) : (h + j <= n)%nat ->
  slice i j (slice h n l) = slice (h + i) (h + j) l.
Proof.
  intros Hn. unfold slice. rewrite skipn_firstn_comm, drop_drop, take_take. f_equal; lia.
Qed.

Lemma common_head_spec {A} `{EqDecision A} (l k : list A) :
  take (common_head l k) l = take (common_head l k) k
  /\ (common_head l k <= length l)%nat /\ (common_head l k <= length k)%nat.
Proof.
  revert k. induction l as [|x l IH]; intros [|y k]; simpl; try (split_and!; [done|lia..]).
  case_bool_decide; subst; simpl; [|split_and!; [done|lia..]].
  destruct (IH k) as (-> & ? & ?). split_and!; [done|lia..].
Qed.

Lemma common_tail_spec {A} `{EqDecision A} h (l k : list A) :
  (h <= length l)%nat -> (h <= length k)%nat ->
  drop (length l - common_tail h l k) l = drop (length k - common_tail h l k) k
  /\ (common_tail h l k <= length l - h)%nat /\ (common_tail h l k <= length k - h)%nat.
Proof.
  intros Hl Hk. unfold common_tail. destruct (common_head_spec (rev (drop h l)) (rev (drop h k))) as (E & H1 & H2).
  set (n := common_head _ _) in *. rewrite length_rev, length_drop in H1, H2.
  split; [|done].
  assert (forall l : list A, (h <= length l)%nat -> (n <= length l - h)%nat ->
    drop (length l - n) l = rev (take n (rev (drop h l)))) as Hd.
  { intros l0 Hh Hn. rewrite firstn_rev, rev_involutive, length_drop, drop_drop. f_equal. lia. }
  by rewrite !Hd, E by done.
Qed.

Section carry.
Variables bl al : list string.
Abbreviation lb := (length bl).
Abbreviation la := (length al).

Definition end_b (hs : list hunk) : nat := match hs with h :: _ => b2 h | [] => 0 end.
Definition end_a (hs : list hunk) : nat := match hs with h :: _ => a2 h | [] => 0 end.

(** Newest first: the hunks are in range and in order, and the lines between
    them are the same on both sides. *)
Fixpoint chain (hs : list hunk) : Prop :=
  match hs with
  | [] => True
  | h :: rest =>
    (end_b rest <= b1 h)%nat /\ (b1 h <= b2 h <= lb)%nat
    /\ (end_a rest <= a1 h)%nat /\ (a1 h <= a2 h <= la)%nat
    /\ slice (end_b rest) (b1 h) bl = slice (end_a rest) (a1 h) al
    /\ chain rest
  end.

Definition post_context (eb ea : nat) : nat :=
  Nat.min changeContextLines (Nat.min (lb - eb) (la - ea)).

(** After the opcodes up to [(i, j)]: the last hunk ends with the context of
    an edit that ended at [(eb, ea)], and nothing changed since. *)
Definition progress (hs : list hunk) (i j : nat) : Prop :=
  (i <= lb)%nat /\ (j <= la)%nat /\ chain hs /\
  exists eb ea, (eb <= i)%nat /\ (ea <= j)%nat /\ (i - eb = j - ea)%nat
    /\ slice eb i bl = slice ea j al
    /\ match hs with
       | [] => eb = 0%nat /\ ea = 0%nat
       | last :: _ => (b1 last <= eb)%nat /\ (a1 last <= ea)%nat
                      /\ b2 last = (eb + post_context eb ea)%nat
                      /\ a2 last = (ea + post_context eb ea)%nat
       end.

Lemma progress_equal hs i j i' j' : progress hs i j ->
  (i <= i' <= lb)%nat -> (j <= j' <= la)%nat -> slice i i' bl = slice j j' al ->
  progress hs i' j'.
Proof.
  intros (_ & _ & Hc & eb & ea & Hb & Ha & Hd & Hs & Hl) Hi Hj E.
  assert (i' - i = j' - j)%nat as Hlen.
  { apply (f_equal length) in E. unfold slice in E. rewrite !length_take, !length_drop in E. lia. }
  split_and!; [lia|lia|done|]. exists eb, ea. split_and!; [lia|lia|lia| |done].
  rewrite <- (slice_app eb i i'), <- (slice_app ea j j') by lia. by rewrite Hs, E.
Qed.

Lemma progress_edit head hs i j op : progress hs i j -> op_equal op = false ->
  (head + I1 op = i)%nat -> (head + J1 op = j)%nat ->
  (i <= head + I2 op <= lb)%nat -> (j <= head + J2 op <= la)%nat ->
  progress (add_hunk lb la head hs op) (head + I2 op) (head + J2 op).
Proof.
  intros (_ & _ & Hc & eb & ea & Hb & Ha & Hd & Hs & Hl) Hop <- <- Hi Hj.
  unfold add_hunk. rewrite Hop.
  set (i := (head + I1 op)%nat) in *. set (j := (head + J1 op)%nat) in *.
  set (i' := (head + I2 op)%nat) in *. set (j' := (head + J2 op)%nat) in *.
  assert (with_context lb la head op
    = MkHunk (i - Nat.min 3 (Nat.min i j)) (i' + post_context i' j')
             (j - Nat.min 3 (Nat.min i j)) (j' + post_context i' j')) as -> by done.
  set (pre := Nat.min 3 (Nat.min i j)).
  assert (post_context i' j' <= lb - i' /\ post_context i' j' <= la - j')%nat as [Hp1 Hp2]
    by (unfold post_context; lia).
  assert (forall hs', chain hs' ->
    match hs' with
    | [] => False
    | last :: _ => (b1 last <= i')%nat /\ (a1 last <= j')%nat
        /\ b2 last = (i' + post_context i' j')%nat /\ a2 last = (j' + post_context i' j')%nat
    end -> progress hs' i' j') as Hdone.
  { intros [|h r] Hch Hh; [done|]. split_and!; [lia|lia|done|]. exists i', j'.
    split_and!; try lia. unfold slice. by rewrite !Nat.sub_diag, !take_0. }
  destruct hs as [|last rest]; cbn [b1 b2 a1 a2].
  - destruct Hl as [-> ->]. apply Hdone; [|simpl; lia]. cbn [chain end_b end_a b1 b2 a1 a2].
    split_and!; try lia; try done.
    apply (slice_sub 0 i 0 j 0 pre) in Hs; [done|lia].
  - destruct Hl as (Hl1 & Hl2 & Hl3 & Hl4). case_bool_decide as Hm.
    + apply Hdone; [|simpl; lia]. cbn [chain] in Hc |- *. cbn [b1 b2 a1 a2].
      destruct Hc as (? & ? & ? & ? & ? & ?). split_and!; try lia; done.
    + assert (pre = 3%nat) as Hpre.
      { unfold pre in *. rewrite Hl3 in Hm. unfold post_context, changeContextLines in Hm. lia. }
      assert (post_context eb ea = 3%nat) as Hpost.
      { rewrite Hl3 in Hm. unfold post_context, changeContextLines in *. lia. }
      rewrite Hpost in *. apply Hdone; [|simpl; lia].
      cbn [chain end_b end_a b1 b2 a1 a2] in Hc |- *. rewrite Hl3, Hl4 in *.
      split_and!; try lia; try tauto.
      apply slice_sub; [lia|done].
Qed.
End carry.

Lemma progress_ops bl al head nb na ops hs i j :
  (nb <= length bl)%nat -> (na <= length al)%nat ->
  (head <= nb)%nat -> (head <= na)%nat ->
  ops_tile (slice head nb bl) (slice head na al) i j ops ->
  progress bl al hs (head + i) (head + j) ->
  progress bl al (foldl (add_hunk (length bl) (length al) head) hs ops) nb na.
Proof.
  intros Hb Ha Hhb Hha.
  assert (forall (l : list string) n, (n <= length l)%nat -> length (slice head n l) = (n - head)%nat)
    as Hlen by (intros l n Hn; unfold slice; rewrite length_take, length_drop; lia).
  revert hs i j. induction ops as [|op ops IH]; intros hs i j; cbn [ops_tile foldl].
  - rewrite !Hlen by done. intros [-> ->] H.
    by replace (head + (nb - head))%nat with nb in H by lia;
      replace (head + (na - head))%nat with na in H by lia.
  - rewrite !Hlen by done. intros (<- & <- & Hi & Hj & Heq & Hrest) H.
    apply (IH _ (I2 op) (J2 op)); [done|]. destruct (op_equal op) eqn:E.
    + unfold add_hunk. rewrite E. eapply progress_equal; [done|lia|lia|].
      specialize (Heq eq_refl). by rewrite !slice_slice in Heq by lia.
    + eapply progress_edit; [done|done|done|done|lia|lia].
Qed.

Lemma foldl_rev {A B} (f : B -> A -> B) b l : foldl f b (rev l) = foldr (fun x s => f s x) b l.
Proof. induction l as [|x l IH]; [done|]. simpl. by rewrite foldl_app, IH. Qed.

(** The state of [patch] after the hunks of a chain. *)
Lemma patch_chain bl al hs : chain bl al hs ->
  foldr (fun h st => (b2 h, st.2 ++ slice st.1 (b1 h) bl ++ slice (a1 h) (a2 h) al)) (O, []) hs
  = (end_b hs, take (end_a hs) al).
Proof.
  induction hs as [|h hs IH]; intros Hc; [done|]. cbn [chain foldr] in *.
  destruct Hc as (H1 & H2 & H3 & H4 & Hs & Hc). rewrite IH by done. cbn [fst snd end_b end_a].
  f_equal. rewrite Hs, slice_app by lia.
  change (take (end_a hs) al) with (take (end_a hs) (drop 0 al)).
  rewrite <- (Nat.sub_0_r (end_a hs)) at 1. change (take (end_a hs - 0) (drop 0 al)) with (slice 0 (end_a hs) al).
  rewrite slice_app by lia. unfold slice. by rewrite Nat.sub_0_r.
Qed.

Section difflib.
Variable get_opcodes : list string -> list string -> list OpCode.
Hypothesis opcodes_tile : forall b a, ops_tile b a 0 0 (get_opcodes b a).

Lemma match_ops_tile b a : ops_tile b a 0 0 (match_ops get_opcodes b a).
Proof using opcodes_tile.
  unfold match_ops. case_match; [apply opcodes_tile|]. simpl. split_and!; try lia; done.
Qed.

Lemma changedHunks_progress bl al :
  exists hs, changedHunks get_opcodes bl al = rev hs
    /\ progress bl al hs (length bl) (length al).
Proof using opcodes_tile.
  unfold changedHunks. eexists. split; [reflexivity|].
  destruct (common_head_spec bl al) as (Eh & Hh1 & Hh2).
  destruct (common_tail_spec (common_head bl al) bl al Hh1 Hh2) as (Et & Ht1 & Ht2).
  set (head := common_head bl al) in *. set (tail := common_tail head bl al) in *.
  eapply progress_equal; [eapply progress_ops; [..|apply match_ops_tile|]| | |]; try lia.
  - rewrite !Nat.add_0_r. split_and!; [done|done|done|]. exists 0%nat, 0%nat.
    split_and!; try lia; [|done..]. unfold slice. by rewrite !Nat.sub_0_r, !drop_0.
  - unfold slice. rewrite Et. rewrite !take_ge; [done|rewrite length_drop; lia|].
    rewrite <- Et, length_drop. lia.
Qed.

(** Nothing changes outside the hunks: replacing the hunks' lines in the old
    value by those of the new value gives the new value, and every hunk is a
    range of lines of both. *)
Theorem hunks_carry_the_change bl al :
  patch bl al (changedHunks get_opcodes bl al) = al
  /\ Forall (fun h => (b1 h <= b2 h <= length bl)%nat /\ (a1 h <= a2 h <= length al)%nat)
       (changedHunks get_opcodes bl al).
Proof using opcodes_tile.
  destruct (changedHunks_progress bl al) as (hs & -> & _ & _ & Hc & eb & ea & Hb & Ha & Hd & Hs & Hl).
  split.
  - unfold patch. rewrite foldl_rev, patch_chain by done.
    rewrite <- (take_drop (end_a hs) al) at 2. f_equal.
    assert (end_b hs - eb = end_a hs - ea /\ eb <= end_b hs /\ ea <= end_a hs)%nat as (H1 & H2 & H3).
    { destruct hs; simpl in *; lia. }
    apply (slice_sub _ _ _ _ (end_b hs - eb) 0) in Hs; [|lia].
    rewrite !Nat.sub_0_r in Hs.
    replace (eb + (end_b hs - eb))%nat with (end_b hs) in Hs by lia.
    replace (ea + (end_b hs - eb))%nat with (end_a hs) in Hs by lia.
    unfold slice in Hs. by rewrite !take_ge in Hs by (rewrite length_drop; lia).
  - apply Forall_forall. intros h Hh. rewrite list_elem_of_In, <- in_rev, <- list_elem_of_In in Hh. clear -Hc Hh.
    induction hs as [|h' hs IH]; [by apply elem_of_nil in Hh|]. cbn [chain] in Hc.
    apply elem_of_cons in Hh as [->|Hh]; [lia|]. apply IH; tauto.
Qed.
End difflib.

(** ** The byte windows show the first difference *)

(** Within any four consecutive bytes a character starts. *)
Definition rune_gaps (s : string) : Prop :=
  forall n c, String.get n s = Some c ->
  exists k d, (k <= 3)%nat /\ (k <= n)%nat /\ String.get (n - k) s = Some d /\ rune_start d = true.

Fixpoint no_start (s : string) : bool :=
  match s with
  | EmptyString => true
  | String c r => negb (rune_start c) && no_start r
  end.

Lemma encode_rune_shape r : exists c t, encode_rune r = String c t
  /\ rune_start c = true /\ no_start t = true /\ (strlen t <= 3)%nat.
Proof.
  unfold encode_rune. set (q := if valid_rune r then r else rune_error).
  assert (valid_rune q = true) as Hq by (unfold q; by destruct (valid_rune r) eqn:E).
  clearbody q. apply andb_prop in Hq as [Hq%in_range_true _].
  assert (q / 64 < 17409 /\ q / 4096 < 273 /\ q / 262144 < 5 /\ 0 <= q / 64 /\ 0 <= q / 4096
          /\ 0 <= q / 262144) as (? & ? & ? & ? & ? & ?).
  { split_and!; first [apply Z.div_pos; lia|apply Z.div_lt_upper_bound; lia]. }
  assert (forall z, 0 <= z < 256 -> ~ (128 <= z <= 191) -> rune_start (chr z) = true) as Hrs.
  { intros z Hz Hn. unfold rune_start. rewrite byte_chr by lia. by apply negb_true_iff, in_range_false. }
  assert (forall z, negb (rune_start (chr (128 + z mod 64))) = true) as Hns.
  { intros z. pose proof (Z.mod_pos_bound z 64 ltac:(lia)). unfold rune_start.
    rewrite byte_chr by lia. rewrite negb_involutive. apply in_range_true. lia. }
  repeat case_match; eexists _, _; (split; [reflexivity|]);
    (split; [|split; [by cbn [no_start]; rewrite ?Hns|unfold strlen; cbn [String.length]; lia]]);
    apply Hrs; try lia.
  all: try (assert (q / 64 < 32) by (apply Z.div_lt_upper_bound; lia)); try lia.
  all: try (assert (q / 4096 < 16) by (apply Z.div_lt_upper_bound; lia)); lia.
Qed.

Lemma get_app_l n s t : (n < strlen s)%nat -> String.get n (s +:+ t) = String.get n s.
Proof.
  unfold strlen. revert n. induction s as [|c s IH]; intros [|n] Hn; simpl in Hn; try lia;
    rewrite app_cons; [done|]. simpl. apply IH. lia.
Qed.
Lemma get_app_r n s t : (strlen s <= n)%nat -> String.get n (s +:+ t) = String.get (n - strlen s) t.
Proof.
  unfold strlen. revert n. induction s as [|c s IH]; intros n Hn; [by rewrite app_nil_l, Nat.sub_0_r|].
  destruct n as [|n]; simpl in Hn; [lia|]. rewrite app_cons. simpl. apply IH. lia.
Qed.
Lemma get_Some n s : (n < strlen s)%nat -> is_Some (String.get n s).
Proof.
  unfold strlen. revert n. induction s as [|c s IH]; intros [|n] Hn; simpl in *; try lia; [done|].
  apply IH. lia.
Qed.
Lemma get_lt n s c : String.get n s = Some c -> (n < strlen s)%nat.
Proof.
  unfold strlen. revert n. induction s as [|d s IH]; intros [|n] H; simpl in *; try done; [lia|].
  apply IH in H. lia.
Qed.

Lemma valid_rune_gaps s : valid_utf8 s = true -> rune_gaps s.
Proof.
  intros Hv%bool_decide_eq_true. rewrite <- Hv. generalize (runes s). clear s Hv. intros l.
  induction l as [|r l IH]; intros n c Hn; [by destruct n|].
  change (encode_runes (r :: l)) with (encode_rune r +:+ encode_runes l) in *.
  destruct (encode_rune_shape r) as (d & t & E & Hd & _ & Ht). rewrite E in *.
  destruct (decide (n < strlen (String d t))%nat) as [Hlt|Hge].
  - exists n, d. unfold strlen in Hlt, Ht. simpl in Hlt. split_and!; [lia|lia| |done].
    by rewrite Nat.sub_diag, app_cons.
  - rewrite get_app_r in Hn by lia. destruct (IH _ _ Hn) as (k & e & Hk & Hkn & Hg & He).
    exists k, e. split_and!; [lia|lia| |done].
    rewrite get_app_r by lia. rewrite <- Hg. f_equal. lia.
Qed.

Lemma walk_back_le lo s n : (walk_back lo s n <= n)%nat.
Proof. induction n as [|n IH]; cbn [walk_back]; repeat case_match; lia. Qed.
Lemma walk_back_lo lo s n : (lo <= n)%nat -> (lo <= walk_back lo s n)%nat.
Proof.
  induction n as [|n IH]; cbn [walk_back]; [lia|]. intros H. case_bool_decide; [lia|].
  repeat case_match; try lia; apply IH; lia.
Qed.

(** Walking back to a character start takes at most three steps. *)
Lemma walk_back_gap lo s n k d : (k <= n)%nat -> String.get (n - k) s = Some d ->
  rune_start d = true -> (n - k <= walk_back lo s n)%nat.
Proof.
  revert n. induction k as [|k IH]; intros n Hk Hg Hd.
  - rewrite Nat.sub_0_r in *. destruct n; [lia|]. cbn [walk_back]. rewrite Hg, Hd. case_match; lia.
  - destruct n as [|n]; [lia|]. cbn [walk_back]. repeat case_match; try lia.
    assert (S n - S k = n - k)%nat as E by lia. rewrite E in *. apply IH; [lia|done|done].
Qed.
Lemma walk_back_short lo s n : rune_gaps s -> (n - 3 <= walk_back lo s n)%nat.
Proof.
  intros Hg. destruct (String.get n s) as [c|] eqn:E.
  - destruct (Hg n c E) as (k & d & Hk & Hkn & Hd & Hs).
    pose proof (walk_back_gap lo s n k d Hkn Hd Hs). lia.
  - destruct n; cbn [walk_back]; [lia|]. rewrite E. case_match; lia.
Qed.

(** A cut at a character start leaves whole characters. *)
Lemma no_start_get t n c : no_start t = true -> String.get n t = Some c -> rune_start c = false.
Proof.
  revert n. induction t as [|d t IH]; intros [|n]; simpl; try done; intros [Hd Ht]%andb_prop.
  - intros [= <-]. by apply negb_true_iff in Hd.
  - by apply IH.
Qed.
Lemma substring_app_r n s t : (strlen s <= n)%nat ->
  String.substring 0 n (s +:+ t) = s +:+ String.substring 0 (n - strlen s) t.
Proof.
  unfold strlen. revert n. induction s as [|c s IH]; intros n Hn; [by rewrite !app_nil_l, Nat.sub_0_r|].
  destruct n as [|n]; simpl in Hn; [lia|]. rewrite !app_cons. simpl. f_equal. apply IH. lia.
Qed.
Lemma cut_at_start l n c : String.get n (encode_runes l) = Some c -> rune_start c = true ->
  exists j, String.substring 0 n (encode_runes l) = encode_runes (take j l).
Proof.
  revert n. induction l as [|r l IH]; intros n Hg Hc; [by destruct n|].
  change (encode_runes (r :: l)) with (encode_rune r +:+ encode_runes l) in *.
  destruct (encode_rune_shape r) as (d & t & E & Hd & Ht & _). rewrite E in *.
  destruct n as [|n].
  { exists 0%nat. rewrite app_cons. done. }
  destruct (decide (S n < strlen (String d t))%nat) as [Hlt|Hge].
  - rewrite get_app_l in Hg by done. simpl in Hg. by rewrite (no_start_get _ _ _ Ht Hg) in Hc.
  - rewrite get_app_r in Hg by lia. destruct (IH _ Hg Hc) as (j & Hj).
    exists (S j). rewrite substring_app_r, Hj by lia. simpl take.
    change (encode_runes (r :: take j l)) with (encode_rune r +:+ encode_runes (take j l)).
    by rewrite E.
Qed.
Lemma walk_back_start s n : (n < strlen s)%nat ->
  walk_back 0 s n = 0%nat
  \/ exists c, String.get (walk_back 0 s n) s = Some c /\ rune_start c = true.
Proof.
  induction n as [|n IH]; intros Hn; cbn [walk_back]; [by left|]. case_bool_decide; [lia|].
  destruct (get_Some (S n) s Hn) as [c Hc]. rewrite Hc. destruct (rune_start c) eqn:E.
  - right. eauto.
  - apply IH. lia.
Qed.

Lemma first_difference_le s t :
  (first_difference s t <= strlen s /\ first_difference s t <= strlen t)%nat.
Proof.
  unfold strlen. revert t. induction s as [|c s IH]; intros [|d t]; simpl; try lia.
  case_bool_decide; [|lia]. destruct (IH t). lia.
Qed.
Lemma first_difference_get s t n : (n < first_difference s t)%nat -> String.get n s = String.get n t.
Proof.
  revert t n. induction s as [|c s IH]; intros [|d t] n; simpl; try lia.
  case_bool_decide; [|lia]. subst. destruct n; [done|]. intros. apply IH. lia.
Qed.

Lemma walk_back_ext s t n : (forall m, (m <= n)%nat -> String.get m s = String.get m t) ->
  walk_back 0 s n = walk_back 0 t n.
Proof.
  induction n as [|n IH]; intros H; cbn [walk_back]; [done|].
  rewrite <- (H (S n)) by lia. repeat case_match; try done. apply IH. intros. apply H. lia.
Qed.

(** Reading [s[from]] is in range, and the two windows of a pair of values
    open at the same byte, not after the first difference; each has at most
    [maxConfigMapValueBytes] bytes, and when the value is proper text it
    reaches past the first difference or to the end of the value. *)
Theorem windows_show_first_difference before after :
  valid_utf8 before = true -> valid_utf8 after = true ->
  let p := first_difference before after in
  let start := window_start before after in
  let wb := window start before in
  let wa := window start after in
  (start = 0 \/ start < strlen before /\ start < strlen after)%nat
  /\ wb.1 = wa.1 /\ (wb.1 <= p)%nat
  /\ (wb.2 <= wb.1 + maxConfigMapValueBytes)%nat /\ (wa.2 <= wa.1 + maxConfigMapValueBytes)%nat
  /\ (p < wb.2 \/ wb.2 = strlen before)%nat /\ (p < wa.2 \/ wa.2 = strlen after)%nat.
Proof.
  intros Hb%valid_rune_gaps Ha%valid_rune_gaps p start.
  destruct (first_difference_le before after) as [Hpb Hpa]. fold p in Hpb, Hpa.
  change start with (p - 512)%nat.
  assert (Nat.min (p - 512) (strlen before) = p - 512 /\ Nat.min (p - 512) (strlen after) = p - 512)%nat
    as [Eb Ea] by lia.
  assert (walk_back 0 before (p - 512) = walk_back 0 after (p - 512)) as Hsame.
  { destruct (decide (p <= 512)%nat); [by replace (p - 512)%nat with 0%nat by lia|].
    apply walk_back_ext. intros m Hm. apply first_difference_get. fold p. lia. }
  unfold window. rewrite Eb, Ea, Hsame. cbn [fst snd].
  set (from := walk_back 0 after (p - 512)).
  pose proof (walk_back_le 0 after (p - 512)). pose proof (walk_back_short 0 after (p - 512) Ha).
  fold from in H, H0.
  assert (forall s, rune_gaps s -> (p <= strlen s)%nat ->
    let to := walk_back from s (Nat.min (strlen s) (from + maxConfigMapValueBytes)) in
    (to <= from + maxConfigMapValueBytes)%nat /\ (p < to \/ to = strlen s)%nat) as Hto.
  { intros s Hs Hp to. unfold maxConfigMapValueBytes in *.
    pose proof (walk_back_le from s (Nat.min (strlen s) (from + 2048))).
    fold to in H1. split; [lia|].
    destruct (decide (from + 2048 < strlen s)%nat).
    - pose proof (walk_back_short from s (Nat.min (strlen s) (from + 2048)) Hs). fold to in H2. lia.
    - right. unfold to. replace (Nat.min _ _) with (strlen s) by lia.
      destruct (strlen s) as [|n'] eqn:E; [done|]. cbn [walk_back].
      destruct (String.get (S n') s) eqn:Eg; [apply get_lt in Eg; lia|]. by case_match. }
  destruct (Hto before Hb Hpb), (Hto after Ha Hpa). split_and!; try done; lia.
Qed.

(** ** Witnesses *)

(** A matcher that always reports one replaced range. *)
Definition whole_replace (b a : list string) : list OpCode := [MkOp false 0 (length b) 0 (length a)].
Lemma whole_replace_tile b a : ops_tile b a 0 0 (whole_replace b a).
Proof. simpl. split_and!; try lia; done. Qed.

Definition toy_lines (v : string) : list string := ["1"; "2"; "3"; "4"; v; "6"; "7"; "8"; "9"].

Lemma hunks_carry_the_change_witness :
  changedHunks whole_replace (toy_lines "x") (toy_lines "y") = [MkHunk 1 8 1 8]
  /\ patch (toy_lines "x") (toy_lines "y") (changedHunks whole_replace (toy_lines "x") (toy_lines "y"))
     = toy_lines "y".
Proof.
  split; [by vm_compute|].
  exact (proj1 (hunks_carry_the_change whole_replace whole_replace_tile
    (toy_lines "x") (toy_lines "y"))).
Defined.

Lemma windows_show_first_difference_witness :
  (1 < (window (window_start "ab" "ac") "ab").2 \/ (window (window_start "ab" "ac") "ab").2 = 2)%nat.
Proof.
  destruct (windows_show_first_difference "ab" "ac" ltac:(by vm_compute) ltac:(by vm_compute))
    as (_ & _ & _ & _ & _ & H & _). exact H.
Defined.
