(* ===== verification/ConfigChange.v ===== *)
(** * Configuration changes (pkg/triggers/diff.go and predicates.go)

    The diff evidence blocks, with the capping of ConfigMap values, and the
    matchers that report changes of workloads, Ingresses and ConfigMaps; then
    the list of all built-in matchers.  The line matcher, the YAML encoder
    and the character classes of package unicode are parameters. *)

From S2P Require Import Prelude GoText GoJson GoStruct CanonJson GoMarshal Lru RateLimit Churn Owner.
From S2P Require Import Engine Predicates ServiceEndpoints Diff ChangeWindow Snake.

Set Default Proof Using "Type".

(** ** Copies of objects *)

Fixpoint deletePath (m : list (string * json)) (parts : list string) : list (string * json) :=
  match parts with
  | [] => m
  | [p] => mdel p m
  | p :: rest =>
    match get_obj (Some m) p with
    | None => m
    | Some next => mset p (JObj (deletePath next rest)) m
    end
  end.

(** The deep copy is a JSON round trip. *)
Definition stripOmittedFields (obj : gomap) (omit : list string) : gomap :=
  match obj with
  | None => None
  | Some m =>
    match marshal (JObj m) with
    | None => obj
    | Some b =>
      match unmarshal_any b with
      | Some (JObj out) =>
        Some (foldl (fun acc path => deletePath acc (split_at "." path)) out omit)
      | _ => obj
      end
    end
  end.

Definition withoutLastAppliedAnnotation (obj : gomap) : gomap :=
  match obj with
  | None => None
  | Some out =>
    match get_obj obj "metadata" with
    | None => obj
    | Some meta =>
      match get_obj (Some meta) "annotations" with
      | Some ann =>
        if mhas (Some ann) lastAppliedAnnotation
        then Some (mset "metadata" (JObj (mset "annotations" (JObj (mdel lastAppliedAnnotation ann)) meta)) out)
        else obj
      | None => obj
      end
    end
  end.

(** ** Capped values *)
Definition truncateValue (v : json) : json :=
  match v with
  | JStr s =>
    if bool_decide (strlen s <= maxConfigMapValueBytes)%nat then v
    else
      let limit := walk_back 0 s maxConfigMapValueBytes in
      JStr (String.substring 0 limit s +:+ String (chr 10) "... [truncated: "
            +:+ itoa (Z.of_nat limit) +:+ " of " +:+ itoa (Z.of_nat (strlen s)) +:+ " bytes shown]")
  | _ => v
  end.

Record valueWindow := MkWindow { w_before : string; w_after : string }.
Definition window_side (w : valueWindow) (before : bool) : string :=
  if before then w_before w else w_after w.

Section blocks.
Variable get_opcodes : list string -> list string -> list OpCode.
(** [yaml.Marshal]. *)
Variable yaml_marshal : json -> result string.
Variables (is_upper is_lower is_digit_rune : Z -> bool) (to_lower_rune : Z -> Z).

Definition objectToYAML (obj : gomap) (omit : list string) : string :=
  match stripOmittedFields obj omit with
  | None => ""
  | Some m =>
    match yaml_marshal (SnakeKeysDeep is_upper is_lower is_digit_rune to_lower_rune (JObj m)) with
    | Ok b => b
    | Err _ => ""
    end
  end.

(** The windows of one field's changed values, by path. *)
Definition field_windows (oldObj obj : gomap) (field : string) : list (string * valueWindow) :=
  flat_map (fun kv =>
    match mget (get_obj oldObj field) kv.1, kv.2 with
    | JStr bs, JStr as_ =>
      if bool_decide (bs = as_) then []
      else if bool_decide (strlen bs <= maxConfigMapValueBytes)%nat
              && bool_decide (strlen as_ <= maxConfigMapValueBytes)%nat then []
      else let '(b, a) := changeWindows get_opcodes bs as_ in
           [(joinPath field kv.1, MkWindow b a)]
    | _, _ => []
    end) (default [] (get_obj obj field)).
Definition changedValueWindows (oldObj obj : gomap) : list (string * valueWindow) :=
  field_windows oldObj obj "data" ++ field_windows oldObj obj "binaryData".

Definition cap_field (windows : list (string * valueWindow)) (before : bool)
  (out : list (string * json)) (field : string) : list (string * json) :=
  match get_obj (Some out) field with
  | None => out
  | Some src =>
    mset field (JObj (map (fun kv =>
      (kv.1, match assoc (joinPath field kv.1) windows with
             | Some w => JStr (window_side w before)
             | None => truncateValue kv.2
             end)) src)) out
  end.
Definition truncateConfigMapValues (obj : gomap) (windows : list (string * valueWindow))
  (before : bool) : gomap :=
  match withoutLastAppliedAnnotation obj with
  | None => None
  | Some out => Some (foldl (cap_field windows before) out ["data"; "binaryData"])
  end.

Definition truncateDiffValues (diffs : list DiffEntry) (windows : list (string * valueWindow))
  : list DiffEntry :=
  map (fun d => match assoc (Path d) windows with
                | Some w => MkDiff (Path d) (JStr (w_before w)) (JStr (w_after w))
                | None => MkDiff (Path d) (truncateValue (Before d)) (truncateValue (After d))
                end) diffs.

(** ** Evidence blocks *)
Definition BuildKubernetesDiffBlock (obj oldObj : gomap) (kind : string) (diffs : list DiffEntry)
  : json :=
  let omit := FieldsToOmit DefaultSpecDiffOptions in
  let '(name, namespace) :=
    if bool_decide (metaName obj = "") then (metaName oldObj, metaNS oldObj)
    else (metaName obj, metaNS obj) in
  let k := to_lower kind in
  let resourceName :=
    (if bool_decide (k = "") then "" else k +:+ "/")
    +:+ (if bool_decide (namespace = "") then "" else namespace +:+ "/") +:+ name +:+ ".yaml" in
  JObj [("type", JStr "diff");
        ("data", JObj
          [("old", JStr (objectToYAML oldObj omit));
           ("new", JStr (objectToYAML obj omit));
           ("resource_name", JStr resourceName);
           ("num_additions", JInt 0);
           ("num_deletions", JInt 0);
           ("num_modifications", JInt (Z.of_nat (length diffs)));
           ("updated_paths", JArr (map (fun d => JStr (Path d)) diffs));
           ("updated_values", JArr (map (fun d =>
              JObj [("path", JStr (Path d)); ("old", Before d); ("new", After d);
                    ("report", JStr "")]) diffs))]);
        ("additional_info", JNull)].

Definition BuildConfigMapDiffBlock (obj oldObj : gomap) (diffs : list DiffEntry) : json :=
  let windows := changedValueWindows oldObj obj in
  BuildKubernetesDiffBlock (truncateConfigMapValues obj windows false)
    (truncateConfigMapValues oldObj windows true) "ConfigMap" (truncateDiffValues diffs windows).

Definition BuildIngressDiffBlock (obj oldObj : gomap) (diffs : list DiffEntry) : json :=
  BuildKubernetesDiffBlock (withoutLastAppliedAnnotation obj) (withoutLastAppliedAnnotation oldObj)
    "Ingress" diffs.

(** ** The matchers *)
Definition changeKey : string := "ConfigurationChange/KubernetesResource/Change".

Definition babysitterChangeMatcher (kind : string) : MatcherSpec :=
  let ingress := fold_equal kind "Ingress" in
  let diffOpt := if ingress then IngressDiffOptions else DefaultSpecDiffOptions in
  let buildBlock (obj oldObj : gomap) (diffs : list DiffEntry) :=
    if ingress then BuildIngressDiffBlock obj oldObj diffs
    else BuildKubernetesDiffBlock obj oldObj kind diffs in
  MkSpec ("babysitter_" +:+ to_lower kind) kind ["update"]
    (Some (fun _ obj oldObj =>
       bool_decide (is_Some oldObj)
       && negb (bool_decide (ComputeSpecDiff obj oldObj diffOpt = []))))
    None None changeKey "INFO" "configuration_change" (30 * second)
    (Some (fun _ obj => fp [changeKey; metaNS obj; to_lower kind; metaName obj]))
    None false false
    (Some (fun _ obj oldObj _ =>
       let diffs := ComputeSpecDiff obj oldObj diffOpt in
       if bool_decide (diffs = []) then [] else [buildBlock obj oldObj diffs])).

Definition ConfigMapExcludedNamespaces : list string :=
  ["kube-system"; "kube-public"; "kube-node-lease"; "gke-managed-system"; "gke-managed-cim";
   "gmp-system"; "gke-gmp-system"].
Definition trackedSystemConfigMaps : list string :=
  ["coredns"; "kube-dns"; "aws-auth"; "kube-proxy"; "kubelet-config";
   "cluster-autoscaler-priority-expander"].

(** The list is a package variable set at start-up, hence an argument. *)
Definition inExcludedNamespace (excluded : list string) (namespace : string) : bool :=
  negb (bool_decide (namespace = ""))
  && existsb (fun ns => bool_decide (ns = namespace)
                        || (has_suffix ns "*" && has_prefix namespace (trim_suffix ns "*"))) excluded.
Definition isTrackedSystemConfigMap (name : string) : bool :=
  bool_decide (name ∈ trackedSystemConfigMaps).

Definition isNoisyConfigMap (excluded : list string) (obj : gomap) : bool :=
  if bool_decide (metaName obj = "kube-root-ca.crt") then true
  else if inExcludedNamespace excluded (metaNS obj) && negb (isTrackedSystemConfigMap (metaName obj))
  then true
  else match get_obj obj "metadata" with
  | None => false
  | Some meta =>
    if mhas (get_obj (Some meta) "annotations") "control-plane.alpha.kubernetes.io/leader" then true
    else
      let owner := get_str (get_obj (Some meta) "labels") "OWNER" in
      bool_decide (owner = "TILLER") || bool_decide (owner = "HELM")
  end.

Definition configMapChangeMatcher (excluded : list string) : MatcherSpec :=
  MkSpec "babysitter_configmap" "ConfigMap" ["update"]
    (Some (fun _ obj oldObj =>
       if negb (bool_decide (is_Some oldObj)) || isNoisyConfigMap excluded obj then false
       else negb (bool_decide (ComputeSpecDiff obj oldObj ConfigMapDiffOptions = []))))
    None None changeKey "INFO" "configuration_change" (30 * second)
    (Some (fun _ obj => fp [changeKey; metaNS obj; "configmap"; metaName obj]))
    None true false
    (Some (fun _ obj oldObj _ =>
       let diffs := ComputeSpecDiff obj oldObj ConfigMapDiffOptions in
       if bool_decide (diffs = []) then [] else [BuildConfigMapDiffBlock obj oldObj diffs])).

Definition babysitter_kinds : list string :=
  ["Deployment"; "DaemonSet"; "StatefulSet"; "Ingress"; "Rollout"].
Definition Builtins (excluded : list string) : list MatcherSpec :=
  [podCrashLoopMatcher; podOOMKilledMatcher; imagePullBackoffMatcher; jobFailureMatcher;
   nodeNotReadyMatcher; nodeUnschedulableMatcher; nodePressureMatcher; podUnschedulableMatcher;
   serviceNoEndpointsMatcher]
  ++ map babysitterChangeMatcher babysitter_kinds ++ [configMapChangeMatcher excluded].
End blocks.

(** ** Which updates are reported *)

Section fires.
Variable get_opcodes : list string -> list string -> list OpCode.
Variable yaml_marshal : json -> result string.
Variables (is_upper is_lower is_digit_rune : Z -> bool) (to_lower_rune : Z -> Z).
Abbreviation babysitter := (babysitterChangeMatcher yaml_marshal is_upper is_lower is_digit_rune to_lower_rune).
Abbreviation configmap := (configMapChangeMatcher get_opcodes yaml_marshal is_upper is_lower is_digit_rune to_lower_rune).
Abbreviation builtins := (Builtins get_opcodes yaml_marshal is_upper is_lower is_digit_rune to_lower_rune).

(** An update of a workload is reported exactly when some leaf of its spec
    changed; updates that touch only status or metadata never are.  A member
    that is nil on one side and absent on the other has not changed. *)
Theorem workload_change_reported kind now o n :
  fold_equal kind "Ingress" = false ->
  proper (JObj o) = true -> proper (JObj n) = true -> forallb plain (o.*1 ++ n.*1) = true ->
  (exists pred, Predicate (babysitter kind) = Some pred
     /\ (pred now (Some n) (Some o) = true <->
         exists p, leaf_change (mget (Some o) "spec") (mget (Some n) "spec") p)).
Proof.
  intros Hk Ho Hn Hkeys. eexists. split; [reflexivity|]. cbn beta.
  rewrite Hk, bool_decide_eq_true_2 by done. cbn [andb].
  rewrite negb_true_iff, bool_decide_eq_false.
  rewrite (monitored_fields DefaultSpecDiffOptions ["spec"] o n) by (done || apply default_kept).
  setoid_rewrite list_elem_of_singleton. naive_solver.
Qed.

(** An update of a ConfigMap is reported exactly when it is not one of the
    self-rewriting ones and a leaf of its data or binaryData changed. *)
Theorem configmap_change_reported excluded now o n :
  proper (JObj o) = true -> proper (JObj n) = true -> forallb plain (o.*1 ++ n.*1) = true ->
  (exists pred, Predicate (configmap excluded) = Some pred
     /\ (pred now (Some n) (Some o) = true <->
         isNoisyConfigMap excluded (Some n) = false
         /\ exists f p, f ∈ ["data"; "binaryData"]
              /\ leaf_change (mget (Some o) f) (mget (Some n) f) p)).
Proof.
  intros Ho Hn Hkeys. eexists. split; [reflexivity|]. cbn beta.
  rewrite bool_decide_eq_true_2 by done. cbn [negb orb].
  rewrite <- (monitored_fields ConfigMapDiffOptions ["data"; "binaryData"] o n)
    by (done || apply configmap_kept).
  destruct (isNoisyConfigMap excluded (Some n)); [naive_solver|].
  rewrite negb_true_iff, bool_decide_eq_false. naive_solver.
Qed.

(** The critical system ConfigMaps are reported wherever they live, unless
    they are leases or release records; every other ConfigMap of an excluded
    namespace is dropped. *)
Lemma system_configmaps excluded m :
  inExcludedNamespace excluded (metaNS m) = true ->
  isNoisyConfigMap excluded m = false -> metaName m ∈ trackedSystemConfigMaps.
Proof.
  intros Hx. unfold isNoisyConfigMap. rewrite Hx. case_bool_decide; [done|]. cbn [andb].
  destruct (isTrackedSystemConfigMap (metaName m)) eqn:E; [|done].
  by apply bool_decide_eq_true in E.
Qed.

(** ** The built-in matchers do not share limiter entries *)

(** No two built-in matchers share a rate-limiter entry, whatever objects they
    fire on: a finding of one never suppresses one of another. *)
Theorem builtins_never_share_entries excluded i j s s' now now' obj obj' :
  builtins excluded !! i = Some s -> builtins excluded !! j = Some s' ->
  limiter_key now s obj = limiter_key now' s' obj' -> i = j.
Proof.
  intros Hi Hj. unfold limiter_key. change (":" +:+ ?x) with (String ":" x).
  assert (forall k t, builtins excluded !! k = Some t ->
    (Name <$> builtins excluded) !! k = Some (Name t)) as Hname
    by (intros k t Hk; by rewrite list_lookup_fmap, Hk).
  apply Hname in Hi, Hj.
  set (names := Name <$> builtins excluded) in *. vm_compute in names.
  assert (forallb no_colon names = true) as Hc by (by vm_compute).
  assert (bool_decide (NoDup names) = true) as Hn%bool_decide_eq_true by (by vm_compute).
  rewrite forallb_forall in Hc.
  intros [E _]%colon_split; [|apply Hc, list_elem_of_In; by eapply list_elem_of_lookup_2..].
  rewrite E in Hi. by eapply NoDup_lookup.
Qed.
End fires.

(** ** Capped evidence *)

Lemma dec_digits_length fuel n acc k : n < 10 ^ Z.of_nat (S k) ->
  (strlen (dec_digits fuel n acc) <= S k + strlen acc)%nat.
Proof.
  revert n acc k. induction fuel as [|fuel IH]; intros n acc k Hn; cbn [dec_digits]; [lia|].
  destruct (n <? 10) eqn:E; [unfold strlen; simpl; lia|].
  destruct k as [|k]; [change (10 ^ Z.of_nat 1) with 10 in Hn; lia|].
  etransitivity; [apply (IH _ _ k)|unfold strlen; simpl; lia].
  rewrite (Nat2Z.inj_succ (S k)), Z.pow_succ_r in Hn by lia. apply Z.div_lt_upper_bound; lia.
Qed.
Lemma itoa_length n k : (Z.of_nat n < 10 ^ Z.of_nat (S k)) -> (strlen (itoa (Z.of_nat n)) <= S k)%nat.
Proof.
  intros Hn. unfold itoa, utoa. replace (Z.of_nat n <? 0) with false by lia.
  etransitivity; [by apply (dec_digits_length _ _ _ k)|]. unfold strlen. simpl. lia.
Qed.

Lemma itoa_seven n : (Z.of_nat n < 10000000) -> (strlen (itoa (Z.of_nat n)) <= 7)%nat.
Proof. intros Hn. by apply itoa_length. Qed.

Lemma substring_length i n s : (strlen (String.substring i n s) <= n)%nat.
Proof.
  unfold strlen. revert i n. induction s as [|c s IH]; intros [|i] [|n]; simpl; try lia.
  - specialize (IH 0%nat n). lia.
  - specialize (IH i 0%nat). lia.
  - specialize (IH i (S n)). lia.
Qed.

(** Kubernetes stores at most a mebibyte in an object, so lengths have at
    most seven digits. *)
Definition small (s : string) : Prop := (Z.of_nat (strlen s) < 10000000).
Definition evidence_cap : nat := 2112.

Lemma cut_capped start s : small s -> (strlen (cut start s) <= evidence_cap)%nat.
Proof.
  intros Hs. unfold cut. destruct (window start s) as [from to] eqn:E. unfold window in E.
  injection E as Hf Ht. unfold small in Hs.
  pose proof (walk_back_le 0 s (Nat.min start (strlen s))) as H1. rewrite Hf in *.
  pose proof (walk_back_le from s (Nat.min (strlen s) (from + maxConfigMapValueBytes))) as H2.
  rewrite Ht in H2. unfold maxConfigMapValueBytes in H2.
  pose proof (itoa_seven from ltac:(lia)). pose proof (itoa_seven to ltac:(lia)).
  pose proof (itoa_seven (strlen s) ltac:(lia)).
  pose proof (substring_length from (to - from) s). unfold substr.
  rewrite !strlen_app.
  change (strlen "... [truncated: showing bytes ") with 30%nat. change (strlen "-") with 1%nat.
  change (strlen " of ") with 4%nat. change (strlen "]") with 1%nat.
  rewrite strlen_cons. unfold evidence_cap. lia.
Qed.

Lemma changeWindows_capped get_opcodes before after : small before -> small after ->
  (strlen (changeWindows get_opcodes before after).1 <= evidence_cap)%nat
  /\ (strlen (changeWindows get_opcodes before after).2 <= evidence_cap)%nat.
Proof.
  intros Hb Ha. unfold changeWindows. case_match eqn:E.
  - apply andb_prop in E as [E1%bool_decide_eq_true E2%bool_decide_eq_true]. simpl.
    unfold maxConfigMapValueBytes, evidence_cap in *. lia.
  - simpl. by split; apply cut_capped.
Qed.

Definition text_capped (v : json) : Prop := (strlen (as_str v) <= evidence_cap)%nat.

Lemma truncateValue_capped v : small (as_str v) -> text_capped (truncateValue v).
Proof.
  unfold text_capped, small.
  destruct v as [| | | |s| | |]; try (intros _; apply Nat.le_0_l). cbn [as_str truncateValue].
  intros Hs. case_bool_decide as Hc.
  - cbn [as_str]. unfold maxConfigMapValueBytes, evidence_cap in *. lia.
  - cbn [as_str]. set (limit := walk_back 0 s maxConfigMapValueBytes).
    pose proof (walk_back_le 0 s maxConfigMapValueBytes) as H1. fold limit in H1.
    unfold maxConfigMapValueBytes in *.
    pose proof (itoa_seven limit ltac:(lia)).
    pose proof (itoa_seven (strlen s) ltac:(lia)).
    pose proof (substring_length 0 limit s).
    rewrite !strlen_app.
    change (strlen (String (chr 10) "... [truncated: ")) with 17%nat. change (strlen " of ") with 4%nat.
    change (strlen " bytes shown]") with 13%nat. unfold evidence_cap. lia.
Qed.

(** All texts of a map are of ordinary size. *)
Definition small_values (m : gomap) : Prop :=
  forall k v, (k, v) ∈ default [] m -> small (as_str v).

Section capped.
Variable get_opcodes : list string -> list string -> list OpCode.

Lemma mget_small m k : small_values m -> small (as_str (mget m k)).
Proof.
  intros H. unfold mget. destruct m as [m|]; [|done].
  destruct (assoc k m) as [v|] eqn:E; [|done]. apply (H k), assoc_In, E.
Qed.

Definition window_capped (w : valueWindow) : Prop :=
  (strlen (w_before w) <= evidence_cap)%nat /\ (strlen (w_after w) <= evidence_cap)%nat.

Lemma field_windows_capped oldObj obj field path w :
  small_values (get_obj oldObj field) -> small_values (get_obj obj field) ->
  (path, w) ∈ field_windows get_opcodes oldObj obj field ->
  window_capped w /\ exists k, path = joinPath field k.
Proof.
  intros Ho Hn Hin. apply list_elem_of_In, in_flat_map in Hin as ([k v] & Hk & Hin).
  cbn [fst snd] in Hin. apply (mget_small _ k) in Ho.
  assert (small (as_str v)) as Hv by (apply (Hn k), list_elem_of_In, Hk).
  destruct (mget (get_obj oldObj field) k); try done. destruct v as [| | | |s'| | |]; try done.
  case_bool_decide; [done|]. case_match; [done|].
  pose proof (changeWindows_capped get_opcodes s s' Ho Hv) as Hc.
  destruct (changeWindows get_opcodes s s') as [b a]. apply list_elem_of_In, list_elem_of_singleton in Hin.
  injection Hin as -> ->. split; [exact Hc|]. by exists k.
Qed.

Lemma windows_capped oldObj obj path w :
  (forall f, f ∈ ["data"; "binaryData"] ->
     small_values (get_obj oldObj f) /\ small_values (get_obj obj f)) ->
  (path, w) ∈ changedValueWindows get_opcodes oldObj obj -> window_capped w.
Proof.
  intros Hs. unfold changedValueWindows. rewrite elem_of_app. intros [Hin|Hin].
  - destruct (Hs "data") as [H1 H2]; [left|]. by eapply field_windows_capped in Hin as [? _].
  - destruct (Hs "binaryData") as [H1 H2]; [right; left|].
    by eapply field_windows_capped in Hin as [? _].
Qed.

(** Removing the annotation touches metadata only. *)
Lemma without_annotation_field obj field : field <> "metadata" ->
  get_obj (withoutLastAppliedAnnotation obj) field = get_obj obj field.
Proof.
  intros Hf. unfold withoutLastAppliedAnnotation. destruct obj as [m|]; [|done].
  repeat case_match; try done. unfold get_obj, mget. by rewrite assoc_mset, decide_False.
Qed.

Lemma cap_field_other ws before out f f' : f' <> f ->
  get_obj (Some (cap_field ws before out f)) f' = get_obj (Some out) f'.
Proof.
  intros Hf. unfold cap_field. case_match; [|done]. unfold get_obj, mget.
  by rewrite assoc_mset, decide_False.
Qed.

Lemma cap_field_capped ws before out f k :
  (forall path w, (path, w) ∈ ws -> window_capped w) -> small_values (get_obj (Some out) f) ->
  text_capped (mget (get_obj (Some (cap_field ws before out f)) f) k).
Proof.
  intros Hws Hs. unfold cap_field. destruct (get_obj (Some out) f) as [src|] eqn:E.
  2: { rewrite E. apply Nat.le_0_l. }
  unfold get_obj at 1, mget at 2. rewrite assoc_mset, decide_True by done. unfold default, id, mget. cbn [as_obj].
  match goal with |- context [assoc k ?l] => destruct (assoc k l) as [v|] eqn:Ek end; [|apply Nat.le_0_l].
  apply assoc_In, list_elem_of_In, in_map_iff in Ek as ([k' v'] & [= -> <-] & Hin).
  destruct (assoc _ ws) as [w|] eqn:Ew.
  - apply assoc_In, Hws in Ew as [Hb Ha]. unfold text_capped. simpl. by destruct before.
  - apply truncateValue_capped. apply (Hs k), list_elem_of_In, Hin.
Qed.

(** The rendered ConfigMaps are capped: every text of data and binaryData, on
    either side of the change, is shown with at most [evidence_cap] bytes,
    excerpt header included. *)
Theorem configmap_values_capped oldObj obj shown before field k :
  (shown = obj \/ shown = oldObj) -> field ∈ ["data"; "binaryData"] ->
  (forall f, f ∈ ["data"; "binaryData"] ->
     small_values (get_obj oldObj f) /\ small_values (get_obj obj f)) ->
  text_capped (mget (get_obj (truncateConfigMapValues shown
    (changedValueWindows get_opcodes oldObj obj) before) field) k).
Proof.
  intros Hshown Hf Hs. set (ws := changedValueWindows get_opcodes oldObj obj).
  assert (forall path w, (path, w) ∈ ws -> window_capped w) as Hws
    by (intros path w; by apply windows_capped).
  assert (small_values (get_obj shown field)) as Hsm
    by (destruct Hshown as [-> | ->]; by apply Hs).
  unfold truncateConfigMapValues.
  assert (field <> "metadata") as Hm by (by rewrite !elem_of_cons, elem_of_nil in Hf; destruct Hf as [->|[->|[]]]).
  pose proof (without_annotation_field shown field Hm) as Hw.
  destruct (withoutLastAppliedAnnotation shown) as [out|]; [|apply Nat.le_0_l].
  rewrite <- Hw in Hsm. cbn [foldl].
  rewrite !elem_of_cons, elem_of_nil in Hf. destruct Hf as [->|[->|[]]].
  - rewrite cap_field_other by done. by apply cap_field_capped.
  - apply cap_field_capped; [done|]. by rewrite cap_field_other.
Qed.

Lemma window_path_not_field oldObj obj :
  assoc "data" (changedValueWindows get_opcodes oldObj obj) = None.
Proof.
  destruct (assoc "data" _) as [w|] eqn:E; [|done]. apply assoc_In in E.
  unfold changedValueWindows in E. rewrite elem_of_app in E.
  assert (forall f, ("data", w) ∈ field_windows get_opcodes oldObj obj f ->
    exists k, "data" = joinPath f k) as H.
  { intros f (kv & _ & Hin)%list_elem_of_In%in_flat_map. exists kv.1.
    repeat case_match; try done. apply list_elem_of_In, list_elem_of_singleton in Hin. congruence. }
  destruct E as [(k & Hk)%H|(k & Hk)%H]; done.
Qed.

(** The cap does not reach a ConfigMap whose data appears as a whole (a
    ConfigMap created empty and filled later): the change is one entry for
    the map, which is not a string, and its values are shipped in full. *)
Theorem added_data_uncapped o n d :
  proper (JObj o) = true -> proper (JObj n) = true ->
  assoc "data" o = None -> assoc "data" n = Some (JObj d) ->
  MkDiff "data" JNull (JObj d)
    ∈ truncateDiffValues (ComputeSpecDiff (Some n) (Some o) ConfigMapDiffOptions)
        (changedValueWindows get_opcodes (Some o) (Some n)).
Proof.
  intros Ho Hn Hod Hnd. unfold truncateDiffValues. rewrite list_elem_of_fmap.
  exists (MkDiff "data" JNull (JObj d)). split.
  { cbn [Path]. by rewrite window_path_not_field. }
  unfold ComputeSpecDiff. rewrite bool_decide_eq_false_2 by done.
  apply elem_of_filterDiffs. split; [|by rewrite configmap_kept].
  assert (leaf_change (JObj o) (JObj n) [Key "data"]) as Hl.
  { split; [done|]. cbn [member as_obj mget]. rewrite Hod, Hnd. split; [done|].
    change (jsonEqual JNull (JObj d) = false).
    pose proof (proj2 (proj2 (proper_obj n Hn) "data" (JObj d) Hnd)) as Hd.
    destruct (marshal_total _ Hd) as [t Ht].
    destruct (marshal_lead (JObj d) t eq_refl Ht) as [s ->].
    apply bool_decide_eq_false. by rewrite Ht. }
  pose proof (walk_complete (JObj o) "" (JObj n) _ Ho Hn Hl) as Hw.
  unfold render_from, at_path in Hw. simpl in Hw. by rewrite Hod, Hnd in Hw.
Qed.
End capped.

(** A value cut at the cap keeps whole characters: what is shown of proper
    text is proper text, a prefix of the value, at most three bytes short of
    the cap. *)
Theorem truncation_keeps_characters s :
  valid_utf8 s = true -> (maxConfigMapValueBytes < strlen s)%nat ->
  exists limit marker, truncateValue (JStr s) = JStr (String.substring 0 limit s +:+ marker)
    /\ valid_utf8 (String.substring 0 limit s) = true
    /\ (maxConfigMapValueBytes - 3 <= limit <= maxConfigMapValueBytes)%nat.
Proof.
  intros Hv Hlen. unfold truncateValue. rewrite bool_decide_eq_false_2 by lia.
  set (limit := walk_back 0 s maxConfigMapValueBytes). eexists limit, _. split; [reflexivity|].
  pose proof (walk_back_le 0 s maxConfigMapValueBytes) as H1.
  pose proof (walk_back_short 0 s maxConfigMapValueBytes (valid_rune_gaps s Hv)) as H2.
  fold limit in H1, H2. split; [|lia].
  destruct (walk_back_start s maxConfigMapValueBytes Hlen) as [H0|(c & Hc & Hs)].
  - fold limit in H0. unfold maxConfigMapValueBytes in H2. lia.
  - fold limit in Hc. clearbody limit. pose proof Hv as Hv'. apply bool_decide_eq_true in Hv'. rewrite <- Hv' in Hc |- *.
    destruct (cut_at_start _ _ _ Hc Hs) as (j & ->). apply encode_runes_valid.
    apply Forall_take, runes_valid.
Qed.

(** ** Witnesses *)
Definition toy_yaml (v : json) : result string :=
  match marshal v with Some t => Ok t | None => Err "yaml" end.
Abbreviation toy_babysitter :=
  (babysitterChangeMatcher toy_yaml ascii_upper ascii_lower ascii_digit ascii_to_lower).
Abbreviation toy_configmap :=
  (configMapChangeMatcher whole_replace toy_yaml ascii_upper ascii_lower ascii_digit ascii_to_lower).
Abbreviation toy_builtins :=
  (Builtins whole_replace toy_yaml ascii_upper ascii_lower ascii_digit ascii_to_lower).
Definition toy_config (v : string) : list (string * json) :=
  [("metadata", JObj [("name", JStr "c"); ("namespace", JStr "n")]); ("data", JObj [("k", JStr v)])].
Definition empty_config : list (string * json) :=
  [("metadata", JObj [("name", JStr "c"); ("namespace", JStr "n")])].

Lemma workload_change_reported_witness :
  exists pred, Predicate (toy_babysitter "Deployment") = Some pred
    /\ pred zero_time (Some toy_new) (Some toy_old) = true.
Proof.
  destruct (workload_change_reported toy_yaml ascii_upper ascii_lower ascii_digit ascii_to_lower
    "Deployment" zero_time toy_old toy_new) as (pred & Hp & H); [by vm_compute..|].
  exists pred. split; [exact Hp|]. apply H. exists [Key "replicas"]. by vm_compute.
Defined.

Lemma configmap_change_reported_witness :
  exists pred, Predicate (toy_configmap ConfigMapExcludedNamespaces) = Some pred
    /\ pred zero_time (Some (toy_config "new")) (Some (toy_config "old")) = true.
Proof.
  destruct (configmap_change_reported whole_replace toy_yaml ascii_upper ascii_lower ascii_digit
    ascii_to_lower ConfigMapExcludedNamespaces zero_time (toy_config "old") (toy_config "new"))
    as (pred & Hp & H); [by vm_compute..|].
  exists pred. split; [exact Hp|]. apply H. split; [by vm_compute|].
  exists "data", [Key "k"]. split; [left|]. by vm_compute.
Defined.

Lemma builtins_never_share_entries_witness :
  exists s, toy_builtins [] !! 9%nat = Some s /\ Name s = "babysitter_deployment" /\ (9 = 9)%nat.
Proof.
  eexists. split; [reflexivity|]. split; [reflexivity|].
  exact (builtins_never_share_entries whole_replace toy_yaml ascii_upper ascii_lower ascii_digit
    ascii_to_lower [] 9 9 _ _ zero_time zero_time None None eq_refl eq_refl eq_refl).
Defined.

Lemma configmap_values_capped_witness :
  text_capped (mget (get_obj (truncateConfigMapValues (Some (toy_config "new"))
    (changedValueWindows whole_replace (Some (toy_config "old")) (Some (toy_config "new"))) false)
    "data") "k").
Proof.
  apply (configmap_values_capped whole_replace (Some (toy_config "old")) (Some (toy_config "new")));
    [by left|left|].
  intros f Hf. rewrite !elem_of_cons, elem_of_nil in Hf.
  destruct Hf as [->|[->|[]]]; split; intros k v Hin; try (by apply elem_of_nil in Hin);
    apply list_elem_of_singleton in Hin; injection Hin as -> ->; by vm_compute.
Defined.

Lemma added_data_uncapped_witness :
  MkDiff "data" JNull (JObj [("k", JStr "v")])
    ∈ truncateDiffValues
        (ComputeSpecDiff (Some (toy_config "v")) (Some empty_config) ConfigMapDiffOptions)
        (changedValueWindows whole_replace (Some empty_config) (Some (toy_config "v"))).
Proof.
  apply (added_data_uncapped whole_replace empty_config (toy_config "v")); by vm_compute.
Defined.

Definition long_text : string := String.concat "" (repeat "é" 1030).
Lemma truncation_keeps_characters_witness :
  exists limit marker, truncateValue (JStr long_text)
      = JStr (String.substring 0 limit long_text +:+ marker)
    /\ valid_utf8 (String.substring 0 limit long_text) = true
    /\ (maxConfigMapValueBytes - 3 <= limit <= maxConfigMapValueBytes)%nat.
Proof.
  apply (truncation_keeps_characters long_text); [by vm_compute|].
  apply Nat.ltb_lt. by vm_compute.
Defined.
