(* ===== verification/KubectlExec.v ===== *)
(** * The kubectl command executor (pkg/kube/exec.go, pkg/cmdout)

    A command line is split into tokens, the tokens into segments chained by
    shell operators, and every segment is checked against the read-only
    allowlist before the first one runs.  The tokenizer (google/shlex), the
    gzip encoder, the quoting of error texts and the processes themselves are
    parameters.  The allowlist is judged against kubectl's own way of finding
    the verb, for every flag table that agrees with the agent's on the flags
    the agent knows. *)

From S2P Require Import Prelude GoText GoJson GoCrypto.

Set Default Proof Using "Type".

(** ** Collected output (pkg/cmdout) *)
Definition Gzip : string := "gzip".
Record Output := MkOutput { o_gzip : bool; o_data : string }.
Definition NewOutput (encoding : string) : Output := MkOutput (bool_decide (encoding = Gzip)) "".
Definition WriteOutput (p : string) (o : Output) : Output := MkOutput (o_gzip o) (o_data o +:+ p).
Definition Encoding (o : Output) : string := if o_gzip o then Gzip else "".
Definition Len (o : Output) : Z := Z.of_nat (strlen (o_data o)).
Definition Text (o : Output) : string := if o_gzip o then "" else o_data o.

(** ** Tables *)
Definition allowedKubectlVerbs : list string :=
  ["get"; "describe"; "logs"; "top"; "explain"; "api-resources"; "api-versions"; "version";
   "cluster-info"; "events"; "config"; "auth"; "rollout"].
Definition readOnlySubcommands : list (string * list string) :=
  [("rollout", ["history"; "status"]);
   ("config", ["view"; "current-context"; "get-contexts"; "get-clusters"; "get-users"]);
   ("auth", ["can-i"; "whoami"])].
Definition globalFlags : list (string * bool) :=
  map (fun f => (f, true))
    ["--as"; "--as-group"; "--as-uid"; "--as-user-extra"; "--cache-dir"; "--certificate-authority";
     "--client-certificate"; "--client-key"; "--cluster"; "--context"; "--kubeconfig"; "--kuberc";
     "--log-flush-frequency"; "-n"; "--namespace"; "--password"; "--profile"; "--profile-output";
     "--request-timeout"; "-s"; "--server"; "--tls-server-name"; "--token"; "--user"; "--username";
     "-v"; "--v"; "--vmodule"; "-o"; "--output"; "--log-file"; "--log-dir"; "--log-file-max-size";
     "--log-backtrace-at"; "--stderrthreshold"; "--logging-format"]
  ++ map (fun f => (f, false))
    ["--disable-compression"; "--insecure-skip-tls-verify"; "--match-server-version";
     "--warnings-as-errors"; "--alsologtostderr"; "--logtostderr"; "--skip-headers";
     "--skip-log-headers"; "--add-dir-header"; "--one-output"].
Definition rejectedShellTokens : list string :=
  ["|"; "|&"; ">"; ">>"; "<"; "<<"; "<<<"; "&"; "&>"; "&>>"].
Definition segmentSeparators : list string := ["&&"; "||"; ";"].

Record KubectlExecutor := MkExecutor { BinaryPath : string; AllowWrite : bool }.
Record cmdSegment := MkSegment { op : string; args : list string }.

(** How a process ended: not at all, with an exit status, or with another
    error of [cmd.Run]. *)
Inductive run_error := RunOk | RunExit | RunFailed (msg : string).
(** One turn of the loop as the environment plays it: the context before the
    start, and what the process did. *)
Record outcome := MkOutcome {
  ctx_before : option string;
  ran_stdout : string;
  ran_stderr : string;
  ran_exit : option Z;
  ctx_after : option string;
  ran_error : run_error
}.
(** What a command did and returned: the processes started, in order, the
    response map and the error. *)
Record run_result := MkResult {
  started : list (string * list string);
  response : option json;
  run_err : option string
}.

Section executor.
Variable shlex_split : string -> result (list string).
Variable gzip_bytes : string -> result string.
(** [%q]. *)
Variable quote : string -> string.

Definition GzipBase64 (o : Output) : result string :=
  if o_gzip o then let? b := gzip_bytes (o_data o) in Ok (b64_encode b) else Ok "".

(** [AddTo] on the map [m]. *)
Definition AddTo (m : list (string * json)) (o : Output) : list (string * json) * option string :=
  if o_gzip o then
    match GzipBase64 o with
    | Ok enc => (mset "stdout_bytes" (JInt (Len o))
                  (mset "output_encoding" (JStr Gzip) (mset "stdout_gzip_b64" (JStr enc) m)), None)
    | Err e => (m, Some e)
    end
  else (mset "stdout" (JStr (Text o)) m, None).

(** ** Validation *)
Fixpoint firstVerbAndSubcommand (l : list string) : result (string * string) :=
  match l with
  | [] => Ok ("", "")
  | a :: rest =>
    if negb (has_prefix a "-") then
      Ok (a, match rest with
             | s :: _ => if has_prefix s "-" then "" else s
             | [] => ""
             end)
    else if contains a "=" then firstVerbAndSubcommand rest
    else match assoc a globalFlags with
    | None => Err ("kubectl: unrecognized flag " +:+ quote a +:+ " before the verb; write it as "
                   +:+ a +:+ "=VALUE, or move it after the verb")
    | Some true => match rest with [] => Ok ("", "") | _ :: rest' => firstVerbAndSubcommand rest' end
    | Some false => firstVerbAndSubcommand rest
    end
  end.

Definition sortedKeys (l : list string) : list string := sort_strings l.

Definition validateSegment (k : KubectlExecutor) (l : list string) : result unit :=
  let? vs := firstVerbAndSubcommand l in
  let '(verb, subcommand) := vs in
  if bool_decide (verb = "") then Err "kubectl: no verb found (only flags supplied)"
  else if AllowWrite k then Ok tt
  else if negb (bool_decide (verb ∈ allowedKubectlVerbs)) then
    Err ("kubectl: verb " +:+ quote verb +:+ " not in read-only allowlist; enable "
         +:+ "runner.enableWritePermissions for writes, or route mutating actions through pkg/mutate")
  else match assoc verb readOnlySubcommands with
  | None => Ok tt
  | Some subcommands =>
    if bool_decide (subcommand ∈ subcommands) then Ok tt
    else if bool_decide (subcommand = "") then
      Err ("kubectl: " +:+ quote verb +:+ " needs one of its read-only subcommands ("
           +:+ join ", " (sortedKeys subcommands)
           +:+ ") immediately after it, with no flag in between")
    else
      Err ("kubectl: " +:+ quote subcommand +:+ " is not a read-only subcommand of " +:+ quote verb
           +:+ " (allowed: " +:+ join ", " (sortedKeys subcommands)
           +:+ "); enable runner.enableWritePermissions for writes, or route mutating actions "
           +:+ "through pkg/mutate")
  end.

(** ** Segments *)

(** The state of [splitSegments]: segments so far, the operator before the
    current one, its tokens. *)
Record split_state := MkSplit { sp_segments : list cmdSegment; sp_op : string; sp_cur : list string }.

Definition strip_kubectl (l : list string) : list string :=
  match l with
  | a :: rest => if bool_decide (a = "kubectl") then rest else l
  | [] => []
  end.

Definition flush (nextOp : string) (st : split_state) : result split_state :=
  let a := strip_kubectl (sp_cur st) in
  if bool_decide (a = []) then
    if bool_decide (sp_op st = ";") && bool_decide (nextOp = "") then Ok st
    else if bool_decide (sp_op st = "") && bool_decide (nextOp = "")
    then Err "kubectl: empty command after stripping prefix"
    else Err "kubectl: empty command segment; && , || and ; each need a command on both sides"
  else Ok (MkSplit (sp_segments st ++ [MkSegment (sp_op st) a]) nextOp []).

Fixpoint split_loop (tokens : list string) (st : split_state) : result split_state :=
  match tokens with
  | [] => flush "" st
  | t :: rest =>
    if bool_decide (t ∈ segmentSeparators) then let? st' := flush t st in split_loop rest st'
    else split_loop rest (MkSplit (sp_segments st) (sp_op st) (sp_cur st ++ [t]))
  end.
Definition splitSegments (tokens : list string) : result (list cmdSegment) :=
  let? st := split_loop tokens (MkSplit [] "" []) in Ok (sp_segments st).

(** ** Execution *)
Definition shouldRunSegment (o : string) (prevExit : Z) : bool :=
  if bool_decide (o = "&&") then prevExit =? 0
  else if bool_decide (o = "||") then negb (prevExit =? 0)
  else true.

Definition execResult (st : list (string * list string)) (stdout : Output) (stderr : string)
  (exitCode : Z) (runErr : option string) : run_result :=
  match AddTo [("stderr", JStr stderr); ("exit_code", JInt exitCode)] stdout, runErr with
  | (m, Some e), None => MkResult st (Some (JObj m)) (Some ("kubectl: encode stdout: " +:+ e))
  | (m, _), _ => MkResult st (Some (JObj m)) runErr
  end.

(** The loop of [runSegments]; [i] is the index of the next segment. *)
Fixpoint run_loop (bin : string) (env : nat -> list string -> outcome) (i : nat)
  (segs : list cmdSegment) (st : list (string * list string)) (stdout : Output) (stderr : string)
  (exitCode : Z) : run_result :=
  match segs with
  | [] => execResult st stdout stderr exitCode None
  | seg :: rest =>
    let o := env i (args seg) in
    match ctx_before o with
    | Some e => execResult st stdout stderr exitCode (Some e)
    | None =>
      if bool_decide (0 < i)%nat && negb (shouldRunSegment (op seg) exitCode)
      then run_loop bin env (S i) rest st stdout stderr exitCode
      else
        let st := st ++ [(bin, args seg)] in
        let stdout := WriteOutput (ran_stdout o) stdout in
        let stderr := stderr +:+ ran_stderr o in
        let exitCode := default (-1) (ran_exit o) in
        match ctx_after o with
        | Some e => execResult st stdout stderr exitCode (Some e)
        | None =>
          match ran_error o with
          | RunFailed e => execResult st stdout stderr exitCode (Some ("kubectl exec: " +:+ e))
          | _ => run_loop bin env (S i) rest st stdout stderr exitCode
          end
        end
    end
  end.
Definition runSegments (bin : string) (env : nat -> list string -> outcome)
  (segs : list cmdSegment) (stdout : Output) : run_result :=
  run_loop bin env 0 segs [] stdout "" 0.

(** The first error of the segments, if any. *)
Fixpoint validate_all (k : KubectlExecutor) (segs : list cmdSegment) : result unit :=
  match segs with
  | [] => Ok tt
  | s :: rest => let? _ := validateSegment k (args s) in validate_all k rest
  end.

Definition refused (e : string) : run_result := MkResult [] None (Some e).
Definition RunEncoded (k : KubectlExecutor) (env : nat -> list string -> outcome)
  (command outputEncoding : string) : run_result :=
  if bool_decide (command = "") then refused "kubectl: command is required"
  else match shlex_split command with
  | Err e => refused ("kubectl: parse command: " +:+ e)
  | Ok tokens =>
    match List.find (fun t => bool_decide (t ∈ rejectedShellTokens)) tokens with
    | Some t => refused ("kubectl: shell operator " +:+ quote t
                         +:+ " is not supported; chain commands with && , || or ; (no pipes or redirects)")
    | None =>
      match splitSegments tokens with
      | Err e => refused e
      | Ok segments =>
        match validate_all k segments with
        | Err e => refused e
        | Ok _ =>
          let bin := if bool_decide (BinaryPath k = "") then "kubectl" else BinaryPath k in
          runSegments bin env segments (NewOutput outputEncoding)
        end
      end
    end
  end.
Definition Run (k : KubectlExecutor) (env : nat -> list string -> outcome) (command : string)
  : run_result := RunEncoded k env command "".
End executor.

(** ** How kubectl finds the verb

    Leading flags are skipped, each with the token that follows it when the
    flag takes a value and does not carry it after an equals sign. *)
Fixpoint kubectl_resolves (takes_value : string -> bool) (l : list string)
  : option (string * list string) :=
  match l with
  | [] => None
  | a :: rest =>
    if negb (has_prefix a "-") then Some (a, rest)
    else if contains a "=" then kubectl_resolves takes_value rest
    else if takes_value a
    then match rest with [] => None | _ :: rest' => kubectl_resolves takes_value rest' end
    else kubectl_resolves takes_value rest
  end.

(** ** The shell's reading of a chain

    [&&] and [||] bind equally and to the left, [;] binds least. *)
Inductive shell :=
| Cmd (i : nat) (a : list string)
| AndIf (l r : shell)
| OrIf (l r : shell)
| Seq (l r : shell).

Definition after_opt (prev : option shell) (cur : shell) : shell :=
  match prev with Some d => Seq d cur | None => cur end.
Fixpoint parse_from (i : nat) (prev : option shell) (cur : shell) (segs : list cmdSegment) : shell :=
  match segs with
  | [] => after_opt prev cur
  | s :: rest =>
    let c := Cmd i (args s) in
    if bool_decide (op s = "&&") then parse_from (S i) prev (AndIf cur c) rest
    else if bool_decide (op s = "||") then parse_from (S i) prev (OrIf cur c) rest
    else parse_from (S i) (Some (after_opt prev cur)) c rest
  end.

(** The commands that run and the status of the last one, when command [i]
    exits with status [code i]. *)
Fixpoint shell_eval (code : nat -> Z) (c : shell) : list (list string) * Z :=
  match c with
  | Cmd i a => ([a], code i)
  | AndIf l r =>
    let '(ls, s) := shell_eval code l in
    if s =? 0 then let '(rs, s') := shell_eval code r in (ls ++ rs, s') else (ls, s)
  | OrIf l r =>
    let '(ls, s) := shell_eval code l in
    if s =? 0 then (ls, s) else let '(rs, s') := shell_eval code r in (ls ++ rs, s')
  | Seq l r =>
    let '(ls, _) := shell_eval code l in
    let '(rs, s') := shell_eval code r in (ls ++ rs, s')
  end.

(** An environment in which every process runs to its exit. *)
Definition completes (code : nat -> Z) (i : nat) (_ : list string) : outcome :=
  MkOutcome None "" "" (Some (code i)) None (if code i =? 0 then RunOk else RunExit).

Section executor_facts.
Variable shlex_split : string -> result (list string).
Variable gzip_bytes : string -> result string.
Variable quote : string -> string.
Abbreviation RunEncoded := (RunEncoded shlex_split gzip_bytes quote).
Abbreviation runSegments := (runSegments gzip_bytes).
Abbreviation run_loop := (run_loop gzip_bytes).
Abbreviation validateSegment := (validateSegment quote).
Abbreviation firstVerb := (firstVerbAndSubcommand quote).

Lemma firstVerb_resolves takes l verb sub :
  (forall f b, assoc f globalFlags = Some b -> takes f = b) ->
  firstVerb l = Ok (verb, sub) -> verb <> "" ->
  exists rest, kubectl_resolves takes l = Some (verb, rest)
    /\ (sub <> "" -> exists rest', rest = sub :: rest').
Proof.
  intros Hflags. remember (length l) as n eqn:Hn. assert (length l <= n)%nat as Hle by lia.
  clear Hn. revert l Hle. induction n as [|n IH]; intros [|a rest] Hle Hv Hne; simpl in Hle; try lia.
  1-2: by injection Hv as <- <-.
  cbn [firstVerbAndSubcommand kubectl_resolves] in *. destruct (negb (has_prefix a "-")).
  { injection Hv as <- <-. exists rest. split; [done|]. intros Hs.
    destruct rest as [|s rest]; [done|]. case_match; [done|]. by exists rest. }
  destruct (contains a "="); [apply IH; [lia|done..]|].
  destruct (assoc a globalFlags) as [[]|] eqn:Ea; [| |done]; rewrite (Hflags _ _ Ea).
  - destruct rest as [|x rest]; [by injection Hv as <- <-|]. apply IH; [simpl in Hle; lia|done..].
  - apply IH; [lia|done..].
Qed.

Lemma validate_read_only k l : AllowWrite k = false -> validateSegment k l = Ok tt ->
  exists verb sub, firstVerb l = Ok (verb, sub) /\ verb <> "" /\ verb ∈ allowedKubectlVerbs
    /\ forall subs, assoc verb readOnlySubcommands = Some subs -> sub ∈ subs.
Proof.
  intros Hk. unfold KubectlExec.validateSegment.
  destruct (firstVerb l) as [[verb sub]|]; [|done]. cbn [rbind]. rewrite Hk.
  case_bool_decide; [done|]. case_bool_decide as Hin; [|done]. cbn [negb]. intros Hv.
  exists verb, sub. split_and!; [done..|]. intros subs Hs. rewrite Hs in Hv.
  by case_bool_decide; [|case_bool_decide].
Qed.

Lemma validate_all_Ok k segs : validate_all quote k segs = Ok tt <->
  Forall (fun s => validateSegment k (args s) = Ok tt) segs.
Proof.
  induction segs as [|s segs IH]; cbn [validate_all]; [by split|].
  rewrite Forall_cons, rbind_Ok. split.
  - intros ([] & ? & ?). split; [done|by apply IH].
  - intros [? ?]. exists tt. split; [done|by apply IH].
Qed.

Lemma execResult_started st o e x err : started (execResult gzip_bytes st o e x err) = st.
Proof. unfold execResult. destruct (AddTo _ _ _) as [m [u|]], err; done. Qed.

(** Only segments of the command are started, and only with the binary. *)
Lemma run_loop_started bin env i segs st o e x b a :
  (b, a) ∈ started (run_loop bin env i segs st o e x) ->
  (b, a) ∈ st \/ b = bin /\ exists s, s ∈ segs /\ a = args s.
Proof.
  revert i st o e x. induction segs as [|s segs IH]; intros i st o e x; cbn [KubectlExec.run_loop].
  - rewrite execResult_started. auto.
  - assert ((b, a) ∈ st ++ [(bin, args s)] -> (b, a) ∈ st \/ b = bin /\ exists s', s' ∈ s :: segs /\ a = args s')
      as Hnew.
    { rewrite elem_of_app, list_elem_of_singleton. intros [?|[= -> ->]]; [by left|].
      right. split; [done|]. exists s. split; [left|done]. }
    assert (forall st' o' e' x', (b, a) ∈ started (run_loop bin env (S i) segs st' o' e' x') ->
      ((b, a) ∈ st' -> (b, a) ∈ st \/ b = bin /\ exists s', s' ∈ s :: segs /\ a = args s') ->
      (b, a) ∈ st \/ b = bin /\ exists s', s' ∈ s :: segs /\ a = args s') as Hrec.
    { intros st' o' e' x' [H|(-> & s' & Hs & ->)]%IH Hst; [auto|].
      right. split; [done|]. exists s'. split; [by right|done]. }
    destruct (ctx_before _); [rewrite execResult_started; auto|].
    destruct (_ && _); [intros H; eapply Hrec; eauto|].
    destruct (ctx_after _); [by rewrite execResult_started|].
    destruct (ran_error _); [intros H; eapply Hrec; eauto..|by rewrite execResult_started].
Qed.

(** A command that starts a process passed every check. *)
Lemma started_valid k env command enc b a :
  (b, a) ∈ started (RunEncoded k env command enc) ->
  exists tokens segs s, shlex_split command = Ok tokens /\ splitSegments tokens = Ok segs
    /\ (forall t, t ∈ tokens -> t ∉ rejectedShellTokens)
    /\ Forall (fun s => validateSegment k (args s) = Ok tt) segs /\ s ∈ segs /\ a = args s.
Proof.
  unfold KubectlExec.RunEncoded. case_bool_decide as Hc; [by intros ?%elem_of_nil|].
  destruct (shlex_split command) as [tokens|]; [|by intros ?%elem_of_nil].
  destruct (List.find _ tokens) as [t|] eqn:Ef; [by intros ?%elem_of_nil|].
  destruct (splitSegments tokens) as [segs|] eqn:Es; [|by intros ?%elem_of_nil].
  destruct (validate_all _ _ _) as [[]|] eqn:Ev; [|by intros ?%elem_of_nil].
  intros [H|(_ & s & Hs & ->)]%run_loop_started; [by apply elem_of_nil in H|].
  exists tokens, segs, s. split_and!; try done; [|by apply validate_all_Ok].
  intros t Ht Hr. apply list_elem_of_In in Ht.
  pose proof (find_none _ _ Ef t Ht) as Hf. by apply bool_decide_eq_false in Hf.
Qed.

(** C7: Without write mode every process the executor starts is, as kubectl itself
    resolves it, a read: the verb is on the allowlist, and for the verbs whose
    subcommands also write, the next token is a read-only subcommand.  This
    holds for every flag table of kubectl that agrees with the agent's table
    on the flags the agent lists; nothing is assumed about other flags. *)
Theorem only_reads_run takes k env command enc b a :
  (forall f v, assoc f globalFlags = Some v -> takes f = v) ->
  AllowWrite k = false -> (b, a) ∈ started (RunEncoded k env command enc) ->
  exists verb rest, kubectl_resolves takes a = Some (verb, rest)
    /\ verb ∈ allowedKubectlVerbs
    /\ forall subs, assoc verb readOnlySubcommands = Some subs ->
         exists sub rest', rest = sub :: rest' /\ sub ∈ subs.
Proof.
  intros Hf Hk (tokens & segs & s & _ & _ & _ & Hall & Hs & ->)%started_valid.
  rewrite Forall_forall in Hall.
  destruct (validate_read_only k _ Hk (Hall s Hs)) as (verb & sub & Hv & Hne & Hin & Hsub).
  destruct (firstVerb_resolves takes _ _ _ Hf Hv Hne) as (rest & Hr & Hrest).
  exists verb, rest. split_and!; [done..|]. intros subs Hsubs. specialize (Hsub subs Hsubs).
  destruct Hrest as (rest' & ->); [|by exists sub, rest'].
  intros ->. clear -Hsubs Hsub. apply assoc_In in Hsubs. unfold readOnlySubcommands in Hsubs.
  rewrite !elem_of_cons, elem_of_nil in Hsubs.
  destruct Hsubs as [[= -> ->]|[[= -> ->]|[[= -> ->]|[]]]];
    rewrite !elem_of_cons, elem_of_nil in Hsub; naive_solver.
Qed.

(** A chain runs as a whole or not at all: when one segment is refused no
    process starts. *)
Theorem refused_chain_runs_nothing k env command enc tokens segs s :
  shlex_split command = Ok tokens -> splitSegments tokens = Ok segs -> s ∈ segs ->
  is_ok (validateSegment k (args s)) = false ->
  started (RunEncoded k env command enc) = [] /\ is_Some (run_err (RunEncoded k env command enc)).
Proof.
  intros Ht Hsp Hs He. unfold KubectlExec.RunEncoded. rewrite Ht, Hsp.
  case_bool_decide; [by split; [|eexists]|].
  destruct (List.find _ tokens); [by split; [|eexists]|].
  destruct (validate_all _ _ _) as [[]|] eqn:Ev; [|by split; [|eexists]].
  apply validate_all_Ok in Ev. rewrite Forall_forall in Ev. by rewrite (Ev s Hs) in He.
Qed.

(** *** Chains *)
Lemma exit_code_response st x :
  exists m, response (execResult gzip_bytes st (NewOutput "") "" x None) = Some (JObj m)
    /\ assoc "exit_code" m = Some (JInt x).
Proof. eexists. split; [reflexivity|]. reflexivity. Qed.

Lemma write_nothing o : WriteOutput "" o = o.
Proof. destruct o. unfold WriteOutput. simpl. by rewrite sapp_nil_r. Qed.

Lemma eval_after code prev cur :
  shell_eval code (after_opt prev cur)
  = (match prev with Some d => (shell_eval code d).1 | None => [] end ++ (shell_eval code cur).1,
     (shell_eval code cur).2).
Proof.
  destruct prev as [d|]; simpl; [|by destruct (shell_eval code cur)].
  by destruct (shell_eval code d), (shell_eval code cur).
Qed.

Lemma run_step bin code i s segs st x :
  run_loop bin (completes code) i (s :: segs) st (NewOutput "") "" x
  = if bool_decide (0 < i)%nat && negb (shouldRunSegment (op s) x)
    then run_loop bin (completes code) (S i) segs st (NewOutput "") "" x
    else run_loop bin (completes code) (S i) segs (st ++ [(bin, args s)]) (NewOutput "") "" (code i).
Proof.
  cbn [KubectlExec.run_loop]. set (o := completes code i (args s)).
  change (ctx_before o) with (@None string). destruct (_ && _); [done|].
  change (ctx_after o) with (@None string). change (ran_exit o) with (Some (code i)).
  change (ran_error o) with (if code i =? 0 then RunOk else RunExit).
  change (ran_stdout o) with "". rewrite write_nothing.
  destruct (code i =? 0); reflexivity.
Qed.

Lemma run_loop_shell bin code i segs prev cur : (0 < i)%nat ->
  run_loop bin (completes code) i segs (map (pair bin) (shell_eval code (after_opt prev cur)).1)
    (NewOutput "") "" (shell_eval code (after_opt prev cur)).2
  = execResult gzip_bytes (map (pair bin) (shell_eval code (parse_from i prev cur segs)).1)
      (NewOutput "") "" (shell_eval code (parse_from i prev cur segs)).2 None.
Proof.
  revert i prev cur. induction segs as [|s segs IH]; intros i prev cur Hi; [done|].
  rewrite run_step, bool_decide_eq_true_2 by done. cbn [andb parse_from]. unfold shouldRunSegment.
  assert (forall l, map (pair bin) l ++ [(bin, args s)] = map (pair bin) (l ++ [args s])) as Hmap
    by (intros l; by rewrite map_app).
  destruct (bool_decide (op s = "&&")); [|destruct (bool_decide (op s = "||"))].
  - rewrite <- IH by lia. rewrite !eval_after. cbn [fst snd shell_eval].
    destruct (shell_eval code cur) as [ran x]. cbn [fst snd].
    destruct (x =? 0); cbn [negb]; [|done]. by rewrite Hmap, <- app_assoc.
  - rewrite <- IH by lia. rewrite !eval_after. cbn [fst snd shell_eval].
    destruct (shell_eval code cur) as [ran x]. cbn [fst snd].
    destruct (x =? 0); cbn [negb]; [done|]. by rewrite Hmap, <- app_assoc.
  - rewrite <- IH by lia. rewrite (eval_after _ (Some _)). cbn [negb fst snd shell_eval].
    by rewrite Hmap.
Qed.

(** Chaining has the shell's meaning: the commands that run and the reported
    exit status are those of the chain read as a shell list, with [&&] and
    [||] of equal precedence and left-associative and [;] below them. *)
Theorem chain_is_shell_list bin code s segs :
  let r := runSegments bin (completes code) (s :: segs) (NewOutput "") in
  let c := parse_from 1 None (Cmd 0 (args s)) segs in
  started r = map (pair bin) (shell_eval code c).1 /\ run_err r = None
  /\ exists m, response r = Some (JObj m)
       /\ assoc "exit_code" m = Some (JInt (shell_eval code c).2).
Proof.
  intros r c. subst r. unfold KubectlExec.runSegments. rewrite run_step. cbn [andb bool_decide].
  rewrite bool_decide_eq_false_2 by lia. cbn [andb].
  pose proof (run_loop_shell bin code 1 segs None (Cmd 0 (args s)) ltac:(lia)) as H.
  cbn [after_opt shell_eval fst snd map] in H. change ([] ++ [(bin, args s)]) with [(bin, args s)].
  rewrite H. fold c. split_and!; [apply execResult_started|reflexivity|apply exit_code_response].
Qed.
End executor_facts.

(** ** Witnesses *)
Definition spaces (s : string) : result (list string) :=
  Ok (fields_func (fun c => bool_decide (c = " "%char)) "" s).
Definition read_only : KubectlExecutor := MkExecutor "" false.
Definition plain_quote (s : string) : string := s.
Definition all_succeed : nat -> list string -> outcome := completes (fun _ => 0).
Definition agent_flags (f : string) : bool := default true (assoc f globalFlags).

Example tls_server_name_refused :
  started (RunEncoded spaces Ok plain_quote read_only all_succeed
    "kubectl --tls-server-name get rollout undo deployment/api" "") = [].
Proof. by vm_compute. Qed.

Lemma only_reads_run_witness :
  exists verb rest, kubectl_resolves agent_flags ["-n"; "prod"; "rollout"; "history"; "deploy/x"]
      = Some (verb, rest)
    /\ verb ∈ allowedKubectlVerbs
    /\ forall subs, assoc verb readOnlySubcommands = Some subs ->
         exists sub rest', rest = sub :: rest' /\ sub ∈ subs.
Proof.
  apply (only_reads_run spaces Ok plain_quote agent_flags read_only all_succeed
    "kubectl -n prod rollout history deploy/x && kubectl get pods" "" "kubectl").
  - intros f v Hf. unfold agent_flags. by rewrite Hf.
  - reflexivity.
  - vm_compute. left.
Defined.

Lemma refused_chain_runs_nothing_witness :
  started (RunEncoded spaces Ok plain_quote read_only all_succeed "get pods && delete pod x" "") = []
  /\ is_Some (run_err (RunEncoded spaces Ok plain_quote read_only all_succeed
       "get pods && delete pod x" "")).
Proof.
  apply (refused_chain_runs_nothing spaces Ok plain_quote read_only all_succeed
    "get pods && delete pod x" "" ["get"; "pods"; "&&"; "delete"; "pod"; "x"]
    [MkSegment "" ["get"; "pods"]; MkSegment "&&" ["delete"; "pod"; "x"]]
    (MkSegment "&&" ["delete"; "pod"; "x"])); [by vm_compute..| |by vm_compute].
  right. left.
Defined.
