(* ===== verification/RelayClient.v ===== *)
(** * The relay client: reconnection, load shedding and shutdown

    pkg/relay/client.go.  [Run] dials, holds a session and waits before the
    next dial; a session has a read loop, a ping loop, a worker that answers
    shed messages and the goroutines of the handlers, which outlive it.  Each
    goroutine is cut where the code waits (a dial, a read, a write, a timer)
    and [step] runs the parts in any order.  The dialer, the socket and the
    handlers are the environment: what they return is an argument of the step
    it decides. *)

From S2P Require Import Prelude GoText GoJson GoStruct GoMarshal GoCrypto Dispatch.

#[local] Set Default Proof Using "Type".

(** ** Wire types and configuration *)
Record Greeting := MkGreeting {
  g_action : string;
  g_version : string;
  g_agent_version : string;
  g_agent_commit : string;
  g_agent_build_time : string;
  g_protocol_version : string
}.

Record RelayConfig := MkRelayConfig {
  rc_url : string;
  rc_secret : string;
  rc_greeting : Greeting;
  ReconnectDelay : duration;
  MaxReconnectDelay : duration;
  WriteTimeout : duration;
  PingInterval : duration;
  PongWait : duration;
  HandlerPoolSize : Z
}.

(** What [send] writes: [json.Marshal] of a struct keeps the field order. *)
Inductive frame :=
| FGreeting (g : Greeting)
| FResponse (r : Response).

Definition frame_text (f : frame) : option string :=
  match f with
  | FGreeting g =>
    Some (struct_text ([string_field "action" (g_action g); string_field "version" (g_version g)]
      ++ omit_empty "agent_version" (g_agent_version g)
      ++ omit_empty "agent_commit" (g_agent_commit g)
      ++ omit_empty "agent_build_time" (g_agent_build_time g)
      ++ omit_empty "protocol_version" (g_protocol_version g)))
  | FResponse r =>
    match marshal (r_data r) with
    | None => None
    | Some data =>
      Some (struct_text ([string_field "action" "response"; string_field "request_id" (r_request_id r);
        ("status_code", itoa (r_status r)); ("data", data)]
        ++ omit_empty "output_type" (r_output_type r)))
    end
  end.

(** ** The reconnect wait *)

(** The doubling loop of [reconnectWait], at most [n] more turns. *)
Fixpoint double_up (n : nat) (limit ceiling : duration) : duration :=
  match n with
  | O => ceiling
  | S n =>
    if ceiling <? limit then
      if Z.quot limit 2 <? ceiling then limit
      else double_up n limit (wrap64 (ceiling * 2))
    else ceiling
  end.

Definition reconnectWait (base limit : duration) (attempt : Z) (randN : Z -> Z) : duration :=
  let ceiling := double_up (Z.to_nat attempt) limit (Z.min base limit) in
  if ceiling <=? 0 then 0
  else if ceiling =? int64_max then randN int64_max
  else randN (wrap64 (ceiling + 1)).

(** ** The client *)

(** A connection as the client drives it: whether this side closed it, the
    read deadline and the frames accepted by the socket, oldest first. *)
Record Conn := MkConn {
  co_closed : bool;
  co_deadline : time;
  co_written : list frame
}.

Record Client := MkClient {
  cl_cfg : RelayConfig;
  cl_conn : option Conn;
  (** Slots of the semaphore in use; [None] for the unbounded client. *)
  cl_sem : option Z;
  cl_shed : Z;
  cl_connectedAt : time
}.

Definition or_default (d v : duration) : duration := if v =? 0 then d else v.

Definition with_defaults (cfg : RelayConfig) : RelayConfig :=
  MkRelayConfig (rc_url cfg) (rc_secret cfg) (rc_greeting cfg)
    (or_default (3 * second) (ReconnectDelay cfg))
    (or_default (10 * second) (MaxReconnectDelay cfg))
    (or_default (30 * second) (WriteTimeout cfg))
    (or_default (30 * second) (PingInterval cfg))
    (or_default (90 * second) (PongWait cfg))
    (HandlerPoolSize cfg).

Definition NewClient (cfg : RelayConfig) : Client :=
  MkClient (with_defaults cfg) None
    (if 0 <? HandlerPoolSize cfg then Some 0 else None) 0 zero_time.

Definition with_conn (k : option Conn) (c : Client) : Client :=
  MkClient (cl_cfg c) k (cl_sem c) (cl_shed c) (cl_connectedAt c).
Definition with_sem (s : option Z) (c : Client) : Client :=
  MkClient (cl_cfg c) (cl_conn c) s (cl_shed c) (cl_connectedAt c).
Definition with_connectedAt (t : time) (c : Client) : Client :=
  MkClient (cl_cfg c) (cl_conn c) (cl_sem c) (cl_shed c) t.

(** Errors of a write: on the socket ([*net.OpError]) or before it. *)
Inductive write_error :=
| SocketError (timeout : bool) (msg : string)
| WaitTimeout (msg : string)
| CloseSent (msg : string)
| OtherError (msg : string).

Definition socketWriteFailed (e : option write_error) : bool :=
  match e with Some (SocketError _ _) => true | _ => false end.
(** [errors.As(err, &ne) && ne.Timeout()]. *)
Definition is_timeout (e : write_error) : bool :=
  match e with SocketError b _ => b | WaitTimeout _ => true | _ => false end.
Definition write_error_text (e : write_error) : string :=
  match e with
  | SocketError _ m | WaitTimeout m | CloseSent m | OtherError m => m
  end.

Definition close_conn (k : Conn) : Conn := MkConn true (co_deadline k) (co_written k).
Definition set_deadline (t : time) (k : Conn) : Conn :=
  MkConn (co_closed k) t (co_written k).
Definition append_frame (f : frame) (k : Conn) : Conn :=
  MkConn (co_closed k) (co_deadline k) (co_written k ++ [f]).

(** What [SetWriteDeadline] and [WriteMessage] return if they are called. *)
Record socket_answer := MkAnswer {
  a_deadline : option string;
  a_write : option write_error
}.

(** [Client.send]. *)
Definition send (f : frame) (w : socket_answer) (c : Client) : Client * result unit :=
  match cl_conn c with
  | None => (c, Err "relay: not connected")
  | Some k =>
    match a_deadline w with
    | Some e => (c, Err e)
    | None =>
      match frame_text f with
      | None => (c, Err "json: unsupported value")
      | Some _ =>
        match a_write w with
        | None => (with_conn (Some (append_frame f k)) c, Ok tt)
        | Some e =>
          ((if socketWriteFailed (a_write w) then with_conn (Some (close_conn k)) c else c),
           Err (write_error_text e))
        end
      end
    end
  end.

(** ** Load shedding *)
Definition shedReplyQueue : Z := 256.

Definition set_shed_probe (f : string) (m : member) (p : string) : string * bool :=
  if bool_decide (f = "request_id") then set_string p m else (p, true).

(** The [request_id] probe of [enqueueShedReply]; [None] on malformed input. *)
Definition shed_probe (msg : string) : option string :=
  let '(p, ok) := unmarshal_struct ["request_id"] set_shed_probe msg "" in
  if ok then Some p else None.

Definition enqueueShedReply (q : list string) (msg : string) : list string :=
  match shed_probe msg with
  | None => q
  | Some id =>
    if bool_decide (id = "") then q
    else if Z.of_nat (length q) <? shedReplyQueue then q ++ [id] else q
  end.

Definition shed_response (id : string) : Response :=
  MkResponse id 503 (error_data "agent overloaded") "actions".

(** [sem.TryAcquire(1)] and [sem.Release(1)]. *)
Definition try_acquire (c : Client) : option Client :=
  match cl_sem c with
  | None => Some c
  | Some n => if n <? HandlerPoolSize (cl_cfg c) then Some (with_sem (Some (n + 1)) c) else None
  end.
Definition release (c : Client) : Client :=
  match cl_sem c with
  | None => c
  | Some n => with_sem (Some (n - 1)) c
  end.
Definition count_shed (c : Client) : Client :=
  MkClient (cl_cfg c) (cl_conn c) (cl_sem c) ((cl_shed c + 1) mod 2 ^ 64) (cl_connectedAt c).

(** ** Control frames *)

(** The ping handler: [w] is what writing the pong returns.  An error ends
    the read it runs in. *)
Definition ping_handler (w : option write_error) : option write_error :=
  match w with
  | None => None
  | Some (CloseSent _) => None
  | Some e =>
    if socketWriteFailed w then Some e
    else if is_timeout e then None else Some e
  end.

(** ** The running client *)

(** Where the goroutine of [Run] stands. *)
Inductive phase :=
| LoopTop
| InDial
| InGreeting
| ReadTop
| InRead
| SessionEnd (err : string)
| InWait (wait : duration)
| Returned (err : string).

(** What the client does that can be seen from outside: the callbacks of its
    configuration, the messages it reads, starts or sheds, the frames it
    writes and the waits it chooses.  [Settled held k] closes an attempt:
    whether its session held, and the reconnects counted before it. *)
Inductive event :=
| OnConnect | OnDisconnect | OnReconnect
| Received (msg : string) | StartHandler (msg : string) | OnShed (msg : string)
| ShedReply (id : string) (ok : bool)
| Settled (held : bool) (wait : duration).

Record System := MkSystem {
  s_client : Client;
  s_phase : phase;
  s_attempt : Z;
  (** The context given to [Run] is cancelled. *)
  s_cancelled : bool;
  (** The handlers running now, by message. *)
  s_handlers : list string;
  (** The session's workers and the queue between the read loop and one. *)
  s_pinger : bool;
  s_shedder : bool;
  s_shedQ : list string;
  s_log : list event
}.

Definition init (cfg : RelayConfig) : System :=
  MkSystem (NewClient cfg) LoopTop 0 false [] false false [] [].

Definition goto (p : phase) (s : System) : System :=
  MkSystem (s_client s) p (s_attempt s) (s_cancelled s) (s_handlers s)
    (s_pinger s) (s_shedder s) (s_shedQ s) (s_log s).
Definition on_client (f : Client -> Client) (s : System) : System :=
  MkSystem (f (s_client s)) (s_phase s) (s_attempt s) (s_cancelled s) (s_handlers s)
    (s_pinger s) (s_shedder s) (s_shedQ s) (s_log s).
Definition emit_ev (es : list event) (s : System) : System :=
  MkSystem (s_client s) (s_phase s) (s_attempt s) (s_cancelled s) (s_handlers s)
    (s_pinger s) (s_shedder s) (s_shedQ s) (s_log s ++ es).
Definition with_handlers (l : list string) (s : System) : System :=
  MkSystem (s_client s) (s_phase s) (s_attempt s) (s_cancelled s) l
    (s_pinger s) (s_shedder s) (s_shedQ s) (s_log s).
Definition with_workers (p sh : bool) (q : list string) (s : System) : System :=
  MkSystem (s_client s) (s_phase s) (s_attempt s) (s_cancelled s) (s_handlers s)
    p sh q (s_log s).
Definition with_attempt (a : Z) (s : System) : System :=
  MkSystem (s_client s) (s_phase s) a (s_cancelled s) (s_handlers s)
    (s_pinger s) (s_shedder s) (s_shedQ s) (s_log s).
Definition cancel (s : System) : System :=
  MkSystem (s_client s) (s_phase s) (s_attempt s) true (s_handlers s)
    (s_pinger s) (s_shedder s) (s_shedQ s) (s_log s).

Definition set_conn (f : Conn -> Conn) (c : Client) : Client :=
  with_conn (f <$> cl_conn c) c.
(** [resetDeadline()] at [now]. *)
Definition reset_deadline (now : time) (c : Client) : Client :=
  set_conn (set_deadline (time_add now (PongWait (cl_cfg c)))) c.

(** The loop's test of [ctx.Err()]. *)
Definition loop_top (s : System) : System :=
  if s_cancelled s then goto (Returned "context canceled") s
  else goto InDial (on_client (with_connectedAt zero_time) s).

(** The tail of an iteration of [Run], after [runOnce] returned. *)
Definition session_held (now : time) (c : Client) : bool :=
  negb (is_zero_time (cl_connectedAt c)) &&
  (MaxReconnectDelay (cl_cfg c) <=? time_sub now (cl_connectedAt c)).
Definition settle (now : time) (randN : Z -> Z) (s : System) : System :=
  let cfg := cl_cfg (s_client s) in
  let held := session_held now (s_client s) in
  let attempt := if held then 0 else s_attempt s in
  let wait := reconnectWait (ReconnectDelay cfg) (MaxReconnectDelay cfg) attempt randN in
  goto (InWait wait) (with_attempt (wrap64 (attempt + 1)) (emit_ev [Settled held wait] s)).

(** The [Authorization] header of the dial. *)
Definition dial_header (cfg : RelayConfig) : string := b64_encode (rc_secret cfg).

(** [runOnce] up to the greeting: the dial succeeded at [now]. *)
Definition connected (now : time) (s : System) : System :=
  let c := with_connectedAt now (s_client s) in
  let c := with_conn (Some (MkConn false (time_add now (PongWait (cl_cfg c))) [])) c in
  goto InGreeting (with_workers true true [] (emit_ev [OnConnect] (on_client (fun _ => c) s))).

Definition auth_greeting (g : Greeting) : Greeting :=
  MkGreeting "auth" (g_version g) (g_agent_version g) (g_agent_commit g)
    (g_agent_build_time g) (g_protocol_version g).
Definition greet (w : socket_answer) (s : System) : System :=
  let '(c, r) := send (FGreeting (auth_greeting (rc_greeting (cl_cfg (s_client s))))) w (s_client s) in
  let s := on_client (fun _ => c) s in
  match r with
  | Ok _ => goto ReadTop s
  | Err e => goto (SessionEnd ("send greeting: " +:+ e)) s
  end.

Definition read_top (s : System) : System :=
  if s_cancelled s then goto (SessionEnd "context canceled") s else goto InRead s.

(** The rest of an iteration of the read loop, with [msg] read at [now]. *)
Definition handle_message (now : time) (msg : string) (s : System) : System :=
  let s := emit_ev [Received msg] (on_client (reset_deadline now) s) in
  goto ReadTop
    match try_acquire (s_client s) with
    | None =>
      with_workers (s_pinger s) (s_shedder s) (enqueueShedReply (s_shedQ s) msg)
        (emit_ev [OnShed msg] (on_client count_shed s))
    | Some c =>
      with_handlers (s_handlers s ++ [msg]) (emit_ev [StartHandler msg] (on_client (fun _ => c) s))
    end.

(** A ping or a pong handled inside [ReadMessage]. *)
Definition on_ping (now : time) (w : option write_error) (s : System) : System :=
  let s := on_client (reset_deadline now) s in
  match ping_handler w with
  | None => s
  | Some e => goto (SessionEnd ("read: " +:+ write_error_text e)) s
  end.
Definition on_pong (now : time) (s : System) : System := on_client (reset_deadline now) s.

(** A turn of [shedReplyLoop] with an id from the queue. *)
Definition shed_reply (w : socket_answer) (s : System) : System :=
  match s_shedQ s with
  | [] => s
  | id :: q =>
    let '(c, r) := send (FResponse (shed_response id)) w (s_client s) in
    emit_ev [ShedReply id (is_ok r)] (with_workers (s_pinger s) (s_shedder s) q (on_client (fun _ => c) s))
  end.

(** A tick of [pingLoop]: a failed ping ends the loop. *)
Definition ping_tick (w : option write_error) (s : System) : System :=
  match w with
  | None => s
  | Some _ =>
    with_workers false (s_shedder s) (s_shedQ s)
      (if socketWriteFailed w then on_client (set_conn close_conn) s else s)
  end.

(** A response of the handler of a message, over whatever session is up, and
    the handler's return. *)
Definition handler_send (r : Response) (w : socket_answer) (s : System) : System :=
  on_client (fun c => (send (FResponse r) w c).1) s.
Definition handler_done (i : nat) (s : System) : System :=
  with_handlers (delete i (s_handlers s)) (on_client release s).

(** The deferred calls of [runOnce], once both workers have returned. *)
Definition hang_up (s : System) : System :=
  emit_ev [OnDisconnect] (on_client (with_conn None) s).

Definition in_session (p : phase) : bool :=
  match p with InGreeting | ReadTop | InRead | SessionEnd _ => true | _ => false end.
(** The context of the session is cancelled with its parent, or by the exit
    of the read loop. *)
Definition session_over (s : System) : bool :=
  s_cancelled s || match s_phase s with SessionEnd _ => true | _ => false end.

(** The connection is open at this end and its deadline has not passed. *)
Definition readable (now : time) (c : Client) : bool :=
  match cl_conn c with
  | Some k => negb (co_closed k) && (now <=? co_deadline k)
  | None => false
  end.

(** [rand.Int64N] returns a value below its argument. *)
Definition rand_ok (randN : Z -> Z) : Prop := forall n, 0 < n -> 0 <= randN n < n.

Inductive step : System -> System -> Prop :=
| step_top s : s_phase s = LoopTop -> step s (loop_top s)
| step_dial_fails s now randN : s_phase s = InDial -> rand_ok randN ->
    step s (settle now randN s)
| step_dial s now : s_phase s = InDial -> 0 < now -> step s (connected now s)
| step_greet s w : s_phase s = InGreeting -> step s (greet w s)
| step_read_top s : s_phase s = ReadTop -> step s (read_top s)
| step_message s now msg : s_phase s = InRead -> readable now (s_client s) = true ->
    step s (handle_message now msg s)
| step_ping s now w : s_phase s = InRead -> readable now (s_client s) = true ->
    step s (on_ping now w s)
| step_pong s now : s_phase s = InRead -> readable now (s_client s) = true ->
    step s (on_pong now s)
| step_read_fails s e : s_phase s = InRead -> step s (goto (SessionEnd ("read: " +:+ e)) s)
| step_shed_reply s w : s_shedder s = true -> s_shedQ s <> [] -> step s (shed_reply w s)
| step_shedder_ends s : s_shedder s = true -> session_over s = true ->
    step s (with_workers (s_pinger s) false (s_shedQ s) s)
| step_ping_tick s w : s_pinger s = true -> step s (ping_tick w s)
| step_pinger_ends s : s_pinger s = true -> session_over s = true ->
    step s (with_workers false (s_shedder s) (s_shedQ s) s)
| step_hang_up s e now randN : s_phase s = SessionEnd e ->
    s_pinger s = false -> s_shedder s = false -> rand_ok randN ->
    step s (settle now randN (hang_up s))
| step_wait_over s wait : s_phase s = InWait wait ->
    step s (goto LoopTop (emit_ev [OnReconnect] s))
| step_wait_cancelled s wait : s_phase s = InWait wait -> s_cancelled s = true ->
    step s (goto (Returned "context canceled") s)
| step_handler_send s i r w : is_Some (s_handlers s !! i) -> step s (handler_send r w s)
| step_handler_done s i : is_Some (s_handlers s !! i) -> step s (handler_done i s)
| step_cancel s : step s (cancel s).

Definition reachable (cfg : RelayConfig) : System -> Prop := rtc step (init cfg).

(** ** The reconnect wait is uniform up to an exact ceiling *)
Lemma double_up_exact n limit c : 0 <= c <= limit -> limit <= int64_max ->
  double_up n limit c = Z.min limit (c * 2 ^ Z.of_nat n).
Proof.
  revert c. induction n as [|n IH]; intros c Hc Hl; cbn [double_up].
  - rewrite Z.mul_1_r. lia.
  - rewrite Nat2Z.inj_succ, Z.pow_succ_r by lia.
    pose proof (Z.pow_pos_nonneg 2 (Z.of_nat n) ltac:(lia) ltac:(lia)).
    rewrite Z.quot_div_nonneg by lia.
    destruct (Z.ltb_spec c limit); [|nia].
    destruct (Z.ltb_spec (limit / 2) c) as [Hh|Hh]; [assert (limit < 2 * c) by div_lia; nia|].
    assert (2 * c <= limit) by div_lia.
    rewrite wrap64_id by (unfold int64_min, int64_max in *; lia).
    rewrite IH by lia. f_equal. ring.
Qed.

Lemma double_up_limit n limit : double_up n limit limit = limit.
Proof. destruct n; cbn [double_up]; [done|]. by rewrite Z.ltb_irrefl. Qed.

(** The ceiling of the wait before reconnect [attempt]. *)
Definition wait_ceiling (base limit : duration) (attempt : Z) : duration :=
  Z.max 0 (Z.min limit (base * 2 ^ attempt)).

Lemma reconnectWait_eq base limit attempt randN :
  0 <= base <= int64_max -> int64_min <= limit <= int64_max -> 0 <= attempt ->
  let c := wait_ceiling base limit attempt in
  reconnectWait base limit attempt randN =
  if c =? 0 then 0 else randN (if c =? int64_max then c else c + 1).
Proof.
  intros Hb Hl Ha c. unfold reconnectWait, c, wait_ceiling.
  pose proof (Z.pow_pos_nonneg 2 attempt ltac:(lia) ltac:(lia)).
  destruct (Z_lt_ge_dec limit 0) as [Hn|Hp].
  - rewrite (Z.min_r base) by lia. rewrite double_up_limit.
    rewrite (proj2 (Z.leb_le _ _)), Z.max_l by nia. reflexivity.
  - rewrite double_up_exact by lia. rewrite Z2Nat.id by lia.
    replace (Z.min limit (Z.min base limit * 2 ^ attempt))
      with (Z.min limit (base * 2 ^ attempt)) by nia.
    set (c' := Z.min limit (base * 2 ^ attempt)).
    assert (0 <= c' <= int64_max) by (unfold c'; nia). rewrite Z.max_r by lia.
    destruct (Z.eqb_spec c' 0) as [->|]; [done|]. rewrite (proj2 (Z.leb_gt _ _)) by lia.
    destruct (Z.eqb_spec c' int64_max) as [->|]; [done|].
    by rewrite wrap64_id by (unfold int64_min, int64_max in *; lia).
Qed.

Lemma reconnectWait_bounds base limit attempt randN :
  0 <= base <= int64_max -> int64_min <= limit <= int64_max -> 0 <= attempt ->
  rand_ok randN ->
  0 <= reconnectWait base limit attempt randN <= wait_ceiling base limit attempt.
Proof.
  intros Hb Hl Ha Hr. rewrite reconnectWait_eq by done.
  set (c := wait_ceiling base limit attempt).
  assert (0 <= c) by (unfold c, wait_ceiling; lia).
  destruct (Z.eqb_spec c 0); [lia|].
  destruct (Z.eqb_spec c int64_max).
  - pose proof (Hr c ltac:(lia)). lia.
  - pose proof (Hr (c + 1) ltac:(lia)). lia.
Qed.

(** Before reconnect number [attempt] the client may wait any duration
    from zero to the smaller of the limit and the base doubled [attempt]
    times, and no other: the doubling neither overflows nor overshoots the
    limit, however many attempts have failed.  (The largest int64 itself is out of
    reach of [rand.Int64N].) *)
Theorem reconnect_wait_full_jitter base limit attempt v :
  0 <= base <= int64_max -> int64_min <= limit <= int64_max ->
  0 <= attempt -> v < int64_max ->
  (exists randN, rand_ok randN /\ reconnectWait base limit attempt randN = v) <->
  0 <= v <= wait_ceiling base limit attempt.
Proof.
  intros Hb Hl Ha Hv. split.
  - intros (randN & Hr & <-). by apply reconnectWait_bounds.
  - intros Hr. exists (fun n => if v <? n then v else 0). split.
    { intros n Hn. destruct (Z.ltb_spec v n); lia. }
    rewrite reconnectWait_eq by done. destruct (Z.eqb_spec (wait_ceiling base limit attempt) 0); [lia|].
    destruct (Z.eqb_spec (wait_ceiling base limit attempt) int64_max);
      rewrite (proj2 (Z.ltb_lt _ _)); lia.
Qed.

Lemma reconnect_wait_full_jitter_witness :
  exists randN, rand_ok randN /\ reconnectWait (3 * second) (30 * second) 1000 randN = 30 * second.
Proof.
  apply (proj2 (reconnect_wait_full_jitter (3 * second) (30 * second) 1000 (30 * second)
    ltac:(vm_compute; intuition congruence) ltac:(vm_compute; intuition congruence)
    ltac:(lia) ltac:(vm_compute; reflexivity))).
  vm_compute. intuition congruence.
Defined.

(** ** Reading the log *)
Definition as_received (e : event) : option string :=
  match e with Received m => Some m | _ => None end.
Definition as_decided (e : event) : option string :=
  match e with StartHandler m | OnShed m => Some m | _ => None end.
Definition as_shed (e : event) : option string :=
  match e with OnShed m => Some m | _ => None end.
Definition as_shed_id (e : event) : option string :=
  match e with OnShed m => shed_probe m | _ => None end.
Definition as_reply (e : event) : option string :=
  match e with ShedReply id _ => Some id | _ => None end.
Definition received (l : list event) : list string := omap as_received l.
Definition decided (l : list event) : list string := omap as_decided l.
Definition shed_msgs (l : list event) : list string := omap as_shed l.
Definition shed_ids (l : list event) : list string := omap as_shed_id l.
Definition replied (l : list event) : list string := omap as_reply l.

(** The callbacks that drive the connection gauge. *)
Definition gauge_step (g : Z) (e : event) : Z :=
  match e with OnConnect => g + 1 | OnDisconnect => g - 1 | _ => g end.
Definition gauge (l : list event) : Z := foldl gauge_step 0 l.

(** Reconnects since the last session that held, counting its own. *)
Definition streak_step (n : Z) (e : event) : Z :=
  match e with Settled true _ => 1 | Settled false _ => n + 1 | _ => n end.
Definition streak (l : list event) : Z := foldl streak_step 0 l.

(** Every wait in the log is within its ceiling. *)
Fixpoint waits_ok (cfg : RelayConfig) (n : Z) (l : list event) : bool :=
  match l with
  | [] => true
  | e :: l =>
    match e with
    | Settled held w =>
      let k := if held then 0 else n in
      (0 <=? w) && (w <=? wait_ceiling (ReconnectDelay cfg) (MaxReconnectDelay cfg) k)
    | _ => true
    end && waits_ok cfg (streak_step n e) l
  end.

Lemma gauge_app l k : gauge (l ++ k) = foldl gauge_step (gauge l) k.
Proof. apply foldl_app. Qed.
Lemma streak_app l k : streak (l ++ k) = foldl streak_step (streak l) k.
Proof. apply foldl_app. Qed.
Lemma waits_ok_app cfg n l k :
  waits_ok cfg n (l ++ k) = waits_ok cfg n l && waits_ok cfg (foldl streak_step n l) k.
Proof.
  revert n. induction l as [|e l IH]; intros n; simpl; [done|].
  rewrite IH. by rewrite andb_assoc.
Qed.
Lemma streak_step_bound n e : 0 <= n -> 0 <= streak_step n e <= n + 1.
Proof. destruct e as [| | | | | |? ?|[] ?]; simpl; lia. Qed.
Lemma streak_bound l : 0 <= streak l <= Z.of_nat (length l).
Proof.
  induction l as [|e l IH] using rev_ind; [done|].
  rewrite streak_app, length_app. simpl.
  pose proof (streak_step_bound (streak l) e). lia.
Qed.

#[local] Hint Rewrite gauge_app streak_app @omap_app : log.

(** ** Steps and invariants *)
Lemma reachable_inv cfg (P : System -> Prop) :
  P (init cfg) -> (forall s s', P s -> step s s' -> P s') ->
  forall s, reachable cfg s -> P s.
Proof.
  unfold reachable. intros H0 Hs s Hr. revert H0.
  induction Hr as [|x y z Hxy Hyz IH]; eauto.
Qed.

(** [send] changes the connection only, and never its existence. *)
Definition same_but_conn (c c' : Client) : Prop :=
  cl_cfg c' = cl_cfg c /\ cl_sem c' = cl_sem c /\ cl_shed c' = cl_shed c /\
  cl_connectedAt c' = cl_connectedAt c /\
  (forall k, cl_conn c = Some k -> exists k', cl_conn c' = Some k' /\
     (co_closed k = true -> co_closed k' = true)) /\
  (cl_conn c = None -> cl_conn c' = None).

Lemma send_same f w c : same_but_conn c (send f w c).1.
Proof.
  unfold send, same_but_conn. destruct (cl_conn c) as [k|] eqn:Ek.
  - repeat case_match; simpl; rewrite ?Ek; repeat split; naive_solver.
  - naive_solver.
Qed.

Lemma set_conn_same g c : (forall k, co_closed k = true -> co_closed (g k) = true) ->
  same_but_conn c (set_conn g c).
Proof.
  intros Hg. unfold set_conn, same_but_conn. simpl.
  destruct (cl_conn c) as [k|]; simpl; repeat split; naive_solver.
Qed.

(** What a step does to the system, in the terms of the invariants below:
    each group of steps as one transition. *)
Inductive effect_of (s s' : System) : Prop :=
| Quiet :
    same_but_conn (s_client s) (s_client s') -> s_attempt s' = s_attempt s ->
    s_handlers s' = s_handlers s -> s_shedQ s' = s_shedQ s ->
    in_session (s_phase s') = in_session (s_phase s) ->
    (s_log s' = s_log s \/ s_log s' = s_log s ++ [OnReconnect]) -> effect_of s s'
| Redials :
    s_phase s = LoopTop -> in_session (s_phase s') = false ->
    s_client s' = with_connectedAt zero_time (s_client s) ->
    s_attempt s' = s_attempt s -> s_handlers s' = s_handlers s ->
    s_shedQ s' = s_shedQ s -> s_log s' = s_log s -> effect_of s s'
| Connects now :
    s_phase s = InDial -> s' = connected now s -> effect_of s s'
| Settles now randN t :
    rand_ok randN -> s' = settle now randN t ->
    (t = s /\ s_phase s = InDial \/ t = hang_up s /\ in_session (s_phase s) = true) ->
    effect_of s s'
| Reads now msg :
    s_phase s = InRead -> readable now (s_client s) = true ->
    s' = handle_message now msg s -> effect_of s s'
| Replies id ok :
    s_shedQ s = id :: s_shedQ s' -> s_log s' = s_log s ++ [ShedReply id ok] ->
    same_but_conn (s_client s) (s_client s') -> s_attempt s' = s_attempt s ->
    s_handlers s' = s_handlers s -> s_phase s' = s_phase s -> effect_of s s'
| Finishes i :
    is_Some (s_handlers s !! i) -> s' = handler_done i s -> effect_of s s'.

Lemma same_refl c : same_but_conn c c.
Proof. unfold same_but_conn. naive_solver. Qed.
#[local] Hint Resolve same_refl send_same : relay.

Lemma reset_deadline_same now c : same_but_conn c (reset_deadline now c).
Proof. apply set_conn_same. by intros []. Qed.

Lemma step_effect s s' : step s s' -> effect_of s s'.
Proof.
  destruct 1 as [s Hp|s now randN Hp Hr|s now Hp Hn|s w Hp|s Hp|s now msg Hp Hr|s now w Hp Hr
    |s now Hp Hr|s e Hp|s w Hw Hq|s Hw Ho|s w Hw|s Hw Ho|s e now randN Hp Hw Hv Hr|s wait Hp
    |s wait Hp Hc|s i r w Hi|s i Hi|s].
  - unfold loop_top. destruct (s_cancelled s).
    + eapply Quiet; simpl; rewrite ?Hp; auto with relay.
    + eapply Redials; simpl; auto.
  - eapply Settles; eauto.
  - eapply Connects; eauto.
  - unfold greet. pose proof (send_same (FGreeting (auth_greeting (rc_greeting (cl_cfg (s_client s))))) w (s_client s)) as Hs.
    destruct (send _ _ _) as [c [[]|e]]; eapply Quiet; simpl; rewrite ?Hp; auto.
  - unfold read_top. destruct (s_cancelled s); eapply Quiet; simpl; rewrite ?Hp; auto with relay.
  - eapply Reads; eauto.
  - unfold on_ping. pose proof (reset_deadline_same now (s_client s)).
    destruct (ping_handler w); eapply Quiet; simpl; rewrite ?Hp; auto.
  - pose proof (reset_deadline_same now (s_client s)). eapply Quiet; simpl; auto.
  - eapply Quiet; simpl; rewrite ?Hp; auto with relay.
  - unfold shed_reply. destruct (s_shedQ s) as [|id q] eqn:E; [done|].
    pose proof (send_same (FResponse (shed_response id)) w (s_client s)) as Hs.
    destruct (send _ _ _) as [c r]. eapply Replies; simpl; eauto.
  - eapply Quiet; simpl; auto with relay.
  - unfold ping_tick. destruct w as [w|]; [|eapply Quiet; auto with relay].
    destruct (socketWriteFailed _); eapply Quiet; simpl; auto with relay.
    by apply set_conn_same.
  - eapply Quiet; simpl; auto with relay.
  - eapply Settles; [done|done|]. right. by rewrite Hp.
  - eapply Quiet; simpl; rewrite ?Hp; auto with relay.
  - eapply Quiet; simpl; rewrite ?Hp; auto with relay.
  - eapply Quiet; simpl; auto with relay.
  - eapply Finishes; eauto.
  - eapply Quiet; simpl; auto with relay.
Qed.

(** The effect of a step, with the projections of the new state computed. *)
Ltac effects H :=
  apply step_effect in H;
  destruct H as [(?&?&?&?&?&?) ? ? ? ? Hlog|? ? Hcl ? ? ? Hlog|now Hph ->|now randN t Hrand -> [[-> Hph]|[-> Hph]]
    |now msg Hph Hread ->|id ok Hq Hlog (?&?&?&?&?&?) ? ? ?|i Hi ->].

Record accounts (cfg : RelayConfig) (s : System) : Prop := {
  ac_cfg : cl_cfg (s_client s) = with_defaults cfg;
  ac_sem : match cl_sem (s_client s) with
           | None => HandlerPoolSize cfg <= 0
           | Some n => n = Z.of_nat (length (s_handlers s)) /\ 0 <= n <= HandlerPoolSize cfg
           end;
  ac_decided : received (s_log s) = decided (s_log s);
  ac_shed : cl_shed (s_client s) = Z.of_nat (length (shed_msgs (s_log s))) mod 2 ^ 64
}.

Lemma accounts_init cfg : accounts cfg (init cfg).
Proof. split; simpl; [done| |done|done]. destruct (Z.ltb_spec 0 (HandlerPoolSize cfg)); lia. Qed.

Lemma accounts_log_quiet cfg s s' l :
  cl_cfg (s_client s') = cl_cfg (s_client s) -> cl_sem (s_client s') = cl_sem (s_client s) ->
  cl_shed (s_client s') = cl_shed (s_client s) -> s_handlers s' = s_handlers s ->
  s_log s' = s_log s ++ l -> received l = [] -> decided l = [] -> shed_msgs l = [] ->
  accounts cfg s -> accounts cfg s'.
Proof.
  intros Hc Hs Hd Hh Hl Hr Hdec Hsh [A B C D].
  split; rewrite ?Hc, ?Hs, ?Hd, ?Hh, ?Hl; auto.
  - unfold received, decided in *. rewrite !omap_app, Hr, Hdec. by rewrite C.
  - unfold shed_msgs in *. by rewrite omap_app, Hsh, app_nil_r.
Qed.

Lemma accounts_reads cfg now msg s : accounts cfg s -> accounts cfg (handle_message now msg s).
Proof.
  intros [A B C D]. unfold handle_message, try_acquire. simpl.
  destruct (cl_sem (s_client s)) as [n|] eqn:En; [destruct (Z.ltb_spec n (HandlerPoolSize (cl_cfg (s_client s))))|];
    split; simpl; rewrite ?En, ?length_app, ?A in *; unfold received, decided, shed_msgs in *;
    rewrite ?omap_app; simpl in *; rewrite ?app_nil_r; auto.
  - lia.
  - by rewrite C.
  - by rewrite C.
  - rewrite D, length_app, Zplus_mod_idemp_l. f_equal. simpl. lia.
  - by rewrite C.
Qed.

Lemma accounts_step cfg s s' : accounts cfg s -> step s s' -> accounts cfg s'.
Proof.
  intros HA H. effects H.
  - destruct Hlog as [Hlog|Hlog]; [|by eapply accounts_log_quiet].
    rewrite <- (app_nil_r (s_log s)) in Hlog. by eapply accounts_log_quiet.
  - rewrite <- (app_nil_r (s_log s)) in Hlog.
    eapply accounts_log_quiet; first [by rewrite Hcl|done|eassumption].
  - eapply (accounts_log_quiet _ s _ [OnConnect]); done.
  - eapply (accounts_log_quiet _ s _ [Settled _ _]); done.
  - eapply (accounts_log_quiet _ (hang_up s) _ [Settled _ _]); try done.
    eapply (accounts_log_quiet _ s _ [OnDisconnect]); done.
  - by apply accounts_reads.
  - by eapply accounts_log_quiet.
  - destruct HA as [A B C D], Hi as [x Hi].
    pose proof (lookup_lt_Some _ _ _ Hi).
    split; simpl; unfold release; destruct (cl_sem (s_client s)) as [n|] eqn:En; simpl; rewrite ?En; auto.
    rewrite length_delete by eauto. lia.
Qed.

Lemma accounts_reachable cfg s : reachable cfg s -> accounts cfg s.
Proof. apply reachable_inv; [apply accounts_init|apply accounts_step]. Qed.

(** Over any number of sessions, at most [HandlerPoolSize] handlers run at
    a time, and every message read is either handed to a handler or shed,
    exactly one of the two and in the order of arrival, the shed counter being
    the number of the latter. *)
Theorem inbound_messages_accounted cfg s : reachable cfg s ->
  (0 < HandlerPoolSize cfg -> Z.of_nat (length (s_handlers s)) <= HandlerPoolSize cfg) /\
  received (s_log s) = decided (s_log s) /\
  cl_shed (s_client s) = Z.of_nat (length (shed_msgs (s_log s))) mod 2 ^ 64.
Proof.
  intros [A B C D]%accounts_reachable. split; [|done].
  destruct (cl_sem (s_client s)); lia.
Qed.

(** ** Shed replies *)
Definition replies_ok (s : System) : Prop :=
  Z.of_nat (length (s_shedQ s)) <= shedReplyQueue /\
  submseteq (s_shedQ s ++ replied (s_log s)) (shed_ids (s_log s)) /\
  ~ "" ∈ s_shedQ s ++ replied (s_log s).

Lemma enqueue_cases q msg :
  enqueueShedReply q msg = q \/
  exists id, shed_probe msg = Some id /\ id <> "" /\ Z.of_nat (length q) < shedReplyQueue /\
    enqueueShedReply q msg = q ++ [id].
Proof.
  unfold enqueueShedReply. destruct (shed_probe msg) as [id|]; [|auto].
  case_bool_decide; [auto|]. destruct (Z.ltb_spec (Z.of_nat (length q)) shedReplyQueue); [|auto].
  right. eauto.
Qed.

Lemma replies_quiet s s' l : s_shedQ s' = s_shedQ s \/ s_shedQ s' = [] ->
  s_log s' = s_log s ++ l -> replied l = [] -> shed_ids l = [] ->
  replies_ok s -> replies_ok s'.
Proof.
  intros Hq Hl Hr Hs (A & B & C). unfold replies_ok, replied, shed_ids in *.
  rewrite Hl, !omap_app, Hr, Hs, !app_nil_r.
  destruct Hq as [->| ->]; [done|]. split; [by unfold shedReplyQueue|]. split.
  - etrans; [|exact B]. apply submseteq_inserts_l. done.
  - intros ?. apply C. set_solver.
Qed.

Lemma replies_reads now msg s : replies_ok s -> replies_ok (handle_message now msg s).
Proof.
  intros (A & B & C). unfold handle_message. destruct (try_acquire _) as [c|].
  - eapply (replies_quiet s _ [Received msg; StartHandler msg]); simpl; auto.
    + by rewrite <- app_assoc.
    + done.
  - unfold replies_ok, replied, shed_ids in *. simpl. rewrite !omap_app. simpl. rewrite !app_nil_r.
    destruct (enqueue_cases (s_shedQ s) msg) as [->|(id & Hp & Hne & Hlt & ->)].
    + split; [done|]. split; [|done]. etrans; [exact B|]. by apply submseteq_inserts_r.
    + rewrite Hp, length_app. simpl. split; [lia|]. split.
      * rewrite <- app_assoc. simpl. rewrite <- Permutation_middle, (Permutation_app_comm _ [id]).
        by apply submseteq_skip.
      * set_solver.
Qed.

Lemma replies_step s s' : replies_ok s -> step s s' -> replies_ok s'.
Proof.
  intros HA H. effects H.
  - destruct Hlog as [Hlog|Hlog]; [|by eapply replies_quiet; eauto].
    rewrite <- (app_nil_r (s_log s)) in Hlog. by eapply replies_quiet; eauto.
  - rewrite <- (app_nil_r (s_log s)) in Hlog. by eapply replies_quiet; eauto.
  - eapply (replies_quiet s _ [OnConnect]); auto.
  - eapply (replies_quiet s _ [Settled _ _]); auto.
  - eapply (replies_quiet (hang_up s) _ [Settled _ _]); auto.
    eapply (replies_quiet s _ [OnDisconnect]); auto.
  - by apply replies_reads.
  - destruct HA as (A & B & C). unfold replies_ok, replied, shed_ids in *.
    rewrite Hlog, !omap_app. simpl. rewrite app_nil_r. rewrite Hq in A, B, C. simpl in *.
    split; [lia|]. split.
    + rewrite app_assoc, (Permutation_app_comm _ [id]). exact B.
    + set_solver.
  - exact HA.
Qed.

Lemma replies_reachable cfg s : reachable cfg s -> replies_ok s.
Proof.
  apply reachable_inv; [|apply replies_step].
  split; [by unfold shedReplyQueue|]. simpl. split; [done|set_solver].
Qed.

(** The client answers 503 only to messages it shed, at most once for each
    and never to one without a request id; no more than 256 answers are ever
    pending. *)
Theorem shed_replies_answer_shed_messages cfg s id : reachable cfg s ->
  (count_occ String.string_dec (replied (s_log s)) id <=
   count_occ String.string_dec (shed_ids (s_log s)) id)%nat /\
  count_occ String.string_dec (replied (s_log s)) "" = 0%nat /\
  Z.of_nat (length (s_shedQ s)) <= shedReplyQueue.
Proof.
  intros (A & B & C)%replies_reachable. split; [|split; [|done]].
  - apply submseteq_Permutation in B as [k Hk].
    rewrite (proj1 (Permutation_count_occ String.string_dec _ _) Hk id).
    rewrite !count_occ_app. lia.
  - apply count_occ_not_In. intros Hin. apply C. apply list_elem_of_In in Hin. set_solver.
Qed.

(** ** The connection gauge *)
Definition gauge_ok (s : System) : Prop :=
  gauge (s_log s) = (if in_session (s_phase s) then 1 else 0) /\
  (is_Some (cl_conn (s_client s)) <-> in_session (s_phase s) = true).

Lemma same_conn c c' : same_but_conn c c' -> is_Some (cl_conn c') <-> is_Some (cl_conn c).
Proof.
  intros (_ & _ & _ & _ & A & B). destruct (cl_conn c) as [k|].
  - destruct (A k eq_refl) as (k' & -> & _). split; eauto.
  - rewrite B by done. done.
Qed.

Lemma try_acquire_conn c c' : try_acquire c = Some c' -> cl_conn c' = cl_conn c.
Proof. unfold try_acquire. repeat case_match; naive_solver. Qed.
Lemma release_conn c : cl_conn (release c) = cl_conn c.
Proof. unfold release. by case_match. Qed.

Lemma handle_message_conn now msg s :
  cl_conn (s_client (handle_message now msg s)) = cl_conn (reset_deadline now (s_client s)).
Proof.
  unfold handle_message. simpl. destruct (try_acquire _) as [c|] eqn:E; simpl; [|done].
  by rewrite (try_acquire_conn _ _ E).
Qed.

Lemma handle_message_log now msg s : exists e,
  (e = StartHandler msg \/ e = OnShed msg) /\
  s_log (handle_message now msg s) = s_log s ++ [Received msg; e].
Proof.
  unfold handle_message. destruct (try_acquire _); simpl; rewrite <- app_assoc; eauto.
Qed.

Lemma gauge_step_inv s s' : gauge_ok s -> step s s' -> gauge_ok s'.
Proof.
  intros [A B] H. pose proof H as H0. apply step_effect in H0.
  destruct H0 as [Hsame ? ? ? Hin Hlog|Hp Hin Hcl ? ? ? Hlog|now Hph ->|now randN t Hrand -> Ht
    |now msg Hph Hread ->|id ok Hq Hlog Hsame ? ? Hp|i Hi ->]; unfold gauge_ok.
  - rewrite Hin, (same_conn _ _ Hsame). split; [|done]. rewrite <- A.
    destruct Hlog as [->| ->]; [done|]. by rewrite gauge_app.
  - rewrite Hin, Hlog, Hcl. rewrite Hp in A, B. by simpl.
  - simpl. rewrite gauge_app, A, Hph. by simpl.
  - destruct Ht as [[-> Hph]|[-> Hph]]; unfold hang_up; simpl; rewrite !gauge_app, A, Hph; simpl.
    + rewrite Hph in B. by simpl in B.
    + split; [lia|]. split; [by intros []|done].
  - rewrite handle_message_conn, (same_conn _ _ (reset_deadline_same now (s_client s))).
    destruct (handle_message_log now msg s) as (e & He & ->). rewrite gauge_app, A, Hph in *.
    simpl. split; [|done]. by destruct He as [->| ->].
  - rewrite Hp, Hlog, (same_conn _ _ Hsame), gauge_app. done.
  - simpl. by rewrite release_conn.
Qed.

Lemma gauge_reachable cfg s : reachable cfg s -> gauge_ok s.
Proof.
  apply reachable_inv; [|apply gauge_step_inv]. split; [done|].
  simpl. split; [by intros []|done].
Qed.

(** The callbacks bracket the sessions: at every moment the connection
    gauge is 1 while a session is up and 0 otherwise, in particular after
    [Run] has returned. *)
Theorem connection_gauge_exact cfg s : reachable cfg s ->
  gauge (s_log s) = (if cl_conn (s_client s) then 1 else 0) /\
  (forall e, s_phase s = Returned e -> gauge (s_log s) = 0).
Proof.
  intros [A B]%gauge_reachable. split.
  - rewrite A. destruct (in_session (s_phase s)).
    + destruct (proj2 B eq_refl) as [k ->]. done.
    + destruct (cl_conn (s_client s)); [|done]. discriminate (proj1 B ltac:(eauto)).
  - intros e He. by rewrite A, He.
Qed.

(** ** The waits *)
Definition valid_delays (cfg : RelayConfig) : Prop :=
  0 <= ReconnectDelay cfg <= int64_max /\ int64_min <= MaxReconnectDelay cfg <= int64_max.

Lemma valid_with_defaults cfg : valid_delays cfg -> valid_delays (with_defaults cfg).
Proof.
  unfold valid_delays, with_defaults, or_default, int64_max, int64_min, second. simpl.
  repeat case_match; lia.
Qed.

Definition waits_inv (cfg : RelayConfig) (s : System) : Prop :=
  cl_cfg (s_client s) = with_defaults cfg /\
  s_attempt s = wrap64 (streak (s_log s)) /\
  (Z.of_nat (length (s_log s)) < 2 ^ 63 -> waits_ok (with_defaults cfg) 0 (s_log s) = true).

Lemma waits_quiet cfg s s' l :
  cl_cfg (s_client s') = cl_cfg (s_client s) -> s_attempt s' = s_attempt s ->
  s_log s' = s_log s ++ l ->
  (forall n, foldl streak_step n l = n) -> (forall n, waits_ok (with_defaults cfg) n l = true) ->
  waits_inv cfg s -> waits_inv cfg s'.
Proof.
  intros Hc Ha Hl Hs Hw (A & B & C). unfold waits_inv.
  rewrite Hc, Ha, Hl, streak_app, Hs, waits_ok_app, length_app. fold (streak (s_log s)).
  rewrite Hw, andb_true_r. split; [done|]. split; [done|]. intros ?. apply C. lia.
Qed.

Lemma waits_settle cfg now randN s : valid_delays cfg -> rand_ok randN ->
  waits_inv cfg s -> waits_inv cfg (settle now randN s).
Proof.
  intros Hv Hr (A & B & C). unfold waits_inv, settle. simpl.
  rewrite streak_app, waits_ok_app, length_app. simpl. fold (streak (s_log s)).
  set (held := session_held now (s_client s)).
  split; [done|]. split.
  { destruct held; simpl; [done|]. rewrite B. unfold wrap64. f_equal.
    replace ((streak (s_log s) + 2 ^ 63) mod 2 ^ 64 - 2 ^ 63 + 1 + 2 ^ 63)
      with ((streak (s_log s) + 2 ^ 63) mod 2 ^ 64 + 1) by lia.
    rewrite Zplus_mod_idemp_l. f_equal. lia. }
  intros Hn. rewrite C by lia. simpl. rewrite andb_true_r.
  pose proof (streak_bound (s_log s)).
  assert (s_attempt s = streak (s_log s)) as ->.
  { rewrite B. apply wrap64_id. unfold int64_min, int64_max. lia. }
  apply valid_with_defaults in Hv as [Hv1 Hv2]. rewrite A.
  apply andb_true_iff. rewrite !Z.leb_le.
  apply reconnectWait_bounds; [done|done|destruct held; lia|done].
Qed.

Lemma waits_step cfg s s' : valid_delays cfg -> waits_inv cfg s -> step s s' -> waits_inv cfg s'.
Proof.
  intros Hv HA H. effects H.
  - destruct Hlog as [Hlog|Hlog]; [|by eapply waits_quiet].
    rewrite <- (app_nil_r (s_log s)) in Hlog. by eapply waits_quiet.
  - rewrite <- (app_nil_r (s_log s)) in Hlog.
    eapply waits_quiet; first [by rewrite Hcl|done|eassumption].
  - eapply (waits_quiet _ s _ [OnConnect]); done.
  - by apply waits_settle.
  - apply waits_settle; [done|done|]. by eapply (waits_quiet _ s _ [OnDisconnect]).
  - destruct (handle_message_log now msg s) as (e & He & Hl).
    eapply waits_quiet; [|  |exact Hl| | |exact HA].
    + unfold handle_message, try_acquire. simpl. by repeat case_match; simplify_eq/=.
    + unfold handle_message, try_acquire. simpl. by repeat case_match; simplify_eq/=.
    + by destruct He as [->| ->].
    + by destruct He as [->| ->].
  - by eapply waits_quiet.
  - destruct HA as (A & B & C). unfold waits_inv, handler_done, release. simpl.
    by destruct (cl_sem (s_client s)).
Qed.

(** Every wait of a run is at most the base delay doubled once per
    reconnect since the last session that stayed up for [MaxReconnectDelay],
    and never more than [MaxReconnectDelay]; such a session resets the
    doubling, a shorter one or a failed dial does not. *)
Theorem backoff_follows_streak cfg s l held w l' : valid_delays cfg -> reachable cfg s ->
  Z.of_nat (length (s_log s)) < 2 ^ 63 ->
  s_log s = l ++ Settled held w :: l' ->
  0 <= w <= wait_ceiling (ReconnectDelay (with_defaults cfg)) (MaxReconnectDelay (with_defaults cfg))
              (if held then 0 else streak l).
Proof.
  intros Hv Hr Hn Hl. assert (waits_inv cfg s) as (_ & _ & C).
  { revert s Hr Hn Hl. intros s Hr _ _. revert s Hr. apply reachable_inv.
    - by split.
    - intros; by eapply waits_step. }
  specialize (C Hn). rewrite Hl, waits_ok_app in C. simpl in C. fold (streak l) in C.
  rewrite !andb_true_iff, !Z.leb_le in C. by destruct C as [_ [C _]].
Qed.

(** ** A failed write ends the session *)
Definition conn_closed (c : Client) : Prop :=
  exists k, cl_conn c = Some k /\ co_closed k = true.

Lemma same_closed c c' : same_but_conn c c' -> conn_closed c -> conn_closed c'.
Proof.
  intros (_ & _ & _ & _ & A & _) (k & Hk & Hcl). destruct (A k Hk) as (k' & Hk' & Hc).
  exists k'. auto.
Qed.

Lemma step_log s s' : step s s' -> exists l, s_log s' = s_log s ++ l.
Proof.
  intros H. apply step_effect in H.
  destruct H as [? ? ? ? ? Hlog|? ? ? ? ? ? Hlog|now ? ->|now ? t ? -> [[-> ?]|[-> ?]]
    |now msg ? ? ->|id ok ? Hlog|i ? ->].
  - destruct Hlog as [->| ->]; eauto using app_nil_r, eq_sym.
  - rewrite Hlog. eauto using app_nil_r, eq_sym.
  - eexists. reflexivity.
  - eexists. reflexivity.
  - unfold hang_up. simpl. rewrite <- app_assoc. eauto.
  - destruct (handle_message_log now msg s) as (e & _ & ->). eauto.
  - eauto.
  - eexists. symmetry. apply app_nil_r.
Qed.

Lemma steps_log s s' : rtc step s s' -> exists l, s_log s' = s_log s ++ l.
Proof.
  induction 1 as [|x y z Hxy _ (k & Hk)]; [eexists; symmetry; apply app_nil_r|].
  apply step_log in Hxy as [l Hl]. exists (l ++ k). by rewrite Hk, Hl, app_assoc.
Qed.

Lemma closed_step s s' : conn_closed (s_client s) -> in_session (s_phase s) = true -> step s s' ->
  exists l, s_log s' = s_log s ++ l /\ received l = [] /\
    (OnDisconnect ∈ l \/ conn_closed (s_client s') /\ in_session (s_phase s') = true).
Proof.
  intros Hc Hp H. apply step_effect in H.
  destruct H as [Hsame ? ? ? Hin Hlog|Hph ? ? ? ? ? Hlog|now Hph ->|now randN t Hrand -> Ht
    |now msg Hph Hread ->|id ok Hq Hlog Hsame ? ? Hph|i Hi ->].
  - pose proof (same_closed _ _ Hsame Hc).
    destruct Hlog as [Hlog|Hlog]; [exists []; rewrite app_nil_r|eexists]; rewrite Hin; eauto.
  - by rewrite Hph in Hp.
  - by rewrite Hph in Hp.
  - destruct Ht as [[-> Hph]|[-> Hph]]; [by rewrite Hph in Hp|].
    eexists [OnDisconnect; _]. unfold hang_up. simpl. rewrite <- app_assoc. split; [done|].
    split; [done|]. left. set_solver.
  - destruct Hc as (k & Hk & Hcl). unfold readable in Hread. rewrite Hk, Hcl in Hread. done.
  - exists [ShedReply id ok]. rewrite Hph. split; [done|]. split; [done|].
    right. split; [by eapply same_closed|done].
  - exists []. rewrite app_nil_r. split; [done|]. split; [done|]. right. split; [|done].
    unfold conn_closed. simpl. by rewrite release_conn.
Qed.

(** Once a write failed on the socket, the session reads nothing more: the
    next message the client receives belongs to a later session, whatever the
    peer and the handlers do. *)
Theorem socket_write_failure_ends_session cfg s f a e s' :
  reachable cfg s -> is_Some (cl_conn (s_client s)) -> is_Some (frame_text f) ->
  a_deadline a = None -> a_write a = Some e -> socketWriteFailed (Some e) = true ->
  rtc step (on_client (fun c => (send f a c).1) s) s' ->
  exists l, s_log s' = s_log s ++ l /\ (OnDisconnect ∈ l \/ received l = []).
Proof.
  intros Hr Hconn [t Ht] Hd Hw He Hsteps.
  assert (in_session (s_phase s) = true) as Hp.
  { by apply (gauge_reachable _ _ Hr). }
  set (s1 := on_client _ s) in Hsteps.
  assert (conn_closed (s_client s1)) as Hc.
  { destruct Hconn as [k Hk]. unfold s1, conn_closed, on_client, send. simpl.
    rewrite Hk, Hd, Ht, Hw, He. simpl. eauto. }
  change (s_log s) with (s_log s1). change (s_phase s) with (s_phase s1) in Hp.
  clearbody s1. clear -Hc Hp Hsteps.
  induction Hsteps as [s1|s1 s2 s3 H12 H23 IH].
  - exists []. rewrite app_nil_r. auto.
  - destruct (closed_step _ _ Hc Hp H12) as (l & Hl & Hrl & Hcase).
    destruct (steps_log _ _ H23) as [l' Hl'].
    destruct Hcase as [Hin|[Hc2 Hp2]].
    + exists (l ++ l'). rewrite Hl', Hl, app_assoc. split; [done|]. left. set_solver.
    + destruct (IH Hp2 Hc2) as (k & Hk & Hcase'). exists (l ++ k). rewrite Hk, Hl, app_assoc.
      split; [done|]. unfold received in *. rewrite omap_app, Hrl. simpl. set_solver.
Qed.

(** ** Shutdown *)
Definition rank (p : phase) : nat :=
  match p with
  | Returned _ => 0 | LoopTop => 1 | InWait _ => 2 | SessionEnd _ => 3
  | ReadTop => 4 | InGreeting => 5 | InRead => 5 | InDial => 6
  end.

Lemma rank_step s s' : s_cancelled s = true -> step s s' ->
  s_cancelled s' = true /\ (s_phase s' = s_phase s \/ (rank (s_phase s') < rank (s_phase s))%nat).
Proof.
  intros Hc H. destruct H as [s Hp|s now randN Hp Hr|s now Hp Hn|s w Hp|s Hp|s now msg Hp Hr|s now w Hp Hr
    |s now Hp Hr|s e Hp|s w Hw Hq|s Hw Ho|s w Hw|s Hw Ho|s e now randN Hp Hw Hv Hr|s wait Hp
    |s wait Hp Hc'|s i r w Hi|s i Hi|s].
  all: unfold loop_top, greet, read_top, handle_message, on_ping, shed_reply, ping_tick; simpl.
  all: rewrite ?Hc; repeat case_match; simpl; rewrite ?Hp; simpl; auto with lia.
Qed.

(** Workers of a session that is over can return, then the session ends. *)
Lemma end_session_run s e : s_cancelled s = true -> s_phase s = SessionEnd e ->
  exists n s', (n <= 3)%nat /\ nsteps step n s s' /\ s_cancelled s' = true /\ exists w, s_phase s' = InWait w.
Proof.
  intros Hc Hp. pose (R := fun _ : Z => 0).
  assert (rand_ok R) as HR by (intros ? ?; unfold R; lia).
  assert (forall t, s_cancelled t = true -> s_phase t = SessionEnd e -> s_pinger t = false ->
    s_shedder t = false -> exists s', nsteps step 1 t s' /\ s_cancelled s' = true /\
    exists w, s_phase s' = InWait w) as Hend.
  { intros t Ht Hpt H1 H2. exists (settle 0 R (hang_up t)). split; [|split; [done|eexists; reflexivity]].
    apply nsteps_once. by eapply step_hang_up. }
  pose (s1 := if s_pinger s then with_workers false (s_shedder s) (s_shedQ s) s else s).
  pose (s2 := if s_shedder s1 then with_workers (s_pinger s1) false (s_shedQ s1) s1 else s1).
  assert (s_cancelled s2 = true /\ s_phase s2 = SessionEnd e /\ s_pinger s2 = false /\ s_shedder s2 = false)
    as (Hc2 & Hp2 & H1 & H2).
  { unfold s2, s1. repeat case_match; simpl in *; done. }
  assert (exists n, (n <= 1)%nat /\ nsteps step n s s1) as (n1 & Hn1 & Hs1).
  { unfold s1. destruct (s_pinger s) eqn:E; [exists 1%nat|exists 0%nat]; (split; [lia|]); [|constructor].
    apply nsteps_once. apply step_pinger_ends; [done|]. unfold session_over. by rewrite Hc. }
  assert (exists n, (n <= 1)%nat /\ nsteps step n s1 s2) as (n2 & Hn2 & Hs2).
  { unfold s2. destruct (s_shedder s1) eqn:E; [exists 1%nat|exists 0%nat]; (split; [lia|]); [|constructor].
    apply nsteps_once. apply step_shedder_ends; [done|]. unfold session_over.
    by unfold s1; case_match; simpl; rewrite Hc. }
  destruct (Hend s2) as (s3 & Hs3 & Hc3 & Hw3); [done..|].
  exists (n1 + n2 + 1)%nat, s3. split; [lia|]. split; [|done].
  eapply nsteps_trans; [eapply nsteps_trans; eauto|exact Hs3].
Qed.

Lemma returned_from_wait s w : s_cancelled s = true -> s_phase s = InWait w ->
  exists s', nsteps step 1 s s' /\ exists e, s_phase s' = Returned e.
Proof.
  intros Hc Hp. exists (goto (Returned "context canceled") s). split; [|eexists; reflexivity].
  apply nsteps_once. by eapply step_wait_cancelled.
Qed.


(** Pings of the peer, each within [PongWait] of the one before. *)
Fixpoint spaced (pong_wait : duration) (t : time) (ts : list time) : Prop :=
  match ts with
  | [] => True
  | u :: ts => t <= u <= t + pong_wait /\ spaced pong_wait u ts
  end.

(** Cancelling the context does not end a session that is waiting in
    [ReadMessage]: as long as the relay keeps pinging (it does so every 30
    seconds, within the read deadline of 90) and sends no message, [Run] stays
    in the session, for any number of pings.  The comment of [Run] says that it
    blocks until the context is cancelled. *)
Theorem cancelled_session_outlives_shutdown s k t ts :
  s_phase s = InRead -> s_cancelled s = true -> cl_conn (s_client s) = Some k ->
  co_closed k = false -> co_deadline k = t + PongWait (cl_cfg (s_client s)) ->
  spaced (PongWait (cl_cfg (s_client s))) t ts ->
  exists s', rtc step s s' /\ s_phase s' = InRead /\ s_cancelled s' = true /\
    s_log s' = s_log s /\
    exists k', cl_conn (s_client s') = Some k' /\ co_closed k' = false /\
      co_deadline k' = default t (last ts) + PongWait (cl_cfg (s_client s)).
Proof.
  revert s k t. induction ts as [|u ts IH]; intros s k t Hp Hc Hk Hcl Hd Hs.
  { exists s. split; [constructor|]. eauto 10. }
  destruct Hs as [Hu Hs]. set (s1 := on_ping u None s).
  destruct (IH s1 (set_deadline (u + PongWait (cl_cfg (s_client s))) k) u) as (s' & Hr & H1 & H2 & H3 & k' & H4 & H5 & H6);
    [done|done| |done|done|done|].
  { unfold s1, on_ping, reset_deadline, set_conn. simpl. rewrite Hk. reflexivity. }
  exists s'. split.
  { eapply rtc_l; [|exact Hr]. apply step_ping; [done|]. unfold readable. rewrite Hk, Hcl, Hd. simpl.
    apply Z.leb_le. lia. }
  rewrite H3. split; [done|]. split; [done|]. split; [done|]. exists k'. split; [done|]. split; [done|].
  rewrite H6, last_cons. by destruct (last ts).
Qed.

(** ** A run, for the witnesses: one slot, three messages of which two are
    shed, then the socket fails and the context is cancelled *)
Definition demo_cfg : RelayConfig :=
  MkRelayConfig "ws://relay:8080/register" "secret" (MkGreeting "auth" "1" "1" "" "" "2")
    0 0 0 0 0 1.
Definition dq : string := String (chr 34) "".
Definition demo_msg (id : string) : string :=
  "{" +:+ dq +:+ "request_id" +:+ dq +:+ ":" +:+ dq +:+ id +:+ dq +:+ "}".
Definition ok_answer : socket_answer := MkAnswer None None.
Definition reset_answer : socket_answer := MkAnswer None (Some (SocketError false "broken pipe")).
Definition demo_dialed : System := connected 5 (loop_top (init demo_cfg)).
Definition demo_busy : System :=
  handle_message 6 (demo_msg "a") (read_top (greet ok_answer demo_dialed)).
Definition demo_shed : System :=
  shed_reply ok_answer (handle_message 8 (demo_msg "c") (read_top
    (handle_message 7 (demo_msg "b") (read_top demo_busy)))).
Definition demo_reading : System := cancel (read_top demo_shed).
Definition zero_rand : Z -> Z := fun _ => 0.

Lemma zero_rand_ok : rand_ok zero_rand.
Proof. intros n Hn. unfold zero_rand. lia. Qed.

Ltac demo_step H := eapply rtc_r; [|apply H; vm_compute; first [reflexivity|congruence]].

Lemma demo_shed_reachable : reachable demo_cfg demo_shed.
Proof.
  unfold reachable, demo_shed.
  demo_step step_shed_reply. demo_step step_message. demo_step step_read_top.
  demo_step step_message. demo_step step_read_top. unfold demo_busy.
  demo_step step_message. demo_step step_read_top. demo_step step_greet.
  unfold demo_dialed. demo_step step_dial. demo_step step_top. constructor.
Qed.

Lemma inbound_messages_accounted_witness :
  reachable demo_cfg demo_shed /\ length (s_handlers demo_shed) = 1%nat /\
  cl_shed (s_client demo_shed) = 2 /\
  received (s_log demo_shed) = decided (s_log demo_shed).
Proof.
  split; [exact demo_shed_reachable|]. split; [reflexivity|]. split; [vm_compute; reflexivity|].
  apply (inbound_messages_accounted demo_cfg demo_shed demo_shed_reachable).
Defined.

Lemma shed_replies_answer_shed_messages_witness :
  replied (s_log demo_shed) = ["b"] /\ shed_ids (s_log demo_shed) = ["b"; "c"] /\
  (count_occ String.string_dec (replied (s_log demo_shed)) "b" <=
   count_occ String.string_dec (shed_ids (s_log demo_shed)) "b")%nat.
Proof.
  split; [vm_compute; reflexivity|]. split; [vm_compute; reflexivity|].
  apply (shed_replies_answer_shed_messages demo_cfg demo_shed "b" demo_shed_reachable).
Defined.

Lemma connection_gauge_exact_witness :
  reachable demo_cfg demo_shed /\ gauge (s_log demo_shed) = 1.
Proof.
  split; [exact demo_shed_reachable|].
  rewrite (proj1 (connection_gauge_exact demo_cfg demo_shed demo_shed_reachable)).
  vm_compute. reflexivity.
Defined.

Definition demo_waiting : System := settle 3 zero_rand (loop_top (init demo_cfg)).
Lemma demo_waiting_reachable : reachable demo_cfg demo_waiting.
Proof.
  unfold reachable, demo_waiting.
  eapply rtc_r; [|apply step_dial_fails; [vm_compute; reflexivity|apply zero_rand_ok]].
  demo_step step_top. constructor.
Qed.

Lemma backoff_follows_streak_witness :
  s_log demo_waiting = [] ++ Settled false 0 :: [] /\
  0 <= 0 <= wait_ceiling (3 * second) (10 * second) 0.
Proof.
  split; [vm_compute; reflexivity|].
  apply (backoff_follows_streak demo_cfg demo_waiting [] false 0 []);
    [vm_compute; intuition congruence|exact demo_waiting_reachable|vm_compute; reflexivity..].
Defined.

Lemma socket_write_failure_ends_session_witness :
  exists l, s_log (on_client (fun c => (send (FResponse (shed_response "a")) reset_answer c).1) demo_shed)
            = s_log demo_shed ++ l /\ (OnDisconnect ∈ l \/ received l = []).
Proof.
  apply (socket_write_failure_ends_session demo_cfg demo_shed (FResponse (shed_response "a")) reset_answer
    (SocketError false "broken pipe")); [exact demo_shed_reachable|..|constructor];
    try reflexivity; eexists; vm_compute; reflexivity.
Defined.


Lemma cancelled_session_outlives_shutdown_witness :
  exists s', rtc step demo_reading s' /\ s_phase s' = InRead /\ s_cancelled s' = true /\
    s_log s' = s_log demo_reading  /\
    exists k', cl_conn (s_client s') = Some k' /\ co_closed k' = false /\
      co_deadline k' = default 8 (last [8 + 30 * second; 8 + 60 * second; 8 + 90 * second]) + 90 * second.
Proof.
  assert (exists k, cl_conn (s_client demo_reading) = Some k /\ co_closed k = false /\
    co_deadline k = 8 + 90 * second) as (k & H1 & H2 & H3).
  { eexists. vm_compute. split; [reflexivity|split; reflexivity]. }
  apply (cancelled_session_outlives_shutdown demo_reading k 8); try assumption; try (vm_compute; reflexivity).
  vm_compute. intuition congruence.
Defined.
