(* ===== verification/Finding.v ===== *)
(** * Findings (pkg/alerts: finding.go, node_subject.go, auth.go)

    The envelope posted to the collector and the three builders of it: from a
    matched trigger, from an AlertManager webhook and from a bare kubewatch
    event.  Random UUIDs are arguments, the name-based UUID, the node lookup
    and [net.SplitHostPort] are parameters. *)

From S2P Require Import Prelude GoText GoJson GoStruct GoCrypto GoTime CanonJson GoMarshal.

#[local] Set Default Proof Using "Type".

(** ** Wire types *)
Record Finding := MkFinding {
  f_id : string; f_title : string; f_description : string; f_source : string;
  f_aggregation_key : string; f_failure : bool; f_finding_type : string;
  f_category : string; f_priority : string; f_subject_type : string;
  f_subject_name : string; f_subject_namespace : string; f_subject_node : string;
  f_service_key : string; f_cluster : string; f_account_id : string;
  f_starts_at : string; f_updated_at : string; f_fingerprint : string;
  f_subject_owner : string; f_subject_owner_kind : string
}.

Record Evidence := MkEvidence {
  e_issue_id : string; e_file_type : string; e_data : string; e_account_id : string
}.

Record FindingEnvelope := MkEnvelope {
  env_finding : Finding; env_evidence : list Evidence; env_message : string
}.

(** [json.Marshal] of the three structs; [video_links] is always empty. *)
Definition finding_text (f : Finding) : string :=
  struct_text ([string_field "id" (f_id f); string_field "title" (f_title f);
    string_field "description" (f_description f); string_field "source" (f_source f);
    string_field "aggregation_key" (f_aggregation_key f);
    ("failure", if f_failure f then "true" else "false");
    string_field "finding_type" (f_finding_type f); string_field "category" (f_category f);
    string_field "priority" (f_priority f); string_field "subject_type" (f_subject_type f);
    string_field "subject_name" (f_subject_name f);
    string_field "subject_namespace" (f_subject_namespace f);
    string_field "subject_node" (f_subject_node f); string_field "service_key" (f_service_key f);
    string_field "cluster" (f_cluster f); string_field "account_id" (f_account_id f);
    ("video_links", "[]"); string_field "starts_at" (f_starts_at f);
    string_field "updated_at" (f_updated_at f)]
    ++ omit_empty "fingerprint" (f_fingerprint f)
    ++ omit_empty "subject_owner" (f_subject_owner f)
    ++ omit_empty "subject_owner_kind" (f_subject_owner_kind f)).
Definition evidence_text (e : Evidence) : string :=
  struct_text [string_field "issue_id" (e_issue_id e); string_field "file_type" (e_file_type e);
               string_field "data" (e_data e); string_field "account_id" (e_account_id e)].
Definition envelope_text (e : FindingEnvelope) : string :=
  struct_text [("finding", finding_text (env_finding e));
               ("evidence", "[" +:+ join "," (map evidence_text (env_evidence e)) +:+ "]");
               string_field "message" (env_message e)].

(** ** Small helpers *)
Fixpoint pickLabel (labels : smap) (keys : list string) : string :=
  match keys with
  | [] => ""
  | k :: keys => if bool_decide (sget labels k = "") then pickLabel labels keys else sget labels k
  end.
Fixpoint firstNonEmpty (values : list string) : string :=
  match values with
  | [] => ""
  | v :: values => if bool_decide (v = "") then firstNonEmpty values else v
  end.
Definition coalesce (a b : string) : string := if bool_decide (a = "") then b else a.

Definition fingerprint (aggregationKey serviceKey startsAt : string) : string :=
  hex_encode (sha256 (aggregationKey +:+ ":" +:+ serviceKey +:+ ":" +:+ startsAt)).
Definition utcDBStr (t : time) : string := format_rfc3339 t.
Definition basicAuth (secret : string) : string := b64_encode secret.

Definition severityToPriority (severity : string) : string :=
  let s := to_lower severity in
  if bool_decide (s = "critical") then "HIGH"
  else if bool_decide (s = "warning") then "MEDIUM"
  else if bool_decide (s = "info") || bool_decide (s = "") then "INFO"
  else if bool_decide (s = "low") then "LOW"
  else if bool_decide (s = "debug") then "DEBUG"
  else "INFO".

(** ** Evidence *)
Definition maxRawPayloadBytes : Z := Z.shiftl 256 10.

(** The replacement for an over-sized payload; the keys of the map are
    written in byte order. *)
Definition payload_replacement (n : Z) : json :=
  JObj [("truncated", JBool true); ("bytes", JInt n); ("limit_bytes", JInt maxRawPayloadBytes);
        ("note", JStr "raw watch payload omitted; see the diff evidence block for the change itself")].
Definition cappedRawPayload (raw : string) : string :=
  if Z.of_nat (strlen raw) <=? maxRawPayloadBytes then raw
  else match marshal (payload_replacement (Z.of_nat (strlen raw))) with
       | Some t => t
       | None => "{}"
       end.

(** Matcher-supplied blocks are [map[string]any]; a nil one is skipped. *)
Definition evidence_blocks (raw : string) (extras : list gomap) : list json :=
  JObj [("type", JStr "json"); ("data", JStr (cappedRawPayload raw)); ("additional_info", JObj [])]
  :: omap (fun m => JObj <$> m) extras.
(** The error of [json.Marshal] is dropped: the data is then empty. *)
Definition newJSONEvidence (findingID accountID raw : string) (extras : list gomap) : Evidence :=
  MkEvidence findingID "structured_data" (default "" (marshal (JArr (evidence_blocks raw extras))))
    accountID.

(** ** Matched triggers *)
Record FOwnerRef := MkFOwner { fo_name : string; fo_kind : string }.
Record MatchedTrigger := MkTrigger {
  mt_aggregation_key : string; mt_priority : string; mt_finding_type : string;
  mt_fingerprint : string; mt_occurrence_key : string; mt_owner : FOwnerRef;
  mt_subject_name : string; mt_subject_namespace : string; mt_subject_kind : string;
  mt_subject_node : string; mt_matcher_name : string; mt_extra_blocks : list gomap
}.

Definition kindDisplayNames : list (string * string) :=
  [("configmap", "ConfigMap"); ("deployment", "Deployment"); ("daemonset", "DaemonSet");
   ("statefulset", "StatefulSet"); ("ingress", "Ingress"); ("rollout", "Rollout")].
Definition kindDisplay (kind : string) : string :=
  match assoc (to_lower kind) kindDisplayNames with
  | Some display => display
  | None => if bool_decide (kind = "") then "Resource" else kind
  end.
Definition subjectPath (m : MatchedTrigger) : string :=
  if bool_decide (mt_subject_namespace m = "") then mt_subject_name m
  else mt_subject_namespace m +:+ "/" +:+ mt_subject_name m.

Definition change_key : string := "ConfigurationChange/KubernetesResource/Change".

Definition Title (m : MatchedTrigger) : string :=
  let ns := mt_subject_namespace m in let name := mt_subject_name m in
  let k := mt_aggregation_key m in
  if bool_decide (k = "report_crash_loop") then "Pod " +:+ ns +:+ "/" +:+ name +:+ " is in CrashLoopBackOff"
  else if bool_decide (k = "pod_oom_killer_enricher") then "Pod " +:+ ns +:+ "/" +:+ name +:+ " was OOMKilled"
  else if bool_decide (k = "image_pull_backoff_reporter") then "Pod " +:+ ns +:+ "/" +:+ name +:+ " has ImagePullBackOff"
  else if bool_decide (k = "job_failure") then "Job " +:+ ns +:+ "/" +:+ name +:+ " failed"
  else if bool_decide (k = "node_not_ready") then "Node " +:+ name +:+ " is NotReady"
  else if bool_decide (k = change_key) then kindDisplay (mt_subject_kind m) +:+ " " +:+ subjectPath m +:+ " was changed"
  else k +:+ " on " +:+ ns +:+ "/" +:+ name.

(** The fixed descriptions, by aggregation key. *)
Definition descriptions : list (string * string) :=
  [("report_crash_loop", "A container in the pod is restarting repeatedly (CrashLoopBackOff); recent state is attached in evidence.");
   ("pod_oom_killer_enricher", "A container in the pod was killed for exceeding its memory limit (OOMKilled).");
   ("image_pull_backoff_reporter", "The pod cannot pull its container image; the image reference and pull error are attached in evidence.");
   ("job_failure", "The job exceeded its failure policy and was marked failed; pod status is attached in evidence.");
   ("node_not_ready", "The node stopped reporting Ready; node conditions are attached in evidence.");
   ("node_unschedulable", "The node was marked unschedulable (cordoned).");
   ("node_pressure", "The node reported resource pressure; node conditions are attached in evidence.");
   ("pod_unschedulable", "The pod cannot be scheduled onto any node; the scheduler's reason is attached in evidence.");
   ("service_no_endpoints", "The service has no ready endpoints; traffic to it will fail.")].
Definition Description (m : MatchedTrigger) : string :=
  if bool_decide (mt_aggregation_key m = change_key) then
    if fold_equal "configmap" (mt_subject_kind m) then
      "The ConfigMap's data was changed; the key-level diff is attached in evidence. " +:+
      "Workloads consuming these values via envFrom or a mounted file only pick them up when their pods restart."
    else "The " +:+ coalesce (mt_subject_kind m) "resource" +:+
      "'s configuration was changed (deploy or spec update); the spec diff is attached in evidence."
  else default "Detected on the cluster; the raw event is attached in evidence."
         (assoc (mt_aggregation_key m) descriptions).

(** ** Node-scoped alerts *)
Record NodeLocator := MkLocator {
  NodeForPod : string -> string -> string;
  NodeForIP : string -> string
}.

Definition isNodeScopedExporterJob (job : string) : bool :=
  let lower := to_lower (trim_space job) in
  negb (bool_decide (lower = "")) &&
  (bool_decide (lower ∈ ["node-exporter"; "node_exporter"]) ||
   contains lower "node-exporter" || contains lower "node_exporter").

Definition nodeNameFromLabels (labels : smap) : string :=
  firstNonEmpty (map (fun k => trim_space (sget labels k)) ["node"; "kubernetes_node"; "instance_node"]).

Section builder.
(** [net.SplitHostPort]'s host, and [uuid.NewSHA1] of a name in the OID
    namespace. *)
Variable split_host_port : string -> option string.
Variable uuid_sha1 : string -> string.

Definition hostFromInstance (instance : string) : string :=
  let instance := trim_space instance in
  if bool_decide (instance = "") then ""
  else match split_host_port instance with Some host => host | None => instance end.

Definition locate (labels : smap) (l : NodeLocator) : string :=
  let pod := trim_space (sget labels "pod") in
  let by_pod := if bool_decide (pod = "") then ""
                else NodeForPod l (trim_space (sget labels "namespace")) pod in
  let host := hostFromInstance (sget labels "instance") in
  let by_ip := if bool_decide (host = "") then "" else NodeForIP l host in
  coalesce by_pod by_ip.
Definition resolveNodeSubject (labels : smap) (locator : option NodeLocator) : string :=
  if isNodeScopedExporterJob (sget labels "job") then
    coalesce (nodeNameFromLabels labels)
      match locator with None => "" | Some l => locate labels l end
  else "".

(** ** Alert subjects *)
Definition subject_labels : list (string * string) :=
  [("deployment", "deployment"); ("statefulset", "statefulset"); ("daemonset", "daemonset");
   ("job_name", "job"); ("horizontalpodautoscaler", "horizontalpodautoscaler");
   ("hpa", "horizontalpodautoscaler"); ("persistentvolumeclaim", "persistentvolumeclaim");
   ("workload", "deployment"); ("node", "node"); ("pod", "pod")].

Definition isScrapeExporter (job : string) : bool :=
  bool_decide (to_lower job ∈ ["kubelet"; "kube-state-metrics"; "node-exporter"; "cadvisor"]) ||
  contains job "kube-state-metrics" || contains job "node-exporter".

Fixpoint first_subject (labels : smap) (candidates : list (string * string)) : option (string * string) :=
  match candidates with
  | [] => None
  | (key, kind) :: rest =>
    if bool_decide (sget labels key = "") then first_subject labels rest
    else Some (sget labels key, kind)
  end.
Definition alertSubject (labels : smap) : string * string :=
  match first_subject labels subject_labels with
  | Some s => s
  | None =>
    let job := sget labels "job" in
    if negb (bool_decide (job = "")) && negb (isScrapeExporter job) then (job, "job")
    else ("", to_lower (sget labels "kubernetes_kind"))
  end.

(** Name, kind and namespace from one of the mesh labels. *)
Definition mesh_subject (labels : smap) (key : string) : option (string * string * string) :=
  let v := sget labels key in
  if bool_decide (v = "") || bool_decide (v = "kube-state-metrics") then None
  else
    let kind := if bool_decide (key = "k8s_deployment_name") then "deployment" else "" in
    let ns := if bool_decide (key = "src_workload_name")
              then pickLabel labels ["src_workload_namespace"; "source_workload_namespace"]
              else sget labels "destination_workload_namespace" in
    Some (v, kind, ns).
(** [strings.Split(s, "/")]. *)
Fixpoint split_slash (s : string) : list string :=
  match s with
  | EmptyString => [""]
  | String c r =>
    if byte c =? 47 then "" :: split_slash r
    else match split_slash r with
         | t :: ts => String c t :: ts
         | [] => [String c ""]
         end
  end.
Definition container_subject (labels : smap) : option (string * string * string) :=
  let cid := sget labels "container_id" in
  if has_prefix cid "/k8s/" then
    match split_slash (default cid (strip_prefix "/" cid)) with
    | [_; ns; _; container] =>
      if bool_decide (ns = "") || bool_decide (container = "") then None
      else Some (container, "", ns)
    | _ => None
    end
  else None.
Definition service_subject (labels : smap) (key : string) : option (string * string * string) :=
  let v := sget labels key in
  if negb (bool_decide (v = "")) && negb (isScrapeExporter v) then Some (v, "", "") else None.

Fixpoint first_some {A} (l : list (option A)) : option A :=
  match l with
  | [] => None
  | Some a :: _ => Some a
  | None :: l => first_some l
  end.
Definition alertSubjectFallback (labels : smap) : string * string * string :=
  default ("", "", "") (first_some
    (map (mesh_subject labels) ["destination_workload_name"; "src_workload_name"; "k8s_deployment_name"]
     ++ [container_subject labels]
     ++ map (service_subject labels) ["service"; "service_name"])).

(** ** The builders *)
Record Builder := MkBuilder { b_account : string; b_cluster : string; b_nodes : option NodeLocator }.

Definition findingIDFor (b : Builder) (fresh : string) (m : MatchedTrigger) : string :=
  if bool_decide (mt_occurrence_key m = "") then fresh
  else uuid_sha1 (b_account b +:+ "|" +:+ mt_aggregation_key m +:+ "|" +:+ mt_occurrence_key m).

Definition FromMatchedTrigger (b : Builder) (now : time) (fresh : string) (m : MatchedTrigger)
  (rawData : string) : result FindingEnvelope :=
  if bool_decide (mt_subject_name m = "") then Err "triggers: match has no subject_name"
  else
    let startsAt := utcDBStr now in
    let id := findingIDFor b fresh m in
    let owner := fo_name (mt_owner m) in
    let serviceKey := mt_subject_namespace m +:+ "/" +:+ coalesce owner (mt_subject_name m) in
    let finding := MkFinding id (Title m) (Description m) "kubernetes_api_server"
      (mt_aggregation_key m) (bool_decide (mt_finding_type m = "issue")) (mt_finding_type m) ""
      (mt_priority m) (mt_subject_kind m) (mt_subject_name m) (mt_subject_namespace m)
      (mt_subject_node m) serviceKey (b_cluster b) (b_account b) startsAt startsAt
      (mt_fingerprint m) owner (fo_kind (mt_owner m)) in
    Ok (MkEnvelope finding [newJSONEvidence id (b_account b) rawData (mt_extra_blocks m)]
          (f_title finding)).

(** *** AlertManager webhooks *)
Record alertManagerAlert := MkAlert {
  a_starts_at : string; a_ends_at : string; a_generator_url : string;
  a_fingerprint : string; a_status : string; a_labels : smap; a_annotations : smap
}.
Definition zero_alert : alertManagerAlert := MkAlert "" "" "" "" "" None None.
Definition alert_fields : list string :=
  ["startsAt"; "endsAt"; "generatorURL"; "fingerprint"; "status"; "labels"; "annotations"].
Definition set_alert (f : string) (m : member) (a : alertManagerAlert) : alertManagerAlert * bool :=
  let '(MkAlert st en ge fi su la an) := a in
  if bool_decide (f = "startsAt") then let '(v, ok) := set_string st m in (MkAlert v en ge fi su la an, ok)
  else if bool_decide (f = "endsAt") then let '(v, ok) := set_string en m in (MkAlert st v ge fi su la an, ok)
  else if bool_decide (f = "generatorURL") then let '(v, ok) := set_string ge m in (MkAlert st en v fi su la an, ok)
  else if bool_decide (f = "fingerprint") then let '(v, ok) := set_string fi m in (MkAlert st en ge v su la an, ok)
  else if bool_decide (f = "status") then let '(v, ok) := set_string su m in (MkAlert st en ge fi v la an, ok)
  else if bool_decide (f = "labels") then let '(v, ok) := set_string_map la m in (MkAlert st en ge fi su v an, ok)
  else let '(v, ok) := set_string_map an m in (MkAlert st en ge fi su la v, ok).
Definition set_webhook (f : string) (m : member) (l : list alertManagerAlert)
  : list alertManagerAlert * bool :=
  set_list (set_struct alert_fields set_alert) zero_alert l m.
Definition read_webhook (raw : string) : option (list alertManagerAlert) :=
  let '(l, ok) := unmarshal_struct ["alerts"] set_webhook raw [] in
  if ok then Some l else None.

Definition smap_text (m : smap) : option string :=
  match m with
  | None => Some "null"
  | Some l => marshal (JObj (map (fun kv => (kv.1, JStr kv.2)) l))
  end.
Definition alert_text (a : alertManagerAlert) : option string :=
  match smap_text (a_labels a), smap_text (a_annotations a) with
  | Some l, Some n =>
    Some (struct_text [string_field "startsAt" (a_starts_at a); string_field "endsAt" (a_ends_at a);
      string_field "generatorURL" (a_generator_url a); string_field "fingerprint" (a_fingerprint a);
      string_field "status" (a_status a); ("labels", l); ("annotations", n)])
  | _, _ => None
  end.

(** Subject name, type, namespace and node of an alert. *)
Definition alert_subject (b : Builder) (labels : smap) : string * string * string * string :=
  let '(name, kind) := alertSubject labels in
  let ns := pickLabel labels ["namespace"; "exported_namespace"] in
  let '(name, kind, ns) :=
    if bool_decide (name = "") then
      let '(name', kind', ns') := alertSubjectFallback labels in
      (name', kind', coalesce ns ns')
    else (name, kind, ns) in
  let name := coalesce name (coalesce (pickLabel labels ["alertname"]) "UnnamedAlert") in
  let node := resolveNodeSubject labels (b_nodes b) in
  if bool_decide (node = "") then (name, kind, ns, nodeNameFromLabels labels)
  else (node, "node", "", node).

Definition alertToFinding (b : Builder) (now : time) (fresh : string) (a : alertManagerAlert)
  : result FindingEnvelope :=
  let labels := a_labels a in
  let '(name, kind, ns, node) := alert_subject b labels in
  let alertname := coalesce (pickLabel labels ["alertname"]) "UnnamedAlert" in
  let startsAt := coalesce (a_starts_at a) (utcDBStr now) in
  let serviceKey := ns +:+ "/" +:+ name in
  match alert_text a with
  | None => Err "alertmanager: marshal alert: "
  | Some rawJSON =>
    let title := firstNonEmpty [sget (a_annotations a) "summary"; sget (a_annotations a) "description"; alertname] in
    let finding := MkFinding fresh title (sget (a_annotations a) "description") "prometheus" alertname
      false "issue" "" (severityToPriority (sget labels "severity")) kind name ns node serviceKey
      (b_cluster b) (b_account b) startsAt startsAt
      (coalesce (a_fingerprint a) (fingerprint alertname serviceKey startsAt)) "" "" in
    Ok (MkEnvelope finding [newJSONEvidence fresh (b_account b) rawJSON []] title)
  end.

(** [now i] and [fresh i] are the clock and the identifier of alert [i]. *)
Fixpoint build_alerts (b : Builder) (now : nat -> time) (fresh : nat -> string) (i : nat)
  (l : list alertManagerAlert) : list FindingEnvelope * Z :=
  match l with
  | [] => ([], 0)
  | a :: l =>
    let '(out, dropped) := build_alerts b now fresh (S i) l in
    match alertToFinding b (now i) (fresh i) a with
    | Ok env => (env :: out, dropped)
    | Err _ => (out, dropped + 1)
    end
  end.
Definition FromAlertManager (b : Builder) (now : nat -> time) (fresh : nat -> string)
  (rawWebhook : string) : result (list FindingEnvelope * Z) :=
  match read_webhook rawWebhook with
  | None => Err "alertmanager: parse webhook: "
  | Some alerts => Ok (build_alerts b now fresh 0 alerts)
  end.

(** *** Bare kubewatch events *)
Record kubewatch_event := MkKubewatch { k_operation : string; k_kind : string; k_obj : gomap }.
Definition set_kubewatch (f : string) (m : member) (k : kubewatch_event) : kubewatch_event * bool :=
  let '(MkKubewatch o d b) := k in
  if bool_decide (f = "operation") then let '(v, ok) := set_string o m in (MkKubewatch v d b, ok)
  else if bool_decide (f = "kind") then let '(v, ok) := set_string d m in (MkKubewatch o v b, ok)
  else let '(v, ok) := set_map b m in (MkKubewatch o d v, ok).

Definition FromKubewatchEvent (b : Builder) (now : time) (fresh : string) (rawData : string)
  : result FindingEnvelope :=
  let '(k, ok) := unmarshal_struct ["operation"; "kind"; "obj"] set_kubewatch rawData
                    (MkKubewatch "" "" None) in
  if negb ok then Err "kubewatch: parse data: " else
  let meta := get_obj (k_obj k) "metadata" in
  let name := get_str meta "name" in
  if bool_decide (name = "") then Err "kubewatch: payload missing metadata.name" else
  let ns := get_str meta "namespace" in
  let node := get_str (get_obj (k_obj k) "spec") "nodeName" in
  let subjectType := coalesce (to_lower (k_kind k)) "pod" in
  let operation := coalesce (to_lower (k_operation k)) "update" in
  let key := "k8s_event_" +:+ subjectType +:+ "_" +:+ operation in
  let startsAt := utcDBStr now in
  let serviceKey := ns +:+ "/" +:+ name in
  match marshal (match k_obj k with Some m => JObj m | None => JNull end) with
  | None => Err "kubewatch: marshal raw obj: "
  | Some rawJSON =>
    let title := k_kind k +:+ " " +:+ ns +:+ "/" +:+ name +:+ " " +:+ operation in
    let finding := MkFinding fresh title ("kubewatch " +:+ operation +:+ " event from agent")
      "kubernetes_api_server" key false "configuration_change" "" "INFO" subjectType name ns node
      serviceKey (b_cluster b) (b_account b) startsAt startsAt (fingerprint key serviceKey startsAt) "" "" in
    Ok (MkEnvelope finding [newJSONEvidence fresh (b_account b) rawJSON []] title)
  end.

(** ** Evidence stays decodable *)

Lemma replacement_text n : exists t, marshal (payload_replacement n) = Some t /\
  (strlen t <= 200 + strlen (itoa n))%nat /\ all_printable t = true.
Proof using.
  assert (exists m2 m3 m4 : string, (strlen m2 + strlen m3 + strlen m4 <= 150)%nat /\
    all_printable (m2 +:+ m3 +:+ m4) = true /\
    marshal (payload_replacement n)
    = Some ("{" +:+ join "," [marshal_string "bytes" +:+ ":" +:+ itoa n; m2; m3; m4] +:+ "}"))
    as (m2 & m3 & m4 & Hl & Hp & ->).
  { unfold payload_replacement. cbn [marshal map fst snd fmap list_fmap]. generalize (itoa n). intros u.
    eexists (marshal_string "limit_bytes" +:+ ":262144"), (marshal_string "note" +:+ ":" +:+ marshal_string
      "raw watch payload omitted; see the diff evidence block for the change itself"),
      (marshal_string "truncated" +:+ ":true").
    split; [vm_compute; lia|]. split; vm_compute; reflexivity. }
  eexists. split; [reflexivity|]. cbn [join]. split.
  - rewrite !strlen_app.
    change (strlen (marshal_string "bytes")) with 7%nat. change (strlen "{") with 1%nat.
    change (strlen "}") with 1%nat. change (strlen ":") with 1%nat. change (strlen ",") with 1%nat. lia.
  - rewrite !all_printable_app in *. rewrite itoa_printable.
    rewrite !andb_true_iff in Hp. destruct Hp as (-> & -> & ->). reflexivity.
Qed.

Lemma itoa_int64_length n : 0 <= n < 2 ^ 63 -> (strlen (itoa n) <= 64)%nat.
Proof using.
  intros Hn. unfold itoa. replace (n <? 0) with false by lia. unfold utoa.
  pose proof (dec_digits_fuel (S (Z.to_nat (Z.log2 n))) n "").
  assert (Z.log2 n < 63).
  { destruct (Z.eq_dec n 0) as [->|]; [vm_compute; reflexivity|]. apply Z.log2_lt_pow2; lia. }
  change (strlen "") with 0%nat in *. lia.
Qed.

Lemma replacement_readable n t : marshal (payload_replacement n) = Some t -> parse t <> None.
Proof using.
  intros Ht. rewrite (marshal_parses (payload_replacement n) t); [done|reflexivity|vm_compute; congruence|done].
Qed.

Definition block_extras (extras : list gomap) : list json := omap (fun m => JObj <$> m) extras.

Lemma blocks_decoded raw extras :
  map decoded (evidence_blocks raw extras)
  = JObj [("additional_info", JObj []); ("data", JStr (cappedRawPayload raw)); ("type", JStr "json")]
    :: map decoded (block_extras extras).
Proof using.
  unfold evidence_blocks, block_extras. cbn [map]. by f_equal.
Qed.

(** The capped payload: within the limit, and JSON and UTF-8 if the raw one is. *)
Lemma capped_payload raw : Z.of_nat (strlen raw) < 2 ^ 63 ->
  Z.of_nat (strlen (cappedRawPayload raw)) <= maxRawPayloadBytes /\
  (valid_utf8 raw = true -> valid_utf8 (cappedRawPayload raw) = true) /\
  (parse raw <> None -> parse (cappedRawPayload raw) <> None).
Proof using.
  intros Hn. unfold cappedRawPayload.
  destruct (Z.leb_spec (Z.of_nat (strlen raw)) maxRawPayloadBytes) as [Hl|Hl]; [done|].
  destruct (replacement_text (Z.of_nat (strlen raw))) as (t & Ht & Hlen & Hp). rewrite Ht.
  pose proof (itoa_int64_length (Z.of_nat (strlen raw)) ltac:(lia)).
  split; [change maxRawPayloadBytes with 262144; lia|].
  split; intros _; [by apply printable_utf8|by eapply replacement_readable].
Qed.

(** C29: The evidence posted with a finding is JSON that the collector decodes
    to exactly the blocks that went in: the raw payload first, as a string
    that is itself JSON and never longer than 256 KiB, then the matcher's
    blocks in order, nil ones left out. *)
Theorem evidence_decodes id account raw extras :
  valid_utf8 raw = true -> Z.of_nat (strlen raw) < 2 ^ 63 ->
  readable (JArr (block_extras extras)) = true ->
  depth (JArr (block_extras extras)) <= max_nesting_depth ->
  parse (e_data (newJSONEvidence id account raw extras))
  = Some (JArr (JObj [("additional_info", JObj []); ("data", JStr (cappedRawPayload raw));
                      ("type", JStr "json")] :: map decoded (block_extras extras))) /\
  Z.of_nat (strlen (cappedRawPayload raw)) <= maxRawPayloadBytes /\
  (parse raw <> None -> parse (cappedRawPayload raw) <> None).
Proof using.
  intros Hu Hn Hr Hd. destruct (capped_payload raw Hn) as (Hl & Hu' & Hj). split; [|done].
  assert (readable (JArr (evidence_blocks raw extras)) = true) as Hr'.
  { unfold evidence_blocks. cbn -[cappedRawPayload]. rewrite Hu' by done. exact Hr. }
  destruct (marshal_readable_total (JArr (evidence_blocks raw extras)) Hr') as [t Ht].
  unfold newJSONEvidence. rewrite Ht. simpl e_data.
  rewrite (marshal_parses _ _ Hr'); [|..|exact Ht].
  - cbn [decoded]. by rewrite blocks_decoded.
  - unfold evidence_blocks. fold (block_extras extras).
    cbn [depth map foldr fst snd] in Hd |- *. unfold max_nesting_depth in *. lia.
Qed.

(** ** Alerts always surface *)
Lemma smap_text_total m : is_Some (smap_text m).
Proof using.
  destruct m as [l|]; [|by eexists]. unfold smap_text. cbn [marshal].
  destruct (texts_total (marshal_member (map (fun kv => (kv.1, marshal kv.2)) (map (fun kv => (kv.1, JStr kv.2)) l)))
    (sort_strings (map (fun kv => (kv.1, JStr kv.2)) l).*1)) as [ts ->]; [|by eexists].
  intros k Hk. rewrite sort_strings_perm in Hk.
  destruct (assoc k (map (fun kv => (kv.1, JStr kv.2)) l)) as [v|] eqn:Ek; [|by apply assoc_None in Ek].
  assert (exists s, v = JStr s) as [s ->].
  { apply assoc_In, list_elem_of_fmap in Ek as ([k' s] & [= -> ->] & _). eauto. }
  eexists. apply marshal_member_Some. eauto.
Qed.

Lemma coalesce_nonempty a b : b <> "" -> coalesce a b <> "".
Proof using. unfold coalesce. by case_bool_decide. Qed.

Lemma alert_subject_named b labels name kind ns node :
  alert_subject b labels = (name, kind, ns, node) -> name <> "".
Proof using.
  unfold alert_subject. destruct (alertSubject labels) as [n k].
  destruct (if bool_decide (n = "") then _ else _) as [[n' k'] ns'].
  case_bool_decide; [|by intros [= <- _ _ _]].
  intros [= <- _ _ _]. by apply coalesce_nonempty, coalesce_nonempty.
Qed.

Lemma alertToFinding_total b now fresh a : exists env,
  alertToFinding b now fresh a = Ok env /\ f_id (env_finding env) = fresh /\
  f_subject_name (env_finding env) <> "" /\ f_aggregation_key (env_finding env) <> "" /\
  f_title (env_finding env) <> "" /\ f_starts_at (env_finding env) = coalesce (a_starts_at a) (utcDBStr now).
Proof using.
  unfold alertToFinding. destruct (alert_subject b (a_labels a)) as [[[name kind] ns] node] eqn:E.
  assert (is_Some (alert_text a)) as [t ->].
  { unfold alert_text. destruct (smap_text_total (a_labels a)) as [? ->], (smap_text_total (a_annotations a)) as [? ->].
    by eexists. }
  eexists. split; [reflexivity|]. cbn [env_finding f_id f_subject_name f_aggregation_key f_title f_starts_at].
  assert (coalesce (pickLabel (a_labels a) ["alertname"]) "UnnamedAlert" <> "") as Hn by by apply coalesce_nonempty.
  split_and!; [done|by eapply alert_subject_named|done| |done].
  cbn [firstNonEmpty]. repeat case_bool_decide; done.
Qed.

(** No alert of a well-formed AlertManager webhook is lost in packaging:
    one envelope per alert, in order, none dropped, and each carries a
    non-empty subject name, aggregation key and title whatever labels the
    alert has; a webhook that does not decode is an error. *)
Theorem alerts_surface b now fresh raw :
  match read_webhook raw with
  | None => exists e, FromAlertManager b now fresh raw = Err e
  | Some alerts => exists envs, FromAlertManager b now fresh raw = Ok (envs, 0) /\
      Forall2 (fun i env => f_id (env_finding env) = fresh i /\ f_subject_name (env_finding env) <> "" /\
        f_aggregation_key (env_finding env) <> "" /\ f_title (env_finding env) <> "")
        (seq 0 (length alerts)) envs
  end.
Proof using.
  unfold FromAlertManager. destruct (read_webhook raw) as [alerts|]; [|eauto].
  generalize 0%nat. intros i.
  assert (exists envs, build_alerts b now fresh i alerts = (envs, 0) /\
    Forall2 (fun i env => f_id (env_finding env) = fresh i /\ f_subject_name (env_finding env) <> "" /\
        f_aggregation_key (env_finding env) <> "" /\ f_title (env_finding env) <> "")
        (seq i (length alerts)) envs) as (envs & -> & Hf); [|eauto].
  revert i. induction alerts as [|a l IH]; intros i; cbn [build_alerts length seq]; [eauto|].
  destruct (IH (S i)) as (envs & -> & Hf).
  destruct (alertToFinding_total b (now i) (fresh i) a) as (env & -> & ? & ? & ? & ? & _).
  eexists. split; [reflexivity|]. by constructor.
Qed.

(** ** Node alerts land on the node *)

(** An alert of a per-node exporter that names its node, or whose exporter
    pod or scrape address the locator can place, is reported against that
    node, cluster-scoped, whatever workload labels the series carries; if the
    node cannot be found the subject is the one the labels give. *)
Theorem node_alert_reported_on_node b labels :
  isNodeScopedExporterJob (sget labels "job") = true ->
  let node := coalesce (nodeNameFromLabels labels)
                match b_nodes b with None => "" | Some l => locate labels l end in
  alert_subject b labels
  = if bool_decide (node = "") then alert_subject (MkBuilder (b_account b) (b_cluster b) None) labels
    else (node, "node", "", node).
Proof using.
  intros Hj node. unfold alert_subject. destruct (alertSubject labels) as [n k].
  destruct (if bool_decide (n = "") then _ else _) as [[n' k'] ns'].
  unfold resolveNodeSubject. rewrite Hj. simpl b_nodes. fold node.
  case_bool_decide as Hn; [|done].
  unfold node, coalesce in Hn. unfold coalesce. by repeat case_bool_decide.
Qed.

(** The name of a scrape exporter in the [job] label is not taken as the
    subject. *)
Lemma exporter_job_not_subject labels :
  first_subject labels subject_labels = None -> isScrapeExporter (sget labels "job") = true ->
  (alertSubject labels).1 = "".
Proof using. intros H1 H2. unfold alertSubject. rewrite H1, H2, andb_false_r. done. Qed.
End builder.

(** The timestamps of findings are RFC 3339 and parse back to the instant
    they were made from, cut to whole seconds, for every instant of the years
    1 to 9999. *)
Theorem timestamps_roundtrip t : 0 <= t < year_10000 ->
  parse_rfc3339 (utcDBStr t) = Some (t / second * second).
Proof. apply rfc3339_roundtrip. Qed.

Lemma timestamps_roundtrip_witness :
  utcDBStr (unix_to_internal + 1778158857 * second + 5) = "2026-05-07T13:00:57Z" /\
  parse_rfc3339 (utcDBStr (unix_to_internal + 1778158857 * second + 5))
  = Some (unix_to_internal + 1778158857 * second).
Proof.
  split; [vm_compute; reflexivity|].
  rewrite (timestamps_roundtrip (unix_to_internal + 1778158857 * second + 5));
    [vm_compute; reflexivity|vm_compute; intuition congruence].
Defined.

Lemma evidence_decodes_witness :
  parse (e_data (newJSONEvidence "id" "acct" "{}" [Some [("type", JStr "diff")]; None]))
  = Some (JArr [JObj [("additional_info", JObj []); ("data", JStr "{}"); ("type", JStr "json")];
                JObj [("type", JStr "diff")]]).
Proof.
  refine (proj1 (evidence_decodes "id" "acct" "{}" [Some [("type", JStr "diff")]; None] _ _ _ _));
    vm_compute; first [reflexivity|congruence].
Defined.

Definition exporter_labels : smap :=
  Some [("job", "victoria-prometheus-node-exporter"); ("pod", "exporter-skqnn"); ("namespace", "monitoring");
        ("daemonset", "exporter"); ("alertname", "NodeSystemSaturation")].
Definition demo_locator : NodeLocator :=
  MkLocator (fun ns pod => if bool_decide (pod = "exporter-skqnn") then "node-7" else "") (fun _ => "").

Lemma node_alert_reported_on_node_witness :
  alert_subject (fun _ => None) (MkBuilder "acct" "c" (Some demo_locator)) exporter_labels
  = ("node-7", "node", "", "node-7") /\
  alert_subject (fun _ => None) (MkBuilder "acct" "c" None) exporter_labels
  = ("exporter", "daemonset", "monitoring", "").
Proof.
  split; [|vm_compute; reflexivity].
  rewrite (node_alert_reported_on_node (fun _ => None) (MkBuilder "acct" "c" (Some demo_locator)) exporter_labels);
    vm_compute; reflexivity.
Defined.
