(* ===== verification/AlertIntake.v ===== *)
(** * The event intake and the forwarder (pkg/alerts: k8s_intake.go, server.go)

    [/api/handle] reads the header of a kubewatch event and queues it on a
    shard; one worker per shard matches events with the trigger engine, and
    matches are posted to the collector under a bounded pool.  The counters
    are atomics that handlers and workers update one by one, so [exec] cuts
    the code at every atomic operation and runs the parts of all handlers and
    workers in any order.  The engine is used through the class
    [TriggerEngine], the counterpart of the interface in the code. *)

From S2P Require Import Prelude GoText GoJson GoStruct GoMarshal Finding.

#[local] Set Default Proof Using "Type".

(** ** The engine, as the forwarder sees it *)

(** A matcher can panic: the worker recovers and drops the event. *)
Inductive match_outcome (E : Type) :=
| Matched (ms : list MatchedTrigger) (e : E)
| Panicked (e : E).
Arguments Matched {E} ms e.
Arguments Panicked {E} e.

(** [C] is what the engine reads from the clock during one call. *)
Class TriggerEngine (E C : Type) := {
  MatchK8sEvent : C -> string -> string -> gomap -> gomap -> E -> match_outcome E;
  (** The optional [KindFilter] extension. *)
  kind_filter : option (string -> E -> bool)
}.

(** ** Decoding *)
Record kubewatchJob := MkJob { j_operation : string; j_kind : string; j_data : string; j_queued : time }.
Definition job_bytes (j : kubewatchJob) : Z := Z.of_nat (strlen (j_data j)).

(** The outer probe: [type] and the raw [data]. *)
Definition set_outer (f : string) (m : member) (p : string * string) : (string * string) * bool :=
  if bool_decide (f = "type") then let '(v, ok) := set_string p.1 m in ((v, p.2), ok)
  else ((p.1, set_raw m), true).
Definition read_outer (body : string) : option (string * string) :=
  let '(p, ok) := unmarshal_struct ["type"; "data"] set_outer body ("", "") in
  if ok then Some p else None.

(** The header: operation, kind and the object's name and namespace. *)
Record head := MkHead { h_operation : string; h_kind : string; h_name : string; h_namespace : string }.
Definition set_meta (f : string) (m : member) (h : head) : head * bool :=
  if bool_decide (f = "name") then
    let '(v, ok) := set_string (h_name h) m in (MkHead (h_operation h) (h_kind h) v (h_namespace h), ok)
  else let '(v, ok) := set_string (h_namespace h) m in (MkHead (h_operation h) (h_kind h) (h_name h) v, ok).
Definition set_obj (f : string) (m : member) (h : head) : head * bool :=
  set_struct ["name"; "namespace"] set_meta h m.
Definition set_head (f : string) (m : member) (h : head) : head * bool :=
  if bool_decide (f = "operation") then
    let '(v, ok) := set_string (h_operation h) m in (MkHead v (h_kind h) (h_name h) (h_namespace h), ok)
  else if bool_decide (f = "kind") then
    let '(v, ok) := set_string (h_kind h) m in (MkHead (h_operation h) v (h_name h) (h_namespace h), ok)
  else set_struct ["metadata"] set_obj h m.
Definition read_head (data : string) : option head :=
  let '(h, ok) := unmarshal_struct ["operation"; "kind"; "obj"] set_head data (MkHead "" "" "" "") in
  if ok then Some h else None.

(** The objects, decoded by the worker. *)
Definition set_inner (f : string) (m : member) (p : gomap * gomap) : (gomap * gomap) * bool :=
  if bool_decide (f = "obj") then let '(v, ok) := set_map p.1 m in ((v, p.2), ok)
  else let '(v, ok) := set_map p.2 m in ((p.1, v), ok).
Definition read_inner (data : string) : option (gomap * gomap) :=
  let '(p, ok) := unmarshal_struct ["obj"; "oldObj"] set_inner data (None, None) in
  if ok then Some p else None.

Definition kubewatchShardKey (kind namespace name : string) : string :=
  to_lower kind +:+ "/" +:+ namespace +:+ "/" +:+ name.

(** [fnv.New32a]. *)
Fixpoint fnv32a (h : Z) (s : string) : Z :=
  match s with
  | EmptyString => h
  | String c r => fnv32a (Z.lxor h (byte c) * 16777619 mod 2 ^ 32) r
  end.
Definition sum32 (s : string) : Z := fnv32a 2166136261 s.

(** ** Requests *)
Inductive http_reply := Reply (status : Z) (text : string).

(** [readBody]: the method, and what reading the first 5 MiB returns. *)
Definition max_body : Z := Z.shiftl 5 20.
Definition readBody (method : string) (body : result string) : http_reply + string :=
  if negb (bool_decide (method = "POST")) then inl (Reply 405 "method not allowed")
  else match body with
       | Err e => inl (Reply 400 ("read body: " +:+ e))
       | Ok b => inr (stake (Z.to_nat max_body) b)
       end.

(** What [handleK8sEvent] decides about a body it accepted. *)
Inductive verdict :=
| Invalid
| Snapshot
| NoEngine
| IgnoredKind
| Enqueue (job : kubewatchJob) (key : string).

Section intake.
Context {E C : Type} `{TriggerEngine E C}.

Definition classify (start : time) (engine : option E) (body : string) : verdict :=
  match read_outer body with
  | None => Invalid
  | Some (type, data) =>
    if bool_decide (type = "cluster_snapshot") then Snapshot
    else if bool_decide (data = "") then Invalid
    else
      match engine with
      | None => NoEngine
      | Some e =>
        match read_head data with
        | None => Invalid
        | Some h =>
          if match kind_filter with Some hk => negb (hk (h_kind h) e) | None => false end then IgnoredKind
          else Enqueue (MkJob (h_operation h) (h_kind h) data start)
                 (kubewatchShardKey (h_kind h) (h_namespace h) (h_name h))
        end
      end
  end.

(** ** The forwarder *)
Record FwdConfig := MkFwdConfig {
  kwWorkers : Z; kwQueueSize : Z; kwMaxBytes : Z;
  forward_pool : option Z;
  BackendURL : string; AuthSecret : string; AccountID : string; Cluster : string
}.

Definition defaultKubewatchWorkers : Z := 8.
Definition defaultKubewatchQueueSize : Z := 2048.
Definition defaultKubewatchQueueMaxBytes : Z := Z.shiftl 64 20.

Definition NewForwarder (url secret account cluster : string) : FwdConfig :=
  MkFwdConfig 0 0 0 None url secret account cluster.
Definition SetForwardPoolSize (n : Z) (f : FwdConfig) : FwdConfig :=
  if 0 <? n then MkFwdConfig (kwWorkers f) (kwQueueSize f) (kwMaxBytes f) (Some n)
                   (BackendURL f) (AuthSecret f) (AccountID f) (Cluster f)
  else f.
Definition positive_or (d v : Z) : Z := if 0 <? v then v else d.
Definition SetKubewatchQueue (workers size maxBytes : Z) (f : FwdConfig) : FwdConfig :=
  MkFwdConfig (positive_or (kwWorkers f) workers) (positive_or (kwQueueSize f) size)
    (positive_or (kwMaxBytes f) maxBytes) (forward_pool f)
    (BackendURL f) (AuthSecret f) (AccountID f) (Cluster f).

(** The sizes [startKubewatchWorkers] arrives at. *)
Definition num_workers (f : FwdConfig) : Z := positive_or defaultKubewatchWorkers (kwWorkers f).
Definition max_bytes (f : FwdConfig) : Z := positive_or defaultKubewatchQueueMaxBytes (kwMaxBytes f).
Definition per_shard (f : FwdConfig) : Z :=
  Z.max 1 (positive_or defaultKubewatchQueueSize (kwQueueSize f) / num_workers f).
Definition shard_of (f : FwdConfig) (key : string) : nat := Z.to_nat (sum32 key mod num_workers f).

(** *** Posting *)
Record request := MkRequest { rq_url : string; rq_headers : list (string * string); rq_body : string }.
Definition optional_header (k v : string) : list (string * string) :=
  if bool_decide (v = "") then [] else [(k, v)].
Definition post_request (f : FwdConfig) (env : FindingEnvelope) : request :=
  MkRequest (BackendURL f)
    ([("Content-Type", "application/json")] ++ optional_header "X-NB-Account-Id" (AccountID f)
     ++ optional_header "X-NB-Cluster" (Cluster f)
     ++ (if bool_decide (AuthSecret f = "") then [] else [("Authorization", basicAuth (AuthSecret f))]))
    (envelope_text env).
(** What the exchange with the collector comes to. *)
Inductive exchange :=
| BadRequest (e : string)
| NoResponse (e : string)
| Response_ (status : Z) (body : string).
Definition forward (f : FwdConfig) (x : exchange) : result unit :=
  if bool_decide (BackendURL f = "") then Err "backend URL not configured"
  else match x with
       | BadRequest e => Err e
       | NoResponse e => Err ("post: " +:+ e)
       | Response_ status body =>
         if 400 <=? status then
           Err ("backend HTTP " +:+ itoa status +:+ ": " +:+ stake 1024 body)
         else Ok tt
       end.

(** *** Shed warnings *)
Definition kubewatchShedWarnInterval : duration := 30 * second.
(** The counter since the last warning, its time, and the count warned of;
    [won] is the outcome of the compare-and-swap if it is tried. *)
Definition warnKubewatchShed (now : Z) (won : bool) (since last : Z) : Z * Z * option Z :=
  let n := since + 1 in
  if (wrap64 (now - last) <? kubewatchShedWarnInterval) || negb won then (n, last, None)
  else (n - n, now, Some n).

(** ** The running intake *)

(** Where a handler stands in [enqueueKubewatch]: each step is one atomic
    operation. *)
Inductive hpc :=
| HReserve   (* before kwBytes.Add(n) *)
| HOver      (* over the budget, before kwBytes.Add(-n) *)
| HCount     (* before kwDepth.Add(1) *)
| HOffer     (* before the send to the shard *)
| HUndepth   (* the shard is full, before kwDepth.Add(-1) *)
| HUnbytes.  (* before kwBytes.Add(-n) *)
Record handler := MkHandler { hd_pc : hpc; hd_job : kubewatchJob; hd_key : string }.

(** Where a worker stands with the job it took. *)
Inductive wpc := WDepth | WBytes | WMatch.
Record working := MkWorking { w_pc : wpc; w_job : kubewatchJob; w_key : string }.

(** A shard: its channel and its worker.  The key is kept beside the job for
    the statements below; the code's channel carries the job. *)
Record shard := MkShard { sh_queue : list (kubewatchJob * string); sh_worker : option working }.

(** A goroutine of the forward pool: a webhook to build, or what it still
    has to post. *)
Inductive post :=
| PTrigger (m : MatchedTrigger) (data : string)
| PEnvelope (e : FindingEnvelope).
Inductive posting :=
| PBuild (body : string)
| PPosts (source : string) (l : list post).

Inductive outcome := OMatched (n : nat) | OUnmatched | OInvalid | OPanic.
Inductive event :=
| EvVerdict (v : verdict)
| EvAccepted (j : kubewatchJob) (key : string)
| EvShed (j : kubewatchJob) (key : string)
| EvProcessed (j : kubewatchJob) (key : string) (o : outcome)
| EvForwardShed (source : string)
| EvForward (e : FindingEnvelope)
| EvDrop (source : string) (err : string).

Record Intake := MkIntake {
  i_engine : option E;
  i_handlers : list handler;
  i_shards : list shard;
  i_depth : Z;
  i_bytes : Z;
  i_sem : Z;
  i_posting : list posting;
  i_unmatched : Z;
  i_shed : Z;
  i_dropped : Z;
  i_log : list event
}.

Definition start (f : FwdConfig) (e : option E) : Intake :=
  MkIntake e [] (replicate (Z.to_nat (num_workers f)) (MkShard [] None)) 0 0 0 [] 0 0 0 [].

Definition upd_handlers (g : list handler -> list handler) (s : Intake) : Intake :=
  MkIntake (i_engine s) (g (i_handlers s)) (i_shards s) (i_depth s) (i_bytes s) (i_sem s)
    (i_posting s) (i_unmatched s) (i_shed s) (i_dropped s) (i_log s).
Definition upd_shards (g : list shard -> list shard) (s : Intake) : Intake :=
  MkIntake (i_engine s) (i_handlers s) (g (i_shards s)) (i_depth s) (i_bytes s) (i_sem s)
    (i_posting s) (i_unmatched s) (i_shed s) (i_dropped s) (i_log s).
Definition add_depth (n : Z) (s : Intake) : Intake :=
  MkIntake (i_engine s) (i_handlers s) (i_shards s) (i_depth s + n) (i_bytes s) (i_sem s)
    (i_posting s) (i_unmatched s) (i_shed s) (i_dropped s) (i_log s).
Definition add_bytes (n : Z) (s : Intake) : Intake :=
  MkIntake (i_engine s) (i_handlers s) (i_shards s) (i_depth s) (i_bytes s + n) (i_sem s)
    (i_posting s) (i_unmatched s) (i_shed s) (i_dropped s) (i_log s).
Definition upd_posting (d : Z) (g : list posting -> list posting) (s : Intake) : Intake :=
  MkIntake (i_engine s) (i_handlers s) (i_shards s) (i_depth s) (i_bytes s) (i_sem s + d)
    (g (i_posting s)) (i_unmatched s) (i_shed s) (i_dropped s) (i_log s).
Definition counters (unmatched shed dropped : Z) (es : list event) (s : Intake) : Intake :=
  MkIntake (i_engine s) (i_handlers s) (i_shards s) (i_depth s) (i_bytes s) (i_sem s)
    (i_posting s) (i_unmatched s + unmatched) (i_shed s + shed) (i_dropped s + dropped) (i_log s ++ es).
Definition with_engine (e : E) (s : Intake) : Intake :=
  MkIntake (Some e) (i_handlers s) (i_shards s) (i_depth s) (i_bytes s) (i_sem s)
    (i_posting s) (i_unmatched s) (i_shed s) (i_dropped s) (i_log s).

(** [spawnForward]. *)
Definition spawnForward (f : FwdConfig) (source : string) (p : posting) (s : Intake) : Intake :=
  match forward_pool f with
  | None => upd_posting 0 (fun l => l ++ [p]) s
  | Some n =>
    if i_sem s <? n then upd_posting 1 (fun l => l ++ [p]) s
    else counters 0 1 0 [EvForwardShed source] s
  end.

(** [handleAlert] and [handleK8sEvent] on a body that was read. *)
Definition handleAlert (f : FwdConfig) (body : string) (s : Intake) : Intake :=
  spawnForward f "alertmanager" (PBuild body) s.
Definition handleK8sEvent (start : time) (body : string) (s : Intake) : Intake :=
  let v := classify start (i_engine s) body in
  match v with
  | Invalid | Snapshot => counters 0 0 0 [EvVerdict v] s
  | NoEngine | IgnoredKind => counters 1 0 0 [EvVerdict v] s
  | Enqueue job key =>
    upd_handlers (fun l => l ++ [MkHandler HReserve job key]) (counters 0 0 0 [EvVerdict v] s)
  end.

(** One atomic operation of [enqueueKubewatch] for handler [i]. *)
Definition shed_event (i : nat) (h : handler) (s : Intake) : Intake :=
  counters 0 1 0 [EvShed (hd_job h) (hd_key h)] (upd_handlers (delete i) s).
Definition move (i : nat) (pc : hpc) (h : handler) (s : Intake) : Intake :=
  upd_handlers <[i := MkHandler pc (hd_job h) (hd_key h)]> s.
Definition push (j : kubewatchJob) (key : string) (sh : shard) : shard :=
  MkShard (sh_queue sh ++ [(j, key)]) (sh_worker sh).
Definition handler_step (f : FwdConfig) (i : nat) (h : handler) (s : Intake) : Intake :=
  let n := job_bytes (hd_job h) in
  let k := shard_of f (hd_key h) in
  match hd_pc h with
  | HReserve => add_bytes n (move i (if max_bytes f <? i_bytes s + n then HOver else HCount) h s)
  | HOver => add_bytes (- n) (shed_event i h s)
  | HCount => add_depth 1 (move i HOffer h s)
  | HOffer =>
    match i_shards s !! k with
    | None => s
    | Some sh =>
      if Z.of_nat (length (sh_queue sh)) <? per_shard f then
        counters 0 0 0 [EvAccepted (hd_job h) (hd_key h)]
          (upd_handlers (delete i) (upd_shards <[k := push (hd_job h) (hd_key h) sh]> s))
      else move i HUndepth h s
    end
  | HUndepth => add_depth (-1) (move i HUnbytes h s)
  | HUnbytes => add_bytes (- n) (shed_event i h s)
  end.

(** [matchKubewatch]: the outcome, the engine after it and the matches. *)
Definition matchKubewatch (now : C) (j : kubewatchJob) (engine : option E)
  : outcome * option E * list MatchedTrigger :=
  match read_inner (j_data j) with
  | None => (OInvalid, engine, [])
  | Some (obj, oldObj) =>
    match engine with
    | None => (OPanic, engine, [])
    | Some e =>
      match MatchK8sEvent now (j_operation j) (j_kind j) obj oldObj e with
      | Panicked e' => (OPanic, Some e', [])
      | Matched ms e' =>
        (match ms with [] => OUnmatched | _ => OMatched (length ms) end, Some e', ms)
      end
    end
  end.

(** The worker of shard [k]: taking a job, then one operation at a time. *)
Definition worker_take (k : nat) (s : Intake) : option Intake :=
  match i_shards s !! k with
  | Some (MkShard ((j, key) :: q) None) =>
    Some (upd_shards <[k := MkShard q (Some (MkWorking WDepth j key))]> s)
  | _ => None
  end.
Definition set_engine (e : option E) (s : Intake) : Intake :=
  match e with Some e => with_engine e s | None => s end.
Definition worker_match (f : FwdConfig) (now : C) (k : nat) (q : list (kubewatchJob * string))
  (w : working) (s : Intake) : Intake :=
  let '(o, e, ms) := matchKubewatch now (w_job w) (i_engine s) in
  let s := set_engine e (upd_shards <[k := MkShard q None]> s) in
  let s := counters (match o with OUnmatched => 1 | _ => 0 end) 0 0
             [EvProcessed (w_job w) (w_key w) o] s in
  match ms with
  | [] => s
  | _ => spawnForward f "kubewatch" (PPosts "kubewatch_matcher_" (map (fun m => PTrigger m (j_data (w_job w))) ms)) s
  end.
Definition worker_step (f : FwdConfig) (now : C) (k : nat) (s : Intake) : option Intake :=
  match i_shards s !! k with
  | Some (MkShard q (Some w)) =>
    match w_pc w with
    | WDepth => Some (add_depth (-1) (upd_shards <[k := MkShard q (Some (MkWorking WBytes (w_job w) (w_key w)))]> s))
    | WBytes => Some (add_bytes (- job_bytes (w_job w))
                        (upd_shards <[k := MkShard q (Some (MkWorking WMatch (w_job w) (w_key w)))]> s))
    | WMatch => Some (worker_match f now k q w s)
    end
  | _ => None
  end.

(** *** The forward pool *)
Variable split_host_port : string -> option string.
Variable uuid_sha1 : string -> string.

(** [recordDrop] and [recordForward]. *)
Definition recordDrop (source err : string) (s : Intake) : Intake := counters 0 0 1 [EvDrop source err] s.
Definition recordForward (e : FindingEnvelope) (s : Intake) : Intake := counters 0 0 0 [EvForward e] s.

(** The next post of a goroutine; [x] is its exchange with the collector. *)
Definition post_one (f : FwdConfig) (b : Builder) (now : time) (fresh : string) (x : exchange)
  (source : string) (p : post) (s : Intake) : Intake :=
  let label := match p with PTrigger m _ => source +:+ mt_matcher_name m | PEnvelope _ => source end in
  let built := match p with
               | PTrigger m data => FromMatchedTrigger uuid_sha1 b now fresh m data
               | PEnvelope e => Ok e
               end in
  match built with
  | Err e => recordDrop label e s
  | Ok env =>
    match forward f x with
    | Err e => recordDrop label e s
    | Ok _ => recordForward env s
    end
  end.
Definition finish_posting (f : FwdConfig) (i : nat) (s : Intake) : Intake :=
  upd_posting (match forward_pool f with Some _ => -1 | None => 0 end) (delete i) s.
Definition posting_step (f : FwdConfig) (b : Builder) (now : nat -> time) (fresh : nat -> string)
  (x : exchange) (i : nat) (s : Intake) : option Intake :=
  match i_posting s !! i with
  | None => None
  | Some (PBuild body) =>
    match FromAlertManager split_host_port b now fresh body with
    | Err e => Some (finish_posting f i (recordDrop "alertmanager" e s))
    | Ok (envs, _) => Some (upd_posting 0 <[i := PPosts "alertmanager" (map PEnvelope envs)]> s)
    end
  | Some (PPosts _ []) => Some (finish_posting f i s)
  | Some (PPosts source (p :: l)) =>
    Some (post_one f b (now 0%nat) (fresh 0%nat) x source p (upd_posting 0 <[i := PPosts source l]> s))
  end.

(** ** All goroutines, in any order *)
Inductive op :=
| OpAlert (body : string)
| OpEvent (start : time) (body : string)
| OpHandler (i : nat)
| OpTake (k : nat)
| OpWorker (now : C) (k : nat)
| OpPost (now : nat -> time) (fresh : nat -> string) (x : exchange) (i : nat).

Definition exec (f : FwdConfig) (b : Builder) (o : op) (s : Intake) : option Intake :=
  match o with
  | OpAlert body => Some (handleAlert f body s)
  | OpEvent t body => Some (handleK8sEvent t body s)
  | OpHandler i =>
    match i_handlers s !! i with
    | Some h => Some (handler_step f i h s)
    | None => None
    end
  | OpTake k => worker_take k s
  | OpWorker now k => worker_step f now k s
  | OpPost now fresh x i => posting_step f b now fresh x i s
  end.
Fixpoint exec_all (f : FwdConfig) (b : Builder) (ops : list op) (s : Intake) : option Intake :=
  match ops with
  | [] => Some s
  | o :: ops => match exec f b o s with Some s' => exec_all f b ops s' | None => None end
  end.

(** ** What the counters count *)
Definition reserved (h : handler) : Z :=
  match hd_pc h with HReserve | HOver => 0 | _ => job_bytes (hd_job h) end.
Definition overshoot (h : handler) : Z :=
  match hd_pc h with HOver => job_bytes (hd_job h) | _ => 0 end.
Definition counted (h : handler) : Z :=
  match hd_pc h with HOffer | HUndepth => 1 | _ => 0 end.
Definition queue_bytes (sh : shard) : Z := sum_map (fun jk => job_bytes jk.1) (sh_queue sh).
Definition taken_bytes (sh : shard) : Z :=
  match sh_worker sh with
  | Some (MkWorking (WDepth | WBytes) j _) => job_bytes j
  | _ => 0
  end.
Definition shard_depth (sh : shard) : Z :=
  Z.of_nat (length (sh_queue sh)) +
  match sh_worker sh with Some (MkWorking WDepth _ _) => 1 | _ => 0 end.
Definition shard_bytes (sh : shard) : Z := queue_bytes sh + taken_bytes sh.

Record balanced (f : FwdConfig) (s : Intake) : Prop := {
  bal_bytes : i_bytes s = sum_map reserved (i_handlers s) + sum_map overshoot (i_handlers s)
                          + sum_map shard_bytes (i_shards s);
  bal_depth : i_depth s = sum_map counted (i_handlers s) + sum_map shard_depth (i_shards s);
  bal_max : sum_map reserved (i_handlers s) + sum_map shard_bytes (i_shards s) <= max_bytes f;
  bal_queue : Forall (fun sh => Z.of_nat (length (sh_queue sh)) <= per_shard f) (i_shards s);
  bal_shards : Z.of_nat (length (i_shards s)) = num_workers f
}.

Lemma num_workers_pos f : 0 < num_workers f.
Proof using. unfold num_workers, positive_or. destruct (Z.ltb_spec 0 (kwWorkers f)); [done|by vm_compute]. Qed.
Lemma max_bytes_pos f : 0 < max_bytes f.
Proof using. unfold max_bytes, positive_or. destruct (Z.ltb_spec 0 (kwMaxBytes f)); [done|by vm_compute]. Qed.
Lemma job_bytes_nonneg j : 0 <= job_bytes j.
Proof using. unfold job_bytes. lia. Qed.
Lemma shard_of_lt f key s : balanced f s -> (shard_of f key < length (i_shards s))%nat.
Proof using.
  intros [_ _ _ _ Hn]. unfold shard_of.
  pose proof (Z.mod_pos_bound (sum32 key) (num_workers f) (num_workers_pos f)). lia.
Qed.

Lemma balanced_start f e : balanced f (start f e).
Proof using.
  assert (forall g : shard -> Z, g (MkShard [] None) = 0 -> forall n,
    sum_map g (replicate n (MkShard [] None)) = 0) as Hz.
  { intros g Hg n. apply sum_map_zero. intros x Hx. apply elem_of_replicate in Hx as [-> _]. done. }
  pose proof (num_workers_pos f). pose proof (max_bytes_pos f).
  split; simpl; rewrite ?Hz by done; try done.
  - lia.
  - apply Forall_replicate. simpl. unfold per_shard. lia.
  - rewrite length_replicate. lia.
Qed.

(** Steps that leave the queue alone. *)
Lemma balanced_same f s s' : i_handlers s' = i_handlers s -> i_shards s' = i_shards s ->
  i_bytes s' = i_bytes s -> i_depth s' = i_depth s -> balanced f s -> balanced f s'.
Proof using. intros H1 H2 H3 H4 []. by split; rewrite ?H1, ?H2, ?H3, ?H4. Qed.

Lemma spawn_same f src p s : i_handlers (spawnForward f src p s) = i_handlers s /\
  i_shards (spawnForward f src p s) = i_shards s /\ i_bytes (spawnForward f src p s) = i_bytes s /\
  i_depth (spawnForward f src p s) = i_depth s /\
  exists l, i_log (spawnForward f src p s) = i_log s ++ l /\ Forall (fun e => e = EvForwardShed src) l.
Proof using.
  unfold spawnForward. repeat case_match; simpl; split_and!; try done;
    first [exists []; by rewrite app_nil_r|eexists; split; [reflexivity|by repeat constructor]].
Qed.

Lemma queue_push sh j key : queue_bytes (push j key sh) = queue_bytes sh + job_bytes j.
Proof using. unfold queue_bytes, push. simpl. rewrite sum_map_app. simpl. lia. Qed.
Lemma shard_bytes_push sh j key : shard_bytes (push j key sh) = shard_bytes sh + job_bytes j.
Proof using. unfold shard_bytes. rewrite queue_push. unfold taken_bytes, push. simpl. lia. Qed.
Lemma shard_depth_push sh j key : shard_depth (push j key sh) = shard_depth sh + 1.
Proof using. unfold shard_depth, push. simpl. rewrite length_app. simpl. lia. Qed.

(** Sums after one handler moved, or left. *)
Lemma sums_move i h pc l : l !! i = Some h ->
  let h' := MkHandler pc (hd_job h) (hd_key h) in
  sum_map reserved (<[i := h']> l) = sum_map reserved l - reserved h + reserved h' /\
  sum_map overshoot (<[i := h']> l) = sum_map overshoot l - overshoot h + overshoot h' /\
  sum_map counted (<[i := h']> l) = sum_map counted l - counted h + counted h'.
Proof using. intros Hi h'. split_and!; by apply sum_map_insert. Qed.
Lemma sums_leave i h (l : list handler) : l !! i = Some h ->
  sum_map reserved (delete i l) = sum_map reserved l - reserved h /\
  sum_map overshoot (delete i l) = sum_map overshoot l - overshoot h /\
  sum_map counted (delete i l) = sum_map counted l - counted h.
Proof using. intros Hi. split_and!; by apply sum_map_delete. Qed.
Lemma overshoot_nonneg (l : list handler) : 0 <= sum_map overshoot l.
Proof using.
  transitivity (sum_map (fun _ : handler => 0) l); [by rewrite sum_map_zero|].
  apply sum_map_le. intros h. unfold overshoot. case_match; pose proof (job_bytes_nonneg (hd_job h)); lia.
Qed.

Lemma balanced_handler f i h s : i_handlers s !! i = Some h ->
  balanced f s -> balanced f (handler_step f i h s).
Proof using.
  intros Hi B. pose proof (shard_of_lt f (hd_key h) s B) as Hk. pose proof B as [A1 A2 A3 A4 A5].
  pose proof (job_bytes_nonneg (hd_job h)). pose proof (overshoot_nonneg (i_handlers s)).
  pose proof (sums_leave i h _ Hi) as (L1 & L2 & L3).
  destruct h as [pc j key]. destruct pc; unfold handler_step; cbn [hd_pc hd_job hd_key] in *.
  - destruct (Z.ltb_spec (max_bytes f) (i_bytes s + job_bytes j)).
    + destruct (sums_move i _ HOver _ Hi) as (M1 & M2 & M3); cbn [hd_job hd_key] in M1, M2, M3.
      split; simpl; rewrite ?M1, ?M2, ?M3; unfold reserved, overshoot, counted in *; simpl in *; auto; lia.
    + destruct (sums_move i _ HCount _ Hi) as (M1 & M2 & M3); cbn [hd_job hd_key] in M1, M2, M3.
      split; simpl; rewrite ?M1, ?M2, ?M3; unfold reserved, overshoot, counted in *; simpl in *; auto; lia.
  - split; simpl; rewrite ?L1, ?L2, ?L3; unfold reserved, overshoot, counted in *; simpl in *; auto; lia.
  - destruct (sums_move i _ HOffer _ Hi) as (M1 & M2 & M3); cbn [hd_job hd_key] in M1, M2, M3.
    split; simpl; rewrite ?M1, ?M2, ?M3; unfold reserved, overshoot, counted in *; simpl in *; auto; lia.
  - destruct (i_shards s !! shard_of f key) as [sh|] eqn:Esh; [|done].
    destruct (Z.ltb_spec (Z.of_nat (length (sh_queue sh))) (per_shard f)).
    + split; simpl; rewrite ?L1, ?L2, ?L3, ?(sum_map_insert _ _ _ _ _ Esh), ?shard_bytes_push, ?shard_depth_push,
        ?length_insert; unfold reserved, overshoot, counted in *; simpl in *; try lia.
      apply Forall_insert; [done|]. unfold push. simpl. rewrite length_app. simpl. lia.
    + destruct (sums_move i _ HUndepth _ Hi) as (M1 & M2 & M3); cbn [hd_job hd_key] in M1, M2, M3.
      split; simpl; rewrite ?M1, ?M2, ?M3; unfold reserved, overshoot, counted in *; simpl in *; auto; lia.
  - destruct (sums_move i _ HUnbytes _ Hi) as (M1 & M2 & M3); cbn [hd_job hd_key] in M1, M2, M3.
    split; simpl; rewrite ?M1, ?M2, ?M3; unfold reserved, overshoot, counted in *; simpl in *; auto; lia.
  - split; simpl; rewrite ?L1, ?L2, ?L3; unfold reserved, overshoot, counted in *; simpl in *; auto; lia.
Qed.

(** A shard that changes with what the counters say about it. *)
Lemma balanced_shard f k sh sh' db dd s s' :
  i_shards s !! k = Some sh -> i_handlers s' = i_handlers s -> i_shards s' = <[k := sh']> (i_shards s) ->
  i_bytes s' = i_bytes s + db -> i_depth s' = i_depth s + dd ->
  shard_bytes sh' = shard_bytes sh + db -> shard_depth sh' = shard_depth sh + dd -> db <= 0 ->
  (length (sh_queue sh') <= length (sh_queue sh))%nat ->
  balanced f s -> balanced f s'.
Proof using.
  intros Hk Hh Hs Hb Hd Eb Ed Hle Hlen [A1 A2 A3 A4 A5].
  split; rewrite ?Hh, ?Hs, ?Hb, ?Hd, ?(sum_map_insert _ _ _ _ _ Hk), ?length_insert; try lia.
  apply Forall_insert; [done|]. pose proof (Forall_lookup_1 _ _ _ _ A4 Hk) as Hq. simpl in Hq. lia.
Qed.

Lemma worker_match_same f now k q w s : let s' := worker_match f now k q w s in
  i_handlers s' = i_handlers s /\ i_shards s' = <[k := MkShard q None]> (i_shards s) /\
  i_bytes s' = i_bytes s /\ i_depth s' = i_depth s /\
  exists o l, i_log s' = i_log s ++ EvProcessed (w_job w) (w_key w) o :: l /\
    Forall (fun e => e = EvForwardShed "kubewatch") l.
Proof using.
  unfold worker_match. destruct (matchKubewatch now (w_job w) (i_engine s)) as [[o e] ms].
  assert (forall t : Intake, i_handlers (set_engine e t) = i_handlers t /\
    i_shards (set_engine e t) = i_shards t /\ i_bytes (set_engine e t) = i_bytes t /\
    i_depth (set_engine e t) = i_depth t /\ i_log (set_engine e t) = i_log t) as He by (by destruct e).
  set (t := counters _ _ _ _ _).
  assert (i_handlers t = i_handlers s /\ i_shards t = <[k := MkShard q None]> (i_shards s) /\
    i_bytes t = i_bytes s /\ i_depth t = i_depth s /\
    i_log t = i_log s ++ [EvProcessed (w_job w) (w_key w) o]) as (T1 & T2 & T3 & T4 & T5).
  { unfold t. cbn [counters i_handlers i_shards i_bytes i_depth i_log].
    destruct (He (upd_shards <[k := MkShard q None]> s)) as (-> & -> & -> & -> & ->). done. }
  destruct ms as [|m ms].
  - split_and!; [done..|]. exists o, []. by rewrite T5.
  - match goal with |- context [spawnForward f "kubewatch" ?p t] =>
      destruct (spawn_same f "kubewatch" p t) as (-> & -> & -> & -> & l & Hl & Hf) end.
    split_and!; [done..|]. exists o, l. split; [|done]. by rewrite Hl, T5, <- app_assoc.
Qed.

(** ** Order: accepted events of a shard are processed first in, first out *)
Definition accepted_on (f : FwdConfig) (k : nat) (e : event) : option (kubewatchJob * string) :=
  match e with
  | EvAccepted j key => if decide (shard_of f key = k) then Some (j, key) else None
  | _ => None
  end.
Definition processed_on (f : FwdConfig) (k : nat) (e : event) : option (kubewatchJob * string) :=
  match e with
  | EvProcessed j key _ => if decide (shard_of f key = k) then Some (j, key) else None
  | _ => None
  end.
Definition pending (sh : shard) : list (kubewatchJob * string) :=
  match sh_worker sh with Some w => [(w_job w, w_key w)] | None => [] end ++ sh_queue sh.

Definition in_order (f : FwdConfig) (s : Intake) : Prop :=
  forall k sh, i_shards s !! k = Some sh ->
    omap (accepted_on f k) (i_log s) = omap (processed_on f k) (i_log s) ++ pending sh /\
    Forall (fun jk => shard_of f jk.2 = k) (pending sh).

(** Events the order does not speak of. *)
Definition neutral (e : event) : Prop :=
  match e with EvAccepted _ _ | EvProcessed _ _ _ => False | _ => True end.
Lemma omap_neutral f k l : Forall neutral l ->
  omap (accepted_on f k) l = [] /\ omap (processed_on f k) l = [].
Proof using.
  induction 1 as [|e l He _ [IH1 IH2]]; [done|].
  destruct e; try done; (split; [exact IH1|exact IH2]).
Qed.

Lemma in_order_neutral f s s' l :
  (forall k sh', i_shards s' !! k = Some sh' -> exists sh, i_shards s !! k = Some sh /\ pending sh' = pending sh) ->
  i_log s' = i_log s ++ l -> Forall neutral l -> in_order f s -> in_order f s'.
Proof using.
  intros Hs Hl Hn Ho k sh' Hk. destruct (Hs k sh' Hk) as (sh & Hsh & ->).
  destruct (Ho k sh Hsh) as [Eo Fo]. destruct (omap_neutral f k l Hn) as [N1 N2].
  rewrite Hl, !omap_app, N1, N2, !app_nil_r. done.
Qed.
Lemma in_order_same f s s' l : i_shards s' = i_shards s ->
  i_log s' = i_log s ++ l -> Forall neutral l -> in_order f s -> in_order f s'.
Proof using. intros Hs. apply in_order_neutral. rewrite Hs. eauto. Qed.
Lemma in_order_update f s s' k sh sh' : i_shards s !! k = Some sh ->
  i_shards s' = <[k := sh']> (i_shards s) -> pending sh' = pending sh -> i_log s' = i_log s ->
  in_order f s -> in_order f s'.
Proof using.
  intros Hk Hs Hp Hl. apply (in_order_neutral f s s' []); [|by rewrite app_nil_r|done].
  intros k' sh1 H1. rewrite Hs in H1. apply list_lookup_insert_Some in H1 as [(<- & <- & _)|[_ H1]]; eauto.
Qed.

Lemma in_order_accept f s k sh j key : i_shards s !! k = Some sh -> shard_of f key = k ->
  in_order f s ->
  in_order f (counters 0 0 0 [EvAccepted j key] (upd_shards <[k := push j key sh]> s)).
Proof using.
  intros Hk Hkey Ho k' sh' Hk'. simpl in *. rewrite !omap_app. simpl.
  apply list_lookup_insert_Some in Hk' as [(<- & <- & _)|[Hne Hk']].
  - destruct (Ho k sh Hk) as [Eo Fo]. rewrite decide_True by done. simpl. rewrite app_nil_r, Eo.
    unfold pending, push. simpl. rewrite !app_assoc. split; [done|].
    apply Forall_app. split; [exact Fo|]. by repeat constructor.
  - destruct (Ho k' sh' Hk') as [Eo Fo]. rewrite decide_False by congruence. simpl. by rewrite !app_nil_r.
Qed.

Lemma in_order_process f s s' k q w o l : i_shards s !! k = Some (MkShard q (Some w)) ->
  i_shards s' = <[k := MkShard q None]> (i_shards s) ->
  i_log s' = i_log s ++ EvProcessed (w_job w) (w_key w) o :: l -> Forall neutral l ->
  in_order f s -> in_order f s'.
Proof using.
  intros Hk Hs Hl Hn Ho k' sh' Hk'. rewrite Hs in Hk'. destruct (Ho k _ Hk) as [_ Fk].
  apply Forall_app in Fk as [[Hw _]%Forall_cons _]. simpl in Hw.
  destruct (omap_neutral f k' l Hn) as [N1 N2].
  rewrite Hl, (app_assoc _ [_] l : _ ++ EvProcessed _ _ _ :: l = _), !omap_app, N1, N2, !app_nil_r. simpl.
  apply list_lookup_insert_Some in Hk' as [(<- & <- & _)|[Hne Hk']].
  - destruct (Ho k _ Hk) as [Eo Fo]. rewrite decide_True by done. rewrite Eo. unfold pending. simpl.
    rewrite <- app_assoc. split; [done|]. unfold pending in Fo. simpl in Fo. by apply Forall_cons in Fo as [_ Fo].
  - destruct (Ho k' sh' Hk') as [Eo Fo]. rewrite decide_False by congruence. by rewrite app_nil_r.
Qed.

Lemma neutral1 e : neutral e -> Forall neutral [e].
Proof using. intros. by apply Forall_singleton. Qed.

(** ** Every step keeps both invariants *)
Definition sound (f : FwdConfig) (s : Intake) : Prop := balanced f s /\ in_order f s.

Lemma sound_quiet f s s' l : i_handlers s' = i_handlers s -> i_shards s' = i_shards s ->
  i_bytes s' = i_bytes s -> i_depth s' = i_depth s -> i_log s' = i_log s ++ l -> Forall neutral l ->
  sound f s -> sound f s'.
Proof using.
  intros H1 H2 H3 H4 Hl Hn [B O]. split; [by eapply balanced_same|by eapply in_order_same].
Qed.
#[local] Hint Constructors Forall : core.

Lemma forward_shed_neutral src l : Forall (fun e => e = EvForwardShed src) l -> Forall neutral l.
Proof using. intros Hf. eapply Forall_impl; [exact Hf|]. by intros ? ->. Qed.

Lemma sound_event f t body s : sound f s -> sound f (handleK8sEvent t body s).
Proof using.
  intros S. unfold handleK8sEvent. set (v := classify t (i_engine s) body).
  assert (forall u, sound f (counters u 0 0 [EvVerdict v] s)) as Hc.
  { intros u. apply (sound_quiet f s _ [EvVerdict v]); try done. by apply neutral1. }
  destruct v; auto. destruct (Hc 0) as [[A1 A2 A3 A4 A5] O]. split; [|exact O].
  split; simpl; rewrite ?sum_map_app; unfold reserved, overshoot, counted in *; simpl in *; auto; lia.
Qed.

Lemma sound_handler f i h s : i_handlers s !! i = Some h -> sound f s -> sound f (handler_step f i h s).
Proof using.
  intros Hi [B O]. split; [by apply balanced_handler|].
  unfold handler_step. destruct (hd_pc h).
  - apply (in_order_same f s _ []); [done|by rewrite app_nil_r|done|done].
  - apply (in_order_same f s _ [EvShed (hd_job h) (hd_key h)]); try done. by apply neutral1.
  - apply (in_order_same f s _ []); [done|by rewrite app_nil_r|done|done].
  - destruct (i_shards s !! shard_of f (hd_key h)) as [sh|] eqn:Esh; [|done].
    destruct (_ <? _).
    + pose proof (in_order_accept f s _ sh (hd_job h) (hd_key h) Esh eq_refl O) as O'. exact O'.
    + apply (in_order_same f s _ []); [done|by rewrite app_nil_r|done|done].
  - apply (in_order_same f s _ []); [done|by rewrite app_nil_r|done|done].
  - apply (in_order_same f s _ [EvShed (hd_job h) (hd_key h)]); try done. by apply neutral1.
Qed.

Lemma sound_take f k s s' : worker_take k s = Some s' -> sound f s -> sound f s'.
Proof using.
  unfold worker_take. destruct (i_shards s !! k) as [[[|[j key] q] [w|]]|] eqn:Esh; try done.
  intros [= <-] [B O]. split.
  - eapply (balanced_shard f k _ _ 0 0 s); [exact Esh|done|done|simpl; lia|simpl; lia| | |lia| |done].
    + unfold shard_bytes, queue_bytes, taken_bytes. simpl. lia.
    + unfold shard_depth. cbn [sh_queue sh_worker length]. lia.
    + simpl. lia.
  - eapply in_order_update; [exact Esh|done|done|done|done].
Qed.

Lemma sound_worker f now k s s' : worker_step f now k s = Some s' -> sound f s -> sound f s'.
Proof using.
  unfold worker_step. destruct (i_shards s !! k) as [[q [w|]]|] eqn:Esh; try done.
  pose proof (job_bytes_nonneg (w_job w)). destruct w as [[] j key]; intros [= <-] [B O].
  - split; [|by eapply in_order_update].
    eapply (balanced_shard f k _ _ 0 (-1) s); [exact Esh|done|done|simpl; lia|done| | |lia|done|done].
    + unfold shard_bytes, queue_bytes, taken_bytes. simpl. lia.
    + unfold shard_depth. simpl. lia.
  - split; [|by eapply in_order_update].
    eapply (balanced_shard f k _ _ (- job_bytes j) 0 s); [exact Esh|done|done|done|simpl; lia| | |simpl in *; lia|done|done].
    + unfold shard_bytes, queue_bytes, taken_bytes. simpl. lia.
    + unfold shard_depth. simpl. lia.
  - destruct (worker_match_same f now k q (MkWorking WMatch j key) s) as (W1 & W2 & W3 & W4 & o & l & Hl & Hf).
    split.
    + eapply (balanced_shard f k _ _ 0 0 s); [exact Esh|done|done|rewrite W3; lia|rewrite W4; lia| | |lia|done|done].
      * unfold shard_bytes, queue_bytes, taken_bytes. simpl. lia.
      * unfold shard_depth. simpl. lia.
    + eapply in_order_process; [exact Esh|done|exact Hl|by eapply forward_shed_neutral|done].
Qed.

Lemma post_one_same f b now fresh x source p s : let s' := post_one f b now fresh x source p s in
  i_handlers s' = i_handlers s /\ i_shards s' = i_shards s /\ i_bytes s' = i_bytes s /\
  i_depth s' = i_depth s /\ i_posting s' = i_posting s /\ i_sem s' = i_sem s /\
  exists e, i_log s' = i_log s ++ [e] /\ neutral e.
Proof using.
  unfold post_one, recordDrop, recordForward. repeat case_match; simpl; split_and!; try done; by eexists.
Qed.

Lemma sound_post f b now fresh x i s s' : posting_step f b now fresh x i s = Some s' -> sound f s -> sound f s'.
Proof using.
  unfold posting_step. destruct (i_posting s !! i) as [[body|src [|p l]]|]; [| | |done].
  - destruct (FromAlertManager split_host_port b now fresh body) as [[envs n]|e]; intros [= <-].
    + apply (sound_quiet f s _ []); [done..|by rewrite app_nil_r|done].
    + apply (sound_quiet f s _ [EvDrop "alertmanager" e]); try done. by apply neutral1.
  - intros [= <-]. apply (sound_quiet f s _ []); [done..|by rewrite app_nil_r|done].
  - intros [= <-]. set (t := upd_posting 0 <[i:=PPosts src l]> s).
    destruct (post_one_same f b (now 0%nat) (fresh 0%nat) x src p t) as (P1 & P2 & P3 & P4 & _ & _ & e & Hl & He).
    apply (sound_quiet f s _ [e]); auto.
Qed.

Lemma sound_exec f b o s s' : exec f b o s = Some s' -> sound f s -> sound f s'.
Proof using.
  destruct o; simpl; intros Hx Hs.
  - injection Hx as <-. unfold handleAlert.
    destruct (spawn_same f "alertmanager" (PBuild body) s) as (S1 & S2 & S3 & S4 & l & Hl & Hf).
    eapply sound_quiet; eauto using forward_shed_neutral.
  - injection Hx as <-. by apply sound_event.
  - destruct (i_handlers s !! i) as [h|] eqn:Esh; [|done]. injection Hx as <-. by apply sound_handler.
  - by eapply sound_take.
  - by eapply sound_worker.
  - by eapply sound_post.
Qed.

Lemma sound_all f b ops e s : exec_all f b ops (start f e) = Some s -> sound f s.
Proof using.
  assert (forall s0, sound f s0 -> exec_all f b ops s0 = Some s -> sound f s) as H0.
  { induction ops as [|o ops IH]; simpl; intros s0 Hs; [by intros [= <-]|].
    destruct (exec f b o s0) as [s1|] eqn:Ex; [|done]. intros Hr. eapply IH; [|exact Hr].
    by eapply sound_exec. }
  apply H0. split; [apply balanced_start|]. intros k sh Hk. simpl in *.
  apply lookup_replicate in Hk as [-> _]. done.
Qed.

(** ** Tallies: every event is accounted for *)
Definition ev_enqueued (e : event) : Z := match e with EvVerdict (Enqueue _ _) => 1 | _ => 0 end.
Definition ev_accepted (e : event) : Z := match e with EvAccepted _ _ => 1 | _ => 0 end.
Definition ev_shed (e : event) : Z := match e with EvShed _ _ => 1 | _ => 0 end.
Definition ev_forward_shed (e : event) : Z := match e with EvForwardShed _ => 1 | _ => 0 end.
Definition ev_dropped (e : event) : Z := match e with EvDrop _ _ => 1 | _ => 0 end.
Definition ev_unmatched (e : event) : Z :=
  match e with
  | EvVerdict (NoEngine | IgnoredKind) | EvProcessed _ _ OUnmatched => 1
  | _ => 0
  end.

Record tallied (f : FwdConfig) (s : Intake) : Prop := {
  ta_enqueued : sum_map ev_enqueued (i_log s)
    = sum_map ev_accepted (i_log s) + sum_map ev_shed (i_log s) + Z.of_nat (length (i_handlers s));
  ta_shed : i_shed s = sum_map ev_shed (i_log s) + sum_map ev_forward_shed (i_log s);
  ta_dropped : i_dropped s = sum_map ev_dropped (i_log s);
  ta_unmatched : i_unmatched s = sum_map ev_unmatched (i_log s);
  ta_pool : match forward_pool f with
            | Some n => i_sem s = Z.of_nat (length (i_posting s)) /\ (0 < n -> i_sem s <= n)
            | None => i_sem s = 0
            end
}.

(** Steps that only move bytes and jobs around. *)
Lemma tallied_same f s s' : length (i_handlers s') = length (i_handlers s) ->
  i_shed s' = i_shed s -> i_dropped s' = i_dropped s -> i_unmatched s' = i_unmatched s ->
  i_sem s' = i_sem s -> length (i_posting s') = length (i_posting s) -> i_log s' = i_log s ->
  tallied f s -> tallied f s'.
Proof using. intros H1 H2 H3 H4 H5 H6 H7 []. by split; rewrite ?H1, ?H2, ?H3, ?H4, ?H5, ?H6, ?H7. Qed.

Lemma tallied_counters f u sh d e s :
  ev_unmatched e = u -> ev_shed e + ev_forward_shed e = sh -> ev_dropped e = d ->
  ev_enqueued e = 0 -> ev_accepted e = 0 -> ev_shed e = 0 ->
  tallied f s -> tallied f (counters u sh d [e] s).
Proof using.
  intros Hu Hs Hd He Ha Hsh [T1 T2 T3 T4 T5].
  split; simpl; rewrite ?sum_map_app; simpl; try lia. exact T5.
Qed.

Lemma tallied_spawn f src p s : tallied f s -> tallied f (spawnForward f src p s).
Proof using.
  intros T. unfold spawnForward. destruct (forward_pool f) as [n|] eqn:Ep.
  - destruct (Z.ltb_spec (i_sem s) n).
    + destruct T as [T1 T2 T3 T4 T5]. rewrite Ep in T5. split; simpl; auto. rewrite Ep, length_app. simpl. lia.
    + by apply tallied_counters.
  - destruct T as [T1 T2 T3 T4 T5]. rewrite Ep in T5. split; simpl; auto. rewrite Ep. lia.
Qed.

Lemma tallied_shed f i h s : i_handlers s !! i = Some h -> tallied f s -> tallied f (shed_event i h s).
Proof using.
  intros Hi [T1 T2 T3 T4 T5]. pose proof (lookup_lt_Some _ _ _ Hi).
  split; simpl; rewrite ?sum_map_app, ?length_delete by eauto; simpl; try lia. exact T5.
Qed.

Lemma tallied_handler f i h s : i_handlers s !! i = Some h -> tallied f s -> tallied f (handler_step f i h s).
Proof using.
  intros Hi T. pose proof (lookup_lt_Some _ _ _ Hi). unfold handler_step.
  assert (forall pc, length (<[i := MkHandler pc (hd_job h) (hd_key h)]> (i_handlers s)) = length (i_handlers s))
    as Hl by (intros; by rewrite length_insert).
  destruct (hd_pc h).
  - by eapply tallied_same; [simpl; apply Hl|..|exact T].
  - by eapply tallied_same; [..|exact (tallied_shed f i h s Hi T)].
  - by eapply tallied_same; [simpl; apply Hl|..|exact T].
  - destruct (i_shards s !! shard_of f (hd_key h)) as [sh|]; [|done]. destruct (_ <? _).
    + destruct T as [T1 T2 T3 T4 T5].
      split; simpl; rewrite ?sum_map_app, ?length_delete by eauto; simpl; try lia. exact T5.
    + by eapply tallied_same; [simpl; apply Hl|..|exact T].
  - by eapply tallied_same; [simpl; apply Hl|..|exact T].
  - by eapply tallied_same; [..|exact (tallied_shed f i h s Hi T)].
Qed.

Lemma tallied_match f now k q w s : tallied f s -> tallied f (worker_match f now k q w s).
Proof using.
  intros T. unfold worker_match. destruct (matchKubewatch now (w_job w) (i_engine s)) as [[o e] ms].
  assert (tallied f (set_engine e (upd_shards <[k := MkShard q None]> s))) as Te.
  { destruct e; eapply tallied_same; try exact T; done. }
  assert (tallied f (counters (match o with OUnmatched => 1 | _ => 0 end) 0 0
    [EvProcessed (w_job w) (w_key w) o] (set_engine e (upd_shards <[k := MkShard q None]> s)))) as Tc.
  { by apply tallied_counters. }
  destruct ms; [done|]. by apply tallied_spawn.
Qed.

Lemma tallied_finish f i s : is_Some (i_posting s !! i) -> tallied f s -> tallied f (finish_posting f i s).
Proof using.
  intros [p Hp] [T1 T2 T3 T4 T5]. pose proof (lookup_lt_Some _ _ _ Hp).
  split; simpl; auto. rewrite length_delete by eauto. destruct (forward_pool f); lia.
Qed.

Lemma tallied_post f b now fresh x i s s' :
  posting_step f b now fresh x i s = Some s' -> tallied f s -> tallied f s'.
Proof using.
  unfold posting_step. destruct (i_posting s !! i) as [pp|] eqn:Ei; [|done].
  assert (forall y, tallied f s -> tallied f (upd_posting 0 <[i := y]> s)) as Hu.
  { intros y T. eapply tallied_same; [..|exact T]; simpl; rewrite ?length_insert, ?Z.add_0_r; done. }
  destruct pp as [body|src [|p l]].
  - destruct (FromAlertManager split_host_port b now fresh body) as [[envs n]|e]; intros [= <-] T; [by apply Hu|].
    apply tallied_finish; [simpl; rewrite Ei; eauto|]. by apply tallied_counters.
  - intros [= <-] T. apply tallied_finish; [rewrite Ei; eauto|done].
  - intros [= <-] T. unfold post_one, recordDrop, recordForward.
    repeat case_match; apply tallied_counters; auto.
Qed.

Lemma tallied_exec f b o s s' : exec f b o s = Some s' -> tallied f s -> tallied f s'.
Proof using.
  destruct o; simpl; intros Hx Ht.
  - injection Hx as <-. by apply tallied_spawn.
  - injection Hx as <-. unfold handleK8sEvent. destruct (classify start0 (i_engine s) body) eqn:Ec;
      try (by apply tallied_counters).
    destruct Ht as [T1 T2 T3 T4 T5]. split; simpl; rewrite ?sum_map_app, ?length_app; simpl; try lia. exact T5.
  - destruct (i_handlers s !! i) as [h|] eqn:Ei; [|done]. injection Hx as <-. by apply tallied_handler.
  - unfold worker_take in Hx. destruct (i_shards s !! k) as [[[|[j key] q] [w|]]|]; try done.
    injection Hx as <-. by eapply tallied_same; [..|exact Ht].
  - unfold worker_step in Hx. destruct (i_shards s !! k) as [[q [w|]]|]; try done.
    destruct (w_pc w); injection Hx as <-; try (by apply tallied_match);
      by eapply tallied_same; [..|exact Ht].
  - by eapply tallied_post.
Qed.

Lemma tallied_all f b ops e s : exec_all f b ops (start f e) = Some s -> tallied f s.
Proof using.
  assert (forall s0, tallied f s0 -> exec_all f b ops s0 = Some s -> tallied f s) as H0.
  { induction ops as [|o ops IH]; simpl; intros s0 Hs; [by intros [= <-]|].
    destruct (exec f b o s0) as [s1|] eqn:Ex; [|done]. intros Hr. eapply IH; [|exact Hr].
    by eapply tallied_exec. }
  apply H0. split; simpl; try done. destruct (forward_pool f); lia.
Qed.

Lemma queued_total f s : balanced f s ->
  sum_map (fun sh => Z.of_nat (length (sh_queue sh))) (i_shards s) <= num_workers f * per_shard f.
Proof using.
  intros [_ _ _ Hq Hn]. rewrite <- Hn. clear Hn. induction Hq as [|sh l Hs _ IH]; simpl; [lia|].
  rewrite Nat2Z.inj_succ. lia.
Qed.

Lemma taken_nonneg (l : list shard) : 0 <= sum_map taken_bytes l.
Proof using.
  transitivity (sum_map (fun _ : shard => 0) l); [by rewrite sum_map_zero|]. apply sum_map_le. intros sh.
  unfold taken_bytes. destruct (sh_worker sh) as [[[] j ?]|]; try pose proof (job_bytes_nonneg j); lia.
Qed.
Lemma reserved_nonneg (l : list handler) : 0 <= sum_map reserved l.
Proof using.
  transitivity (sum_map (fun _ : handler => 0) l); [by rewrite sum_map_zero|].
  apply sum_map_le. intros h. unfold reserved. pose proof (job_bytes_nonneg (hd_job h)). case_match; lia.
Qed.

(** However handlers and workers interleave, the waiting events never hold
    more bytes than the budget, nor does any shard hold more events than its
    share of the queue size; and when no handler or worker is between two
    operations, the two counters are exactly the number and the bytes of the
    waiting events. *)
Theorem intake_queue_bounded f b ops e s : exec_all f b ops (start f e) = Some s ->
  sum_map queue_bytes (i_shards s) <= max_bytes f /\
  Forall (fun sh => Z.of_nat (length (sh_queue sh)) <= per_shard f) (i_shards s) /\
  sum_map (fun sh => Z.of_nat (length (sh_queue sh))) (i_shards s) <= num_workers f * per_shard f /\
  (i_handlers s = [] -> Forall (fun sh => sh_worker sh = None) (i_shards s) ->
   i_depth s = sum_map (fun sh => Z.of_nat (length (sh_queue sh))) (i_shards s) /\
   i_bytes s = sum_map queue_bytes (i_shards s)).
Proof using.
  intros Hx. destruct (sound_all _ _ _ _ _ Hx) as [B _]. pose proof (queued_total f s B).
  destruct B as [A1 A2 A3 A4 A5]. pose proof (taken_nonneg (i_shards s)). pose proof (reserved_nonneg (i_handlers s)).
  unfold shard_bytes in A3. rewrite sum_map_add in A3.
  split; [lia|]. split; [done|]. split; [done|]. intros Hh Hw. rewrite Hh in A1, A2. simpl in A1, A2.
  rewrite A1, A2. clear -Hw. induction Hw as [|sh l Hs _ [IH1 IH2]]; simpl; [lia|].
  unfold shard_depth at 1, shard_bytes at 1, taken_bytes. rewrite Hs. lia.
Qed.

(** The jobs of one object, as accepted and as processed. *)
Definition accepted_of (key : string) (e : event) : option kubewatchJob :=
  match e with EvAccepted j k => if decide (k = key) then Some j else None | _ => None end.
Definition processed_of (key : string) (e : event) : option kubewatchJob :=
  match e with EvProcessed j k _ => if decide (k = key) then Some j else None | _ => None end.
Definition of_key (key : string) (jk : kubewatchJob * string) : option kubewatchJob :=
  if decide (jk.2 = key) then Some jk.1 else None.

Lemma of_key_on f key (l : list event) :
  omap (accepted_of key) l = omap (of_key key) (omap (accepted_on f (shard_of f key)) l) /\
  omap (processed_of key) l = omap (of_key key) (omap (processed_on f (shard_of f key)) l).
Proof using.
  induction l as [|e l [IH1 IH2]]; [done|].
  destruct e as [v|j k|j k|j k o|src|env|src err]; try (split; [exact IH1|exact IH2]).
  - split; [|exact IH2]. cbn. destruct (decide (k = key)) as [->|Hne].
    + rewrite decide_True by done. cbn. unfold of_key at 1. cbn. rewrite decide_True by done. by f_equal.
    + destruct (decide (shard_of f k = shard_of f key)); [|exact IH1]. cbn. unfold of_key at 1. cbn.
      rewrite decide_False by done. exact IH1.
  - split; [exact IH1|]. cbn. destruct (decide (k = key)) as [->|Hne].
    + rewrite decide_True by done. cbn. unfold of_key at 1. cbn. rewrite decide_True by done. by f_equal.
    + destruct (decide (shard_of f k = shard_of f key)); [|exact IH2]. cbn. unfold of_key at 1. cbn.
      rewrite decide_False by done. exact IH2.
Qed.

(** C23: The events of one object reach the trigger engine in the order they
    were accepted, none skipped and none twice, however the shards and the
    handlers run: what has been processed is a prefix of what was accepted,
    and the rest is waiting on the object's shard. *)
Theorem per_object_order f b ops e s key : exec_all f b ops (start f e) = Some s ->
  exists sh, i_shards s !! shard_of f key = Some sh /\
    omap (accepted_of key) (i_log s)
    = omap (processed_of key) (i_log s) ++ omap (of_key key) (pending sh).
Proof using.
  intros Hx. destruct (sound_all _ _ _ _ _ Hx) as [B O].
  destruct (lookup_lt_is_Some_2 (i_shards s) (shard_of f key) (shard_of_lt f key s B)) as [sh Hsh].
  exists sh. split; [done|]. destruct (O _ _ Hsh) as [Eo _].
  destruct (of_key_on f key (i_log s)) as [-> ->]. by rewrite Eo, omap_app.
Qed.

(** No kubewatch event disappears: every one that passed the header checks
    is accepted, shed or still being offered, the shed counter is the number
    of sheds at the queue and at the forward pool, and the pool never runs
    more goroutines than its size. *)
Theorem events_accounted f b ops e s : exec_all f b ops (start f e) = Some s ->
  sum_map ev_enqueued (i_log s)
  = sum_map ev_accepted (i_log s) + sum_map ev_shed (i_log s) + Z.of_nat (length (i_handlers s)) /\
  i_shed s = sum_map ev_shed (i_log s) + sum_map ev_forward_shed (i_log s) /\
  i_dropped s = sum_map ev_dropped (i_log s) /\
  i_unmatched s = sum_map ev_unmatched (i_log s) /\
  (forall n, forward_pool f = Some n -> 0 < n -> Z.of_nat (length (i_posting s)) <= n).
Proof using.
  intros Hx. destruct (tallied_all _ _ _ _ _ Hx) as [T1 T2 T3 T4 T5]. split_and!; try done.
  intros n Hn Hpos. rewrite Hn in T5. lia.
Qed.

(** The total the queue can hold is the configured size, or one event per
    worker if that is more. *)
Lemma queue_capacity f : let size := positive_or defaultKubewatchQueueSize (kwQueueSize f) in
  num_workers f * per_shard f <= Z.max size (num_workers f).
Proof using.
  pose proof (num_workers_pos f). unfold per_shard.
  set (size := positive_or _ _). pose proof (Z.mul_div_le size (num_workers f) ltac:(lia)). cbv zeta. nia.
Qed.
End intake.

(** ** A run of the intake with an engine that matches nothing *)
#[local] Instance idle_engine : TriggerEngine unit unit := {|
  MatchK8sEvent := fun _ _ _ _ _ e => Matched [] e;
  kind_filter := Some (fun kind _ => bool_decide (kind = "Pod"))
|}.
Definition q (s : string) : string := String (chr 34) (s +:+ String (chr 34) "").
Definition pod_event (name : string) : string :=
  "{" +:+ q "data" +:+ ":{" +:+ q "operation" +:+ ":" +:+ q "update" +:+ "," +:+ q "kind" +:+ ":" +:+ q "Pod"
  +:+ "," +:+ q "obj" +:+ ":{" +:+ q "metadata" +:+ ":{" +:+ q "name" +:+ ":" +:+ q name +:+ "}}}}".
Definition demo_fwd : FwdConfig := SetForwardPoolSize 2 (SetKubewatchQueue 2 2 0 (NewForwarder "" "" "a" "c")).
Definition demo_builder : Builder := MkBuilder "a" "c" None.
(** Three events of one pod arrive at once: one is processed, one waits and
    one finds the shard full. *)
Definition demo_ops : list op :=
  [OpEvent 1 (pod_event "p"); OpHandler 0; OpHandler 0; OpHandler 0;
   OpTake (shard_of demo_fwd "pod//p"); OpEvent 2 (pod_event "p"); OpEvent 3 (pod_event "p");
   OpHandler 0; OpHandler 1; OpHandler 0; OpHandler 0; OpHandler 0; OpHandler 0; OpHandler 0; OpHandler 0;
   OpWorker tt (shard_of demo_fwd "pod//p"); OpWorker tt (shard_of demo_fwd "pod//p");
   OpWorker tt (shard_of demo_fwd "pod//p"); OpAlert "{}"].
Definition demo_final : Intake (E := unit) :=
  default (start demo_fwd (Some tt))
    (exec_all (fun _ => None) (fun s => s) demo_fwd demo_builder demo_ops (start demo_fwd (Some tt))).
Lemma demo_runs :
  exec_all (fun _ => None) (fun s => s) demo_fwd demo_builder demo_ops (start demo_fwd (Some tt)) = Some demo_final.
Proof. vm_compute. reflexivity. Qed.

Lemma intake_queue_bounded_witness :
  i_depth demo_final = 1 /\ sum_map queue_bytes (i_shards demo_final) <= max_bytes demo_fwd.
Proof.
  split; [vm_compute; reflexivity|].
  apply (intake_queue_bounded (fun _ => None) (fun s => s) demo_fwd demo_builder demo_ops (Some tt) demo_final demo_runs).
Defined.

Lemma per_object_order_witness :
  length (omap (processed_of "pod//p") (i_log demo_final)) = 1%nat /\
  length (omap (accepted_of "pod//p") (i_log demo_final)) = 2%nat /\
  exists sh, i_shards demo_final !! shard_of demo_fwd "pod//p" = Some sh /\
    omap (accepted_of "pod//p") (i_log demo_final)
    = omap (processed_of "pod//p") (i_log demo_final) ++ omap (of_key "pod//p") (pending sh).
Proof.
  split; [vm_compute; reflexivity|]. split; [vm_compute; reflexivity|].
  apply (per_object_order (fun _ => None) (fun s => s) demo_fwd demo_builder demo_ops (Some tt) demo_final "pod//p" demo_runs).
Defined.

Lemma events_accounted_witness :
  i_shed demo_final = 1 /\
  sum_map ev_enqueued (i_log demo_final)
  = sum_map ev_accepted (i_log demo_final) + sum_map ev_shed (i_log demo_final)
    + Z.of_nat (length (i_handlers demo_final)).
Proof.
  split; [vm_compute; reflexivity|].
  apply (events_accounted (fun _ => None) (fun s => s) demo_fwd demo_builder demo_ops (Some tt) demo_final demo_runs).
Defined.
