(* ===== verification/AlertFlow.v ===== *)
(** * From the trigger engine to findings

    The adapter of cmd/agent/main.go makes the engine of pkg/triggers the
    [TriggerEngine] of the forwarder: the intake's theorems hold for it, and
    what it matches is what the findings say. *)

From S2P Require Import Prelude GoText GoJson GoStruct GoTime GoMarshal Lru RateLimit Churn Owner Engine EngineSafety Finding AlertIntake.

#[local] Set Default Proof Using "Type".

(** The clock readings of one call of [Match]. *)
Record clocks := MkClocks { c_rl : nat -> time; c_churn : nat -> time; c_now : time }.

(** One element of [triggerAdapter.MatchK8sEvent]'s result. *)
Definition adapt_match (sp : list MatcherSpec) (m : MatchResult) : option MatchedTrigger :=
  match sp !! m_spec m with
  | None => None
  | Some s =>
    let '(name, namespace, kind, node) := m_subject m in
    Some (MkTrigger (AggregationKey s) (Priority s) (FindingType s) (m_fingerprint m) (m_occurrence m)
            (MkFOwner (o_name (m_owner m)) (o_kind (m_owner m))) name namespace kind node (Name s)
            (map as_obj (m_extra m)))
  end.
Definition adapter_match (c : clocks) (operation kind : string) (obj oldObj : gomap) (e : Engine)
  : match_outcome Engine :=
  let '(ms, e') := Match (c_rl c) (c_churn c) (c_now c) (MkEvent operation kind obj oldObj) e in
  Matched (omap (adapt_match (specs e)) ms) e'.

#[export] Instance triggerAdapter : TriggerEngine Engine clocks := {|
  MatchK8sEvent := adapter_match;
  kind_filter := Some HandlesKind
|}.

(** ** Dropping a kind on the request path loses nothing *)
Lemma unhandled_loop now_rl now_churn now e i l ev r c :
  existsb (fun s => kindMatches (SpecKind s) (Kind ev)) l = false ->
  match_loop now_rl now_churn now e i l ev r c = ([], r, c).
Proof.
  revert i. induction l as [|s l IH]; intros i; cbn [existsb match_loop]; [done|].
  intros [Hs Hl]%orb_false_iff. unfold match_spec. rewrite Hs. simpl. by rewrite IH.
Qed.

(** An event of a kind that no matcher reads would match nothing and leave
    the engine as it is, so dropping it before the queue changes neither the
    findings nor any later match. *)
Theorem ignored_kinds_lose_nothing e kind : HandlesKind kind e = false ->
  (forall c operation obj oldObj,
     MatchK8sEvent c operation kind obj oldObj e = Matched [] e) /\
  (forall t body type data h, read_outer body = Some (type, data) -> type <> "cluster_snapshot" ->
     data <> "" -> read_head data = Some h -> h_kind h = kind ->
     classify t (Some e) body = IgnoredKind).
Proof.
  intros Hk. split.
  - intros c op obj oldObj. cbn. unfold adapter_match, Match. cbn [Obj].
    destruct obj; [|done]. rewrite unhandled_loop by exact Hk. by destruct e.
  - intros t body type data h Ho Ht Hd Hh <-. unfold classify. rewrite Ho.
    rewrite !bool_decide_false by done. rewrite Hh. cbn. by rewrite Hk.
Qed.

(** ** Findings say what was matched *)
Lemma adapter_inv c operation kind obj oldObj e ms e' mt :
  MatchK8sEvent c operation kind obj oldObj e = Matched ms e' -> mt ∈ ms ->
  exists i s, specs e !! i = Some s /\
    reaches_limiter (c_now c) e s (MkEvent operation kind obj oldObj) = true /\
    adapt_match (specs e) (build_match (c_now c) e i s (MkEvent operation kind obj oldObj)) = Some mt.
Proof.
  cbn. unfold adapter_match.
  destruct (Match (c_rl c) (c_churn c) (c_now c) (MkEvent operation kind obj oldObj) e) as [rs e2] eqn:Em.
  intros [= <- <-] (m & Hm & Ha)%list_elem_of_omap.
  pose (a := MkArrival (c_rl c) (c_churn c) (c_now c) (MkEvent operation kind obj oldObj)).
  assert (m ∈ matches a e) as Hin by (unfold matches; simpl; by rewrite Em).
  apply matches_inv in Hin as (i & s & Hs & -> & _ & Hr & _). eauto.
Qed.

(** Every finding posted for a Kubernetes event names the event: it carries
    the aggregation key, priority and type of a registered matcher whose kind,
    operation and predicate accept the event, the object's own name and
    namespace, and as service key the namespace with the owning workload, or
    with the object itself when it has none; an object without a name is an
    error and yields no finding. *)
Theorem finding_reports_its_match uuid b c operation kind obj oldObj e ms e' mt now fresh raw :
  MatchK8sEvent c operation kind obj oldObj e = Matched ms e' -> mt ∈ ms ->
  exists s, s ∈ specs e /\
    kindMatches (SpecKind s) kind = true /\ operationMatches (Operations s) operation = true /\
    predicate_holds (c_now c) s (MkEvent operation kind obj oldObj) (enrichContext e) = true /\
    let meta := get_obj obj "metadata" in
    if bool_decide (get_str meta "name" = "")
    then exists err, FromMatchedTrigger uuid b now fresh mt raw = Err err
    else exists env, FromMatchedTrigger uuid b now fresh mt raw = Ok env /\
      let fd := env_finding env in
      f_aggregation_key fd = AggregationKey s /\ f_priority fd = Priority s /\
      f_finding_type fd = FindingType s /\ f_failure fd = bool_decide (FindingType s = "issue") /\
      f_subject_name fd = get_str meta "name" /\ f_subject_namespace fd = get_str meta "namespace" /\
      f_subject_type fd = to_lower kind /\
      f_service_key fd = get_str meta "namespace" +:+ "/" +:+
        coalesce (o_name (ResolveOwner obj)) (get_str meta "name").
Proof.
  intros Hm Hin. destruct (adapter_inv _ _ _ _ _ _ _ _ _ Hm Hin) as (i & s & Hs & Hr & Ha).
  exists s. split; [by eapply list_elem_of_lookup_2|].
  unfold reaches_limiter in Hr. rewrite !andb_true_iff, !negb_true_iff in Hr.
  split; [tauto|]. split; [tauto|]. split; [tauto|].
  unfold adapt_match, build_match in Ha. cbn in Ha. rewrite Hs in Ha. injection Ha as <-.
  unfold FromMatchedTrigger. cbn.
  destruct (decide (get_str (get_obj obj "metadata") "name" = "")) as [Hn|Hn];
    [rewrite !(bool_decide_true _ Hn); eauto|rewrite !(bool_decide_false _ Hn)].
  eexists. split; [reflexivity|]. by cbn.
Qed.

(** ** Witnesses, with the one-matcher engine *)
Definition toy_clocks : clocks := MkClocks (fun _ => 5) (fun _ => 5) 5.
Definition toy_obj : gomap := Some [("phase", JStr "Failed"); ("metadata", JObj [("name", JStr "web-0"); ("namespace", JStr "prod")])].

Lemma ignored_kinds_lose_nothing_witness :
  HandlesKind "Secret" toy_engine = false /\
  MatchK8sEvent toy_clocks "update" "Secret" toy_obj None toy_engine = Matched [] toy_engine.
Proof.
  split; [vm_compute; reflexivity|].
  apply (ignored_kinds_lose_nothing toy_engine "Secret"). vm_compute. reflexivity.
Defined.

Definition toy_matches : list MatchedTrigger :=
  match MatchK8sEvent toy_clocks "update" "pod" toy_obj None toy_engine with
  | Matched ms _ => ms
  | Panicked _ => []
  end.

Lemma finding_reports_its_match_witness :
  exists mt, toy_matches = [mt] /\
  exists s, s ∈ specs toy_engine /\ kindMatches (SpecKind s) "pod" = true.
Proof.
  destruct (MatchK8sEvent toy_clocks "update" "pod" toy_obj None toy_engine) as [ms e'|e'] eqn:Em;
    [|vm_compute in Em; discriminate].
  assert (exists mt, toy_matches = [mt] /\ ms = [mt]) as (mt & Ht & Hms).
  { assert (toy_matches = ms) as E by (unfold toy_matches; by rewrite Em).
    assert (length ms = 1%nat) as Hl by (rewrite <- E; vm_compute; reflexivity).
    destruct ms as [|mt [|? ?]]; [done| |done]. by exists mt. }
  exists mt. split; [done|].
  destruct (finding_reports_its_match (fun s => s) (MkBuilder "acct" "c" None) toy_clocks "update" "pod" toy_obj None
    toy_engine ms e' mt 0 "id" "{}" Em) as (s & Hs & Hk & _); [rewrite Hms; by left|].
  by exists s.
Defined.
