(* ===== verification/PodShell.v ===== *)
(** * Pod shells (pkg/podshell/session.go)

    The manager's map holds references to sessions, which the stream
    goroutine and the handlers of several requests share; [heap] is that
    shared store and the map and the pending operations hold locations in it.
    A handler is cut between looking its session up, testing [closed], and the
    write to the pipe, which can block; the pieces of all requests and streams
    run in any order.  The pod lookups and the exec stream are the
    environment. *)

From S2P Require Import Prelude GoText GoJson Dispatch.

#[local] Set Default Proof Using "Type".

Definition IdleTimeout : duration := 10 * minute.
Definition CleanupInterval : duration := 1 * minute.

(** ** Choosing a container *)
Record pod := MkPod {
  p_name : string;
  p_namespace : string;
  p_annotations : list (string * string);
  p_containers : list string;
  p_phase : string
}.

Definition defaultContainerAnnotation : string := "kubectl.kubernetes.io/default-container".
Definition containerNames (p : pod) : list string := p_containers p.

Section resolve.
(** [%q] of an error text. *)
Variable quoted : string -> string.

Definition resolveContainer (p : pod) (want : string) : result string :=
  let names := containerNames p in
  match names with
  | [] => Err ("pod " +:+ p_namespace p +:+ "/" +:+ p_name p +:+ " has no containers")
  | first :: _ =>
    if negb (bool_decide (want = "")) then
      if bool_decide (want ∈ names) then Ok want
      else Err ("container " +:+ quoted want +:+ " not found in pod " +:+ p_namespace p +:+ "/"
                +:+ p_name p +:+ ", choose one of: " +:+ join ", " names)
    else
      let annotated := default "" (assoc defaultContainerAnnotation (p_annotations p)) in
      if negb (bool_decide (annotated = "")) && bool_decide (annotated ∈ names) then Ok annotated
      else Ok first
  end.

(** One poll of [waitRunning]: what the lookup returned and whether the
    deadline had passed by the next tick. *)
Record poll := MkPoll { po_pod : result pod; po_expired : bool }.
Fixpoint waitRunning (ns name : string) (polls : list poll) : option (result pod) :=
  match polls with
  | [] => None
  | o :: rest =>
    match po_pod o with
    | Ok p =>
      if bool_decide (p_phase p = "Running") then Some (Ok p)
      else if po_expired o then Some (Err ("pod " +:+ ns +:+ "/" +:+ name +:+ " not Running"))
      else waitRunning ns name rest
    | Err e =>
      if po_expired o then Some (Err ("pod " +:+ ns +:+ "/" +:+ name +:+ " not reachable: " +:+ e))
      else waitRunning ns name rest
    end
  end.

(** ** Sessions *)
Record session := MkSession {
  se_id : string;
  se_namespace : string;
  se_name : string;
  se_container : string;
  se_outBuf : string;
  se_closed : bool;
  (** The write end of stdin was closed, and the read end by the stream. *)
  se_stdin_closed : bool;
  se_cancelled : bool;
  se_lastUsed : time
}.

Definition touch (now : time) (s : session) : session :=
  MkSession (se_id s) (se_namespace s) (se_name s) (se_container s) (se_outBuf s) (se_closed s)
    (se_stdin_closed s) (se_cancelled s) now.
Definition with_out (out : string) (s : session) : session :=
  MkSession (se_id s) (se_namespace s) (se_name s) (se_container s) out (se_closed s)
    (se_stdin_closed s) (se_cancelled s) (se_lastUsed s).
(** [outWriter.Write]. *)
Definition out_write (now : time) (p : string) (s : session) : session :=
  touch now (with_out (se_outBuf s +:+ p) s).
(** [session.drain]. *)
Definition drain (now : time) (s : session) : string * bool * session :=
  (se_outBuf s, se_closed s, touch now (with_out "" s)).
(** [session.close]. *)
Definition close (s : session) : session :=
  MkSession (se_id s) (se_namespace s) (se_name s) (se_container s) (se_outBuf s) true true true (se_lastUsed s).
(** The end of the stream goroutine: a note unless it was cancelled. *)
Definition nl : string := String (chr 10) "".
Definition stream_note (err : option string) : string :=
  match err with
  | None => ""
  | Some e => nl +:+ "[stream closed: " +:+ e +:+ "]" +:+ nl
  end.
Definition stream_end (err : option string) (s : session) : session :=
  MkSession (se_id s) (se_namespace s) (se_name s) (se_container s) (se_outBuf s +:+ stream_note err) true
    true true (se_lastUsed s).

(** ** Requests and replies *)
Record Request := MkShellRequest {
  sr_action : string; sr_session_id : string; sr_name : string; sr_namespace : string;
  sr_command : string; sr_container : string
}.
Record ShellResponse := MkShellResponse {
  rs_session_id : string; rs_data : string; rs_exit : bool; rs_status : string; rs_error : string;
  rs_container : string; rs_containers : list string
}.
Definition error_reply (e : string) : ShellResponse := MkShellResponse "" "" false "" e "" [].
Definition exit_reply (id : string) : ShellResponse := MkShellResponse id "" true "" "" "" [].
Definition status_reply (id status : string) : ShellResponse := MkShellResponse id "" false status "" "" [].
Definition data_reply (id data : string) (closed : bool) : ShellResponse :=
  MkShellResponse id data closed "" "" "" [].

(** ** The manager and the goroutines around it *)
Inductive thread :=
| TWrite (l : nat) (id cmd : string)   (* handleExec holds the session *)
| TPipe (l : nat) (id cmd : string)    (* write saw it open *)
| TDrain (l : nat) (id : string).      (* handleRead holds the session *)

Inductive event :=
| EvReply (r : ShellResponse) (status : Z)
| EvOutput (l : nat) (p : string)
| EvDelivered (l : nat) (data : string)
| EvInput (l : nat) (cmd : string).

Record Manager := MkManager {
  m_client : bool;
  m_idle : duration;
  m_sessions : gmap string nat;
  m_heap : list session;
  m_threads : list thread;
  m_log : list event
}.

Definition NewManager (client : bool) : Manager := MkManager client IdleTimeout ∅ [] [] [].

Definition with_heap (h : list session) (m : Manager) : Manager :=
  MkManager (m_client m) (m_idle m) (m_sessions m) h (m_threads m) (m_log m).
Definition with_map (s : gmap string nat) (m : Manager) : Manager :=
  MkManager (m_client m) (m_idle m) s (m_heap m) (m_threads m) (m_log m).
Definition with_threads (t : list thread) (m : Manager) : Manager :=
  MkManager (m_client m) (m_idle m) (m_sessions m) (m_heap m) t (m_log m).
Definition log_ev (es : list event) (m : Manager) : Manager :=
  MkManager (m_client m) (m_idle m) (m_sessions m) (m_heap m) (m_threads m) (m_log m ++ es).
Definition reply (r : ShellResponse) (status : Z) (m : Manager) : Manager := log_ev [EvReply r status] m.

Definition update (l : nat) (f : session -> session) (m : Manager) : Manager :=
  with_heap (alter f l (m_heap m)) m.
Definition close_all (ls : list nat) (m : Manager) : Manager := foldr (fun l m => update l close m) m ls.

Definition dropAndClose (id : string) (m : Manager) : Manager :=
  match m_sessions m !! id with
  | None => m
  | Some l => update l close (with_map (delete id (m_sessions m)) m)
  end.

Definition idle_longer (now : time) (m : Manager) (l : nat) : bool :=
  match m_heap m !! l with
  | Some s => m_idle m <? time_sub now (se_lastUsed s)
  | None => false
  end.
Definition reap (now : time) (m : Manager) : Manager :=
  let expired := filter (fun kv => idle_longer now m kv.2 = true) (m_sessions m) in
  close_all (map_to_list expired).*2
    (with_map (filter (fun kv => idle_longer now m kv.2 <> true) (m_sessions m)) m).
Definition closeAll (m : Manager) : Manager :=
  close_all (map_to_list (m_sessions m)).*2 (with_map ∅ m).

(** [openSession] after the pod was found: [executor] is the error of
    [NewSPDYExecutor], if any. *)
Definition openSession (now : time) (fresh : string) (ns name want : string) (polls : list poll)
  (executor : option string) (m : Manager) : option (result (session * list string)) :=
  match waitRunning ns name polls with
  | None => None
  | Some r => Some (
    let? p := r in
    let? container := resolveContainer p want in
    match executor with
    | Some e => Err ("build SPDY executor: " +:+ e)
    | None => Ok (MkSession fresh ns name container "" false false false now, containerNames p)
    end)
  end.
Definition register (s : session) (m : Manager) : Manager :=
  with_map (<[se_id s := length (m_heap m)]> (m_sessions m)) (with_heap (m_heap m ++ [s]) m).

Definition handleStart (now : time) (fresh : string) (polls : list poll) (executor : option string)
  (r : Request) (m : Manager) : option Manager :=
  if bool_decide (sr_name r = "") || bool_decide (sr_namespace r = "") then
    Some (reply (error_reply "name and namespace required") 400 m)
  else if negb (m_client m) then
    Some (reply (error_reply "agent has no K8s client; pod_shell unavailable") 503 m)
  else
    match openSession now fresh (sr_namespace r) (sr_name r) (sr_container r) polls executor m with
    | None => None
    | Some (Err e) => Some (reply (error_reply e) 500 m)
    | Some (Ok (s, names)) =>
      Some (reply (MkShellResponse (se_id s) "" false "" "" (se_container s) names) 200 (register s m))
    end.

(** [handleExec], [handleRead] and [handleClose] up to the session's lock. *)
Definition handleExec (r : Request) (m : Manager) : Manager :=
  if bool_decide (sr_session_id r = "") then reply (error_reply "session_id required") 400 m
  else match m_sessions m !! sr_session_id r with
  | None => reply (exit_reply (sr_session_id r)) 200 m
  | Some l =>
    if bool_decide (trim_space (sr_command r) = "exit") then
      reply (exit_reply (sr_session_id r)) 200 (dropAndClose (sr_session_id r) m)
    else with_threads (m_threads m ++ [TWrite l (sr_session_id r) (sr_command r)]) m
  end.
Definition handleRead (r : Request) (m : Manager) : Manager :=
  if bool_decide (sr_session_id r = "") then reply (error_reply "session_id required") 400 m
  else match m_sessions m !! sr_session_id r with
  | None => reply (exit_reply (sr_session_id r)) 200 m
  | Some l => with_threads (m_threads m ++ [TDrain l (sr_session_id r)]) m
  end.
Definition handleClose (r : Request) (m : Manager) : Manager :=
  if bool_decide (sr_session_id r = "") then reply (error_reply "session_id required") 400 m
  else reply (exit_reply (sr_session_id r)) 200 (dropAndClose (sr_session_id r) m).

(** The rest of a request: [pipe] is whether the write to stdin succeeds,
    which it cannot once either end is closed. *)
Definition thread_step (now : time) (pipe : bool) (i : nat) (t : thread) (m : Manager) : Manager :=
  match t with
  | TWrite l id cmd =>
    match m_heap m !! l with
    | None => m
    | Some s =>
      if se_closed s then reply (status_reply id "busy") 200 (with_threads (delete i (m_threads m)) m)
      else with_threads (<[i := TPipe l id cmd]> (m_threads m)) m
    end
  | TPipe l id cmd =>
    match m_heap m !! l with
    | None => m
    | Some s =>
      if pipe && negb (se_stdin_closed s) then
        reply (status_reply id "accepted") 200 (log_ev [EvInput l cmd]
          (update l (touch now) (with_threads (delete i (m_threads m)) m)))
      else reply (status_reply id "busy") 200 (with_threads (delete i (m_threads m)) m)
    end
  | TDrain l id =>
    match m_heap m !! l with
    | None => m
    | Some s =>
      let '(data, closed, s') := drain now s in
      reply (data_reply id data closed) 200 (log_ev [EvDelivered l data]
        (update l (fun _ => s') (with_threads (delete i (m_threads m)) m)))
    end
  end.

Inductive op :=
| OpRequest (now : time) (fresh : string) (polls : list poll) (executor : option string) (r : Request)
| OpThread (now : time) (pipe : bool) (i : nat)
| OpOutput (now : time) (l : nat) (p : string)
| OpStreamEnd (l : nat) (err : option string)
| OpReap (now : time)
| OpShutdown.

(** [Handle]. *)
Definition Handle (now : time) (fresh : string) (polls : list poll) (executor : option string)
  (r : Request) (m : Manager) : option Manager :=
  if bool_decide (sr_action r = "start") then handleStart now fresh polls executor r m
  else if bool_decide (sr_action r = "exec") then Some (handleExec r m)
  else if bool_decide (sr_action r = "read") then Some (handleRead r m)
  else if bool_decide (sr_action r = "close") then Some (handleClose r m)
  else Some (reply (error_reply "Invalid action") 400 m).

Definition exec (o : op) (m : Manager) : option Manager :=
  match o with
  | OpRequest now fresh polls executor r =>
    (* uuid.NewString never repeats an id *)
    if bool_decide (Forall (fun s => se_id s <> fresh) (m_heap m)) then Handle now fresh polls executor r m
    else None
  | OpThread now pipe i =>
    match m_threads m !! i with Some t => Some (thread_step now pipe i t m) | None => None end
  | OpOutput now l p =>
    match m_heap m !! l with
    | Some s => Some (log_ev [EvOutput l p] (update l (out_write now p) m))
    | None => None
    end
  | OpStreamEnd l err =>
    match m_heap m !! l with
    | Some s => Some (log_ev [EvOutput l (stream_note err)] (update l (stream_end err) m))
    | None => None
    end
  | OpReap now => Some (reap now m)
  | OpShutdown => Some (closeAll m)
  end.
Fixpoint exec_all (ops : list op) (m : Manager) : option Manager :=
  match ops with
  | [] => Some m
  | o :: ops => match exec o m with Some m' => exec_all ops m' | None => None end
  end.
End resolve.

(** ** What a session printed, and what was delivered of it *)
Fixpoint printed (l : nat) (log : list event) : string :=
  match log with
  | [] => ""
  | EvOutput l' p :: log => (if decide (l' = l) then p else "") +:+ printed l log
  | _ :: log => printed l log
  end.
Fixpoint delivered (l : nat) (log : list event) : string :=
  match log with
  | [] => ""
  | EvDelivered l' p :: log => (if decide (l' = l) then p else "") +:+ delivered l log
  | _ :: log => delivered l log
  end.
Fixpoint inputs (l : nat) (log : list event) : nat :=
  match log with
  | [] => 0
  | EvInput l' _ :: log => (if decide (l' = l) then 1 else 0) + inputs l log
  | _ :: log => inputs l log
  end.

Lemma printed_app l a b : printed l (a ++ b) = printed l a +:+ printed l b.
Proof. induction a as [|[] a IH]; simpl; rewrite ?IH, ?sapp_assoc; done. Qed.
Lemma delivered_app l a b : delivered l (a ++ b) = delivered l a +:+ delivered l b.
Proof. induction a as [|[] a IH]; simpl; rewrite ?IH, ?sapp_assoc; done. Qed.
Lemma inputs_app l a b : inputs l (a ++ b) = (inputs l a + inputs l b)%nat.
Proof. induction a as [|[] a IH]; simpl; rewrite ?IH; lia. Qed.

(** ** The invariant *)
Record ok (m : Manager) : Prop := {
  ok_map : forall id l, m_sessions m !! id = Some l -> exists s, m_heap m !! l = Some s /\ se_id s = id;
  (** A session that left the map is closed, its stdin too. *)
  ok_gone : forall l s, m_heap m !! l = Some s -> m_sessions m !! se_id s = Some l \/
              se_closed s = true /\ se_stdin_closed s = true;
  ok_half : forall l s, m_heap m !! l = Some s -> se_closed s = se_stdin_closed s;
  ok_ids : forall l l' s s', m_heap m !! l = Some s -> m_heap m !! l' = Some s' -> se_id s = se_id s' -> l = l';
  ok_out : forall l s, m_heap m !! l = Some s -> printed l (m_log m) = delivered l (m_log m) +:+ se_outBuf s;
  ok_fresh : forall l, m_heap m !! l = None -> printed l (m_log m) = "" /\ delivered l (m_log m) = "";
  ok_threads : Forall (fun t => match t with TWrite l _ _ | TPipe l _ _ | TDrain l _ => is_Some (m_heap m !! l) end)
                 (m_threads m)
}.

(** Steps that change neither the store nor what sessions said. *)
Definition silent (e : event) : Prop := match e with EvOutput _ _ | EvDelivered _ _ => False | _ => True end.
Lemma silent_log l log : Forall silent log -> printed l log = "" /\ delivered l log = "".
Proof. induction 1 as [|e ? He ? [IH1 IH2]]; [done|]. by destruct e. Qed.

Lemma ok_quiet m m' log : m_sessions m' = m_sessions m -> m_heap m' = m_heap m ->
  (forall t, t ∈ m_threads m' -> t ∈ m_threads m \/
     match t with TWrite l _ _ | TPipe l _ _ | TDrain l _ => is_Some (m_heap m !! l) end) ->
  m_log m' = m_log m ++ log -> Forall silent log -> ok m -> ok m'.
Proof.
  intros Hs Hh Ht Hl Hn [A B C D E F G].
  split; rewrite ?Hs, ?Hh, ?Hl; auto.
  - intros l s Hls. destruct (silent_log l log Hn) as [P Q].
    rewrite printed_app, delivered_app, P, Q, !sapp_nil_r. auto.
  - intros l Hls. destruct (silent_log l log Hn) as [P Q].
    rewrite printed_app, delivered_app, P, Q, !sapp_nil_r. auto.
  - apply Forall_forall. intros t Hin. destruct (Ht t Hin) as [Hold|]; [|done].
    rewrite Forall_forall in G. by apply G.
Qed.

Lemma ok_reply r st m : ok m -> ok (reply r st m).
Proof.
  apply (ok_quiet m _ [EvReply r st]); try done; [by left|]. by apply Forall_singleton.
Qed.

(** One session changes; [out] and [dl] are what the step logs of it. *)
Lemma ok_session m m' l f log : m_sessions m' = m_sessions m -> m_heap m' = alter f l (m_heap m) ->
  (forall t, t ∈ m_threads m' -> t ∈ m_threads m) -> m_log m' = m_log m ++ log ->
  (forall s, m_heap m !! l = Some s -> se_id (f s) = se_id s /\
     (se_closed s = true -> se_closed (f s) = true) /\ (se_closed s = se_stdin_closed s -> se_closed (f s) = se_stdin_closed (f s)) /\
     se_outBuf s +:+ printed l log = delivered l log +:+ se_outBuf (f s)) ->
  (forall k, k <> l \/ m_heap m !! l = None -> printed k log = "" /\ delivered k log = "") ->
  ok m -> ok m'.
Proof.
  intros Hs Hh Ht Hl Hf Hk [A B C D E F G].
  assert (forall k s', m_heap m' !! k = Some s' ->
    exists s, m_heap m !! k = Some s /\ (k = l /\ s' = f s \/ k <> l /\ s' = s)) as Hlook.
  { intros k s' Hks. rewrite Hh in Hks. destruct (decide (k = l)) as [->|Hne].
    - rewrite list_lookup_alter_eq in Hks. destruct (m_heap m !! l) as [s|]; [|done].
      injection Hks as <-. exists s. auto.
    - rewrite list_lookup_alter_ne in Hks by done. exists s'. auto. }
  assert (forall k s', m_heap m' !! k = Some s' -> exists s, m_heap m !! k = Some s /\ se_id s' = se_id s /\
    (se_closed s = true -> se_closed s' = true) /\ se_closed s' = se_stdin_closed s') as Hview.
  { intros k s' (s & Hks & [[-> ->]|[_ ->]])%Hlook; exists s.
    - destruct (Hf s Hks) as (? & ? & Hcc & _). split_and!; eauto.
    - split_and!; eauto. }
  split.
  - rewrite Hs. intros id k Hid. destruct (A id k Hid) as (s & Hks & <-). rewrite Hh.
    destruct (decide (k = l)) as [->|Hne].
    + rewrite list_lookup_alter_eq, Hks. simpl. eexists. split; [reflexivity|]. by apply Hf.
    + rewrite list_lookup_alter_ne by done. eauto.
  - intros k s' Hks'. destruct (Hview k s' Hks') as (s & Hks & Hid & Hc & Hh2). rewrite Hs, Hid, <- Hh2.
    destruct (B k s Hks) as [|[? ?]]; [by left|right; auto].
  - intros k s' Hks'. by destruct (Hview k s' Hks') as (s & _ & _ & _ & ?).
  - intros k k' s1 s2 H1 H2 Heq. destruct (Hview _ _ H1) as (t1 & T1 & E1 & _), (Hview _ _ H2) as (t2 & T2 & E2 & _).
    eapply D; eauto. congruence.
  - intros k s' (s & Hks & [[-> ->]|[Hne ->]])%Hlook; rewrite Hl, printed_app, delivered_app.
    + destruct (Hf s Hks) as (_ & _ & _ & Ho). rewrite (E l s Hks), !sapp_assoc. by rewrite Ho.
    + destruct (Hk k (or_introl Hne)) as [-> ->]. rewrite !sapp_nil_r. auto.
  - intros k Hks. rewrite Hl, printed_app, delivered_app.
    assert (m_heap m !! k = None) as Hn.
    { destruct (m_heap m !! k) as [s|] eqn:E0; [|done]. exfalso.
      apply lookup_ge_None in Hks. apply lookup_lt_Some in E0. rewrite Hh, length_alter in Hks. lia. }
    destruct (F k Hn) as [-> ->]. destruct (Hk k) as [-> ->]; [|done].
    destruct (decide (k = l)) as [->|]; [by right|by left].
  - apply Forall_forall. intros t Hin. rewrite Forall_forall in G. specialize (G t (Ht t Hin)).
    assert (forall k, is_Some (m_heap m !! k) -> is_Some (m_heap m' !! k)) as Hsome.
    { intros k Hsk. rewrite Hh. apply lookup_lt_is_Some. rewrite length_alter. by apply lookup_lt_is_Some. }
    destruct t; auto.
Qed.

(** Closing keeps the invariant, and closed sessions may leave the map. *)
Lemma ok_close l m : ok m -> ok (update l close m).
Proof.
  apply (ok_session m _ l close []); try done; [by rewrite app_nil_r|].
  intros s Hs. simpl. by rewrite sapp_nil_r.
Qed.
Lemma ok_close_all ls m : ok m -> ok (close_all ls m).
Proof. intros H. induction ls as [|l ls IH]; [done|]. simpl. by apply ok_close. Qed.

Lemma close_all_map ls s m : close_all ls (with_map s m) = with_map s (close_all ls m).
Proof. induction ls as [|l ls IH]; [done|]. simpl. by rewrite IH. Qed.
Lemma close_all_fields ls m : m_sessions (close_all ls m) = m_sessions m /\ m_threads (close_all ls m) = m_threads m /\
  m_log (close_all ls m) = m_log m /\ m_idle (close_all ls m) = m_idle m /\ length (m_heap (close_all ls m)) = length (m_heap m).
Proof.
  induction ls as [|l ls (IH1 & IH2 & IH3 & IH4 & IH5)]; [done|]. simpl. rewrite length_alter. done.
Qed.
Lemma close_all_lookup ls m l : m_heap (close_all ls m) !! l
  = (if decide (l ∈ ls) then close else id) <$> m_heap m !! l.
Proof.
  induction ls as [|k ls IH].
  - destruct (decide (l ∈ [])); [set_solver|]. simpl. by destruct (m_heap m !! l).
  - cbn [close_all foldr update with_heap m_heap]. fold (close_all ls m). rewrite list_lookup_alter.
    destruct (decide (k = l)) as [->|Hne].
    + destruct (decide (l ∈ l :: ls)); [|set_solver]. rewrite IH. case_decide; by destruct (m_heap m !! l).
    + rewrite IH. destruct (decide (l ∈ ls)), (decide (l ∈ k :: ls)); set_solver.
Qed.

Lemma ok_restrict s' m : s' ⊆ m_sessions m ->
  (forall id l, m_sessions m !! id = Some l -> s' !! id = None ->
     exists s, m_heap m !! l = Some s /\ se_closed s = true /\ se_stdin_closed s = true) ->
  ok m -> ok (with_map s' m).
Proof.
  intros Hsub Hgone [A B C D E F G]. split; simpl; auto.
  - intros id l Hid. apply A. by eapply lookup_weaken.
  - intros l s Hls. destruct (B l s Hls) as [Hm|?]; [|by right].
    destruct (s' !! se_id s) as [l'|] eqn:El; [left|right].
    + pose proof (lookup_weaken _ _ _ _ El Hsub). congruence.
    + destruct (Hgone _ _ Hm El) as (s0 & Hs0 & ?). congruence.
Qed.

Lemma ok_drop id m : ok m -> ok (dropAndClose id m).
Proof.
  intros H. unfold dropAndClose. destruct (m_sessions m !! id) as [l|] eqn:Eid; [|done].
  change (ok (with_map (delete id (m_sessions m)) (update l close m))).
  apply ok_restrict; [apply delete_subseteq| |by apply ok_close].
  simpl. intros id' l' H1 H2. apply lookup_delete_None in H2 as [<-|H2]; [|congruence].
  assert (l' = l) as -> by congruence. destruct (ok_map m H id l Eid) as (s & Hs & _).
  rewrite list_lookup_alter_eq, Hs. simpl. eauto.
Qed.

Lemma ok_reap now m : ok m -> ok (reap now m).
Proof.
  intros H. unfold reap. rewrite close_all_map.
  set (ls := (map_to_list (filter (fun kv => idle_longer now m kv.2 = true) (m_sessions m))).*2).
  destruct (close_all_fields ls m) as (Hm & _). apply ok_restrict; [| |by apply ok_close_all].
  - rewrite Hm. apply map_filter_subseteq.
  - rewrite Hm. intros id l Hid Hno. destruct (ok_map m H id l Hid) as (s & Hs & _).
    assert (l ∈ ls) as Hin.
    { unfold ls. apply list_elem_of_fmap. exists (id, l). split; [done|]. apply elem_of_map_to_list.
      apply map_lookup_filter_Some. split; [done|].
      apply map_lookup_filter_None in Hno as [Hn|Hn]; [congruence|]. specialize (Hn l Hid). simpl in *.
      by destruct (idle_longer now m l); [|destruct Hn]. }
    rewrite close_all_lookup, decide_True, Hs by done. simpl. eauto.
Qed.

Lemma ok_shutdown m : ok m -> ok (closeAll m).
Proof.
  intros H. unfold closeAll. rewrite close_all_map. set (ls := (map_to_list (m_sessions m)).*2).
  destruct (close_all_fields ls m) as (Hm & _).
  apply ok_restrict; [apply map_empty_subseteq| |by apply ok_close_all].
  rewrite Hm. intros id l Hid _. destruct (ok_map m H id l Hid) as (s & Hs & _).
  assert (l ∈ ls) as Hin.
  { unfold ls. apply list_elem_of_fmap. exists (id, l). split; [done|]. by apply elem_of_map_to_list. }
  rewrite close_all_lookup, decide_True, Hs by done. simpl. eauto.
Qed.

Lemma ok_register s m : Forall (fun s' => se_id s' <> se_id s) (m_heap m) -> se_outBuf s = "" ->
  se_closed s = se_stdin_closed s -> ok m -> ok (register s m).
Proof.
  intros Hf Ho Hc [A B C D E F G].
  assert (forall l s', (m_heap m ++ [s]) !! l = Some s' ->
    m_heap m !! l = Some s' /\ se_id s' <> se_id s \/ l = length (m_heap m) /\ s' = s) as Hlook.
  { intros l s' Hl. apply lookup_app_Some in Hl as [Hl|[Hge Hl]].
    - left. split; [done|]. rewrite Forall_lookup in Hf. by eapply Hf.
    - apply list_lookup_singleton_Some in Hl as [Hz <-]. right. split; [lia|done]. }
  split; simpl.
  - intros id l Hid. apply lookup_insert_Some in Hid as [[<- <-]|[Hne Hid]].
    + rewrite lookup_app_r, Nat.sub_diag by lia. simpl. eauto.
    + destruct (A id l Hid) as (s' & Hs' & <-). exists s'. split; [|done].
      by rewrite lookup_app_l by (by eapply lookup_lt_Some).
  - intros l s' [[Hl Hne]|[-> ->]]%Hlook; [|left; apply lookup_insert_eq].
    rewrite lookup_insert_ne by done. eauto.
  - intros l s' [[Hl _]|[-> ->]]%Hlook; eauto.
  - intros l l' s1 s2 [[H1 N1]|[-> ->]]%Hlook [[H2 N2]|[-> ->]]%Hlook Heq; eauto; congruence.
  - intros l s' [[Hl _]|[-> ->]]%Hlook; [eauto|]. rewrite Ho, sapp_nil_r.
    destruct (F (length (m_heap m))) as [-> ->]; [apply lookup_ge_None; lia|done].
  - intros l Hl. apply F. apply lookup_ge_None. apply lookup_ge_None in Hl. rewrite length_app in Hl. lia.
  - eapply Forall_impl; [exact G|]. intros t Ht.
    assert (forall k, is_Some (m_heap m !! k) -> is_Some ((m_heap m ++ [s]) !! k)) as Hs.
    { intros k [x Hx]. exists x. by apply lookup_app_l_Some. }
    destruct t; auto.
Qed.

Section steps.
Variable quoted : string -> string.
#[local] Abbreviation exec := (exec quoted).
#[local] Abbreviation exec_all := (exec_all quoted).

Lemma ok_with_threads ts m :
  (forall t, t ∈ ts -> t ∈ m_threads m \/
     match t with TWrite l _ _ | TPipe l _ _ | TDrain l _ => is_Some (m_heap m !! l) end) ->
  ok m -> ok (with_threads ts m).
Proof using.
  intros Ht. apply (ok_quiet m _ []); [done|done|exact Ht|simpl; by rewrite app_nil_r|constructor].
Qed.
Lemma ok_leave i m : ok m -> ok (with_threads (delete i (m_threads m)) m).
Proof using. apply ok_with_threads. intros t Ht. left. by eapply list_elem_of_delete_inv. Qed.

Lemma ok_thread now pipe i t m : m_threads m !! i = Some t -> ok m -> ok (thread_step now pipe i t m).
Proof using.
  intros Hi H. destruct t as [l id cmd|l id cmd|l id]; unfold thread_step;
    destruct (m_heap m !! l) as [s|] eqn:El; try done.
  - destruct (se_closed s); [by apply ok_reply, ok_leave|]. apply ok_with_threads; [|done].
    intros t Ht. apply list_elem_of_lookup in Ht as [j Hj].
    apply list_lookup_insert_Some in Hj as [(<- & <- & _)|[_ Hj]]; [right; eauto|].
    left. by eapply list_elem_of_lookup_2.
  - destruct (pipe && negb (se_stdin_closed s)); [|by apply ok_reply, ok_leave].
    apply ok_reply. eapply (ok_session m _ l (touch now) [EvInput l cmd]); [done|done| |done| |done|done].
    + intros t Ht. eapply list_elem_of_delete_inv, Ht.
    + intros s' Hs'. simpl. by rewrite sapp_nil_r.
  - cbn [drain]. apply ok_reply.
    eapply (ok_session m _ l (fun _ => touch now (with_out "" s)) [EvDelivered l (se_outBuf s)]);
      [done|done| |done| | |done].
    + intros t Ht. eapply list_elem_of_delete_inv, Ht.
    + intros s' Hs'. assert (s' = s) as -> by congruence. simpl.
      rewrite decide_True, !sapp_nil_r by done. done.
    + intros k Hk. simpl. split; [done|]. rewrite decide_False, sapp_nil_r; [done|].
      intros ->. destruct Hk as [?|Hk]; congruence.
Qed.

Lemma ok_output m l s p f : m_heap m !! l = Some s ->
  (se_id (f s) = se_id s /\ (se_closed s = true -> se_closed (f s) = true) /\
   (se_closed s = se_stdin_closed s -> se_closed (f s) = se_stdin_closed (f s)) /\
   se_outBuf (f s) = se_outBuf s +:+ p) ->
  ok m -> ok (log_ev [EvOutput l p] (update l f m)).
Proof using.
  intros Hl (F1 & F2 & F3 & F4). eapply (ok_session m _ l f [EvOutput l p]); [done|done|done|done|..].
  - intros s' Hs'. assert (s' = s) as -> by congruence. simpl.
    rewrite decide_True, sapp_nil_r by done. by rewrite F4.
  - intros k Hk. simpl. split; [|done]. rewrite decide_False, sapp_nil_r; [done|].
    intros ->. destruct Hk as [?|Hk]; congruence.
Qed.

Lemma handle_ok now fresh polls executor r m m' :
  Forall (fun s => se_id s <> fresh) (m_heap m) ->
  Handle quoted now fresh polls executor r m = Some m' -> ok m -> ok m'.
Proof using.
  intros Hf Hh H. unfold Handle in Hh.
  assert (forall t, match t with TWrite l _ _ | TPipe l _ _ | TDrain l _ => is_Some (m_heap m !! l) end ->
    ok (with_threads (m_threads m ++ [t]) m)) as Hadd.
  { intros t Ht. apply ok_with_threads; [|done].
    intros t' [?| ->%list_elem_of_singleton]%elem_of_app; auto. }
  assert (forall id l, m_sessions m !! id = Some l -> is_Some (m_heap m !! l)) as Hsome.
  { intros id l Hid. destruct (ok_map m H id l Hid) as (s & Hs & _). eauto. }
  repeat case_bool_decide.
  - unfold handleStart in Hh. destruct (_ || _); [injection Hh as <-; by apply ok_reply|].
    destruct (negb _); [injection Hh as <-; by apply ok_reply|].
    unfold openSession in Hh. destruct (waitRunning _ _ _) as [[p|e]|]; [| |done].
    2: { simpl in Hh. injection Hh as <-. by apply ok_reply. }
    simpl in Hh. destruct (resolveContainer quoted p (sr_container r)) as [c|e]; simpl in Hh.
    2: { injection Hh as <-. by apply ok_reply. }
    destruct executor; injection Hh as <-; [by apply ok_reply|]. apply ok_reply. by apply ok_register.
  - injection Hh as <-. unfold handleExec. case_bool_decide; [by apply ok_reply|].
    destruct (m_sessions m !! sr_session_id r) as [l|] eqn:El; [|by apply ok_reply].
    case_bool_decide; [by apply ok_reply, ok_drop|]. apply Hadd. eauto.
  - injection Hh as <-. unfold handleRead. case_bool_decide; [by apply ok_reply|].
    destruct (m_sessions m !! sr_session_id r) as [l|] eqn:El; [|by apply ok_reply]. apply Hadd. eauto.
  - injection Hh as <-. unfold handleClose. case_bool_decide; [by apply ok_reply|]. by apply ok_reply, ok_drop.
  - injection Hh as <-. by apply ok_reply.
Qed.

Lemma ok_exec o m m' : exec o m = Some m' -> ok m -> ok m'.
Proof using.
  destruct o as [now fresh polls executor r|now pipe i|now l p|l err|now|]; simpl; intros Hx H.
  - case_bool_decide as Hf; [|done]. by eapply handle_ok.
  - destruct (m_threads m !! i) as [t|] eqn:Ei; [|done]. injection Hx as <-. by apply ok_thread.
  - destruct (m_heap m !! l) as [s|] eqn:El; [|done]. injection Hx as <-. by eapply ok_output.
  - destruct (m_heap m !! l) as [s|] eqn:El; [|done]. injection Hx as <-. by eapply ok_output.
  - injection Hx as <-. by apply ok_reap.
  - injection Hx as <-. by apply ok_shutdown.
Qed.

Lemma ok_run ops m m' : exec_all ops m = Some m' -> ok m -> ok m'.
Proof using.
  revert m. induction ops as [|o ops IH]; simpl; intros m Hx H; [by injection Hx as <-|].
  destruct (exec o m) as [m1|] eqn:E; [|done]. eapply IH; [exact Hx|]. by eapply ok_exec.
Qed.
Lemma ok_new client : ok (NewManager client).
Proof using. split; simpl; try done; intros; try set_solver; by rewrite lookup_empty in *. Qed.

(** C24: Whatever the order of requests, shell output and sweeps, everything a
    shell prints is delivered by the reads of its session exactly once and in
    order: the data of all reads so far, followed by what is still in the
    buffer, is the whole output (with the closing note of the stream). *)
Theorem shell_output_delivered_once client ops m l s :
  exec_all ops (NewManager client) = Some m -> m_heap m !! l = Some s ->
  printed l (m_log m) = delivered l (m_log m) +:+ se_outBuf s.
Proof using. intros Hx. apply (ok_out m). eapply ok_run; [exact Hx|apply ok_new]. Qed.

(** ** Closed sessions stay closed *)
Definition shut (m : Manager) (l : nat) : Prop :=
  exists s, m_heap m !! l = Some s /\ se_closed s = true /\ se_stdin_closed s = true.

Lemma shut_alter m l k f : (forall s, se_closed s = true -> se_stdin_closed s = true ->
    se_closed (f s) = true /\ se_stdin_closed (f s) = true) -> shut m l -> shut (update k f m) l.
Proof using.
  intros Hf (s & Hs & Hc & Hd). unfold shut, update. simpl. rewrite list_lookup_alter.
  destruct (decide (k = l)) as [->|]; [|eauto]. rewrite Hs. simpl. destruct (Hf s Hc Hd). eauto.
Qed.
Lemma shut_close_all ls m l : shut m l -> shut (close_all ls m) l.
Proof using. intros H. induction ls as [|k ls IH]; [done|]. simpl. by apply shut_alter. Qed.

Lemma shut_thread now pipe i t m l : shut m l ->
  shut (thread_step now pipe i t m) l /\ inputs l (m_log (thread_step now pipe i t m)) = inputs l (m_log m).
Proof using.
  intros H. destruct t as [k id cmd|k id cmd|k id]; unfold thread_step; destruct (m_heap m !! k) as [s|] eqn:Ek; try done.
  - destruct (se_closed s); simpl; rewrite ?inputs_app; simpl; split; try done; lia.
  - destruct (pipe && negb (se_stdin_closed s)) eqn:Ep; simpl; rewrite ?inputs_app; simpl; [|split; [done|lia]].
    assert (k <> l) as Hne.
    { intros ->. destruct H as (s' & Hs' & _ & Hd). assert (s' = s) as -> by congruence.
      rewrite Hd, andb_false_r in Ep. done. }
    split; [|rewrite decide_False by done; lia]. by apply (shut_alter m l k (touch now)).
  - simpl. rewrite !inputs_app. simpl. split; [|lia].
    destruct H as (s' & Hs' & Hc & Hd). unfold shut. simpl. rewrite list_lookup_alter.
    destruct (decide (k = l)) as [->|]; [|eauto]. rewrite Hs'. simpl.
    assert (s' = s) as -> by congruence. eauto.
Qed.

Lemma shut_handle now fresh polls executor r m m' l :
  Handle quoted now fresh polls executor r m = Some m' -> shut m l ->
  shut m' l /\ inputs l (m_log m') = inputs l (m_log m).
Proof using.
  assert (forall x st, inputs l (m_log (reply x st m)) = inputs l (m_log m)) as Hr.
  { intros x st. simpl. rewrite inputs_app. simpl. lia. }
  assert (forall id, shut m l -> shut (dropAndClose id m) l /\ m_log (dropAndClose id m) = m_log m) as Hdrop.
  { intros id H. unfold dropAndClose. destruct (m_sessions m !! id) as [k|]; [|done].
    split; [|done]. by apply (shut_alter (with_map (delete id (m_sessions m)) m) l k close). }
  intros Hh H. unfold Handle in Hh. repeat case_bool_decide.
  - unfold handleStart in Hh. repeat (case_match; try done); simplify_eq; try (split; [exact H|apply Hr]).
    split; [|apply Hr]. destruct H as (s0 & Hs & Hc & Hd). exists s0. simpl.
    rewrite lookup_app_l by (by eapply lookup_lt_Some). done.
  - injection Hh as <-. unfold handleExec. repeat (case_match; try done);
      try (split; [exact H|apply Hr]).
    simpl. rewrite inputs_app. destruct (Hdrop (sr_session_id r) H) as [? ->]. simpl. split; [done|lia].
  - injection Hh as <-. unfold handleRead. repeat (case_match; try done); split; try exact H; apply Hr.
  - injection Hh as <-. unfold handleClose. case_match; [split; [exact H|apply Hr]|].
    simpl. rewrite inputs_app. destruct (Hdrop (sr_session_id r) H) as [? ->]. simpl. split; [done|lia].
  - injection Hh as <-. split; [exact H|apply Hr].
Qed.

Lemma shut_exec o m m' l : exec o m = Some m' -> shut m l ->
  shut m' l /\ inputs l (m_log m') = inputs l (m_log m).
Proof using.
  destruct o as [now fresh polls executor r|now pipe i|now k p|k err|now|]; simpl; intros Hx H.
  - case_bool_decide; [|done]. by eapply shut_handle.
  - destruct (m_threads m !! i) as [t|] eqn:Ei; [|done]. injection Hx as <-. by apply shut_thread.
  - destruct (m_heap m !! k); [|done]. injection Hx as <-. simpl. rewrite inputs_app. simpl.
    split; [by apply shut_alter|lia].
  - destruct (m_heap m !! k); [|done]. injection Hx as <-. simpl. rewrite inputs_app. simpl.
    split; [by apply shut_alter|lia].
  - injection Hx as <-. unfold reap. rewrite close_all_map. simpl.
    destruct (close_all_fields ((map_to_list (filter (fun kv => idle_longer now m kv.2 = true) (m_sessions m))).*2) m)
      as (_ & _ & -> & _). split; [by apply shut_close_all|done].
  - injection Hx as <-. unfold closeAll. rewrite close_all_map. simpl.
    destruct (close_all_fields ((map_to_list (m_sessions m)).*2) m) as (_ & _ & -> & _).
    split; [by apply shut_close_all|done].
Qed.

(** A session that was closed, reaped, exited or whose stream ended never
    takes input again, and a session that is no longer in the map is closed:
    a request that still holds it after that cannot reach the shell. *)
Theorem closed_shell_takes_no_input client ops m l s ops' m' :
  exec_all ops (NewManager client) = Some m -> m_heap m !! l = Some s ->
  se_closed s = true \/ m_sessions m !! se_id s <> Some l ->
  exec_all ops' m = Some m' -> inputs l (m_log m') = inputs l (m_log m).
Proof using.
  intros Hx Hl Hc. pose proof (ok_run _ _ _ Hx (ok_new client)) as H.
  assert (shut m l) as Hs.
  { exists s. split; [done|]. destruct (ok_gone m H l s Hl) as [Hm|?]; [|done].
    destruct Hc as [Hc|?]; [|done]. rewrite <- (ok_half m H l s Hl). done. }
  clear Hx Hl Hc H. revert m Hs. induction ops' as [|o ops' IH]; simpl; intros m Hs Hx; [by injection Hx as <-|].
  destruct (exec o m) as [m1|] eqn:E; [|done]. destruct (shut_exec o m m1 l E Hs) as [Hs1 <-]. by apply IH.
Qed.

(** ** The reaper *)

(** A sweep closes and forgets exactly the sessions idle for longer than
    the timeout and leaves every other session in place. *)
Theorem reaper_exact client ops m now : exec_all ops (NewManager client) = Some m ->
  forall id l s, m_sessions m !! id = Some l -> m_heap m !! l = Some s ->
    if m_idle m <? time_sub now (se_lastUsed s)
    then m_sessions (reap now m) !! id = None /\ shut (reap now m) l
    else m_sessions (reap now m) !! id = Some l /\ m_heap (reap now m) !! l = Some s.
Proof using.
  intros Hx id l s Hid Hl. pose proof (ok_run _ _ _ Hx (ok_new client)) as H.
  unfold reap. rewrite close_all_map. simpl. set (ls := _.*2).
  assert (l ∈ ls <-> idle_longer now m l = true) as Hin.
  { unfold ls. rewrite list_elem_of_fmap. split.
    - intros ([id' l'] & -> & Hin%elem_of_map_to_list). apply map_lookup_filter_Some in Hin. simpl in *. tauto.
    - intros Hi. exists (id, l). split; [done|]. apply elem_of_map_to_list, map_lookup_filter_Some. done. }
  unfold shut. simpl. rewrite close_all_lookup, Hl.
  unfold idle_longer in Hin at 1. rewrite Hl in Hin.
  destruct (m_idle m <? time_sub now (se_lastUsed s)) eqn:E.
  - rewrite decide_True by (by apply Hin). split; [|simpl; eauto].
    apply map_lookup_filter_None. right. intros l' Hl'. assert (l' = l) as -> by congruence.
    simpl. unfold idle_longer. rewrite Hl, E. auto.
  - rewrite decide_False by (rewrite Hin; done). split; [|done].
    apply map_lookup_filter_Some. split; [done|]. simpl. unfold idle_longer. by rewrite Hl, E.
Qed.

(** A session whose shell keeps printing is never reaped, however long ago
    the last exec or read was: output refreshes the idle clock.  The package
    comment defines idle as no exec or read for the timeout. *)
Theorem printing_session_not_reaped client ops m id l s t p m1 now :
  exec_all ops (NewManager client) = Some m ->
  m_sessions m !! id = Some l -> m_heap m !! l = Some s ->
  exec (OpOutput t l p) m = Some m1 -> time_sub now t <= m_idle m ->
  m_sessions (reap now m1) !! id = Some l.
Proof using.
  intros Hx Hid Hl Ho Ht. simpl in Ho. rewrite Hl in Ho. injection Ho as <-.
  unfold reap. rewrite close_all_map. simpl. apply map_lookup_filter_Some. split; [done|].
  simpl. unfold idle_longer. simpl. rewrite list_lookup_alter_eq, Hl. simpl.
  destruct (Z.ltb_spec (m_idle m) (time_sub now t)); [lia|done].
Qed.

(** An exec sent to a session whose shell has ended is answered busy and
    not exit, although the comment in the handler says that an ended session
    answers exit so that the UI reconnects: only a read reports it. *)
Theorem exec_on_ended_shell_says_busy m id l s r err now fresh polls executor :
  m_sessions m !! id = Some l -> m_heap m !! l = Some s -> m_threads m = [] ->
  Forall (fun s' => se_id s' <> fresh) (m_heap m) ->
  sr_action r = "exec" -> sr_session_id r = id -> id <> "" -> trim_space (sr_command r) <> "exit" ->
  exists m', exec_all [OpStreamEnd l err; OpRequest now fresh polls executor r; OpThread now true 0] m = Some m' /\
    m_log m' = m_log m ++ [EvOutput l (stream_note err); EvReply (status_reply id "busy") 200].
Proof using.
  intros Hid Hl Ht Hf Ha Hs Hne Hc.
  cbn [exec_all PodShell.exec]. rewrite Hl.
  rewrite bool_decide_true.
  2: { simpl. apply Forall_lookup. intros k s' Hk. rewrite list_lookup_alter in Hk. rewrite Forall_lookup in Hf.
       destruct (decide (l = k)) as [->|]; [|by eapply Hf]. rewrite Hl in Hk. injection Hk as <-. simpl. by eapply Hf. }
  unfold Handle. rewrite Ha. simpl bool_decide.
  unfold handleExec. rewrite Hs, (bool_decide_false (id = "")) by done. simpl m_sessions. rewrite Hid.
  rewrite (bool_decide_false (trim_space _ = _)) by done. simpl m_threads. rewrite Ht. simpl.
  unfold thread_step. simpl. rewrite list_lookup_alter_eq, Hl. simpl.
  eexists. split; [reflexivity|]. simpl. by rewrite <- app_assoc.
Qed.

(** ** Requests that cannot be served *)

(** Why a start fails, as its reply says, and the status it carries. *)
Definition start_failure (polls : list poll) (executor : option string) (r : Request) (m : Manager)
  : option (string * Z) :=
  if bool_decide (sr_name r = "") || bool_decide (sr_namespace r = "") then Some ("name and namespace required", 400)
  else if negb (m_client m) then Some ("agent has no K8s client; pod_shell unavailable", 503)
  else match waitRunning (sr_namespace r) (sr_name r) polls with
  | None => None
  | Some (Err e) => Some (e, 500)
  | Some (Ok p) =>
    match resolveContainer quoted p (sr_container r), executor with
    | Err e, _ => Some (e, 500)
    | Ok _, Some e => Some ("build SPDY executor: " +:+ e, 500)
    | Ok _, None => None
    end
  end.
Definition request_failure (polls : list poll) (executor : option string) (r : Request) (m : Manager)
  : option (string * Z) :=
  if bool_decide (sr_action r = "start") then start_failure polls executor r m
  else if bool_decide (sr_action r ∈ ["exec"; "read"; "close"]) then
    if bool_decide (sr_session_id r = "") then Some ("session_id required", 400) else None
  else Some ("Invalid action", 400).

(** A request that cannot be served is answered once, with the reason and
    with status 400 for bad input, 503 without a cluster client and 500 for a
    pod or stream failure, and changes nothing else: no session is opened,
    touched or closed.  Every other request has no error reply. *)
Theorem shell_errors_change_nothing now fresh polls executor r m m' :
  Handle quoted now fresh polls executor r m = Some m' ->
  match request_failure polls executor r m with
  | Some (e, status) => m' = reply (error_reply e) status m
  | None => forall x st, m_log m' = m_log m ++ [EvReply x st] -> rs_error x = "" /\ st = 200
  end.
Proof using.
  unfold Handle, request_failure. intros Hh.
  destruct (decide (sr_action r = "start")) as [Hs|Hs];
    [rewrite (bool_decide_true _ Hs) in Hh; rewrite (bool_decide_true _ Hs)
    |rewrite (bool_decide_false _ Hs) in Hh; rewrite (bool_decide_false _ Hs)].
  - unfold handleStart, openSession in Hh. unfold start_failure.
    destruct (_ || _); [by injection Hh as <-|]. destruct (negb (m_client m)); [by injection Hh as <-|].
    destruct (waitRunning _ _ _) as [[p|e]|]; [|by injection Hh as <-|done]. simpl in Hh.
    destruct (resolveContainer quoted p (sr_container r)) as [c|e]; simpl in Hh; [|by injection Hh as <-].
    destruct executor; injection Hh as <-; [done|]. intros x st Hl. simpl in Hl.
    apply app_inj_tail in Hl as [_ [= <- <-]]. done.
  - assert (forall x y st st', m_log m ++ [EvReply x st] = m_log m ++ [EvReply y st'] -> x = y /\ st = st') as Hinj.
    { intros x y st st' [_ [= <- <-]]%app_inj_tail. done. }
    assert (forall a x st, m_log (dropAndClose a m) ++ [EvReply (exit_reply a) 200] = m_log m ++ [EvReply x st] ->
      rs_error x = "" /\ st = 200) as Hdrop.
    { intros a x st Hl. replace (m_log (dropAndClose a m)) with (m_log m) in Hl
        by (unfold dropAndClose; by destruct (m_sessions m !! a)).
      apply Hinj in Hl as [<- <-]. done. }
    assert (forall x st, m_log m = m_log m ++ [EvReply x st] -> False) as Hno.
    { intros x st Hl. apply (f_equal length) in Hl. rewrite length_app in Hl. simpl in Hl. lia. }
    destruct (decide (sr_action r = "exec")) as [He|He];
      [|destruct (decide (sr_action r = "read")) as [Hd|Hd]; [|destruct (decide (sr_action r = "close")) as [Hc|Hc]]].
    + rewrite He in *. simpl bool_decide in *. injection Hh as <-. unfold handleExec.
      case_bool_decide; [done|]. intros x st Hl.
      destruct (m_sessions m !! sr_session_id r); [|simpl in Hl; by apply Hinj in Hl as [<- <-]].
      case_bool_decide; [by apply Hdrop in Hl|]. by apply Hno in Hl.
    + rewrite Hd in *. simpl bool_decide in *. injection Hh as <-. unfold handleRead.
      case_bool_decide; [done|]. intros x st Hl.
      destruct (m_sessions m !! sr_session_id r); [|simpl in Hl; by apply Hinj in Hl as [<- <-]].
      by apply Hno in Hl.
    + rewrite Hc in *. simpl bool_decide in *. injection Hh as <-. unfold handleClose.
      case_bool_decide; [done|]. intros x st Hl. by apply Hdrop in Hl.
    + rewrite !bool_decide_false in Hh by done. injection Hh as <-.
      rewrite bool_decide_false; [done|]. rewrite !elem_of_cons, elem_of_nil. tauto.
Qed.

(** The container attached to is one of the pod's; a requested one is taken
    or refused, never replaced. *)
Lemma resolveContainer_spec p want :
  match resolveContainer quoted p want with
  | Ok c => c ∈ p_containers p /\ (want <> "" -> c = want)
  | Err _ => p_containers p = [] \/ want <> "" /\ want ∉ p_containers p
  end.
Proof using.
  unfold resolveContainer, containerNames. destruct (p_containers p) as [|first names]; [by left|].
  destruct (decide (want = "")) as [Hw|Hw]; [rewrite (bool_decide_true _ Hw)|rewrite (bool_decide_false _ Hw)]; simpl negb; cbn iota.
  - destruct (negb _ && _) eqn:E; [apply andb_prop in E as [_ E%bool_decide_eq_true]|]; (split; [|done]); [done|left].
  - case_bool_decide; [done|by right].
Qed.

(** [waitRunning] returns at the latest with the first poll that sees the
    deadline. *)
Lemma waitRunning_returns ns name polls :
  Exists (fun o => po_expired o = true) polls -> is_Some (waitRunning ns name polls).
Proof using.
  induction 1 as [o rest Ho|o rest _ IH]; simpl; repeat case_match; try done; eauto.
Qed.
End steps.

(** ** A session, for the witnesses *)
Definition demo_pod : pod := MkPod "web" "prod" [(defaultContainerAnnotation, "gone")] ["app"; "proxy"] "Running".
Definition start_request : Request := MkShellRequest "start" "" "web" "prod" "" "".
Definition shell_request (action cmd : string) : Request := MkShellRequest action "s1" "" "" cmd "".
Definition demo_start : list op :=
  [OpRequest 0 "s1" [MkPoll (Ok demo_pod) false] None start_request; OpOutput 1 0 "$ ";
   OpRequest 2 "u" [] None (shell_request "exec" "ls"); OpThread 2 true 0; OpThread 2 true 0;
   OpRequest 3 "u" [] None (shell_request "read" ""); OpOutput 3 0 "a b"; OpThread 4 true 0; OpOutput 5 0 " c"].
Definition no_quotes (s : string) : string := s.
Definition after_ops (ops : list op) : Manager :=
  default (NewManager true) (exec_all no_quotes ops (NewManager true)).
Definition demo_session : session :=
  default (MkSession "" "" "" "" "" false false false 0) (m_heap (after_ops demo_start) !! 0%nat).

Lemma shell_demo_runs : exec_all no_quotes demo_start (NewManager true) = Some (after_ops demo_start).
Proof. vm_compute. reflexivity. Qed.
Lemma demo_lookup : m_heap (after_ops demo_start) !! 0%nat = Some demo_session.
Proof. vm_compute. reflexivity. Qed.

Lemma shell_output_delivered_once_witness :
  printed 0 (m_log (after_ops demo_start)) = "$ a b c" /\
  printed 0 (m_log (after_ops demo_start))
  = delivered 0 (m_log (after_ops demo_start)) +:+ se_outBuf demo_session.
Proof.
  split; [vm_compute; reflexivity|].
  apply (shell_output_delivered_once no_quotes true demo_start _ _ _ shell_demo_runs demo_lookup).
Defined.

Definition demo_closed : list op :=
  demo_start ++ [OpRequest 6 "u" [] None (shell_request "exec" "rm x"); OpThread 6 true 0;
                 OpRequest 6 "u" [] None (shell_request "close" "")].
Lemma closed_shell_takes_no_input_witness :
  inputs 0 (m_log (after_ops demo_closed)) = 1%nat /\
  exists m', exec_all no_quotes [OpThread 7 true 0] (after_ops demo_closed) = Some m' /\
    inputs 0 (m_log m') = inputs 0 (m_log (after_ops demo_closed)).
Proof.
  split; [vm_compute; reflexivity|].
  eexists. split; [vm_compute; reflexivity|].
  refine (closed_shell_takes_no_input no_quotes true demo_closed (after_ops demo_closed) 0
    (default demo_session (m_heap (after_ops demo_closed) !! 0%nat)) [OpThread 7 true 0] _ _ _ _ _);
    try (vm_compute; reflexivity).
  left. vm_compute. reflexivity.
Defined.

Lemma reaper_exact_witness :
  m_sessions (reap (11 * minute) (after_ops demo_start)) !! "s1" = None.
Proof.
  refine (proj1 (reaper_exact no_quotes true demo_start (after_ops demo_start) (11 * minute) shell_demo_runs
    "s1" 0 demo_session _ demo_lookup)); vm_compute; reflexivity.
Defined.

Lemma printing_session_not_reaped_witness : exists m1,
  exec no_quotes (OpOutput (60 * minute) 0 ".") (after_ops demo_start) = Some m1 /\
  m_sessions (reap (61 * minute) m1) !! "s1" = Some 0%nat.
Proof.
  eexists. split; [vm_compute; reflexivity|].
  refine (printing_session_not_reaped no_quotes true demo_start (after_ops demo_start) "s1" 0 demo_session
    (60 * minute) "." _ (61 * minute) shell_demo_runs _ demo_lookup _ _); vm_compute; try reflexivity; congruence.
Defined.

Lemma exec_on_ended_shell_says_busy_witness : exists m',
  exec_all no_quotes [OpStreamEnd 0 None; OpRequest 9 "u" [] None (shell_request "exec" "ls"); OpThread 9 true 0]
    (after_ops demo_start) = Some m' /\
  m_log m' = m_log (after_ops demo_start) ++ [EvOutput 0 ""; EvReply (status_reply "s1" "busy") 200].
Proof.
  apply (exec_on_ended_shell_says_busy no_quotes (after_ops demo_start) "s1" 0 demo_session (shell_request "exec" "ls") None);
    try (vm_compute; reflexivity); try (vm_compute; congruence).
  apply Forall_forall. intros s Hs. assert (m_heap (after_ops demo_start) = [demo_session]) as E by (vm_compute; reflexivity).
  rewrite E in Hs. apply list_elem_of_singleton in Hs as ->. vm_compute. congruence.
Defined.

Lemma shell_errors_change_nothing_witness :
  exists m', Handle no_quotes 9 "u" [] None (MkShellRequest "exec" "" "" "" "ls" "") (after_ops demo_start) = Some m' /\
  m' = reply (error_reply "session_id required") 400 (after_ops demo_start).
Proof.
  eexists. split; [reflexivity|].
  apply (shell_errors_change_nothing no_quotes 9 "u" [] None (MkShellRequest "exec" "" "" "" "ls" "") (after_ops demo_start)).
  reflexivity.
Defined.
