(* ===== verification/Redact.v ===== *)
(** * Credential redaction (pkg/redact/redact.go)

    The two regular expressions are modelled as their leftmost matchers: a
    match is decided at each position from the left, its length is what Go's
    greedy repetition takes, and scanning resumes behind it.  All character
    classes are ASCII or complements of ASCII sets, so bytes decide.  Whether
    [url.Parse] accepts a text is a parameter of [Misparsed]. *)

From S2P Require Import Prelude GoText.

#[local] Set Default Proof Using "Type".

(** ** Character classes *)
Definition is_alpha (c : ascii) : bool := in_range 65 90 (byte c) || in_range 97 122 (byte c).
(** [[A-Za-z0-9+.-]]. *)
Definition scheme_char (c : ascii) : bool :=
  is_alpha c || in_range 48 57 (byte c) || (byte c =? 43) || (byte c =? 46) || (byte c =? 45).
(** Not white space ([\s]), quote or angle bracket. *)
Definition token_char (c : ascii) : bool :=
  negb ((byte c =? 9) || (byte c =? 10) || (byte c =? 12) || (byte c =? 13) || (byte c =? 32)
        || (byte c =? 34) || (byte c =? 39) || (byte c =? 60) || (byte c =? 62)).
(** The value of a query parameter also ends at [&] and [#]. *)
Definition value_char (c : ascii) : bool := token_char c && negb ((byte c =? 38) || (byte c =? 35)).
Definition at_sign : ascii := chr 64.

(** ** [URL] *)
Definition is_scheme (s : string) : bool :=
  match s with
  | EmptyString => false
  | String c r => is_alpha c && all_of scheme_char r
  end.
Definition colon_slashes : string := "://".

(** The scheme with its separator, when the text before the last [@] starts
    with one; [before] is that text. *)
Definition kept_scheme (before : string) : option (string * string) :=
  match cut_first colon_slashes before with
  | Some (s, rest) => if is_scheme s then Some (s +:+ colon_slashes, rest) else None
  | None => None
  end.
Definition URL (raw : string) : string :=
  match cut_last at_sign raw with
  | None => raw
  | Some (before, after) =>
    match kept_scheme before with
    | Some (kept, _) => kept +:+ after
    | None => after
    end
  end.

(** ** [Text] *)

(** A match of [urlUserinfo] at the start of [s]: what is kept of it and the
    number of bytes it takes. *)
Definition match_userinfo (s : string) : option (string * nat) :=
  match s with
  | EmptyString => None
  | String c _ =>
    if is_alpha c then
      let '(run, r) := span scheme_char s in
      match strip_prefix colon_slashes r with
      | None => None
      | Some t =>
        match cut_last at_sign (span token_char t).1 with
        | Some (u, _) => Some (run +:+ colon_slashes, (strlen run + 3 + strlen u + 1)%nat)
        | None => None
        end
      end
    else None
  end.

(** Case-insensitive letters: [(?i)] also folds U+017F to s and U+212A to k. *)
Definition strip_letter (l : ascii) (s : string) : option string :=
  match s with
  | EmptyString => None
  | String c r =>
    if bool_decide (lower_ascii c = l) then Some r
    else if bool_decide (l = "s"%char) then strip_prefix (String (chr 197) (String (chr 191) "")) s
    else if bool_decide (l = "k"%char) then
      strip_prefix (String (chr 226) (String (chr 132) (String (chr 170) ""))) s
    else None
  end.
Fixpoint strip_folded (name s : string) : option string :=
  match name with
  | EmptyString => Some s
  | String l name => match strip_letter l s with Some r => strip_folded name r | None => None end
  end.
Definition secret_names : list string :=
  ["password"; "passwd"; "pwd"; "secret"; "token"; "access_token"; "api_key"; "apikey"].
(** The text behind the first name of the alternation that fits, with its
    equals sign. *)
Fixpoint strip_name (names : list string) (s : string) : option string :=
  match names with
  | [] => None
  | n :: names =>
    match strip_folded n s with
    | Some (String c r) => if byte c =? 61 then Some r else strip_name names s
    | _ => strip_name names s
    end
  end.
(** A match of [secretParam] at the start of [s]. *)
Definition match_secret (s : string) : option (string * nat) :=
  match s with
  | EmptyString => None
  | String c r =>
    if (byte c =? 63) || (byte c =? 38) then
      match strip_name secret_names r with
      | None => None
      | Some t =>
        let n := (strlen s - strlen t)%nat in
        Some (String.substring 0 n s +:+ "REDACTED", (n + strlen (span value_char t).1)%nat)
      end
    else None
  end.

(** [ReplaceAllString]: [skip] bytes belong to the match before. *)
Fixpoint replace_all (m : string -> option (string * nat)) (skip : nat) (s : string) : string :=
  match s with
  | EmptyString => ""
  | String c r =>
    match skip with
    | S k => replace_all m k r
    | O =>
      match m s with
      | Some (t, n) => t +:+ replace_all m (pred n) r
      | None => String c (replace_all m 0 r)
      end
    end
  end.

Definition Text (s : string) : string :=
  let s := if contains_byte at_sign s then replace_all match_userinfo 0 s else s in
  replace_all match_secret 0 s.

(** ** [Misparsed] *)
Section misparsed.
Variable url_parses : string -> bool.

Definition Misparsed (raw : string) : bool :=
  match cut_last at_sign raw with
  | None => false
  | Some (before, _) =>
    let '(userinfo, full) := match kept_scheme before with
                             | Some (_, rest) => (rest, raw)
                             | None => (before, "http://" +:+ raw)
                             end in
    contains_byte (chr 47) userinfo || contains_byte (chr 63) userinfo || contains_byte (chr 35) userinfo
    || negb (url_parses full)
  end.
End misparsed.

Example text_sample :
  Text ("Get " +:+ String (chr 34) "https://user:p@ss/x@host/-/healthy?a=1&Password=hunter2#f" +:+ String (chr 34) ": dial")
  = "Get " +:+ String (chr 34) "https://host/-/healthy?a=1&Password=REDACTED#f" +:+ String (chr 34) ": dial".
Proof. vm_compute. reflexivity. Qed.
Example url_samples :
  map URL ["https://u:p/q@h:9090/x"; "admin:12://34@ch:9000"; "http://h/x"; "1x://u@h"]
  = ["https://h:9090/x"; "ch:9000"; "http://h/x"; "h"].
Proof. vm_compute. reflexivity. Qed.

(** ** Cutting and scanning *)
Definition no_at (s : string) : Prop := cut_last at_sign s = None.

Lemma no_at_app a b : no_at (a +:+ b) <-> no_at a /\ no_at b.
Proof.
  unfold no_at. induction a as [|c a IH]; [rewrite app_nil_l; cbn [cut_last]; tauto|].
  rewrite app_cons. cbn [cut_last].
  destruct (cut_last at_sign (a +:+ b)) as [[x y]|], (cut_last at_sign a) as [[x' y']|], (cut_last at_sign b) as [[]|];
    try case_bool_decide; naive_solver.
Qed.
Lemma no_at_class p s : p at_sign = false -> all_of p s = true -> no_at s.
Proof.
  intros Hp. unfold no_at. induction s as [|c s IH]; [done|]. simpl.
  intros [Hc Hs]%andb_prop. rewrite IH by done. rewrite bool_decide_false; [done|]. intros ->. congruence.
Qed.
Lemma contains_at s : contains_byte at_sign s = false -> no_at s.
Proof.
  unfold contains_byte, no_at. induction s as [|c s IH]; [done|]. simpl.
  intros [Hc Hs]%orb_false_iff. rewrite IH by done. apply bool_decide_eq_false in Hc. by rewrite bool_decide_false.
Qed.

Lemma contains_at_sign a b : contains_byte at_sign (a +:+ String at_sign b) = true.
Proof.
  apply not_false_iff_true. intros H%contains_at. apply no_at_app in H as [_ H]. unfold no_at in H.
  cbn [cut_last] in H. destruct (cut_last at_sign b) as [[]|]; [done|]. by rewrite bool_decide_true in H.
Qed.

Lemma all_of_impl (p q : ascii -> bool) s :
  (forall c, p c = true -> q c = true) -> all_of p s = true -> all_of q s = true.
Proof. intros H. induction s as [|c s IH]; [done|]. simpl. intros [Hc Hs]%andb_prop. by rewrite H, IH. Qed.

Lemma span_all p a b : all_of p a = true ->
  span p (a +:+ b) = (a +:+ (span p b).1, (span p b).2).
Proof.
  induction a as [|c a IH]; [rewrite !app_nil_l; by destruct (span p b)|]. simpl. intros [Hc Ha]%andb_prop.
  rewrite !app_cons. cbn [span]. by rewrite Hc, IH by done.
Qed.
Lemma span_stop p a b : all_of p a = false ->
  exists x c y, a = x +:+ String c y /\ all_of p x = true /\ p c = false /\
    span p (a +:+ b) = (x, String c y +:+ b).
Proof.
  induction a as [|c a IH]; [done|]. simpl. destruct (p c) eqn:Hc; simpl.
  - intros Ha. destruct (IH Ha) as (x & d & y & -> & Hx & Hd & Hs).
    exists (String c x), d, y. split; [done|]. split; [by simpl; rewrite Hc|]. split; [done|].
    cbn [span]. by rewrite Hs.
  - intros _. by exists "", c, a.
Qed.
Lemma span_end p c y : p c = false -> span p (String c y) = ("", String c y).
Proof. intros H. cbn [span]. by rewrite H. Qed.

Lemma alpha_scheme c : is_alpha c = true -> scheme_char c = true.
Proof. unfold scheme_char. by intros ->. Qed.
Lemma is_scheme_chars s : is_scheme s = true -> all_of scheme_char s = true.
Proof. destruct s as [|c s]; [done|]. simpl. intros [Hc Hs]%andb_prop. by rewrite alpha_scheme. Qed.
Lemma is_scheme_head s : is_scheme s = true -> exists c r, s = String c r /\ is_alpha c = true.
Proof. destruct s as [|c r]; [done|]. simpl. intros [Hc _]%andb_prop. by exists c, r. Qed.
Lemma scheme_token c : scheme_char c = true -> token_char c = true.
Proof.
  unfold scheme_char, is_alpha, token_char, in_range. pose proof (byte_range c).
  rewrite !orb_true_iff, !andb_true_iff, !Z.leb_le, !Z.eqb_eq. intros H0.
  apply negb_true_iff. rewrite !orb_false_iff, !Z.eqb_neq. lia.
Qed.
Lemma scheme_not_colon c : scheme_char c = true -> byte c <> 58.
Proof.
  unfold scheme_char, is_alpha, in_range. rewrite !orb_true_iff, !andb_true_iff, !Z.leb_le, !Z.eqb_eq. lia.
Qed.

(** [replace_all] behind a match, and where nothing matches. *)
Lemma replace_skip m a b : replace_all m (strlen a) (a +:+ b) = replace_all m 0 b.
Proof. induction a as [|c a IH]; [done|]. by rewrite app_cons, strlen_cons. Qed.
Lemma replace_match m s kept a b n : s = a +:+ b -> a <> "" -> n = strlen a ->
  m s = Some (kept, n) -> replace_all m 0 s = kept +:+ replace_all m 0 b.
Proof.
  intros -> Ha -> Hm. destruct a as [|c a]; [done|]. rewrite app_cons in *. cbn [replace_all].
  rewrite Hm, strlen_cons. simpl pred. by rewrite replace_skip.
Qed.
Lemma replace_none m c s : m (String c s) = None ->
  replace_all m 0 (String c s) = String c (replace_all m 0 s).
Proof. intros H. cbn [replace_all]. by rewrite H. Qed.

(** *** Passes that do not depend on a part of the text

    [tail u] is a text with a secret [u]; a match that starts before it either
    is not there, or ends before it, or takes all of [taken u] and with it the
    secret, and which of these does not depend on [u].  Then neither does the
    result. *)
Section blind.
Context (m : string -> option (string * nat)) (ok : string -> Prop) (tail taken : string -> string) (rest : string).
Context (Htail : forall u, tail u = taken u +:+ rest) (Htaken : forall u, taken u <> "").

Inductive before (p : string) : Prop :=
  | no_match c p' (Hp : p = String c p') (Hm : forall u, ok u -> m (p +:+ tail u) = None)
  | inner_match kept a b (Hp : p = a +:+ b) (Ha : a <> "")
      (Hm : forall u, ok u -> m (p +:+ tail u) = Some (kept, strlen a))
  | through_match kept (Hm : forall u, ok u -> m (p +:+ tail u) = Some (kept, strlen (p +:+ taken u))).

Lemma pass_blind p u1 u2 : (forall p, before p) -> ok u1 -> ok u2 ->
  replace_all m 0 (p +:+ tail u1) = replace_all m 0 (p +:+ tail u2).
Proof using Htail Htaken.
  intros Hbefore H1 H2. remember (strlen p) as n eqn:Hn. revert p Hn.
  induction (lt_wf n) as [n _ IH]. intros p ->. destruct (Hbefore p) as [c p' -> Hm|kept a b -> Ha Hm|kept Hm].
  - pose proof (Hm _ H1) as M1. pose proof (Hm _ H2) as M2. rewrite !app_cons in *.
    rewrite !replace_none by done. f_equal. apply (IH (strlen p')); [|done]. rewrite strlen_cons. lia.
  - assert (forall u, ok u -> replace_all m 0 ((a +:+ b) +:+ tail u) = kept +:+ replace_all m 0 (b +:+ tail u)) as Hgo.
    { intros u Hu. eapply replace_match; [apply sapp_assoc|done|reflexivity|by apply Hm]. }
    rewrite !Hgo by done. f_equal. apply (IH (strlen b)); [|done].
    rewrite strlen_app. destruct a; [done|]. rewrite strlen_cons. lia.
  - assert (forall u, ok u -> replace_all m 0 (p +:+ tail u) = kept +:+ replace_all m 0 rest) as Hgo; [|by rewrite !Hgo].
    intros u Hu. apply (replace_match _ _ kept (p +:+ taken u) rest (strlen (p +:+ taken u)));
      [by rewrite Htail, sapp_assoc| |done|by apply Hm].
    destruct p; [rewrite app_nil_l; apply Htaken|done].
Qed.
End blind.

(** ** [URL] hides the credentials *)
Lemma cut_first_scheme s u : all_of scheme_char s = true ->
  cut_first colon_slashes (s +:+ colon_slashes +:+ u) = Some (s, u).
Proof.
  induction s as [|c s IH]; cbn [all_of].
  - intros _. rewrite app_nil_l. by destruct u.
  - intros [Hc Hs]%andb_prop. rewrite app_cons. cbn [cut_first].
    assert (strip_prefix colon_slashes (String c (s +:+ colon_slashes +:+ u)) = None) as ->.
    { unfold colon_slashes. cbn [strip_prefix]. rewrite decide_False; [done|].
      intros <-. by apply (scheme_not_colon ":"%char). }
    by rewrite IH.
Qed.

(** The credentials of a URL have no influence on what is left of it:
    whatever the userinfo contains (slashes, question marks, further at signs),
    [URL] returns the scheme and the text behind the last at sign; without a
    scheme, that text alone unless the credentials themselves begin like a URL.
    The result never has an at sign and is not changed by a second pass. *)
Theorem url_hides_credentials :
  (forall s u h, is_scheme s = true -> no_at h ->
     URL (s +:+ colon_slashes +:+ u +:+ String at_sign h) = s +:+ colon_slashes +:+ h) /\
  (forall u h, kept_scheme u = None -> no_at h -> URL (u +:+ String at_sign h) = h) /\
  (forall raw, no_at (URL raw) /\ URL (URL raw) = URL raw).
Proof.
  assert (forall u h, no_at h -> cut_last at_sign (u +:+ String at_sign h) = Some (u, h)) as Hcut.
  { intros u h Hh. rewrite last_cut_app. unfold no_at in Hh. by rewrite Hh. }
  split; [|split].
  - intros s u h Hs Hh. rewrite <- (sapp_assoc colon_slashes), <- sapp_assoc. unfold URL. rewrite Hcut by done.
    unfold kept_scheme. rewrite cut_first_scheme by (by apply is_scheme_chars). rewrite Hs. by rewrite sapp_assoc.
  - intros u h Hk Hh. unfold URL. by rewrite Hcut, Hk.
  - intros raw. assert (no_at (URL raw)) as H.
    { unfold URL. destruct (cut_last at_sign raw) as [[a b]|] eqn:E; [|done].
      apply last_cut_Some in E as [_ Hb]. unfold kept_scheme.
      destruct (cut_first colon_slashes a) as [[s r]|]; [|done]. destruct (is_scheme s) eqn:Es; [|done].
      apply no_at_app. split; [|done]. apply no_at_app. split; [|done].
      apply (no_at_class scheme_char); [done|by apply is_scheme_chars]. }
    split; [done|]. unfold URL at 1. unfold no_at in H. by rewrite H.
Qed.

(** ** [Text] hides the userinfo *)

(** Stripping a prefix that avoids a character does not look behind it. *)
Lemma strip_prefix_before pre a c y : contains_byte c pre = false ->
  strip_prefix pre (a +:+ String c y)
  = match strip_prefix pre a with Some r => Some (r +:+ String c y) | None => None end.
Proof.
  unfold contains_byte. revert a. induction pre as [|d pre IH]; intros a; [done|]. simpl.
  intros [Hd Hp]%orb_false_iff. apply bool_decide_eq_false in Hd. destruct a as [|e a].
  - rewrite app_nil_l. cbn [strip_prefix]. by rewrite decide_False by congruence.
  - rewrite app_cons. cbn [strip_prefix]. destruct (decide (d = e)); [by apply IH|done].
Qed.

(** Where the userinfo match starting before an at sign ends behind it. *)
Definition behind_last_at (h : string) : nat :=
  match cut_last at_sign (span token_char h).1 with Some (y, _) => S (strlen y) | None => 0%nat end.
Lemma span_join p s : s = (span p s).1 +:+ (span p s).2.
Proof.
  induction s as [|c s IH]; [done|]. cbn [span]. destruct (p c); [|done].
  destruct (span p s) as [a b]. simpl in *. by rewrite app_cons, <- IH.
Qed.
Lemma behind_last_at_split h : exists x y, h = x +:+ y /\ strlen x = behind_last_at h.
Proof.
  unfold behind_last_at. destruct (cut_last at_sign (span token_char h).1) as [[a b]|] eqn:E; [|by exists "", h].
  apply last_cut_Some in E as [E _]. exists (a +:+ String at_sign ""), (b +:+ (span token_char h).2).
  split; [|by rewrite strlen_app, strlen_cons, Nat.add_comm].
  rewrite (span_join token_char h) at 1. rewrite E, !sapp_assoc, !app_cons. by rewrite app_nil_l.
Qed.
Lemma cut_through_at w h : all_of token_char w = true ->
  exists x y, cut_last at_sign (span token_char (w +:+ String at_sign h)).1 = Some (x, y) /\
              strlen x = (strlen w + behind_last_at h)%nat.
Proof.
  intros Hw. rewrite span_all by done. cbn [fst span]. change (token_char at_sign) with true. cbn iota.
  unfold behind_last_at. destruct (span token_char h) as [a b]. cbn [fst]. rewrite last_cut_app.
  destruct (cut_last at_sign a) as [[x y]|].
  - exists (w +:+ String at_sign x), y. by rewrite strlen_app, strlen_cons.
  - exists w, a. by rewrite Nat.add_0_r.
Qed.

Section userinfo.
Context (s h : string) (Hs : is_scheme s = true).
Notation tail u := (s +:+ colon_slashes +:+ u +:+ String at_sign h).

Lemma tail_token w u : all_of token_char w = true -> all_of token_char u = true ->
  all_of token_char (w +:+ s +:+ colon_slashes +:+ u) = true.
Proof using Hs.
  intros Hw Hu. rewrite !all_of_app, Hw, Hu.
  by rewrite (all_of_impl scheme_char token_char s scheme_token) by (by apply is_scheme_chars).
Qed.

(** What is taken of the text behind the userinfo, and what remains. *)
Context (hx hy : string) (Eh : h = hx +:+ hy) (Hhx : strlen hx = behind_last_at h).
Notation taken u := (s +:+ colon_slashes +:+ u +:+ String at_sign hx).
Notation match_before := (before match_userinfo (fun u => all_of token_char u = true) (fun u => tail u) (fun u => taken u)).

Lemma match_userinfo_start run t c r : run = String c r -> is_alpha c = true ->
  all_of scheme_char run = true ->
  match_userinfo (run +:+ colon_slashes +:+ t)
  = match cut_last at_sign (span token_char t).1 with
    | Some (u, _) => Some (run +:+ colon_slashes, (strlen run + 3 + strlen u + 1)%nat)
    | None => None
    end.
Proof.
  intros E Hc Hrun. assert (match_userinfo (run +:+ colon_slashes +:+ t)
    = let '(run', r') := span scheme_char (run +:+ colon_slashes +:+ t) in
      match strip_prefix colon_slashes r' with
      | None => None
      | Some t' => match cut_last at_sign (span token_char t').1 with
                   | Some (u, _) => Some (run' +:+ colon_slashes, (strlen run' + 3 + strlen u + 1)%nat)
                   | None => None
                   end
      end) as ->.
  { subst run. rewrite app_cons. unfold match_userinfo at 1. by rewrite Hc. }
  rewrite span_all by done. replace (span scheme_char (colon_slashes +:+ t)) with ("", colon_slashes +:+ t) by done.
  cbn [fst snd]. rewrite sapp_nil_r. by rewrite strip_prefix_app.
Qed.

Lemma match_before_url p run c r : p = String c r -> is_alpha c = true -> all_of scheme_char p = true ->
  run = p +:+ s -> match_before p.
Proof using Hs Hhx Eh.
  intros E Hc Hp ->. apply (through_match _ _ _ _ _ ((p +:+ s) +:+ colon_slashes)). intros u Hu.
  rewrite <- sapp_assoc. rewrite (match_userinfo_start _ _ c (r +:+ s)); [|by rewrite E, app_cons|done|].
  - destruct (cut_through_at u h Hu) as (x & y & -> & ->). do 2 f_equal.
    rewrite <- Hhx, !strlen_app, strlen_cons. change (strlen colon_slashes) with 3%nat. lia.
  - by rewrite all_of_app, Hp, is_scheme_chars.
Qed.

Lemma match_before_here : match_before "".
Proof using Hs Hhx Eh.
  destruct (is_scheme_head _ Hs) as (c & r & E & Hc).
  apply (through_match _ _ _ _ _ (s +:+ colon_slashes)). intros u Hu.
  rewrite app_nil_l, (match_userinfo_start _ _ c r); [|done|done|by apply is_scheme_chars].
  destruct (cut_through_at u h Hu) as (x & y & -> & ->). do 2 f_equal.
  rewrite <- Hhx, app_nil_l, !strlen_app, strlen_cons. change (strlen colon_slashes) with 3%nat. lia.
Qed.

(** The match starts in a text whose scheme ends before the URL. *)
Lemma match_before_inner x c0 r d y : x = String c0 r -> is_alpha c0 = true -> all_of scheme_char x = true ->
  scheme_char d = false -> match_before (x +:+ String d y).
Proof using Hs Hhx Eh.
  intros E Hc Hx Hd. destruct (is_scheme_head _ Hs) as (c1 & r1 & Es & Hc1).
  assert (contains_byte c1 colon_slashes = false) as Hno.
  { unfold contains_byte, colon_slashes. simpl. repeat case_bool_decide; by subst. }
  assert (Hstrip : forall a u, strip_prefix colon_slashes (a +:+ tail u)
    = match strip_prefix colon_slashes a with Some r => Some (r +:+ tail u) | None => None end).
  { intros a u. rewrite Es, app_cons. by apply strip_prefix_before. }
  assert (Hmatch : forall t, match_userinfo (x +:+ String d t)
    = match strip_prefix colon_slashes (String d t) with
      | Some t' => match_userinfo (x +:+ colon_slashes +:+ t')
      | None => None
      end).
  { intros t. destruct (strip_prefix colon_slashes (String d t)) as [t'|] eqn:Et.
    - apply strip_prefix_Some in Et. by rewrite Et.
    - subst x. rewrite app_cons. unfold match_userinfo. rewrite Hc, <- app_cons, span_all by done.
      rewrite span_end by done. cbn [fst snd]. by rewrite Et. }
  destruct (strip_prefix colon_slashes (String d y)) as [t|] eqn:Et.
  - assert (Hgo : forall u, match_userinfo ((x +:+ String d y) +:+ tail u)
      = match cut_last at_sign (span token_char (t +:+ tail u)).1 with
        | Some (u, _) => Some (x +:+ colon_slashes, (strlen x + 3 + strlen u + 1)%nat)
        | None => None
        end).
    { intros u. rewrite sapp_assoc, app_cons, Hmatch, <- app_cons, Hstrip, Et. by apply (match_userinfo_start _ _ c0 r). }
    apply strip_prefix_Some in Et.
    destruct (all_of token_char t) eqn:Ht.
    + apply (through_match _ _ _ _ _ (x +:+ colon_slashes)). intros u Hu. rewrite Hgo.
      pose proof (tail_token t u Ht Hu) as Hw.
      destruct (cut_through_at _ h Hw) as (a & b & Ha & Hl).
      rewrite !sapp_assoc in Ha. rewrite Ha, Hl. rewrite Et. do 2 f_equal. rewrite <- Hhx, !strlen_app, strlen_cons.
      change (strlen colon_slashes) with 3%nat. lia.
    + destruct (span_stop token_char t "" Ht) as (a & e & b & -> & Ha & He & _).
      assert (Hspan : forall u, (span token_char ((a +:+ String e b) +:+ u)).1 = a).
      { intros u. rewrite sapp_assoc, app_cons, span_all, span_end by done. apply sapp_nil_r. }
      destruct (cut_last at_sign a) as [[v w]|] eqn:Ea.
      * pose proof (last_cut_Some _ _ _ _ Ea) as [Ev _].
        apply (inner_match _ _ _ _ _ (x +:+ colon_slashes) (x +:+ colon_slashes +:+ v +:+ String at_sign "") (w +:+ String e b)).
        -- by rewrite Et, Ev, !sapp_assoc, !app_cons, app_nil_l.
        -- by subst x.
        -- intros u Hu. rewrite Hgo, Hspan, Ea. do 2 f_equal. rewrite !strlen_app, strlen_cons.
           change (strlen colon_slashes) with 3%nat. change (strlen "") with 0%nat. lia.
      * apply (no_match _ _ _ _ _ c0 (r +:+ String d y)); [by rewrite E|]. intros u Hu. by rewrite Hgo, Hspan, Ea.
  - apply (no_match _ _ _ _ _ c0 (r +:+ String d y)); [by rewrite E|]. intros u Hu.
    by rewrite sapp_assoc, app_cons, Hmatch, <- app_cons, Hstrip, Et.
Qed.

Lemma match_before_total p : match_before p.
Proof using Hs Hhx Eh.
  destruct p as [|c r]; [apply match_before_here|]. destruct (is_alpha c) eqn:Hc.
  - destruct (all_of scheme_char (String c r)) eqn:Ha; [by eapply match_before_url|].
    destruct (span_stop scheme_char (String c r) "" Ha) as (x & d & y & E & Hx & Hd & _).
    rewrite E. destruct x as [|c' x].
    + rewrite app_nil_l in E. injection E as -> ->. by rewrite (alpha_scheme _ Hc) in Hd.
    + injection E as -> E. by eapply match_before_inner.
  - apply (no_match _ _ _ _ _ c r); [done|]. intros u _. rewrite app_cons. simpl. by rewrite Hc.
Qed.

End userinfo.

(** ** [Text] masks secret parameters *)

(** The characters that delimit a parameter name. *)
Definition delimiter (c : ascii) : Prop := c = chr 61 \/ c = chr 63 \/ c = chr 38.
Definition avoids (c : ascii) (name : string) : bool := negb (contains_byte (lower_ascii c) name).

Lemma strip_letter_before l a c y : delimiter c -> lower_ascii c <> l ->
  strip_letter l (a +:+ String c y)
  = match strip_letter l a with Some r => Some (r +:+ String c y) | None => None end.
Proof.
  intros Hc Hl. assert (forall p, contains_byte c p = false ->
    strip_prefix p (String c y) = match strip_prefix p "" with Some r => Some (r +:+ String c y) | None => None end) as Hp.
  { intros p Hp. by rewrite <- (app_nil_l (String c y)) at 1; rewrite strip_prefix_before. }
  destruct a as [|e a]; [rewrite app_nil_l|rewrite app_cons]; cbn [strip_letter].
  - rewrite (bool_decide_false (lower_ascii c = l)) by done.
    rewrite !Hp by (destruct Hc as [->|[->| ->]]; reflexivity). by repeat case_bool_decide.
  - repeat case_bool_decide; [done|..|done].
    all: rewrite <- app_cons; apply strip_prefix_before; destruct Hc as [->|[->| ->]]; reflexivity.
Qed.
Lemma strip_folded_before n a c y : delimiter c -> avoids c n = true ->
  strip_folded n (a +:+ String c y)
  = match strip_folded n a with Some r => Some (r +:+ String c y) | None => None end.
Proof.
  intros Hc. unfold avoids, contains_byte. revert a. induction n as [|l n IH]; intros a; [done|]. simpl.
  intros [Hl Hn]%negb_true_iff%orb_false_iff. apply bool_decide_eq_false in Hl.
  rewrite strip_letter_before by congruence. destruct (strip_letter l a); [|done]. apply IH. by rewrite Hn.
Qed.

(** A name that ends at an equals sign is recognised whatever follows. *)
Lemma strip_name_equals names x y : forallb (avoids (chr 61)) names = true ->
  strip_name names (x +:+ String (chr 61) y)
  = match strip_name names (x +:+ String (chr 61) "") with Some r => Some (r +:+ y) | None => None end.
Proof.
  induction names as [|n names IH]; [done|]. cbn [forallb strip_name]. intros [Hn Hns]%andb_prop.
  rewrite !strip_folded_before by (by auto; left). destruct (strip_folded n x) as [[|c r]|].
  - done.
  - rewrite !app_cons. destruct (byte c =? 61); [|by apply IH]. by rewrite sapp_assoc, app_cons, app_nil_l.
  - by apply IH.
Qed.
(** A name that does not end before the separator of the next parameter is
    not recognised. *)
Lemma strip_name_sep names a c y : delimiter c -> c <> chr 61 -> forallb (avoids c) names = true ->
  strip_name names (a +:+ String c y)
  = match strip_name names a with Some r => Some (r +:+ String c y) | None => None end.
Proof.
  intros Hc Hne. induction names as [|n names IH]; [done|]. cbn [forallb strip_name]. intros [Hn Hns]%andb_prop.
  rewrite strip_folded_before by done. destruct (strip_folded n a) as [[|d r]|].
  - rewrite app_nil_l. destruct (byte c =? 61) eqn:E; [|by apply IH].
    destruct Hne. apply byte_inj. by apply Z.eqb_eq in E.
  - rewrite app_cons. destruct (byte d =? 61); [done|by apply IH].
  - by apply IH.
Qed.

(** The part of the text a name takes consists of value characters. *)
Lemma strip_letter_value l t r : value_char l = true -> strip_letter l t = Some r ->
  exists a, t = a +:+ r /\ all_of value_char a = true.
Proof.
  intros Hl. destruct t as [|c t]; [done|]. cbn [strip_letter]. repeat case_bool_decide; [..|done].
  - intros [= <-]. exists (String c ""). split; [by rewrite app_cons, app_nil_l|]. simpl. rewrite andb_true_r.
    revert Hl. subst l. unfold lower_ascii. destruct ((65 <=? byte c) && (byte c <=? 90)) eqn:E; [|done]. intros _.
    apply andb_prop in E as [E1%Z.leb_le E2%Z.leb_le].
    unfold value_char, token_char. rewrite andb_true_iff, !negb_true_iff, !orb_false_iff, !Z.eqb_neq. lia.
  - intros ->%strip_prefix_Some. by eexists.
  - intros ->%strip_prefix_Some. by eexists.
Qed.
Lemma strip_folded_value n t r : all_of value_char n = true -> strip_folded n t = Some r ->
  exists a, t = a +:+ r /\ all_of value_char a = true.
Proof.
  revert t. induction n as [|l n IH]; intros t; cbn [all_of strip_folded].
  - intros _ [= <-]. by exists "".
  - intros [Hl Hn]%andb_prop. destruct (strip_letter l t) as [t'|] eqn:E; [|done]. intros H.
    apply strip_letter_value in E as (a & -> & Ha); [|done]. apply IH in H as (b & -> & Hb); [|done].
    exists (a +:+ b). by rewrite sapp_assoc, all_of_app, Ha.
Qed.
Lemma strip_name_value names t r : forallb (all_of value_char) names = true -> strip_name names t = Some r ->
  exists a, t = a +:+ r /\ all_of value_char a = true.
Proof.
  induction names as [|n names IH]; [done|]. cbn [forallb strip_name]. intros [Hn Hns]%andb_prop.
  destruct (strip_folded n t) as [[|c r']|] eqn:E; [by apply IH| |by apply IH].
  destruct (byte c =? 61) eqn:Ec; [|by apply IH]. intros [= <-].
  apply strip_folded_value in E as (a & -> & Ha); [|done]. exists (a +:+ String c "").
  rewrite sapp_assoc, app_cons, app_nil_l, all_of_app, Ha. split; [done|]. simpl.
  apply Z.eqb_eq in Ec. unfold value_char, token_char. by rewrite Ec.
Qed.

(** A match of [secretParam], given the text the name takes. *)
Lemma match_secret_name c a t : (byte c =? 63) || (byte c =? 38) = true ->
  strip_name secret_names (a +:+ t) = Some t ->
  match_secret (String c (a +:+ t))
  = Some (String c a +:+ "REDACTED", (strlen (String c a) + strlen (span value_char t).1)%nat).
Proof.
  intros Hc Ht. unfold match_secret. rewrite Hc, Ht, <- app_cons, strlen_app.
  replace (strlen (String c a) + strlen t - strlen t)%nat with (strlen (String c a)) by lia.
  by rewrite substring_prefix.
Qed.

Section secret.
Context (sep : ascii) (Hsep : (byte sep =? 63) || (byte sep =? 38) = true).
Context (x : string) (Hx : strip_name secret_names (x +:+ String (chr 61) "") = Some "").
Context (q : string) (Hq : span value_char q = ("", q)).
Notation param v := (String sep (x +:+ String (chr 61) (v +:+ q))).

Lemma sep_delimiter : delimiter sep /\ sep <> chr 61 /\ forallb (avoids sep) secret_names = true.
Proof using Hsep.
  assert (sep = chr 63 \/ sep = chr 38) as [-> | ->]; [|unfold delimiter; split_and!; auto; by vm_compute..].
  apply orb_prop in Hsep as [H%Z.eqb_eq|H%Z.eqb_eq]; [left|right]; by apply byte_inj.
Qed.
Lemma name_found v : strip_name secret_names (x +:+ String (chr 61) v) = Some v.
Proof using Hx. rewrite strip_name_equals by reflexivity. by rewrite Hx. Qed.
Lemma name_value : all_of value_char x = true.
Proof using Hx.
  apply strip_name_value in Hx as (a & Ha & Hv); [|reflexivity]. rewrite sapp_nil_r in Ha. subst a.
  rewrite all_of_app in Hv. by apply andb_prop in Hv as [Hv _].
Qed.
Lemma span_value v w : all_of value_char w = true -> all_of value_char v = true ->
  (span value_char (w +:+ v +:+ q)).1 = w +:+ v.
Proof using Hq. intros Hw Hv. by rewrite !span_all, Hq, sapp_nil_r by done. Qed.

Notation taken v := (String sep (x +:+ String (chr 61) v)).
Notation secret_before := (before match_secret (fun v => all_of value_char v = true) (fun v => param v) (fun v => taken v)).

Lemma secret_before_here : secret_before "".
Proof using Hsep Hx Hq.
  apply (through_match _ _ _ _ _ (String sep (x +:+ String (chr 61) "") +:+ "REDACTED")). intros v Hv. rewrite !app_nil_l.
  replace (x +:+ String (chr 61) (v +:+ q)) with ((x +:+ String (chr 61) "") +:+ v +:+ q)
    by (by rewrite sapp_assoc, app_cons, app_nil_l).
  rewrite match_secret_name; [|done|by rewrite sapp_assoc, app_cons, app_nil_l, name_found].
  pose proof (span_value v "" eq_refl Hv) as E. rewrite !app_nil_l in E. rewrite E. do 2 f_equal.
  rewrite !strlen_cons, !strlen_app, !strlen_cons. change (strlen "") with 0%nat. lia.
Qed.

Lemma secret_before_name c r t a : (byte c =? 63) || (byte c =? 38) = true ->
  r = a +:+ t -> strip_name secret_names r = Some t -> secret_before (String c r).
Proof using Hsep Hx Hq.
  intros Hc -> Ht. destruct sep_delimiter as (Hd & Hne & Hav).
  assert (Hmatch : forall v, match_secret (String c (a +:+ t) +:+ param v)
    = Some (String c a +:+ "REDACTED", (strlen (String c a) + strlen (span value_char (t +:+ param v)).1)%nat)).
  { intros v. rewrite app_cons, sapp_assoc. apply match_secret_name; [done|].
    rewrite <- sapp_assoc. by rewrite strip_name_sep, Ht. }
  destruct (all_of value_char t && value_char sep) eqn:Hts.
  - apply andb_prop in Hts as [Htv Hsv].
    eapply through_match. intros v Hv. rewrite Hmatch. do 2 f_equal.
    replace (t +:+ param v) with ((t +:+ String sep (x +:+ String (chr 61) "")) +:+ v +:+ q)
      by (by rewrite !sapp_assoc, !app_cons, sapp_assoc, app_cons, app_nil_l).
    rewrite span_value; [|rewrite all_of_app, Htv; simpl; by rewrite Hsv, all_of_app, name_value|done].
    rewrite !app_cons, !strlen_cons, !strlen_app, !strlen_cons, !strlen_app, !strlen_cons.
    change (strlen "") with 0%nat. lia.
  - assert (exists u w', t = u +:+ w' /\ forall y, (span value_char (t +:+ String sep y)).1 = u) as (u & w' & -> & Hspan).
    { destruct (all_of value_char t) eqn:Htv.
      - exists t, "". split; [by rewrite sapp_nil_r|]. intros y. rewrite span_all, span_end by done. apply sapp_nil_r.
      - destruct (span_stop value_char _ "" Htv) as (u & e & w & -> & Hu & He & _). exists u, (String e w).
        split; [done|]. intros y. rewrite sapp_assoc, app_cons, span_all, span_end by done. apply sapp_nil_r. }
    apply (inner_match _ _ _ _ _ (String c a +:+ "REDACTED") (String c a +:+ u) w').
    + by rewrite !app_cons, sapp_assoc.
    + done.
    + intros v _. by rewrite Hmatch, Hspan, strlen_app.
Qed.

Lemma secret_before_total p : secret_before p.
Proof using Hsep Hx Hq.
  destruct p as [|c r]; [apply secret_before_here|]. destruct sep_delimiter as (Hd & Hne & Hav).
  assert (forall v, strip_name secret_names (r +:+ param v)
    = match strip_name secret_names r with Some t => Some (t +:+ param v) | None => None end) as Hr
    by (intros v; by apply strip_name_sep).
  destruct ((byte c =? 63) || (byte c =? 38)) eqn:Hc.
  - destruct (strip_name secret_names r) as [t|] eqn:Ht.
    + pose proof Ht as Ha. apply strip_name_value in Ha as (a & Ha & _); [|reflexivity]. by eapply secret_before_name.
    + eapply no_match; [done|]. intros v _. rewrite app_cons. unfold match_secret. by rewrite Hc, Hr.
  - eapply no_match; [done|]. intros v _. rewrite app_cons. unfold match_secret. by rewrite Hc.
Qed.

End secret.


Lemma no_at_span p s : no_at s -> cut_last at_sign (span p s).1 = None.
Proof. rewrite (span_join p s) at 1. by intros [H _]%no_at_app. Qed.
Lemma scheme_not_sep c : scheme_char c = true -> negb ((byte c =? 63) || (byte c =? 38)) = true.
Proof.
  unfold scheme_char, is_alpha, in_range. rewrite !orb_true_iff, !andb_true_iff, !Z.leb_le, !Z.eqb_eq. intros H.
  apply negb_true_iff. rewrite orb_false_iff, !Z.eqb_neq. lia.
Qed.
Lemma sep_free_unmatched s : all_of (fun c => negb ((byte c =? 63) || (byte c =? 38))) s = true ->
  replace_all match_secret 0 s = s.
Proof.
  induction s as [|c s IH]; [done|]. cbn [all_of]. intros [Hc%negb_true_iff Hs]%andb_prop.
  rewrite replace_none; [by rewrite IH|]. unfold match_secret. by rewrite Hc.
Qed.
Lemma alpha_unmatched s : all_of is_alpha s = true -> replace_all match_userinfo 0 s = s.
Proof.
  induction s as [|c s IH]; [done|]. intros Ha. pose proof Ha as Hcs. cbn [all_of] in Hcs.
  apply andb_prop in Hcs as [Hc Hs]. rewrite replace_none; [by rewrite IH|]. unfold match_userinfo. rewrite Hc.
  rewrite <- (sapp_nil_r (String c s)), span_all by (by apply (all_of_impl _ _ _ alpha_scheme)). done.
Qed.

(** A password in the query that contains an at sign is not masked: the
    userinfo pass runs first and cuts through the last at sign, which takes the
    parameter's name and the first part of the password with it; the parameter
    pass no longer recognises what is left, and the rest of the password is
    returned in clear. *)
Theorem password_with_at_sign_leaks s h v1 v2 :
  is_scheme s = true -> all_of token_char h = true -> all_of token_char v1 = true ->
  all_of is_alpha v2 = true ->
  Text (s +:+ colon_slashes +:+ h +:+ "?password=" +:+ v1 +:+ String at_sign v2) = s +:+ colon_slashes +:+ v2.
Proof.
  intros Hs Hh H1 H2. destruct (is_scheme_head _ Hs) as (c & r & E & Hc).
  assert (no_at v2) as Hat by (by eapply (no_at_class is_alpha)).
  set (u := h +:+ "?password=" +:+ v1).
  assert (all_of token_char u = true) as Hu by (unfold u; by rewrite !all_of_app, Hh, H1).
  replace (h +:+ "?password=" +:+ v1 +:+ String at_sign v2) with (u +:+ String at_sign v2)
    by (unfold u; by rewrite !sapp_assoc).
  unfold Text. replace (contains_byte at_sign (s +:+ colon_slashes +:+ u +:+ String at_sign v2)) with true
    by (symmetry; rewrite <- !sapp_assoc; apply contains_at_sign).
  erewrite (replace_match match_userinfo _ (s +:+ colon_slashes) (s +:+ colon_slashes +:+ u +:+ String at_sign "") v2).
  - rewrite (alpha_unmatched v2) by done. rewrite sapp_assoc. apply sep_free_unmatched.
    rewrite !all_of_app. rewrite (all_of_impl _ _ s scheme_not_sep) by (by apply is_scheme_chars).
    by rewrite (all_of_impl _ _ v2 (fun c H => scheme_not_sep c (alpha_scheme c H))).
  - by rewrite !sapp_assoc, app_cons, app_nil_l.
  - by destruct s.
  - reflexivity.
  - rewrite (match_userinfo_start _ _ c r) by (done || by apply is_scheme_chars).
    destruct (cut_through_at u v2 Hu) as (x & y & -> & ->). do 2 f_equal. unfold behind_last_at.
    rewrite no_at_span by done. rewrite !strlen_app, strlen_cons.
    change (strlen colon_slashes) with 3%nat. change (strlen "") with 0%nat. lia.
Qed.

Lemma url_hides_credentials_witness :
  URL ("https" +:+ colon_slashes +:+ "user:p@ss/x" +:+ String at_sign "host:9090") = "https" +:+ colon_slashes +:+ "host:9090".
Proof. apply url_hides_credentials; reflexivity. Defined.
Lemma password_with_at_sign_leaks_witness :
  Text ("http" +:+ colon_slashes +:+ "ch:8123" +:+ "?password=" +:+ "hunter" +:+ String at_sign "secret")
  = "http" +:+ colon_slashes +:+ "secret".
Proof. apply password_with_at_sign_leaks; reflexivity. Defined.
