(* ===== verification/DiscoverySink.v ===== *)
(** * Delivery of discovery envelopes (pkg/discovery/sink.go, auth.go)

    [Envelope] and its wire text, one attempt ([post]) and the retry loop
    ([Post]).  The HTTP exchange and the waits between attempts are the
    environment: a script gives for every attempt whether the context ended
    during the wait before it and what the exchange returned.  gzip and the
    validity of the request URL are parameters. *)

From S2P Require Import Prelude GoText GoJson GoCrypto CanonJson GoMarshal.

#[local] Set Default Proof Using "Type".

(** [Type] *)
Definition TypeService : string := "service".
Definition TypeNode : string := "node".
Definition TypeJob : string := "job".
Definition TypeNamespace : string := "namespace".
Definition TypeHelmRelease : string := "helm_release".
Definition TypeAlertRules : string := "alert_rules".

Record Envelope := MkEnvelope {
  env_Type : string; env_Data : json; env_FullLoad : bool; env_BatchID : string; env_BatchSequence : Z;
  env_TotalBatches : Z; env_IsFirstBatch : bool; env_IsLastBatch : bool; env_Metadata : list (string * json) }.

(** ** The wire text *)
Definition bool_text (b : bool) : string := if b then "true" else "false".
Definition omit_zero (k : string) (n : Z) : list (string * string) := if n =? 0 then [] else [(k, itoa n)].
Definition omit_false (k : string) (b : bool) : list (string * string) := if b then [(k, bool_text b)] else [].
Definition omit_nil_map (k : string) (m : list (string * json)) : option (list (string * string)) :=
  match m with
  | [] => Some []
  | _ => match marshal (JObj m) with Some t => Some [(k, t)] | None => None end
  end.

(** [json.Marshal(env)] *)
Definition envelope_text (e : Envelope) : option string :=
  match marshal (env_Data e), omit_nil_map "metadata" (env_Metadata e) with
  | Some data, Some metadata =>
    Some (struct_text ([string_field "type" (env_Type e); ("data", data); ("full_load", bool_text (env_FullLoad e))]
      ++ omit_empty "batch_id" (env_BatchID e) ++ omit_zero "batch_sequence" (env_BatchSequence e)
      ++ omit_zero "total_batches" (env_TotalBatches e) ++ omit_false "is_first_batch" (env_IsFirstBatch e)
      ++ omit_false "is_last_batch" (env_IsLastBatch e) ++ metadata))
  | _, _ => None
  end.

(** [basicAuth] *)
Definition discovery_auth (secret : string) : string := b64_encode secret.

Record Sink := MkSink { sk_URL : string; sk_AuthSecret : string; sk_AccountID : string; sk_Cluster : string }.
Definition NewSink (backendURL authSecret accountID cluster : string) : Sink :=
  MkSink (trim_slashes backendURL) authSecret accountID cluster.

(** Waits before the retries, in nanoseconds. *)
Definition postBackoff : list Z := [2 * second; 5 * second; 15 * second].

Definition isRetriableStatus (code : Z) : bool :=
  (code =? 429) || (code =? 502) || (code =? 503) || (code =? 504).

(** What [HTTP.Do] returned; on an error, whether the context had ended. *)
Inductive http_result :=
  | TransportError (msg : string) (ctx_ended : bool)
  | Response (status : Z) (body : string).
(** The wait before the attempt was cut short by the context, and the exchange. *)
Record attempt := MkAttempt { at_cancelled : bool; at_result : http_result }.

Record post_request := MkPost { pr_url : string; pr_headers : list (string * string); pr_body : string }.
Definition header (k v : string) : list (string * string) := if bool_decide (v = "") then [] else [(k, v)].
Definition build_request (s : Sink) (body contentEncoding : string) : post_request :=
  MkPost (sk_URL s +:+ "/v1/k8s/discovery")
    ([("Content-Type", "application/json")] ++ header "Content-Encoding" contentEncoding
     ++ (if bool_decide (sk_AuthSecret s = "") then [] else [("Authorization", discovery_auth (sk_AuthSecret s))])
     ++ header "X-NB-Account-Id" (sk_AccountID s) ++ header "X-NB-Cluster" (sk_Cluster s))
    body.

(** The metric recorded for a call of [Post]. *)
Inductive sample := OnDiscoveryPost (typ : string) (fullLoad : bool) | OnDiscoveryError (typ : string).

(** The outcome of [Post]: its error, the requests sent, the waits that ran
    to their end, and the metric samples. *)
Record post_run := MkRun {
  run_err : option string; run_sent : list post_request; run_waited : list Z; run_samples : list sample }.

Section sink.
(** The gzip encoder, and the error of [http.NewRequestWithContext]. *)
Context (gzip : string -> string) (url_error : string -> option string).

(** One attempt: whether a retry could succeed, the error, the request sent. *)
Definition post (s : Sink) (body contentEncoding : string) (r : http_result) : bool * option string * list post_request :=
  match url_error (sk_URL s +:+ "/v1/k8s/discovery") with
  | Some e => (false, Some e, [])
  | None =>
    let req := [build_request s body contentEncoding] in
    match r with
    | TransportError msg ctx_ended => (negb ctx_ended, Some ("post: " +:+ msg), req)
    | Response code text =>
      if 400 <=? code
      then (isRetriableStatus code, Some ("HTTP " +:+ itoa code +:+ ": " +:+ String.substring 0 1024 text), req)
      else (false, None, req)
    end
  end.

(** The loop from attempt [k] on, with the waits that are left. *)
Fixpoint post_loop (s : Sink) (body contentEncoding : string) (script : nat -> attempt) (waits : list Z) (k : nat)
  : option string * list post_request * list Z :=
  let '(retriable, err, sent) := post s body contentEncoding (at_result (script k)) in
  match err with
  | None => (None, sent, [])
  | Some e =>
    if negb retriable then (Some e, sent, [])
    else match waits with
         | [] => (Some e, sent, [])
         | w :: waits =>
           if at_cancelled (script (S k)) then (Some "context canceled", sent, [])
           else let '(err, later, waited) := post_loop s body contentEncoding script waits (S k) in
                (err, sent ++ later, w :: waited)
         end
  end.

Definition encode_body (text : string) : string * string :=
  if 16384 <? Z.of_nat (strlen text) then (gzip text, "gzip") else (text, "").

Definition metered (e : Envelope) (r : option string * list post_request * list Z) : post_run :=
  let '(err, sent, waited) := r in
  MkRun err sent waited
    [match err with Some _ => OnDiscoveryError (env_Type e) | None => OnDiscoveryPost (env_Type e) (env_FullLoad e) end].

Definition Post (s : Sink) (script : nat -> attempt) (e : Envelope) : post_run :=
  metered e
    (if bool_decide (sk_URL s = "") then (Some "discovery: backend URL not configured", [], [])
     else match envelope_text e with
          | None => (Some "marshal envelope", [], [])
          | Some text => let '(body, contentEncoding) := encode_body text in
                         post_loop s body contentEncoding script postBackoff 0
          end).
End sink.

(** ** The wire text decodes to the envelope *)

(** The members the collector reads; integers as JSON numbers. *)
Definition envelope_members (e : Envelope) : list (string * json) :=
  [("type", JStr (env_Type e)); ("data", decoded (env_Data e)); ("full_load", JBool (env_FullLoad e))]
  ++ (if bool_decide (env_BatchID e = "") then [] else [("batch_id", JStr (env_BatchID e))])
  ++ (if env_BatchSequence e =? 0 then [] else [("batch_sequence", number_value (itoa (env_BatchSequence e)))])
  ++ (if env_TotalBatches e =? 0 then [] else [("total_batches", number_value (itoa (env_TotalBatches e)))])
  ++ (if env_IsFirstBatch e then [("is_first_batch", JBool true)] else [])
  ++ (if env_IsLastBatch e then [("is_last_batch", JBool true)] else [])
  ++ (match env_Metadata e with [] => [] | m => [("metadata", decoded (JObj m))] end).
Definition readable_envelope (e : Envelope) : bool :=
  valid_utf8 (env_Type e) && valid_utf8 (env_BatchID e)
  && readable (env_Data e) && readable (JObj (env_Metadata e))
  && (depth (env_Data e) <? max_nesting_depth) && (depth (JObj (env_Metadata e)) <? max_nesting_depth).

Definition field_reads (kt : string * string) (kv : string * json) : Prop :=
  kt.1 = kv.1 /\ valid_utf8 kt.1 = true /\ reads 1 kt.2 kv.2.
Lemma reads_bool d b : reads d (bool_text b) (JBool b).
Proof. apply reads_literal. destruct b; set_solver. Qed.
Lemma reads_itoa d z : reads d (itoa z) (number_value (itoa z)).
Proof. apply reads_number, lex_number_itoa. Qed.
Lemma reads_marshal v t : readable v = true -> depth v < max_nesting_depth -> marshal v = Some t ->
  reads 1 t (decoded v).
Proof. intros Hr Hd Ht. apply (marshal_reads v Hr 1 t Ht). lia. Qed.

Lemma one_field k t v : valid_utf8 k = true -> reads 1 t v -> Forall2 field_reads [(k, t)] [(k, v)].
Proof. intros. constructor; [done|apply Forall2_nil_2]. Qed.
Lemma omit_zero_reads k n : valid_utf8 k = true ->
  Forall2 field_reads (omit_zero k n) (if n =? 0 then [] else [(k, number_value (itoa n))]).
Proof. intros Hk. unfold omit_zero. destruct (n =? 0); [apply Forall2_nil_2|]. by apply one_field, reads_itoa. Qed.
Lemma omit_false_reads k b : valid_utf8 k = true ->
  Forall2 field_reads (omit_false k b) (if b then [(k, JBool true)] else []).
Proof. intros Hk. destruct b; [|apply Forall2_nil_2]. by apply one_field, (reads_bool 1 true). Qed.

Lemma envelope_reads e t : readable_envelope e = true -> envelope_text e = Some t ->
  exists fields, t = struct_text fields /\ Forall2 field_reads fields (envelope_members e).
Proof.
  unfold readable_envelope. rewrite !andb_true_iff, !Z.ltb_lt. intros [[[[[Ht Hb] Hr] Hrm] Hd] Hdm].
  unfold envelope_text. destruct (marshal (env_Data e)) as [data|] eqn:Ed; [|done].
  destruct (omit_nil_map "metadata" (env_Metadata e)) as [md|] eqn:Em; [|done]. intros [= <-].
  eexists. split; [reflexivity|]. unfold envelope_members.
  apply Forall2_cons; split; [by split_and!; [..|apply reads_marshal_string]|].
  apply Forall2_cons; split; [by split_and!; [..|apply reads_marshal]|].
  apply Forall2_cons; split; [by split_and!; [..|apply reads_bool]|].
  repeat apply Forall2_app.
  - unfold omit_empty. case_bool_decide; [apply Forall2_nil_2|]. by apply one_field, reads_marshal_string.
  - by apply omit_zero_reads.
  - by apply omit_zero_reads.
  - by apply omit_false_reads.
  - by apply omit_false_reads.
  - unfold omit_nil_map in Em. destruct (env_Metadata e) as [|kv m] eqn:E.
    + injection Em as <-. apply Forall2_nil_2.
    + destruct (marshal (JObj (kv :: m))) as [t|] eqn:Et; [|done]. injection Em as <-. by apply one_field, reads_marshal.
Qed.
Lemma envelope_members_keys e : NoDup (envelope_members e).*1.
Proof.
  unfold envelope_members. destruct (env_Metadata e);
    repeat match goal with |- context [if ?b then _ else _] => destruct b end; by apply (bool_decide_unpack _).
Qed.

(** An envelope of readable values has a text, and the text decodes to the
    envelope: the members the collector reads, in order, with the omitted
    fields missing; a list of resources decodes to a list, also an empty one,
    never to null. *)
Theorem envelope_decodes e : readable_envelope e = true ->
  exists t, envelope_text e = Some t /\ parse t = Some (JObj (envelope_members e)) /\
    (forall l, env_Data e = JArr l -> assoc "data" (envelope_members e) = Some (JArr (map decoded l))).
Proof.
  intros He. assert (is_Some (envelope_text e)) as [t Ht].
  { pose proof He as H. unfold readable_envelope in H. rewrite !andb_true_iff in H. destruct H as [[[[[_ _] Hr] Hrm] _] _].
    unfold envelope_text. destruct (marshal_readable_total _ Hr) as [d ->]. unfold omit_nil_map.
    destruct (env_Metadata e) as [|kv m]; [by eexists|].
    destruct (marshal_readable_total _ Hrm) as [d' ->]. by eexists. }
  exists t. split; [done|]. split.
  - destruct (envelope_reads e t He Ht) as (fields & -> & Hf). apply struct_parses; [exact Hf|apply envelope_members_keys].
  - intros l Hl. unfold envelope_members. by rewrite Hl.
Qed.

(** ** The retry loop *)
Definition accepted (r : http_result) : bool :=
  match r with Response code _ => code <? 400 | TransportError _ _ => false end.
Definition retried (r : http_result) : bool :=
  match r with Response code _ => isRetriableStatus code | TransportError _ ctx_ended => negb ctx_ended end.

Section delivery.
Context (gzip : string -> string) (url_error : string -> option string).
Context (s : Sink) (script : nat -> attempt).
Notation result k := (at_result (script k)).

Lemma retried_refused r : retried r = true -> accepted r = false.
Proof.
  destruct r as [|code]; [done|]. unfold retried, accepted, isRetriableStatus.
  rewrite !orb_true_iff, !Z.eqb_eq, Z.ltb_ge. lia.
Qed.

(** Attempt [k] comes from attempts that could be retried and waits that ran
    to their end. *)
Definition reached (from k : nat) : Prop :=
  forall j, (from <= j < k)%nat -> retried (result j) = true /\ at_cancelled (script (S j)) = false.

Lemma post_spec body enc r : url_error (sk_URL s +:+ "/v1/k8s/discovery") = None ->
  exists b e, post url_error s body enc r = (b, e, [build_request s body enc]) /\
    (e = None <-> accepted r = true) /\ (e <> None -> b = retried r).
Proof.
  intros Hurl. unfold post. rewrite Hurl. destruct r as [msg ended|code text]; [by eexists _, _|].
  simpl. destruct (Z.leb_spec 400 code); eexists _, _; (split; [reflexivity|]).
  - split; [|done]. rewrite Z.ltb_lt. split; [done|lia].
  - split; [|done]. rewrite Z.ltb_lt. split; [lia|done].
Qed.

(** The loop that started at attempt [k] ends at attempt [k + n], with [m]
    waits allowed. *)
Definition ends (k n m : nat) (err : option string) : Prop :=
  (n <= m)%nat /\ reached k (k + n) /\ (err = None <-> accepted (result (k + n)) = true) /\
  (err <> None -> retried (result (k + n)) = false \/ n = m \/ at_cancelled (script (S (k + n))) = true).
Lemma ends_here k m (err : option string) : (err = None <-> accepted (result k) = true) ->
  (err <> None -> retried (result k) = false \/ 0%nat = m \/ at_cancelled (script (S k)) = true) -> ends k 0 m err.
Proof. intros Ha Hs. unfold ends. rewrite Nat.add_0_r. split_and!; [lia|intros j Hj; lia|done|done]. Qed.
Lemma ends_later k n m err : retried (result k) = true -> at_cancelled (script (S k)) = false ->
  ends (S k) n m err -> ends k (S n) (S m) err.
Proof.
  intros Hr Hc (Hn & Hreach & Ha & Hs). unfold ends. replace (k + S n)%nat with (S k + n)%nat by lia. split_and!; [lia| |done|].
  - intros j Hj. destruct (decide (j = k)) as [->|]; [done|]. apply Hreach. lia.
  - intros He. destruct (Hs He) as [?|[->|?]]; auto.
Qed.

Lemma post_loop_spec body enc waits k err sent waited :
  url_error (sk_URL s +:+ "/v1/k8s/discovery") = None ->
  post_loop url_error s body enc script waits k = (err, sent, waited) ->
  exists n, ends k n (length waits) err /\ sent = replicate (S n) (build_request s body enc) /\ waited = take n waits.
Proof.
  intros Hurl. revert k err sent waited. induction waits as [|w waits IH]; intros k err sent waited.
  all: cbn [post_loop]; destruct (post_spec body enc (result k) Hurl) as (b & e & -> & He & Hb).
  all: destruct e as [e|]; [specialize (Hb ltac:(done)); subst b; destruct (retried (result k)) eqn:Er; cbn [negb]|].
  all: try (intros [= <- <- <-]; exists 0%nat; split; [apply ends_here; [done|]|done]; by auto).
  destruct (at_cancelled (script (S k))) eqn:Ec.
  - intros [= <- <- <-]. exists 0%nat. split; [|done]. apply ends_here; [|by auto].
    split; [done|]. intros Ha. apply He in Ha. done.
  - destruct (post_loop url_error s body enc script waits (S k)) as [[err' later] waited'] eqn:El.
    intros [= <- <- <-]. destruct (IH _ _ _ _ El) as (n & Hn & -> & ->). exists (S n). split; [by apply ends_later|done].
Qed.
End delivery.


Lemma envelope_decodes_witness :
  exists t, envelope_text (MkEnvelope TypeService (JArr []) true "snap-1" 2 2 false true []) = Some t /\
    parse t = Some (JObj (envelope_members (MkEnvelope TypeService (JArr []) true "snap-1" 2 2 false true []))).
Proof.
  destruct (envelope_decodes (MkEnvelope TypeService (JArr []) true "snap-1" 2 2 false true []) eq_refl) as (t & Ht & Hp & _).
  by exists t.
Defined.
