(* ===== verification/Discovery.v ===== *)
(** * Resource discovery (pkg/discovery/service.go)

    Informer callbacks, snapshots (single and batched), the incremental
    worker and the owner index.  Objects, their converters and the caches
    client-go keeps are arguments; the sink is used through the interface
    [EnvelopeSink], which the delivery of DiscoverySink.v implements. *)

From stdpp Require Import gmap strings.
From S2P Require Import Prelude GoText GoJson GoMarshal DiscoverySink.

#[local] Set Default Proof Using "Type".

(** ** What the service needs of the sink

    Posting an envelope reports an error or not, and what was posted, with
    its outcome, is recorded in order. *)
Class EnvelopeSink (W : Type) := {
  sink_post : Envelope -> W -> option string * W;
  posted : W -> list (Envelope * bool);
  sink_post_logs e w : posted (sink_post e w).2 = posted w ++ [(e, bool_decide ((sink_post e w).1 = None))] }.

(** [Sink] implements it: every post consumes the next script of exchanges. *)
Record SinkState := MkSinkState { ss_posts : nat; ss_log : list (Envelope * bool) }.
Section sink_instance.
Context (gzip : string -> string) (url_error : string -> option string) (s : Sink) (scripts : nat -> nat -> attempt).
Definition sink_step (e : Envelope) (w : SinkState) : option string * SinkState :=
  let r := Post gzip url_error s (scripts (ss_posts w)) e in
  (run_err r, MkSinkState (S (ss_posts w)) (ss_log w ++ [(e, bool_decide (run_err r = None))])).
Definition http_sink : EnvelopeSink SinkState :=
  {| sink_post := sink_step; posted := ss_log; sink_post_logs _ _ := eq_refl |}.
End sink_instance.

(** ** Objects and handlers *)

(** What an informer hands to its callbacks. *)
Inductive event_obj (obj : Type) :=
  | Obj (o : obj)
  | DeletedFinalStateUnknown (key : string) (o : obj).
Arguments Obj {obj} o.
Arguments DeletedFinalStateUnknown {obj} key o.

(** [GetByKey] *)
Inductive cache_entry (obj : Type) := CacheError | Missing | Present (o : obj).
Arguments CacheError {obj}.
Arguments Missing {obj}.
Arguments Present {obj} o.

(** [resourceHandler], without the queue: what is put on the queue is the
    output of the operations. *)
Record resourceHandler (obj : Type) := MkHandler {
  rh_typ : string; rh_converter : obj -> option json; rh_tomb : gmap string json }.
Arguments MkHandler {obj} _ _ _.
Arguments rh_typ {obj} _.
Arguments rh_converter {obj} _.
Arguments rh_tomb {obj} _.

(** [Options] and the service's copies of them. *)
Record Options := MkOptions {
  o_SnapshotBatching : bool; o_BatchSize : Z; o_IncrementalBatch : Z; o_IncrementalWindow : duration; o_EmitTombstones : bool }.
Record Config := MkConfig {
  c_snapshotBatching : bool; c_batchSize : Z; c_incrementalBatch : Z; c_incrementalWindow : duration; c_emitTombstones : bool }.
Definition new_config : Config := MkConfig false 1000 1 0 false.
Definition SetOptions (o : Options) (c : Config) : Config :=
  MkConfig (o_SnapshotBatching o) (if 0 <? o_BatchSize o then o_BatchSize o else c_batchSize c)
    (if 0 <? o_IncrementalBatch o then o_IncrementalBatch o else c_incrementalBatch c)
    (o_IncrementalWindow o) (o_EmitTombstones o).

(** ** Snapshots *)
Section snapshots.
Context {obj W : Type} `{EnvelopeSink W}.
(** A handler with what its cache lists. *)
Notation listed := (resourceHandler obj * list obj)%type.

Definition convert_all (h : listed) : list json := omap (rh_converter h.1) h.2.

(** [maxInt] *)
Definition maxInt (a b : Z) : Z := if b <? a then a else b.

Definition batch_size (c : Config) : Z := if c_batchSize c <=? 0 then 1000 else c_batchSize c.
Definition total_batches (total batchSize : Z) : Z :=
  let n := maxInt (total + batchSize - 1) 0 `quot` maxInt batchSize 1 in if n =? 0 then 1 else n.
Definition batch_envelope (typ batchID : string) (total batchSize : Z) (seq : Z) (chunk : list json) (last : bool)
  : Envelope :=
  MkEnvelope typ (JArr chunk) true batchID seq (total_batches total batchSize) (seq =? 1) last [].

(** The loop of [emitTypeBatched] with the closure [flush]: [chunk] is what
    has been collected, [seq] the number of envelopes sent. *)
Fixpoint batch_loop (flush : Z -> list json -> bool -> W -> option string * W) (batchSize : Z)
    (items : list (obj * resourceHandler obj)) (chunk : list json) (seq : Z) (w : W) : option string * W :=
  match items with
  | [] => flush (seq + 1) chunk true w
  | (raw, h) :: rest =>
    match rh_converter h raw with
    | None => batch_loop flush batchSize rest chunk seq w
    | Some item =>
      let chunk := chunk ++ [item] in
      if (batchSize <=? Z.of_nat (length chunk)) && (0 <? Z.of_nat (length rest))
      then let '(err, w) := flush (seq + 1) chunk false w in
           match err with
           | Some e => (Some e, w)
           | None => batch_loop flush batchSize rest [] (seq + 1) w
           end
      else batch_loop flush batchSize rest chunk seq w
    end
  end.

Definition raw_items (hs : list listed) : list (obj * resourceHandler obj) :=
  concat (map (fun h => map (fun raw => (raw, h.1)) h.2) hs).
(** [now] is the clock reading in the batch id. *)
Definition emitTypeBatched (c : Config) (now : Z) (typ : string) (hs : list listed) (w : W) : option string * W :=
  let batchSize := batch_size c in
  let items := raw_items hs in
  let batchID := "snap-" +:+ typ +:+ "-" +:+ itoa now in
  batch_loop (fun seq chunk last => sink_post (batch_envelope typ batchID (Z.of_nat (length items)) batchSize seq chunk last))
    batchSize items [] 0 w.

(** [firstErr] over a sequence of posts. *)
Fixpoint first_error {A} (f : A -> W -> option string * W) (l : list A) (w : W) : option string * W :=
  match l with
  | [] => (None, w)
  | x :: l =>
    let '(e, w) := f x w in
    let '(e', w) := first_error f l w in
    (match e with Some _ => e | None => e' end, w)
  end.

(** The types in the order in which handlers were registered. *)
Fixpoint type_order (hs : list listed) (seen : list string) : list string :=
  match hs with
  | [] => []
  | h :: hs => if bool_decide (rh_typ h.1 ∈ seen) then type_order hs seen
               else rh_typ h.1 :: type_order hs (rh_typ h.1 :: seen)
  end.
Definition of_type (typ : string) (hs : list listed) : list listed :=
  filter (fun h => rh_typ h.1 = typ) hs.
Definition emitBatched (c : Config) (now : string -> Z) (hs : list listed) (w : W) : option string * W :=
  first_error (fun typ => emitTypeBatched c (now typ) typ (of_type typ hs)) (type_order hs []) w.

(** [byType]: only types with an item have an entry. *)
Definition add_items (byType : list (string * list json)) (h : listed) : list (string * list json) :=
  match convert_all h with
  | [] => byType
  | items => mset (rh_typ h.1) (default [] (assoc (rh_typ h.1) byType) ++ items) byType
  end.
Definition by_type (hs : list listed) : list (string * list json) := foldl add_items [] hs.
Definition single_envelope (batchID : string) (ti : string * list json) : Envelope :=
  MkEnvelope ti.1 (JArr ti.2) true batchID 1 1 true true [].
(** [iter] is the order in which Go visits the map. *)
Definition emitSingle (iter : list (string * list json) -> list (string * list json)) (now : Z) (hs : list listed) (w : W)
  : option string * W :=
  first_error (fun ti => sink_post (single_envelope ("snap-" +:+ itoa now) ti)) (iter (by_type hs)) w.
End snapshots.

(** ** Incremental updates *)
(** What a worker does with a key on the rate-limited queue. *)
Inductive queue_op := Forget (key : string) | AddRateLimited (key : string).

Section incremental.
Context {obj W : Type} `{EnvelopeSink W}.

Definition stashTombstone (key : string) (item : json) (h : resourceHandler obj) : resourceHandler obj :=
  MkHandler (rh_typ h) (rh_converter h) (<[key := item]> (rh_tomb h)).
Definition popTombstone (key : string) (h : resourceHandler obj) : option json * resourceHandler obj :=
  match rh_tomb h !! key with
  | Some item => (Some item, MkHandler (rh_typ h) (rh_converter h) (delete key (rh_tomb h)))
  | None => (None, h)
  end.

(** [processBatch] up to the post: the items, the converted keys, the queue
    operations and the handler. *)
Record drained := MkDrained {
  dr_items : list json; dr_converted : list string; dr_ops : list queue_op; dr_handler : resourceHandler obj }.
Definition process_key (emitTombstones : bool) (get : string -> cache_entry obj) (d : drained) (key : string) : drained :=
  match get key with
  | CacheError => MkDrained (dr_items d) (dr_converted d) (dr_ops d ++ [AddRateLimited key]) (dr_handler d)
  | Missing =>
    if emitTombstones then
      let '(tomb, h) := popTombstone key (dr_handler d) in
      MkDrained (dr_items d ++ match tomb with Some t => [t] | None => [] end) (dr_converted d) (dr_ops d ++ [Forget key]) h
    else MkDrained (dr_items d) (dr_converted d) (dr_ops d ++ [Forget key]) (dr_handler d)
  | Present raw =>
    match rh_converter (dr_handler d) raw with
    | None => MkDrained (dr_items d) (dr_converted d) (dr_ops d ++ [Forget key]) (dr_handler d)
    | Some item => MkDrained (dr_items d ++ [item]) (dr_converted d ++ [key]) (dr_ops d) (dr_handler d)
    end
  end.
Definition drain_keys (emitTombstones : bool) (get : string -> cache_entry obj) (keys : list string)
    (h : resourceHandler obj) : drained :=
  foldl (process_key emitTombstones get) (MkDrained [] [] [] h) keys.

Definition incremental_envelope (typ : string) (items : list json) : Envelope :=
  MkEnvelope typ (JArr items) false "" 0 0 false false [].
Definition processBatch (c : Config) (get : string -> cache_entry obj) (keys : list string) (h : resourceHandler obj) (w : W)
  : list queue_op * resourceHandler obj * W :=
  let d := drain_keys (c_emitTombstones c) get keys h in
  match dr_items d with
  | [] => (dr_ops d, dr_handler d, w)
  | items =>
    let '(err, w) := sink_post (incremental_envelope (rh_typ h) items) w in
    match err with
    | Some _ => (dr_ops d, dr_handler d, w)
    | None => (dr_ops d ++ map Forget (dr_converted d), dr_handler d, w)
    end
  end.

(** What the worker sees of the queue while it coalesces: nothing queued,
    before or after its deadline; a key; the shut-down. *)
Inductive queue_view := Empty (before_deadline : bool) | Key (key : string) | ShutDown.
Fixpoint coalesce (c : Config) (views : list queue_view) (keys : list string) : list string :=
  if Z.of_nat (length keys) <? c_incrementalBatch c then
    match views with
    | [] | ShutDown :: _ => keys
    | Empty before :: views =>
      if (c_incrementalWindow c <=? 0) || negb before then keys else coalesce c views keys
    | Key k :: views => coalesce c views (keys ++ [k])
    end
  else keys.
Definition worker_keys (c : Config) (key : string) (views : list queue_view) : list string :=
  if 1 <? c_incrementalBatch c then coalesce c views [key] else [key].

(** *** Informer callbacks: the handler after the event, and the keys added to
    the queue *)
Section callbacks.
Variable MetaNamespaceKeyFunc : event_obj obj -> option string.
(** [meta.Accessor] and [GetResourceVersion]. *)
Variable resource_version : event_obj obj -> option string.

Definition enqueue (o : event_obj obj) : list string :=
  match MetaNamespaceKeyFunc o with Some key => [key] | None => [] end.
Definition sameResourceVersion (old new : event_obj obj) : bool :=
  match resource_version old, resource_version new with
  | Some o, Some n => negb (bool_decide (o = "")) && bool_decide (o = n)
  | _, _ => false
  end.
Definition unwrapDeleted (o : event_obj obj) : obj :=
  match o with DeletedFinalStateUnknown _ o | Obj o => o end.
Definition mark_deleted (item : json) : json :=
  match item with JObj m => JObj (mset "deleted" (JBool true) m) | _ => item end.

Definition on_add (o : event_obj obj) : list string := enqueue o.
Definition on_update (old new : event_obj obj) : list string :=
  if sameResourceVersion old new then [] else enqueue new.
Definition on_delete (c : Config) (o : event_obj obj) (h : resourceHandler obj) : resourceHandler obj * list string :=
  let h := if c_emitTombstones c then
             match MetaNamespaceKeyFunc o with
             | Some key => match rh_converter h (unwrapDeleted o) with
                           | Some item => stashTombstone key (mark_deleted item) h
                           | None => h
                           end
             | None => h
             end
           else h in
  (h, enqueue o).
End callbacks.
End incremental.

(** ** The owner index *)
Record OwnerReference := MkOwnerReference {
  or_Kind : string; or_Name : string; or_UID : string; or_Controller : option bool }.
(** [controllerOwner] *)
Definition controllerOwner (refs : list OwnerReference) : option OwnerReference :=
  match find (fun r => bool_decide (or_Controller r = Some true)) refs with
  | Some r => Some r
  | None => head refs
  end.
Record IndexedPod := MkIndexedPod {
  ip_Name : string; ip_Namespace : string; ip_OwnerReferences : list OwnerReference;
  ip_QOSClass : string; ip_PodIP : string; ip_Conditions : nat }.

Section index.
(** The ReplicaSet cache: the owner references of a cached set. *)
Variable rs_get : string -> option (list OwnerReference).

Definition workloadOwnerUIDs (p : IndexedPod) : list string :=
  match controllerOwner (ip_OwnerReferences p) with
  | None => []
  | Some ctrl =>
    or_UID ctrl ::
    (if bool_decide (or_Kind ctrl = "ReplicaSet") then
       match rs_get (ip_Namespace p +:+ "/" +:+ or_Name ctrl) with
       | Some owners => match controllerOwner owners with Some r => [or_UID r] | None => [] end
       | None => []
       end
     else [])
  end.
Definition reports_status (p : IndexedPod) : bool :=
  negb (bool_decide (ip_QOSClass p = "") && bool_decide (ip_PodIP p = "") && (ip_Conditions p =? 0)%nat).
Definition index_pod (p : IndexedPod) (idx : gmap string IndexedPod) (uid : string) : gmap string IndexedPod :=
  match idx !! uid with Some _ => idx | None => <[uid := p]> idx end.
Definition buildPodIndex (pods : list IndexedPod) : gmap string IndexedPod :=
  foldl (fun idx p => if reports_status p then foldl (index_pod p) idx (workloadOwnerUIDs p) else idx) ∅ pods.
(** [podLookup], with the published index. *)
Definition podLookup (idx : option (gmap string IndexedPod)) (uid : string) : option IndexedPod :=
  match idx with Some idx => idx !! uid | None => None end.
End index.

(** [emitAllSnapshots]: the index is published first; [hs] are the handlers
    with converters that read it. *)
Definition emitAllSnapshots {obj W} `{EnvelopeSink W} (rs_get : string -> option (list OwnerReference)) (c : Config)
    (iter : list (string * list json) -> list (string * list json)) (now : string -> Z)
    (pods : list IndexedPod) (hs : option (gmap string IndexedPod) -> list (resourceHandler obj * list obj)) (w : W)
  : gmap string IndexedPod * (option string * W) :=
  let idx := buildPodIndex rs_get pods in
  (idx, if c_snapshotBatching c then emitBatched c now (hs (Some idx)) w
        else emitSingle iter (now "") (hs (Some idx)) w).

(** ** Batched snapshots *)
Section batching.
Context {obj W : Type} `{EnvelopeSink W}.
Context (typ id : string) (total B : Z).
Notation env := (batch_envelope typ id total B).
Notation flush := (fun seq chunk last => sink_post (env seq chunk last)).
Definition converted (items : list (obj * resourceHandler obj)) : list json :=
  omap (fun it => rh_converter it.2 it.1) items.

(** The log of a run that sent [chunks] after [seq] earlier envelopes: all
    but the last were accepted, the last one with [ok]; only it can carry the
    end mark. *)
Fixpoint batch_log (seq : Z) (chunks : list (list json)) (complete ok : bool) : list (Envelope * bool) :=
  match chunks with
  | [] => []
  | [c] => [(env (seq + 1) c complete, ok)]
  | c :: chunks => (env (seq + 1) c false, true) :: batch_log (seq + 1) chunks complete ok
  end.
Lemma batch_log_cons seq c chunks complete ok : chunks <> [] ->
  batch_log seq (c :: chunks) complete ok = (env (seq + 1) c false, true) :: batch_log (seq + 1) chunks complete ok.
Proof. by destruct chunks. Qed.

(** What a run of the loop from [chunk] and [items] sends. *)
Record batched (items : list (obj * resourceHandler obj)) (chunk : list json) (chunks : list (list json))
    (complete ok : bool) (err : option string) : Prop := {
  bt_some : chunks <> [];
  bt_size : Forall (fun c => Z.of_nat (length c) <= B) chunks;
  bt_prefix : concat chunks `prefix_of` chunk ++ converted items;
  bt_complete : complete = true -> concat chunks = chunk ++ converted items;
  bt_aborted : complete = false -> ok = false;
  bt_err : err = None <-> ok = true;
  bt_count : (Z.of_nat (length chunks) - 1) * B <= Z.max 0 (Z.of_nat (length chunk + length items) - 1) }.

Lemma batched_dropped it items chunk chunks complete ok err :
  rh_converter it.2 it.1 = None -> batched items chunk chunks complete ok err ->
  batched (it :: items) chunk chunks complete ok err.
Proof. intros Hc []. unfold converted in *. split; simpl; rewrite ?Hc; auto. lia. Qed.
Lemma batched_kept it item items chunk chunks complete ok err :
  rh_converter it.2 it.1 = Some item -> batched items (chunk ++ [item]) chunks complete ok err ->
  batched (it :: items) chunk chunks complete ok err.
Proof.
  intros Hc []. unfold converted in *. split; simpl; rewrite ?Hc, <- ?app_assoc in *; auto.
  rewrite length_app in *. simpl in *. lia.
Qed.
Lemma batched_flushed items chunk chunks complete ok err : Z.of_nat (length chunk) = B -> items <> [] ->
  batched items [] chunks complete ok err -> batched items chunk (chunk :: chunks) complete ok err.
Proof.
  intros Hc Hi []. split; simpl; auto.
  - constructor; [lia|done].
  - by apply prefix_app.
  - intros Hd. by rewrite bt_complete0.
  - destruct items; [done|]. simpl in *. lia.
Qed.

Lemma batch_loop_spec items chunk seq (w : W) err w' : 0 < B ->
  Z.of_nat (length chunk) <= B -> (items <> [] -> Z.of_nat (length chunk) < B) ->
  batch_loop flush B items chunk seq w = (err, w') ->
  exists chunks complete ok,
    posted w' = posted w ++ batch_log seq chunks complete ok /\ batched items chunk chunks complete ok err.
Proof.
  intros HB. revert chunk seq w. induction items as [|[raw h] items IH]; intros chunk seq w Hc Hlt; cbn [batch_loop].
  - pose proof (sink_post_logs (env (seq + 1) chunk true) w) as Hlog.
    destruct (sink_post (env (seq + 1) chunk true) w) as [e w1]. simpl in Hlog. intros [= <- <-].
    exists [chunk], true, (bool_decide (e = None)). split; [done|].
    split; simpl; rewrite ?app_nil_r; try done; [by constructor|by rewrite bool_decide_eq_true|lia].
  - specialize (Hlt ltac:(done)). destruct (rh_converter h raw) as [item|] eqn:Econv.
    + rewrite length_app. simpl length.
      destruct ((B <=? Z.of_nat (length chunk + 1)) && (0 <? Z.of_nat (length items))) eqn:Efl.
      * apply andb_prop in Efl as [E1%Z.leb_le E2%Z.ltb_lt].
        pose proof (sink_post_logs (env (seq + 1) (chunk ++ [item]) false) w) as Hlog.
        destruct (sink_post (env (seq + 1) (chunk ++ [item]) false) w) as [[e|] w1]; simpl in Hlog.
        -- intros [= <- <-]. exists [chunk ++ [item]], false, false. split; [done|].
           apply (batched_kept _ item); [done|]. split; simpl; rewrite ?app_nil_r; try done.
           ++ constructor; [rewrite length_app; simpl; lia|done].
           ++ apply prefix_app_r. done.
           ++ lia.
        -- intros Hrun. destruct (IH [] (seq + 1) w1) as (chunks & complete & ok & Hl & Hb); [simpl; lia..|done|].
           exists ((chunk ++ [item]) :: chunks), complete, ok. split.
           ++ rewrite Hl, Hlog, batch_log_cons by apply Hb. by rewrite <- app_assoc.
           ++ apply (batched_kept _ item); [done|]. apply batched_flushed; [rewrite length_app; simpl; lia| |done].
              intros ->. simpl in E2. lia.
      * intros Hrun. destruct (IH (chunk ++ [item]) seq w) as (chunks & complete & ok & Hl & Hb);
          [rewrite length_app; simpl; lia| |done|].
        -- intros Hne. rewrite length_app. simpl. apply andb_false_iff in Efl as [E%Z.leb_gt|E%Z.ltb_ge]; [lia|].
           destruct items; [done|]. simpl in E. lia.
        -- exists chunks, complete, ok. split; [done|]. by apply (batched_kept _ item).
    + intros Hrun. destruct (IH chunk seq w) as (chunks & complete & ok & Hl & Hb); [done|done|done|].
      exists chunks, complete, ok. split; [done|]. by apply batched_dropped.
Qed.
End batching.

(** The resources a list of envelopes carries. *)
Definition carried (log : list (Envelope * bool)) : list json := concat (map (fun eb => as_arr (env_Data eb.1)) log).

Section batch_log.
Context (typ id : string) (total B : Z).
Notation env := (batch_envelope typ id total B).
Notation batch_log := (batch_log typ id total B).

Lemma batch_log_carried seq chunks complete ok : carried (batch_log seq chunks complete ok) = concat chunks.
Proof.
  revert seq. induction chunks as [|c chunks IH]; intros seq; [done|].
  destruct chunks as [|c' chunks]; [done|]. rewrite batch_log_cons by done.
  unfold carried in *. rewrite map_cons. cbn [concat]. by rewrite IH.
Qed.
Lemma batch_log_length seq chunks complete ok : length (batch_log seq chunks complete ok) = length chunks.
Proof.
  revert seq. induction chunks as [|c chunks IH]; intros seq; [done|].
  destruct chunks as [|c' chunks]; [done|]. rewrite batch_log_cons by done. cbn [length]. by rewrite IH.
Qed.
Lemma batch_log_lookup seq chunks complete ok i e b : batch_log seq chunks complete ok !! i = Some (e, b) ->
  exists c, chunks !! i = Some c /\
    e = env (seq + 1 + Z.of_nat i) c (bool_decide (S i = length chunks) && complete) /\
    b = (if bool_decide (S i = length chunks) then ok else true).
Proof.
  revert seq i. induction chunks as [|c chunks IH]; intros seq i; [done|].
  destruct chunks as [|c' chunks].
  - destruct i; [|done]. intros [= <- <-]. exists c. split; [done|]. by rewrite Z.add_0_r.
  - rewrite batch_log_cons by done. destruct i as [|i].
    + intros [= <- <-]. exists c. split; [done|]. by rewrite Z.add_0_r.
    + cbn [lookup list_lookup]. intros (x & Hx & -> & ->)%IH. exists x. split; [done|]. cbn [length].
      split; [f_equal; [lia|f_equal; apply bool_decide_ext; lia]|].
      repeat case_bool_decide; simpl in *; try done; lia.
Qed.
Lemma batch_log_last seq chunks complete ok : chunks <> [] ->
  exists e, last (batch_log seq chunks complete ok) = Some (e, ok) /\ env_IsLastBatch e = complete.
Proof.
  revert seq. induction chunks as [|c chunks IH]; intros seq Hne; [done|].
  destruct chunks as [|c' chunks]; [by eexists|]. rewrite batch_log_cons by done.
  destruct (IH (seq + 1)) as (e & He & Hl); [done|]. exists e. split; [|done].
  rewrite last_cons. by rewrite He.
Qed.
End batch_log.

Lemma batch_size_pos c : 0 < batch_size c.
Proof. unfold batch_size. destruct (Z.leb_spec (c_batchSize c) 0); lia. Qed.
Lemma total_batches_spec n B : 0 < B -> 0 <= n -> (Z.max 0 (n - 1)) / B + 1 = total_batches n B.
Proof.
  intros HB Hn. unfold total_batches, maxInt.
  replace (if 0 <? n + B - 1 then n + B - 1 else 0) with (n + B - 1) by (destruct (Z.ltb_spec 0 (n + B - 1)); lia).
  replace (if 1 <? B then B else 1) with B by (destruct (Z.ltb_spec 1 B); lia).
  rewrite Z.quot_div_nonneg by lia. destruct (decide (n = 0)) as [->|].
  - rewrite (Z.div_small (0 + B - 1)) by lia. rewrite Z.div_small by lia. done.
  - replace (n + B - 1) with ((n - 1) + 1 * B) by lia. rewrite Z.div_add by lia. rewrite Z.max_r by lia.
    assert (0 <= (n - 1) / B) by (apply Z.div_pos; lia). destruct (Z.eqb_spec ((n - 1) / B + 1) 0); lia.
Qed.
Lemma converted_raw_items {obj} (hs : list (resourceHandler obj * list obj)) :
  converted (raw_items hs) = concat (map convert_all hs).
Proof.
  assert (forall h l, converted (map (fun raw : obj => (raw, h)) l) = omap (rh_converter h) l) as Hone.
  { intros h l. induction l as [|x l IH]; [done|]. unfold converted in *. simpl.
    destruct (rh_converter h x); [f_equal|]; apply IH. }
  induction hs as [|[h l] hs IH]; [done|]. unfold raw_items, convert_all in *. simpl. rewrite <- IH, <- Hone.
  apply omap_app.
Qed.

(** C10: A batched snapshot of a type is a numbered sequence of full-load
    envelopes: the first and only the first is marked as first, every number
    stays within [total_batches], no envelope has more than the batch size,
    all envelopes but the last were accepted by the backend and the resources
    they carry, in order, are a prefix of the converted cache.  The end mark,
    on which the backend drops what it did not see, is only ever on the last
    envelope, and then the envelopes together carry every converted resource.
    The call succeeds exactly when the envelope with the end mark was
    accepted; if it fails earlier no end mark was sent. *)
Theorem snapshot_batches {obj W} `{EnvelopeSink W} c now typ (hs : list (resourceHandler obj * list obj)) (w w' : W) err :
  emitTypeBatched c now typ hs w = (err, w') ->
  exists log final ok, posted w' = posted w ++ log /\ last log = Some (final, ok) /\
    (forall i e b, log !! i = Some (e, b) ->
       env_Type e = typ /\ env_FullLoad e = true /\ env_BatchSequence e = Z.of_nat i + 1 /\
       env_IsFirstBatch e = bool_decide (i = 0%nat) /\ env_BatchSequence e <= env_TotalBatches e /\
       (exists l, env_Data e = JArr l /\ Z.of_nat (length l) <= batch_size c) /\
       ((S i < length log)%nat -> b = true /\ env_IsLastBatch e = false)) /\
    carried log `prefix_of` concat (map convert_all hs) /\
    (env_IsLastBatch final = true -> carried log = concat (map convert_all hs)) /\
    (err = None <-> ok = true) /\ (ok = true -> env_IsLastBatch final = true).
Proof.
  intros Hrun. pose proof (batch_size_pos c) as HB. unfold emitTypeBatched in Hrun.
  apply batch_loop_spec in Hrun as (chunks & complete & ok & Hl & []); [|done|simpl; lia|simpl; lia].
  rewrite converted_raw_items in *. simpl app in *. simpl length in bt_count0.
  destruct (batch_log_last typ ("snap-" +:+ typ +:+ "-" +:+ itoa now) (Z.of_nat (length (raw_items hs))) (batch_size c) 0
    chunks complete ok bt_some0) as (final & Hlast & Hfinal).
  eexists _, final, ok. split; [exact Hl|]. split; [exact Hlast|]. split; [|rewrite batch_log_carried, Hfinal].
  - intros i e b (l & Hli & -> & ->)%batch_log_lookup. simpl. rewrite batch_log_length.
    pose proof (lookup_lt_Some _ _ _ Hli) as Hi. split_and!; try done; try lia.
    + destruct i; [done|]. rewrite bool_decide_false by done. apply Z.eqb_neq. lia.
    + rewrite <- total_batches_spec by lia.
      assert (Z.of_nat (length chunks) - 1 <= Z.max 0 (Z.of_nat (length (raw_items hs)) - 1) / batch_size c)
        by (apply Z.div_le_lower_bound; [done|]; rewrite Z.mul_comm; exact bt_count0). lia.
    + exists l. split; [done|]. by eapply Forall_lookup_1 in bt_size0.
    + intros Hlt. rewrite bool_decide_false by lia. done.
  - split_and!; try done. intros ->. destruct complete; [done|]. by specialize (bt_aborted0 eq_refl).
Qed.

(** ** Single snapshots *)
Lemma mset_keys_NoDup {A} k (v : A) m : NoDup m.*1 -> NoDup (mset k v m).*1.
Proof.
  induction m as [|[j w] m IH]; csimpl; [intros _; apply NoDup_singleton|]. intros [Hj Hm]%NoDup_cons.
  case_decide; csimpl; apply NoDup_cons; [by subst|]. split; [|by apply IH].
  intros Hin. apply assoc_None in Hj. apply (assoc_None j (mset k v m)); [|done].
  rewrite assoc_mset. by rewrite decide_False.
Qed.

Section single.
Context {obj W : Type} `{EnvelopeSink W}.
Implicit Type hs : list (resourceHandler obj * list obj).

(** What the caches hold of a type, converted. *)
Definition of_type_items (typ : string) hs : list json := concat (map convert_all (of_type typ hs)).

Lemma of_type_items_snoc typ hs h : of_type_items typ (hs ++ [h])
  = of_type_items typ hs ++ (if decide (rh_typ h.1 = typ) then convert_all h else []).
Proof.
  unfold of_type_items, of_type. rewrite filter_app, map_app, concat_app. f_equal.
  rewrite filter_cons, filter_nil. case_decide; simpl; [apply app_nil_r|done].
Qed.
Lemma by_type_spec hs : NoDup (by_type hs).*1 /\
  forall typ, assoc typ (by_type hs) = if decide (of_type_items typ hs = []) then None else Some (of_type_items typ hs).
Proof.
  induction hs as [|h hs [Hnd Hget]] using rev_ind; [split; [constructor|done]|].
  unfold by_type in *. rewrite foldl_app. cbn [foldl].
  set (m := foldl add_items [] hs) in *. unfold add_items.
  destruct (convert_all h) as [|x l] eqn:Ec.
  - split; [done|]. intros typ. rewrite Hget, of_type_items_snoc, Ec.
    assert ((if decide (rh_typ h.1 = typ) then [] else []) = @nil json) as -> by (by case_decide). by rewrite app_nil_r.
  - split; [by apply mset_keys_NoDup|]. intros typ. rewrite assoc_mset, of_type_items_snoc, Ec.
    destruct (decide (typ = rh_typ h.1)) as [->|Hne].
    + rewrite (decide_True (P := rh_typ h.1 = rh_typ h.1)) by done.
      rewrite (decide_False (P := _ ++ _ = [])) by (intros [_ ?]%app_nil; done). do 2 f_equal.
      rewrite Hget. by case_decide as E; [rewrite E|].
    + rewrite (decide_False (P := rh_typ h.1 = typ)) by congruence. by rewrite app_nil_r, Hget.
Qed.

Lemma first_error_log {A} (mk : A -> Envelope) l (w w' : W) err :
  first_error (fun x => sink_post (mk x)) l w = (err, w') ->
  exists oks, posted w' = posted w ++ zip (map mk l) oks /\ length oks = length l /\
    (err = None <-> Forall (eq true) oks).
Proof.
  revert w err. induction l as [|x l IH]; intros w err; cbn [first_error].
  - intros [= <- <-]. exists []. split_and!; [by rewrite app_nil_r|done|done].
  - pose proof (sink_post_logs (mk x) w) as Hlog. destruct (sink_post (mk x) w) as [e w1]. simpl in Hlog.
    destruct (first_error _ l w1) as [e' w2] eqn:Er. intros [= <- <-].
    destruct (IH _ _ Er) as (oks & Hp & Hlen & Hok). exists (bool_decide (e = None) :: oks).
    split_and!; [|simpl; by rewrite Hlen|].
    + rewrite Hp, Hlog. simpl. by rewrite <- app_assoc.
    + rewrite Forall_cons, <- Hok. destruct e; [|by rewrite bool_decide_true; naive_solver]. naive_solver.
Qed.

(** An unbatched snapshot sends one envelope per type that has a
    resource, marked as first and last, with everything the caches hold of
    that type in the order of registration; whatever the order in which the
    map is visited.  The call succeeds exactly when all were accepted. *)
Theorem single_snapshot iter now hs (w w' : W) err :
  (forall l, iter l ≡ₚ l) -> emitSingle iter now hs w = (err, w') ->
  exists log, posted w' = posted w ++ log /\ (err = None <-> Forall (fun eb => eb.2 = true) log) /\
    NoDup (map (fun eb => env_Type eb.1) log) /\
    forall e, e ∈ log.*1 <->
      exists typ, of_type_items typ hs <> [] /\ e = single_envelope ("snap-" +:+ itoa now) (typ, of_type_items typ hs).
Proof.
  intros Hiter Hrun. destruct (by_type_spec hs) as [Hnd Hget]. unfold emitSingle in Hrun.
  apply (first_error_log (single_envelope ("snap-" +:+ itoa now))) in Hrun as (oks & Hp & Hlen & Hok).
  set (id := "snap-" +:+ itoa now) in *. eexists. split; [exact Hp|]. split_and!.
  - rewrite Hok, !Forall_forall. split.
    + intros Hall [e b] Hin. apply elem_of_zip_r in Hin. simpl. symmetry. by apply Hall.
    + intros Hall b Hb. apply list_elem_of_lookup in Hb as [i Hi].
      destruct (lookup_lt_is_Some_2 (iter (by_type hs)) i) as [x Hx].
      { rewrite <- Hlen. by eapply lookup_lt_Some. }
      symmetry. apply (Hall (single_envelope id x, b)). apply list_elem_of_lookup. exists i.
      rewrite lookup_zip_Some. split; [|done]. by rewrite list_lookup_fmap, Hx.
  - assert (map (fun eb : Envelope * bool => env_Type eb.1) (zip (map (single_envelope id) (iter (by_type hs))) oks)
      = (iter (by_type hs)).*1) as ->; [|by rewrite Hiter].
    rewrite <- (map_map fst env_Type). change (map fst) with (fmap (M := list) (@fst Envelope bool)).
    rewrite fst_zip by (rewrite length_map; lia). rewrite map_map. done.
  - intros e. rewrite fst_zip by (rewrite length_map; lia). rewrite list_elem_of_fmap. split.
    + intros ([typ items] & -> & Hin). rewrite Hiter in Hin. apply In_assoc in Hin; [|done].
      rewrite Hget in Hin. case_decide; [done|]. injection Hin as <-. by exists typ.
    + intros (typ & Hne & ->). eexists. split; [reflexivity|]. rewrite Hiter. apply assoc_In.
      rewrite Hget. by rewrite decide_False.
Qed.
End single.

(** A type none of whose resources is left is not mentioned in an
    unbatched snapshot at all, so the backend is never told that they are
    gone; a batched snapshot sends one empty envelope with both marks. *)
Theorem emptied_type_unreported {obj W} `{EnvelopeSink W} c iter now typ (hs : list (resourceHandler obj * list obj))
    (w w1 : W) err1 :
  (forall l, iter l ≡ₚ l) -> of_type_items typ hs = [] ->
  emitSingle iter now hs w = (err1, w1) ->
  (exists log, posted w1 = posted w ++ log /\ forall eb, eb ∈ log -> env_Type eb.1 <> typ) /\
  exists e ok, posted (emitTypeBatched c now typ (of_type typ hs) w).2 = posted w ++ [(e, ok)] /\
    env_Data e = JArr [] /\ env_IsFirstBatch e = true /\ env_IsLastBatch e = true.
Proof.
  intros Hiter He Hrun. split.
  - destruct (by_type_spec hs) as [Hnd Hget]. unfold emitSingle in Hrun.
    apply (first_error_log (single_envelope ("snap-" +:+ itoa now))) in Hrun as (oks & Hp & Hlen & Hok).
    eexists. split; [exact Hp|]. intros [e b] Hin. apply elem_of_zip_l, list_elem_of_fmap in Hin as ([t items] & -> & Hin).
    rewrite Hiter in Hin. apply In_assoc in Hin; [|done]. simpl. intros ->. rewrite Hget, He in Hin. done.
  - assert (forall (f : Z -> list json -> bool -> W -> option string * W) B items chunk seq w,
      converted (obj := obj) items = [] -> batch_loop f B items chunk seq w = f (seq + 1) chunk true w) as Hloop.
    { intros f B items chunk seq w0. induction items as [|[raw h] items IH]; [done|]. unfold converted in *. simpl.
      destruct (rh_converter h raw); [done|]. apply IH. }
    unfold emitTypeBatched. rewrite Hloop by (by rewrite converted_raw_items).
    eexists _, _. by rewrite sink_post_logs.
Qed.

(** ** Incremental updates *)
Section updates.
Context {obj W : Type} `{EnvelopeSink W}.
Context (c : Config) (get : string -> cache_entry obj).

(** What a key contributes to the envelope and what happens to it on the
    queue before the post. *)
Definition key_item (h : resourceHandler obj) (key : string) : option json :=
  match get key with
  | CacheError => None
  | Missing => if c_emitTombstones c then rh_tomb h !! key else None
  | Present raw => rh_converter h raw
  end.
Definition key_converted (h : resourceHandler obj) (key : string) : bool :=
  match get key with Present raw => bool_decide (is_Some (rh_converter h raw)) | _ => false end.
Definition key_op (h : resourceHandler obj) (key : string) : option queue_op :=
  match get key with
  | CacheError => Some (AddRateLimited key)
  | _ => if key_converted h key then None else Some (Forget key)
  end.
Definition popped (h : resourceHandler obj) (keys : list string) (key : string) : bool :=
  c_emitTombstones c && bool_decide (key ∈ keys) && match get key with Missing => true | _ => false end.

Lemma popped_snoc h keys key k : popped h (keys ++ [key]) k
  = popped h keys k || (c_emitTombstones c && bool_decide (k = key) && match get key with Missing => true | _ => false end).
Proof.
  unfold popped. destruct (decide (k = key)) as [->|Hne].
  - rewrite (bool_decide_true (key ∈ keys ++ [key])) by set_solver. rewrite (bool_decide_true (key = key)) by done.
    by destruct (c_emitTombstones c), (bool_decide (key ∈ keys)), (get key).
  - rewrite (bool_decide_false (k = key)) by done. rewrite andb_false_r, orb_false_r. do 2 f_equal.
    apply bool_decide_ext. set_solver.
Qed.

Lemma drain_spec keys h : NoDup keys ->
  let d := drain_keys (c_emitTombstones c) get keys h in
  dr_items d = omap (key_item h) keys /\ dr_converted d = filter (fun k => key_converted h k = true) keys /\
  dr_ops d = omap (key_op h) keys /\ rh_typ (dr_handler d) = rh_typ h /\ rh_converter (dr_handler d) = rh_converter h /\
  forall k, rh_tomb (dr_handler d) !! k = if popped h keys k then None else rh_tomb h !! k.
Proof.
  intros Hnd. induction keys as [|key keys IH] using rev_ind.
  - simpl. split_and!; try done. intros k. unfold popped. rewrite (bool_decide_false (k ∈ [])) by set_solver.
    by rewrite andb_false_r.
  - apply NoDup_app in Hnd as (Hnd & Hdis & _). unfold drain_keys in *. rewrite foldl_app. cbn [foldl].
    assert (key ∉ keys) as Hkey by (intros Hin; apply (Hdis _ Hin); set_solver).
    destruct (IH Hnd) as (E1 & E2 & E3 & E4 & E5 & E6). set (d := foldl _ _ keys) in *.
    assert (popped h keys key = false) as Hpop by (unfold popped; rewrite (bool_decide_false (key ∈ keys)) by done;
      by rewrite andb_false_r).
    rewrite !omap_app, filter_app. cbn [omap list_omap]. rewrite filter_cons, filter_nil.
    setoid_rewrite popped_snoc. unfold process_key, key_item, key_op, key_converted in *. destruct (get key) as [| |raw].
    + split_and!; simpl; rewrite ?app_nil_r, ?E3; try done. intros k. rewrite andb_false_r, orb_false_r. apply E6.
    + destruct (c_emitTombstones c) eqn:Em.
      * unfold popTombstone. rewrite E6, Hpop. destruct (rh_tomb h !! key) as [t|] eqn:Et.
        -- split_and!; simpl; rewrite ?app_nil_r, ?E1, ?E3; try done. intros k. rewrite andb_true_r.
           destruct (decide (k = key)) as [->|Hne]; [by rewrite lookup_delete_eq, bool_decide_true, orb_true_r|].
           rewrite lookup_delete_ne, bool_decide_false, orb_false_r by done. apply E6.
        -- split_and!; simpl; rewrite ?app_nil_r, ?E3; try done. intros k. rewrite andb_true_r, E6.
           destruct (decide (k = key)) as [->|Hne]; [by rewrite bool_decide_true, orb_true_r, Hpop|].
           by rewrite bool_decide_false, orb_false_r.
      * split_and!; simpl; rewrite ?app_nil_r, ?E3; try done. intros k. rewrite orb_false_r. apply E6.
    + assert (forall k, rh_tomb (dr_handler d) !! k
        = if popped h keys k || (c_emitTombstones c && bool_decide (k = key) && false) then None else rh_tomb h !! k) as Htomb.
      { intros k. rewrite andb_false_r, orb_false_r. apply E6. }
      rewrite E5. destruct (rh_converter h raw) as [item|]; simpl.
      * split_and!; simpl; rewrite ?app_nil_r, ?E1, ?E2; done.
      * split_and!; simpl; rewrite ?app_nil_r, ?E3; done.
Qed.

(** An incremental batch: the keys contribute, in order, the converted
    object, or for a deleted one its tombstone, which is taken from the stash;
    if nothing is contributed nothing is posted, otherwise exactly one
    envelope without snapshot marks.  Every key is accounted for: it is
    retried exactly when the cache could not be read, and otherwise forgotten,
    unless it was converted and the post failed. *)
Theorem updates_accounted keys h (w w' : W) ops h' : NoDup keys ->
  processBatch c get keys h w = (ops, h', w') ->
  let items := omap (key_item h) keys in
  exists log, posted w' = posted w ++ log /\
    log.*1 = (if bool_decide (items = []) then [] else [incremental_envelope (rh_typ h) items]) /\
    (forall k, k ∈ keys -> (AddRateLimited k ∈ ops <-> get k = CacheError) /\
       (Forget k ∈ ops <-> get k <> CacheError /\ (key_converted h k = true -> Forall (fun eb => eb.2 = true) log))) /\
    (forall k, rh_tomb h' !! k = if popped h keys k then None else rh_tomb h !! k).
Proof.
  intros Hnd Hrun items. destruct (drain_spec keys h Hnd) as (E1 & E2 & E3 & _ & _ & E6).
  unfold processBatch in Hrun. set (d := drain_keys _ _ _ _) in *. fold items in E1.
  assert (forall k, k ∈ keys -> (AddRateLimited k ∈ dr_ops d <-> get k = CacheError) /\
    (Forget k ∈ dr_ops d <-> get k <> CacheError /\ key_converted h k = false)) as Hops.
  { intros k Hk. rewrite E3. setoid_rewrite list_elem_of_omap. unfold key_op. split.
    - split; [intros (k' & _ & E); destruct (get k') eqn:G; [congruence|..]; by destruct (key_converted h k')|].
      intros E. exists k. by rewrite E.
    - split.
      + intros (k' & _ & E). destruct (get k') eqn:G; [done|..]; destruct (key_converted h k') eqn:K; simplify_eq; by rewrite G.
      + intros [Hg Hc]. exists k. rewrite Hc. by destruct (get k). }
  assert (forall k, key_converted h k = true -> get k <> CacheError) as Hconv
    by (unfold key_converted; intros k Hk Hg; by rewrite Hg in Hk).
  destruct (dr_items d) as [|i l] eqn:Ei.
  - injection Hrun as <- <- <-. exists []. rewrite app_nil_r. rewrite <- E1, bool_decide_true by done.
    split_and!; [done|done| |done]. intros k Hk. destruct (Hops k Hk) as [Ha Hf]. split; [done|]. rewrite Hf.
    destruct (key_converted h k) eqn:K; [|naive_solver]. exfalso.
    unfold key_converted in K. destruct (get k) as [| |raw] eqn:G; try done.
    apply bool_decide_eq_true in K as [item Hitem].
    assert (item ∈ items) as Hin; [|rewrite <- E1 in Hin; by apply elem_of_nil in Hin].
    apply list_elem_of_omap. exists k. split; [done|]. unfold key_item. by rewrite G.
  - rewrite <- E1, bool_decide_false by done.
    pose proof (sink_post_logs (incremental_envelope (rh_typ h) (i :: l)) w) as Hlog.
    destruct (sink_post (incremental_envelope (rh_typ h) (i :: l)) w) as [[e|] w1]; simpl in Hlog;
      injection Hrun as <- <- <-; eexists; (split; [exact Hlog|]); (split; [done|]); (split; [|done]); intros k Hk;
      destruct (Hops k Hk) as [Ha Hf].
    + split; [done|]. rewrite Hf, Forall_singleton. simpl. destruct (key_converted h k); naive_solver.
    + rewrite !elem_of_app. setoid_rewrite list_elem_of_fmap. rewrite Forall_singleton. simpl. split.
      * rewrite Ha. naive_solver.
      * rewrite Hf, E2. setoid_rewrite list_elem_of_filter. destruct (key_converted h k) eqn:K; [|naive_solver].
        split; [intros _; split; [by apply Hconv|done]|]. intros _. right. by exists k.
Qed.
End updates.

(** ** Deletions *)
Section deletions.
Context {obj W : Type} `{EnvelopeSink W}.
Context (c : Config) (MetaNamespaceKeyFunc : event_obj obj -> option string).

Lemma drain_missing get key (h : resourceHandler obj) : get key = Missing ->
  drain_keys true get [key] h
  = match rh_tomb h !! key with
    | Some t => MkDrained [t] [] [Forget key] (MkHandler (rh_typ h) (rh_converter h) (delete key (rh_tomb h)))
    | None => MkDrained [] [] [Forget key] h
    end.
Proof.
  intros Hg. unfold drain_keys. cbn [foldl]. unfold process_key. rewrite Hg. unfold popTombstone. simpl.
  by destruct (rh_tomb h !! key).
Qed.

(** With tombstones on, a deletion the informer saw puts the key on the
    queue, and the worker that finds the key gone posts the last converted
    state of the object, marked as deleted, exactly once: a second visit of
    the key posts nothing. *)
Theorem deletion_reported_once get get' key o item h (w w1 w2 : W) ops1 ops2 h1 h2 :
  c_emitTombstones c = true -> MetaNamespaceKeyFunc (Obj o) = Some key -> rh_converter h o = Some item ->
  get key = Missing -> get' key = Missing ->
  processBatch c get [key] (on_delete MetaNamespaceKeyFunc c (Obj o) h).1 w = (ops1, h1, w1) ->
  processBatch c get' [key] h1 w1 = (ops2, h2, w2) ->
  (on_delete MetaNamespaceKeyFunc c (Obj o) h).2 = [key] /\
  (exists ok, posted w2 = posted w ++ [(incremental_envelope (rh_typ h) [mark_deleted item], ok)]) /\
  ops1 = [Forget key] /\ ops2 = [Forget key].
Proof.
  intros Ht Hk Hc Hg Hg' H1 H2. unfold on_delete, enqueue in *. rewrite Hk in *. cbn [fst snd] in *. split; [done|].
  rewrite Ht in H1. simpl unwrapDeleted in H1. rewrite Hc in H1. unfold processBatch in H1, H2. rewrite Ht in H1, H2.
  rewrite drain_missing in H1 by done. simpl in H1. rewrite lookup_insert_eq in H1. simpl in H1.
  pose proof (sink_post_logs (incremental_envelope (rh_typ h) [mark_deleted item]) w) as Hlog.
  destruct (sink_post (incremental_envelope (rh_typ h) [mark_deleted item]) w) as [e w1']. simpl in Hlog.
  assert (h1 = MkHandler (rh_typ h) (rh_converter h) (delete key (<[key := mark_deleted item]> (rh_tomb h)))
    /\ w1 = w1' /\ ops1 = [Forget key]) as (-> & -> & ->) by (destruct e; simpl in H1;  by injection H1 as <- <- <-).
  rewrite drain_missing in H2 by done. simpl in H2. rewrite lookup_delete_eq in H2. simpl in H2.
  injection H2 as <- <- <-. split; [by eexists|done].
Qed.

(** A deletion the informer only learned of from a relist arrives as a
    [DeletedFinalStateUnknown], for which [MetaNamespaceKeyFunc] has no key:
    it is neither stashed nor queued, although [unwrapDeleted] prepares for it. *)
Lemma relisted_deletion_dropped key o h : MetaNamespaceKeyFunc (DeletedFinalStateUnknown key o) = None ->
  on_delete MetaNamespaceKeyFunc c (DeletedFinalStateUnknown key o) h = (h, []).
Proof. intros Hk. unfold on_delete, enqueue. rewrite Hk. by destruct (c_emitTombstones c). Qed.

(** The replay of an unchanged cache queues nothing. *)
Lemma resync_queues_nothing resource_version o v : resource_version o = Some v -> v <> "" ->
  on_update MetaNamespaceKeyFunc resource_version o o = [].
Proof.
  intros Hv Hne. unfold on_update, sameResourceVersion. rewrite Hv.
  by rewrite bool_decide_false, bool_decide_true.
Qed.
End deletions.

Lemma coalesce_bounded c views keys :
  (Z.of_nat (length (coalesce c views keys)) <= Z.max (Z.of_nat (length keys)) (c_incrementalBatch c)) /\
  keys `prefix_of` coalesce c views keys.
Proof.
  revert keys. induction views as [|v views IH]; intros keys; cbn [coalesce].
  - destruct (_ <? _); split; done || lia.
  - destruct (Z.ltb_spec (Z.of_nat (length keys)) (c_incrementalBatch c)); [|split; [lia|done]].
    destruct v as [before|k|]; [|..|split; [lia|done]].
    + destruct (_ || _); [split; [lia|done]|apply IH].
    + destruct (IH (keys ++ [k])) as [Hl Hp]. rewrite length_app in Hl. simpl in Hl. split; [lia|].
      etransitivity; [|exact Hp]. by apply prefix_app_r.
Qed.
(** A worker's batch starts with the key it waited for and stays within the
    configured size. *)
Lemma worker_keys_bounded c key views :
  Z.of_nat (length (worker_keys c key views)) <= Z.max 1 (c_incrementalBatch c) /\ head (worker_keys c key views) = Some key.
Proof.
  unfold worker_keys. destruct (1 <? c_incrementalBatch c); [|split; simpl; [lia|done]].
  destruct (coalesce_bounded c views [key]) as [Hl [l Hp]]. split; [exact Hl|]. by rewrite Hp.
Qed.

(** ** The owner index *)
Lemma index_uids p uids idx uid :
  foldl (index_pod p) idx uids !! uid
  = match idx !! uid with Some q => Some q | None => if bool_decide (uid ∈ uids) then Some p else None end.
Proof.
  revert idx. induction uids as [|u uids IH]; intros idx; cbn [foldl].
  - rewrite bool_decide_false by set_solver. by destruct (idx !! uid).
  - rewrite IH. unfold index_pod. destruct (decide (u = uid)) as [->|Hne].
    + rewrite (bool_decide_true (uid ∈ uid :: uids)) by set_solver.
      destruct (idx !! uid) as [q|] eqn:E; [by rewrite E|]. by rewrite lookup_insert_eq.
    + assert ((match idx !! u with Some _ => idx | None => <[u := p]> idx end) !! uid = idx !! uid) as ->
        by (destruct (idx !! u); [done|by rewrite lookup_insert_ne]).
      destruct (idx !! uid); [done|]. erewrite bool_decide_ext; [reflexivity|]. set_solver.
Qed.

Section index_spec.
Variable rs_get : string -> option (list OwnerReference).
Definition represents (uid : string) (p : IndexedPod) : bool :=
  reports_status p && bool_decide (uid ∈ workloadOwnerUIDs rs_get p).

(** The index a snapshot publishes is the reference search: a workload's
    representative is the first pod of the cache, in its order, that has
    reported a status and belongs to the workload directly or through its
    ReplicaSet. *)
Theorem pod_index_spec pods uid :
  podLookup (Some (buildPodIndex rs_get pods)) uid = find (represents uid) pods.
Proof.
  simpl. unfold buildPodIndex.
  assert (forall idx : gmap string IndexedPod,
    foldl (fun idx p => if reports_status p then foldl (index_pod p) idx (workloadOwnerUIDs rs_get p) else idx) idx pods !! uid
    = match idx !! uid with Some q => Some q | None => find (represents uid) pods end) as Hgen; [|by rewrite Hgen, lookup_empty].
  induction pods as [|p pods IH]; intros idx; cbn [foldl find]; [by destruct (idx !! uid)|].
  rewrite IH. unfold represents at 2. destruct (reports_status p); simpl; [|done].
  rewrite index_uids. destruct (idx !! uid); [done|]. by destruct (bool_decide _).
Qed.
End index_spec.

(** ** Samples *)
Definition demo_sink : Sink := NewSink "https://collector/" "s3cret" "acct" "c1".
(** Post number [n]: the third is refused at once, the others are accepted,
    the first after a 503. *)
Definition demo_scripts (n k : nat) : attempt :=
  MkAttempt false (match n, k with
                   | 0, 0 => Response 503 "broker away"
                   | 2, _ => Response 400 "bad"
                   | _, _ => Response 200 ""
                   end)%nat.
#[local] Instance demo_http : EnvelopeSink SinkState := http_sink id (fun _ => None) demo_sink demo_scripts.
Definition demo_convert (o : string) : option json :=
  if bool_decide (o = "") then None else Some (JObj [("name", JStr o); ("deleted", JBool false)]).
Definition demo_handler : resourceHandler string := MkHandler TypeService demo_convert ∅.
Definition demo_jobs : resourceHandler string := MkHandler TypeJob demo_convert ∅.
Definition demo_config : Config := SetOptions (MkOptions true 2 10 0 true) new_config.
Definition start_state : SinkState := MkSinkState 0 [].

Lemma snapshot_batches_witness :
  exists log final ok, posted (emitTypeBatched demo_config 7 TypeService [(demo_handler, ["a"; "b"; ""; "c"])] start_state).2 = [] ++ log /\
    last log = Some (final, ok) /\ ok = true /\ length log = 2%nat.
Proof.
  destruct (snapshot_batches demo_config 7 TypeService [(demo_handler, ["a"; "b"; ""; "c"])] start_state _ _
    (surjective_pairing _)) as (log & final & ok & Hp & Hl & _ & _ & _ & Hok & _).
  exists log, final, ok. split; [exact Hp|]. split; [exact Hl|]. split; [by apply Hok; vm_compute|].
  change (posted start_state ++ log) with log in Hp. by rewrite <- Hp; vm_compute.
Defined.
Lemma single_snapshot_witness :
  exists log, posted (emitSingle id 7 [(demo_handler, ["a"]); (demo_jobs, [""])] start_state).2 = [] ++ log /\
    NoDup (map (fun eb => env_Type eb.1) log).
Proof.
  destruct (single_snapshot id 7 [(demo_handler, ["a"]); (demo_jobs, [""])] start_state _ _ (fun l => reflexivity l)
    (surjective_pairing _)) as (log & Hp & _ & Hnd & _). by exists log.
Defined.
Lemma emptied_type_unreported_witness :
  exists e ok, posted (emitTypeBatched demo_config 7 TypeJob (of_type TypeJob [(demo_handler, ["a"]); (demo_jobs, [""])])
    start_state).2 = [] ++ [(e, ok)] /\ env_Data e = JArr [] /\ env_IsFirstBatch e = true /\ env_IsLastBatch e = true.
Proof.
  refine (proj2 (emptied_type_unreported demo_config id 7 TypeJob [(demo_handler, ["a"]); (demo_jobs, [""])] start_state _ _
    (fun l => reflexivity l) eq_refl (surjective_pairing _))).
Defined.
Lemma eta3 {A B C} (x : A * B * C) : x = (x.1.1, x.1.2, x.2).
Proof. by destruct x as [[] ]. Qed.
Definition demo_get (key : string) : cache_entry string :=
  if bool_decide (key = "ns/a") then Present "a" else if bool_decide (key = "ns/err") then CacheError else Missing.
Lemma updates_accounted_witness :
  exists log, posted (processBatch demo_config demo_get ["ns/a"; "ns/err"; "ns/gone"] demo_handler start_state).2 = [] ++ log /\
    log.*1 = [incremental_envelope TypeService [JObj [("name", JStr "a"); ("deleted", JBool false)]]].
Proof.
  assert (NoDup ["ns/a"; "ns/err"; "ns/gone"]) as Hnd by (by apply (bool_decide_unpack _)).
  destruct (updates_accounted demo_config demo_get ["ns/a"; "ns/err"; "ns/gone"] demo_handler start_state
    (processBatch demo_config demo_get ["ns/a"; "ns/err"; "ns/gone"] demo_handler start_state).2
    (processBatch demo_config demo_get ["ns/a"; "ns/err"; "ns/gone"] demo_handler start_state).1.1
    (processBatch demo_config demo_get ["ns/a"; "ns/err"; "ns/gone"] demo_handler start_state).1.2 Hnd (eta3 _))
    as (log & Hp & Hl & _).
  exists log. split; [exact Hp|]. rewrite Hl. reflexivity.
Defined.
Definition demo_key (o : event_obj string) : option string :=
  match o with Obj o => Some ("ns/" +:+ o) | DeletedFinalStateUnknown _ _ => None end.
Lemma deletion_reported_once_witness :
  let run1 := processBatch demo_config (fun _ => Missing) ["ns/a"] (on_delete demo_key demo_config (Obj "a") demo_handler).1 start_state in
  let run2 := processBatch demo_config (fun _ => Missing) ["ns/a"] run1.1.2 run1.2 in
  exists ok, posted run2.2
  = [(incremental_envelope TypeService [JObj [("name", JStr "a"); ("deleted", JBool true)]], ok)].
Proof.
  intros run1 run2.
  destruct (deletion_reported_once demo_config demo_key (fun _ => Missing) (fun _ => Missing) "ns/a" "a"
    (JObj [("name", JStr "a"); ("deleted", JBool false)]) demo_handler start_state run1.2 run2.2 run1.1.1 run2.1.1
    run1.1.2 run2.1.2) as (_ & [ok Hok] & _); try reflexivity; try apply eta3.
  exists ok. exact Hok.
Defined.
