(* ===== verification/DiscoveryConvert.v ===== *)
(** * Discovery converters (pkg/discovery/converters.go, transform.go,
    helm.go, and the pod converter of service.go)

    Kubernetes objects are records of what the code reads and what the cache
    transform strips; a [resource.Quantity] is given by the values its
    accessors return, an Argo Rollout by what the accessors of the
    unstructured object return.  Wire items are JSON values. *)

From stdpp Require Import strings.
From S2P Require Import Prelude GoText GoJson GoStruct GoCrypto GoTime GoFloat DiscoverySink Discovery.

#[local] Set Default Proof Using "Type".

(** ** Objects *)
Definition smap := option (list (string * string)).
Record Quantity := MkQuantity { q_Value : Z; q_MilliValue : Z; q_AsInt64 : option Z; q_String : string }.
Definition ResourceList := list (string * Quantity).

Record ObjectMeta := MkMeta {
  om_Name : string; om_Namespace : string; om_UID : string; om_ResourceVersion : string; om_Creation : time;
  om_Labels : smap; om_Annotations : smap; om_Owners : list OwnerReference; om_ManagedFields : list string }.
Record Container := MkContainer {
  cn_Name : string; cn_Image : string; cn_Requests : ResourceList; cn_Limits : ResourceList;
  cn_Env : list string; cn_EnvFrom : list string; cn_VolumeMounts : list string; cn_VolumeDevices : list string;
  cn_Liveness : option string; cn_Readiness : option string; cn_Startup : option string; cn_Lifecycle : option string }.
Record Toleration := MkToleration {
  to_Key : string; to_Operator : string; to_Value : string; to_Effect : string; to_Seconds : option Z }.
(** A volume and the claim it mounts, if any; the affinity as its JSON text. *)
Record PodSpec := MkPodSpec {
  sp_Containers : list Container; sp_InitContainers : list Container; sp_EphemeralContainers : list string;
  sp_Volumes : list (string * option string); sp_Tolerations : list Toleration; sp_Affinity : option string;
  sp_NodeSelector : smap; sp_ServiceAccountName : string; sp_NodeName : string }.
Record PodTemplate := MkTemplate { tp_Labels : smap; tp_ManagedFields : list string; tp_Spec : PodSpec }.
Record ContainerStatus := MkContainerStatus { ct_Name : string; ct_Ready : bool; ct_RestartCount : Z }.
(** [ps_dict] is the status as it is encoded. *)
Record PodStatus := MkPodStatus {
  ps_Phase : string; ps_QOSClass : string; ps_PodIP : string; ps_Conditions : list (string * string);
  ps_ContainerStatuses : list ContainerStatus; ps_dict : json }.
Record Pod := MkPod { pd_Meta : ObjectMeta; pd_Spec : PodSpec; pd_Status : PodStatus }.
(** Deployment, StatefulSet, DaemonSet, ReplicaSet: the spec's replicas, or
    what a DaemonSet reports instead. *)
Record Controller := MkController {
  co_Meta : ObjectMeta; co_Replicas : option Z; co_Desired : Z; co_Ready : Z; co_Template : PodTemplate }.
Record JobStatus := MkJobStatus {
  js_Active : Z; js_Failed : Z; js_Succeeded : Z; js_CompletionTime : option time;
  js_Conditions : list (string * string * string) }.
Record Job := MkJob {
  jb_Meta : ObjectMeta; jb_Completions : option Z; jb_BackoffLimit : option Z; jb_Template : PodTemplate; jb_Status : JobStatus }.
Record CronJob := MkCronJob {
  cj_Meta : ObjectMeta; cj_Schedule : string; cj_Suspend : option bool; cj_BackoffLimit : option Z; cj_Template : PodTemplate;
  cj_LastSchedule : option time }.
Record Node := MkNode {
  nd_Meta : ObjectMeta; nd_Addresses : list (string * string); nd_Capacity : ResourceList; nd_Allocatable : ResourceList;
  nd_Conditions : list (string * string); nd_Info : list (string * string); nd_Taints : list (string * string * string);
  nd_Unschedulable : bool; nd_Images : list string; nd_VolumesInUse : list string; nd_VolumesAttached : list string }.
Record Namespace := MkNamespace { ns_Meta : ObjectMeta; ns_Phase : string }.
Record Secret := MkSecret { sc_Meta : ObjectMeta; sc_Type : string; sc_Data : list (string * string) }.
(** [NestedInt64] of the two counts, and the template if it is present. *)
Record Rollout := MkRollout {
  ro_Meta : ObjectMeta; ro_Replicas : option Z; ro_ReadyReplicas : option Z; ro_Template : option PodTemplate }.

Inductive kube_object :=
  | KPod (p : Pod) | KDeployment (c : Controller) | KStatefulSet (c : Controller) | KDaemonSet (c : Controller)
  | KReplicaSet (c : Controller) | KJob (j : Job) | KCronJob (c : CronJob) | KNode (n : Node) | KNamespace (n : Namespace)
  | KSecret (s : Secret) | KRollout (r : Rollout) | KOther (tag : string).

(** ** The cache transform *)
Definition trimMeta (m : ObjectMeta) : ObjectMeta :=
  MkMeta (om_Name m) (om_Namespace m) (om_UID m) (om_ResourceVersion m) (om_Creation m) (om_Labels m) (om_Annotations m)
    (om_Owners m) [].
Definition trimContainer (c : Container) : Container :=
  MkContainer (cn_Name c) (cn_Image c) (cn_Requests c) (cn_Limits c) [] [] [] [] None None None None.
Definition trimTemplate (t : PodTemplate) : PodTemplate :=
  let s := tp_Spec t in
  MkTemplate (tp_Labels t) []
    (MkPodSpec (map trimContainer (sp_Containers s)) [] [] (sp_Volumes s) (sp_Tolerations s) (sp_Affinity s) (sp_NodeSelector s)
       (sp_ServiceAccountName s) (sp_NodeName s)).
Definition trimPod (p : Pod) : Pod :=
  let s := pd_Spec p in
  MkPod (trimMeta (pd_Meta p))
    (MkPodSpec (map trimContainer (sp_Containers s)) [] [] [] [] (sp_Affinity s) (sp_NodeSelector s) (sp_ServiceAccountName s)
       (sp_NodeName s)) (pd_Status p).
Definition trimController (c : Controller) : Controller :=
  MkController (trimMeta (co_Meta c)) (co_Replicas c) (co_Desired c) (co_Ready c) (trimTemplate (co_Template c)).
Definition discoveryTransform (o : kube_object) : kube_object :=
  match o with
  | KPod p => KPod (trimPod p)
  | KDeployment c => KDeployment (trimController c)
  | KStatefulSet c => KStatefulSet (trimController c)
  | KDaemonSet c => KDaemonSet (trimController c)
  | KReplicaSet c => KReplicaSet (trimController c)
  | KJob j => KJob (MkJob (trimMeta (jb_Meta j)) (jb_Completions j) (jb_BackoffLimit j) (trimTemplate (jb_Template j)) (jb_Status j))
  | KCronJob c => KCronJob (MkCronJob (trimMeta (cj_Meta c)) (cj_Schedule c) (cj_Suspend c) (cj_BackoffLimit c)
                    (trimTemplate (cj_Template c)) (cj_LastSchedule c))
  | KNode n => KNode (MkNode (trimMeta (nd_Meta n)) (nd_Addresses n) (nd_Capacity n) (nd_Allocatable n) (nd_Conditions n)
                        (nd_Info n) (nd_Taints n) (nd_Unschedulable n) [] [] [])
  | KNamespace n => KNamespace (MkNamespace (trimMeta (ns_Meta n)) (ns_Phase n))
  | KSecret s => KSecret (MkSecret (trimMeta (sc_Meta s)) (sc_Type s) (sc_Data s))
  | KRollout _ | KOther _ => o
  end.

(** ** Helpers *)
Definition string_map (m : list (string * string)) : json := JObj (map (fun kv => (kv.1, JStr kv.2)) m).
Definition nonNilLabels (m : smap) : json := string_map (default [] m).
Definition hasPrefix (s p : string) : bool := bool_decide (is_Some (strip_prefix p s)).
Definition helm_key (k : string) : bool := hasPrefix k "helm." || hasPrefix k "meta.helm.".
Definition isHelmRelease (labels annotations : smap) : bool :=
  bool_decide (sget labels "app.kubernetes.io/managed-by" = "Helm")
  || existsb (fun kv => helm_key kv.1) (default [] labels) || existsb (fun kv => helm_key kv.1) (default [] annotations).
(** The int64 value of the leading digits, wrapping as Go does. *)
Fixpoint resource_version_from (n : Z) (s : string) : Z :=
  match s with
  | EmptyString => n
  | String c r => if is_digit c then resource_version_from (wrap64 (n * 10 + (byte c - 48))) r else n
  end.
Definition parseResourceVersion (m : ObjectMeta) : Z := resource_version_from 0 (om_ResourceVersion m).
Definition rfc3339 (t : time) : json := JStr (format_rfc3339 t).
Definition owner_info (o : OwnerReference) : json := JObj [("kind", JStr (or_Kind o)); ("name", JStr (or_Name o))].
(** [lookup] is the ReplicaSet cache: the owners of a cached set. *)
Definition resolved_owner (namespace : string) (lookup : option (string -> string -> option (list OwnerReference)))
    (o : OwnerReference) : json :=
  match lookup with
  | Some f => if bool_decide (or_Kind o = "ReplicaSet") then
                match f namespace (or_Name o) with
                | Some owners => match controllerOwner owners with Some ctrl => owner_info ctrl | None => owner_info o end
                | None => owner_info o
                end
              else owner_info o
  | None => owner_info o
  end.
Definition ownerInfosWithRSLookup (owners : list OwnerReference) (namespace : string)
    (lookup : option (string -> string -> option (list OwnerReference))) : json :=
  JArr (map (resolved_owner namespace lookup) owners).
Definition ownerInfos (owners : list OwnerReference) : json := ownerInfosWithRSLookup owners "" None.

Definition serializeResourceList (l : ResourceList) : option (list (string * json)) :=
  let cpu := match assoc "cpu" l with Some q => [("cpu", JStr (q_String q))] | None => [] end in
  let memory := match assoc "memory" l with Some q => [("memory", JStr (q_String q))] | None => [] end in
  match cpu ++ memory with [] => None | m => Some m end.
Definition resourceRequirementsDict (c : Container) : option json :=
  match serializeResourceList (cn_Requests c), serializeResourceList (cn_Limits c) with
  | None, None => None
  | req, lim => Some (JObj (match req with Some m => [("requests", JObj m)] | None => [] end
                            ++ match lim with Some m => [("limits", JObj m)] | None => [] end))
  end.
Definition container_entry (c : Container) : json :=
  JObj ([("name", JStr (cn_Name c)); ("image", JStr (cn_Image c))]
        ++ match resourceRequirementsDict c with Some r => [("resources", r)] | None => [] end).
Definition containersFromTemplate (t : PodTemplate) : json := JArr (map container_entry (sp_Containers (tp_Spec t))).
Definition volumesFromTemplate (t : PodTemplate) : json :=
  JArr (map (fun v => JObj ([("name", JStr v.1)]
                            ++ match v.2 with
                               | Some claim => [("persistent_volume_claim", JObj [("claim_name", JStr claim)])]
                               | None => []
                               end)) (sp_Volumes (tp_Spec t))).
Definition tolerationsFromTemplate (t : PodTemplate) : json :=
  JArr (map (fun t => JObj ([("key", JStr (to_Key t)); ("operator", JStr (to_Operator t)); ("value", JStr (to_Value t));
                             ("effect", JStr (to_Effect t))]
                            ++ match to_Seconds t with Some s => [("toleration_seconds", JInt s)] | None => [] end))
         (sp_Tolerations (tp_Spec t))).
Definition affinityFromTemplate (t : PodTemplate) : json :=
  match sp_Affinity (tp_Spec t) with
  | None => JObj []
  | Some text => match unmarshal_any text with Some (JObj m) => JObj m | _ => JObj [] end
  end.

(** [float64(v) / 1000] *)
Definition milli_to_cores (v : Z) : float64 := f_div (f_of_Z v) (f_of_Z 1000).
Definition cpuFromResourceList (l : ResourceList) : float64 :=
  match assoc "cpu" l with Some q => milli_to_cores (q_MilliValue q) | None => float_zero end.
Definition mem_value (l : ResourceList) : Z := match assoc "memory" l with Some q => q_Value q | None => 0 end.
(** [containerResources]: cpu and memory of the requests and of the limits. *)
Definition containerResources (c : Container) : (float64 * Z) * (float64 * Z) :=
  ((cpuFromResourceList (cn_Requests c), mem_value (cn_Requests c)), (cpuFromResourceList (cn_Limits c), mem_value (cn_Limits c))).
Definition podSpecRequests (s : PodSpec) : float64 * Z :=
  foldl (fun acc c => let r := (containerResources c).1 in (float_add acc.1 r.1, wrap64 (acc.2 + r.2)))
    (float_zero, 0) (sp_Containers s).
Definition mbFromResourceList (l : ResourceList) (key : string) : Z :=
  match assoc key l with
  | Some q => match q_AsInt64 q with Some b => b | None => q_Value q end `quot` 1048576
  | None => 0
  end.
Definition clampInt32 (v : Z) : Z := if v <? 0 then 0 else if 2147483647 <? v then 2147483647 else v.

(** [helmReleaseEnvelope] and its JSON fields. *)
Record HelmRelease := MkHelmRelease {
  hr_Name : string; hr_Namespace : string; hr_Version : Z; hr_Status : string; hr_FirstDeployed : string; hr_LastDeployed : string;
  hr_Description : string; hr_ChartName : string; hr_ChartVersion : string; hr_AppVersion : string }.
Definition zero_release : HelmRelease := MkHelmRelease "" "" 0 "" "" "" "" "" "" "".
Definition set_info (f : string) (m : member) (r : HelmRelease) : HelmRelease * bool :=
  let 'MkHelmRelease n ns v st first_ last_ desc cn cv av := r in
  if bool_decide (f = "status") then let '(s, ok) := set_string st m in (MkHelmRelease n ns v s first_ last_ desc cn cv av, ok)
  else if bool_decide (f = "first_deployed") then let '(s, ok) := set_string first_ m in (MkHelmRelease n ns v st s last_ desc cn cv av, ok)
  else if bool_decide (f = "last_deployed") then let '(s, ok) := set_string last_ m in (MkHelmRelease n ns v st first_ s desc cn cv av, ok)
  else let '(s, ok) := set_string desc m in (MkHelmRelease n ns v st first_ last_ s cn cv av, ok).
Definition set_metadata (f : string) (m : member) (r : HelmRelease) : HelmRelease * bool :=
  let 'MkHelmRelease n ns v st first_ last_ desc cn cv av := r in
  if bool_decide (f = "name") then let '(s, ok) := set_string cn m in (MkHelmRelease n ns v st first_ last_ desc s cv av, ok)
  else if bool_decide (f = "version") then let '(s, ok) := set_string cv m in (MkHelmRelease n ns v st first_ last_ desc cn s av, ok)
  else let '(s, ok) := set_string av m in (MkHelmRelease n ns v st first_ last_ desc cn cv s, ok).
Definition set_chart (f : string) (m : member) (r : HelmRelease) : HelmRelease * bool :=
  set_struct ["name"; "version"; "appVersion"] set_metadata r m.
Definition set_release (f : string) (m : member) (r : HelmRelease) : HelmRelease * bool :=
  let 'MkHelmRelease n ns v st first_ last_ desc cn cv av := r in
  if bool_decide (f = "name") then let '(s, ok) := set_string n m in (MkHelmRelease s ns v st first_ last_ desc cn cv av, ok)
  else if bool_decide (f = "namespace") then let '(s, ok) := set_string ns m in (MkHelmRelease n s v st first_ last_ desc cn cv av, ok)
  else if bool_decide (f = "version") then let '(z, ok) := set_int v m in (MkHelmRelease n ns z st first_ last_ desc cn cv av, ok)
  else if bool_decide (f = "info") then
    set_struct ["status"; "first_deployed"; "last_deployed"; "description"] set_info r m
  else set_struct ["metadata"] set_chart r m.

(** ** The converters *)
Section convert.
(** The clock, the snapshot's pod index and the ReplicaSet cache. *)
Variable now_millis : Z.
Variable podLookup : option (string -> option Pod).
Variable rsLookup : option (string -> string -> option (list OwnerReference)).

Definition service_key (namespace kind name : string) : json := JStr (namespace +:+ "/" +:+ kind +:+ "/" +:+ name).

(** [newPodConverter] *)
Definition pod_config (p : Pod) : json :=
  JObj [("labels", nonNilLabels (om_Labels (pd_Meta p)));
        ("containers", JArr (map (fun c => JObj [("name", JStr (cn_Name c)); ("image", JStr (cn_Image c))]) (sp_Containers (pd_Spec p))));
        ("owner", ownerInfosWithRSLookup (om_Owners (pd_Meta p)) (om_Namespace (pd_Meta p)) rsLookup)].
Definition podRestartCounts (p : Pod) : json :=
  JObj (foldl (fun m c => mset (ct_Name c) (JInt (ct_RestartCount c)) m) [] (ps_ContainerStatuses (pd_Status p))).
Definition ready_containers (p : Pod) : Z := Z.of_nat (length (List.filter ct_Ready (ps_ContainerStatuses (pd_Status p)))).
Definition convertPod (p : Pod) : json :=
  let m := pd_Meta p in
  JObj [("name", JStr (om_Name m)); ("namespace", JStr (om_Namespace m)); ("type", JStr "Pod");
        ("service_key", service_key (om_Namespace m) "Pod" (om_Name m)); ("resource_version", JInt (parseResourceVersion m));
        ("creation_time", rfc3339 (om_Creation m)); ("update_time", JInt now_millis); ("deleted", JBool false);
        ("classification", JStr "None"); ("total_pods", JInt 1); ("ready_pods", JInt (ready_containers p));
        ("is_helm_release", JBool (isHelmRelease (om_Labels m) (om_Annotations m))); ("node_name", JStr (sp_NodeName (pd_Spec p)));
        ("status", JStr (ps_Phase (pd_Status p))); ("restart_count", podRestartCounts p); ("status_dict", ps_dict (pd_Status p));
        ("config", pod_config p)].

(** What a workload record takes from its representative pod. *)
Definition representative (uid : string) : option Pod := match podLookup with Some f => f uid | None => None end.
Definition or_null (s : string) : json := if bool_decide (s = "") then JNull else JStr s.
Definition representative_status (uid : string) : json * json * json :=
  match representative uid with
  | None => (JNull, JNull, JArr [])
  | Some p => (or_null (ps_QOSClass (pd_Status p)), or_null (ps_PodIP (pd_Status p)),
               JArr (map (fun c => JObj [("type", JStr c.1); ("status", JStr c.2)]) (ps_Conditions (pd_Status p))))
  end.
Definition service_config (meta : ObjectMeta) (tpl : PodTemplate) (owners : list OwnerReference) : json :=
  let '(qosClass, ip, conditions) := representative_status (om_UID meta) in
  JObj [("labels", nonNilLabels (om_Labels meta)); ("template_labels", nonNilLabels (tp_Labels tpl));
        ("containers", containersFromTemplate tpl); ("owner", ownerInfos owners); ("volumes", volumesFromTemplate tpl);
        ("toleration", tolerationsFromTemplate tpl); ("affinity", affinityFromTemplate tpl);
        ("annotations", nonNilLabels (om_Annotations meta)); ("service_account", JStr (sp_ServiceAccountName (tp_Spec tpl)));
        ("qos_class", qosClass); ("ip", ip); ("conditions", conditions)].
Definition serviceDict (kind : string) (meta : ObjectMeta) (totalPods readyPods : Z) (tpl : PodTemplate)
    (owners : list OwnerReference) : json :=
  JObj [("name", JStr (om_Name meta)); ("namespace", JStr (om_Namespace meta)); ("type", JStr kind);
        ("service_key", service_key (om_Namespace meta) kind (om_Name meta));
        ("resource_version", JInt (parseResourceVersion meta)); ("creation_time", rfc3339 (om_Creation meta));
        ("update_time", JInt now_millis); ("deleted", JBool false); ("classification", JStr "None");
        ("total_pods", JInt totalPods); ("ready_pods", JInt readyPods);
        ("is_helm_release", JBool (isHelmRelease (om_Labels meta) (om_Annotations meta)));
        ("status", JNull); ("node_name", JNull); ("restart_count", JNull); ("status_dict", JNull);
        ("config", service_config meta tpl owners)].
Definition controllerDict (kind : string) (replicas : Z) (c : Controller) : json :=
  serviceDict kind (co_Meta c) replicas (co_Ready c) (co_Template c) (om_Owners (co_Meta c)).
Definition convertDeployment (c : Controller) : json := controllerDict "Deployment" (default 0 (co_Replicas c)) c.
Definition convertStatefulSet (c : Controller) : json := controllerDict "StatefulSet" (default 0 (co_Replicas c)) c.
Definition convertDaemonSet (c : Controller) : json := controllerDict "DaemonSet" (co_Desired c) c.
Definition convertReplicaSet (c : Controller) : option json :=
  let replicas := default 0 (co_Replicas c) in
  if replicas =? 0 then None else Some (controllerDict "ReplicaSet" replicas c).
Definition empty_spec : PodSpec := MkPodSpec [] [] [] [] [] None None "" "".
Definition empty_template : PodTemplate := MkTemplate None [] empty_spec.
Definition convertRollout (r : Rollout) : json :=
  serviceDict "Rollout" (ro_Meta r) (match ro_Replicas r with Some v => clampInt32 v | None => 1 end)
    (match ro_ReadyReplicas r with Some v => clampInt32 v | None => 0 end)
    (default empty_template (ro_Template r)) (om_Owners (ro_Meta r)).

(** Jobs *)
Definition jobStatusDict (s : JobStatus) (lastSchedule : option time) : json :=
  let text t := match t with Some t => rfc3339 t | None => JStr "" end in
  JObj [("active", JInt (js_Active s)); ("failed", JInt (js_Failed s)); ("succeeded", JInt (js_Succeeded s));
        ("completion_time", text (js_CompletionTime s)); ("failed_time", JStr "");
        ("conditions", JArr (map (fun c => JObj [("type", JStr c.1.1); ("message", JStr c.2)])
                               (List.filter (fun c => bool_decide (c.1.2 = "True")) (js_Conditions s))));
        ("last_schedule_time", text lastSchedule)].
Definition job_container (c : Container) : json :=
  let '((cpu_req, mem_req), (cpu_limit, mem_limit)) := containerResources c in
  JObj [("image", JStr (cn_Image c)); ("cpu_req", JFloat cpu_req); ("cpu_limit", JFloat cpu_limit); ("mem_req", JInt mem_req);
        ("mem_limit", JInt mem_limit)].
Definition jobDataDict (pod : PodSpec) (backoffLimit : option Z) (labels : smap) (owners : list OwnerReference)
    (schedule : string) (suspend : option bool) : json :=
  JObj [("backoff_limit", JInt (default 0 backoffLimit));
        ("tolerations", JArr (map (fun t => JObj [("key", JStr (to_Key t)); ("value", JStr (to_Value t));
            ("operator", JStr (to_Operator t)); ("effect", JStr (to_Effect t))]) (sp_Tolerations pod)));
        ("node_selector", nonNilLabels (sp_NodeSelector pod)); ("labels", nonNilLabels labels);
        ("containers", JArr (map job_container (sp_Containers pod))); ("pods", JArr []);
        ("parents", JArr (map (fun o => JObj [("name", JStr (or_Name o)); ("kind", JStr (or_Kind o))]) owners));
        ("schedule", JStr schedule); ("suspend", match suspend with Some b => JBool b | None => JNull end)].
Definition jobDict (kind : string) (meta : ObjectMeta) (completions : Z) (status jobData : json) (req : float64 * Z) : json :=
  JObj [("name", JStr (om_Name meta)); ("namespace", JStr (om_Namespace meta)); ("type", JStr kind);
        ("service_key", service_key (om_Namespace meta) kind (om_Name meta)); ("created_at", rfc3339 (om_Creation meta));
        ("updated_at", JInt now_millis); ("deleted", JBool false); ("completions", JInt completions);
        ("cpu_req", JFloat req.1); ("mem_req", JInt req.2); ("status", status); ("job_data", jobData);
        ("resource_version", JInt (parseResourceVersion meta)); ("config", JObj [("labels", nonNilLabels (om_Labels meta))])].
Definition convertJob (j : Job) : json :=
  jobDict "Job" (jb_Meta j) (default 0 (jb_Completions j)) (jobStatusDict (jb_Status j) None)
    (jobDataDict (tp_Spec (jb_Template j)) (jb_BackoffLimit j) (om_Labels (jb_Meta j)) (om_Owners (jb_Meta j)) "" None)
    (podSpecRequests (tp_Spec (jb_Template j))).
Definition zero_job_status : JobStatus := MkJobStatus 0 0 0 None [].
Definition convertCronJob (c : CronJob) : json :=
  jobDict "CronJob" (cj_Meta c) 0 (jobStatusDict zero_job_status (cj_LastSchedule c))
    (jobDataDict (tp_Spec (cj_Template c)) (cj_BackoffLimit c) (om_Labels (cj_Meta c)) (om_Owners (cj_Meta c)) (cj_Schedule c)
       (cj_Suspend c))
    (podSpecRequests (tp_Spec (cj_Template c))).

(** Nodes and namespaces *)
Definition addresses_of (kind : string) (n : Node) : string :=
  join "," (map snd (List.filter (fun a => bool_decide (to_lower a.1 = kind)) (nd_Addresses n))).
Definition nodeAddresses (n : Node) : string * string := (addresses_of "internalip" n, addresses_of "externalip" n).
Definition taintString (taints : list (string * string * string)) : string :=
  join "," (map (fun t => t.1.1 +:+ "=" +:+ t.1.2 +:+ ":" +:+ t.2) taints).
Definition conditionString (conds : list (string * string)) : string :=
  join "," (map (fun c => c.1 +:+ ":" +:+ c.2)
    (List.filter (fun c => negb (bool_decide (c.2 = "False") && negb (bool_decide (c.1 = "Ready")))) conds)).
Definition node_info_keys : list string :=
  ["architecture"; "container_runtime_version"; "kernel_version"; "kubelet_version"; "os_image"; "operating_system";
   "machine_id"; "system_uuid"; "boot_id"].
Definition nodeInfoMap (n : Node) : json :=
  JObj [("system", JObj (map (fun k => (k, JStr (default "" (assoc k (nd_Info n))))) node_info_keys));
        ("labels", nonNilLabels (om_Labels (nd_Meta n))); ("annotations", nonNilLabels (om_Annotations (nd_Meta n)));
        ("addresses", JArr (map (fun a => JStr a.2) (nd_Addresses n)))].
Definition convertNode (n : Node) : json :=
  let m := nd_Meta n in
  let '(internal, external) := nodeAddresses n in
  JObj [("name", JStr (om_Name m)); ("node_creation_time", rfc3339 (om_Creation m)); ("updated_at", JInt now_millis);
        ("internal_ip", JStr internal); ("external_ip", JStr external); ("taints", JStr (taintString (nd_Taints n)));
        ("unschedulable", JBool (nd_Unschedulable n)); ("conditions", JStr (conditionString (nd_Conditions n)));
        ("memory_capacity", JInt (mbFromResourceList (nd_Capacity n) "memory"));
        ("memory_allocatable", JInt (mbFromResourceList (nd_Allocatable n) "memory"));
        ("memory_allocated", JInt 0); ("memory_limits", JInt 0);
        ("cpu_capacity", JFloat (cpuFromResourceList (nd_Capacity n))); ("cpu_allocatable", JFloat (cpuFromResourceList (nd_Allocatable n)));
        ("cpu_allocated", JFloat float_zero); ("cpu_limits", JFloat float_zero); ("pods_count", JInt 0); ("pods", JStr "");
        ("node_info", nodeInfoMap n); ("deleted", JBool false); ("resource_version", JInt (parseResourceVersion m))].
Definition convertNamespace (n : Namespace) : json :=
  let m := ns_Meta n in
  JObj [("name", JStr (om_Name m)); ("workload_count", JInt 0); ("pod_count", JInt 0); ("creation_time", rfc3339 (om_Creation m));
        ("updated_at", JInt now_millis); ("deleted", JBool false); ("resource_version", JInt (parseResourceVersion m));
        ("phase", JStr (ns_Phase n)); ("labels", nonNilLabels (om_Labels m)); ("annotations", nonNilLabels (om_Annotations m))].

(** Helm releases. [gunzip] is the content of a gzip stream, if it is one. *)
Variable gunzip : string -> option string.
Definition decodeHelmRelease (raw : string) : option HelmRelease :=
  plain ← gunzip (default raw (b64_decode raw));
  let '(env, ok) := unmarshal_struct ["name"; "namespace"; "version"; "info"; "chart"] set_release plain zero_release in
  if ok then Some env else None.
Definition convertHelmReleaseSecret (s : Secret) : option json :=
  if negb (bool_decide (sc_Type s = "helm.sh/release.v1")) then None
  else match assoc "release" (sc_Data s) with
       | None => None
       | Some raw =>
         match decodeHelmRelease raw with
         | None => None
         | Some r => Some (JObj [("name", JStr (hr_Name r)); ("namespace", JStr (hr_Namespace r)); ("version", JInt (hr_Version r));
             ("status", JStr (hr_Status r)); ("first_deployed", JStr (hr_FirstDeployed r)); ("last_deployed", JStr (hr_LastDeployed r));
             ("description", JStr (hr_Description r)); ("chart_name", JStr (hr_ChartName r)); ("chart_version", JStr (hr_ChartVersion r));
             ("app_version", JStr (hr_AppVersion r)); ("service_key", JStr (hr_Namespace r +:+ "/" +:+ hr_Name r))])
         end
       end.

(** The converter registered for an object's informer. *)
Definition convert (o : kube_object) : option json :=
  match o with
  | KPod p => Some (convertPod p)
  | KDeployment c => Some (convertDeployment c)
  | KStatefulSet c => Some (convertStatefulSet c)
  | KDaemonSet c => Some (convertDaemonSet c)
  | KReplicaSet c => convertReplicaSet c
  | KJob j => Some (convertJob j)
  | KCronJob c => Some (convertCronJob c)
  | KNode n => Some (convertNode n)
  | KNamespace n => Some (convertNamespace n)
  | KSecret s => convertHelmReleaseSecret s
  | KRollout r => Some (convertRollout r)
  | KOther _ => None
  end.
End convert.

(** ** Registration

    The informers a service registers, the type each reports under, and the
    handlers with what the caches list of the cluster. *)
Inductive resource :=
  | Pods | Deployments | StatefulSets | DaemonSets | ReplicaSets | Jobs | CronJobs | Nodes | Namespaces | Secrets | Rollouts.
Definition resource_of (o : kube_object) : option resource :=
  match o with
  | KPod _ => Some Pods | KDeployment _ => Some Deployments | KStatefulSet _ => Some StatefulSets
  | KDaemonSet _ => Some DaemonSets | KReplicaSet _ => Some ReplicaSets | KJob _ => Some Jobs | KCronJob _ => Some CronJobs
  | KNode _ => Some Nodes | KNamespace _ => Some Namespaces | KSecret _ => Some Secrets | KRollout _ => Some Rollouts
  | KOther _ => None
  end.
Definition registered_type (r : resource) : string :=
  match r with
  | Nodes => TypeNode
  | Namespaces => TypeNamespace
  | Jobs | CronJobs => TypeJob
  | Secrets => TypeHelmRelease
  | _ => TypeService
  end.
Definition RegisterAll : list resource :=
  [Pods; Deployments; StatefulSets; DaemonSets; ReplicaSets; Jobs; CronJobs; Nodes; Namespaces].
(** [RegisterRollouts]: there is a dynamic client, the API group is served,
    and a list of one Rollout succeeds. *)
Definition RegisterRollouts (dyn served listable : bool) : list resource :=
  if dyn && served && listable then [Rollouts] else [].
Definition registered_handler now pods rs gunzip (cluster : resource -> list kube_object) (r : resource)
  : resourceHandler kube_object * list kube_object :=
  (MkHandler (registered_type r) (convert now pods rs gunzip) ∅, map discoveryTransform (cluster r)).
Definition registered_handlers now pods rs gunzip (cluster : resource -> list kube_object) (registered : list resource)
  : list (resourceHandler kube_object * list kube_object) :=
  map (registered_handler now pods rs gunzip cluster) registered.

(** ** The transform preserves the wire *)
Lemma controllerDict_trim now pods kind n c : controllerDict now pods kind n (trimController c) = controllerDict now pods kind n c.
Proof.
  unfold controllerDict, serviceDict, service_config, containersFromTemplate. simpl. rewrite map_map. reflexivity.
Qed.
Lemma podSpecRequests_trim s s' : sp_Containers s' = map trimContainer (sp_Containers s) -> podSpecRequests s' = podSpecRequests s.
Proof.
  intros E. unfold podSpecRequests. rewrite E, foldl_fmap. reflexivity.
Qed.
Lemma jobDataDict_trim s s' b l o sch sus : sp_Containers s' = map trimContainer (sp_Containers s) ->
  sp_Tolerations s' = sp_Tolerations s -> sp_NodeSelector s' = sp_NodeSelector s ->
  jobDataDict s' b l o sch sus = jobDataDict s b l o sch sus.
Proof. intros E1 E2 E3. unfold jobDataDict. by rewrite E1, E2, E3, map_map. Qed.

(** The pod index and the ReplicaSet cache hold transformed objects too. *)
Definition transformed_index (podLookup : option (string -> option Pod)) : option (string -> option Pod) :=
  match podLookup with
  | Some f => Some (fun uid => match f uid with Some p => Some (trimPod p) | None => None end)
  | None => None
  end.
Lemma representative_trim pods uid : representative_status (transformed_index pods) uid = representative_status pods uid.
Proof. unfold representative_status, representative. destruct pods as [f|]; [simpl|done]. by destruct (f uid). Qed.
Lemma controllerDict_index now pods kind n c : controllerDict now (transformed_index pods) kind n c = controllerDict now pods kind n c.
Proof. unfold controllerDict, serviceDict, service_config. by rewrite representative_trim. Qed.

Lemma convert_transform now pods rs gunzip o :
  convert now (transformed_index pods) rs gunzip (discoveryTransform o) = convert now pods rs gunzip o.
Proof.
  destruct o; simpl; try reflexivity.
  - unfold convertPod, pod_config. simpl. by rewrite map_map.
  - unfold convertDeployment. by rewrite controllerDict_index, controllerDict_trim.
  - unfold convertStatefulSet. by rewrite controllerDict_index, controllerDict_trim.
  - unfold convertDaemonSet. by rewrite controllerDict_index, controllerDict_trim.
  - unfold convertReplicaSet. simpl. by rewrite controllerDict_index, controllerDict_trim.
  - unfold convertJob. simpl. by rewrite (podSpecRequests_trim (tp_Spec (jb_Template j))), (jobDataDict_trim (tp_Spec (jb_Template j))).
  - unfold convertCronJob. simpl. by rewrite (podSpecRequests_trim (tp_Spec (cj_Template c))), (jobDataDict_trim (tp_Spec (cj_Template c))).
  - unfold convertRollout, serviceDict, service_config. by rewrite representative_trim.
Qed.
Lemma trim_idempotent o : discoveryTransform (discoveryTransform o) = discoveryTransform o.
Proof.
  assert (forall l, map trimContainer (map trimContainer l) = map trimContainer l) as Hidem.
  { intros l. rewrite map_map. apply map_ext. by intros []. }
  assert (forall t, trimTemplate (trimTemplate t) = trimTemplate t) as Htpl.
  { intros t. unfold trimTemplate. simpl. by rewrite Hidem. }
  destruct o; simpl; rewrite ?Hidem, ?Htpl; try reflexivity; unfold trimPod, trimController; simpl; by rewrite ?Hidem, ?Htpl.
Qed.

(** The cache transform never changes the wire: for every object, also one
    already transformed, and every clock, converting the trimmed object with
    the trimmed caches gives exactly the record of the original; and trimming
    twice is trimming once. *)
Theorem transform_preserves_wire now pods rs gunzip o :
  convert now (transformed_index pods) rs gunzip (discoveryTransform o) = convert now pods rs gunzip o /\
  discoveryTransform (discoveryTransform o) = discoveryTransform o.
Proof. split; [apply convert_transform|apply trim_idempotent]. Qed.

(** ** The shape of the records *)

(** What the collector requires of a member: its type, and of an object the
    members in turn. *)
Inductive shape := SString | SInt | SFloat | SBool | SAny | SList | SObject (fields : list (string * shape)).
Fixpoint has_shape (s : shape) (v : json) : bool :=
  match s, v with
  | SString, JStr _ | SInt, JInt _ | SFloat, JFloat _ | SBool, JBool _ | SAny, _ | SList, JArr _ => true
  | SObject fields, JObj m =>
    (fix go (fields : list (string * shape)) : bool :=
       match fields with
       | [] => true
       | (k, s) :: fields => match assoc k m with Some v => has_shape s v | None => false end && go fields
       end) fields
  | _, _ => false
  end.
Definition service_shape : shape :=
  SObject [("name", SString); ("namespace", SString); ("type", SString); ("service_key", SString); ("resource_version", SInt);
    ("creation_time", SString); ("update_time", SInt); ("deleted", SBool); ("total_pods", SInt); ("ready_pods", SInt);
    ("is_helm_release", SBool); ("status", SAny); ("node_name", SAny); ("restart_count", SAny); ("status_dict", SAny);
    ("config", SObject [("labels", SObject []); ("containers", SList); ("owner", SList)])].
(** Workloads also carry what the template and the annotations say. *)
Definition workload_shape : shape :=
  SObject [("config", SObject [("labels", SObject []); ("template_labels", SObject []); ("containers", SList); ("owner", SList);
    ("volumes", SList); ("toleration", SList); ("affinity", SObject []); ("annotations", SObject []); ("service_account", SString);
    ("conditions", SList)])].
Definition job_shape : shape :=
  SObject [("name", SString); ("namespace", SString); ("type", SString); ("service_key", SString); ("created_at", SString);
    ("updated_at", SInt); ("deleted", SBool); ("completions", SInt); ("cpu_req", SFloat); ("mem_req", SInt);
    ("status", SObject [("active", SInt); ("failed", SInt); ("succeeded", SInt); ("conditions", SList)]);
    ("job_data", SObject [("backoff_limit", SInt); ("tolerations", SList); ("node_selector", SObject []); ("labels", SObject []);
       ("containers", SList); ("pods", SList); ("parents", SList); ("schedule", SString)]);
    ("resource_version", SInt); ("config", SObject [("labels", SObject [])])].
Definition node_shape : shape :=
  SObject [("name", SString); ("node_creation_time", SString); ("updated_at", SInt); ("internal_ip", SString); ("external_ip", SString);
    ("taints", SString); ("unschedulable", SBool); ("conditions", SString); ("memory_capacity", SInt); ("memory_allocatable", SInt);
    ("cpu_capacity", SFloat); ("cpu_allocatable", SFloat); ("pods_count", SInt);
    ("node_info", SObject [("system", SObject []); ("labels", SObject []); ("annotations", SObject []); ("addresses", SList)]);
    ("deleted", SBool); ("resource_version", SInt)].
Definition namespace_shape : shape :=
  SObject [("name", SString); ("workload_count", SInt); ("pod_count", SInt); ("creation_time", SString); ("updated_at", SInt);
    ("deleted", SBool); ("phase", SString); ("labels", SObject []); ("annotations", SObject [])].
Definition helm_shape : shape :=
  SObject [("name", SString); ("namespace", SString); ("version", SInt); ("status", SString); ("service_key", SString)].
Definition wire_shapes (o : kube_object) : list shape :=
  match o with
  | KPod _ => [service_shape]
  | KDeployment _ | KStatefulSet _ | KDaemonSet _ | KReplicaSet _ | KRollout _ => [service_shape; workload_shape]
  | KJob _ | KCronJob _ => [job_shape]
  | KNode _ => [node_shape]
  | KNamespace _ => [namespace_shape]
  | KSecret _ => [helm_shape]
  | KOther _ => []
  end.

Lemma service_has_shape now pods kind meta n r tpl owners :
  forallb (fun s => has_shape s (serviceDict now pods kind meta n r tpl owners)) [service_shape; workload_shape] = true.
Proof.
  unfold serviceDict, service_config, affinityFromTemplate, representative_status.
  destruct (representative pods (om_UID meta)); destruct (sp_Affinity (tp_Spec tpl)) as [t|];
    try destruct (unmarshal_any t) as [[]|]; reflexivity.
Qed.

Lemma convert_has_shapes now pods rs gunzip o v : convert now pods rs gunzip o = Some v ->
  forallb (fun s => has_shape s v) (wire_shapes o) = true.
Proof.
  destruct o; simpl convert; intros E; try (injection E as <-); try reflexivity; try apply service_has_shape.
  - unfold convertReplicaSet in E. destruct (_ =? 0); [done|]. injection E as <-. apply service_has_shape.
  - unfold convertHelmReleaseSecret in E. repeat case_match; simplify_eq. reflexivity.
Qed.


(** ** Snapshots of the registered resources *)
Definition type_shape (typ : string) : shape :=
  if bool_decide (typ = TypeNode) then node_shape
  else if bool_decide (typ = TypeNamespace) then namespace_shape
  else if bool_decide (typ = TypeJob) then job_shape
  else if bool_decide (typ = TypeHelmRelease) then helm_shape
  else service_shape.
Lemma resource_shape o r : resource_of o = Some r -> type_shape (registered_type r) ∈ wire_shapes o.
Proof. destruct o; intros [= <-]; apply list_elem_of_here. Qed.

Lemma elem_of_concat {A} (x : A) (ls : list (list A)) : x ∈ concat ls <-> exists l, x ∈ l /\ l ∈ ls.
Proof.
  rewrite list_elem_of_In, in_concat. split; intros (l & H1 & H2); exists l; rewrite ?list_elem_of_In in *; tauto.
Qed.

Section snapshot.
Context {W : Type} `{EnvelopeSink W}.
Context (now : Z) (pods : option (string -> option Pod))
  (rs : option (string -> string -> option (list OwnerReference))) (gunzip : string -> option string).
Context (cluster : resource -> list kube_object) (registered : list resource).
Notation handlers := (registered_handlers now (transformed_index pods) rs gunzip cluster registered).

Lemma converted_item typ v : v ∈ concat (map convert_all (of_type typ handlers)) ->
  exists r o, r ∈ registered /\ registered_type r = typ /\ o ∈ cluster r /\ convert now pods rs gunzip o = Some v.
Proof.
  unfold of_type, registered_handlers.
  intros (l & Hv & (h & -> & Hh)%list_elem_of_fmap)%elem_of_concat.
  apply list_elem_of_filter in Hh as [Ht (r & -> & Hr)%list_elem_of_fmap].
  unfold convert_all in Hv. simpl in *. apply list_elem_of_omap in Hv as (o' & (o & -> & Ho)%list_elem_of_fmap & Hc).
  rewrite convert_transform in Hc. eauto 7.
Qed.
(** C11: end to end, from the cluster to the wire: every envelope a batched
    snapshot of a type posts, whatever the backend answers, is of that type,
    and every item in it is the record of an object of a registered resource
    of that type, as the cluster has it (the cache holds only the trimmed
    object), with all members of the type's shape. *)
Theorem snapshot_items_are_cluster_records c stamp typ w err w' :
  (forall r o, r ∈ registered -> o ∈ cluster r -> resource_of o = Some r) ->
  emitTypeBatched c stamp typ (of_type typ handlers) w = (err, w') ->
  exists log, posted w' = posted w ++ log /\
    forall e ok, (e, ok) ∈ log -> env_Type e = typ /\
      exists items, env_Data e = JArr items /\
        forall v, v ∈ items -> has_shape (type_shape typ) v = true /\
          exists r o, r ∈ registered /\ registered_type r = typ /\ o ∈ cluster r /\ convert now pods rs gunzip o = Some v.
Proof.
  intros Hcluster Hrun. pose proof (batch_size_pos c) as HB. unfold emitTypeBatched in Hrun.
  apply batch_loop_spec in Hrun as (chunks & complete & ok' & Hl & Hb); [|done|simpl; lia|simpl; lia].
  eexists. split; [exact Hl|]. intros e ok He. pose proof He as [i Hi]%list_elem_of_lookup.
  apply batch_log_lookup in Hi as (items & Hitems & Ee & _). split; [by rewrite Ee|]. exists items. split; [by rewrite Ee|].
  intros v Hv. assert (v ∈ concat (map convert_all (of_type typ handlers))) as Hin.
  { rewrite <- converted_raw_items. destruct (bt_prefix _ _ _ _ _ _ _ Hb) as [rest E]. simpl in E. rewrite E. apply elem_of_app. left.
    apply elem_of_concat. exists items. split; [done|]. by eapply list_elem_of_lookup_2. }
  destruct (converted_item typ v Hin) as (r & o & Hr & Ht & Ho & Hc). split; [|eauto 6].
  pose proof (convert_has_shapes _ _ _ _ _ _ Hc) as Hs. rewrite forallb_forall in Hs. rewrite <- Ht.
  apply Hs, list_elem_of_In, resource_shape. eauto.
Qed.
End snapshot.

(** ** Records and their objects *)

(** Which objects are left out: a ReplicaSet exactly when it has no
    replicas, a secret when it is not a readable Helm release, and nothing
    else. *)
Theorem conversion_drops now pods rs gunzip o : convert now pods rs gunzip o = None <->
  match o with
  | KReplicaSet c => default 0 (co_Replicas c) = 0
  | KSecret s => sc_Type s <> "helm.sh/release.v1" \/ (forall raw, assoc "release" (sc_Data s) = Some raw -> decodeHelmRelease gunzip raw = None)
  | KOther _ => True
  | _ => False
  end.
Proof.
  destruct o; simpl; try done.
  - unfold convertReplicaSet. destruct (Z.eqb_spec (default 0 (co_Replicas c)) 0); done.
  - unfold convertHelmReleaseSecret. destruct (decide (sc_Type s = "helm.sh/release.v1")) as [E|E];
      [rewrite bool_decide_true by done|rewrite bool_decide_false by done; simpl; tauto].
    simpl. destruct (assoc "release" (sc_Data s)) as [raw|]; [|split; [right; done|done]].
    destruct (decodeHelmRelease gunzip raw) eqn:Ed; split; try done.
    + intros [?|Hd]; [done|]. by rewrite (Hd raw) in Ed.
    + right. by intros raw' [= <-].
Qed.

(** A pod of a cached ReplicaSet is reported under the set's controller,
    the Deployment, and never under the set; owners that are no ReplicaSet, or
    whose set is not cached or has no owner, are reported as they are. *)
Theorem pod_owner_resolved namespace f o :
  resolved_owner namespace (Some f) o
  = owner_info (if bool_decide (or_Kind o = "ReplicaSet")
                then default o (owners ← f namespace (or_Name o); controllerOwner owners) else o).
Proof.
  unfold resolved_owner. case_bool_decide; [|done]. destruct (f namespace (or_Name o)) as [owners|]; [simpl|done].
  by destruct (controllerOwner owners).
Qed.

Lemma clampInt32_spec v : 0 <= clampInt32 v <= 2147483647 /\ (0 <= v <= 2147483647 -> clampInt32 v = v).
Proof. unfold clampInt32. destruct (Z.ltb_spec v 0), (Z.ltb_spec 2147483647 v); lia. Qed.

Lemma resource_version_digits s acc : all_digits s = true -> 0 <= acc -> digits_value acc s <= int64_max ->
  resource_version_from acc s = digits_value acc s.
Proof.
  revert acc. induction s as [|c s IH]; intros acc; simpl; [done|]. intros [Hc Hs]%andb_prop Ha Hm.
  rewrite Hc. apply in_range_true in Hc. pose proof (digits_value_le (acc * 10 + (byte c - 48)) s Hs ltac:(lia)) as Hmono.
  rewrite wrap64_id by (unfold int64_min; lia). apply IH; [done|lia|done].
Qed.
(** A resource version that is a number within int64 is carried exactly;
    a larger one wraps, so that versions are no longer ordered. *)
Theorem resource_version_exact m n : om_ResourceVersion m = utoa n -> 0 <= n <= int64_max -> parseResourceVersion m = n.
Proof.
  intros E Hn. unfold parseResourceVersion. rewrite E.
  assert (all_digits (utoa n) = true) as Ha.
  { destruct (utoa_spec n ltac:(lia)) as (d & ds & -> & Hd & Hds & _). simpl. by rewrite Hds, is_digit_digit. }
  rewrite resource_version_digits by (rewrite ?digits_value_utoa by lia; done || lia). apply digits_value_utoa. lia.
Qed.

(** ** Samples *)
Definition sample_meta : ObjectMeta :=
  MkMeta "web-1" "shop" "u1" "90071" (unix_to_internal + 1778158857 * second) None None
    [MkOwnerReference "ReplicaSet" "web-abc" "u2" (Some true)] ["kubectl"].
Definition sample_spec : PodSpec :=
  MkPodSpec [MkContainer "app" "web:1" [] [] ["PASSWORD"] [] [] [] None None None None] [] [] [("data", Some "web-data")] [] None None
    "default" "node-1".
Definition sample_pod : Pod := MkPod sample_meta sample_spec (MkPodStatus "Running" "Burstable" "10.0.0.7" [] [MkContainerStatus "app" true 2] JNull).
Lemma resource_version_exact_witness : parseResourceVersion sample_meta = 90071.
Proof. apply resource_version_exact; [vm_compute; reflexivity|unfold int64_max; lia]. Defined.
Example resource_version_wraps :
  resource_version_from 0 "9223372036854775808" = - 2 ^ 63.
Proof. vm_compute. reflexivity. Qed.
Example cores_sum : float_add (milli_to_cores 250) (milli_to_cores 500) = milli_to_cores 750.
Proof. vm_compute. reflexivity. Qed.

(** A cluster with one pod, posted to a backend that accepts everything. *)
Definition sample_cluster (r : resource) : list kube_object := match r with Pods => [KPod sample_pod] | _ => [] end.
#[local] Instance sample_sink : EnvelopeSink SinkState :=
  http_sink id (fun _ => None) (NewSink "http://collector/" "" "" "") (fun _ _ => MkAttempt false (Response 200 "")).
Lemma snapshot_items_are_cluster_records_witness :
  exists log, posted (emitTypeBatched new_config 7 TypeService
      (of_type TypeService (registered_handlers 1 None None Some sample_cluster RegisterAll)) (MkSinkState 0 [])).2 = [] ++ log /\
    exists e items v, (e, true) ∈ log /\ env_Data e = JArr items /\ v ∈ items /\ has_shape service_shape v = true.
Proof.
  destruct (snapshot_items_are_cluster_records 1 None None Some sample_cluster RegisterAll new_config 7 TypeService (MkSinkState 0 [])
    _ _ ltac:(intros r o _; destruct r; simpl; intros Ho; try (by apply not_elem_of_nil in Ho);
              apply list_elem_of_singleton in Ho as ->; reflexivity) (surjective_pairing _)) as (log & Hp & Hl).
  exists log. split; [exact Hp|]. change (posted (MkSinkState 0 []) ++ log) with log in Hp.
  destruct log as [|[e ok] rest]; [vm_compute in Hp; discriminate Hp|].
  destruct (Hl e ok (list_elem_of_here _ _)) as (_ & items & Hd & Hi).
  assert (ok = true /\ exists v, items = [v]) as [-> [v ->]].
  { vm_compute in Hp. injection Hp as He <- _. split; [reflexivity|]. subst e. simpl in Hd. injection Hd as <-. by eexists. }
  exists e, [v], v. split; [apply list_elem_of_here|]. split; [exact Hd|]. split; [apply list_elem_of_here|].
  exact (proj1 (Hi v (list_elem_of_here _ _))).
Defined.

(** A release secret whose data is the base64 text of the document. *)
Definition dq (s : string) : string := String (chr 34) (s +:+ String (chr 34) "").
Definition release_text : string :=
  "{" +:+ dq "name" +:+ ":" +:+ dq "shop" +:+ "," +:+ dq "namespace" +:+ ":" +:+ dq "prod" +:+ "," +:+ dq "version" +:+ ":3,"
  +:+ dq "info" +:+ ":{" +:+ dq "status" +:+ ":" +:+ dq "deployed" +:+ "}," +:+ dq "chart" +:+ ":{" +:+ dq "metadata" +:+ ":{"
  +:+ dq "appVersion" +:+ ":" +:+ dq "1.2" +:+ "}}}".
Example helm_release_decoded :
  decodeHelmRelease Some (b64_encode release_text) = Some (MkHelmRelease "shop" "prod" 3 "deployed" "" "" "" "" "" "1.2").
Proof. vm_compute. reflexivity. Qed.
Example helm_version_must_fit :
  decodeHelmRelease Some ("{" +:+ dq "version" +:+ ":1.0}") = None.
Proof. vm_compute. reflexivity. Qed.
