(* ===== verification/PvcDownsize.v ===== *)
(** * Downsizing a persistent volume claim (pkg/mutate/pvcdownsize.go,
    pvcdownsize_helpers.go)

    A claim cannot shrink, so its data is copied to a smaller one and the
    workload is moved over.  The Kubernetes API, the pod exec, the clock and
    the random suffixes are an environment that answers requests ([Cluster]);
    every operation of the migration is a definition over it, and the two
    migrations thread the variables of their deferred rollbacks and record
    what they did. *)

From S2P Require Import Prelude GoText GoJson CanonJson.

#[local] Set Default Proof Using "Type".

(** ** Objects *)

(** [resource.Quantity] is kept abstract. *)
Class Quantities (Q : Type) := { quantity_zero : Q; quantity_cmp : Q -> Q -> Z; quantity_cmp_refl q : quantity_cmp q q = 0 }.

Definition strmap := list (string * string).

Record PVC (Q : Type) := MkPVC {
  pvc_name : string; pvc_labels : strmap; pvc_annotations : strmap; pvc_accessModes : list string;
  pvc_storageClass : option string; pvc_volumeMode : option string; pvc_requests : list (string * Q);
  pvc_volumeName : string; pvc_selector : option string; pvc_dataSource : option string; pvc_dataSourceRef : option string;
  pvc_phase : string }.
Arguments MkPVC {Q} _ _ _ _ _ _ _ _ _ _ _ _.
Arguments pvc_name {Q} _.
Arguments pvc_labels {Q} _.
Arguments pvc_annotations {Q} _.
Arguments pvc_accessModes {Q} _.
Arguments pvc_storageClass {Q} _.
Arguments pvc_volumeMode {Q} _.
Arguments pvc_requests {Q} _.
Arguments pvc_volumeName {Q} _.
Arguments pvc_selector {Q} _.
Arguments pvc_dataSource {Q} _.
Arguments pvc_dataSourceRef {Q} _.
Arguments pvc_phase {Q} _.

Record PV := MkPV { pv_name : string; pv_hostPath : bool; pv_reclaim : string }.
(** A Deployment or StatefulSet: the volumes are the claim names of its pod
    template, [None] for a volume that is no claim. *)
Record Workload := MkWorkload {
  wl_name : string; wl_selector : option strmap; wl_replicas : option Z; wl_volumes : list (option string);
  wl_templates : list string }.

(** ** The environment *)
Inductive api_error := NotFound | Conflict | OtherError (msg : string).
Inductive kind := Deployment | StatefulSet.

Inductive request (Q : Type) :=
  | GetPVC (name : string) | CreatePVC (pvc : PVC Q) | DeletePVC (name : string)
  | GetPV (name : string) | PatchReclaim (pv policy : string) | DeletePV (name : string)
  | GetStorageClass (name : string)
  | ListWorkloads (k : kind) | GetWorkload (k : kind) (name : string) | UpdateWorkload (k : kind) (w : Workload)
  | ListPods (selector : string) | CreatePod (name src dst image : string) | GetPod (name : string) | DeletePod (name : string)
  | Exec (pod : string) (command : list string) (timeout : Z)
  | Now | SleepCtx (d : Z) | RandString | Budget.
Arguments GetPVC {Q} name.
Arguments CreatePVC {Q} pvc.
Arguments DeletePVC {Q} name.
Arguments GetPV {Q} name.
Arguments PatchReclaim {Q} pv policy.
Arguments DeletePV {Q} name.
Arguments GetStorageClass {Q} name.
Arguments ListWorkloads {Q} k.
Arguments GetWorkload {Q} k name.
Arguments UpdateWorkload {Q} k w.
Arguments ListPods {Q} selector.
Arguments CreatePod {Q} name src dst image.
Arguments GetPod {Q} name.
Arguments DeletePod {Q} name.
Arguments Exec {Q} pod command timeout.
Arguments Now {Q}.
Arguments SleepCtx {Q} d.
Arguments RandString {Q}.
Arguments Budget {Q}.

(** The answers: an object, the number of pods, a pod's phase, exit code with
    output, the time, the context's error after a sleep, the remaining time
    of the context if it has a deadline. *)
Definition answer {Q} (r : request Q) : Type :=
  match r with
  | GetPVC _ => api_error + PVC Q
  | GetPV _ => api_error + PV
  | ListWorkloads _ => api_error + list Workload
  | GetWorkload _ _ => api_error + Workload
  | ListPods _ => api_error + nat
  | GetPod _ => api_error + string
  | Exec _ _ _ => string + Z * string * string
  | Now => Z
  | SleepCtx _ => option string
  | RandString => string
  | Budget => option Z
  | _ => option api_error
  end.

Class Cluster (Q K : Type) := call : forall r : request Q, K -> answer r * K.
(** A clock that only moves forward, and sleeping that takes its time. *)
Class Clocked (Q K : Type) `{Cluster Q K} := {
  clock : K -> Z;
  clock_now k : (call Now k).1 = clock k;
  clock_forward r k : clock k <= clock (call r k).2;
  clock_sleep d k : (call (SleepCtx d) k).1 = None -> clock k + d <= clock (call (SleepCtx d) k).2 }.

(** What the operations return as errors. *)
Inductive failure :=
  | ApiFailure (what : string) (e : api_error)
  | ContextEnded (msg : string)
  | TimedOut (what : string)
  | Refused (what : string)
  | OutOfFuel.

(** The accessors for the timeouts, with the overrides of the [Mutator]. *)
Record Mutator := MkMutator {
  m_moverImage : string; m_moverImageEnv : string; m_copyTimeout : Z; m_opTimeout : Z; m_podTermTimeout : Z; m_pollInterval : Z }.
Definition defaultMoverImage : string := "ubuntu".
Definition pvcScalerAnnotation : string := "NudgebeeDiskScaler".
Definition defaultOpTimeout : Z := 300 * second.
Definition defaultPodTermTimeout : Z := 300 * second.
Definition defaultPollInterval : Z := 5 * second.
Definition defaultCopyTimeout : Z := 1800 * second.
Definition moverImageName (m : Mutator) : string :=
  if negb (bool_decide (m_moverImage m = "")) then m_moverImage m
  else if negb (bool_decide (m_moverImageEnv m = "")) then m_moverImageEnv m else defaultMoverImage.
Definition opTimeout (m : Mutator) : Z := if 0 <? m_opTimeout m then m_opTimeout m else defaultOpTimeout.
Definition podTermTimeout (m : Mutator) : Z := if 0 <? m_podTermTimeout m then m_podTermTimeout m else defaultPodTermTimeout.
Definition pollInterval (m : Mutator) : Z := if 0 <? m_pollInterval m then m_pollInterval m else defaultPollInterval.

(** ** Pure helpers *)
Definition isAllDigits (s : string) : bool := match s with EmptyString => false | _ => all_digits s end.
Definition podSpecMountsPVC (w : Workload) (pvcName : string) : bool :=
  existsb (fun v => bool_decide (v = Some pvcName)) (wl_volumes w).
(** A claim made from a [volumeClaimTemplate]: [tpl-sts-ordinal]. *)
Definition template_claim (w : Workload) (pvcName : string) : bool :=
  existsb (fun tpl => match strip_prefix (tpl +:+ "-" +:+ wl_name w +:+ "-") pvcName with
                      | Some suffix => isAllDigits suffix
                      | None => false
                      end) (wl_templates w).
Definition labelSelectorString (sel : option strmap) : string :=
  match sel with
  | None => ""
  | Some m => join "," (map (fun k => k +:+ "=" +:+ default "" (assoc k m)) (sort_strings m.*1))
  end.
Definition derefReplicas (r : option Z) : Z := default 1 r.

(** [.kubernetes.io] or [.beta.kubernetes.io] at the end or before a slash, as a
    search from every position. *)
Definition domain_end (s : string) : bool :=
  match s with
  | EmptyString => true
  | String c r => bool_decide (c = chr 47) && negb (contains_byte (chr 10) r)
  end.
Fixpoint k8sInternalAnnotation (s : string) : bool :=
  match strip_prefix ".kubernetes.io" s with Some r => domain_end r | None => false end
  || match strip_prefix ".beta.kubernetes.io" s with Some r => domain_end r | None => false end
  || match s with EmptyString => false | String _ r => k8sInternalAnnotation r end.
Definition filterUserAnnotations (m : strmap) : strmap :=
  List.filter (fun kv => negb (bool_decide (kv.1 = pvcScalerAnnotation) || k8sInternalAnnotation kv.1)) m.

Section helpers.
Context {Q : Type} `{Quantities Q}.

Record pvcSnapshot := MkSnapshot {
  sn_labels : strmap; sn_userAnnotations : strmap; sn_accessModes : list string; sn_storageClass : string; sn_volumeMode : string }.
Definition newPVCSnapshot (pvc : PVC Q) : pvcSnapshot :=
  MkSnapshot (pvc_labels pvc) (filterUserAnnotations (pvc_annotations pvc)) (sort_strings (pvc_accessModes pvc))
    (default "" (pvc_storageClass pvc)) (default "" (pvc_volumeMode pvc)).
(** What differs; the source formats each into a message. *)
Inductive mismatch := LabelDiffers (k : string) | AnnotationDiffers (k : string) | AccessModes | StorageClassName | VolumeMode | Storage.
Definition differing (mk : string -> mismatch) (want got : strmap) : list mismatch :=
  omap (fun kv => if bool_decide (default "" (assoc kv.1 got) = kv.2) then None else Some (mk kv.1)) want.
Definition verifyParity (s : pvcSnapshot) (newPVC : PVC Q) (expected : Q) : list mismatch :=
  differing LabelDiffers (sn_labels s) (pvc_labels newPVC)
  ++ differing AnnotationDiffers (sn_userAnnotations s) (filterUserAnnotations (pvc_annotations newPVC))
  ++ (if bool_decide (join "," (sort_strings (pvc_accessModes newPVC)) = join "," (sn_accessModes s)) then [] else [AccessModes])
  ++ (if bool_decide (default "" (pvc_storageClass newPVC) = sn_storageClass s) then [] else [StorageClassName])
  ++ (if bool_decide (default "" (pvc_volumeMode newPVC) = sn_volumeMode s) then [] else [VolumeMode])
  ++ (if quantity_cmp (default quantity_zero (assoc "storage" (pvc_requests newPVC))) expected =? 0 then [] else [Storage]).

(** The claim [createPVCFromSpec] creates. *)
Definition pvc_from_spec (name : string) (src : PVC Q) (size : Q) : PVC Q :=
  MkPVC name (pvc_labels src) (mset pvcScalerAnnotation pvcScalerAnnotation (filterUserAnnotations (pvc_annotations src)))
    (pvc_accessModes src) (pvc_storageClass src) (pvc_volumeMode src) (mset "storage" size (pvc_requests src))
    "" None None None "".
End helpers.

(** ** Operations on the cluster *)
Section operations.
Context {Q K : Type} `{Quantities Q} `{Cluster Q K} (m : Mutator).

(** An answer without content as an error. *)
Definition check (what : string) (r : option api_error * K) : option failure * K :=
  (match r.1 with Some e => Some (ApiFailure what e) | None => None end, r.2).
Definition check_delete (what : string) (r : option api_error * K) : option failure * K :=
  (match r.1 with Some NotFound | None => None | Some e => Some (ApiFailure what e) end, r.2).

Fixpoint find_mounting (pvcName : string) (ws : list Workload) (templates : bool) : option Workload :=
  match ws with
  | [] => None
  | w :: ws => if podSpecMountsPVC w pvcName || (templates && template_claim w pvcName) then Some w
               else find_mounting pvcName ws templates
  end.
Definition getWorkloadByPVC (pvcName : string) (k : K) : (failure + option (Workload * kind)) * K :=
  let '(deps, k) := call (ListWorkloads Deployment) k in
  match deps with
  | inl e => (inl (ApiFailure "list deployments" e), k)
  | inr deps =>
    match find_mounting pvcName deps false with
    | Some w => (inr (Some (w, Deployment)), k)
    | None =>
      let '(stss, k) := call (ListWorkloads StatefulSet) k in
      match stss with
      | inl e => (inl (ApiFailure "list statefulsets" e), k)
      | inr stss => (inr (match find_mounting pvcName stss true with Some w => Some (w, StatefulSet) | None => None end), k)
      end
    end
  end.

(** [scaleWorkloadTyped]: [retries] attempts remain after this one, [old] is the
    count captured on the first read. *)
Definition set_replicas (w : Workload) (n : Z) : Workload :=
  MkWorkload (wl_name w) (wl_selector w) (Some n) (wl_volumes w) (wl_templates w).
Fixpoint scale_attempts (retries : nat) (backoff : Z) (old : option Z) (kd : kind) (name : string) (replicas : Z) (k : K)
  : (failure + Z) * K :=
  let '(got, k) := call (GetWorkload kd name) k in
  let '(old, err, k) :=
    match got with
    | inl e => (old, Some e, k)
    | inr w => let '(err, k) := call (UpdateWorkload kd (set_replicas w replicas)) k in
               (Some (default (derefReplicas (wl_replicas w)) old), err, k)
    end in
  match err with
  | None => (inr (default 0 old), k)
  | Some Conflict =>
    match retries with
    | O => (inl (ApiFailure "scale" Conflict), k)
    | S retries =>
      let '(ended, k) := call (SleepCtx backoff) k in
      match ended with
      | Some msg => (inl (ContextEnded msg), k)
      | None => scale_attempts retries (2 * backoff) old kd name replicas k
      end
    end
  | Some e => (inl (ApiFailure "scale" e), k)
  end.
Definition scaleWorkloadTyped (kd : kind) (name : string) (replicas : Z) : K -> (failure + Z) * K :=
  scale_attempts 2 second None kd name replicas.

(** The polling loops: [test] ends the wait or lets it go on. *)
Fixpoint poll (fuel : nat) (what : string) (deadline : Z) (test : K -> option (option failure) * K) (k : K)
  : option failure * K :=
  match fuel with
  | O => (Some OutOfFuel, k)
  | S fuel =>
    let '(r, k) := test k in
    match r with
    | Some r => (r, k)
    | None =>
      let '(now, k) := call Now k in
      if deadline <? now then (Some (TimedOut what), k)
      else let '(ended, k) := call (SleepCtx (pollInterval m)) k in
           match ended with
           | Some msg => (Some (ContextEnded msg), k)
           | None => poll fuel what deadline test k
           end
    end
  end.
Definition poll_fuel (timeout : Z) : nat := Z.to_nat (timeout / pollInterval m) + 2.
Definition poll_until (what : string) (timeout : Z) (test : K -> option (option failure) * K) (k : K) : option failure * K :=
  let '(now, k) := call Now k in poll (poll_fuel timeout) what (now + timeout) test k.

Definition waitForPodsTerminated (selector : string) : K -> option failure * K :=
  poll_until "pods to terminate" (podTermTimeout m) (fun k =>
    let '(pods, k) := call (ListPods selector) k in
    (match pods with
     | inl e => Some (Some (ApiFailure "list pods" e))
     | inr O => Some None
     | inr _ => None
     end, k)).
Definition waitForPodRunning (pod : string) : K -> option failure * K :=
  poll_until "mover pod" (opTimeout m) (fun k =>
    let '(phase, k) := call (GetPod pod) k in
    (match phase with
     | inl e => Some (Some (ApiFailure "get mover pod" e))
     | inr phase => if bool_decide (phase = "Running") then Some None
                    else if bool_decide (phase = "Failed") then Some (Some (Refused "mover pod entered Failed")) else None
     end, k)).
Definition waitForPVCDeletion (name : string) : K -> option failure * K :=
  poll_until "pvc deletion" (opTimeout m) (fun k =>
    let '(got, k) := call (GetPVC name) k in
    (match got with
     | inl NotFound => Some None
     | inl e => Some (Some (ApiFailure "poll pvc deletion" e))
     | inr _ => None
     end, k)).

Definition createPVCFromSpec (name : string) (src : PVC Q) (size : Q) (k : K) : option failure * K :=
  check "create pvc" (call (CreatePVC (pvc_from_spec name src size)) k).
Definition deletePVC (name : string) (k : K) : option failure * K := check_delete "delete pvc" (call (DeletePVC name) k).
Definition patchPVReclaim (pv policy : string) (k : K) : option failure * K := check "patch pv" (call (PatchReclaim pv policy) k).
Definition deletePVBestEffort (name : string) (k : K) : K := (call (DeletePV name) k).2.
Definition deletePodBestEffort (name : string) (k : K) : K := (call (DeletePod name) k).2.

Definition copyTimeout (k : K) : Z * K :=
  if 0 <? m_copyTimeout m then (m_copyTimeout m, k)
  else let '(remaining, k) := call Budget k in
       (match remaining with
        | Some d => if 0 <? d - 60 * second then d - 60 * second else defaultCopyTimeout
        | None => defaultCopyTimeout
        end, k).
Definition copy_command (ct : Z) : string :=
  "set -e; if [ -z " +:+ dquote +:+ "$(ls -A /srcData 2>/dev/null)" +:+ dquote +:+ " ]; then echo " +:+ dquote
  +:+ "COPY_SUCCESS: source is empty" +:+ dquote +:+ "; else timeout " +:+ itoa (ct `quot` second)
  +:+ " cp -a /srcData/. /dstData/ && echo " +:+ dquote +:+ "COPY_SUCCESS: data copied" +:+ dquote +:+ "; fi".
Definition copy_result (r : string + Z * string * string) : option failure :=
  match r with
  | inl msg => Some (Refused ("exec cp: " +:+ msg))
  | inr (exit, stdout, stderr) =>
    if negb (exit =? 0) then Some (Refused "data copy exit code")
    else if contains stdout "COPY_SUCCESS" then None else Some (Refused "no COPY_SUCCESS marker")
  end.
Definition copyData (src dst role : string) (k : K) : option failure * K :=
  let '(suffix, k) := call RandString k in
  let pod := src +:+ "-" +:+ role +:+ "-" +:+ suffix in
  let '(err, k) := check "create mover pod" (call (CreatePod pod src dst (moverImageName m)) k) in
  match err with
  | Some e => (Some e, k)
  | None =>
    let '(err, k) := waitForPodRunning pod k in
    let '(err, k) := match err with
                     | Some e => (Some e, k)
                     | None => let '(ct, k) := copyTimeout k in
                               let '(r, k) := call (Exec pod ["/bin/sh"; "-c"; copy_command ct] ct) k in
                               (copy_result r, k)
                     end in
    (err, deletePodBestEffort pod k)
  end.

(** One pass of [repointDeploymentPVC] over the volumes. *)
Definition repoint_volumes (oldPVC newPVC : string) (w : Workload) : Workload :=
  MkWorkload (wl_name w) (wl_selector w) (wl_replicas w)
    (map (fun v => if bool_decide (v = Some oldPVC) then Some newPVC else v) (wl_volumes w)) (wl_templates w).
Fixpoint repoint_attempts (retries : nat) (backoff : Z) (name oldPVC newPVC : string) (k : K) : option failure * K :=
  let '(got, k) := call (GetWorkload Deployment name) k in
  match got with
  | inl e => (Some (ApiFailure "get deployment" e), k)
  | inr w =>
    if negb (podSpecMountsPVC w oldPVC) then
      (if podSpecMountsPVC w newPVC then None else Some (Refused "no volume referencing pvc"), k)
    else
      let '(err, k) := call (UpdateWorkload Deployment (repoint_volumes oldPVC newPVC w)) k in
      match err with
      | None => (None, k)
      | Some Conflict =>
        match retries with
        | O => (Some (ApiFailure "repoint deployment" Conflict), k)
        | S retries =>
          let '(ended, k) := call (SleepCtx backoff) k in
          match ended with
          | Some msg => (Some (ContextEnded msg), k)
          | None => repoint_attempts retries (2 * backoff) name oldPVC newPVC k
          end
        end
      | Some e => (Some (ApiFailure "repoint deployment" e), k)
      end
  end.
Definition repointDeploymentPVC (name oldPVC newPVC : string) : K -> option failure * K :=
  repoint_attempts 4 second name oldPVC newPVC.
End operations.

(** ** The migrations *)

(** What a migration did, with whether it succeeded. *)
Inductive action :=
  | Scale (replicas : Z) | AwaitStopped | Create (pvc : string) | Copy (src dst : string) | CheckParity (pvc : string)
  | Repoint (oldPVC newPVC : string) | Reclaim (policy : string) | Delete (pvc : string) | AwaitGone (pvc : string) | RemovePV.
#[global] Instance action_eq_dec : EqDecision action.
Proof. solve_decision. Defined.
Definition event := (action * bool)%type.
Definition Retain : string := "Retain".

(** The variables the deferred rollback reads: the replicas to restore, the
    claim created for the copy, the flipped reclaim policy, and whether the
    point of no return was passed. *)
Record vars := MkVars { v_oldReplicas : option Z; v_created : bool; v_reclaimPatched : bool; v_committed : bool }.
Definition no_vars : vars := MkVars None false false false.
Definition with_replicas (r : option Z) (v : vars) : vars := MkVars r (v_created v) (v_reclaimPatched v) (v_committed v).
Definition with_created (b : bool) (v : vars) : vars := MkVars (v_oldReplicas v) b (v_reclaimPatched v) (v_committed v).
Definition with_reclaim (v : vars) : vars := MkVars (v_oldReplicas v) (v_created v) true (v_committed v).
Definition with_committed (v : vars) : vars := MkVars (v_oldReplicas v) (v_created v) (v_reclaimPatched v) true.

Section migrations.
Context {Q K : Type} `{Quantities Q} `{Cluster Q K} (m : Mutator).

Record migration := MkMigration { mg_cluster : K; mg_vars : vars; mg_log : list event }.
Definition step : Type := migration -> option failure * migration.

(** An operation as a step, recorded as [a]. *)
Definition act (a : action) (op : K -> option failure * K) : step := fun g =>
  let '(err, k) := op (mg_cluster g) in
  (err, MkMigration k (mg_vars g) (mg_log g ++ [(a, bool_decide (err = None))])).
Definition assign (f : vars -> vars) : step := fun g => (None, MkMigration (mg_cluster g) (f (mg_vars g)) (mg_log g)).
(** [if err != nil { return err }] between two steps. *)
Definition andThen (s t : step) : step := fun g =>
  let '(err, g) := s g in match err with Some e => (Some e, g) | None => t g end.
Definition skip : step := fun g => (None, g).
(** A step of the rollback, whose error is only logged. *)
Definition attempt (s : step) (g : migration) : migration := (s g).2.

Notation "s ;> t" := (andThen s t) (at level 65, right associativity).

(** Scaling down, which captures the replicas, and scaling back. *)
Definition scale_down (kd : kind) (name : string) : step := fun g =>
  let '(r, k) := scaleWorkloadTyped kd name 0 (mg_cluster g) in
  match r with
  | inl e => (Some e, MkMigration k (mg_vars g) (mg_log g ++ [(Scale 0, false)]))
  | inr n => (None, MkMigration k (with_replicas (Some n) (mg_vars g)) (mg_log g ++ [(Scale 0, true)]))
  end.
Definition scale_back (kd : kind) (name : string) : step := fun g =>
  let n := default 0 (v_oldReplicas (mg_vars g)) in
  act (Scale n) (fun k => let '(r, k) := scaleWorkloadTyped kd name n k in
                          (match r with inl e => Some e | inr _ => None end, k)) g.
(** Reading the claim back and comparing it with the snapshot. *)
Definition check_parity (snap : pvcSnapshot) (name : string) (target : Q) : step :=
  act (CheckParity name) (fun k =>
    let '(got, k) := call (GetPVC name) k in
    (match got with
     | inl e => Some (ApiFailure "re-read pvc" e)
     | inr pvc => match verifyParity snap pvc target with [] => None | _ => Some (Refused "config parity check failed") end
     end, k)).
Definition delete_claim (name : string) : step := act (Delete name) (deletePVC name).
Definition await_gone (name : string) : step := act (AwaitGone name) (waitForPVCDeletion m name).
Definition remove_pv (pv : string) : step := act RemovePV (fun k => (None, deletePVBestEffort pv k)).
Definition create_claim (name : string) (src : PVC Q) (target : Q) : step := act (Create name) (createPVCFromSpec name src target).
Definition copy_claim (src dst role : string) : step := act (Copy src dst) (copyData m src dst role).
Definition set_reclaim (pv policy : string) : step := act (Reclaim policy) (patchPVReclaim pv policy).
Definition await_stopped (selector : string) : step := act AwaitStopped (waitForPodsTerminated m selector).

(** [downsizeDeployment] behind the lookup of the Deployment. *)
Definition deployment_body (w : Workload) (pvcName newPVCName : string) (pvc : PVC Q) (pv : PV) (target : Q) (snap : pvcSnapshot)
  : step :=
  scale_down Deployment (wl_name w) ;>
  await_stopped (labelSelectorString (wl_selector w)) ;>
  create_claim newPVCName pvc target ;>
  assign (with_created true) ;>
  copy_claim pvcName newPVCName "copier" ;>
  check_parity snap newPVCName target ;>
  act (Repoint pvcName newPVCName) (repointDeploymentPVC (wl_name w) pvcName newPVCName) ;>
  assign with_committed ;>
  scale_back Deployment (wl_name w) ;>
  assign (with_replicas None) ;>
  delete_claim pvcName ;>
  await_gone pvcName ;>
  (if bool_decide (pv_reclaim pv = Retain) then remove_pv (pv_name pv) else skip).
Definition deployment_rollback (w : Workload) (newPVCName : string) (g : migration) : migration :=
  if v_committed (mg_vars g) then g
  else
    let g := if v_created (mg_vars g) then attempt (delete_claim newPVCName) g else g in
    if v_oldReplicas (mg_vars g) then attempt (scale_back Deployment (wl_name w)) g else g.

(** [downsizeStatefulSet] behind the lookup of the StatefulSet. *)
Definition statefulset_body (w : Workload) (pvcName tempPVCName : string) (pvc : PVC Q) (pv : PV) (target : Q) (snap : pvcSnapshot)
  : step :=
  scale_down StatefulSet (wl_name w) ;>
  await_stopped (labelSelectorString (wl_selector w)) ;>
  (if bool_decide (pv_reclaim pv = Retain) then skip
   else set_reclaim (pv_name pv) Retain ;> assign with_reclaim) ;>
  create_claim tempPVCName pvc target ;>
  assign (with_created true) ;>
  copy_claim pvcName tempPVCName "cp1" ;>
  delete_claim pvcName ;>
  await_gone pvcName ;>
  assign with_committed ;>
  create_claim pvcName pvc target ;>
  copy_claim tempPVCName pvcName "cp2" ;>
  check_parity snap pvcName target ;>
  scale_back StatefulSet (wl_name w) ;>
  assign (with_replicas None) ;>
  delete_claim tempPVCName ;>
  await_gone tempPVCName ;>
  assign (with_created false) ;>
  remove_pv (pv_name pv).
Definition statefulset_rollback (w : Workload) (tempPVCName : string) (pv : PV) (g : migration) : migration :=
  if v_committed (mg_vars g) then g
  else
    let g := if v_created (mg_vars g) then attempt (delete_claim tempPVCName) g else g in
    let g := if v_reclaimPatched (mg_vars g) then attempt (set_reclaim (pv_name pv) (pv_reclaim pv)) g else g in
    if v_oldReplicas (mg_vars g) then attempt (scale_back StatefulSet (wl_name w)) g else g.

(** The body with its deferred rollback. *)
Definition migrate (body : step) (rollback : migration -> migration) (k : K) : option failure * migration :=
  let '(err, g) := body (MkMigration k no_vars []) in
  (err, match err with Some _ => rollback g | None => g end).

Definition not_started (k : K) (e : failure) : option failure * migration := (Some e, MkMigration k no_vars []).
Definition downsizeDeployment (pvcName : string) (pvc : PVC Q) (pv : PV) (target : Q) (snap : pvcSnapshot) (k : K)
  : option failure * migration :=
  let '(found, k) := getWorkloadByPVC pvcName k in
  match found with
  | inr (Some (w, Deployment)) =>
    let '(suffix, k) := call RandString k in
    let newPVCName := pvcName +:+ "-downsized-" +:+ suffix in
    migrate (deployment_body w pvcName newPVCName pvc pv target snap) (deployment_rollback w newPVCName) k
  | _ => not_started k (Refused "no Deployment found using PVC")
  end.
Definition downsizeStatefulSet (pvcName : string) (pvc : PVC Q) (pv : PV) (target : Q) (snap : pvcSnapshot) (k : K)
  : option failure * migration :=
  let '(found, k) := getWorkloadByPVC pvcName k in
  match found with
  | inr (Some (w, StatefulSet)) =>
    let '(suffix, k) := call RandString k in
    let tempPVCName := pvcName +:+ "-tmp-" +:+ suffix in
    migrate (statefulset_body w pvcName tempPVCName pvc pv target snap) (statefulset_rollback w tempPVCName pv) k
  | _ => not_started k (Refused "no StatefulSet found using PVC")
  end.

Definition validateDownsizePrereqs (pvcName : string) (k : K) : (failure + PVC Q * PV) * K :=
  let '(got, k) := call (GetPVC pvcName) k in
  match got with
  | inl e => (inl (ApiFailure "get pvc" e), k)
  | inr pvc =>
    if negb (bool_decide (pvc_phase pvc = "Bound")) then (inl (Refused "must be Bound to downsize"), k)
    else if bool_decide (pvc_volumeName pvc = "") then (inl (Refused "has no volumeName"), k)
    else
      let '(got, k) := call (GetPV (pvc_volumeName pvc)) k in
      match got with
      | inl e => (inl (ApiFailure "get pv" e), k)
      | inr pv =>
        if pv_hostPath pv then (inl (Refused "pv is hostPath"), k)
        else if bool_decide (default "" (pvc_storageClass pvc) = "") then (inl (Refused "has no storageClassName"), k)
        else
          let '(err, k) := call (GetStorageClass (default "" (pvc_storageClass pvc))) k in
          match err with
          | Some e => (inl (ApiFailure "get storageclass" e), k)
          | None => (inr (pvc, pv), k)
          end
      end
  end.

Definition DownsizePVC (exec_configured : bool) (pvcName : string) (target : Q) (k : K) : option failure * migration :=
  if negb exec_configured then not_started k (Refused "downsize requires pod-exec capability")
  else
    let '(valid, k) := validateDownsizePrereqs pvcName k in
    match valid with
    | inl e => not_started k e
    | inr (pvc, pv) =>
      let '(found, k) := getWorkloadByPVC pvcName k in
      match found with
      | inl e => not_started k e
      | inr (Some (_, Deployment)) => downsizeDeployment pvcName pvc pv target (newPVCSnapshot pvc) k
      | inr (Some (_, StatefulSet)) => downsizeStatefulSet pvcName pvc pv target (newPVCSnapshot pvc) k
      | inr None => not_started k (Refused "no Deployment or StatefulSet found using PVC")
      end
    end.
End migrations.

(** ** Reasoning about steps

    [wp s ok err v l]: started with the variables [v] and the log [l], whatever
    the cluster answers, the step ends in [ok] or, with an error, in [err]. *)
Section wp.
Context {Q K : Type} `{Quantities Q} `{Cluster Q K}.
Notation step := (@step K).
Definition outcome := vars -> list event -> Prop.
Implicit Types (v : vars) (l : list event) (ok err : outcome).

Definition wp (s : step) (ok err : outcome) (v : vars) (l : list event) : Prop :=
  forall k, match s (MkMigration k v l) with
            | (None, g) => ok (mg_vars g) (mg_log g)
            | (Some _, g) => err (mg_vars g) (mg_log g)
            end.

Lemma wp_then s t ok err v l : wp s (wp t ok err) err v l -> wp (andThen s t) ok err v l.
Proof.
  intros Hs k. specialize (Hs k). unfold andThen. destruct (s _) as [[e|] g]; [done|]. destruct g as [k' v' l']. apply Hs.
Qed.
Lemma wp_act a op ok err v l : ok v (l ++ [(a, true)]) -> err v (l ++ [(a, false)]) -> wp (act a op) ok err v l.
Proof. intros Ho He k. unfold act. simpl. by destruct (op k) as [[e|] k']. Qed.
Lemma wp_assign f ok err v l : ok (f v) l -> wp (assign f) ok err v l.
Proof. by intros Ho k. Qed.
Lemma wp_skip ok err v l : ok v l -> wp skip ok err v l.
Proof. by intros Ho k. Qed.
Lemma wp_scale_down kd name ok err v l :
  (forall n, ok (with_replicas (Some n) v) (l ++ [(Scale 0, true)])) -> err v (l ++ [(Scale 0, false)]) ->
  wp (scale_down kd name) ok err v l.
Proof. intros Ho He k. unfold scale_down. simpl. destruct (scaleWorkloadTyped kd name 0 k) as [[e|n] k']; [done|apply Ho]. Qed.
Lemma wp_scale_back kd name ok err v l :
  (forall n, n = default 0 (v_oldReplicas v) -> ok v (l ++ [(Scale n, true)]) /\ err v (l ++ [(Scale n, false)])) ->
  wp (scale_back kd name) ok err v l.
Proof. intros Hn. destruct (Hn _ eq_refl) as [Ho He]. intros k. exact (wp_act _ _ _ _ _ _ Ho He k). Qed.

Lemma wp_mono s ok err (ok' err' : outcome) v l : wp s ok err v l -> (forall v l, ok v l -> ok' v l) ->
  (forall v l, err v l -> err' v l) -> wp s ok' err' v l.
Proof. intros Hs Ho He k. specialize (Hs k). destruct (s _) as [[e|] g]; auto. Qed.

(** Migrations end well or after their rollback. *)
Lemma wp_migrate body rollback (P : option failure -> list event -> Prop) k :
  wp body (fun _ l => P None l) (fun v l => forall k e, P (Some e) (mg_log (rollback (MkMigration k v l)))) no_vars [] ->
  P (migrate body rollback k).1 (mg_log (migrate body rollback k).2).
Proof.
  intros Hb. specialize (Hb k). unfold migrate. destruct (body _) as [[e|] [k' v l]]; simpl in *; [apply Hb|done].
Qed.
(** An attempt of the rollback. *)
Lemma attempt_act a op (g : @migration K) : exists k b,
  attempt (act a op) g = MkMigration k (mg_vars g) (mg_log g ++ [(a, b)]).
Proof. unfold attempt, act. destruct (op (mg_cluster g)) as [e k]. by eexists _, _. Qed.
End wp.

(** Symbolic execution: one goal per way a migration can end. *)
Ltac run_body := repeat first
  [ apply wp_then | apply wp_assign | apply wp_skip | apply wp_scale_down; [intros ?|]
  | apply wp_scale_back; intros ? ->; split | apply wp_act | case_bool_decide ].
(** The number of replicas captured, if any, and the stage reached. *)
Ltac at_stage :=
  match goal with n : Z |- _ => exists n | _ => exists 0 end;
  first
    [ reflexivity
    | let go i := (exists i; split; [by eexists|split_and!; try reflexivity; intros; simpl in *; try lia; split_and!; reflexivity]) in
      first [go 0%nat | go 1%nat | go 2%nat | go 3%nat | go 4%nat | go 5%nat | go 6%nat | go 7%nat | go 8%nat
            | go 9%nat | go 10%nat | go 11%nat | go 12%nat | go 13%nat | go 14%nat | go 15%nat] ].

(** What a migration does when every stage succeeds. *)
Definition deployment_stages (pvcName newPVCName : string) (reclaim : string) (n : Z) : list action :=
  [Scale 0; AwaitStopped; Create newPVCName; Copy pvcName newPVCName; CheckParity newPVCName;
   Repoint pvcName newPVCName; Scale n; Delete pvcName; AwaitGone pvcName]
  ++ (if bool_decide (reclaim = Retain) then [RemovePV] else []).
Definition statefulset_stages (pvcName tempPVCName : string) (reclaim : string) (n : Z) : list action :=
  [Scale 0; AwaitStopped] ++ (if bool_decide (reclaim = Retain) then [] else [Reclaim Retain])
  ++ [Create tempPVCName; Copy pvcName tempPVCName; Delete pvcName; AwaitGone pvcName; Create pvcName;
      Copy tempPVCName pvcName; CheckParity pvcName; Scale n; Delete tempPVCName; AwaitGone tempPVCName; RemovePV].
(** The stages [i] of which succeeded before one failed. *)
Definition cut (stages : list action) (i : nat) (log : list event) : Prop :=
  exists a, stages !! i = Some a /\ log = map (fun a => (a, true)) (take i stages) ++ [(a, false)].
Definition all_done (stages : list action) (log : list event) : Prop := log = map (fun a => (a, true)) stages.

Section migration_spec.
Context {Q K : Type} `{Quantities Q} `{Cluster Q K} (m : Mutator).

(** The log of the rollbacks. *)
Definition rolled_back (created : option string) (reclaim : option string) (v : vars) (b1 b2 b3 : bool) : list event :=
  if v_committed v then []
  else match created with Some pvc => [(Delete pvc, b1)] | None => [] end
       ++ match reclaim with Some p => [(Reclaim p, b2)] | None => [] end
       ++ match v_oldReplicas v with Some n => [(Scale n, b3)] | None => [] end.

Lemma scale_back_log kd name n (g : @migration K) : v_oldReplicas (mg_vars g) = Some n ->
  exists k b, attempt (scale_back kd name) g = MkMigration k (mg_vars g) (mg_log g ++ [(Scale n, b)]).
Proof. intros Hn. unfold attempt, scale_back. cbv beta zeta. rewrite Hn. apply (attempt_act (Scale n)). Qed.

Lemma deployment_rollback_log w newPVCName (k : K) v l : exists b1 b2 b3,
  mg_log (deployment_rollback w newPVCName (MkMigration k v l))
  = l ++ rolled_back (if v_created v then Some newPVCName else None) None v b1 b2 b3.
Proof.
  destruct v as [old created reclaim committed]. unfold deployment_rollback, rolled_back, delete_claim. simpl.
  destruct committed; [exists true, true, true; by rewrite app_nil_r|].
  destruct created; simpl.
  - destruct (attempt_act (Delete newPVCName) (deletePVC newPVCName)
      (MkMigration k (MkVars old true reclaim false) l)) as (k1 & b1 & ->). destruct old as [n|]; simpl.
    + destruct (scale_back_log Deployment (wl_name w) n
        (MkMigration k1 (MkVars (Some n) true reclaim false) (l ++ [(Delete newPVCName, b1)])) eq_refl)
        as (k3 & b3 & ->). exists b1, true, b3. simpl. by rewrite <- app_assoc.
    + by exists b1, true, true.
  - destruct old as [n|]; simpl; [|exists true, true, true; by rewrite app_nil_r].
    destruct (scale_back_log Deployment (wl_name w) n (MkMigration k (MkVars (Some n) false reclaim false) l) eq_refl)
      as (k3 & b3 & ->). by exists true, true, b3.
Qed.

Definition deployment_at (n : Z) (i : nat) (v : vars) : Prop :=
  v_created v = (3 <=? i)%nat /\ v_committed v = (6 <=? i)%nat /\
  ((i < 6)%nat -> v_oldReplicas v = if (1 <=? i)%nat then Some n else None).
Lemma deployment_body_spec w pvcName newPVCName pvc pv target snap :
  wp (K := K) (deployment_body m w pvcName newPVCName pvc pv target snap)
    (fun _ l => exists n, all_done (deployment_stages pvcName newPVCName (pv_reclaim pv) n) l)
    (fun v l => exists n i, cut (deployment_stages pvcName newPVCName (pv_reclaim pv) n) i l /\ deployment_at n i v)
    no_vars [].
Proof.
  unfold deployment_body, deployment_stages. run_body.
  all: at_stage.
Qed.
Definition reclaim_stages (reclaim : string) : nat := if bool_decide (reclaim = Retain) then 0 else 1.
Definition statefulset_at (reclaim : string) (n : Z) (i : nat) (v : vars) : Prop :=
  let d := reclaim_stages reclaim in
  v_committed v = (6 + d <=? i)%nat /\
  ((i < 6 + d)%nat -> v_created v = (3 + d <=? i)%nat /\
     v_reclaimPatched v = ((1 <=? d)%nat && (3 <=? i)%nat) /\
     v_oldReplicas v = if (1 <=? i)%nat then Some n else None).
Lemma statefulset_body_spec w pvcName tempPVCName pvc pv target snap :
  wp (K := K) (statefulset_body m w pvcName tempPVCName pvc pv target snap)
    (fun _ l => exists n, all_done (statefulset_stages pvcName tempPVCName (pv_reclaim pv) n) l)
    (fun v l => exists n i, cut (statefulset_stages pvcName tempPVCName (pv_reclaim pv) n) i l /\
       statefulset_at (pv_reclaim pv) n i v)
    no_vars [].
Proof.
  unfold statefulset_body, statefulset_stages, statefulset_at, reclaim_stages.
  destruct (bool_decide (pv_reclaim pv = Retain)).
  all: run_body; at_stage.
Qed.

Lemma statefulset_rollback_log w tempPVCName pv (k : K) v l : exists b1 b2 b3,
  mg_log (statefulset_rollback w tempPVCName pv (MkMigration k v l))
  = l ++ rolled_back (if v_created v then Some tempPVCName else None)
           (if v_reclaimPatched v then Some (pv_reclaim pv) else None) v b1 b2 b3.
Proof.
  unfold statefulset_rollback, rolled_back. simpl.
  destruct (v_committed v); [exists true, true, true; by rewrite app_nil_r|].
  assert (exists k1 b1, (if v_created v then attempt (delete_claim tempPVCName) (MkMigration k v l) else MkMigration k v l)
    = MkMigration k1 v (l ++ (if v_created v then [(Delete tempPVCName, b1)] else []))) as (k1 & b1 & ->).
  { destruct (v_created v); [apply (attempt_act (Delete tempPVCName))|]. exists k, true. by rewrite app_nil_r. }
  set (l1 := l ++ _). simpl mg_vars.
  assert (exists k2 b2, (if v_reclaimPatched v then attempt (set_reclaim (pv_name pv) (pv_reclaim pv)) (MkMigration k1 v l1)
      else MkMigration k1 v l1)
    = MkMigration k2 v (l1 ++ (if v_reclaimPatched v then [(Reclaim (pv_reclaim pv), b2)] else []))) as (k2 & b2 & ->).
  { destruct (v_reclaimPatched v); [apply (attempt_act (Reclaim (pv_reclaim pv)))|]. exists k1, true. by rewrite app_nil_r. }
  set (l2 := l1 ++ _). simpl mg_vars.
  assert (exists b3, mg_log (if v_oldReplicas v then attempt (scale_back StatefulSet (wl_name w)) (MkMigration k2 v l2)
      else MkMigration k2 v l2)
    = l2 ++ (match v_oldReplicas v with Some n => [(Scale n, b3)] | None => [] end)) as (b3 & ->).
  { destruct (v_oldReplicas v) as [n|] eqn:En; [|exists true; by rewrite app_nil_r].
    destruct (scale_back_log StatefulSet (wl_name w) n (MkMigration k2 v l2) En) as (k3 & b3 & ->). by exists b3. }
  exists b1, b2, b3. unfold l2, l1. by destruct (v_created v), (v_reclaimPatched v); rewrite <- ?app_assoc.
Qed.

(** The Deployment migration, whatever the cluster answers: it succeeds
    exactly when every stage succeeded, in order; otherwise the stages before
    the failing one succeeded, and the rollback deletes the new claim if it
    was created and scales the Deployment back to the number of replicas it
    had if it was scaled down, unless the volume was already repointed, after
    which nothing is undone.  In particular the original claim is deleted only
    when the copy succeeded and the Deployment was repointed and scaled up. *)
Theorem deployment_migration w pvcName newPVCName pvc pv target snap (k : K) :
  let r := migrate (deployment_body m w pvcName newPVCName pvc pv target snap) (deployment_rollback w newPVCName) k in
  exists n, let stages := deployment_stages pvcName newPVCName (pv_reclaim pv) n in
    (r.1 = None -> mg_log r.2 = map (fun a => (a, true)) stages) /\
    (r.1 <> None -> exists i before b1 b2, cut stages i before /\
       mg_log r.2 = before ++
         (if (6 <=? i)%nat then []
          else (if (3 <=? i)%nat then [(Delete newPVCName, b1)] else []) ++ (if (1 <=? i)%nat then [(Scale n, b2)] else []))).
Proof.
  apply (wp_migrate _ _ (fun err log => exists n, let stages := deployment_stages pvcName newPVCName (pv_reclaim pv) n in
    (err = None -> log = map (fun a => (a, true)) stages) /\
    (err <> None -> exists i before b1 b2, cut stages i before /\
       log = before ++
         (if (6 <=? i)%nat then []
          else (if (3 <=? i)%nat then [(Delete newPVCName, b1)] else []) ++ (if (1 <=? i)%nat then [(Scale n, b2)] else []))))).
  eapply wp_mono; [apply deployment_body_spec|..].
  - intros v l [n Hn]. by exists n.
  - intros v l (n & i & Hcut & Hc & Hk & Hr) k' e. exists n. split; [done|]. intros _.
    destruct (deployment_rollback_log w newPVCName k' v l) as (b1 & b2 & b3 & ->).
    exists i, l, b1, b3. split; [exact Hcut|]. f_equal. unfold rolled_back. rewrite Hk, Hc.
    destruct (Nat.leb_spec 6 i); [done|]. rewrite Hr by lia. by destruct (3 <=? i)%nat, (1 <=? i)%nat.
Qed.

(** The StatefulSet migration likewise; before the original claim is
    known to be gone the rollback deletes the temporary claim, restores the
    reclaim policy and scales back, afterwards nothing is undone. *)
Theorem statefulset_migration w pvcName tempPVCName pvc pv target snap (k : K) :
  let r := migrate (statefulset_body m w pvcName tempPVCName pvc pv target snap) (statefulset_rollback w tempPVCName pv) k in
  let d := reclaim_stages (pv_reclaim pv) in
  exists n, let stages := statefulset_stages pvcName tempPVCName (pv_reclaim pv) n in
    (r.1 = None -> mg_log r.2 = map (fun a => (a, true)) stages) /\
    (r.1 <> None -> exists i before b1 b2 b3, cut stages i before /\
       mg_log r.2 = before ++
         (if (6 + d <=? i)%nat then []
          else (if (3 + d <=? i)%nat then [(Delete tempPVCName, b1)] else [])
               ++ (if (1 <=? d)%nat && (3 <=? i)%nat then [(Reclaim (pv_reclaim pv), b2)] else [])
               ++ (if (1 <=? i)%nat then [(Scale n, b3)] else []))).
Proof.
  intros r d. subst r.
  apply (wp_migrate _ _ (fun err log => exists n, let stages := statefulset_stages pvcName tempPVCName (pv_reclaim pv) n in
    (err = None -> log = map (fun a => (a, true)) stages) /\
    (err <> None -> exists i before b1 b2 b3, cut stages i before /\
       log = before ++
         (if (6 + d <=? i)%nat then []
          else (if (3 + d <=? i)%nat then [(Delete tempPVCName, b1)] else [])
               ++ (if (1 <=? d)%nat && (3 <=? i)%nat then [(Reclaim (pv_reclaim pv), b2)] else [])
               ++ (if (1 <=? i)%nat then [(Scale n, b3)] else []))))).
  eapply wp_mono; [apply statefulset_body_spec|..].
  - intros v l [n Hn]. by exists n.
  - intros v l (n & i & Hcut & Hk & Hr) k' e. exists n. split; [done|]. intros _.
    destruct (statefulset_rollback_log w tempPVCName pv k' v l) as (b1 & b2 & b3 & ->).
    exists i, l, b1, b2, b3. split; [exact Hcut|]. f_equal. unfold rolled_back. fold d in Hk, Hr. rewrite Hk.
    destruct (Nat.leb_spec (6 + d) i); [done|]. destruct Hr as (-> & -> & ->); [lia|].
    by destruct (3 + d <=? i)%nat, ((1 <=? d)%nat && (3 <=? i)%nat), (1 <=? i)%nat.
Qed.
End migration_spec.
