(* ===== verification/PvcSafety.v ===== *)
(** * Safety of the claim migrations (pkg/mutate/pvcdownsize.go)

    Where the data is while a migration runs, the wait that can lose it, and
    the termination of the waits. *)

From S2P Require Import Prelude GoText GoJson CanonJson PvcDownsize.

#[local] Set Default Proof Using "Type".

(** ** Termination of the waits *)
Section termination.
Context {Q K : Type} `{Quantities Q} `{HX : Cluster Q K} {HC : Clocked Q K} (m : Mutator).

Lemma pollInterval_pos : 0 < pollInterval m.
Proof. unfold pollInterval. destruct (Z.ltb_spec 0 (m_pollInterval m)); [done|]. unfold defaultPollInterval, second. lia. Qed.

(** A test that only asks the cluster and never runs out of fuel itself. *)
Definition forward (test : K -> option (option failure) * K) : Prop :=
  forall k, clock k <= clock (test k).2 /\ (test k).1 <> Some (Some OutOfFuel).

Lemma poll_ends fuel what deadline test k : forward test -> (1 <= fuel)%nat ->
  deadline < clock k + (Z.of_nat fuel - 1) * pollInterval m ->
  (poll m fuel what deadline test k).1 <> Some OutOfFuel.
Proof using HC.
  intros Ht. pose proof pollInterval_pos as HI. revert k. induction fuel as [|fuel IH]; intros k Hf Hd; [lia|].
  cbn [poll]. destruct (Ht k) as [Hk Hr]. destruct (test k) as [[r|] k1]; simpl in *; [congruence|].
  pose proof (clock_now k1) as Hnow. pose proof (clock_forward Now k1) as Hf2.
  destruct (call Now k1) as [now k2]. simpl in *. subst now.
  destruct (Z.ltb_spec deadline (clock k1)); [done|].
  pose proof (clock_sleep (pollInterval m) k2) as Hs.
  destruct (call (SleepCtx (pollInterval m)) k2) as [[msg|] k3]; simpl in *; [done|].
  specialize (Hs eq_refl). apply IH; nia.
Qed.
Lemma poll_until_ends what timeout test k : 0 <= timeout -> forward test ->
  (poll_until m what timeout test k).1 <> Some OutOfFuel.
Proof using HC.
  intros Ht Hf. unfold poll_until, poll_fuel. pose proof (clock_now k) as Hnow. pose proof (clock_forward Now k) as Hk.
  destruct (call Now k) as [now k1]. simpl in *. subst now. pose proof pollInterval_pos as HI.
  apply poll_ends; [done|lia|]. pose proof (Z.mul_succ_div_gt timeout (pollInterval m) HI).
  assert (0 <= timeout / pollInterval m) by (by apply Z.div_pos). nia.
Qed.

Lemma waits_end selector pod name k :
  (waitForPodsTerminated m selector k).1 <> Some OutOfFuel /\
    (waitForPodRunning m pod k).1 <> Some OutOfFuel /\ (waitForPVCDeletion m name k).1 <> Some OutOfFuel.
Proof using HC.
  assert (0 <= podTermTimeout m /\ 0 <= opTimeout m) as [Hpod Hop].
  { unfold podTermTimeout, opTimeout, defaultPodTermTimeout, defaultOpTimeout, second.
    destruct (Z.ltb_spec 0 (m_podTermTimeout m)), (Z.ltb_spec 0 (m_opTimeout m)); lia. }
  split_and!; apply poll_until_ends; try done; intros k0.
  - pose proof (clock_forward (ListPods selector) k0) as Hc. by destruct (call _ k0) as [[e|[|n]] k1].
  - pose proof (clock_forward (GetPod pod) k0) as Hc. destruct (call _ k0) as [[e|phase] k1]; [done|].
    split; [done|]. by repeat case_bool_decide.
  - pose proof (clock_forward (GetPVC name) k0) as Hc. by destruct (call _ k0) as [[[]|p] k1].
Qed.

(** Operations that never run out of fuel. *)
Definition ends_op (op : K -> option failure * K) : Prop := forall k, (op k).1 <> Some OutOfFuel.
Definition ends_step (s : @step K) : Prop := forall g, (s g).1 <> Some OutOfFuel.

Lemma ends_act a op : ends_op op -> ends_step (act a op).
Proof using. intros Hop g. unfold act. specialize (Hop (mg_cluster g)). by destruct (op (mg_cluster g)). Qed.
Lemma ends_then s t : ends_step s -> ends_step t -> ends_step (andThen s t).
Proof using.
  intros Hs Ht g. unfold andThen. specialize (Hs g). destruct (s g) as [[e|] g']; [done|apply Ht].
Qed.
Lemma ends_assign f : ends_step (assign f).
Proof using. by intros g. Qed.
Lemma ends_skip : ends_step skip.
Proof using. by intros g. Qed.
Lemma ends_check what r : (check (K := K) what r).1 <> Some OutOfFuel.
Proof using. unfold check. by destruct r as [[e|] k]. Qed.
Lemma ends_check_delete what r : (check_delete (K := K) what r).1 <> Some OutOfFuel.
Proof using. unfold check_delete. by destruct r as [[[]|] k]. Qed.

Lemma ends_scale retries backoff old kd name replicas k : (scale_attempts retries backoff old kd name replicas k).1 <> inl OutOfFuel.
Proof using.
  revert backoff old k. induction retries as [|n IH]; intros backoff old k; cbn [scale_attempts].
  all: destruct (call (GetWorkload kd name) k) as [[[]|w] k1].
  all: try match goal with |- context [call (UpdateWorkload ?a ?b) ?k] => destruct (call (UpdateWorkload a b) k) as [[[]|] ?] end; try done.
  all: match goal with |- context [call (SleepCtx ?d) ?k] => destruct (call (SleepCtx d) k) as [[] ?] end; [done|apply IH].
Qed.
Lemma ends_repoint retries backoff name old new k : (repoint_attempts retries backoff name old new k).1 <> Some OutOfFuel.
Proof using.
  revert backoff k. induction retries as [|n IH]; intros backoff k; cbn [repoint_attempts].
  all: destruct (call (GetWorkload Deployment name) k) as [[e|w] k1]; [done|].
  all: destruct (podSpecMountsPVC w old); cbn [negb]; [|by destruct (podSpecMountsPVC w new)].
  all: match goal with |- context [call (UpdateWorkload ?a ?b) ?k] => destruct (call (UpdateWorkload a b) k) as [[[]|] k2] end; try done.
  destruct (call (SleepCtx backoff) k2) as [[] k3]; [done|apply IH].
Qed.
Lemma ends_scale_down kd name : ends_step (scale_down kd name).
Proof using.
  intros g. unfold scale_down, scaleWorkloadTyped. pose proof (ends_scale 2 second None kd name 0 (mg_cluster g)) as Hs.
  destruct (scale_attempts _ _ _ _ _ _ _) as [[e|n] k]; simpl in *; congruence.
Qed.
Lemma ends_scale_back kd name : ends_step (scale_back kd name).
Proof using.
  intros g. apply (ends_act (Scale _)). intros k. unfold scaleWorkloadTyped.
  pose proof (ends_scale 2 second None kd name (default 0 (v_oldReplicas (mg_vars g))) k) as Hs.
  destruct (scale_attempts _ _ _ _ _ _ _) as [[e|n] k']; simpl in *; congruence.
Qed.
Lemma ends_copy src dst role : ends_op (copyData m src dst role).
Proof using HC.
  intros k. unfold copyData. destruct (call RandString k) as [suffix k1]. set (pod := src +:+ _).
  pose proof (ends_check "create mover pod" (call (CreatePod pod src dst (moverImageName m)) k1)) as Hc.
  destruct (check _ _) as [[e|] k2]; [done|].
  destruct (waits_end "" pod "" k2) as (_ & Hw & _). destruct (waitForPodRunning m pod k2) as [[e|] k3]; [done|].
  destruct (copyTimeout m k3) as [ct k4]. destruct (call (Exec _ _ _) k4) as [r k5]. simpl.
  destruct r as [msg|[[exit out] err]]; simpl; [done|]. destruct (exit =? 0); [|done]. by destruct (contains out _).
Qed.
Lemma ends_parity snap name target : ends_step (check_parity (Q := Q) snap name target).
Proof using.
  apply ends_act. intros k. destruct (call (GetPVC name) k) as [[e|pvc] k1]; [done|]. by destruct (verifyParity snap pvc target).
Qed.

Lemma ends_validate pvcName k : (validateDownsizePrereqs (Q := Q) pvcName k).1 <> inl OutOfFuel.
Proof using.
  unfold validateDownsizePrereqs. destruct (call (GetPVC pvcName) k) as [[e|pvc] k1]; [done|].
  repeat case_match; done.
Qed.
Lemma ends_lookup pvcName k : (getWorkloadByPVC (Q := Q) pvcName k).1 <> inl OutOfFuel.
Proof using.
  unfold getWorkloadByPVC. destruct (call (ListWorkloads Deployment) k) as [[e|deps] k1]; [done|].
  destruct (find_mounting pvcName deps false); [done|].
  by destruct (call (ListWorkloads StatefulSet) k1) as [[e|stss] k2].
Qed.

Lemma ends_migrate body rollback k : ends_step body -> (migrate (K := K) body rollback k).1 <> Some OutOfFuel.
Proof using. intros Hb. unfold migrate. specialize (Hb (MkMigration k no_vars [])). by destruct (body _) as [[e|] g]. Qed.
Ltac ends_steps := repeat first
  [ apply ends_then | apply ends_assign | apply ends_skip | apply ends_scale_down | apply ends_scale_back | apply ends_parity
  | case_bool_decide | apply ends_act; intros ?; first
      [apply ends_check | apply ends_check_delete | apply ends_copy | apply ends_repoint | done
      | apply (waits_end _ "" "") | apply (waits_end "" "" _)] ].

(** C12: A downsizing ends: with a clock that advances by at least the time
    slept, no wait runs out of its polls, [timeout / interval + 2], so whatever
    the cluster answers [DownsizePVC] returns, with success or with an error
    of the cluster, the context, a timeout or a check. *)
Theorem downsizing_ends exec_configured pvcName target k :
  (DownsizePVC m exec_configured pvcName target k).1 <> Some OutOfFuel.
Proof using HC.
  assert (forall pvc pv snap k0, (downsizeDeployment m pvcName pvc pv target snap k0).1 <> Some OutOfFuel) as Hd.
  { intros pvc pv snap k0. unfold downsizeDeployment. destruct (getWorkloadByPVC pvcName k0) as [[e|[[w []]|]] k1]; try done.
    destruct (call RandString k1) as [suffix k2]. apply ends_migrate. unfold deployment_body. ends_steps. }
  assert (forall pvc pv snap k0, (downsizeStatefulSet m pvcName pvc pv target snap k0).1 <> Some OutOfFuel) as Hs.
  { intros pvc pv snap k0. unfold downsizeStatefulSet. destruct (getWorkloadByPVC pvcName k0) as [[e|[[w []]|]] k1]; try done.
    destruct (call RandString k1) as [suffix k2]. apply ends_migrate. unfold statefulset_body. ends_steps. }
  unfold DownsizePVC. destruct exec_configured; [|done]. simpl negb. cbv iota.
  pose proof (ends_validate pvcName k) as Hv. destruct (validateDownsizePrereqs pvcName k) as [[e|[pvc pv]] k1]; simpl in *;
    [congruence|].
  pose proof (ends_lookup pvcName k1) as Hl. destruct (getWorkloadByPVC pvcName k1) as [[e|[[w []]|]] k2]; simpl in *;
    [congruence|apply Hd|apply Hs|done].
Qed.
End termination.

(** ** Where the data is

    An abstract view of a log: whether the original claim, the copy, and the
    released volume of the original hold all of the data.  A failed action
    changes nothing; deleting the original leaves the data on its volume only
    while the reclaim policy is Retain, and a released volume goes with the
    policy. *)
Record store := MkStore { st_original : bool; st_copy : bool; st_volume : bool; st_retained : bool }.
Definition initial_store (reclaim : string) : store := MkStore true false false (bool_decide (reclaim = Retain)).

Section survival.
Variables original copy : string.

Definition store_step (s : store) (e : event) : store :=
  match e with
  | (Copy src dst, true) =>
    if bool_decide (src = original) && bool_decide (dst = copy)
    then MkStore (st_original s) (st_copy s || st_original s) (st_volume s) (st_retained s)
    else if bool_decide (src = copy) && bool_decide (dst = original)
    then MkStore (st_original s || st_copy s) (st_copy s) (st_volume s) (st_retained s)
    else s
  | (Delete pvc, true) =>
    if bool_decide (pvc = original)
    then MkStore false (st_copy s) (st_volume s || st_original s && st_retained s) (st_retained s)
    else if bool_decide (pvc = copy) then MkStore (st_original s) false (st_volume s) (st_retained s)
    else s
  | (Reclaim policy, true) =>
    MkStore (st_original s) (st_copy s) (st_volume s && bool_decide (policy = Retain)) (bool_decide (policy = Retain))
  | (RemovePV, _) => MkStore (st_original s) (st_copy s) false (st_retained s)
  | _ => s
  end.
Definition data_safe (s : store) : bool := st_original s || st_copy s || st_volume s.
(** The data is somewhere after every prefix of the log. *)
Fixpoint always_safe (s : store) (log : list event) : bool :=
  data_safe s && match log with [] => true | e :: log => always_safe (store_step s e) log end.
End survival.

Lemma always_safe_prefix original copy s log i :
  always_safe original copy s log = true -> data_safe (foldl (store_step original copy) s (take i log)) = true.
Proof.
  revert s i. induction log as [|e log IH]; intros s i Hs; cbn [always_safe] in Hs; apply andb_prop in Hs as [H0 Hs].
  - by rewrite take_nil.
  - destruct i; [done|]. cbn [take foldl]. by apply IH.
Qed.

(** Decides the comparisons of the two claim names and runs the view. *)
Ltac run_store original copy Hne :=
  let E1 := fresh in let E2 := fresh in let E3 := fresh in let E4 := fresh in
  assert (bool_decide (original = original) = true) as E1 by (by apply bool_decide_true);
  assert (bool_decide (copy = copy) = true) as E2 by (by apply bool_decide_true);
  assert (bool_decide (original = copy) = false) as E3 by (by apply bool_decide_false);
  assert (bool_decide (copy = original) = false) as E4 by (apply bool_decide_false; by intros <-);
  unfold rolled_back;
  repeat first
    [ progress cbn
    | progress rewrite ?E1, ?E2, ?E3, ?E4
    | match goal with
      | H : bool_decide _ = _ |- _ => progress rewrite ?H
      | |- context [if ?b then _ else _] => is_var b; destruct b
      end ];
  try reflexivity.

Section data.
Context {Q K : Type} `{Quantities Q} `{Cluster Q K} (m : Mutator).

Lemma cut_length stages i log : cut stages i log -> (i < length stages)%nat.
Proof. intros (a & Ha & _). by eapply lookup_lt_Some. Qed.

(** The Deployment migration never loses the data: whatever the cluster
    answers and wherever the migration stops, rollback included, after every
    single action the original claim, the copy or the retained volume still
    holds all of it. *)
Theorem deployment_keeps_data w pvcName newPVCName pvc pv target snap (k : K) : pvcName <> newPVCName ->
  let r := migrate (deployment_body m w pvcName newPVCName pvc pv target snap) (deployment_rollback w newPVCName) k in
  always_safe pvcName newPVCName (initial_store (pv_reclaim pv)) (mg_log r.2) = true.
Proof.
  intros Hne. apply (wp_migrate _ _ (fun _ log => always_safe pvcName newPVCName (initial_store (pv_reclaim pv)) log = true)).
  eapply wp_mono; [apply deployment_body_spec|..].
  - intros v l [n ->]. unfold deployment_stages, initial_store.
    destruct (bool_decide (pv_reclaim pv = Retain)); run_store pvcName newPVCName Hne.
  - intros v l (n & i & Hcut & Hc & Hk & Hr) k' e.
    destruct (deployment_rollback_log w newPVCName k' v l) as (b1 & b2 & b3 & ->).
    destruct Hcut as (a & Ha & ->). unfold deployment_stages, initial_store, rolled_back in *. rewrite Hk, Hc.
    destruct (bool_decide (pv_reclaim pv = Retain)).
    all: repeat (destruct i as [|i]; [simpl in Ha; injection Ha as <-; rewrite ?Hr by lia;
      run_store pvcName newPVCName Hne|]); done.
Qed.


Lemma rolled_not_awaits created reclaim v b1 b2 b3 x b : (AwaitGone x, b) ∉ rolled_back created reclaim v b1 b2 b3.
Proof.
  unfold rolled_back. destruct (v_committed v), created, reclaim, (v_oldReplicas v); simpl; rewrite ?elem_of_cons, elem_of_nil;
    naive_solver.
Qed.

(** The exception is real: when the original claim was accepted for
    deletion and the wait for it failed (a claim still mounted elsewhere stays
    until its last pod is gone), the rollback deletes the temporary claim and
    puts the reclaim policy back; the claim's deletion is not undone, and once
    it completes neither a claim nor a volume has the data. *)
Theorem stuck_deletion_loses_data w pvcName tempPVCName pvc pv target snap (k : K) :
  pvcName <> tempPVCName -> pv_reclaim pv <> Retain ->
  let r := migrate (statefulset_body m w pvcName tempPVCName pvc pv target snap) (statefulset_rollback w tempPVCName pv) k in
  (AwaitGone pvcName, false) ∈ mg_log r.2 ->
  (Delete tempPVCName, true) ∈ mg_log r.2 -> (Reclaim (pv_reclaim pv), true) ∈ mg_log r.2 ->
  data_safe (foldl (store_step pvcName tempPVCName) (initial_store (pv_reclaim pv)) (mg_log r.2)) = false.
Proof.
  intros Hne Hpol. apply (wp_migrate _ _ (fun _ log => (AwaitGone pvcName, false) ∈ log ->
    (Delete tempPVCName, true) ∈ log -> (Reclaim (pv_reclaim pv), true) ∈ log ->
    data_safe (foldl (store_step pvcName tempPVCName) (initial_store (pv_reclaim pv)) log) = false)).
  assert (forall done rest a x, x <> a -> (x, false) ∉ rest ->
    (x, false) ∈ (map (fun a : action => (a, true)) done ++ [(a, false)]) ++ rest -> False) as Hlast.
  { intros done rest a x Hx Hr. rewrite !elem_of_app, list_elem_of_singleton. intros [[(y & E & _)%list_elem_of_fmap|E]|?];
      congruence || done. }
  eapply wp_mono; [apply statefulset_body_spec|..].
  - intros v l [n ->] (y & E & _)%list_elem_of_fmap. done.
  - intros v l (n & i & Hcut & Hk & Hr) k' e.
    destruct (statefulset_rollback_log w tempPVCName pv k' v l) as (b1 & b2 & b3 & ->).
    destruct Hcut as (a & Ha & ->). intros Hgone.
    destruct (decide (a = AwaitGone pvcName)) as [->|Hna];
      [|exfalso; eapply (Hlast _ _ a (AwaitGone pvcName)); [congruence|apply rolled_not_awaits|exact Hgone]].
    clear Hgone Hlast. unfold statefulset_stages, initial_store, rolled_back, reclaim_stages in *.
    rewrite (bool_decide_false (pv_reclaim pv = Retain)) in * by done.
    assert (i = 6%nat) as ->.
    { do 14 (destruct i as [|i]; [simpl in Ha; first [reflexivity|discriminate Ha|injection Ha as Ha; by destruct Hne]|]). done. }
    destruct Hr as (Hc & Hp & Ho); [lia|]. rewrite Hk, Hc, Hp, Ho. cbn [app map take Nat.add Nat.leb andb].
    rewrite !elem_of_cons, !elem_of_nil. intros Hdel Hrec.
    assert (b1 = true) as -> by (destruct_or?; simplify_eq; done).
    assert (b2 = true) as -> by (clear Hdel; destruct_or?; simplify_eq; done).
    assert (bool_decide (pv_reclaim pv = Retain) = false) as Hret by (by apply bool_decide_false).
    clear Hdel Hrec. run_store pvcName tempPVCName Hne.
Qed.
End data.

(** ** A rollback with an ended context *)
Section cancelled.
Context {Q K : Type} `{Quantities Q} `{Cluster Q K}.
(** The context ended: it stays so, and reading a workload and deleting a
    claim fail with the context's error. *)
Context (ended : K -> Prop).
Context (ended_call : forall r k, ended k -> ended (call r k).2).
Context (ended_get : forall kd name k, ended k -> exists msg, (call (GetWorkload kd name) k).1 = inl (OtherError msg)).
Context (ended_delete : forall name k, ended k -> exists msg, (call (DeletePVC name) k).1 = Some (OtherError msg)).

Lemma ended_scale kd name n k : ended k -> exists e, (scaleWorkloadTyped kd name n k).1 = inl e.
Proof using ended_get.
  intros Hk. unfold scaleWorkloadTyped. cbn [scale_attempts]. destruct (ended_get kd name k Hk) as [msg Hm].
  destruct (call (GetWorkload kd name) k) as [r k1]. simpl in Hm. subst r. by eexists.
Qed.

(** The rollback of a migration whose context ended, which is how a
    migration that exceeds its time budget fails, undoes nothing: it runs
    under the same context, so the new claim stays and the Deployment stays
    scaled down to zero; every action of the rollback is recorded as failed. *)
Theorem cancelled_rollback_undoes_nothing w newPVCName (k : K) n l : ended k ->
  mg_log (deployment_rollback w newPVCName (MkMigration k (MkVars (Some n) true false false) l))
  = l ++ [(Delete newPVCName, false); (Scale n, false)].
Proof using ended_call ended_get ended_delete.
  intros Hk. unfold deployment_rollback. simpl. unfold attempt at 2. unfold delete_claim, act at 1, deletePVC, check_delete. simpl.
  destruct (ended_delete newPVCName k Hk) as [msg Hm]. pose proof (ended_call (DeletePVC newPVCName) k Hk) as Hk1.
  destruct (call (DeletePVC newPVCName) k) as [r k1]. simpl in *. subst r. simpl.
  unfold attempt, scale_back, act. simpl. destruct (ended_scale Deployment (wl_name w) n k1 Hk1) as [e He].
  destruct (scaleWorkloadTyped Deployment (wl_name w) n k1) as [r k2]. simpl in He. subst r. simpl. by rewrite <- app_assoc.
Qed.
End cancelled.

(** ** The parity check *)
Section parity.
Context {Q : Type} `{Quantities Q}.
Lemma differing_self mk m : NoDup m.*1 -> differing mk m m = [].
Proof.
  intros Hnd. unfold differing. assert (forall l, (forall kv, kv ∈ l -> kv ∈ m) ->
    omap (fun kv => if bool_decide (default "" (assoc kv.1 m) = kv.2) then None else Some (mk kv.1)) l = []) as Hl; [|by apply Hl].
  induction l as [|[k v] l IH]; intros Hin; [done|]. simpl.
  rewrite (In_assoc k v m Hnd) by (apply Hin; by left). rewrite bool_decide_true by done. apply IH.
  intros kv Hkv. apply Hin. by right.
Qed.
Lemma filter_mset k v (m : strmap) p : p (k, v) = false ->
  (forall v', p (k, v') = false) -> List.filter p (mset k v m) = List.filter p m.
Proof.
  intros Hp Hk. induction m as [|[j w] m IH]; simpl; [by rewrite Hp|].
  case_decide as E; simpl; [subst; by rewrite Hp, Hk|]. by rewrite IH.
Qed.
Lemma filter_idem {A} (p : A -> bool) l : List.filter p (List.filter p l) = List.filter p l.
Proof. induction l as [|x l IH]; [done|]. simpl. destruct (p x) eqn:E; simpl; rewrite ?E, IH; done. Qed.
Lemma filter_keys_NoDup (p : string * string -> bool) (m : strmap) : NoDup m.*1 -> NoDup (List.filter p m).*1.
Proof.
  induction m as [|[k v] m IH]; [done|]. csimpl. intros [Hk Hm]%NoDup_cons. destruct (p (k, v)); [|by apply IH].
  csimpl. apply NoDup_cons. split; [|by apply IH]. intros Hin. apply Hk.
  apply list_elem_of_fmap in Hin as ([k' v'] & -> & Hin). apply list_elem_of_fmap. exists (k', v'). split; [done|].
  apply list_elem_of_In in Hin. apply filter_In in Hin as [Hin _]. by apply list_elem_of_In.
Qed.

(** The claim a migration creates passes its own parity check: if nothing
    else changed it, comparing it with the snapshot of the source and the
    target size finds no mismatch; binding fields, the scaler's mark and
    Kubernetes' own annotations, which are not carried over, do not count. *)
Theorem fresh_claim_passes_parity name (src : PVC Q) target :
  NoDup (pvc_labels src).*1 -> NoDup (pvc_annotations src).*1 ->
  verifyParity (newPVCSnapshot src) (pvc_from_spec name src target) target = [].
Proof.
  intros Hl Ha. unfold verifyParity, newPVCSnapshot, pvc_from_spec. simpl.
  unfold filterUserAnnotations. rewrite filter_mset by (intros; reflexivity).
  rewrite filter_idem, !differing_self, !bool_decide_true by (done || by apply filter_keys_NoDup).
  rewrite assoc_mset, decide_True by done. simpl. by rewrite quantity_cmp_refl.
Qed.
End parity.

(** ** A sample cluster

    Volumes take effect at once, except that with [stuck] a deleted claim
    stays; one workload, three replicas. *)
Record sample := MkSample { sa_now : Z; sa_claims : list (string * PVC Z) }.
#[local] Instance sample_quantities : Quantities Z.
Proof. refine {| quantity_zero := 0; quantity_cmp := Z.sub |}. apply Z.sub_diag. Defined.
Definition sample_pvc : PVC Z :=
  MkPVC "data-db-0" [("app", "db")] [("pv.kubernetes.io/bind-completed", "yes"); ("team", "x")] ["ReadWriteOnce"]
    (Some "fast") None [("storage", 100)] "pv-1" None None None "Bound".
Definition sample_workload : Workload := MkWorkload "db" (Some [("app", "db")]) (Some 3) [Some "data-db-0"] [].
Definition sample_call (kd : kind) (stuck : bool) (r : request Z) (k : sample) : answer r * sample :=
  match r with
  | GetPVC name => (match assoc name (sa_claims k) with Some p => inr p | None => inl NotFound end, k)
  | CreatePVC pvc => (None, MkSample (sa_now k) (mset (pvc_name pvc) pvc (sa_claims k)))
  | DeletePVC name => (None, if stuck then k else MkSample (sa_now k) (mdel name (sa_claims k)))
  | GetPV name => (inr (MkPV name false "Delete"), k)
  | ListWorkloads kd' => (inr (match kd, kd' with
                               | Deployment, Deployment | StatefulSet, StatefulSet => [sample_workload]
                               | _, _ => []
                               end), k)
  | GetWorkload _ _ => (inr sample_workload, k)
  | ListPods _ => (inr 0%nat, k)
  | GetPod _ => (inr "Running", k)
  | Exec _ _ _ => (inr (0, "COPY_SUCCESS: data copied", ""), k)
  | Now => (sa_now k, k)
  | SleepCtx d => (None, MkSample (sa_now k + Z.max 0 d) (sa_claims k))
  | RandString => ("abcd1234", k)
  | Budget => (None, k)
  | PatchReclaim _ _ | DeletePV _ | GetStorageClass _ | UpdateWorkload _ _ | CreatePod _ _ _ _ | DeletePod _ => (None, k)
  end.
Definition sample_start : sample := MkSample 0 [("data-db-0", sample_pvc)].
Definition sample_mutator : Mutator := MkMutator "" "" 0 0 0 (60 * second).
Definition sample_pv : PV := MkPV "pv-1" false "Delete".
Lemma sample_clocked kd stuck : @Clocked Z sample (sample_call kd stuck).
Proof.
  refine {| clock := sa_now |}; [done| |].
  - intros r k. destruct r; simpl; try lia. destruct stuck; simpl; lia.
  - intros d k _. simpl. lia.
Defined.

Lemma downsizing_ends_witness :
  (@DownsizePVC Z sample _ (sample_call StatefulSet true) sample_mutator true "data-db-0" 50 sample_start).1 <> Some OutOfFuel.
Proof. apply (@downsizing_ends Z sample _ _ (sample_clocked StatefulSet true)). Defined.

Definition sample_deployment (stuck : bool) :=
  @migrate sample
    (@deployment_body Z sample _ (sample_call Deployment stuck) sample_mutator sample_workload "data-db-0"
       "data-db-0-downsized-abcd1234" sample_pvc sample_pv 50 (newPVCSnapshot sample_pvc))
    (@deployment_rollback Z sample (sample_call Deployment stuck) sample_workload "data-db-0-downsized-abcd1234") sample_start.
Definition sample_statefulset (stuck : bool) :=
  @migrate sample
    (@statefulset_body Z sample _ (sample_call StatefulSet stuck) sample_mutator sample_workload "data-db-0"
       "data-db-0-tmp-abcd1234" sample_pvc sample_pv 50 (newPVCSnapshot sample_pvc))
    (@statefulset_rollback Z sample (sample_call StatefulSet stuck) sample_workload "data-db-0-tmp-abcd1234" sample_pv) sample_start.

Lemma deployment_migration_witness :
  exists n, mg_log (sample_deployment false).2
  = map (fun a => (a, true)) (deployment_stages "data-db-0" "data-db-0-downsized-abcd1234" "Delete" n).
Proof.
  destruct (@deployment_migration Z sample _ (sample_call Deployment false) sample_mutator sample_workload "data-db-0"
    "data-db-0-downsized-abcd1234" sample_pvc sample_pv 50 (newPVCSnapshot sample_pvc) sample_start) as (n & Hok & _).
  exists n. apply Hok. vm_compute. reflexivity.
Defined.
Lemma statefulset_migration_witness :
  exists n, mg_log (sample_statefulset false).2
  = map (fun a => (a, true)) (statefulset_stages "data-db-0" "data-db-0-tmp-abcd1234" "Delete" n).
Proof.
  destruct (@statefulset_migration Z sample _ (sample_call StatefulSet false) sample_mutator sample_workload "data-db-0"
    "data-db-0-tmp-abcd1234" sample_pvc sample_pv 50 (newPVCSnapshot sample_pvc) sample_start) as (n & Hok & _).
  exists n. apply Hok. vm_compute. reflexivity.
Defined.
Lemma deployment_keeps_data_witness :
  always_safe "data-db-0" "data-db-0-downsized-abcd1234" (initial_store "Delete") (mg_log (sample_deployment true).2) = true.
Proof.
  apply (@deployment_keeps_data Z sample _ (sample_call Deployment true) sample_mutator sample_workload "data-db-0"
    "data-db-0-downsized-abcd1234" sample_pvc sample_pv 50 (newPVCSnapshot sample_pvc) sample_start). done.
Defined.
Lemma stuck_deletion_loses_data_witness :
  (sample_statefulset true).1 = Some (TimedOut "pvc deletion") /\
  data_safe (foldl (store_step "data-db-0" "data-db-0-tmp-abcd1234") (initial_store "Delete") (mg_log (sample_statefulset true).2)) = false.
Proof.
  split; [vm_compute; reflexivity|].
  apply (@stuck_deletion_loses_data Z sample _ (sample_call StatefulSet true) sample_mutator sample_workload "data-db-0"
    "data-db-0-tmp-abcd1234" sample_pvc sample_pv 50 (newPVCSnapshot sample_pvc) sample_start); try done;
    apply (bool_decide_unpack _); vm_compute; reflexivity.
Defined.
(** A cluster that answers every request with the context's error. *)
Definition ended_cluster (r : request Z) (k : unit) : answer r * unit :=
  match r with
  | GetPVC _ | GetPV _ | ListWorkloads _ | GetWorkload _ _ | ListPods _ | GetPod _ => (inl (OtherError "context deadline exceeded"), k)
  | Exec _ _ _ => (inl "context deadline exceeded", k)
  | Now => (0, k)
  | SleepCtx _ => (Some "context deadline exceeded", k)
  | RandString => ("abcd1234", k)
  | Budget => (Some 0, k)
  | CreatePVC _ | DeletePVC _ | PatchReclaim _ _ | DeletePV _ | GetStorageClass _ | UpdateWorkload _ _ | CreatePod _ _ _ _
  | DeletePod _ => (Some (OtherError "context deadline exceeded"), k)
  end.
Lemma cancelled_rollback_undoes_nothing_witness :
  mg_log (@deployment_rollback Z unit ended_cluster sample_workload "new" (MkMigration tt (MkVars (Some 3) true false false) []))
  = [(Delete "new", false); (Scale 3, false)].
Proof.
  apply (@cancelled_rollback_undoes_nothing Z unit ended_cluster (fun _ => True)); try done; intros; by eexists.
Defined.
Lemma fresh_claim_passes_parity_witness :
  verifyParity (newPVCSnapshot sample_pvc) (pvc_from_spec "data-db-0-tmp-abcd1234" sample_pvc 50) 50 = [].
Proof. apply fresh_claim_passes_parity; apply (bool_decide_unpack _); vm_compute; reflexivity. Defined.
