(* ===== verification/Drain.v ===== *)
(** * Draining a node (pkg/mutate/drain.go)

    [Drain] decides per pod whether to skip it, and evicts the others in
    parallel, each in a goroutine of its own that polls until the pod is gone.
    The goroutines are workers of a step system; the API server's answers and
    the end of the timeout are its events, in any order. *)

From S2P Require Import Prelude GoText GoJson GoStruct GoTime.

#[local] Set Default Proof Using "Type".

Record DrainOptions := MkDrainOptions {
  GracePeriodSeconds : option Z; Timeout : duration; IgnoreDaemonSets : bool; DeleteEmptyDirData : bool; Force : bool;
  DisableEviction : bool }.
Record DrainPodResult := MkPodResult { dp_Name : string; dp_Namespace : string; dp_Status : string; dp_Error : string }.

(** What drain reads of a pod; [pod_emptyDir] has an entry per volume. *)
Record PodOwner := MkPodOwner { po_Kind : string; po_Controller : option bool }.
Record DrainPod := MkDrainPod {
  pod_Name : string; pod_Namespace : string; pod_UID : string; pod_Annotations : list (string * string);
  pod_Owners : list PodOwner; pod_emptyDir : list bool }.

Definition isMirrorPod (p : DrainPod) : bool := bool_decide (is_Some (assoc "kubernetes.io/config.mirror" (pod_Annotations p))).
Definition hasOwner (p : DrainPod) (kind : string) : bool := existsb (fun o => fold_equal (po_Kind o) kind) (pod_Owners p).
Definition hasController (p : DrainPod) : bool := existsb (fun o => bool_decide (po_Controller o = Some true)) (pod_Owners p).

Definition skipReason (p : DrainPod) (opts : DrainOptions) : string :=
  if isMirrorPod p then "mirror pod"
  else if hasOwner p "DaemonSet" then (if IgnoreDaemonSets opts then "daemonset pod" else "")
  else if negb (Force opts) && negb (hasController p) then "unmanaged pod (set Force=true to delete)"
  else if negb (DeleteEmptyDirData opts) && existsb id (pod_emptyDir p)
  then "uses emptyDir (set DeleteEmptyDirData=true to evict)"
  else "".

(** [handleDrain]: JSON numbers are floats, of which Go keeps the integer
    part; [num] is that conversion. *)
Section handler.
Variable num : json -> option Z.
Definition getBool (m : gomap) (k : string) (fallback : bool) : bool :=
  match mget m k with JBool b => b | _ => fallback end.
Definition drain_options (p : gomap) : DrainOptions :=
  MkDrainOptions (num (mget p "grace_period_seconds"))
    (match num (mget p "timeout_seconds") with Some t => wrap64 (t * second) | None => 0 end)
    (getBool p "ignore_daemonsets" true) (getBool p "delete_emptydir_data" false)
    (getBool p "force" false) (getBool p "disable_eviction" false).
End handler.

(** ** Evicting one pod *)
Inductive kube_error := KubeNotFound (msg : string) | KubeError (msg : string).
Definition error_text (e : kube_error) : string := match e with KubeNotFound m | KubeError m => m end.

(** The request that starts a removal. *)
Inductive removal := EvictV1 (namespace name : string) | DeletePod (namespace name : string) (grace : option Z).
Definition removal_request (p : DrainPod) (opts : DrainOptions) : removal :=
  if DisableEviction opts then DeletePod (pod_Namespace p) (pod_Name p) (GracePeriodSeconds opts)
  else EvictV1 (pod_Namespace p) (pod_Name p).

Definition result_of (p : DrainPod) (status error : string) : DrainPodResult :=
  MkPodResult (pod_Name p) (pod_Namespace p) status error.

(** Where a goroutine stands: before its request, polling, or done. *)
Inductive stage := Requesting | Polling | Ended.
Record worker := MkWorker { wk_pod : DrainPod; wk_stage : stage }.
(** The answers to the request and to a poll ([Get] returns the UID), and the
    end of the context while polling. *)
Inductive answer := Removed (err : option kube_error) | Got (r : kube_error + string) | CtxDone.

Inductive evict_outcome := Continue (s : stage) | Finish (r : DrainPodResult).
Definition evictAndWait (p : DrainPod) (s : stage) (a : answer) : option evict_outcome :=
  match s, a with
  | Requesting, Removed (Some (KubeError msg)) => Some (Finish (result_of p "failed" msg))
  | Requesting, Removed _ => Some (Continue Polling)
  | Polling, CtxDone => Some (Finish (result_of p "failed" "timed out waiting for pod removal"))
  | Polling, Got (inl (KubeNotFound _)) => Some (Finish (result_of p "evicted" ""))
  | Polling, Got (inl (KubeError _)) => Some (Continue Polling)
  | Polling, Got (inr uid) =>
    Some (if bool_decide (uid = pod_UID p) then Continue Polling else Finish (result_of p "evicted" ""))
  | _, _ => None
  end.

(** ** The drain *)
Record drain := MkDrain {
  dn_opts : DrainOptions; dn_workers : list worker; dn_Pods : list DrainPodResult; dn_Skipped : list DrainPodResult;
  dn_sent : list removal }.

(** The loop over the jobs: skipped pods are recorded, the others get a
    goroutine. *)
Definition eligible (opts : DrainOptions) (p : DrainPod) : bool := bool_decide (skipReason p opts = "").
Definition start (opts : DrainOptions) (pods : list DrainPod) : drain :=
  MkDrain opts (map (fun p => MkWorker p Requesting) (List.filter (eligible opts) pods)) []
    (map (fun p => result_of p "skipped" (skipReason p opts)) (List.filter (fun p => negb (eligible opts p)) pods)) [].
(** One answer for goroutine [i]. *)
Definition step (d : drain) (i : nat) (a : answer) : option drain :=
  match dn_workers d !! i with
  | None => None
  | Some w =>
    let sent := match wk_stage w with Requesting => [removal_request (wk_pod w) (dn_opts d)] | _ => [] end in
    match evictAndWait (wk_pod w) (wk_stage w) a with
    | None => None
    | Some (Continue s) =>
      Some (MkDrain (dn_opts d) (<[i := MkWorker (wk_pod w) s]> (dn_workers d)) (dn_Pods d) (dn_Skipped d) (dn_sent d ++ sent))
    | Some (Finish r) =>
      Some (MkDrain (dn_opts d) (<[i := MkWorker (wk_pod w) Ended]> (dn_workers d)) (dn_Pods d ++ [r]) (dn_Skipped d)
              (dn_sent d ++ sent))
    end
  end.
Inductive reach (opts : DrainOptions) (pods : list DrainPod) : drain -> Prop :=
  | reach_start : reach opts pods (start opts pods)
  | reach_step d i a d' : reach opts pods d -> step d i a = Some d' -> reach opts pods d'.
(** [wg.Wait] returns. *)
Definition returned (d : drain) : bool := forallb (fun w => match wk_stage w with Ended => true | _ => false end) (dn_workers d).

Definition drain_timeout (opts : DrainOptions) : duration := if Timeout opts =? 0 then 300 * second else Timeout opts.
(** [Drain] up to the start of the goroutines: the checks, the cordon and the
    listing. *)
Definition Drain (client : bool) (nodeName : string) (opts : DrainOptions) (cordon : option string)
    (listed : string + list DrainPod) : string + drain :=
  if negb client then inl "mutate: client not configured"
  else if bool_decide (nodeName = "") then inl "mutate: node name required"
  else match cordon with
       | Some e => inl ("cordon: " +:+ e)
       | None => match listed with
                 | inl e => inl ("list pods on " +:+ nodeName +:+ ": " +:+ e)
                 | inr pods => inr (start opts pods)
                 end
       end.

(** ** Properties *)
Definition ended (w : worker) : bool := match wk_stage w with Ended => true | _ => false end.
Definition requested (w : worker) : bool := match wk_stage w with Requesting => false | _ => true end.
Definition pod_key (p : DrainPod) : string * string := (pod_Name p, pod_Namespace p).
Definition result_key (r : DrainPodResult) : string * string := (dp_Name r, dp_Namespace r).

(** The invariant: the goroutines are those of the eligible pods; one result
    per ended goroutine, one request per goroutine past its first step. *)
Record consistent (opts : DrainOptions) (pods : list DrainPod) (d : drain) : Prop := {
  cs_opts : dn_opts d = opts;
  cs_pods : map wk_pod (dn_workers d) = List.filter (eligible opts) pods;
  cs_skipped : dn_Skipped d = dn_Skipped (start opts pods);
  cs_results : map result_key (dn_Pods d) ≡ₚ map (fun w => pod_key (wk_pod w)) (List.filter ended (dn_workers d));
  cs_sent : dn_sent d ≡ₚ map (fun w => removal_request (wk_pod w) opts) (List.filter requested (dn_workers d));
  cs_status : Forall (fun r => dp_Status r = "evicted" \/ dp_Status r = "failed") (dn_Pods d) }.

Lemma filter_insert_true {A B} (f : A -> bool) (g : A -> B) l i x y : l !! i = Some x -> f x = false -> f y = true ->
  map g (List.filter f (<[i := y]> l)) ≡ₚ map g (List.filter f l) ++ [g y].
Proof.
  revert i. induction l as [|z l IH]; intros i Hi Hx Hy; [done|]. destruct i as [|i]; simpl in *.
  - injection Hi as ->. rewrite Hx, Hy. simpl. apply Permutation_cons_append.
  - specialize (IH i Hi Hx Hy). destruct (f z); simpl; [by rewrite IH|done].
Qed.
Lemma filter_insert_same {A B} (f : A -> bool) (g : A -> B) l i x y : l !! i = Some x -> f x = f y -> g x = g y ->
  map g (List.filter f (<[i := y]> l)) = map g (List.filter f l).
Proof.
  revert i. induction l as [|z l IH]; intros i Hi Hf Hg; [done|]. destruct i as [|i]; simpl in *.
  - injection Hi as ->. rewrite Hf. by destruct (f y); simpl; rewrite ?Hg.
  - specialize (IH i Hi Hf Hg). by destruct (f z); simpl; rewrite IH.
Qed.

Lemma evict_cases p s a o : evictAndWait p s a = Some o ->
  s <> Ended /\ match o with
                | Continue s' => s' = Polling
                | Finish r => result_key r = pod_key p /\ (dp_Status r = "evicted" \/ dp_Status r = "failed")
                end.
Proof.
  destruct s, a as [[[]|]|[[]|uid]|]; simpl; intros; simplify_eq; try (by auto);
    case_bool_decide; by simplify_eq; auto.
Qed.

Lemma start_consistent opts pods : consistent opts pods (start opts pods).
Proof.
  split; simpl; try done.
  - rewrite map_map. simpl. apply map_id.
  - induction (List.filter (eligible opts) pods) as [|p l IH]; [done|]. exact IH.
  - induction (List.filter (eligible opts) pods) as [|p l IH]; [done|]. exact IH.
Qed.

Lemma step_consistent opts pods d i a d' : consistent opts pods d -> step d i a = Some d' -> consistent opts pods d'.
Proof.
  intros [Ho Hp Hk Hr Hs Hst]. unfold step. destruct (dn_workers d !! i) as [w|] eqn:Ew; [|done].
  destruct (evictAndWait _ _ a) as [o|] eqn:Ea; [|done]. apply evict_cases in Ea as [Hne Hout].
  assert (ended w = false) as Hend by (unfold ended; by destruct (wk_stage w)).
  assert (forall s, s <> Requesting -> (dn_sent d ++ match wk_stage w with Requesting => [removal_request (wk_pod w) (dn_opts d)] | _ => [] end)
    ≡ₚ map (fun w => removal_request (wk_pod w) opts) (List.filter requested (<[i := MkWorker (wk_pod w) s]> (dn_workers d)))) as Hsent.
  { intros s Hns. rewrite Hs, Ho. destruct (wk_stage w) eqn:E; [|..|done].
    - rewrite (filter_insert_true requested _ _ i w (MkWorker (wk_pod w) s)); [done|done|unfold requested; by rewrite E|by destruct s].
    - rewrite app_nil_r. erewrite (filter_insert_same requested); [done|exact Ew|unfold requested; rewrite E; by destruct s|done]. }
  assert (forall s, map wk_pod (<[i := MkWorker (wk_pod w) s]> (dn_workers d)) = List.filter (eligible opts) pods) as Hpods.
  { intros s. rewrite <- Hp. change (map wk_pod) with (fmap (M := list) wk_pod). rewrite list_fmap_insert. simpl.
    apply list_insert_id. by rewrite list_lookup_fmap, Ew. }
  destruct o as [s|r]; intros [= <-].
  - subst s. split; simpl; [done|apply Hpods|done| |by apply Hsent|done].
    rewrite (filter_insert_same ended _ _ i w); [done|done|by rewrite Hend|done].
  - destruct Hout as [Hkey Hstat]. split; simpl; [done|apply Hpods|done| |by apply Hsent|].
    + rewrite map_app, Hr. simpl. rewrite Hkey.
      by rewrite (filter_insert_true ended _ _ i w (MkWorker (wk_pod w) Ended)).
    + apply Forall_app. split; [done|]. by constructor.
Qed.
Lemma reach_consistent opts pods d : reach opts pods d -> consistent opts pods d.
Proof. induction 1; [apply start_consistent|by eapply step_consistent]. Qed.


(** A drain only ever removes pods it listed and had no reason to skip,
    each at most once, in every reachable state: mirror pods, DaemonSet pods
    unless told otherwise, and without the flags unmanaged pods and pods with
    local data are never touched. *)
Theorem only_eligible_pods_removed opts pods d : reach opts pods d ->
  exists removed, dn_sent d ≡ₚ map (fun p => removal_request p opts) removed /\ removed ⊆+ pods /\
    Forall (fun p => skipReason p opts = "" /\ isMirrorPod p = false /\
      (IgnoreDaemonSets opts = true -> hasOwner p "DaemonSet" = false) /\
      (Force opts = false -> hasOwner p "DaemonSet" = false -> hasController p = true) /\
      (DeleteEmptyDirData opts = false -> hasOwner p "DaemonSet" = false -> existsb id (pod_emptyDir p) = false)) removed.
Proof.
  intros Hd. destruct (reach_consistent _ _ _ Hd) as [Ho Hp Hk Hr Hs Hst].
  exists (map wk_pod (List.filter requested (dn_workers d))). split; [by rewrite Hs, map_map|].
  assert (map wk_pod (List.filter requested (dn_workers d)) ⊆+ List.filter (eligible opts) pods) as Hsub.
  { rewrite <- Hp. clear. induction (dn_workers d) as [|w l IH]; [done|]. simpl.
    destruct (requested w); simpl; by constructor. }
  split.
  - etransitivity; [exact Hsub|]. clear. induction pods as [|p pods IH]; [done|]. simpl. destruct (eligible opts p); by constructor.
  - apply Forall_forall. intros p Hin. eapply elem_of_submseteq in Hin; [|exact Hsub].
    apply list_elem_of_In, filter_In in Hin as [_ Hel]. apply bool_decide_eq_true in Hel. split; [done|].
    unfold skipReason in Hel. destruct (isMirrorPod p); [done|]. split; [done|].
    destruct (hasOwner p "DaemonSet"); [by destruct (IgnoreDaemonSets opts)|].
    destruct (Force opts), (hasController p), (DeleteEmptyDirData opts), (existsb id (pod_emptyDir p)); simpl in *; done.
Qed.

(** A pod is reported as evicted only on an answer that shows it gone or
    replaced: its name was not found, or it now has another UID. *)
Theorem evicted_means_gone d i a d' r : step d i a = Some d' -> dn_Pods d' = dn_Pods d ++ [r] -> dp_Status r = "evicted" ->
  exists w, dn_workers d !! i = Some w /\ result_key r = pod_key (wk_pod w) /\
    ((exists msg, a = Got (inl (KubeNotFound msg))) \/ (exists uid, a = Got (inr uid) /\ uid <> pod_UID (wk_pod w))).
Proof.
  unfold step. destruct (dn_workers d !! i) as [w|]; [|done]. intros Hstep Hp Hs. exists w. split; [done|].
  destruct (evictAndWait _ _ a) as [[s|r']|] eqn:E; [..|done]; injection Hstep as <-; simpl in Hp.
  - apply (f_equal length) in Hp. rewrite length_app in Hp. simpl in Hp. lia.
  - apply app_inv_head in Hp. injection Hp as ->. revert E.
    destruct (wk_stage w), a as [[[]|]|[[]|uid]|]; simpl; intros; simplify_eq; try done; [by eauto|].
    case_bool_decide; simplify_eq. split; [done|]. right. by eexists.
Qed.

(** The steps left of a goroutine once the context has ended. *)
Definition remaining (d : drain) : Z :=
  sum_map (fun w => match wk_stage w with Requesting => 2 | Polling => 1 | Ended => 0 end) (dn_workers d).
(** A drain returns once its timeout has passed: as long as it has not,
    some goroutine can take its next step, the answer to its request or the
    end of the context, and each such step lowers a count that is at most two
    per pod. *)
Theorem drain_returns opts pods d : reach opts pods d ->
  0 <= remaining d <= 2 * Z.of_nat (length pods) /\
  (returned d = false -> exists i a d', (a = CtxDone \/ a = Removed None) /\ step d i a = Some d' /\ remaining d' < remaining d).
Proof.
  intros Hd. destruct (reach_consistent _ _ _ Hd) as [Ho Hp Hk Hr Hs Hst]. split.
  - assert (length (dn_workers d) <= length pods)%nat as Hl.
    { rewrite <- (length_map wk_pod), Hp. clear. induction pods as [|p pods IH]; [done|]. simpl.
      destruct (eligible opts p); simpl; lia. }
    assert (forall l, 0 <= sum_map (fun w => match wk_stage w with Requesting => 2 | Polling => 1 | Ended => 0 end) l
      <= 2 * Z.of_nat (length l)) as Hsum.
    { induction l as [|w l IH]; simpl; [lia|]. destruct (wk_stage w); lia. }
    specialize (Hsum (dn_workers d)). unfold remaining. lia.
  - intros Hret. assert (exists i w, dn_workers d !! i = Some w /\ wk_stage w <> Ended) as (i & w & Hi & Hw).
    { unfold returned in Hret. clear -Hret. induction (dn_workers d) as [|w l IH]; [done|]. simpl in Hret.
      destruct (wk_stage w) eqn:E; [exists 0%nat, w; by rewrite E..|]. destruct (IH Hret) as (i & w' & Hi & Hne). by exists (S i), w'. }
    assert (exists a d', (a = CtxDone \/ a = Removed None) /\ step d i a = Some d' /\
      exists w', dn_workers d' = <[i := w']> (dn_workers d) /\
        match wk_stage w, wk_stage w' with Requesting, Polling | Polling, Ended => True | _, _ => False end)
      as (a & d' & Ha & Hstep & w' & Hw' & Hm).
    { unfold step. rewrite Hi. destruct (wk_stage w); [exists (Removed None)|exists CtxDone|done];
        (eexists; split; [by auto|]; split; [reflexivity|]; eexists; split; [reflexivity|done]). }
    exists i, a, d'. split; [done|]. split; [done|]. unfold remaining. rewrite Hw', (sum_map_insert _ _ i w w') by done.
    destruct (wk_stage w), (wk_stage w'); simpl in *; done || lia.
Qed.

(** The grace period never reaches the Eviction API: with eviction enabled the
    request is the same whatever [GracePeriodSeconds] says. *)
Lemma eviction_ignores_grace_period p g g' t i e f :
  removal_request p (MkDrainOptions g t i e f false) = removal_request p (MkDrainOptions g' t i e f false).
Proof. done. Qed.

(** ** A sample drain *)
Definition web_pod : DrainPod := MkDrainPod "web" "shop" "u1" [] [MkPodOwner "ReplicaSet" (Some true)] [].
Definition log_pod : DrainPod := MkDrainPod "fluent" "logging" "u2" [] [MkPodOwner "DaemonSet" (Some true)] [true].
Definition default_options : DrainOptions := drain_options (fun _ => None) None.
Definition drained : drain :=
  default (start default_options []) (d ← step (start default_options [web_pod; log_pod]) 0 (Removed None); step d 0 (Got (inr "u9"))).
Lemma drained_reachable : reach default_options [web_pod; log_pod] drained.
Proof.
  eapply (reach_step _ _ _ 0%nat (Got (inr "u9"))); [eapply (reach_step _ _ _ 0%nat (Removed None)); [apply reach_start|]|];
    vm_compute; reflexivity.
Defined.
Lemma only_eligible_pods_removed_witness :
  exists removed, dn_sent drained ≡ₚ map (fun p => removal_request p default_options) removed /\ removed ⊆+ [web_pod; log_pod].
Proof.
  destruct (only_eligible_pods_removed default_options [web_pod; log_pod] drained drained_reachable) as (r & H1 & H2 & _).
  by exists r.
Defined.
Lemma evicted_means_gone_witness :
  exists w, [MkWorker web_pod Polling] !! 0%nat = Some w /\ ("web", "shop") = pod_key (wk_pod w).
Proof.
  destruct (evicted_means_gone (MkDrain default_options [MkWorker web_pod Polling] [] [] []) 0
    (Got (inr "u9")) (MkDrain default_options [MkWorker web_pod Ended] [result_of web_pod "evicted" ""] [] [])
    (result_of web_pod "evicted" "") eq_refl eq_refl eq_refl) as (w & Hw & Hk & _).
  by exists w.
Defined.
Lemma drain_returns_witness :
  exists i a d', step (start default_options [web_pod; log_pod]) i a = Some d' /\
    remaining d' < remaining (start default_options [web_pod; log_pod]).
Proof.
  destruct (drain_returns default_options [web_pod; log_pod] _ (reach_start _ _)) as [_ Hs].
  destruct Hs as (i & a & d' & _ & Hstep & Hlt); [vm_compute; reflexivity|]. by exists i, a, d'.
Defined.
