(* ===== verification/PromQL.v ===== *)
(** * PromQL text shared by the components that query Prometheus *)

From S2P Require Import Prelude CanonJson.

(** A label matcher; the value is not escaped. *)
Definition matcher (label op value : string) : string := label +:+ op +:+ dquote +:+ value +:+ dquote.
