(* ===== verification/RightsizeApply.v ===== *)
(** * Applying a recommendation (pkg/rightsize/apply.go and the workload
    helpers of rightsize.go)

    Workloads are seen through the accessors of the unstructured object, the
    class [Unstructured]; their containers are the JSON values the accessors
    return.  Quantity parsing is a parameter, the Kubernetes API is given by
    the answers to the calls, which are logged. *)

From stdpp Require Import strings.
From S2P Require Import Prelude GoText GoJson GoFmt.

#[local] Set Default Proof Using "Type".

(** ** Unstructured objects *)

(** [walk path v] is the value found by following the keys of [path]. *)
Fixpoint walk (path : list string) (v : json) : option json :=
  match path with
  | [] => Some v
  | k :: path => match v with JObj m => v' ← assoc k m; walk path v' | _ => None end
  end.

(** What apply.go uses of [unstructured]: [NestedSlice] and [SetNestedSlice]
    at a path, the annotations, and [NestedFieldNoCopy] inside a container.
    The laws are the documented behaviour: a slice that was set is read back,
    a slice that is there can be replaced, annotations and spec do not
    interfere. *)
Class Unstructured (O : Type) := {
  nested_slice : list string -> O -> result (option (list json));
  set_nested_slice : list string -> list json -> O -> result O;
  annotations_of : O -> option (list (string * string));
  set_annotations : list (string * string) -> O -> O;
  nested_field : list string -> json -> option json;
  slice_set p l o o' : set_nested_slice p l o = Ok o' -> nested_slice p o' = Ok (Some l);
  slice_settable p l l' o : nested_slice p o = Ok (Some l') -> exists o', set_nested_slice p l o = Ok o';
  slice_annotations p a o : head p = Some "spec" -> nested_slice p (set_annotations a o) = nested_slice p o;
  annotations_slice p l o o' : head p = Some "spec" -> set_nested_slice p l o = Ok o' -> annotations_of o' = annotations_of o;
  annotations_set a o : a <> [] -> annotations_of (set_annotations a o) = Some a;
  nested_field_spec p v : nested_field p v = walk p v }.

(** ** Value helpers *)
Definition asString (v : json) : string :=
  match v with JNull => "" | JStr s => s | _ => sprint_v v end.
Definition strField (m : gomap) (key : string) : string := get_str m key.
Definition map_of (m : list (string * json)) (key : string) : list (string * json) := default [] (get_obj (Some m) key).

(** ** Containers *)
Definition containerResourceStrings (c : list (string * json)) : string * string * string * string :=
  match get_obj (Some c) "resources" with
  | None => ("", "", "", "")
  | Some res =>
    let text section key := match get_obj (Some res) section with Some m => asString (mget (Some m) key) | None => "" end in
    (text "requests" "cpu", text "requests" "memory", text "limits" "cpu", text "limits" "memory")
  end.
Definition setOrDelete (m : list (string * json)) (key val : string) : list (string * json) :=
  if bool_decide (val = "") then mdel key m else mset key (JStr val) m.
Definition setContainerResources (c : list (string * json)) (reqCPU reqMem limCPU limMem : string) : list (string * json) :=
  let res := map_of c "resources" in
  let req := map_of res "requests" in
  let lim := map_of res "limits" in
  let req := setOrDelete (setOrDelete req "cpu" reqCPU) "memory" reqMem in
  let lim := setOrDelete (setOrDelete lim "cpu" limCPU) "memory" limMem in
  let res := mset "requests" (JObj req) res in
  let res := match lim with [] => mdel "limits" res | _ => mset "limits" (JObj lim) res end in
  mset "resources" (JObj res) c.

(** ** Changes *)
Record containerChange := MkChange { cc_name : string; cc_reqCPU : string; cc_limCPU : string; cc_reqMem : string; cc_limMem : string }.

Record applyKind := MkApplyKind { ak_gvr : string * string * string; ak_path : list string; ak_noop : bool }.
Definition workloadContainerPath : list string := ["spec"; "template"; "spec"; "containers"].
Definition applyKinds : list (string * applyKind) :=
  [("Deployment", MkApplyKind ("apps", "v1", "deployments") workloadContainerPath false);
   ("StatefulSet", MkApplyKind ("apps", "v1", "statefulsets") workloadContainerPath false);
   ("DaemonSet", MkApplyKind ("apps", "v1", "daemonsets") workloadContainerPath false);
   ("Rollout", MkApplyKind ("argoproj.io", "v1alpha1", "rollouts") workloadContainerPath false);
   ("Pod", MkApplyKind ("", "v1", "pods") ["spec"; "containers"] false);
   ("Job", MkApplyKind ("", "", "") [] true)].

Section parse.
(** [strconv.Quote], [resource.ParseQuantity] and [Quantity.Cmp]. *)
Context {Q : Type} (quote : string -> string) (parse_quantity : string -> result Q) (cmp : Q -> Q -> comparison).

Definition requestNotAboveLimit (req lim : string) : result unit :=
  if bool_decide (req = "") || bool_decide (lim = "") then Ok tt
  else let? rq := rwrap ("invalid request quantity " +:+ quote req +:+ ": ") (parse_quantity req) in
       let? lq := rwrap ("invalid limit quantity " +:+ quote lim +:+ ": ") (parse_quantity lim) in
       match cmp rq lq with
       | Gt => Err ("request " +:+ req +:+ " must be <= limit " +:+ lim)
       | _ => Ok tt
       end.
Definition validateChange (c : containerChange) : result unit :=
  let? _ := rwrap ("container " +:+ quote (cc_name c) +:+ " cpu: ") (requestNotAboveLimit (cc_reqCPU c) (cc_limCPU c)) in
  rwrap ("container " +:+ quote (cc_name c) +:+ " memory: ") (requestNotAboveLimit (cc_reqMem c) (cc_limMem c)).

Definition change_of (m : list (string * json)) : containerChange :=
  MkChange (strField (Some m) "container_name") (asString (mget (Some m) "cpu_request")) (asString (mget (Some m) "cpu_limit"))
    (asString (mget (Some m) "memory_request")) (asString (mget (Some m) "memory_limit")).
Definition no_values (c : containerChange) : bool :=
  bool_decide (cc_reqCPU c = "") && bool_decide (cc_limCPU c = "") && bool_decide (cc_reqMem c = "") && bool_decide (cc_limMem c = "").
(** One entry of the list; entries that are no objects are passed over. *)
Definition parse_change (c : containerChange) : result containerChange :=
  if bool_decide (cc_name c = "") then Err "container entry missing container_name"
  else if no_values c then Err ("container " +:+ quote (cc_name c) +:+ ": all resource values can not be empty")
  else let? _ := validateChange c in Ok c.
Fixpoint parse_changes (l : list json) : result (list containerChange) :=
  match l with
  | [] => Ok []
  | JObj m :: l => let? c := parse_change (change_of m) in let? cs := parse_changes l in Ok (c :: cs)
  | _ :: l => parse_changes l
  end.
Definition parseContainerChanges (raw : json) : result (list containerChange) :=
  match as_arr raw with
  | [] => Err "containers can not be empty"
  | l => let? cs := parse_changes l in
         match cs with [] => Err "containers can not be empty" | _ => Ok cs end
  end.

Definition parseAnnotations (raw : json) : list (string * string) :=
  omap (fun kv => match kv.2 with
                  | JNull => None
                  | v => let s := asString v in
                         if bool_decide (s = "") || bool_decide (s = "None") then None else Some (kv.1, s)
                  end) (default [] (as_obj raw)).

(** ** Reading and writing the workload *)
Section apply.
Context {O : Type} `{Unstructured O}.

(** The keys of a captured entry and where their values are. *)
Definition captured_keys : list (string * list string) :=
  [("cpu_request", ["resources"; "requests"; "cpu"]); ("cpu_limit", ["resources"; "limits"; "cpu"]);
   ("memory_request", ["resources"; "requests"; "memory"]); ("memory_limit", ["resources"; "limits"; "memory"])].
Definition present (v : option json) : option string :=
  match v with Some JNull | None => None | Some v => Some (asString v) end.
Definition captured_value (c : json) (kp : string * list string) : option (string * json) :=
  t ← present (nested_field kp.2 c); Some (kp.1, JStr t).
Definition captured_entry (name : string) (c : json) : json :=
  JObj (("container_name", JStr name) :: omap (captured_value c) captured_keys).
Definition name_of (c : json) : option string := match c with JObj m => Some (strField (Some m) "name") | _ => None end.
Definition capture_one (wanted : list string) (raw : json) : option json :=
  name ← name_of raw; if bool_decide (name ∈ wanted) then Some (captured_entry name raw) else None.
Definition capture (containers : list json) (changes : list containerChange) : list json :=
  omap (capture_one (map cc_name changes)) containers.
Definition captureContainerResources (o : O) (path : list string) (changes : list containerChange) : list json :=
  match nested_slice path o with
  | Ok (Some containers) => capture containers changes
  | _ => []
  end.

Definition by_name (changes : list containerChange) : list (string * containerChange) :=
  foldl (fun m c => mset (cc_name c) c m) [] changes.
Definition target_of (changes : list containerChange) (raw : json) : option containerChange :=
  name ← name_of raw; assoc name (by_name changes).
Definition apply_one (changes : list containerChange) (raw : json) : json :=
  match raw, target_of changes raw with
  | JObj c, Some ch => JObj (setContainerResources c (cc_reqCPU ch) (cc_reqMem ch) (cc_limCPU ch) (cc_limMem ch))
  | _, _ => raw
  end.
Definition matched (containers : list json) (changes : list containerChange) : bool :=
  existsb (fun raw => bool_decide (is_Some (target_of changes raw))) containers.
Definition applyContainerChanges (o : O) (path : list string) (changes : list containerChange) : result O :=
  match nested_slice path o with
  | Err e => Err ("read containers: " +:+ e)
  | Ok None | Ok (Some []) => Err ("no containers at " +:+ join "." path)
  | Ok (Some containers) =>
    if matched containers changes
    then rwrap "rebuild containers: " (set_nested_slice path (map (apply_one changes) containers) o)
    else Err "none of the requested containers were found in the workload"
  end.
Definition mergeAnnotations (o : O) (annotations : list (string * string)) : O :=
  match annotations with
  | [] => o
  | _ => set_annotations (foldl (fun a kv => mset kv.1 kv.2 a) (default [] (annotations_of o)) annotations) o
  end.

(** ** The action *)
Inductive call := Get (gvr : string * string * string) (namespace name : string) | DryRun (o : O) | Update (o : O).
Definition succeeded (extra : list (string * json)) : json :=
  JObj ([("success", JBool true); ("response", JStr "Succeeded")] ++ extra).
(** [get], [dry] and [update] are the API server's answers. *)
Definition Handle (get : result O) (dry update : O -> option string) (params : gomap) : result json * list call :=
  let kind := strField params "kind" in
  let name := strField params "name" in
  let namespace := strField params "namespace" in
  let fail e := Err ("rightsizing_resource: " +:+ e) in
  if bool_decide (kind = "") || bool_decide (name = "") || bool_decide (namespace = "") then
    (fail ("kind, name and namespace are required (got kind=" +:+ quote kind +:+ " name=" +:+ quote name +:+ " namespace="
           +:+ quote namespace +:+ ")"), [])
  else match assoc kind applyKinds with
  | None => (fail (kind +:+ " rightsizing is not supported"), [])
  | Some spec =>
    if ak_noop spec then (Ok (succeeded [("msg", JStr (kind +:+ " rightsizing not supported yet"))]), [])
    else match parseContainerChanges (mget params "containers") with
    | Err e => (fail e, [])
    | Ok changes =>
      let annotations := parseAnnotations (mget params "annotations") in
      let calls := [Get (ak_gvr spec) namespace name] in
      match get with
      | Err e => (fail ("get " +:+ kind +:+ " " +:+ namespace +:+ "/" +:+ name +:+ ": " +:+ e), calls)
      | Ok obj =>
        let previous := captureContainerResources obj (ak_path spec) changes in
        match applyContainerChanges obj (ak_path spec) changes with
        | Err e => (fail (kind +:+ " " +:+ namespace +:+ "/" +:+ name +:+ ": " +:+ e), calls)
        | Ok obj =>
          let obj := mergeAnnotations obj annotations in
          match dry obj with
          | Some e => (fail ("dry-run apply " +:+ kind +:+ " " +:+ namespace +:+ "/" +:+ name +:+ ": " +:+ e), calls ++ [DryRun obj])
          | None =>
            match update obj with
            | Some e => (fail ("apply " +:+ kind +:+ " " +:+ namespace +:+ "/" +:+ name +:+ ": " +:+ e),
                         calls ++ [DryRun obj; Update obj])
            | None => (Ok (succeeded [("previous_containers", JArr previous)]), calls ++ [DryRun obj; Update obj])
            end
          end
        end
      end
    end
  end.
End apply.
End parse.

(** ** Containers up to the four quantities *)
Definition resource_text (section key : string) (c : list (string * json)) : string :=
  match walk ["resources"; section; key] (JObj c) with Some v => asString v | None => "" end.
Definition quantity_keys : list string := ["cpu"; "memory"].
Definition resource_sections : list string := ["requests"; "limits"].

(** Equal but for cpu and memory in requests and limits. *)
Definition same_frame (c c' : list (string * json)) : Prop :=
  (forall k, k <> "resources" -> assoc k c' = assoc k c) /\
  (forall k, k ∉ resource_sections -> walk ["resources"; k] (JObj c') = walk ["resources"; k] (JObj c)) /\
  (forall s k, s ∈ resource_sections -> k ∉ quantity_keys ->
     walk ["resources"; s; k] (JObj c') = walk ["resources"; s; k] (JObj c)).
#[export] Instance same_frame_equivalence : Equivalence same_frame.
Proof.
  split; unfold same_frame; [done| |].
  - intros c c' (H1 & H2 & H3). split_and!; intros; symmetry; auto.
  - intros c1 c2 c3 (H1 & H2 & H3) (G1 & G2 & G3). split_and!; intros; [rewrite G1|rewrite G2|rewrite G3]; auto.
Qed.
(** The frame and the texts of the four quantities. *)
Definition restored (c c' : list (string * json)) : Prop :=
  same_frame c c' /\ containerResourceStrings c' = containerResourceStrings c.

Lemma assoc_map_of c k v : assoc k (map_of c v) = walk [v; k] (JObj c).
Proof.
  unfold map_of, get_obj. simpl. destruct (assoc v c) as [[]|]; simpl; try done.
  by destruct (assoc k m).
Qed.
Lemma walk_three c s k : walk ["resources"; s; k] (JObj c) = assoc k (map_of (map_of c "resources") s).
Proof.
  rewrite assoc_map_of. simpl. unfold map_of, get_obj. simpl. destruct (assoc "resources" c) as [[]|]; simpl; try done.
Qed.
Lemma containerResourceStrings_texts c :
  containerResourceStrings c
  = (resource_text "requests" "cpu" c, resource_text "requests" "memory" c, resource_text "limits" "cpu" c,
     resource_text "limits" "memory" c).
Proof.
  unfold containerResourceStrings, resource_text, get_obj. simpl.
  destruct (assoc "resources" c) as [[]|]; simpl; try done.
  destruct (assoc "requests" m) as [[]|], (assoc "limits" m) as [[]|]; simpl; unfold mget;
    repeat match goal with |- context [assoc ?k ?l] => destruct (assoc k l); simpl end; done.
Qed.

Lemma assoc_setOrDelete m key val k :
  assoc k (setOrDelete m key val) = if decide (k = key) then (if bool_decide (val = "") then None else Some (JStr val)) else assoc k m.
Proof.
  unfold setOrDelete. case_bool_decide; [rewrite assoc_mdel|rewrite assoc_mset]; by case_decide.
Qed.

(** The sections of a container after [setContainerResources]. *)
Section set.
Context (c : list (string * json)) (rc rm lc lm : string).
Notation c' := (setContainerResources c rc rm lc lm).
Notation res := (map_of c "resources").
Definition set_section (m : list (string * json)) (cpu mem : string) := setOrDelete (setOrDelete m "cpu" cpu) "memory" mem.
Lemma assoc_set_section m cpu mem k : assoc k (set_section m cpu mem)
  = if decide (k = "memory") then (if bool_decide (mem = "") then None else Some (JStr mem))
    else if decide (k = "cpu") then (if bool_decide (cpu = "") then None else Some (JStr cpu)) else assoc k m.
Proof. unfold set_section. rewrite !assoc_setOrDelete. done. Qed.
Lemma set_other k : k <> "resources" -> assoc k c' = assoc k c.
Proof. intros Hk. unfold setContainerResources. rewrite assoc_mset. by rewrite decide_False. Qed.
Lemma set_resources k : walk ["resources"; k] (JObj c')
  = if decide (k = "requests") then Some (JObj (set_section (map_of res "requests") rc rm))
    else if decide (k = "limits")
         then match set_section (map_of res "limits") lc lm with [] => None | l => Some (JObj l) end
    else assoc k res.
Proof.
  unfold setContainerResources. simpl. rewrite assoc_mset, decide_True by done. simpl.
  fold (set_section (map_of res "requests") rc rm). fold (set_section (map_of res "limits") lc lm).
  set (lim := set_section _ lc lm). destruct lim as [|l lim]; simpl; rewrite ?assoc_mdel, ?assoc_mset;
    repeat case_decide; simplify_eq/=; try done; by destruct (assoc k _).
Qed.
Lemma set_requests k : walk ["resources"; "requests"; k] (JObj c') = assoc k (set_section (map_of res "requests") rc rm).
Proof.
  pose proof (set_resources "requests") as E. simpl in E. simpl.
  destruct (assoc "resources" c') as [v|]; simpl in *; [|done].
  destruct v; try done. destruct (assoc "requests" m) as [v|]; simpl in *; [|done]. injection E as ->.
  by destruct (assoc k _).
Qed.
Lemma set_limits k : walk ["resources"; "limits"; k] (JObj c') = assoc k (set_section (map_of res "limits") lc lm).
Proof.
  pose proof (set_resources "limits") as E. simpl in E. simpl.
  destruct (set_section (map_of res "limits") lc lm) as [|x l] eqn:El; simpl in E;
  destruct (assoc "resources" c') as [[]|]; simpl in *; try done; destruct (assoc "limits" m) as [v|]; simpl in *; try done.
  injection E as ->. simpl. destruct x as [k' v]. case_decide; [done|]. by destruct (assoc k l).
Qed.
Lemma set_frame : same_frame c c'.
Proof.
  split_and!.
  - apply set_other.
  - intros k Hk. rewrite set_resources. apply not_elem_of_cons in Hk as [H1 H2%not_elem_of_cons]. destruct H2 as [H2 _].
    rewrite !decide_False by done. rewrite assoc_map_of. done.
  - intros s k Hs Hk. rewrite (walk_three c).
    apply not_elem_of_cons in Hk as [H1 H2%not_elem_of_cons]. destruct H2 as [H2 _].
    unfold resource_sections in Hs. rewrite elem_of_cons, list_elem_of_singleton in Hs.
    destruct Hs as [->| ->]; [rewrite set_requests|rewrite set_limits]; rewrite assoc_set_section, !decide_False by done; done.
Qed.
Lemma set_texts : containerResourceStrings c' = (rc, rm, lc, lm).
Proof.
  rewrite containerResourceStrings_texts. unfold resource_text. rewrite !set_requests, !set_limits, !assoc_set_section.
  simpl. repeat case_bool_decide; simplify_eq; done.
Qed.
End set.

(** Setting what was there before, after any change, restores a container. *)
Lemma set_back c rc rm lc lm : forall a b d e, containerResourceStrings c = (a, b, d, e) ->
  restored c (setContainerResources (setContainerResources c rc rm lc lm) a b d e).
Proof.
  intros a b d e E. split; [etransitivity; apply set_frame|]. by rewrite set_texts.
Qed.

(** ** Changes by name *)
Lemma assoc_by_name n changes :
  assoc n (by_name changes) = last (List.filter (fun c => bool_decide (cc_name c = n)) changes).
Proof.
  unfold by_name. induction changes as [|c changes IH] using rev_ind; [done|].
  rewrite foldl_app, List.filter_app. simpl. rewrite assoc_mset, IH.
  case_decide as E; [rewrite bool_decide_true by done|rewrite bool_decide_false by congruence].
  - by rewrite last_snoc.
  - by rewrite app_nil_r.
Qed.
Lemma by_name_some n changes : is_Some (assoc n (by_name changes)) <-> n ∈ map cc_name changes.
Proof.
  rewrite assoc_by_name, last_is_Some, list_elem_of_fmap. split.
  - intros Hne. destruct (List.filter _ _) as [|c l] eqn:E; [done|].
    assert (In c (List.filter (fun c => bool_decide (cc_name c = n)) changes)) as Hc by (rewrite E; by left).
    apply filter_In in Hc as [Hc Hn%bool_decide_eq_true]. exists c. by rewrite list_elem_of_In.
  - intros (c & -> & Hc) E. apply list_elem_of_In in Hc.
    assert (In c (List.filter (fun c' => bool_decide (cc_name c' = cc_name c)) changes)) as Hin.
    { apply filter_In. by rewrite bool_decide_true. }
    by rewrite E in Hin.
Qed.
Lemma by_name_unique c changes : NoDup (map cc_name changes) -> c ∈ changes -> assoc (cc_name c) (by_name changes) = Some c.
Proof.
  intros Hnd Hc. destruct (proj2 (by_name_some (cc_name c) changes)) as [d Hd]; [by apply list_elem_of_fmap; exists c|].
  rewrite Hd. f_equal. rewrite assoc_by_name in Hd. apply last_Some_elem_of, list_elem_of_In, filter_In in Hd as [Hd Hn%bool_decide_eq_true].
  apply list_elem_of_In in Hd. apply list_elem_of_lookup in Hc as [i Hi]. apply list_elem_of_lookup in Hd as [j Hj].
  assert (i = j) as ->; [|congruence].
  eapply (NoDup_lookup (map cc_name changes)); [done|..]; change (map cc_name changes) with (cc_name <$> changes);
    rewrite list_lookup_fmap; [by rewrite Hi|by rewrite Hj, <- Hn].
Qed.

Section undo.
Context {Q : Type} (quote : string -> string) (parse_quantity : string -> result Q) (cmp : Q -> Q -> comparison).
Context {O : Type} `{Unstructured O}.
Notation validateChange := (validateChange quote parse_quantity cmp).
Notation parse_change := (parse_change quote parse_quantity cmp).
Notation parse_changes := (parse_changes quote parse_quantity cmp).
Notation parseContainerChanges := (parseContainerChanges quote parse_quantity cmp).

(** What a container holds, as a change that asks for it. *)
Definition held (name : string) (c : list (string * json)) : containerChange :=
  MkChange name (resource_text "requests" "cpu" c) (resource_text "limits" "cpu" c) (resource_text "requests" "memory" c)
    (resource_text "limits" "memory" c).
Definition held_if (wanted : list string) (raw : json) : option containerChange :=
  match raw with
  | JObj c => let name := strField (Some c) "name" in if bool_decide (name ∈ wanted) then Some (held name c) else None
  | _ => None
  end.

Lemma present_text v : default "" (present v) = match v with Some v => asString v | None => "" end.
Proof. by destruct v as [[]|]. Qed.
(** A captured entry is read as a change that asks for what is there. *)
Lemma captured_entry_read name c m : captured_entry name (JObj c) = JObj m -> change_of m = held name c.
Proof.
  unfold captured_entry, captured_keys, captured_value. cbn [omap list_omap fst snd]. rewrite !nested_field_spec.
  unfold held, resource_text. rewrite <- !present_text.
  generalize (present (walk ["resources"; "requests"; "cpu"] (JObj c))), (present (walk ["resources"; "limits"; "cpu"] (JObj c))),
    (present (walk ["resources"; "requests"; "memory"] (JObj c))), (present (walk ["resources"; "limits"; "memory"] (JObj c))).
  intros a b d e [= <-]. destruct a, b, d, e; reflexivity.
Qed.
Lemma parse_change_Ok c c' : parse_change c = Ok c' <->
  c' = c /\ cc_name c <> "" /\ no_values c = false /\ validateChange c = Ok tt.
Proof.
  unfold RightsizeApply.parse_change. case_bool_decide; [naive_solver|]. destruct (no_values c); [naive_solver|].
  destruct (validateChange c) as [[]|]; naive_solver.
Qed.
Lemma parse_changes_names l cs : parse_changes l = Ok cs -> Forall (fun c => cc_name c <> "") cs.
Proof.
  revert cs. induction l as [|v l IH]; intros cs; simpl; [by intros [= <-]|].
  destruct v; try apply IH.
  destruct (parse_change (change_of m)) as [c|] eqn:Ec; [simpl|done]. destruct (parse_changes l) as [cs'|]; [simpl|done].
  intros [= <-]. apply parse_change_Ok in Ec as (-> & Hn & _). constructor; [done|]. by apply IH.
Qed.
Lemma parse_names raw cs : parseContainerChanges raw = Ok cs -> Forall (fun c => cc_name c <> "") cs.
Proof.
  unfold RightsizeApply.parseContainerChanges. destruct (as_arr raw) as [|v l]; [done|].
  destruct (parse_changes (v :: l)) as [cs'|] eqn:E; [simpl|done]. apply parse_changes_names in E.
  destruct cs'; [done|]. by intros [= <-].
Qed.

(** The undo of a container can be asked for: it held something, within its
    limits. *)
Definition undoable (name : string) (c : list (string * json)) : Prop :=
  no_values (held name c) = false /\ validateChange (held name c) = Ok tt.
Definition undoable_json (wanted : list string) (raw : json) : Prop :=
  match raw with
  | JObj c => strField (Some c) "name" ∈ wanted -> undoable (strField (Some c) "name") c
  | _ => True
  end.

Lemma capture_read wanted cs : (forall n, n ∈ wanted -> n <> "") -> Forall (undoable_json wanted) cs ->
  parse_changes (omap (capture_one wanted) cs) = Ok (omap (held_if wanted) cs).
Proof.
  intros Hne. induction 1 as [|raw cs Hu _ IH]; [done|]. cbn [omap list_omap].
  destruct raw as [| | | | | |m|]; try apply IH. unfold capture_one at 1, held_if at 1. cbn [name_of mbind option_bind].
  case_bool_decide as Hw; [|apply IH]. destruct (Hu Hw) as [Hnv Hv].
  destruct (captured_entry (strField (Some m) "name") (JObj m)) eqn:E; try done. cbn [RightsizeApply.parse_changes].
  rewrite (captured_entry_read _ _ _ E). replace (parse_change (held _ m)) with (Ok (held (strField (Some m) "name") m)).
  2:{ symmetry. apply parse_change_Ok. auto. }
  cbn [rbind]. rewrite IH. done.
Qed.

(** *** One container *)
Definition changed_as (changes : list containerChange) (raw raw' : json) : Prop :=
  match raw, target_of changes raw with
  | JObj c, Some ch =>
    exists c', raw' = JObj c' /\ same_frame c c' /\
      containerResourceStrings c' = (cc_reqCPU ch, cc_reqMem ch, cc_limCPU ch, cc_limMem ch)
  | _, _ => raw' = raw
  end.
Definition restored_json (raw raw' : json) : Prop :=
  match raw, raw' with JObj c, JObj c' => restored c c' | _, _ => raw' = raw end.
Lemma apply_one_changed changes raw : changed_as changes raw (apply_one changes raw).
Proof.
  unfold changed_as, apply_one. destruct raw as [| | | | | |c|]; try done. destruct (target_of changes (JObj c)) as [ch|]; [|done].
  eexists. split_and!; [done|apply set_frame|apply set_texts].
Qed.
Lemma name_of_apply changes raw : name_of (apply_one changes raw) = name_of raw.
Proof.
  unfold apply_one. destruct raw as [| | | | | |c|]; try done. destruct (target_of changes (JObj c)); [|done].
  simpl. unfold strField, get_str, mget. by rewrite set_other.
Qed.
Lemma target_of_name changes raw raw' : name_of raw' = name_of raw -> target_of changes raw' = target_of changes raw.
Proof. unfold target_of. by intros ->. Qed.
Lemma apply_one_object changes c : apply_one changes (JObj c)
  = JObj (match target_of changes (JObj c) with
          | Some ch => setContainerResources c (cc_reqCPU ch) (cc_reqMem ch) (cc_limCPU ch) (cc_limMem ch)
          | None => c
          end).
Proof. unfold apply_one. by destruct (target_of changes (JObj c)). Qed.
Lemma restored_refl raw : restored_json raw raw.
Proof. by destruct raw. Qed.

(** *** The list of containers *)
Section containers.
Context (changes : list containerChange) (cs : list json).
Notation wanted := (map cc_name changes).
Notation undo := (omap (held_if wanted) cs).
Hypothesis names : NoDup (omap name_of cs).
Lemma held_if_name raw ch : held_if wanted raw = Some ch -> name_of raw = Some (cc_name ch) /\ cc_name ch ∈ wanted.
Proof using. unfold held_if. destruct raw; try done. case_bool_decide; [|done]. by intros [= <-]. Qed.
Lemma undo_names : NoDup (map cc_name undo).
Proof using names.
  revert names. induction cs as [|raw l IH]; [constructor|]. cbn [omap list_omap].
  destruct (held_if wanted raw) as [ch|] eqn:E.
  - apply held_if_name in E as [En _]. rewrite En. intros [Hn Hl]%NoDup_cons. cbn [map]. constructor; [|by apply IH].
    intros (d & Ed & (raw' & Hr & Hd)%list_elem_of_omap)%list_elem_of_fmap. apply Hn.
    apply held_if_name in Hd as [Hd _]. apply list_elem_of_omap. exists raw'. by rewrite Hd, Ed.
  - intros Hnd. apply IH. destruct (name_of raw); [by apply NoDup_cons in Hnd as [_ ?]|done].
Qed.
Lemma undo_target raw : raw ∈ cs -> target_of undo raw = held_if wanted raw.
Proof using names.
  intros Hr. destruct (held_if wanted raw) as [ch|] eqn:E.
  - pose proof (held_if_name _ _ E) as [En _]. unfold target_of. rewrite En. simpl. apply by_name_unique; [apply undo_names|].
    apply list_elem_of_omap. by exists raw.
  - destruct (target_of undo raw) as [d|] eqn:Et; [|done]. unfold target_of in Et.
    destruct (name_of raw) as [n|] eqn:En; [simpl in Et|done].
    assert (n ∈ map cc_name undo) as Hn by (apply by_name_some; by exists d).
    apply list_elem_of_fmap in Hn as (e & -> & (raw' & Hr' & He)%list_elem_of_omap).
    apply held_if_name in He as [_ Hw]. unfold held_if in E. destruct raw as [| | | | | |m|]; try done.
    injection En as En. simpl in En. rewrite En in E. by rewrite bool_decide_true in E.
Qed.
Lemma undo_one raw : raw ∈ cs -> restored_json raw (apply_one undo (apply_one changes raw)).
Proof using names.
  intros Hr. pose proof (undo_target raw Hr) as Ht. rewrite <- (target_of_name undo _ _ (name_of_apply changes raw)) in Ht.
  destruct raw as [| | | | | |m|]; try done. rewrite apply_one_object in Ht |- *. rewrite apply_one_object, Ht.
  unfold held_if, target_of, name_of. cbn [mbind option_bind]. case_bool_decide as Hw.
  - apply by_name_some in Hw as [ch ->]. apply set_back. by rewrite containerResourceStrings_texts.
  - destruct (assoc _ (by_name changes)) eqn:E; [|by apply restored_refl].
    destruct Hw. apply by_name_some. by eexists.
Qed.
Lemma undo_matched : matched cs changes = true -> matched (map (apply_one changes) cs) undo = true.
Proof using names.
  unfold matched. rewrite !existsb_exists. intros (raw & Hr & [ch Hch]%bool_decide_eq_true).
  exists (apply_one changes raw). split; [by apply in_map|]. apply bool_decide_eq_true.
  rewrite (target_of_name _ raw) by apply name_of_apply. rewrite undo_target by by apply list_elem_of_In.
  unfold target_of in Hch. destruct raw as [| | | | | |m|]; try done. simpl in Hch. unfold held_if.
  rewrite bool_decide_true; [done|]. apply by_name_some. by eexists.
Qed.
End containers.

Lemma matched_wanted changes cs : matched cs changes = true -> omap (held_if (map cc_name changes)) cs <> [].
Proof.
  unfold matched. rewrite existsb_exists. intros (raw & Hr%list_elem_of_In & [ch Hch]%bool_decide_eq_true) E.
  unfold target_of in Hch. destruct raw as [| | | | | |m|]; try done. simpl in Hch.
  assert (held (strField (Some m) "name") m ∈ omap (held_if (map cc_name changes)) cs) as Hin; [|by rewrite E in Hin; apply elem_of_nil in Hin].
  apply list_elem_of_omap. exists (JObj m). split; [done|]. unfold held_if. rewrite bool_decide_true; [done|].
  apply by_name_some. by eexists.
Qed.
Lemma capture_nonempty changes cs : matched cs changes = true -> capture cs changes <> [].
Proof.
  unfold matched. rewrite existsb_exists. intros (raw & Hr%list_elem_of_In & [ch Hch]%bool_decide_eq_true) E.
  unfold target_of in Hch. destruct (name_of raw) as [n|] eqn:En; [simpl in Hch|done].
  assert (captured_entry n raw ∈ capture cs changes) as Hin; [|by rewrite E in Hin; apply elem_of_nil in Hin].
  apply list_elem_of_omap. exists raw. split; [done|]. unfold capture_one. rewrite En. simpl. rewrite bool_decide_true; [done|].
  apply by_name_some. by eexists.
Qed.
(** The captured list parses to the changes that ask for what was there. *)
Lemma capture_parses raw changes cs : parseContainerChanges raw = Ok changes -> matched cs changes = true ->
  Forall (undoable_json (map cc_name changes)) cs ->
  parseContainerChanges (JArr (capture cs changes)) = Ok (omap (held_if (map cc_name changes)) cs).
Proof.
  intros Hp Hm Hu. apply parse_names in Hp. unfold RightsizeApply.parseContainerChanges. simpl as_arr.
  pose proof (capture_nonempty _ _ Hm). pose proof (matched_wanted _ _ Hm).
  destruct (capture cs changes) as [|v l] eqn:E; [done|]. rewrite <- E. unfold capture. rewrite capture_read; [|intros n|done].
  - simpl. by destruct (omap _ cs).
  - intros (ch & -> & Hch)%list_elem_of_fmap. rewrite Forall_forall in Hp. auto.
Qed.
End undo.

(** ** The action *)
Lemma applyKinds_path k spec : assoc k applyKinds = Some spec -> ak_noop spec = false -> head (ak_path spec) = Some "spec".
Proof. unfold applyKinds. simpl. repeat case_decide; by intros [= <-]. Qed.

Lemma mget_mset p k v k' : mget (Some (mset k v p)) k' = if decide (k' = k) then v else mget (Some p) k'.
Proof. unfold mget. rewrite assoc_mset. by case_decide. Qed.
Lemma strField_mset p v k : k <> "containers" -> strField (Some (mset "containers" v p)) k = strField (Some p) k.
Proof. intros Hk. unfold strField, get_str. rewrite mget_mset. by rewrite decide_False. Qed.

Section action.
Context {Q : Type} (quote : string -> string) (parse_quantity : string -> result Q) (cmp : Q -> Q -> comparison).
Context {O : Type} `{Unstructured O}.
Notation parseContainerChanges := (parseContainerChanges quote parse_quantity cmp).
Notation Handle := (Handle quote parse_quantity cmp).

Lemma applyContainerChanges_Ok (o o' : O) path changes : applyContainerChanges o path changes = Ok o' <->
  exists cs, nested_slice path o = Ok (Some cs) /\ matched cs changes = true /\
    set_nested_slice path (map (apply_one changes) cs) o = Ok o'.
Proof.
  unfold applyContainerChanges. split.
  - destruct (nested_slice path o) as [[[|c cs]|]|]; try done.
    destruct (matched (c :: cs) changes) eqn:E; [|done]. rewrite rwrap_Ok. eauto.
  - intros (cs & -> & Hm & Hs). destruct cs as [|c cs]; [done|]. by rewrite Hm, Hs.
Qed.
Lemma merge_slice path (o : O) ann : head path = Some "spec" -> nested_slice path (mergeAnnotations o ann) = nested_slice path o.
Proof. intros Hp. destruct ann; [done|]. by apply slice_annotations. Qed.
Lemma merge_annotations (o : O) ann k : k ∉ ann.*1 ->
  assoc k (default [] (annotations_of (mergeAnnotations o ann))) = assoc k (default [] (annotations_of o)).
Proof.
  intros Hk. assert (forall l, assoc k (foldl (fun a kv => mset kv.1 kv.2 a) l ann) = assoc k l) as Hf.
  { revert Hk. induction ann as [|[k' v] ann IH]; intros Hk l; [done|]. csimpl in Hk. apply not_elem_of_cons in Hk as [Hn Hk].
    simpl. rewrite IH by done. rewrite assoc_mset. by rewrite decide_False. }
  destruct ann as [|kv ann]; [done|]. unfold mergeAnnotations. rewrite annotations_set; [apply Hf|]. intros E.
  simpl foldl in E. assert (assoc kv.1 (foldl (fun a kv => mset kv.1 kv.2 a) (default [] (annotations_of o)) (kv :: ann)) = None) as Hno
    by (simpl; by rewrite E).
  clear -Hno. revert Hno. simpl. assert (forall l, is_Some (assoc kv.1 l) ->
    is_Some (assoc kv.1 (foldl (fun (a : list (string * string)) kv => mset kv.1 kv.2 a) l ann))) as Hs.
  { induction ann as [|[k' v] ann IH]; intros l Hl; [done|]. simpl. apply IH. rewrite assoc_mset. case_decide; [by eexists|done]. }
  intros Hno. destruct (Hs (mset kv.1 kv.2 (default [] (annotations_of o)))) as [x Hx]; [|congruence].
  rewrite assoc_mset, decide_True by done. by eexists.
Qed.

(** What a run that reached the update did. *)
Record updated (get : result O) (dry update : O -> option string) (params : gomap) (r : result json) (calls : list call) (o : O)
    (spec : applyKind) (changes : list containerChange) (obj : O) (cs : list json) : Prop := {
  up_kind : assoc (strField params "kind") applyKinds = Some spec;
  up_named : strField params "kind" <> "" /\ strField params "name" <> "" /\ strField params "namespace" <> "";
  up_noop : ak_noop spec = false;
  up_parse : parseContainerChanges (mget params "containers") = Ok changes;
  up_get : get = Ok obj;
  up_slice : nested_slice (ak_path spec) obj = Ok (Some cs);
  up_matched : matched cs changes = true;
  up_written : nested_slice (ak_path spec) o = Ok (Some (map (apply_one changes) cs));
  up_annotations k : k ∉ (parseAnnotations (mget params "annotations")).*1 ->
    assoc k (default [] (annotations_of o)) = assoc k (default [] (annotations_of obj));
  up_calls : calls = [Get (ak_gvr spec) (strField params "namespace") (strField params "name"); DryRun o; Update o];
  up_dry : dry o = None;
  up_result : (update o = None /\ r = Ok (succeeded [("previous_containers", JArr (capture cs changes))])) \/
              (exists e m, update o = Some e /\ r = Err m) }.
Lemma Handle_updated get dry update params r calls o :
  Handle get dry update params = (r, calls) -> Update o ∈ calls ->
  exists spec changes obj cs, updated get dry update params r calls o spec changes obj cs.
Proof.
  unfold RightsizeApply.Handle. intros Hrun Ho.
  assert (forall e, (Err e, []) = (r, calls) -> False) as Hearly.
  { intros e [= _ <-]. by apply elem_of_nil in Ho. }
  assert (forall e g ns n, (Err e, [Get g ns n]) = (r, calls) -> False) as Hget.
  { intros e g ns n [= _ <-]. by apply list_elem_of_singleton in Ho. }
  destruct (bool_decide (strField params "kind" = "")) eqn:E1; [by apply Hearly in Hrun|].
  destruct (bool_decide (strField params "name" = "")) eqn:E2; [by apply Hearly in Hrun|].
  destruct (bool_decide (strField params "namespace" = "")) eqn:E3; [by apply Hearly in Hrun|]. cbn [orb] in Hrun.
  apply bool_decide_eq_false in E1, E2, E3.
  destruct (assoc (strField params "kind") applyKinds) as [spec|] eqn:Ek; [|by apply Hearly in Hrun].
  destruct (ak_noop spec) eqn:En; [injection Hrun as _ <-; by apply elem_of_nil in Ho|].
  destruct (parseContainerChanges (mget params "containers")) as [changes|] eqn:Ep; [|by apply Hearly in Hrun].
  destruct get as [obj|]; [|by apply Hget in Hrun].
  destruct (applyContainerChanges obj (ak_path spec) changes) as [o1|] eqn:Ea; [|by apply Hget in Hrun].
  pose proof (proj1 (applyContainerChanges_Ok _ _ _ _) Ea) as (cs & Hs & Hm & Hset). pose proof (applyKinds_path _ _ Ek En) as Hpath.
  set (o2 := mergeAnnotations o1 (parseAnnotations (mget params "annotations"))) in Hrun.
  assert (captureContainerResources obj (ak_path spec) changes = capture cs changes) as Ecap.
  { unfold captureContainerResources. by rewrite Hs. }
  rewrite Ecap in Hrun. destruct (dry o2) eqn:Ed.
  { injection Hrun as _ <-. set_unfold in Ho. naive_solver. }
  assert (calls = [Get (ak_gvr spec) (strField params "namespace") (strField params "name"); DryRun o2; Update o2]) as Ec
    by (destruct (update o2); by injection Hrun as _ <-).
  assert (o = o2) as -> by (rewrite Ec in Ho; set_unfold in Ho; naive_solver).
  exists spec, changes, obj, cs. split; try done.
  - unfold o2. rewrite merge_slice by done. by eapply slice_set.
  - intros k Hk. unfold o2. rewrite merge_annotations by done. by erewrite annotations_slice.
  - destruct (update o2); injection Hrun as <- _; eauto.
Qed.

(** What a request may do to the cluster: an object is written only after
    the API server accepted a dry run of the very same object; in it the
    containers the request names have exactly the requested cpu and memory
    (an empty value means the key is gone) and everything else in them, every
    other container and every annotation the request does not set is as it
    was fetched; the request is reported as successful exactly when that
    write was accepted. *)
Theorem only_requested_resources_change get dry update params r calls o :
  Handle get dry update params = (r, calls) -> Update o ∈ calls ->
  exists spec changes obj cs cs',
    assoc (strField params "kind") applyKinds = Some spec /\ parseContainerChanges (mget params "containers") = Ok changes /\
    get = Ok obj /\ nested_slice (ak_path spec) obj = Ok (Some cs) /\ nested_slice (ak_path spec) o = Ok (Some cs') /\
    Forall2 (changed_as changes) cs cs' /\
    (forall k, k ∉ (parseAnnotations (mget params "annotations")).*1 ->
       assoc k (default [] (annotations_of o)) = assoc k (default [] (annotations_of obj))) /\
    calls = [Get (ak_gvr spec) (strField params "namespace") (strField params "name"); DryRun o; Update o] /\
    dry o = None /\ (is_ok r = true <-> update o = None).
Proof.
  intros Hrun Ho. destruct (Handle_updated _ _ _ _ _ _ _ Hrun Ho) as (spec & changes & obj & cs & []).
  exists spec, changes, obj, cs, (map (apply_one changes) cs). split_and!; try done.
  - apply Forall2_fmap_r, Forall_Forall2_diag, Forall_forall. intros raw _. apply apply_one_changed.
  - destruct up_result0 as [[-> ->]|(e & m & -> & ->)]; done.
Qed.

(** C13: undo: after an applied request, the same request with the containers
    replaced by the [previous_containers] it returned, sent while the
    workload's containers are as that request left them, is accepted and puts
    every container back: all cpu and memory values read as before and
    nothing else has changed.  Container names are distinct, and every
    container the request named had set some cpu or memory value before,
    within its limits. *)
Theorem undo_restores (o o' : O) obj dry update params r calls spec cs changes :
  Handle (Ok obj) dry update (Some params) = (Ok r, calls) -> Update o ∈ calls ->
  assoc (strField (Some params) "kind") applyKinds = Some spec -> nested_slice (ak_path spec) obj = Ok (Some cs) ->
  parseContainerChanges (mget (Some params) "containers") = Ok changes ->
  NoDup (omap name_of cs) -> Forall (undoable_json quote parse_quantity cmp (map cc_name changes)) cs ->
  nested_slice (ak_path spec) o' = nested_slice (ak_path spec) o ->
  exists previous r2 o2 cs2, r = succeeded [("previous_containers", previous)] /\
    Handle (Ok o') (fun _ => None) (fun _ => None) (Some (mset "containers" previous params))
    = (Ok r2, [Get (ak_gvr spec) (strField (Some params) "namespace") (strField (Some params) "name"); DryRun o2; Update o2]) /\
    nested_slice (ak_path spec) o2 = Ok (Some cs2) /\ Forall2 restored_json cs cs2.
Proof.
  intros Hrun Ho Hspec Hcs Hch Hnd Hu Hsame.
  destruct (Handle_updated _ _ _ _ _ _ _ Hrun Ho) as (spec' & changes' & obj' & cs' & []). injection up_get0 as <-. simplify_eq.
  rewrite up_slice0 in Hcs. injection Hcs as ->. rewrite up_parse0 in Hch. injection Hch as ->.
  destruct up_result0 as [[_ [= ->]]|(e & m & _ & ?)]; [|done].
  pose proof (capture_parses quote parse_quantity cmp _ _ _ up_parse0 up_matched0 Hu) as Hundo.
  rewrite up_written0 in Hsame. pose proof (undo_matched changes cs Hnd up_matched0) as Hm2.
  destruct (slice_settable (ak_path spec) (map (apply_one (omap (held_if (map cc_name changes)) cs)) (map (apply_one changes) cs)) _ _ Hsame)
    as [o3 Ho3].
  eexists _, _, _, _. split; [done|]. unfold RightsizeApply.Handle. rewrite !strField_mset by done. rewrite (mget_mset _ "containers"), decide_True by done.
  destruct up_named0 as (H1 & H2 & H3). rewrite !bool_decide_false by done. cbn [orb]. rewrite Hspec, up_noop0, Hundo.
  rewrite (proj2 (applyContainerChanges_Ok o' o3 _ _)) by eauto.
  split; [reflexivity|]. split; [rewrite merge_slice by (by eapply applyKinds_path); by eapply slice_set|].
  do 2 apply Forall2_fmap_r. apply Forall_Forall2_diag, Forall_forall. intros raw Hr. by apply undo_one.
Qed.
End action.

(** The undo has a gap: if one of the named containers had no cpu or memory
    value at all, its captured entry is empty and the whole list is refused,
    so none of the containers can be put back with it. *)
Lemma undo_of_unset_refused {Q} quote (parse_quantity : string -> result Q) cmp {O} `{Unstructured O} cs changes c :
  JObj c ∈ cs -> strField (Some c) "name" ∈ map cc_name changes -> no_values (held (strField (Some c) "name") c) = true ->
  is_ok (parseContainerChanges quote parse_quantity cmp (JArr (capture cs changes))) = false.
Proof.
  intros Hc Hn Hv.
  assert (forall l m, JObj m ∈ l -> no_values (change_of m) = true -> is_ok (parse_changes quote parse_quantity cmp l) = false) as Hrej.
  { clear. intros l m. induction l as [|v l IH]; [by intros ?%elem_of_nil|]. intros [<-|Hin]%elem_of_cons Hm.
    - cbn [parse_changes]. unfold parse_change. case_bool_decide; [done|]. by rewrite Hm.
    - destruct v; simpl; try (by apply IH). destruct (parse_change _ _ _ (change_of m0)); [simpl|done].
      specialize (IH Hin Hm). by destruct (parse_changes _ _ _ l). }
  destruct (captured_entry (strField (Some c) "name") (JObj c)) eqn:E; try done.
  assert (JObj m ∈ capture cs changes) as Hin.
  { apply list_elem_of_omap. exists (JObj c). split; [done|]. unfold capture_one. cbn [name_of mbind option_bind].
    rewrite bool_decide_true by done. by rewrite E. }
  pose proof (captured_entry_read _ _ _ E) as Er. specialize (Hrej _ _ Hin). rewrite Er in Hrej. specialize (Hrej Hv).
  unfold parseContainerChanges. simpl as_arr. destruct (capture cs changes) as [|v l]; [done|].
  by destruct (parse_changes _ _ _ (v :: l)).
Qed.

(** ** Samples *)
Record plain := MkPlain { pl_slices : list string -> option (list json); pl_annotations : list (string * string) }.
#[export] Instance plain_unstructured : Unstructured plain.
Proof.
  refine {| nested_slice p o := Ok (pl_slices o p);
            set_nested_slice p l o := Ok (MkPlain (fun p' => if decide (p' = p) then Some l else pl_slices o p') (pl_annotations o));
            annotations_of o := match pl_annotations o with [] => None | a => Some a end;
            set_annotations a o := MkPlain (pl_slices o) a;
            nested_field := walk |}; simpl.
  - intros p l o o' [= <-]. simpl. by rewrite decide_True.
  - eauto.
  - done.
  - intros p l o o' _ [= <-]. done.
  - by intros [].
  - done.
Defined.
(** Cores and millicores. *)
Definition toy_quantity (s : string) : result Z :=
  match srev s with
  | String c r => if byte c =? 109 then Ok (digits_value 0 (srev r)) else Ok (1000 * digits_value 0 s)
  | EmptyString => Err "empty"
  end.
Definition toy_container : json :=
  JObj [("name", JStr "app"); ("image", JStr "web:1");
        ("resources", JObj [("requests", JObj [("cpu", JStr "100m"); ("storage", JStr "1Gi")]); ("limits", JObj [("cpu", JInt 1)])])].
Definition toy_workload : plain :=
  MkPlain (fun p => if decide (p = workloadContainerPath) then Some [toy_container; JObj [("name", JStr "proxy")]] else None) [("a", "b")].
Definition toy_params : list (string * json) :=
  [("kind", JStr "Deployment"); ("name", JStr "web"); ("namespace", JStr "shop");
   ("containers", JArr [JObj [("container_name", JStr "app"); ("cpu_request", JStr "200m"); ("memory_limit", JStr "1")]]);
   ("annotations", JObj [("run", JStr "7"); ("skip", JStr "None")])].
Definition toy_run := Handle id toy_quantity Z.compare (Ok toy_workload) (fun _ => None) (fun _ => None) (Some toy_params).
Definition toy_written : plain := match toy_run.2 with [_; _; Update o] => o | _ => toy_workload end.
Example toy_applied :
  pl_slices toy_written workloadContainerPath
  = Some [JObj [("name", JStr "app"); ("image", JStr "web:1");
                ("resources", JObj [("requests", JObj [("cpu", JStr "200m"); ("storage", JStr "1Gi")]);
                                    ("limits", JObj [("memory", JStr "1")])])]; JObj [("name", JStr "proxy")]] /\
  pl_annotations toy_written = [("a", "b"); ("run", "7")].
Proof. vm_compute. split; reflexivity. Qed.
Lemma toy_update : Update toy_written ∈ toy_run.2.
Proof. unfold toy_written. apply list_elem_of_In. right. right. left. reflexivity. Qed.

Lemma only_requested_resources_change_witness :
  exists cs', nested_slice workloadContainerPath toy_written = Ok (Some cs') /\ is_ok toy_run.1 = true.
Proof.
  destruct (only_requested_resources_change id toy_quantity Z.compare (Ok toy_workload) (fun _ => None) (fun _ => None) (Some toy_params)
    toy_run.1 toy_run.2 toy_written (surjective_pairing _) toy_update) as (spec & ch & obj & cs & cs' & Hs & _ & _ & _ & Hw & _ & _ & _ & _ & Hr).
  exists cs'. split; [|by apply Hr]. assert (ak_path spec = workloadContainerPath) as <-; [|exact Hw].
  assert (Some spec = assoc "Deployment" applyKinds) as E by (rewrite <- Hs; reflexivity). simpl in E. by injection E as ->.
Defined.
Definition toy_answer : json := match toy_run.1 with Ok r => r | Err _ => JNull end.
Definition toy_undo : result json * list (call (O := plain)) :=
  Handle id toy_quantity Z.compare (Ok toy_written) (fun _ => None) (fun _ => None)
    (Some (mset "containers" (mget (as_obj toy_answer) "previous_containers") toy_params)).
Lemma toy_ok : toy_run = (Ok toy_answer, toy_run.2).
Proof.
  assert (is_ok toy_run.1 = true) as Hok by (vm_compute; reflexivity).
  unfold toy_answer. by destruct toy_run as [[r|e] l].
Qed.
Lemma undo_restores_witness :
  exists previous r2 o2 cs2, toy_run.1 = Ok (succeeded [("previous_containers", previous)]) /\
    (toy_undo.1 = Ok r2) /\ nested_slice workloadContainerPath o2 = Ok (Some cs2) /\
    Forall2 restored_json [toy_container; JObj [("name", JStr "proxy")]] cs2.
Proof.
  destruct (undo_restores id toy_quantity Z.compare toy_written toy_written toy_workload (fun _ => None) (fun _ => None) toy_params
    toy_answer toy_run.2 (MkApplyKind ("apps", "v1", "deployments") workloadContainerPath false)
    [toy_container; JObj [("name", JStr "proxy")]] [MkChange "app" "200m" "" "" "1"] toy_ok toy_update eq_refl eq_refl eq_refl)
    as (previous & r2 & o2 & cs2 & Hp & Hu & Hs & Hr).
  - simpl. repeat constructor; set_solver.
  - repeat constructor; simpl; intros; try (vm_compute; reflexivity). set_unfold. naive_solver.
  - reflexivity.
  - exists previous, r2, o2, cs2. split_and!; [|..|done|done].
    + by rewrite toy_ok, Hp.
    + unfold toy_undo. rewrite Hp. change (mget (as_obj (succeeded [("previous_containers", previous)])) "previous_containers")
        with previous. by rewrite Hu.
Defined.
