(* ===== verification/RightsizeUnits.v ===== *)
(** * Amounts of cpu and memory (pkg/rightsize/units.go)

    Parsing is the quantity parser's; formatting chooses the unit and rounds
    up to tens in binary64 arithmetic.  The facts say what amount the text
    stands for. *)

From stdpp Require Import strings.
From S2P Require Import Prelude GoText GoFloat GoFmt.

#[local] Set Default Proof Using "Type".

(** Decimal constants. *)
Definition dec (s : string) : float64 := default F64NaN (parse_float s).

(** ** Units *)
Section units.
(** [resource.ParseQuantity] followed by [AsApproximateFloat64]. *)
Context (approx : string -> option float64).
Definition parse_amount (s : string) : float64 :=
  let s := trim_space s in
  if bool_decide (s = "") then float_zero else default float_zero (approx s).
Definition parseCPUCores (cpu : string) : float64 := parse_amount cpu.
Definition parseMemBytes (mem : string) : float64 := parse_amount mem.
End units.

Definition unit_names : list string := [""; "Ki"; "Mi"; "Gi"; "Ti"; "Pi"; "Ei"].
Definition pow1024 (i : nat) : float64 := f_of_Z (1024 ^ Z.of_nat i).
(** The loop over the units from the [i]th on. *)
Fixpoint format_unit (xi : float64) (units : list string) (i : nat) : string :=
  match units with
  | [] => itoa (f_to_int xi)
  | u :: units =>
    let nextPow := pow1024 (S i) in
    if f_lt xi nextPow || match units with [] => true | _ => false end || f_lt (f_div xi nextPow) (f_of_Z 10) then
      fixed 0 (f_mul (f_ceil (f_div (f_div xi (pow1024 i)) (f_of_Z 10))) (f_of_Z 10)) +:+ u
    else format_unit xi units (S i)
  end.
Definition formatAndRoundUnit (x : float64) : string :=
  if f_lt x (f_of_Z 1) then itoa (f_to_int (f_mul x (f_of_Z 1000))) +:+ "m"
  else if f_lt x (f_of_Z 500) then float_text x
  else format_unit (f_floor x) unit_names 0.

Example floor_examples : map formatAndRoundUnit [dec "0.05"; f_of_Z 2; dec "1.5"; f_of_Z 104857600; f_of_Z 1610612736; f_of_Z 600]
  = ["50m"; "2"; "1.5"; "100Mi"; "1540Mi"; "600"].
Proof. vm_compute. reflexivity. Qed.

(** ** What the text stands for *)
Lemma f_of_pow2 i : 0 <= i <= 900 -> f_of_Z (2 ^ i) = val 1 (- i).
Proof.
  intros Hi. pose proof (Z.pow_pos_nonneg 2 i ltac:(lia) ltac:(lia)). unfold f_of_Z.
  replace (2 ^ i <? 0) with false by lia. rewrite Z.abs_eq by lia. apply val_ratio; [lia|lia|done|lia|].
  rewrite Z.opp_involutive, Z.max_l, Z.max_r by lia. rewrite Z.pow_0_r. lia.
Qed.
Lemma pow1024_val i : (i <= 10)%nat -> pow1024 i = val 1 (- (10 * Z.of_nat i)).
Proof.
  intros Hi. unfold pow1024. replace (1024 ^ Z.of_nat i) with (2 ^ (10 * Z.of_nat i)) by (rewrite Z.pow_mul_r by lia; done).
  apply f_of_pow2. lia.
Qed.
(** The test of the loop: the amount is below ten of the next unit. *)
Lemma unit_test n i : 0 < n < 2 ^ 53 -> (i <= 9)%nat ->
  f_lt (val n 0) (pow1024 (S i)) || f_lt (f_div (val n 0) (pow1024 (S i))) (f_of_Z 10) = (n <? 10 * 2 ^ (10 * Z.of_nat (S i))).
Proof.
  intros Hn Hi. rewrite pow1024_val by lia. set (k := 10 * Z.of_nat (S i)). assert (0 <= k <= 100) as Hk by lia.
  rewrite val_div_pow2 by lia. rewrite (f_of_Z_val 10) by lia.
  rewrite (f_lt_val n 0 1 (- k) 0) by lia. rewrite (f_lt_val n (0 + k) 10 0 k) by lia.
  replace (0 - - k) with k by lia. rewrite Z.sub_diag, Z.sub_0_r, Z.pow_0_r. replace (k - (0 + k)) with 0 by lia.
  rewrite Z.pow_0_r. pose proof (Z.pow_pos_nonneg 2 k ltac:(lia) ltac:(lia)).
  destruct (Z.ltb_spec (n * 1) (1 * 2 ^ k)), (Z.ltb_spec (n * 1) (10 * 2 ^ k)), (Z.ltb_spec n (10 * 2 ^ k)); simpl; lia.
Qed.
Lemma tens_text : forallb (fun k => bool_decide (fixed 0 (f_mul (f_of_Z k) (f_of_Z 10)) = utoa (10 * k))) (seqZ 1 1024) = true.
Proof. vm_compute. reflexivity. Qed.
(** The number printed. *)
Lemma tens_value n i : 0 < n < 2 ^ 53 -> (i <= 4)%nat -> n < 10 * 2 ^ (10 * Z.of_nat (S i)) -> 500 * 2 ^ (10 * Z.of_nat i) <= 64 * n ->
  fixed 0 (f_mul (f_ceil (f_div (f_div (val n 0) (pow1024 i)) (f_of_Z 10))) (f_of_Z 10)) = utoa (10 * div_up n (10 * 2 ^ (10 * Z.of_nat i))).
Proof.
  intros Hn Hi Hlt Hge. rewrite pow1024_val by lia. rewrite val_div_pow2 by lia.
  replace (10 * Z.of_nat (S i)) with (10 + 10 * Z.of_nat i) in Hlt by lia.
  set (k := 10 * Z.of_nat i) in *. assert (0 <= k <= 40) as Hk by lia. rewrite pow2_split in Hlt by lia.
  pose proof (Z.pow_pos_nonneg 2 k ltac:(lia) ltac:(lia)) as Hpk.
  assert (2 ^ k <= 2 ^ 40) as Hpk2 by (apply Z.pow_le_mono_r; lia).
  set (D := 10 * 2 ^ k) in *. assert (0 < D < 2 ^ 44) as HD by lia.
  pose proof (div_up_spec n D ltac:(lia)) as HK. set (K := div_up n D) in *.
  assert (f_ceil (f_div (val n (0 + k)) (f_of_Z 10)) = f_of_Z K) as ->.
  { rewrite (f_of_Z_val 10) by lia. unfold f_div, val. change (mant 10) with (10 * 2 ^ 49). change (10 * 2 ^ 49 =? 0) with false.
    change (Z.log2 10) with 3. cbn [xorb]. unfold of_scaled. pose proof (log2_range n Hn) as Hl. set (l := Z.log2 n) in *.
    assert (0 < mant n) as Hm by (pose proof (mant_range n Hn); lia).
    assert (mant n * 2 ^ l = n * 2 ^ 52) as Em.
    { unfold mant. fold l. rewrite <- Z.mul_assoc, <- pow2_split by lia. do 2 f_equal. lia. }
    set (x := l - 52 - (0 + k) - (3 - 52 - 0)). unfold K.
    assert (forall p d, 0 < p -> 0 < d -> p * D = n * d -> f_ceil (of_ratio false p d) = f_of_Z (div_up n D)) as Hc.
    { intros p d Hp Hd E. apply (ceil_of_ratio p d n D); [lia..|done| |]; unfold D in *; nia. }
    pose proof (Z.pow_pos_nonneg 2 l ltac:(lia) ltac:(lia)) as Hpl.
    destruct (Z.leb_spec 0 x) as [Hx|Hx].
    - pose proof (Z.pow_pos_nonneg 2 x ltac:(lia) ltac:(lia)) as Hpx. apply Hc; [nia|lia|].
      assert (2 ^ l = 2 ^ x * 2 ^ k * 2 ^ 3) as E3 by (rewrite <- !pow2_split by lia; f_equal; lia).
      unfold D. rewrite E3 in Em. change (2 ^ 3) with 8 in Em. change (2 ^ 52) with (8 * 2 ^ 49) in Em. nia.
    - pose proof (Z.pow_pos_nonneg 2 (- x) ltac:(lia) ltac:(lia)) as Hpx. apply Hc; [lia|nia|].
      assert (2 ^ l * 2 ^ (- x) = 2 ^ k * 2 ^ 3) as E3 by (rewrite <- !pow2_split by lia; f_equal; lia).
      apply (Z.mul_cancel_r _ _ (2 ^ l)); [lia|]. unfold D. change (2 ^ 3) with 8 in E3. change (2 ^ 52) with (8 * 2 ^ 49) in Em.
      transitivity (10 * 2 ^ k * (mant n * 2 ^ l)); [ring|]. rewrite Em.
      transitivity (n * (10 * 2 ^ 49) * (2 ^ l * 2 ^ (- x))); [rewrite E3; ring|ring]. }
  assert (1 <= K <= 1024) as HKr by (unfold D in *; nia).
  pose proof tens_text as Ht. rewrite forallb_forall in Ht. specialize (Ht K). rewrite bool_decide_eq_true in Ht. apply Ht.
  apply list_elem_of_In, elem_of_seqZ. lia.
Qed.
(** The loop stops at the first unit with an amount below ten of the next. *)
Definition rounded_to (n : Z) (text : string) : Prop := exists i u v,
  unit_names !! i = Some u /\ text = utoa v +:+ u /\ v mod 10 = 0 /\
  n <= v * 1024 ^ Z.of_nat i < n + 10 * 1024 ^ Z.of_nat i /\ v * 1024 ^ Z.of_nat i < 2 * n.
Lemma format_unit_rounds n i u units : 500 <= n < 2 ^ 53 -> (i <= 4)%nat -> i = 0%nat \/ 10 * 2 ^ (10 * Z.of_nat i) <= n ->
  drop i unit_names = u :: units -> rounded_to n (format_unit (val n 0) (u :: units) i).
Proof.
  intros Hn. remember (4 - i)%nat as fuel eqn:Ef. revert i u units Ef. induction fuel as [|fuel IH]; intros i u units Ef Hi Hge Hd; cbn [format_unit].
  all: assert (500 * 2 ^ (10 * Z.of_nat i) <= 64 * n) as Hge' by (destruct Hge as [->|?]; [change (2 ^ (10 * Z.of_nat 0)) with 1|]; lia).
  all: assert (units <> []) as Hu by (intros ->; apply (f_equal length) in Hd; rewrite length_drop in Hd; simpl in Hd; lia).
  all: destruct units as [|u' units]; [done|]; rewrite orb_false_r, unit_test by lia.
  all: destruct (Z.ltb_spec n (10 * 2 ^ (10 * Z.of_nat (S i)))) as [Hlt|Hlt].
  1, 3: rewrite tens_value by (assumption || lia); exists i, u, (10 * div_up n (10 * 2 ^ (10 * Z.of_nat i)));
    pose proof (Z.pow_pos_nonneg 2 (10 * Z.of_nat i) ltac:(lia) ltac:(lia));
    pose proof (div_up_spec n (10 * 2 ^ (10 * Z.of_nat i)) ltac:(lia));
    replace (1024 ^ Z.of_nat i) with (2 ^ (10 * Z.of_nat i)) by (rewrite Z.pow_mul_r by lia; done);
    split_and!; [by rewrite <- (Nat.add_0_r i), <- lookup_drop, Hd|done|rewrite Z.mul_comm; apply Z.mod_mul; lia|nia|nia|];
    destruct Hge as [->|?]; [change (2 ^ (10 * Z.of_nat 0)) with 1 in *|]; lia.
  - assert (i = 4%nat) as -> by lia. change (10 * Z.of_nat 5) with 50 in Hlt. lia.
  - apply IH; [lia| |by right|]; [|by rewrite <- Nat.add_1_r, <- drop_drop, Hd].
    assert (i <> 4%nat) as Hne; [intros ->; lia|lia].
Qed.


(** Millicores are kept. *)
Lemma millicores_kept : forallb (fun k => bool_decide (formatAndRoundUnit (f_div (f_of_Z k) (f_of_Z 1000)) = utoa k +:+ "m")) (seqZ 0 1000) = true.
Proof. vm_compute. reflexivity. Qed.
