(* ===== verification/Rightsize.v ===== *)
(** * Continuous rightsizing (pkg/rightsize/rightsize.go, inplace.go,
    handlers.go)

    Settings and applications, the usage queries, the recommendation, the
    change guards, the in-place resize with its polling loop, and the
    fallback to the template update.  Floating point is binary64.  The
    Prometheus client, quantity parsing and the API server are given by their
    answers; every call that changes the cluster is logged. *)

From stdpp Require Import strings.
From S2P Require Import Prelude GoText GoJson GoStruct CanonJson GoMarshal GoFloat GoFmt PromQL RightsizeApply RightsizeUnits.

#[local] Set Default Proof Using "Type".

Definition defaultMinCPU : float64 := dec "0.01".
Definition defaultMinMemoryBytes : float64 := f_of_Z (5 * 10 * 1024 * 1024).
Definition defaultOOMKillFactor : float64 := dec "1.4".
Definition defaultChangeThreshold : float64 := f_of_Z 15.
Definition defaultMaxChangeThreshold : float64 := f_of_Z 100.
Definition defaultPercentile : float64 := dec "99.99".
Definition defaultAnalysisDuration : Z := 24.
Definition memoryLimitHeadroom : float64 := dec "1.4".
Definition annotationKey : string := "workloads.nudgebee.com/V1.continuous-rightsize.vertical-scaler".

Record Settings := MkSettings {
  MinCPU : float64; MinMemoryBytes : float64; OOMKillFactor : float64; ChangeThreshold : float64; MaxChangeThreshold : float64;
  CPUPercentile : float64; MemoryPercentile : float64; AnalysisDuration : Z; RecommendOnly : bool; InPlace : bool;
  ResizePolicy : string; Identifier : string }.
Record Application := MkApplication { app_Name : string; app_Namespace : string; app_Kind : string }.
Definition supportedKinds : list (string * (string * string * string)) :=
  [("Deployment", ("apps", "v1", "deployments")); ("StatefulSet", ("apps", "v1", "statefulsets"));
   ("DaemonSet", ("apps", "v1", "daemonsets")); ("ReplicaSet", ("apps", "v1", "replicasets"));
   ("Rollout", ("argoproj.io", "v1alpha1", "rollouts"))].

(** ** Parameters of the action *)
Section handlers.
(** Float literals beyond the decimal ones. *)
Context (other_float : string -> option float64).
Definition numOr (m : gomap) (key : string) (def : float64) : float64 :=
  if mhas m key then
    match mget m key with
    | JFloat f => f
    | JInt z => f_of_Z z
    | JStr s => default def (ParseFloat other_float s)
    | _ => def
    end
  else def.
Definition boolOr (m : gomap) (key : string) (def : bool) : bool :=
  match mget m key with JBool b => b | _ => def end.
(** [v <= 0] replaced by the default. *)
Definition positive_or (v def : float64) : float64 := if f_le v float_zero then def else v.
Definition parseSettings (raw : json) : result Settings :=
  match as_obj raw with
  | None => Err "rightsize: missing settings"
  | Some m =>
    let m := Some m in
    let duration := f_to_int (numOr m "default_analysis_duration_hour" (f_of_Z defaultAnalysisDuration)) in
    Ok (MkSettings (numOr m "default_min_cpu" defaultMinCPU)
          (positive_or (f_mul (f_mul (numOr m "default_min_memory" float_zero) (f_of_Z 1024)) (f_of_Z 1024)) defaultMinMemoryBytes)
          (positive_or (numOr m "oom_kill_increase_factor" defaultOOMKillFactor) defaultOOMKillFactor)
          (numOr m "change_threshold" defaultChangeThreshold)
          (positive_or (numOr m "max_change_threshold" defaultMaxChangeThreshold) defaultMaxChangeThreshold)
          (positive_or (numOr m "cpu_analysis_percentile" float_zero) defaultPercentile)
          (positive_or (numOr m "memory_analysis_percentile" float_zero) defaultPercentile)
          (if duration <=? 0 then defaultAnalysisDuration else duration)
          (boolOr m "recommend_only" false) (boolOr m "in_place" true) (strField m "resize_policy") (strField m "identifier"))
  end.
Fixpoint parse_apps (l : list json) : result (list Application) :=
  match l with
  | [] => Ok []
  | JObj m :: l =>
    let app := MkApplication (strField (Some m) "name") (strField (Some m) "namespace") (strField (Some m) "kind") in
    if bool_decide (app_Name app = "") || bool_decide (app_Namespace app = "") || bool_decide (app_Kind app = "")
    then Err ("rightsize: application requires name, namespace and kind (got " +:+ sprint_v (JObj m) +:+ ")")
    else let? apps := parse_apps l in Ok (app :: apps)
  | _ :: l => parse_apps l
  end.
Definition parseApplications (raw : json) : result (list Application) :=
  match raw with JArr l => parse_apps l | _ => Err "rightsize: applications must be a list" end.
Definition failure (err : string) : json := JObj [("success", JBool false); ("data", JNull); ("msg", JStr err)].
End handlers.

(** ** The recommendation *)
Definition getRecommendedCPU (s : Settings) (cpu : float64) : float64 :=
  f_max (f_div (f_ceil (f_mul cpu (f_of_Z 1000))) (f_of_Z 1000)) (MinCPU s).
Definition getRecommendedMemory (s : Settings) (memory oomKillLimit : float64) : float64 :=
  let rec := if f_lt float_zero oomKillLimit then f_max memory (f_mul oomKillLimit (OOMKillFactor s)) else memory in
  f_max rec (MinMemoryBytes s).
Definition pctChange (rec current : float64) : float64 :=
  if f_eq current float_zero then f_of_Z 100
  else f_mul (f_div (f_abs (f_sub rec current)) current) (f_of_Z 100).

(** ** Usage *)
Definition quantileFraction (percentile : float64) : string :=
  let f := f_div (f_round percentile) (f_of_Z 100) in
  let f := if f_lt (f_of_Z 1) f then f_of_Z 1 else f in
  let f := if f_lt f float_zero then float_zero else f in
  float_text f.
Definition container_selector (app : Application) (container : string) : string :=
  matcher "namespace" "=" (app_Namespace app) +:+ "," +:+ matcher "pod" "=~" (app_Name app +:+ "-.*") +:+ ","
  +:+ matcher "container" "=" container.
Definition duration_text (s : Settings) : string := itoa (AnalysisDuration s) +:+ "h".
Definition cpuUsageQuery (s : Settings) (app : Application) (container : string) : string :=
  "quantile_over_time(" +:+ quantileFraction (CPUPercentile s) +:+ ", max(rate(container_cpu_usage_seconds_total{"
  +:+ container_selector app container +:+ "}[1m])) by (container, pod, job, namespace)[" +:+ duration_text s +:+ ":1m])".
Definition memoryUsageQuery (s : Settings) (app : Application) (container : string) : string :=
  "quantile_over_time(" +:+ quantileFraction (MemoryPercentile s) +:+ ", max(container_memory_usage_bytes{"
  +:+ container_selector app container +:+ "}) by (container, pod, job, namespace)[" +:+ duration_text s +:+ ":1m])".
Definition oomKillQuery (s : Settings) (app : Application) (container : string) : string :=
  "max_over_time((max(kube_pod_container_resource_limits{" +:+ matcher "resource" "=" "memory" +:+ ","
  +:+ container_selector app container +:+ "}) by (pod, container, namespace, job) "
  +:+ "* on(pod, container, namespace, job) group_left(reason) "
  +:+ "max(kube_pod_container_status_last_terminated_reason{" +:+ matcher "reason" "=" "OOMKilled" +:+ ","
  +:+ container_selector app container +:+ "}) by (pod, container, job, namespace, reason))[" +:+ duration_text s +:+ ":1m])".

(** [queryMax]: the response struct, and the maximum over its series. *)
Record prom_response := MkResponse { pr_status : string; pr_series : list (list json) }.
Definition set_value (f : string) (m : member) (v : list json) : list json * bool :=
  match m_val m with JArr l => (l, negb (has_other (JArr l))) | JNull => ([], true) | _ => (v, false) end.
Definition set_data (f : string) (m : member) (r : prom_response) : prom_response * bool :=
  if bool_decide (f = "result") then
    let '(l, ok) := set_list (set_struct ["value"] set_value) [] (pr_series r) m in (MkResponse (pr_status r) l, ok)
  else let '(_, ok) := set_string "" m in (r, ok).
Definition set_response (f : string) (m : member) (r : prom_response) : prom_response * bool :=
  if bool_decide (f = "status") then let '(v, ok) := set_string (pr_status r) m in (MkResponse v (pr_series r), ok)
  else set_struct ["resultType"; "result"] set_data r m.
Section usage.
Context (other_float : string -> option float64).
Definition toFloat (v : json) : option float64 :=
  match v with JFloat f => Some f | JStr s => ParseFloat other_float s | _ => None end.
Definition max_step (acc : float64) (value : list json) : float64 :=
  match value with
  | _ :: v :: _ =>
    match toFloat v with
    | Some v => if is_nan v then acc else if is_nan acc || f_lt acc v then v else acc
    | None => acc
    end
  | _ => acc
  end.
(** [strconv.Quote], and [prom], the client's query call; the text of the
    decoder's error is left out. *)
Context (quote : string -> string) (prom : string -> result string).
Definition queryMax (promQL : string) : result (float64 * bool) :=
  let? raw := prom promQL in
  let '(resp, ok) := unmarshal_struct ["status"; "data"] set_response raw (MkResponse "" []) in
  if negb ok then Err "decode prometheus response: "
  else if negb (bool_decide (pr_status resp = "success")) then
    Err ("prometheus query status " +:+ quote (pr_status resp))
  else let m := foldl max_step F64NaN (pr_series resp) in
       if is_nan m then Ok (float_zero, negb (bool_decide (pr_series resp = []))) else Ok (m, true).
Record containerStat := MkStat { cpuP99 : float64; memoryMax : float64; oomKill : float64; hasData : bool }.
Definition getResourceUsage (s : Settings) (app : Application) (container : string) : result containerStat :=
  let? (cpu, cpuOK) := rwrap "cpu query: " (queryMax (cpuUsageQuery s app container)) in
  let? (mem, memOK) := rwrap "memory query: " (queryMax (memoryUsageQuery s app container)) in
  let oom := match queryMax (oomKillQuery s app container) with Ok (v, _) => v | Err _ => float_zero end in
  Ok (MkStat cpu mem oom (cpuOK || memOK)).
End usage.

(** ** In-place resize *)
Record inPlaceTarget := MkTarget { it_name : string; it_reqCPU : string; it_reqMem : string; it_limCPU : string; it_limMem : string }.

(** The leading [v?(\d+)\.(\d+)] of the version; [Atoi] clamps. *)
Definition clamp_digits (ds : string) : Z := Z.min (digits_value 0 ds) int64_max.
Definition version_numbers (v : string) : option (Z * Z) :=
  let v := match v with String c r => if byte c =? 118 then r else v | EmptyString => v end in
  let '(major, r) := span_digits v in
  match r with
  | String c r =>
    let '(minor, _) := span_digits r in
    if (byte c =? 46) && negb (bool_decide (major = "")) && negb (bool_decide (minor = ""))
    then Some (clamp_digits major, clamp_digits minor) else None
  | EmptyString => None
  end.
Definition k8sAtLeastInPlace (gitVersion : string) : bool :=
  match version_numbers (trim_space gitVersion) with
  | Some (major, minor) => (1 <? major) || ((major =? 1) && (35 <=? minor))
  | None => false
  end.
(** [supportsInPlaceResize]: no typed client, or what discovery answers. *)
Definition supportsInPlaceResize (client : bool) (version : result string) : bool :=
  client && match version with Ok v => k8sAtLeastInPlace v | Err _ => false end.

(** Pod conditions: type, status, reason. *)
Definition condition := (string * string * string)%type.
Inductive resize_state := RDone | RInfeasible | RPending | RInProgress.
Fixpoint resizeState (conds : list condition) : resize_state :=
  match conds with
  | [] => RDone
  | (typ, status, reason) :: conds =>
    if negb (bool_decide (status = "True")) then resizeState conds
    else if bool_decide (typ = "PodResizePending") then (if fold_equal reason "Infeasible" then RInfeasible else RPending)
    else if bool_decide (typ = "PodResizeInProgress") then (if fold_equal reason "Error" then RInfeasible else RInProgress)
    else resizeState conds
  end.
Definition resizePolicyList (mode : string) : option json :=
  let m := to_lower (trim_space mode) in
  if bool_decide (m ∈ ["disabled"; "off"; "no"; "false"]) then None
  else let memPolicy := if fold_equal (trim_space mode) "restart-memory" then "RestartContainer" else "NotRequired" in
       Some (JArr [JObj [("resourceName", JStr "cpu"); ("restartPolicy", JStr "NotRequired")];
                   JObj [("resourceName", JStr "memory"); ("restartPolicy", JStr memPolicy)]]).
Definition set_text (key val : string) : list (string * json) := if bool_decide (val = "") then [] else [(key, JStr val)].
Definition set_map (key : string) (m : list (string * json)) : list (string * json) := match m with [] => [] | _ => [(key, JObj m)] end.
Definition patch_container (t : inPlaceTarget) : option json :=
  match set_map "requests" (set_text "cpu" (it_reqCPU t) ++ set_text "memory" (it_reqMem t))
        ++ set_map "limits" (set_text "cpu" (it_limCPU t) ++ set_text "memory" (it_limMem t)) with
  | [] => None
  | resources => Some (JObj [("name", JStr (it_name t)); ("resources", JObj resources)])
  end.
Definition buildResizePatch (targets : list inPlaceTarget) : option string :=
  match omap patch_container targets with
  | [] => None
  | containers => marshal (JObj [("spec", JObj [("containers", JArr containers)])])
  end.

Inductive effect (O : Type) := PatchPod (name body : string) | UpdateWorkload (o : O).
Arguments PatchPod {O} name body.
Arguments UpdateWorkload {O} o.

Section resize.
Context {Obj : Type}.
(** What the API server answers: the pods of a selector, whether a pod's
    resize patch is rejected, the conditions of a pod at a poll round (or an
    error), and whether the context has ended after a round. *)
Record PodAPI := MkPodAPI {
  list_pods : string -> result (list string); patch_rejected : string -> string -> bool;
  pod_conditions : nat -> string -> option (list condition); ctx_done : nat -> bool }.
Context (api : PodAPI).

(** The patches up to the first rejected one. *)
Fixpoint patch_all (body : string) (pods : list string) : bool * list (effect Obj) :=
  match pods with
  | [] => (true, [])
  | p :: pods =>
    if patch_rejected api p body then (false, [PatchPod p body])
    else let '(ok, l) := patch_all body pods in (ok, PatchPod p body :: l)
  end.
(** One round over the pending pods: those still pending, [None] when one is
    infeasible. *)
Fixpoint poll_round (attempt : nat) (pending : list string) : option (list string) :=
  match pending with
  | [] => Some []
  | p :: pending =>
    match pod_conditions api attempt p with
    | None => rest ← poll_round attempt pending; Some (p :: rest)
    | Some conds =>
      match resizeState conds with
      | RDone => poll_round attempt pending
      | RInfeasible => None
      | _ => rest ← poll_round attempt pending; Some (p :: rest)
      end
    end
  end.
(** [rounds] rounds remain. *)
Fixpoint poll (rounds attempt : nat) (pending : list string) : bool :=
  match rounds with
  | O => false
  | S rounds =>
    match poll_round attempt pending with
    | None => false
    | Some [] => true
    | Some pending => if ctx_done api attempt then false else poll rounds (S attempt) pending
    end
  end.
Definition resizePollAttempts : nat := 20.
Definition selector_text (labels : list (string * string)) : string :=
  join "," (sort_strings (map (fun kv => kv.1 +:+ "=" +:+ kv.2) labels)).
Definition applyInPlace (client : bool) (labels : list (string * string)) (targets : list inPlaceTarget) : bool * list (effect Obj) :=
  match targets with
  | [] => (false, [])
  | _ =>
    if negb client then (false, [])
    else match labels with
    | [] => (false, [])
    | _ =>
      match list_pods api (selector_text labels) with
      | Err _ | Ok [] => (false, [])
      | Ok pods =>
        match buildResizePatch targets with
        | None => (false, [])
        | Some body =>
          let '(ok, patched) := patch_all body pods in
          (if ok then poll resizePollAttempts 0 pods else false, patched)
        end
      end
    end
  end.
End resize.

(** ** One container *)
Inductive verdict := Within | Skip | Apply.
(** The change guards; a change that is not a number passes both. *)
Definition judge (s : Settings) (pct : float64) : verdict :=
  if f_le pct (ChangeThreshold s) then Within
  else if f_le (MaxChangeThreshold s) pct then Skip else Apply.
Definition nullable (s : string) : json := if bool_decide (s = "") then JNull else JStr s.
Definition orZero (s : string) : string := if bool_decide (s = "") then "0" else s.
Definition skip_text (s : Settings) (what : string) (pct : float64) (current recommended : string) : string :=
  what +:+ " change " +:+ fixed 1 pct +:+ "% >= max " +:+ fixed 0 (MaxChangeThreshold s) +:+ "% (current " +:+ orZero current
  +:+ " " +:+ String (chr 226) (String (chr 134) (String (chr 146) "")) +:+ " recommended " +:+ recommended +:+ ")".

(** The recommendation for a container: the texts, and the changes in percent. *)
Record recommendation := MkRecommendation {
  rc_cpu : string; rc_mem : string; rc_memLimit : string; rc_cpuPct : float64; rc_memPct : float64 }.
(** What is to become of a container. *)
Record sizing := MkSizing {
  sz_container : list (string * json); sz_changed : bool; sz_target : inPlaceTarget; sz_result : json; sz_annotation : json }.

Section workload.
Context (quote : string -> string) (other_float approx : string -> option float64) (prom : string -> result string).

Definition recommend (s : Settings) (reqCPU reqMem : string) (stat : containerStat) : recommendation :=
  let currentCPU := parseCPUCores approx reqCPU in
  let currentMem := parseMemBytes approx reqMem in
  let recMem := getRecommendedMemory s (memoryMax stat) (oomKill stat) in
  let recMemLimit := f_mul recMem memoryLimitHeadroom in
  let recMemLimit := if f_lt recMemLimit currentMem then currentMem else recMemLimit in
  let fmtRecMem := formatAndRoundUnit recMem in
  let fmtRecCPU := formatAndRoundUnit (getRecommendedCPU s (cpuP99 stat)) in
  MkRecommendation fmtRecCPU fmtRecMem (formatAndRoundUnit recMemLimit)
    (pctChange (parseCPUCores approx fmtRecCPU) currentCPU) (pctChange (parseMemBytes approx fmtRecMem) currentMem).

Definition resource_dict (cpu memory : json) : json := JObj [("cpu", cpu); ("memory", memory)].
Definition size_with (s : Settings) (inPlaceEligible : bool) (c : list (string * json)) (name : string) (r : recommendation) : sizing :=
  let '(reqCPU, reqMem, limCPU, limMem) := containerResourceStrings c in
  let mem := judge s (rc_memPct r) in
  let cpu := judge s (rc_cpuPct r) in
  let newReqMem := match mem with Apply => rc_mem r | _ => reqMem end in
  let newLimMem := match mem with Apply => rc_memLimit r | _ => limMem end in
  let newReqCPU := match cpu with Apply => rc_cpu r | _ => reqCPU end in
  let newLimCPU := match cpu with Apply => "" | _ => limCPU end in
  let changed := match mem, cpu with Apply, _ | _, Apply => true | _, _ => false end in
  let skipped :=
    match mem with Skip => [JStr (skip_text s "memory" (rc_memPct r) reqMem (rc_mem r))] | _ => [] end
    ++ match cpu with Skip => [JStr (skip_text s "cpu" (rc_cpuPct r) reqCPU (rc_cpu r))] | _ => [] end in
  let c' := if changed then setContainerResources c newReqCPU newReqMem newLimCPU newLimMem else c in
  let c' := if changed && inPlaceEligible && negb (mhas (Some c') "resizePolicy")
            then match resizePolicyList (ResizePolicy s) with Some rp => mset "resizePolicy" rp c' | None => c' end else c' in
  MkSizing c' changed (MkTarget name newReqCPU newReqMem newLimCPU newLimMem)
    (JObj ([("name", JStr name);
            ("resources", JObj [("requests", resource_dict (JStr reqCPU) (JStr reqMem)); ("limits", resource_dict (JStr limCPU) (JStr limMem))]);
            ("recommended_resources", JObj [("requests", resource_dict (JStr (rc_cpu r)) (JStr (rc_mem r)));
                                            ("limits", resource_dict (JStr "") (JStr (rc_memLimit r)))]);
            ("changed", JBool changed)]
           ++ match skipped with [] => [] | _ => [("skipped", JArr skipped)] end))
    (JObj [("container_name", JStr name); ("cpu_request", JStr (rc_cpu r)); ("cpu_limit", JNull); ("memory_request", JStr (rc_mem r));
           ("memory_limit", JStr (rc_memLimit r)); ("prev_cpu_request", nullable reqCPU); ("prev_cpu_limit", nullable limCPU);
           ("prev_memory_request", nullable reqMem); ("prev_memory_limit", nullable limMem)]).

(** [None]: no object, or no usage data. *)
Definition size_container (s : Settings) (app : Application) (inPlaceEligible : bool) (raw : json) : result (option sizing) :=
  match raw with
  | JObj c =>
    let name := strField (Some c) "name" in
    let '(reqCPU, reqMem, _, _) := containerResourceStrings c in
    let? stat := rwrap ("rightsize: " +:+ app_Kind app +:+ " " +:+ app_Namespace app +:+ "/" +:+ app_Name app +:+ " container "
                        +:+ quote name +:+ ": ") (getResourceUsage other_float quote prom s app name) in
    Ok (if hasData stat then Some (size_with s inPlaceEligible c name (recommend s reqCPU reqMem stat)) else None)
  | _ => Ok None
  end.
(** The loop over the containers, to the first error: each container with
    what is to become of it. *)
Fixpoint size_containers (s : Settings) (app : Application) (inPlaceEligible : bool) (containers : list json)
  : result (list (json * option sizing)) :=
  match containers with
  | [] => Ok []
  | raw :: containers =>
    let? z := size_container s app inPlaceEligible raw in
    let? zs := size_containers s app inPlaceEligible containers in
    Ok ((raw, z) :: zs)
  end.
Definition changed_sizing (z : option sizing) : option sizing := z ← z; if sz_changed z then Some z else None.
Definition resized (rz : json * option sizing) : json :=
  match changed_sizing rz.2 with Some z => JObj (sz_container z) | None => rz.1 end.

(** *** The workload *)
Context {Obj : Type} `{Unstructured Obj}.
(** [spec.selector.matchLabels], the clock's text when a workload is
    annotated, the answers to the updates and to the calls on its pods. *)
Context (match_labels : Obj -> list (string * string)) (stamp : Application -> string) (client : bool)
  (api : Application -> PodAPI) (get : Application -> result Obj) (update : Obj -> option string).

Definition annotationValue (now identifier : string) (changes : list json) : option string :=
  marshal (JObj [("identifier", JStr identifier); ("time", JStr now); ("container_changes", JArr changes)]).
Definition writeAnnotation (now : string) (o : Obj) (identifier : string) (changes : list json) : Obj :=
  match annotationValue now identifier changes with
  | None => o
  | Some value => set_annotations (mset annotationKey value (default [] (annotations_of o))) o
  end.

Definition workload_result (app : Application) (containers : list json) : json :=
  JObj [("name", JStr (app_Name app)); ("namespace", JStr (app_Namespace app)); ("kind", JStr (app_Kind app));
        ("containers", JArr containers)].
(** The update of a workload whose containers were sized. *)
Definition apply_sizings (s : Settings) (app : Application) (inPlaceEligible : bool) (obj : Obj) (zs : list (json * option sizing))
  : result unit * list (effect Obj) :=
  let sized := omap snd zs in
  let annotations := map sz_annotation sized in
  let targets := map sz_target (List.filter sz_changed sized) in
  let '(appliedInPlace, patched) :=
    if inPlaceEligible then applyInPlace (api app) client (match_labels obj) targets else (false, []) in
  if appliedInPlace then
    (Ok tt, patched ++ [UpdateWorkload (writeAnnotation (stamp app) obj (Identifier s) annotations)])
  else
    let where_ := app_Kind app +:+ " " +:+ app_Namespace app +:+ "/" +:+ app_Name app +:+ ": " in
    match set_nested_slice workloadContainerPath (map resized zs) obj with
    | Err e => (Err ("rightsize: rebuild containers for " +:+ where_ +:+ e), patched)
    | Ok obj =>
      let obj := writeAnnotation (stamp app) obj (Identifier s) annotations in
      (match update obj with Some e => Err ("rightsize: apply " +:+ where_ +:+ e) | None => Ok tt end, patched ++ [UpdateWorkload obj])
    end.
Definition rightsizeWorkload (s : Settings) (app : Application) (inPlaceEligible : bool) : result json * list (effect Obj) :=
  let where_ := app_Kind app +:+ " " +:+ app_Namespace app +:+ "/" +:+ app_Name app in
  match assoc (app_Kind app) supportedKinds with
  | None => (Err ("rightsize: unsupported kind " +:+ quote (app_Kind app)
                  +:+ " (supported: Deployment, StatefulSet, DaemonSet, ReplicaSet, Rollout)"), [])
  | Some _ =>
    match get app with
    | Err e => (Err ("rightsize: get " +:+ where_ +:+ ": " +:+ e), [])
    | Ok obj =>
      match nested_slice workloadContainerPath obj with
      | Err _ | Ok None | Ok (Some []) => (Err ("rightsize: " +:+ where_ +:+ " has no spec.template.spec.containers"), [])
      | Ok (Some containers) =>
        match size_containers s app inPlaceEligible containers with
        | Err e => (Err e, [])
        | Ok zs =>
          let res := workload_result app (map sz_result (omap snd zs)) in
          if existsb sz_changed (omap snd zs) && negb (RecommendOnly s) then
            let '(r, effects) := apply_sizings s app inPlaceEligible obj zs in
            (let? _ := r in Ok res, effects)
          else (Ok res, [])
        end
      end
    end
  end.

Fixpoint run_apps (s : Settings) (inPlaceEligible : bool) (apps : list Application) : result (list json) * list (effect Obj) :=
  match apps with
  | [] => (Ok [], [])
  | app :: apps =>
    match rightsizeWorkload s app inPlaceEligible with
    | (Err e, l) => (Err e, l)
    | (Ok r, l) => let '(rs, l') := run_apps s inPlaceEligible apps in (let? rs := rs in Ok (r :: rs), l ++ l')
    end
  end.
Definition Run (version : result string) (s : Settings) (apps : list Application) : result (list json) * list (effect Obj) :=
  run_apps s (InPlace s && supportsInPlaceResize client version) apps.
(** The handler of [continuous_rightsizing]; the error is in the answer. *)
Definition handle (version : result string) (params : gomap) : json * list (effect Obj) :=
  match parseSettings other_float (mget params "settings") with
  | Err e => (failure e, [])
  | Ok s =>
    match parseApplications (mget params "applications") with
    | Err e => (failure e, [])
    | Ok [] => (failure "rightsize: no applications provided", [])
    | Ok apps =>
      let '(r, effects) := Run version s apps in
      (match r with Ok data => JObj [("success", JBool true); ("data", JArr data)] | Err e => failure e end, effects)
    end
  end.
End workload.

(** ** What a run does to a workload *)
Lemma size_containers_Forall2 quote other approx prom s app e cs zs :
  size_containers quote other approx prom s app e cs = Ok zs ->
  Forall2 (fun raw rz => rz.1 = raw /\ size_container quote other approx prom s app e raw = Ok rz.2) cs zs.
Proof.
  revert zs. induction cs as [|raw cs IH]; intros zs; cbn [size_containers]; [by intros [= <-]|].
  destruct (size_container quote other approx prom s app e raw) as [z|] eqn:Ez; [cbn [rbind]|done].
  destruct (size_containers quote other approx prom s app e cs) as [zs'|]; [cbn [rbind]|done].
  intros [= <-]. constructor; [done|]. by apply IH.
Qed.

(** A container after a run in which the template is written: memory takes
    the recommended request and limit if its change lies strictly between the
    thresholds, cpu the recommended request and no limit if its change does;
    otherwise the values stay.  Nothing else changes but for a resize policy,
    added where there was none. *)
Definition resized_as (s : Settings) (e : bool) (r : recommendation) (c c' : list (string * json)) : Prop :=
  let '(reqCPU, reqMem, limCPU, limMem) := containerResourceStrings c in
  containerResourceStrings c' = (match judge s (rc_cpuPct r) with Apply => rc_cpu r | _ => reqCPU end,
                                 match judge s (rc_memPct r) with Apply => rc_mem r | _ => reqMem end,
                                 match judge s (rc_cpuPct r) with Apply => "" | _ => limCPU end,
                                 match judge s (rc_memPct r) with Apply => rc_memLimit r | _ => limMem end) /\
  (forall k, k <> "resources" -> k <> "resizePolicy" -> assoc k c' = assoc k c) /\
  (assoc "resizePolicy" c' = assoc "resizePolicy" c \/
   e = true /\ assoc "resizePolicy" c = None /\ assoc "resizePolicy" c' = resizePolicyList (ResizePolicy s)).
Lemma resource_strings_mset k v c : k <> "resources" -> containerResourceStrings (mset k v c) = containerResourceStrings c.
Proof.
  intros Hk. unfold containerResourceStrings, get_obj, mget. rewrite assoc_mset. by rewrite decide_False.
Qed.
Lemma mhas_false k c : mhas (Some c) k = false -> assoc k c = None.
Proof. unfold mhas. intros Hn%bool_decide_eq_false. by destruct (assoc k c); [destruct Hn|]. Qed.

Lemma size_with_container s e c name r :
  let z := size_with s e c name r in
  resized_as s e r c (if sz_changed z then sz_container z else c) /\
  (sz_changed z = true <-> judge s (rc_memPct r) = Apply \/ judge s (rc_cpuPct r) = Apply).
Proof.
  cbv zeta. unfold resized_as, size_with. destruct (containerResourceStrings c) as [[[rc rm] lc] lm] eqn:Ec.
  cbn [sz_changed sz_container].
  set (ch := match judge s (rc_memPct r) with Apply => true | _ => _ end).
  assert (ch = true <-> judge s (rc_memPct r) = Apply \/ judge s (rc_cpuPct r) = Apply) as Hch
    by (unfold ch; destruct (judge s (rc_memPct r)), (judge s (rc_cpuPct r)); naive_solver).
  split; [|done]. destruct ch eqn:E; cbn [andb].
  - clear E. set (c1 := setContainerResources c _ _ _ _).
    pose proof (set_texts c (match judge s (rc_cpuPct r) with Apply => rc_cpu r | _ => rc end)
      (match judge s (rc_memPct r) with Apply => rc_mem r | _ => rm end)
      (match judge s (rc_cpuPct r) with Apply => "" | _ => lc end)
      (match judge s (rc_memPct r) with Apply => rc_memLimit r | _ => lm end)) as Ht. fold c1 in Ht.
    assert (forall k, k <> "resources" -> assoc k c1 = assoc k c) as Hf by apply set_other.
    destruct e; cbn [andb]; [|auto]. destruct (mhas (Some c1) "resizePolicy") eqn:Em; cbn [negb]; [auto|].
    destruct (resizePolicyList (ResizePolicy s)) as [rp|] eqn:Erp; [|auto].
    rewrite resource_strings_mset by done. split_and!; [done| |].
    + intros k H1 H2. rewrite assoc_mset, decide_False by done. by apply Hf.
    + right. rewrite assoc_mset, decide_True by done. split_and!; [done| |done]. apply mhas_false in Em. by rewrite Hf in Em.
  - rewrite Ec. split_and!; [|auto|auto].
    assert (judge s (rc_memPct r) <> Apply /\ judge s (rc_cpuPct r) <> Apply) as [H1 H2] by (split; intros ?; intuition congruence).
    by destruct (judge s (rc_memPct r)), (judge s (rc_cpuPct r)).
Qed.

(** *** The in-place resize *)
Section inplace.
Context {Obj : Type} (api : PodAPI).
Lemma patch_all_spec body pods : (patch_all (Obj := Obj) api body pods).1 = true ->
  (patch_all (Obj := Obj) api body pods).2 = map (fun p => PatchPod p body) pods /\
  Forall (fun p => patch_rejected api p body = false) pods.
Proof.
  induction pods as [|p pods IH]; simpl; [by split; constructor|].
  destruct (patch_rejected api p body) eqn:E; [done|].
  destruct (patch_all (Obj := Obj) api body pods) as [ok l]. simpl in *. intros Hok. destruct (IH Hok) as [-> Hf].
  split; [done|]. by constructor.
Qed.
Definition pod_done (k : nat) (p : string) : Prop :=
  exists conds, pod_conditions api k p = Some conds /\ resizeState conds = RDone.
Lemma poll_round_spec k pending rest p : poll_round api k pending = Some rest -> p ∈ pending -> p ∈ rest \/ pod_done k p.
Proof.
  revert rest. induction pending as [|q pending IH]; intros rest; cbn [poll_round]; [by intros _ ?%elem_of_nil|].
  intros Hr [->|Hp]%elem_of_cons.
  - destruct (pod_conditions api k q) as [conds|] eqn:Ec.
    + destruct (resizeState conds) eqn:Es; [right; by exists conds|done| |];
        destruct (poll_round api k pending); simpl in Hr; simplify_eq; left; by left.
    + destruct (poll_round api k pending); simpl in Hr; simplify_eq. left. by left.
  - assert (forall rest', poll_round api k pending = Some rest' -> (p ∈ rest' -> p ∈ rest) -> p ∈ rest \/ pod_done k p) as Hrec.
    { intros rest' Hr' Hin. destruct (IH rest' Hr' Hp); auto. }
    destruct (pod_conditions api k q) as [conds|].
    + destruct (resizeState conds); [by apply (Hrec rest)|done| |];
        (destruct (poll_round api k pending) as [rest'|]; simpl in Hr; [|done]; injection Hr as <-; apply (Hrec rest'); [done|by right]).
    + destruct (poll_round api k pending) as [rest'|]; simpl in Hr; [|done]. injection Hr as <-. apply (Hrec rest'); [done|by right].
Qed.
Lemma poll_spec rounds k pending : poll api rounds k pending = true ->
  forall p, p ∈ pending -> exists j, (k <= j < k + rounds)%nat /\ pod_done j p.
Proof.
  revert k pending. induction rounds as [|rounds IH]; intros k pending; cbn [poll]; [done|].
  destruct (poll_round api k pending) as [rest|] eqn:Er; [|done]. intros Hrun p Hp.
  destruct (poll_round_spec k pending rest p Er Hp) as [Hrest|Hd].
  - destruct rest as [|q rest]; [by apply elem_of_nil in Hrest|]. destruct (ctx_done api k); [done|].
    destruct (IH _ _ Hrun p Hrest) as (j & Hj & Hd). exists j. split; [lia|done].
  - exists k. split; [lia|done].
Qed.
(** Success means that every pod of the selector accepted the same patch and
    was seen done within the poll budget. *)
Lemma applyInPlace_true client labels targets patched : applyInPlace (Obj := Obj) api client labels targets = (true, patched) ->
  exists pods body, list_pods api (selector_text labels) = Ok pods /\ pods <> [] /\ buildResizePatch targets = Some body /\
    patched = map (fun p => PatchPod p body) pods /\
    Forall (fun p => patch_rejected api p body = false /\ exists k, (k < resizePollAttempts)%nat /\ pod_done k p) pods.
Proof.
  unfold applyInPlace. destruct targets as [|t targets]; [done|]. destruct client; [cbn [negb]|done].
  destruct labels as [|l labels]; [done|]. destruct (list_pods api _) as [[|p pods]|] eqn:El; try done.
  destruct (buildResizePatch (t :: targets)) as [body|] eqn:Eb; [|done].
  destruct (patch_all (Obj := Obj) api body (p :: pods)) as [ok l'] eqn:Ep. destruct ok; [|done]. intros Hpair.
  apply pair_equal_spec in Hpair as [Hpoll <-].
  pose proof (patch_all_spec body (p :: pods)) as Hs. rewrite Ep in Hs. destruct (Hs eq_refl) as [Hl Hf]. cbn [snd] in Hl. subst l'.
  exists (p :: pods), body. split_and!; try done. rewrite Forall_forall in Hf |- *. intros q Hq. split; [by apply Hf|].
  destruct (poll_spec _ _ _ Hpoll q Hq) as (j & Hj & Hd). exists j. split; [lia|done].
Qed.
Lemma applyInPlace_patches client labels targets : Forall (fun e => match e with PatchPod _ _ => True | UpdateWorkload _ => False end)
  (applyInPlace (Obj := Obj) api client labels targets).2.
Proof.
  assert (forall body ps, Forall (fun e => match e with PatchPod _ _ => True | UpdateWorkload _ => False end)
    (patch_all (Obj := Obj) api body ps).2) as Hp.
  { intros body ps. induction ps as [|q ps IH]; simpl; [constructor|]. destruct (patch_rejected api q body); [by repeat constructor|].
    destruct (patch_all api body ps) as [ok l]. simpl in *. by constructor. }
  unfold applyInPlace. destruct targets; [constructor|]. destruct client; [cbn [negb]|constructor]. destruct labels; [constructor|].
  destruct (list_pods api _) as [[|p0 pods]|]; try constructor. destruct (buildResizePatch _) as [body|]; [|constructor].
  specialize (Hp body (p0 :: pods)). by destruct (patch_all api body (p0 :: pods)) as [ok l].
Qed.
End inplace.

Section workload_facts.
Context (quote : string -> string) (other_float approx : string -> option float64) (prom : string -> result string).
Context {Obj : Type} `{Unstructured Obj}.
Context (match_labels : Obj -> list (string * string)) (stamp : Application -> string) (client : bool)
  (api : Application -> PodAPI) (get : Application -> result Obj) (update : Obj -> option string).
Notation rightsizeWorkload := (rightsizeWorkload quote other_float approx prom match_labels stamp client api get update).
Notation size_container := (size_container quote other_float approx prom).
Notation getResourceUsage := (getResourceUsage other_float quote prom).

Lemma writeAnnotation_slice now o id changes :
  nested_slice workloadContainerPath (writeAnnotation now o id changes) = nested_slice workloadContainerPath o.
Proof. unfold writeAnnotation. destruct (annotationValue now id changes); [by apply slice_annotations|done]. Qed.

(** A container against its usage. *)
Definition container_as (s : Settings) (app : Application) (e : bool) (raw raw' : json) : Prop :=
  match raw with
  | JObj c =>
    let '(reqCPU, reqMem, _, _) := containerResourceStrings c in
    exists stat, getResourceUsage s app (strField (Some c) "name") = Ok stat /\
      if hasData stat then exists c', raw' = JObj c' /\ resized_as s e (recommend approx s reqCPU reqMem stat) c c' else raw' = raw
  | _ => raw' = raw
  end.
Lemma size_container_as s app e raw rz : rz.1 = raw /\ size_container s app e raw = Ok rz.2 -> container_as s app e raw (resized rz).
Proof.
  destruct rz as [raw' z]. simpl. intros [-> Hz]. unfold resized, changed_sizing. simpl. destruct raw as [| | | | | |c|];
    simpl in *; try (injection Hz as <-; done). destruct (containerResourceStrings c) as [[[rc rm] lc] lm] eqn:Ec.
  destruct (getResourceUsage s app _) as [stat|]; [simpl in *|done]. injection Hz as <-. exists stat. split; [done|].
  destruct (hasData stat); [|done]. simpl.
  pose proof (proj1 (size_with_container s e c (strField (Some c) "name") (recommend approx s rc rm stat))) as Hw. simpl in Hw.
  destruct (sz_changed _); eexists; split; try done.
Qed.


(** Recommend-only runs do not touch the cluster. *)
Lemma recommend_only_reads s e apps : RecommendOnly s = true ->
  (run_apps quote other_float approx prom match_labels stamp client api get update s e apps).2 = [].
Proof.
  intros Hro. induction apps as [|app apps IH]; [done|]. cbn [run_apps].
  assert ((rightsizeWorkload s app e).2 = []) as Hw.
  { unfold Rightsize.rightsizeWorkload. repeat case_match; simplify_eq; try done; by rewrite Hro, andb_false_r in *. }
  destruct (rightsizeWorkload s app e) as [[r|] l]; simpl in Hw; subst l; [|done].
  by destruct (run_apps _ _ _ _ _ _ _ _ _ _ _ _ apps).
Qed.
End workload_facts.

(** ** Sample *)
Definition sample_amount (s : string) : option float64 :=
  if has_suffix s "Mi" then Some (f_of_Z (digits_value 0 (String.substring 0 (strlen s - 2) s) * 1024 * 1024))
  else if has_suffix s "m" then Some (f_div (f_of_Z (digits_value 0 (String.substring 0 (strlen s - 1) s))) (f_of_Z 1000))
  else ParseFloat (fun _ => None) s.
Definition sample_answer : string :=
  default "" (marshal (JObj [("status", JStr "success");
    ("data", JObj [("resultType", JStr "vector"); ("result", JArr [JObj [("value", JArr [JInt 0; JStr "0.15"])]])])])).
Definition sample_container : json :=
  JObj [("name", JStr "app"); ("resources", JObj [("requests", JObj [("cpu", JStr "100m"); ("memory", JStr "100Mi")])])].
Definition sample_object : plain :=
  MkPlain (fun p => if decide (p = workloadContainerPath) then Some [sample_container; JObj [("name", JStr "idle")]] else None) [].
Definition sample_settings : Settings :=
  match parseSettings (fun _ => None) (JObj [("identifier", JStr "run-1")]) with
  | Ok s => s
  | Err _ => MkSettings F64NaN F64NaN F64NaN F64NaN F64NaN F64NaN F64NaN 0 true false "" ""
  end.
Definition sample_api : PodAPI :=
  MkPodAPI (fun _ => Ok ["web-1"; "web-2"]) (fun _ _ => false)
    (fun k p => Some (if (k =? 0)%nat then [("PodResizeInProgress", "True", "")] else [])) (fun _ => false).
Definition sample_app : Application := MkApplication "web" "shop" "Deployment".
Definition sample_run (in_place : bool) : result json * list (effect plain) :=
  rightsizeWorkload id (fun _ => None) sample_amount (fun _ => Ok sample_answer) (fun _ => [("app", "web")]) (fun _ => "now") true
    (fun _ => sample_api) (fun _ => Ok sample_object) (fun _ => None) sample_settings sample_app in_place.
Example sample_effects :
  map (fun e => match e with PatchPod p _ => Some p | UpdateWorkload _ => None end) (sample_run true).2 = [Some "web-1"; Some "web-2"; None] /\
  map (fun e => match e with
                | PatchPod _ _ => None
                | UpdateWorkload o => head (default [] (pl_slices o workloadContainerPath)) ≫= fun c => Some (mget (as_obj c) "resources")
                end) (sample_run false).2
  = [Some (JObj [("requests", JObj [("cpu", JStr "150m"); ("memory", JStr "50Mi")]); ("limits", JObj [("memory", JStr "100Mi")])])].
Proof. vm_compute. split; reflexivity. Qed.
Definition sample_written : plain := match (sample_run true).2 with [_; _; UpdateWorkload o] => o | _ => sample_object end.
Lemma sample_update : UpdateWorkload sample_written ∈ (sample_run true).2.
Proof.
  unfold sample_written. pose proof (proj1 sample_effects) as E.
  destruct (sample_run true).2 as [|e1 [|e2 [|[] [|]]]]; simplify_eq/=. apply list_elem_of_In. simpl. auto.
Qed.
