(* ===== verification/KubeApi.v ===== *)
(** * Calls of the Kubernetes API

    An action that changes cluster objects is a computation that performs
    calls one after the other.  The server is any function from the calls made
    so far and the next one to an answer, so a theorem about an action covers
    every server and every concurrent writer.  The accessors of unstructured
    objects are a class; its laws are their documented behaviour. *)

From stdpp Require Import strings.
From S2P Require Import Prelude GoText GoJson.

#[local] Set Default Proof Using "Type".

(** The content of an object: a [map[string]any]. *)
Abbreviation obj := (list (string * json)).
Abbreviation gvr := (string * string * string)%type.
Record target := MkTarget { t_gvr : gvr; t_namespace : option string; t_name : string }.
Inductive patch_type := StrategicMergePatch | MergePatch.
Inductive call :=
  | Get (t : target)
  | List (r : gvr)
  | Create (t : target) (o : obj)
  | Update (t : target) (o : obj)
  | Delete (t : target) (background : bool) (grace : option Z)
  | Patch (t : target) (p : patch_type) (body : string).
Definition target_of (c : call) : option target :=
  match c with Get t | Create t _ | Update t _ | Delete t _ _ | Patch t _ _ => Some t | List _ => None end.
Definition is_read (c : call) : bool := match c with Get _ | List _ => true | _ => false end.

(** Errors: an API error with its reason, or an error of the code's own. *)
Inductive kube_error := NotFound (msg : string) | Conflict (msg : string) | AlreadyExists (msg : string) | Other (msg : string).
Definition error_text (e : kube_error) : string :=
  match e with NotFound m | Conflict m | AlreadyExists m | Other m => m end.
(** [fmt.Errorf("...: %w", err)] keeps the reason. *)
Definition wrapped (prefix : string) (e : kube_error) : kube_error :=
  match e with
  | NotFound m => NotFound (prefix +:+ m) | Conflict m => Conflict (prefix +:+ m)
  | AlreadyExists m => AlreadyExists (prefix +:+ m) | Other m => Other (prefix +:+ m)
  end.
Definition outcome (A : Type) : Type := kube_error + A.
Inductive answer := Answered (items : list obj) | Failed (e : kube_error).
Definition server := list call -> call -> answer.

(** ** Computations *)
Definition act (A : Type) : Type := server -> list call -> outcome A * list call.
Definition aret {A} (a : A) : act A := fun _ log => (inr a, log).
Definition afail {A} (e : kube_error) : act A := fun _ log => (inl e, log).
Definition abind {A B} (m : act A) (k : A -> act B) : act B := fun s log =>
  match m s log with
  | (inl e, log) => (inl e, log)
  | (inr a, log) => k a s log
  end.
(** The error as a value. *)
Definition atry {A} (m : act A) : act (outcome A) := fun s log => let '(r, log) := m s log in (inr r, log).
Definition awrap {A} (prefix : string) (m : act A) : act A := fun s log =>
  let '(r, log) := m s log in (match r with inl e => inl (wrapped prefix e) | inr a => inr a end, log).
Definition perform (c : call) : act (list obj) := fun s log =>
  (match s log c with Answered l => inr l | Failed e => inl e end, log ++ [c]).
(** Calls that answer with an object. *)
Definition perform1 (c : call) : act obj := abind (perform c) (fun l => aret (default [] (head l))).
Definition lift {A} (r : result A) : act A := match r with Ok a => aret a | Err e => afail (Other e) end.

Notation "'do!' x ':=' m 'in' k" := (abind m (fun x => k)) (at level 200, x binder, m at level 100, k at level 200, right associativity).

(** [only P m]: whatever the server answers, the calls [m] adds to the log
    satisfy [P]. *)
Definition only {A} (P : call -> Prop) (m : act A) : Prop := forall s log, exists l, (m s log).2 = log ++ l /\ Forall P l.
Lemma only_ret {A} P (a : A) : only P (aret a).
Proof. intros s log. exists []. by rewrite app_nil_r. Qed.
Lemma only_fail {A} P e : only P (afail (A := A) e).
Proof. intros s log. exists []. by rewrite app_nil_r. Qed.
Lemma only_perform (P : call -> Prop) c : P c -> only P (perform c).
Proof. intros Hc s log. exists [c]. split; [done|by constructor]. Qed.
Lemma only_bind {A B} P (m : act A) (k : A -> act B) : only P m -> (forall a, only P (k a)) -> only P (abind m k).
Proof.
  intros Hm Hk s log. unfold abind. destruct (Hm s log) as (l & El & Hl). destruct (m s log) as [[e|a] log']; simpl in *; subst; [by exists l|].
  destruct (Hk a s (log ++ l)) as (l' & -> & Hl'). exists (l ++ l'). by rewrite app_assoc, Forall_app.
Qed.
Lemma only_perform1 (P : call -> Prop) c : P c -> only P (perform1 c).
Proof. intros Hc. apply only_bind; [by apply only_perform|]. intros. apply only_ret. Qed.
Lemma only_try {A} P (m : act A) : only P m -> only P (atry m).
Proof. intros Hm s log. destruct (Hm s log) as (l & El & Hl). unfold atry. destruct (m s log). by exists l. Qed.
Lemma only_wrap {A} P p (m : act A) : only P m -> only P (awrap p m).
Proof. intros Hm s log. destruct (Hm s log) as (l & El & Hl). unfold awrap. destruct (m s log). by exists l. Qed.
Lemma only_lift {A} P (r : result A) : only P (lift r).
Proof. destruct r; [apply only_ret|apply only_fail]. Qed.
Lemma only_bind_lift {A B} P (r : result A) (k : A -> act B) : (forall a, r = Ok a -> only P (k a)) -> only P (abind (lift r) k).
Proof. intros Hk. destruct r as [a|msg]; [by apply Hk|]. apply (only_fail (A := B)). Qed.
Create HintDb calls.
#[export] Hint Resolve only_ret only_fail only_perform only_perform1 only_bind only_try only_wrap only_lift : calls.
(** Splits a computation at its binds and its case distinctions. *)
Ltac only_calls := repeat first [progress cbn beta iota | case_match | intros | apply only_ret | apply only_fail | apply only_lift
  | apply only_perform1 | apply only_perform | apply only_wrap | apply only_try | apply only_bind].

(** [fresh Q s log l]: in [l], made after [log], every update writes the
    object that the call right before it read, changed as [Q] says. *)
Inductive fresh (Q : obj -> obj -> Prop) (s : server) : list call -> list call -> Prop :=
  | fresh_nil log : fresh Q s log []
  | fresh_other log c l : (forall t o, c <> Update t o) -> fresh Q s (log ++ [c]) l -> fresh Q s log (c :: l)
  | fresh_edit log t items o l : s log (Get t) = Answered items -> Q (default [] (head items)) o ->
      fresh Q s (log ++ [Get t; Update t o]) l -> fresh Q s log (Get t :: Update t o :: l).
Lemma fresh_app Q s log l l' : fresh Q s log l -> fresh Q s (log ++ l) l' -> fresh Q s log (l ++ l').
Proof.
  induction 1 as [log|log c l Hc _ IH|log t items o l Hs HQ _ IH]; intros Hl; [by rewrite app_nil_r in Hl|..].
  - apply fresh_other; [done|]. apply IH. by rewrite <- app_assoc.
  - eapply fresh_edit; [done|done|]. apply IH. by rewrite <- app_assoc.
Qed.
Definition edits {A} (Q : obj -> obj -> Prop) (m : act A) : Prop :=
  forall s log, exists l, (m s log).2 = log ++ l /\ fresh Q s log l.
Lemma edits_ret {A} Q (a : A) : edits Q (aret a).
Proof. intros s log. exists []. rewrite app_nil_r. split; [done|constructor]. Qed.
Lemma edits_fail {A} Q e : edits Q (afail (A := A) e).
Proof. intros s log. exists []. rewrite app_nil_r. split; [done|constructor]. Qed.
Lemma edits_perform Q c : (forall t o, c <> Update t o) -> edits Q (perform c).
Proof. intros Hc s log. exists [c]. split; [done|]. apply fresh_other; [done|constructor]. Qed.
Lemma edits_bind {A B} Q (m : act A) (k : A -> act B) : edits Q m -> (forall a, edits Q (k a)) -> edits Q (abind m k).
Proof.
  intros Hm Hk s log. unfold abind. destruct (Hm s log) as (l & El & Hl). destruct (m s log) as [[e|a] log']; simpl in *; subst; [by exists l|].
  destruct (Hk a s (log ++ l)) as (l' & -> & Hl'). exists (l ++ l'). rewrite app_assoc. split; [done|by apply fresh_app].
Qed.
Lemma edits_try {A} Q (m : act A) : edits Q m -> edits Q (atry m).
Proof. intros Hm s log. destruct (Hm s log) as (l & El & Hl). unfold atry. destruct (m s log). by exists l. Qed.
Lemma edits_wrap {A} Q p (m : act A) : edits Q m -> edits Q (awrap p m).
Proof. intros Hm s log. destruct (Hm s log) as (l & El & Hl). unfold awrap. destruct (m s log). by exists l. Qed.
Lemma edits_lift {A} Q (r : result A) : edits Q (lift r).
Proof. destruct r; [apply edits_ret|apply edits_fail]. Qed.
Lemma edits_perform1 Q c : (forall t o, c <> Update t o) -> edits Q (perform1 c).
Proof. intros Hc. apply edits_bind; [by apply edits_perform|]. intros. apply edits_ret. Qed.
(** A read, and then either no further call or an update of what was read. *)
Definition reads (t : target) (rd : act obj) : Prop := forall s log,
  (rd s log).2 = log ++ [Get t] /\ forall e, (rd s log).1 = inr e -> exists items, s log (Get t) = Answered items /\ e = default [] (head items).
Lemma reads_get t : reads t (perform1 (Get t)).
Proof.
  intros s log. unfold perform1, perform, abind, aret. destruct (s log (Get t)) as [items|e]; simpl; split; try done.
  intros e [= <-]. by exists items.
Qed.
Lemma reads_wrap t p rd : reads t rd -> reads t (awrap p rd).
Proof.
  intros Hr s log. destruct (Hr s log) as [Hl He]. unfold awrap. destruct (rd s log) as [[err|e] log']; simpl in *; split; try done.
Qed.
Definition updates {A} (Q : obj -> obj -> Prop) (t : target) (e : obj) (m : act A) : Prop := forall s log, exists l, (m s log).2 = log ++ l /\
  (l = [] \/ exists o l', l = Update t o :: l' /\ Q e o /\ fresh Q s (log ++ [Update t o]) l').
Lemma read_then {A} Q t e s log (m : act A) items : s log (Get t) = Answered items -> e = default [] (head items) -> updates Q t e m ->
  exists l, (m s (log ++ [Get t])).2 = log ++ l /\ fresh Q s log l.
Proof.
  intros Hs -> Hm. destruct (Hm s (log ++ [Get t])) as (l & -> & [->|(o & l' & -> & HQ & Hl)]).
  - exists [Get t]. rewrite app_nil_r. split; [done|]. apply fresh_other; [done|constructor].
  - exists (Get t :: Update t o :: l'). rewrite <- app_assoc. split; [done|]. eapply fresh_edit; [done|done|]. by rewrite <- app_assoc in Hl.
Qed.
Lemma edits_read {A} Q t rd (k : obj -> act A) : reads t rd -> (forall e, updates Q t e (k e)) -> edits Q (abind rd k).
Proof.
  intros Hr Hk s log. destruct (Hr s log) as [Hl He]. unfold abind. destruct (rd s log) as [[err|e] log']; simpl in *; subst log'.
  - exists [Get t]. split; [done|]. apply fresh_other; [done|constructor].
  - destruct (He e eq_refl) as (items & Hs & Hi). by eapply read_then.
Qed.
Lemma edits_try_read {A} Q t rd (k : outcome obj -> act A) : reads t rd -> (forall e, updates Q t e (k (inr e))) -> (forall err, edits Q (k (inl err))) ->
  edits Q (abind (atry rd) k).
Proof.
  intros Hr Hk Hf s log. destruct (Hr s log) as [Hl He]. unfold abind, atry. destruct (rd s log) as [[err|e] log']; simpl in *; subst log'.
  - destruct (Hf err s (log ++ [Get t])) as (l & -> & Hl). exists (Get t :: l). rewrite <- app_assoc. split; [done|]. by apply fresh_other.
  - destruct (He e eq_refl) as (items & Hs & Hi). by eapply read_then.
Qed.
(** Ways to end with an update. *)
Lemma updates_none {A} Q t e (m : act A) : (forall s log, (m s log).2 = log) -> updates Q t e m.
Proof. intros Hm s log. exists []. rewrite Hm, app_nil_r. split; [done|by left]. Qed.
Lemma updates_lift {A B} Q t e (r : result A) (k : A -> act B) : (forall a, r = Ok a -> updates Q t e (k a)) -> updates Q t e (abind (lift r) k).
Proof. intros Hk s log. destruct r as [a|err]; [by apply (Hk a)|]. exists []. rewrite app_nil_r. split; [done|by left]. Qed.
Lemma updates_update {A B} Q t e o (g : act (list obj) -> act A) (k : A -> act B) : Q e o -> (forall m s log, (g m s log).2 = (m s log).2) ->
  (forall a, edits Q (k a)) -> updates Q t e (abind (g (perform (Update t o))) k).
Proof.
  intros HQ Hg Hk s log. unfold abind. pose proof (Hg (perform (Update t o)) s log) as Hl. simpl in Hl.
  destruct (g (perform (Update t o)) s log) as [[err|a] log']; simpl in *; subst log'.
  - exists [Update t o]. split; [done|]. right. exists o, []. split_and!; [done|done|constructor].
  - destruct (Hk a s (log ++ [Update t o])) as (l & -> & Hl). exists (Update t o :: l). rewrite <- app_assoc. split; [done|]. right. by exists o, l.
Qed.
Lemma updates_update1 {B} Q t e o (k : outcome obj -> act B) : Q e o -> (forall a, edits Q (k a)) -> updates Q t e (abind (atry (perform1 (Update t o))) k).
Proof.
  intros HQ Hk s log. unfold abind, atry, perform1, perform, abind, aret. destruct (s log (Update t o)) as [items|err]; simpl;
    (match goal with |- context [k ?a s ?lg] => destruct (Hk a s lg) as (l & -> & Hl) end;
     exists (Update t o :: l); rewrite <- app_assoc; split; [done|]; right; by exists o, l).
Qed.
Lemma updates_last Q t e o : Q e o -> updates Q t e (perform1 (Update t o)).
Proof.
  intros HQ s log. unfold perform1, perform, abind, aret. exists [Update t o].
  destruct (s log (Update t o)); (split; [done|right; exists o, []; split_and!; [done|done|constructor]]).
Qed.

(** ** Unstructured objects *)
Class Accessors := {
  set_gvk : gvr -> obj -> obj; set_name : string -> obj -> obj; set_namespace : string -> obj -> obj;
  set_resourceVersion : string -> obj -> obj;
  get_name : obj -> string; get_namespace : obj -> string; get_resourceVersion : obj -> string;
  labels_of : obj -> option (list (string * string)); set_labels : list (string * string) -> obj -> obj;
  nested_slice : list string -> obj -> result (option (list json)); set_nested_slice : list string -> list json -> obj -> result obj;
  nested_int64 : list string -> obj -> result (option Z); nested_string_map : list string -> obj -> result (option (list (string * string)));
  name_of_named n o : get_name (set_name n o) = n;
  namespace_of_named n o : get_namespace (set_name n o) = get_namespace o;
  name_of_spaced n o : get_name (set_namespace n o) = get_name o;
  namespace_of_spaced n o : get_namespace (set_namespace n o) = n;
  name_of_kinded g o : get_name (set_gvk g o) = get_name o;
  namespace_of_kinded g o : get_namespace (set_gvk g o) = get_namespace o;
  version_set v o : get_resourceVersion (set_resourceVersion v o) = v;
  name_of_versioned v o : get_name (set_resourceVersion v o) = get_name o;
  namespace_of_versioned v o : get_namespace (set_resourceVersion v o) = get_namespace o;
  slice_set p l o o' : set_nested_slice p l o = Ok o' -> nested_slice p o' = Ok (Some l);
  slice_labeled p ls o : head p = Some "spec" -> nested_slice p (set_labels ls o) = nested_slice p o;
  labels_set ls o : ls <> [] -> labels_of (set_labels ls o) = Some ls }.

(** ** Accessors on the maps themselves *)
Module Plain.
Definition sub (o : obj) (k : string) : obj := match assoc k o with Some (JObj m) => m | _ => [] end.
Definition set_in (a b : string) (v : json) (o : obj) : obj := mset a (JObj (mset b v (sub o a))) o.
Definition text (a b : string) (o : obj) : string := as_str (default JNull (assoc b (sub o a))).
Definition text_map (v : option json) : option (list (string * string)) :=
  match v with Some (JObj m) => Some (map (fun kv => (kv.1, as_str kv.2)) m) | _ => None end.
Fixpoint walk (p : list string) (v : json) : option json :=
  match p with [] => Some v | k :: p => match v with JObj m => v ← assoc k m; walk p v | _ => None end end.
Lemma sub_set a b v o : sub (set_in a b v o) a = mset b v (sub o a).
Proof. unfold sub, set_in. rewrite assoc_mset. by rewrite decide_True. Qed.
Lemma sub_set_other a a' b v o : a <> a' -> sub (set_in a b v o) a' = sub o a'.
Proof. intros Ha. unfold sub, set_in. rewrite assoc_mset. by rewrite decide_False. Qed.
Lemma text_set a b v o : text a b (set_in a b (JStr v) o) = v.
Proof. unfold text. rewrite sub_set, assoc_mset. by rewrite decide_True. Qed.
Lemma text_set_key a b b' v o : b <> b' -> text a b (set_in a b' v o) = text a b o.
Proof. intros Hb. unfold text. rewrite sub_set, assoc_mset. by rewrite decide_False. Qed.
Lemma text_set_other a a' b b' v o : a <> a' -> text a b (set_in a' b' v o) = text a b o.
Proof. intros Ha. unfold text. by rewrite sub_set_other. Qed.
Lemma text_mset a k b v o : a <> k -> text a b (mset k v o) = text a b o.
Proof. intros Ha. unfold text, sub. rewrite assoc_mset. by rewrite decide_False. Qed.
Definition set_slice (p : list string) (l : list json) (o : obj) : result obj :=
  match p with [a; b] => Ok (set_in a b (JArr l) o) | _ => Err "path" end.
Definition slice (p : list string) (o : obj) : result (option (list json)) :=
  Ok (match walk p (JObj o) with Some (JArr l) => Some l | _ => None end).
#[export] Instance accessors : Accessors.
Proof.
  refine {| set_gvk g o := mset "kind" (JStr g.2) (mset "apiVersion" (JStr (g.1.1 +:+ "/" +:+ g.1.2)) o);
            set_name n := set_in "metadata" "name" (JStr n); set_namespace n := set_in "metadata" "namespace" (JStr n);
            set_resourceVersion v := set_in "metadata" "resourceVersion" (JStr v);
            get_name := text "metadata" "name"; get_namespace := text "metadata" "namespace"; get_resourceVersion := text "metadata" "resourceVersion";
            labels_of o := text_map (assoc "labels" (sub o "metadata"));
            set_labels ls := set_in "metadata" "labels" (JObj (map (fun kv => (kv.1, JStr kv.2)) ls));
            nested_slice := slice; set_nested_slice := set_slice;
            nested_int64 p o := Ok (match walk p (JObj o) with Some (JInt z) => Some z | _ => None end);
            nested_string_map p o := Ok (text_map (walk p (JObj o))) |}; intros.
  all: try (by rewrite ?text_set, ?text_set_key, ?text_mset by done).
  - destruct p as [|a [|b [|]]]; simplify_eq/=. unfold slice. simpl. unfold set_in. rewrite assoc_mset, decide_True by done. simpl.
    rewrite assoc_mset, decide_True by done. done.
  - destruct p as [|a p]; simplify_eq/=. unfold slice. simpl. unfold set_in. rewrite assoc_mset, decide_False by done. done.
  - rewrite sub_set, assoc_mset, decide_True by done. simpl. f_equal. rewrite map_map. simpl.
    match goal with H : _ <> [] |- _ => clear H end. by induction ls as [|[] ls IH]; [|simpl; f_equal].
Defined.
End Plain.
