(* ===== verification/Workload.v ===== *)
(** * Workload mutations (pkg/mutate/workload.go, replica.go, mutate.go)

    Creating, replacing, deleting, scaling and restarting workloads, deleting
    pods and jobs, cordoning nodes.  Every operation is a computation over
    the calls it makes. *)

From stdpp Require Import strings.
From S2P Require Import Prelude GoText GoJson GoStruct CanonJson GoMarshal GoFloat KubeApi.

#[local] Set Default Proof Using "Type".

(** ** Kinds (workload.go, replica.go) *)
Record workloadKindEntry := MkKind { k_gvr : gvr; k_namespaced : bool; k_expected : string }.
Definition supportedWorkloadKinds : list (string * workloadKindEntry) :=
  [("Deployment", MkKind ("apps", "v1", "deployments") true "Deployment");
   ("DaemonSet", MkKind ("apps", "v1", "daemonsets") true "DaemonSet");
   ("StatefulSet", MkKind ("apps", "v1", "statefulsets") true "StatefulSet");
   ("ReplicaSet", MkKind ("apps", "v1", "replicasets") true "ReplicaSet");
   ("Rollout", MkKind ("argoproj.io", "v1alpha1", "rollouts") true "Rollout");
   ("NodePool", MkKind ("karpenter.sh", "v1", "nodepools") false "NodePool");
   ("EC2NodeClass", MkKind ("karpenter.k8s.aws", "v1", "ec2nodeclasses") false "EC2NodeClass")].
(** The loop over the map; no two keys are equal up to case. *)
Definition resolveWorkloadKind (kind : string) : option (string * workloadKindEntry) :=
  List.find (fun ke => fold_equal ke.1 kind) supportedWorkloadKinds.
Definition scalableWorkloadGVRs : list (string * gvr) :=
  [("deployment", ("apps", "v1", "deployments")); ("statefulset", ("apps", "v1", "statefulsets"));
   ("rollout", ("argoproj.io", "v1alpha1", "rollouts"))].
Definition pods : gvr := ("", "v1", "pods").
Definition jobs : gvr := ("batch", "v1", "jobs").
Definition nodes : gvr := ("", "v1", "nodes").
Definition group_version_kind (e : workloadKindEntry) : gvr := let '(g, v, _) := k_gvr e in (g, v, k_expected e).

Definition str (m : gomap) (k : string) : string := get_str m k.
Definition empty (s : string) : bool := bool_decide (s = "").
(** [name] or [namespace/name]. *)
Definition location (namespace name : string) : string := if empty namespace then name else namespace +:+ "/" +:+ name.
(** [ri.Namespace(namespace)] or [ri]. *)
Definition workload_target (e : workloadKindEntry) (namespace name : string) : target :=
  MkTarget (k_gvr e) (if k_namespaced e then Some namespace else None) name.

Section actions.
(** [%q]; whether the typed and the dynamic client are set; the clock's text. *)
Context (quote : string -> string) (client dynamic : bool) (now : string).
Context `{Accessors}.
Definition err {A} (msg : string) : act A := afail (Other msg).
Definition no_dynamic {A} : act A := err "mutate: dynamic client not configured".
Definition no_client {A} : act A := err "mutate: client not configured".

(** The body of a request as an object: a string is parsed, anything else
    is marshalled first; the decoder's text is left out. *)
Definition unstructuredFromBody (body : json) : result obj :=
  let parsed raw := match unmarshal_map raw with Some o => Ok (default [] o) | None => Err "unmarshal body: " end in
  match body with
  | JNull => Err "mutate: replace body required"
  | JStr s => parsed s
  | v => match marshal v with Some raw => parsed raw | None => Err "marshal body: " end
  end.

Definition DeleteWorkload (kind namespace name : string) : act json :=
  if negb dynamic then no_dynamic
  else if empty name then err "mutate: name required"
  else match resolveWorkloadKind kind with
  | None => err ("mutate: delete_workload not supported for kind " +:+ quote kind)
  | Some (canonical, entry) =>
    if k_namespaced entry && empty namespace then err ("mutate: namespace required for " +:+ canonical)
    else do! _ := awrap ("mutate: delete " +:+ canonical +:+ "/" +:+ name +:+ ": ")
                    (perform (Delete (workload_target entry namespace name) true None)) in
      aret (JObj [("success", JBool true); ("message", JStr (canonical +:+ "/" +:+ location namespace name +:+ " deleted"))])
  end.
Definition CreateWorkload (kind namespace name : string) (body : json) : act json :=
  if negb dynamic then no_dynamic
  else match resolveWorkloadKind kind with
  | None => err ("mutate: create_workload not supported for kind " +:+ quote kind)
  | Some (canonical, entry) =>
    if k_namespaced entry && empty namespace then err ("mutate: namespace required for " +:+ canonical)
    else
      do! u := lift (unstructuredFromBody body) in
      let u := set_gvk (group_version_kind entry) u in
      let u := if empty name then u else set_name name u in
      let u := if k_namespaced entry then set_namespace namespace u else u in
      do! created := awrap ("mutate: create " +:+ canonical +:+ "/" +:+ get_name u +:+ ": ")
                       (perform1 (Create (workload_target entry namespace (get_name u)) u)) in
      aret (JObj created)
  end.
Definition ReplaceWorkload (kind namespace name : string) (body : json) : act json :=
  if negb dynamic then no_dynamic
  else if empty name then err "mutate: name required"
  else match assoc kind supportedWorkloadKinds with
  | None => err ("mutate: replace_workload not supported for kind " +:+ quote kind)
  | Some entry =>
    if k_namespaced entry && empty namespace then err ("mutate: namespace required for " +:+ kind)
    else
      do! u := lift (unstructuredFromBody body) in
      let u := set_name name (set_gvk (group_version_kind entry) u) in
      let u := if k_namespaced entry then set_namespace namespace u else u in
      do! existing := awrap ("mutate: get existing " +:+ kind +:+ "/" +:+ name +:+ ": ")
                        (perform1 (Get (workload_target entry namespace name))) in
      let u := set_resourceVersion (get_resourceVersion existing) u in
      do! updated := awrap ("mutate: replace " +:+ kind +:+ "/" +:+ name +:+ ": ")
                       (perform1 (Update (workload_target entry namespace name) u)) in
      aret (JObj updated)
  end.

(** ** Scaling *)
Definition currentReplicas (g : gvr) (namespace name : string) : act (option Z) :=
  do! got := atry (perform1 (Get (MkTarget g (Some namespace) name))) in
  aret (match got with
        | inl _ => None
        | inr o => match nested_int64 ["spec"; "replicas"] o with Err _ => None | Ok None => Some 1 | Ok (Some n) => Some n end
        end).
Definition ScaleWorkload (kind namespace name : string) (replicas : Z) : act json :=
  if negb dynamic then no_dynamic
  else if empty namespace || empty name then err "mutate: namespace and name required"
  else if replicas <? 0 then err ("mutate: replica_count must be >= 0, got " +:+ itoa replicas)
  else match assoc (to_lower kind) scalableWorkloadGVRs with
  | None => err ("replica_rightsizing: unsupported kind " +:+ quote kind +:+ " (Deployment|StatefulSet|Rollout)")
  | Some g =>
    do! previous := currentReplicas g namespace name in
    let where_ := kind +:+ "/" +:+ namespace +:+ "/" +:+ name in
    do! updated := awrap ("mutate: scale " +:+ where_ +:+ " to " +:+ itoa replicas +:+ ": ")
      (perform1 (Patch (MkTarget g (Some namespace) name) MergePatch
                   ("{" +:+ dquote +:+ "spec" +:+ dquote +:+ ":{" +:+ dquote +:+ "replicas" +:+ dquote +:+ ":" +:+ itoa replicas +:+ "}}"))) in
    aret (JObj ([("success", JBool true); ("message", JStr (where_ +:+ " scaled to " +:+ itoa replicas +:+ " replicas"));
                 ("updated", JObj updated)]
                ++ match previous with Some n => [("previous_replicas", JInt n)] | None => [] end))
  end.
Definition toInt64 (v : json) : option Z :=
  match v with
  | JFloat f => Some (f_to_int f)
  | JInt n => Some n
  | JStr s => let s := trim_space s in if empty s then None else atoi s
  | _ => None
  end.

(** ** Pods, jobs, nodes, restarts (mutate.go) *)
Definition DeletePod (namespace name : string) (gracePeriodSec : option Z) : act unit :=
  if negb client then no_client
  else if empty namespace || empty name then err "mutate: namespace and name required"
  else do! _ := perform (Delete (MkTarget pods (Some namespace) name) false gracePeriodSec) in aret tt.
Definition DeleteJob (namespace name : string) : act unit :=
  if negb client then no_client
  else if empty namespace || empty name then err "mutate: namespace and name required"
  else do! _ := perform (Delete (MkTarget jobs (Some namespace) name) true None) in aret tt.
(** The text of a map with one key. *)
Definition one_key (k v : string) : string := "{" +:+ dquote +:+ k +:+ dquote +:+ ":" +:+ v +:+ "}".
Definition setUnschedulable (nodeName : string) (unschedulable : bool) : act unit :=
  if negb client then no_client
  else if empty nodeName then err "mutate: node name required"
  else do! _ := perform (Patch (MkTarget nodes None nodeName) StrategicMergePatch
                           (one_key "spec" (one_key "unschedulable" (if unschedulable then "true" else "false")))) in aret tt.
Definition Cordon (nodeName : string) : act unit := setUnschedulable nodeName true.
Definition Uncordon (nodeName : string) : act unit := setUnschedulable nodeName false.
Definition restartable : list (string * gvr) :=
  [("deployment", ("apps", "v1", "deployments")); ("statefulset", ("apps", "v1", "statefulsets")); ("daemonset", ("apps", "v1", "daemonsets"))].
Definition RolloutRestart (kind namespace name : string) : act unit :=
  if negb client then no_client
  else if empty kind || empty namespace || empty name then err "mutate: kind, namespace, name required"
  else
    let patch := one_key "spec" (one_key "template" (one_key "metadata" (one_key "annotations"
                   (one_key "kubectl.kubernetes.io/restartedAt" (quote now))))) in
    match assoc (to_lower kind) restartable with
    | Some g => do! _ := perform (Patch (MkTarget g (Some namespace) name) StrategicMergePatch patch) in aret tt
    | None =>
      if bool_decide (to_lower kind = "rollout") then
        if negb dynamic then err "mutate: dynamic client not configured (required for rollout restart)"
        else do! _ := perform (Patch (MkTarget ("argoproj.io", "v1alpha1", "rollouts") (Some namespace) name) MergePatch
                                 (one_key "spec" (one_key "restartAt" (quote now)))) in aret tt
      else err ("mutate: unsupported kind " +:+ quote kind +:+ " (deployment|statefulset|daemonset|rollout)")
    end.
End actions.

(** ** Scope of the calls *)
Lemma resolve_assoc kind entry : assoc kind supportedWorkloadKinds = Some entry -> resolveWorkloadKind kind = Some (kind, entry).
Proof.
  intros Ha%assoc_In. unfold supportedWorkloadKinds in Ha. repeat (apply elem_of_cons in Ha as [[= -> ->]|Ha]; [vm_compute; reflexivity|]).
  by apply elem_of_nil in Ha.
Qed.
Section scope.
Context (quote : string -> string) (dynamic : bool) `{Accessors}.
(** A call on the resource of the kind, in the given namespace if it has
    one, and under the given name; an object that is written bears both. *)
Definition in_scope (kind namespace name : string) (c : call) : Prop := exists canonical entry t,
  resolveWorkloadKind kind = Some (canonical, entry) /\ target_of c = Some t /\ t_gvr t = k_gvr entry /\
  t_namespace t = (if k_namespaced entry then Some namespace else None) /\ (k_namespaced entry = true -> namespace <> "") /\
  (name <> "" -> t_name t = name) /\
  match c with
  | Create _ o | Update _ o => get_name o = t_name t /\ (k_namespaced entry = true -> get_namespace o = namespace)
  | Get _ => True
  | Delete _ background _ => background = true
  | _ => False
  end.
Lemma nonempty s : empty s = false -> s <> "".
Proof. by intros ?%bool_decide_eq_false. Qed.

(** Workload mutations stay where they were sent.  For every server, each
    call that deleting, creating or replacing a workload makes is on the
    resource of a supported kind, the one the request names in any case, in
    the requested namespace (which a namespaced kind requires) and under the
    requested name; what is written bears that name and namespace, whatever
    the manifest in the request says. *)
Theorem workload_calls_scoped kind namespace name body :
  only (in_scope kind namespace name) (DeleteWorkload quote dynamic kind namespace name) /\
  only (in_scope kind namespace name) (CreateWorkload quote dynamic kind namespace name body) /\
  only (in_scope kind namespace name) (ReplaceWorkload quote dynamic kind namespace name body).
Proof.
  assert (forall canonical entry t c, resolveWorkloadKind kind = Some (canonical, entry) ->
    (k_namespaced entry && empty namespace = false) -> t = workload_target entry namespace (t_name t) -> (name <> "" -> t_name t = name) ->
    target_of c = Some t ->
    match c with
    | Create _ o | Update _ o => get_name o = t_name t /\ (k_namespaced entry = true -> get_namespace o = namespace)
    | Get _ => True | Delete _ background _ => background = true | _ => False
    end -> in_scope kind namespace name c) as Hin.
  { intros canonical entry t c Hk Hns Ht Hname Htc Hc. exists canonical, entry, t. split_and!; [done|done|by rewrite Ht|by rewrite Ht| |done|done].
    intros Hnsd. rewrite Hnsd in Hns. by apply nonempty. }
  split_and!.
  - unfold DeleteWorkload. case_match; [apply only_fail|]. case_match; [apply only_fail|].
    destruct (resolveWorkloadKind kind) as [[canonical entry]|] eqn:Ek; [|apply only_fail]. case_match eqn:Ens; [apply only_fail|].
    apply only_bind; [|intros; apply only_ret]. apply only_wrap, only_perform. by apply (Hin _ _ (workload_target entry namespace name) _ eq_refl Ens).
  - unfold CreateWorkload. case_match; [apply only_fail|].
    destruct (resolveWorkloadKind kind) as [[canonical entry]|] eqn:Ek; [|apply only_fail]. case_match eqn:Ens; [apply only_fail|].
    apply only_bind; [apply only_lift|]. intros u. cbv zeta. apply only_bind; [|intros; apply only_ret]. apply only_wrap, only_perform1.
    set (u1 := if empty name then _ else _). set (u2 := if k_namespaced entry then _ else _).
    apply (Hin _ _ (workload_target entry namespace (get_name u2)) _ eq_refl Ens); [done| |done|].
    + cbn. intros Hne. unfold u2. assert (get_name u1 = name) as E.
      { unfold u1, empty. rewrite bool_decide_eq_false_2 by done. apply name_of_named. }
      destruct (k_namespaced entry); [by rewrite name_of_spaced|done].
    + cbn. split; [done|]. intros Hnsd. unfold u2. rewrite Hnsd. apply namespace_of_spaced.
  - unfold ReplaceWorkload. case_match; [apply only_fail|]. case_match eqn:Hn; [apply only_fail|].
    destruct (assoc kind supportedWorkloadKinds) as [entry|] eqn:Ek; [|apply only_fail]. apply resolve_assoc in Ek. case_match eqn:Ens; [apply only_fail|].
    apply only_bind; [apply only_lift|]. intros u. cbv zeta. apply only_bind.
    { apply only_wrap, only_perform1. by apply (Hin _ _ (workload_target entry namespace name) _ Ek Ens). }
    intros existing. apply only_bind; [|intros; apply only_ret]. apply only_wrap, only_perform1.
    apply (Hin _ _ (workload_target entry namespace name) _ Ek Ens); [done|done|done|]. cbn. rewrite name_of_versioned, namespace_of_versioned. split.
    + destruct (k_namespaced entry); rewrite ?name_of_spaced; apply name_of_named.
    + intros ->. apply namespace_of_spaced.
Qed.
End scope.

(** ** Concurrent writers and undo *)
Section effects.
Context (quote : string -> string) `{Accessors}.
(** A replacement carries the version of the object read right before it, not
    the one of the manifest: an edit made since the manifest was read is
    overwritten without a conflict. *)
Lemma replace_overwrites_concurrent_edit dynamic kind namespace name body :
  edits (fun e o => get_resourceVersion o = get_resourceVersion e) (ReplaceWorkload quote dynamic kind namespace name body).
Proof.
  unfold ReplaceWorkload. repeat (case_match; [apply edits_fail|]). case_match; [|apply edits_fail]. case_match; [apply edits_fail|].
  apply edits_bind; [apply edits_lift|]. intros u. cbv zeta.
  match goal with |- edits _ (abind (awrap _ (perform1 (Get ?t))) _) => apply (edits_read _ t) end; [apply reads_wrap, reads_get|].
  intros e s log. unfold abind, awrap, perform1, perform, abind, aret.
  match goal with |- context [Update ?t ?o] => exists [Update t o]; destruct (s log (Update t o));
    (split; [done|right; exists o, []; split_and!; [done|apply version_set|constructor]]) end.
Qed.

(** What scaling relies on: [replicas], the field in the state after the
    calls so far, is what a read finds, and a patch sets it. *)
Record scaling_server (s : server) (t : target) (replicas : list call -> option Z) : Prop := {
  sv_read log : exists o items, s log (Get t) = Answered (o :: items) /\ nested_int64 ["spec"; "replicas"] o = Ok (replicas log);
  sv_patch log n : is_Some (match s log (Patch t MergePatch (one_key "spec" (one_key "replicas" (itoa n)))) with Answered l => Some l | _ => None end) ->
    replicas (log ++ [Patch t MergePatch (one_key "spec" (one_key "replicas" (itoa n)))]) = Some n;
  sv_get log : replicas (log ++ [Get t]) = replicas log }.
(** The number that runs: the API server's default is one. *)
Definition running (r : option Z) : Z := default 1 r.
Lemma current_replicas s g namespace name replicas log : scaling_server s (MkTarget g (Some namespace) name) replicas ->
  currentReplicas g namespace name s log = (inr (Some (running (replicas log))), log ++ [Get (MkTarget g (Some namespace) name)]).
Proof.
  intros Hs. unfold currentReplicas, atry, perform1, perform, abind, aret. destruct (sv_read _ _ _ Hs log) as (o & items & -> & Ho).
  simpl. rewrite Ho. by destruct (replicas log).
Qed.
Lemma one_key_spec v : one_key "spec" (one_key "replicas" v) =
  "{" +:+ dquote +:+ "spec" +:+ dquote +:+ ":{" +:+ dquote +:+ "replicas" +:+ dquote +:+ ":" +:+ v +:+ "}}".
Proof.
  unfold one_key. replace (":{" : string) with (":" +:+ "{") by done. replace ("}}" : string) with ("}" +:+ "}") by done.
  by rewrite !sapp_assoc.
Qed.
Lemma scale_result s t replicas kind namespace name n log r log' g :
  assoc (to_lower kind) scalableWorkloadGVRs = Some g -> t = MkTarget g (Some namespace) name -> scaling_server s t replicas ->
  ScaleWorkload quote true kind namespace name n s log = (inr r, log') ->
  replicas log' = Some n /\ mget (as_obj r) "previous_replicas" = JInt (running (replicas log)) /\ 0 <= n /\ empty namespace = false /\ empty name = false.
Proof.
  intros Hg -> Hs. unfold ScaleWorkload. cbn [negb]. destruct (empty namespace || empty name) eqn:Ee; [done|]. apply orb_false_elim in Ee as [-> ->].
  destruct (Z.ltb_spec n 0); [done|]. rewrite Hg. unfold abind at 1. rewrite (current_replicas s g namespace name replicas log Hs). cbv beta iota.
  unfold awrap, perform1, perform, abind, aret. rewrite <- one_key_spec.
  pose proof (sv_patch _ _ _ Hs (log ++ [Get (MkTarget g (Some namespace) name)]) n) as Hp.
  destruct (s _ (Patch _ _ _)) as [l|e] eqn:Ep; [|done]. intros [= <- <-]. split_and!; [apply Hp; by eexists|done|lia|done|done].
Qed.
(** Scaling with the reported previous count restores what ran. *)
Lemma scaling_undone s t replicas kind namespace name n log r log1 r2 log2 p g :
  assoc (to_lower kind) scalableWorkloadGVRs = Some g -> t = MkTarget g (Some namespace) name -> scaling_server s t replicas ->
  ScaleWorkload quote true kind namespace name n s log = (inr r, log1) ->
  toInt64 (mget (as_obj r) "previous_replicas") = Some p ->
  ScaleWorkload quote true kind namespace name p s log1 = (inr r2, log2) -> running (replicas log2) = running (replicas log).
Proof.
  intros Hg Ht Hs H1 Hp H2. apply (scale_result s t replicas _ _ _ _ _ _ _ g Hg Ht Hs) in H1 as (_ & Hr & _).
  rewrite Hr in Hp. injection Hp as <-. by apply (scale_result s t replicas _ _ _ _ _ _ _ g Hg Ht Hs) in H2 as (-> & _).
Qed.
End effects.
(** A fraction is cut off, not refused. *)
Example toInt64_truncates : toInt64 (JFloat (f_div (f_of_Z 5) (f_of_Z 2))) = Some 2.
Proof. vm_compute. reflexivity. Qed.
