(* ===== verification/AlertRules.v ===== *)
(** * Prometheus alert rules (pkg/mutate/alertrules.go, promruleselector.go)

    Single rules are edited inside a PrometheusRule object that other writers
    share: each edit is a read and a write, repeated when the write meets a
    conflict. *)

From stdpp Require Import strings sorting.
From S2P Require Import Prelude GoText GoJson GoStruct GoMarshal KubeApi Workload.

#[local] Set Default Proof Using "Type".

Definition prometheusRuleGVR : gvr := ("monitoring.coreos.com", "v1", "prometheusrules").
Definition prometheusGVR : gvr := ("monitoring.coreos.com", "v1", "prometheuses").
Definition LegacyAlertRuleCRDName : string := "nudgebee-prometheus.rules".
Definition LegacyAlertRuleGroupName : string := "kubernetes-apps".
Definition LegacyAlertRuleLabelKey : string := "release.app".
Definition LegacyAlertRuleLabelValue : string := "nudgebee-resource-management".
Record LegacyAlertRuleParams := MkParams {
  ar_Alert : string; ar_Expr : string; ar_Duration : string; ar_Annotations : gomap; ar_Labels : gomap }.
Record AlertRuleLocator := MkLocator { loc_Namespace : string; loc_Name : string; loc_Group : string; loc_Alert : string }.
Definition of_map (m : gomap) : json := match m with Some m => JObj m | None => JNull end.

(** ** The edits of [spec.groups] *)
Definition groups_path : list string := ["spec"; "groups"].
Definition is_rule (alert : string) (raw : json) : bool :=
  match raw with JObj r => bool_decide (str (Some r) "alert" = alert) | _ => false end.
(** The first rule of that name in a list; [None]: there is none. *)
Fixpoint replace_first (alert : string) (rule : json) (rules : list json) : option (list json) :=
  match rules with
  | [] => None
  | raw :: rules => if is_rule alert raw then Some (rule :: rules) else rules' ← replace_first alert rule rules; Some (raw :: rules')
  end.
Fixpoint replaceLegacyRuleInPlace (groups : list json) (alert : string) (rule : json) : option (list json) :=
  match groups with
  | [] => None
  | JObj g :: groups =>
    match replace_first alert rule (get_arr (Some g) "rules") with
    | Some rules => Some (JObj (mset "rules" (JArr rules) g) :: groups)
    | None => groups' ← replaceLegacyRuleInPlace groups alert rule; Some (JObj g :: groups')
    end
  | raw :: groups => groups' ← replaceLegacyRuleInPlace groups alert rule; Some (raw :: groups')
  end.
Definition append_first (groups : list json) (rule : json) : list json :=
  match groups with
  | [] => [JObj [("name", JStr LegacyAlertRuleGroupName); ("rules", JArr [rule])]]
  | first :: groups =>
    let g := match first with JObj g => g | _ => [("name", JStr LegacyAlertRuleGroupName)] end in
    JObj (mset "rules" (JArr (get_arr (Some g) "rules" ++ [rule])) g) :: groups
  end.
(** The groups of [CreateOrReplaceAlertRule]. *)
Definition put_rule (groups : list json) (alert : string) (rule : json) : list json :=
  default (append_first groups rule) (replaceLegacyRuleInPlace groups alert rule).
(** The groups of [DeleteAlertRule], and whether there was such a rule. *)
Definition without_rule (alert : string) (raw : json) : json :=
  match raw with
  | JObj g => JObj (mset "rules" (JArr (List.filter (fun r => negb (is_rule alert r)) (get_arr (Some g) "rules"))) g)
  | _ => raw
  end.
Definition has_rule (alert : string) (raw : json) : bool :=
  match raw with JObj g => existsb (is_rule alert) (get_arr (Some g) "rules") | _ => false end.

Definition ruleMatch := (nat * nat)%type.
Definition in_group (loc : AlertRuleLocator) (raw : json) : list json :=
  match raw with
  | JObj g => if negb (empty (loc_Group loc)) && negb (bool_decide (str (Some g) "name" = loc_Group loc)) then []
              else get_arr (Some g) "rules"
  | _ => []
  end.
Definition rule_matches (loc : AlertRuleLocator) (gi : nat) (rules : list json) : list ruleMatch :=
  concat (imap (fun ri r => if is_rule (loc_Alert loc) r then [(gi, ri)] else []) rules).
Definition findLocatedRules (groups : list json) (loc : AlertRuleLocator) : list ruleMatch :=
  concat (imap (fun gi raw => rule_matches loc gi (in_group loc raw)) groups).
(** [f] on the rules of the [gi]th group. *)
Definition on_rules (f : list json -> list json) (raw : json) : json :=
  match raw with JObj g => JObj (mset "rules" (JArr (f (get_arr (Some g) "rules"))) g) | _ => raw end.
Definition patched_rule (p : LegacyAlertRuleParams) (raw : json) : json :=
  match raw with
  | JObj r => let r := mset "expr" (JStr (ar_Expr p)) r in
              JObj (if empty (ar_Duration p) then r else mset "for" (JStr (ar_Duration p)) r)
  | _ => raw
  end.
Fixpoint appendRuleToGroup (groups : list json) (name : string) (rule : json) : list json :=
  match groups with
  | [] => [JObj [("name", JStr name); ("rules", JArr [rule])]]
  | JObj g :: groups =>
    if bool_decide (str (Some g) "name" = name) then on_rules (fun l => l ++ [rule]) (JObj g) :: groups
    else JObj g :: appendRuleToGroup groups name rule
  | raw :: groups => raw :: appendRuleToGroup groups name rule
  end.

(** ** The operations *)
Section actions.
Context (dynamic : bool) (Namespace : string) `{Accessors}.
(** [retry.RetryOnConflict]: the function is run again after a conflict, some
    finite number of times.  [conflict_text] is the message of a conflict made
    from another error. *)
Inductive retried {A} (fn : act A) (s : server) : list call -> outcome A -> list call -> Prop :=
  | retried_last log : retried fn s log (fn s log).1 (fn s log).2
  | retried_again log log' m r log'' : fn s log = (inl (Conflict m), log') -> retried fn s log' r log'' -> retried fn s log r log''.
Context (conflict_text : string -> string) (RetryOnConflict : forall A, act A -> act A).
Definition rule_target (namespace name : string) : target := MkTarget prometheusRuleGVR (Some namespace) name.
Definition no_namespace {A} : act A := err "mutate: agent namespace not configured (set INSTALLATION_NAMESPACE)".

Definition CreateOrReplacePrometheusRule (rule : json) : act json :=
  if negb dynamic then no_dynamic
  else match marshal rule with
  | None => err "marshal: "
  | Some body =>
    match unmarshal_map body with
    | None => err "unmarshal: "
    | Some u =>
      let u := default [] u in
      if empty (get_name u) || empty (get_namespace u) then err "mutate: rule.metadata.name and namespace are required"
      else
        let u := set_gvk ("monitoring.coreos.com", "v1", "PrometheusRule") u in
        let t := rule_target (get_namespace u) (get_name u) in
        do! existing := atry (perform1 (Get t)) in
        match existing with
        | inl (NotFound _) => do! created := perform1 (Create t u) in aret (JObj created)
        | inl e => afail e
        | inr existing => do! updated := perform1 (Update t (set_resourceVersion (get_resourceVersion existing) u)) in aret (JObj updated)
        end
    end
  end.
Definition DeletePrometheusRule (namespace name : string) : act unit :=
  if negb dynamic then no_dynamic
  else if empty namespace || empty name then err "mutate: namespace and name required"
  else do! r := atry (perform (Delete (rule_target namespace name) false None)) in
       match r with inl (NotFound _) => aret tt | inl e => afail e | inr _ => aret tt end.

(** [ruleSelectorLabels]: the selector of the first Prometheus in the order
    own namespace first, then namespace and name. *)
Definition local_first (o : obj) : bool := bool_decide (get_namespace o = Namespace).
Definition prometheus_le (a b : obj) : Prop :=
  let key o := (if local_first o then "0" else "1") in
  if decide (key a = key b) then
    if decide (get_namespace a = get_namespace b) then String.le (get_name a) (get_name b)
    else String.le (get_namespace a) (get_namespace b)
  else key a = "0".
#[global] Instance prometheus_le_dec : RelDecision prometheus_le.
Proof. intros a b. unfold prometheus_le. repeat case_decide; apply _. Defined.
Definition selector_of (o : obj) : option (list (string * string)) :=
  match nested_string_map ["spec"; "ruleSelector"; "matchLabels"] o with Ok (Some (l :: ls)) => Some (l :: ls) | _ => None end.
Definition ruleSelectorLabels : act (list (string * string)) :=
  if negb dynamic then aret []
  else do! listed := atry (perform (List prometheusGVR)) in
       aret (match listed with
             | inl _ => []
             | inr items => default [] (head (omap selector_of (merge_sort prometheus_le items)))
             end).
Definition add_missing (labels selectorLabels : list (string * string)) : list (string * string) :=
  foldl (fun ls kv => if bool_decide (is_Some (assoc kv.1 ls)) then ls else mset kv.1 kv.2 ls) labels selectorLabels.
Definition applySelectorLabels (u : obj) (selectorLabels : list (string * string)) : obj :=
  let labels := default [] (labels_of u) in
  if forallb (fun kv => bool_decide (is_Some (assoc kv.1 labels))) selectorLabels then u
  else set_labels (add_missing labels selectorLabels) u.
Definition newLegacyAlertRuleCR (namespace : string) (rules : list json) (selectorLabels : list (string * string)) : obj :=
  let labels := foldl (fun ls kv => mset kv.1 (JStr kv.2) ls)
    [(LegacyAlertRuleLabelKey, JStr LegacyAlertRuleLabelValue); ("role", JStr "alert-rules")] selectorLabels in
  [("apiVersion", JStr "monitoring.coreos.com/v1"); ("kind", JStr "PrometheusRule");
   ("metadata", JObj [("name", JStr LegacyAlertRuleCRDName); ("namespace", JStr namespace); ("labels", JObj labels)]);
   ("spec", JObj [("groups", JArr [JObj [("name", JStr LegacyAlertRuleGroupName); ("rules", JArr rules)]])])].
Definition legacy_rule (p : LegacyAlertRuleParams) : json :=
  JObj ([("alert", JStr (ar_Alert p)); ("expr", JStr (ar_Expr p)); ("annotations", of_map (ar_Annotations p)); ("labels", of_map (ar_Labels p))]
        ++ (if empty (ar_Duration p) then [] else [("for", JStr (ar_Duration p))])).
Definition groups_of (o : obj) : list json := match nested_slice groups_path o with Ok (Some l) => l | _ => [] end.

(** One attempt of [CreateOrReplaceAlertRule]. *)
Definition put_attempt (p : LegacyAlertRuleParams) (selectorLabels : list (string * string)) : act obj :=
  let t := rule_target Namespace LegacyAlertRuleCRDName in
  do! got := atry (perform1 (Get t)) in
  match got with
  | inl (NotFound _) =>
    do! created := atry (perform1 (Create t (newLegacyAlertRuleCR Namespace [legacy_rule p] selectorLabels))) in
    match created with
    | inl (AlreadyExists m) => afail (Conflict (conflict_text m))
    | inl e => afail e
    | inr created => aret created
    end
  | inl e => afail e
  | inr existing =>
    do! existing := lift (set_nested_slice groups_path (put_rule (groups_of existing) (ar_Alert p) (legacy_rule p)) existing) in
    perform1 (Update t (applySelectorLabels existing selectorLabels))
  end.
Definition CreateOrReplaceAlertRule (p : LegacyAlertRuleParams) : act json :=
  if negb dynamic then no_dynamic
  else if empty Namespace then no_namespace
  else if empty (ar_Alert p) || empty (ar_Expr p) then err "mutate: alert and expr required"
  else
    do! selectorLabels := ruleSelectorLabels in
    do! result := RetryOnConflict _ (put_attempt p selectorLabels) in
    aret (JObj result).
Definition delete_attempt (alert : string) : act unit :=
  let t := rule_target Namespace LegacyAlertRuleCRDName in
  do! got := atry (perform1 (Get t)) in
  match got with
  | inl (NotFound _) => aret tt
  | inl e => afail e
  | inr existing =>
    let groups := groups_of existing in
    if existsb (has_rule alert) groups then
      do! existing := lift (set_nested_slice groups_path (map (without_rule alert) groups) existing) in
      do! _ := perform (Update t existing) in aret tt
    else aret tt
  end.
Definition DeleteAlertRule (alert : string) : act unit :=
  if negb dynamic then no_dynamic
  else if empty Namespace then no_namespace
  else if empty alert then err "mutate: alert name required"
  else RetryOnConflict _ (delete_attempt alert).

(** ** A rule where it is defined *)
Definition ErrAlertRuleNotFound : string := "mutate: alert rule not found in PrometheusRule".
Definition ErrAlertRuleAmbiguous : string := "mutate: more than one rule matches; give the rule group".
Definition locatedRuleClient (loc : AlertRuleLocator) : result target :=
  if negb dynamic then Err "mutate: dynamic client not configured"
  else if empty (loc_Name loc) || empty (loc_Alert loc) then Err "mutate: PrometheusRule name and alert are required"
  else let ns := if empty (loc_Namespace loc) then Namespace else loc_Namespace loc in
       if empty ns then Err "mutate: PrometheusRule namespace required" else Ok (rule_target ns (loc_Name loc)).
Definition added_rule (loc : AlertRuleLocator) (p : LegacyAlertRuleParams) : json :=
  let optional key m := match m with Some (e :: m) => [(key, JObj (e :: m))] | _ => [] end in
  JObj ([("alert", JStr (loc_Alert loc)); ("expr", JStr (ar_Expr p))]
        ++ (if empty (ar_Duration p) then [] else [("for", JStr (ar_Duration p))])
        ++ optional "annotations" (ar_Annotations p) ++ optional "labels" (ar_Labels p)).
Definition patched_groups (loc : AlertRuleLocator) (p : LegacyAlertRuleParams) (groups : list json) : result (list json) :=
  match findLocatedRules groups loc with
  | [] => if empty (loc_Group loc)
          then Err (ErrAlertRuleNotFound +:+ ": " +:+ loc_Alert loc +:+ "; a rule group is required to add it back")
          else Ok (appendRuleToGroup groups (loc_Group loc) (added_rule loc p))
  | [(gi, ri)] => Ok (alter (on_rules (alter (patched_rule p) ri)) gi groups)
  | _ => Err (ErrAlertRuleAmbiguous +:+ ": " +:+ loc_Alert loc)
  end.
Definition deleted_groups (loc : AlertRuleLocator) (groups : list json) : result (list json) :=
  match findLocatedRules groups loc with
  | [] => Err (ErrAlertRuleNotFound +:+ ": " +:+ loc_Alert loc)
  | [(gi, ri)] => Ok (alter (on_rules (delete ri)) gi groups)
  | _ => Err (ErrAlertRuleAmbiguous +:+ ": " +:+ loc_Alert loc)
  end.
(** Read, edit, write. *)
Definition edit_groups (t : target) (edit : list json -> result (list json)) : act obj :=
  do! existing := perform1 (Get t) in
  do! groups := lift (edit (groups_of existing)) in
  do! existing := lift (set_nested_slice groups_path groups existing) in
  perform1 (Update t existing).
Definition PatchAlertRuleInCR (loc : AlertRuleLocator) (p : LegacyAlertRuleParams) : act json :=
  do! t := lift (locatedRuleClient loc) in
  if empty (ar_Expr p) then err "mutate: expr required"
  else do! result := RetryOnConflict _ (edit_groups t (patched_groups loc p)) in aret (JObj result).
Definition DeleteAlertRuleInCR (loc : AlertRuleLocator) : act unit :=
  do! t := lift (locatedRuleClient loc) in
  do! _ := RetryOnConflict _ (edit_groups t (deleted_groups loc)) in aret tt.
End actions.

(** ** What the edits change

    [others P groups] and [selected P groups]: the rules, in order, that do
    not or do satisfy [P] in their group. *)
Definition rules_of (raw : json) : list json := match raw with JObj g => get_arr (Some g) "rules" | _ => [] end.
Definition others (P : json -> json -> bool) (groups : list json) : list json :=
  concat (map (fun g => List.filter (fun r => negb (P g r)) (rules_of g)) groups).
Definition selected (P : json -> json -> bool) (groups : list json) : list json :=
  concat (map (fun g => List.filter (P g) (rules_of g)) groups).
Definition named (alert : string) (g r : json) : bool := is_rule alert r.
Definition located (loc : AlertRuleLocator) (g r : json) : bool :=
  match g with JObj g => empty (loc_Group loc) || bool_decide (str (Some g) "name" = loc_Group loc) | _ => false end && is_rule (loc_Alert loc) r.
Lemma rules_of_set g l : rules_of (JObj (mset "rules" (JArr l) g)) = l.
Proof. unfold rules_of, get_arr, mget. rewrite assoc_mset. by rewrite decide_True. Qed.
Lemma get_str_mset k k' v g : k' <> k -> get_str (Some (mset k v g)) k' = get_str (Some g) k'.
Proof. intros Hk. unfold get_str, mget. rewrite assoc_mset. by rewrite decide_False. Qed.

Lemma replace_first_Some alert rule rules rules' : is_rule alert rule = true -> replace_first alert rule rules = Some rules' ->
  List.filter (fun r => negb (is_rule alert r)) rules' = List.filter (fun r => negb (is_rule alert r)) rules /\
  exists r l, List.filter (is_rule alert) rules = r :: l /\ List.filter (is_rule alert) rules' = rule :: l.
Proof.
  intros Hr. revert rules'. induction rules as [|raw rules IH]; intros rules'; cbn [replace_first]; [done|].
  destruct (is_rule alert raw) eqn:E.
  - intros [= <-]. simpl. rewrite Hr, E. simpl. split; [done|]. by eexists _, _.
  - destruct (replace_first alert rule rules) as [l|]; [|done]. intros [= <-]. simpl. rewrite E. simpl.
    destruct (IH l eq_refl) as [-> (r & l' & -> & ->)]. split; [done|]. by exists r, l'.
Qed.
Lemma replace_first_None alert rule rules : replace_first alert rule rules = None -> List.filter (is_rule alert) rules = [].
Proof.
  induction rules as [|raw rules IH]; [done|]. cbn [replace_first]. destruct (is_rule alert raw) eqn:E; [done|].
  destruct (replace_first alert rule rules); [done|]. intros _. simpl. rewrite E. by apply IH.
Qed.
Lemma others_named alert g groups : others (named alert) (g :: groups) =
  List.filter (fun r => negb (is_rule alert r)) (rules_of g) ++ others (named alert) groups.
Proof. done. Qed.
Lemma selected_named alert g groups : selected (named alert) (g :: groups) =
  List.filter (is_rule alert) (rules_of g) ++ selected (named alert) groups.
Proof. done. Qed.
Lemma replace_in_place_Some alert rule groups groups' : is_rule alert rule = true -> replaceLegacyRuleInPlace groups alert rule = Some groups' ->
  others (named alert) groups' = others (named alert) groups /\
  exists r l, selected (named alert) groups = r :: l /\ selected (named alert) groups' = rule :: l.
Proof.
  intros Hr. revert groups'. induction groups as [|raw groups IH]; intros groups'; cbn [replaceLegacyRuleInPlace]; [done|].
  assert (forall g, List.filter (is_rule alert) (rules_of g) = [] -> (replaceLegacyRuleInPlace groups alert rule ≫= fun l => Some (g :: l)) = Some groups' ->
    others (named alert) groups' = others (named alert) (g :: groups) /\
    exists r l, selected (named alert) (g :: groups) = r :: l /\ selected (named alert) groups' = rule :: l) as Hskip.
  { intros g Hg. destruct (replaceLegacyRuleInPlace groups alert rule) as [l|]; [|done]. intros [= <-].
    destruct (IH l eq_refl) as [Ho (r & l' & H1 & H2)]. rewrite !others_named, !selected_named, Hg, Ho, H1, H2. split; [done|]. by exists r, l'. }
  destruct raw as [| | | | | |g|]; try (by apply Hskip).
  destruct (replace_first alert rule (get_arr (Some g) "rules")) as [rules'|] eqn:E.
  - intros [= <-]. apply replace_first_Some in E as [Ho (r & l & H1 & H2)]; [|done]. rewrite !others_named, !selected_named, rules_of_set.
    cbn [rules_of]. rewrite Ho, H1, H2. split; [done|]. by eexists _, _.
  - apply replace_first_None in E. by apply Hskip.
Qed.
Lemma replace_in_place_None alert rule groups : replaceLegacyRuleInPlace groups alert rule = None -> selected (named alert) groups = [].
Proof.
  induction groups as [|raw groups IH]; [done|]. cbn [replaceLegacyRuleInPlace]. rewrite selected_named.
  destruct raw as [| | | | | |g|]; try (destruct (replaceLegacyRuleInPlace groups alert rule); [done|intros _; by apply IH]).
  destruct (replace_first _ _ _) eqn:E; [done|]. apply replace_first_None in E. destruct (replaceLegacyRuleInPlace groups alert rule); [done|].
  intros _. cbn [rules_of]. rewrite E. by apply IH.
Qed.
(** Putting a rule keeps every rule of another name; one rule of the name is
    replaced or, when there was none, added. *)
Lemma put_rule_spec alert rule groups : is_rule alert rule = true ->
  others (named alert) (put_rule groups alert rule) = others (named alert) groups /\
  selected (named alert) (put_rule groups alert rule) = rule :: tail (selected (named alert) groups).
Proof.
  intros Hr. unfold put_rule. destruct (replaceLegacyRuleInPlace groups alert rule) as [groups'|] eqn:E.
  - destruct (replace_in_place_Some _ _ _ _ Hr E) as [Ho (r & l & -> & H2)]. by split.
  - apply replace_in_place_None in E. rewrite E. cbn [default tail]. revert E. unfold append_first.
    destruct groups as [|raw groups].
    { intros _. rewrite others_named, selected_named. change (rules_of _) with [rule]. cbn [List.filter]. by rewrite Hr. }
    rewrite !others_named, !selected_named, rules_of_set. set (g := match raw with JObj g => g | _ => _ end). intros E. apply app_eq_nil in E as [E1 E2].
    assert (get_arr (Some g) "rules" = rules_of raw) as -> by (by destruct raw).
    rewrite !List.filter_app, E1, E2. cbn [List.filter]. rewrite Hr. cbn [negb]. by rewrite app_nil_r.
Qed.
(** Deleting by name. *)
Lemma delete_rule_spec alert groups :
  others (named alert) (map (without_rule alert) groups) = others (named alert) groups /\
  selected (named alert) (map (without_rule alert) groups) = [].
Proof.
  induction groups as [|raw groups [IH1 IH2]]; [done|]. cbn [map]. rewrite !others_named, selected_named, IH1, IH2.
  assert (rules_of (without_rule alert raw) = List.filter (fun r => negb (is_rule alert r)) (rules_of raw)) as ->.
  { destruct raw; try done. cbn [without_rule]. by rewrite rules_of_set. }
  rewrite app_nil_r. split; [f_equal|]; induction (rules_of raw) as [|r l IH]; try done; simpl;
    destruct (is_rule alert r) eqn:E; simpl; rewrite ?E; simpl; by rewrite IH.
Qed.

(** *** The located rule *)
Fixpoint matches_from (alert : string) (gi ri : nat) (rules : list json) : list ruleMatch :=
  match rules with [] => [] | r :: rules => (if is_rule alert r then [(gi, ri)] else []) ++ matches_from alert gi (S ri) rules end.
Lemma rule_matches_from loc gi ri rules :
  concat (imap (fun j r => if is_rule (loc_Alert loc) r then [(gi, ri + j)%nat] else []) rules) = matches_from (loc_Alert loc) gi ri rules.
Proof.
  revert ri. induction rules as [|r rules IH]; intros ri; [done|]. cbn [imap concat matches_from]. rewrite Nat.add_0_r. f_equal.
  rewrite <- IH. f_equal. apply imap_ext. intros j x _. simpl. by rewrite Nat.add_succ_r.
Qed.
Lemma matches_none alert gi ri rules : matches_from alert gi ri rules = [] -> List.filter (is_rule alert) rules = [].
Proof. revert ri. induction rules as [|r rules IH]; intros ri; [done|]. simpl. destruct (is_rule alert r); [done|]. apply IH. Qed.
Definition keeps (alert : string) (f : json -> json) : Prop := forall r, is_rule alert r = true -> is_rule alert (f r) = true.
Lemma matches_one alert gi ri rules m : matches_from alert gi ri rules = [m] -> exists j r, m = (gi, (ri + j)%nat) /\
  List.filter (is_rule alert) rules = [r] /\
  List.filter (is_rule alert) (delete j rules) = [] /\
  List.filter (fun r => negb (is_rule alert r)) (delete j rules) = List.filter (fun r => negb (is_rule alert r)) rules /\
  forall f, keeps alert f -> List.filter (is_rule alert) (alter f j rules) = [f r] /\
    List.filter (fun r => negb (is_rule alert r)) (alter f j rules) = List.filter (fun r => negb (is_rule alert r)) rules.
Proof.
  revert ri. induction rules as [|r rules IH]; intros ri; [done|]. cbn [matches_from]. destruct (is_rule alert r) eqn:E.
  - intros [= <- Hn]. apply matches_none in Hn. exists 0%nat, r. rewrite Nat.add_0_r. change (delete 0%nat (r :: rules)) with rules. cbn [List.filter]. rewrite E, Hn. split_and!; try done.
    intros f Hf. change (alter f 0%nat (r :: rules)) with (f r :: rules). cbn [List.filter]. rewrite (Hf r E), Hn. done.
  - cbn [app]. intros Hm. destruct (IH (S ri) Hm) as (j & r' & -> & H1 & H2 & H3 & H4). exists (S j), r'. rewrite Nat.add_succ_r.
    change (delete (S j) (r :: rules)) with (r :: delete j rules). cbn [List.filter]. rewrite E, H1, H2, H3. split_and!; try done.
    intros f Hf. change (alter f (S j) (r :: rules)) with (r :: alter f j rules). cbn [List.filter]. rewrite E.
    destruct (H4 f Hf) as [-> ->]. done.
Qed.
Fixpoint located_from (loc : AlertRuleLocator) (gi : nat) (groups : list json) : list ruleMatch :=
  match groups with [] => [] | raw :: groups => matches_from (loc_Alert loc) gi 0 (in_group loc raw) ++ located_from loc (S gi) groups end.
Lemma findLocatedRules_from loc gi groups :
  concat (imap (fun j raw => rule_matches loc (gi + j) (in_group loc raw)) groups) = located_from loc gi groups.
Proof.
  revert gi. induction groups as [|raw groups IH]; intros gi; [done|]. cbn [imap concat located_from]. rewrite Nat.add_0_r. f_equal.
  - unfold rule_matches. rewrite <- rule_matches_from. done.
  - rewrite <- IH. f_equal. apply imap_ext. intros j x _. simpl. by rewrite Nat.add_succ_r.
Qed.
Definition in_name (loc : AlertRuleLocator) (g : json) : bool :=
  match g with JObj g => empty (loc_Group loc) || bool_decide (str (Some g) "name" = loc_Group loc) | _ => false end.
Lemma in_group_name loc g : in_group loc g = if in_name loc g then rules_of g else [].
Proof. destruct g; try done. cbn. by destruct (empty _), (bool_decide _). Qed.
Lemma in_name_rules loc f g : in_name loc (on_rules f g) = in_name loc g.
Proof. destruct g as [| | | | | |g|]; try done. cbn. unfold str. by rewrite get_str_mset. Qed.
Lemma rules_on f g : in_name (MkLocator "" "" "" "") g = true -> rules_of (on_rules f g) = f (rules_of g).
Proof. destruct g as [| | | | | |g|]; try done. intros _. cbn [on_rules]. by rewrite rules_of_set. Qed.
Lemma selected_located loc g groups : selected (located loc) (g :: groups) = List.filter (is_rule (loc_Alert loc)) (in_group loc g) ++ selected (located loc) groups.
Proof.
  unfold selected. cbn [map concat]. f_equal. rewrite in_group_name. unfold located. fold (in_name loc g).
  destruct (in_name loc g); [done|]. by induction (rules_of g).
Qed.
Lemma others_located loc g groups : others (located loc) (g :: groups) =
  (if in_name loc g then List.filter (fun r => negb (is_rule (loc_Alert loc) r)) (rules_of g) else rules_of g) ++ others (located loc) groups.
Proof.
  unfold others. cbn [map concat]. f_equal. unfold located. fold (in_name loc g). destruct (in_name loc g); [done|].
  induction (rules_of g) as [|r l IH]; [done|]. simpl. by f_equal.
Qed.
Lemma located_none loc gi groups : located_from loc gi groups = [] -> selected (located loc) groups = [].
Proof.
  revert gi. induction groups as [|g groups IH]; intros gi; [done|]. cbn [located_from]. intros [H1 H2]%app_eq_nil.
  rewrite selected_located. apply matches_none in H1. by rewrite H1, (IH _ H2).
Qed.
(** What the two edits of the one match change. *)
Lemma located_one loc gi groups m : located_from loc gi groups = [m] -> exists j i r, m = ((gi + j)%nat, i) /\
  selected (located loc) groups = [r] /\
  (let gs := alter (on_rules (delete i)) j groups in selected (located loc) gs = [] /\ others (located loc) gs = others (located loc) groups) /\
  forall f, keeps (loc_Alert loc) f -> let gs := alter (on_rules (alter f i)) j groups in
    selected (located loc) gs = [f r] /\ others (located loc) gs = others (located loc) groups.
Proof.
  revert gi. induction groups as [|g groups IH]; intros gi; [done|]. cbn [located_from].
  destruct (matches_from (loc_Alert loc) gi 0 (in_group loc g)) as [|m' l] eqn:E.
  - cbn [app]. intros Hm. destruct (IH _ Hm) as (j & i & r & -> & H1 & [H2 H3] & H4). exists (S j), i, r. rewrite Nat.add_succ_r.
    apply matches_none in E. rewrite selected_located, E, H1. split; [done|]. split; [done|]. split.
    + change (alter (on_rules (delete i)) (S j) (g :: groups)) with (g :: alter (on_rules (delete i)) j groups). cbv zeta.
      rewrite selected_located, !others_located, E, H2, H3. done.
    + intros f Hf. change (alter (on_rules (alter f i)) (S j) (g :: groups)) with (g :: alter (on_rules (alter f i)) j groups). cbv zeta.
      destruct (H4 f Hf) as [H5 H6]. rewrite selected_located, !others_located, E, H5, H6. done.
  - cbn [app]. intros [= -> [-> Hn]%app_eq_nil]. apply located_none in Hn. apply matches_one in E as (i & r & -> & H1 & H2 & H3 & H4).
    rewrite in_group_name in H1, H2, H3, H4. destruct (in_name loc g) eqn:Eg; [|done].
    assert (in_name (MkLocator "" "" "" "") g = true) as Hobj by (by destruct g).
    exists 0%nat, i, r. rewrite Nat.add_0_r. rewrite selected_located, in_group_name, Eg, H1, Hn. split; [done|]. split; [done|]. split.
    + change (alter (on_rules (delete i)) 0%nat (g :: groups)) with (on_rules (delete i) g :: groups). cbv zeta.
      rewrite selected_located, !others_located, in_group_name, in_name_rules, Eg, rules_on, H2, H3, Hn by done. done.
    + intros f Hf. destruct (H4 f Hf) as [H5 H6]. change (alter (on_rules (alter f i)) 0%nat (g :: groups)) with (on_rules (alter f i) g :: groups). cbv zeta.
      rewrite selected_located, !others_located, in_group_name, in_name_rules, Eg, rules_on, H5, H6, Hn by done. done.
Qed.
(** A rule that is added to its group. *)
Lemma append_located loc rule groups : empty (loc_Group loc) = false -> is_rule (loc_Alert loc) rule = true ->
  selected (located loc) groups = [] ->
  let gs := appendRuleToGroup groups (loc_Group loc) rule in
  selected (located loc) gs = [rule] /\ others (located loc) gs = others (located loc) groups.
Proof.
  intros Hg Hr. induction groups as [|g groups IH]; cbn [appendRuleToGroup]; cbv zeta.
  - intros _. rewrite selected_located, others_located, in_group_name.
    assert (in_name loc (JObj [("name", JStr (loc_Group loc)); ("rules", JArr [rule])]) = true) as ->.
    { cbn [in_name]. rewrite Hg. by apply bool_decide_eq_true. }
    change (rules_of _) with [rule]. cbn [List.filter]. rewrite Hr. done.
  - rewrite selected_located. intros [H1 H2]%app_eq_nil. destruct (IH H2) as [H3 H4].
    assert (selected (located loc) (g :: appendRuleToGroup groups (loc_Group loc) rule) = [rule] /\
      others (located loc) (g :: appendRuleToGroup groups (loc_Group loc) rule) = others (located loc) (g :: groups)) as Hskip.
    { by rewrite selected_located, !others_located, H1, H3, H4. }
    destruct g as [| | | | | |g|]; try exact Hskip. destruct (bool_decide (str (Some g) "name" = loc_Group loc)) eqn:En; [|exact Hskip].
    assert (in_name loc (JObj g) = true) as Hin by (cbn [in_name]; by rewrite En, orb_true_r).
    assert (in_name (MkLocator "" "" "" "") (JObj g) = true) as Hobj by done. rewrite in_group_name, Hin in H1.
    rewrite selected_located, !others_located, in_group_name, in_name_rules, Hin, rules_on, H2, !List.filter_app, H1 by done.
    cbn [List.filter]. rewrite Hr. cbn [negb app]. rewrite ?app_nil_r. done.
Qed.
Lemma findLocated_zero groups loc : findLocatedRules groups loc = located_from loc 0 groups.
Proof. by rewrite <- findLocatedRules_from. Qed.
Lemma patched_keeps alert p : keeps alert (patched_rule p).
Proof.
  intros [| | | | | |r|]; try done. cbn [is_rule patched_rule]. intros Hr%bool_decide_eq_true. apply bool_decide_eq_true. unfold str in *.
  destruct (empty (ar_Duration p)); rewrite ?(get_str_mset "for" "alert"), (get_str_mset "expr" "alert"); done.
Qed.
Lemma is_rule_head a m : is_rule a (JObj (("alert", JStr a) :: m)) = true.
Proof. cbn [is_rule]. by apply bool_decide_eq_true. Qed.
Lemma patched_groups_spec loc p gs gs' : patched_groups loc p gs = Ok gs' ->
  others (located loc) gs' = others (located loc) gs /\
  ((exists r, selected (located loc) gs = [r] /\ selected (located loc) gs' = [patched_rule p r]) \/
   selected (located loc) gs = [] /\ selected (located loc) gs' = [added_rule loc p]).
Proof.
  unfold patched_groups. rewrite findLocated_zero. destruct (located_from loc 0 gs) as [|[gi ri] [|]] eqn:E; [|intros [= <-]|done].
  - destruct (empty (loc_Group loc)) eqn:Eg; [done|]. intros [= <-]. apply located_none in E.
    destruct (append_located loc (added_rule loc p) gs Eg) as [H1 H2]; [apply is_rule_head|done|]. split; [done|]. by right.
  - apply located_one in E as (j & i & r & [= -> ->] & H1 & _ & H3). destruct (H3 _ (patched_keeps (loc_Alert loc) p)) as [H4 H5].
    split; [done|]. left. by exists r.
Qed.
Lemma deleted_groups_spec loc gs gs' : deleted_groups loc gs = Ok gs' ->
  others (located loc) gs' = others (located loc) gs /\ exists r, selected (located loc) gs = [r] /\ selected (located loc) gs' = [].
Proof.
  unfold deleted_groups. rewrite findLocated_zero. destruct (located_from loc 0 gs) as [|[gi ri] [|]] eqn:E; [done|intros [= <-]|done].
  apply located_one in E as (j & i & r & [= -> ->] & H1 & [H2 H3] & _). split; [done|]. by exists r.
Qed.

(** ** Every write is an edit of what was just read *)
Section writes.
Context (dynamic : bool) (Namespace : string) `{Accessors}.
Context (conflict_text : string -> string) (RetryOnConflict : forall A, act A -> act A).
Lemma retried_edits {A} Q (fn : act A) s log r log' : edits Q fn -> retried fn s log r log' -> exists l, log' = log ++ l /\ fresh Q s log l.
Proof.
  intros Hf. induction 1 as [log|log log1 m r log2 E _ (l & -> & Hl)]; [apply Hf|].
  destruct (Hf s log) as (l1 & E1 & Hl1). rewrite E in E1. simpl in E1. subst log1. exists (l1 ++ l). rewrite app_assoc. split; [done|].
  by apply fresh_app.
Qed.
Definition edited (P : json -> json -> bool) (after : list json -> list json -> Prop) (e o : obj) : Prop :=
  others P (groups_of o) = others P (groups_of e) /\ after (selected P (groups_of e)) (selected P (groups_of o)).
Lemma groups_of_set l o o' : set_nested_slice groups_path l o = Ok o' -> groups_of o' = l.
Proof. intros Hs. unfold groups_of. by rewrite (slice_set _ _ _ _ Hs). Qed.
Lemma groups_of_labels ls o : groups_of (applySelectorLabels o ls) = groups_of o.
Proof. unfold applySelectorLabels, groups_of. destruct (forallb _ _); [done|]. by rewrite slice_labeled. Qed.
Lemma edit_groups_edits Q t edit : (forall e gs o, edit (groups_of e) = Ok gs -> groups_of o = gs -> Q e o) -> edits Q (edit_groups t edit).
Proof.
  intros HQ. apply (edits_read Q t); [apply reads_get|]. intros e. apply updates_lift. intros gs Hgs. apply updates_lift. intros o Ho.
  apply updates_last. apply (HQ e gs o Hgs). by eapply groups_of_set.
Qed.
Lemma put_attempt_edits p ls : edits (edited (named (ar_Alert p)) (fun old new => new = legacy_rule p :: tail old)) (put_attempt Namespace conflict_text p ls).
Proof.
  apply (edits_try_read _ (rule_target Namespace LegacyAlertRuleCRDName)); [apply reads_get| |].
  - intros e. apply updates_lift. intros o Ho. apply updates_last. unfold edited. rewrite groups_of_labels, (groups_of_set _ _ _ Ho).
    apply put_rule_spec, is_rule_head.
  - intros [m|m|m|m]; try apply edits_fail. apply edits_bind; [by apply edits_try, edits_perform1|].
    intros [[]|]; first [apply edits_fail|apply edits_ret].
Qed.
Lemma delete_attempt_edits alert : edits (edited (named alert) (fun _ new => new = [])) (delete_attempt Namespace alert).
Proof.
  apply (edits_try_read _ (rule_target Namespace LegacyAlertRuleCRDName)); [apply reads_get| |].
  - intros e. cbv zeta. destruct (existsb (has_rule alert) (groups_of e)); [|by apply updates_none]. apply updates_lift. intros o Ho.
    apply (updates_update _ _ _ o id); [|done|intros; apply edits_ret]. unfold edited. rewrite (groups_of_set _ _ _ Ho). apply delete_rule_spec.
  - intros [m|m|m|m]; first [apply edits_fail|apply edits_ret].
Qed.

Hypothesis retry_runs : forall A (fn : act A) s log, retried fn s log (RetryOnConflict A fn s log).1 (RetryOnConflict A fn s log).2.
Lemma retry_edits {A} Q (fn : act A) : edits Q fn -> edits Q (RetryOnConflict A fn).
Proof using retry_runs. intros Hf s log. by eapply retried_edits. Qed.

(** C15: edits of single alert rules are local, whatever other writers do and
    however often a conflict makes them run again.  Every update writes the
    object that was read by the call right before it, in which all other
    rules of all groups are as they were, in the same order; putting a rule
    replaces the first rule of that name or adds it, deleting leaves none of
    that name, and the located edits need exactly one match, of which they
    change the expression and duration or which they remove (or, for a rule
    that is gone, add it back to its group). *)
Theorem rule_edits_local p alert loc q :
  edits (edited (named (ar_Alert p)) (fun old new => new = legacy_rule p :: tail old))
    (CreateOrReplaceAlertRule dynamic Namespace conflict_text RetryOnConflict p) /\
  edits (edited (named alert) (fun _ new => new = [])) (DeleteAlertRule dynamic Namespace RetryOnConflict alert) /\
  edits (edited (located loc) (fun old new => (exists r, old = [r] /\ new = [patched_rule q r]) \/ old = [] /\ new = [added_rule loc q]))
    (PatchAlertRuleInCR dynamic Namespace RetryOnConflict loc q) /\
  edits (edited (located loc) (fun old new => exists r, old = [r] /\ new = [])) (DeleteAlertRuleInCR dynamic Namespace RetryOnConflict loc).
Proof using retry_runs.
  split_and!.
  - unfold CreateOrReplaceAlertRule. repeat (case_match; [apply edits_fail|]). apply edits_bind.
    + unfold ruleSelectorLabels. case_match; [apply edits_ret|]. apply edits_bind; [by apply edits_try, edits_perform|]. intros. apply edits_ret.
    + intros ls. apply edits_bind; [apply retry_edits, put_attempt_edits|]. intros. apply edits_ret.
  - unfold DeleteAlertRule. repeat (case_match; [apply edits_fail|]). apply retry_edits, delete_attempt_edits.
  - apply edits_bind; [apply edits_lift|]. intros t. case_match; [apply edits_fail|]. apply edits_bind; [|intros; apply edits_ret].
    apply retry_edits, edit_groups_edits. intros e gs o Hgs <-. by apply patched_groups_spec.
  - apply edits_bind; [apply edits_lift|]. intros t. apply edits_bind; [|intros; apply edits_ret].
    apply retry_edits, edit_groups_edits. intros e gs o Hgs <-. by apply deleted_groups_spec.
Qed.
End writes.

(** ** Sample *)
Section sample.
#[local] Existing Instance Plain.accessors.
Fixpoint attempts {A} (n : nat) (fn : act A) : act A := fun s log =>
  match n, fn s log with
  | S n, (inl (Conflict _), log) => attempts n fn s log
  | _, r => r
  end.
Lemma attempts_retried A n (fn : act A) s log : retried fn s log (attempts n fn s log).1 (attempts n fn s log).2.
Proof.
  revert log. induction n as [|n IH]; intros log; cbn [attempts]; [constructor|]. destruct (fn s log) as [[[m|m|m|m]|a] log'] eqn:E;
    try (pose proof (retried_last fn s log) as H; by rewrite E in H). by eapply retried_again.
Qed.
Definition toy_rule (name expr : string) : json := JObj [("alert", JStr name); ("expr", JStr expr)].
Definition toy_cr (rules : list json) : obj :=
  [("metadata", JObj [("name", JStr LegacyAlertRuleCRDName)]);
   ("spec", JObj [("groups", JArr [JObj [("name", JStr "g"); ("rules", JArr rules)]])])].
(** Another writer adds a rule between the first read and the first write. *)
Definition toy_server : server := fun log c =>
  match c with
  | Get _ => Answered [toy_cr (match log with [] => [toy_rule "A" "1"; toy_rule "B" "2"] | _ => [toy_rule "A" "1"; toy_rule "B" "2"; toy_rule "C" "3"] end)]
  | Update _ o => match log with [_] => Failed (Conflict "stale") | _ => Answered [o] end
  | _ => Failed (NotFound "")
  end.
Definition toy_delete : outcome unit * list call := DeleteAlertRule true "ns" (fun A => attempts (A := A) 4) "A" toy_server [].
Example toy_delete_result : toy_delete.1 = inr tt /\
  map (fun c => match c with Update _ o => groups_of o | _ => [] end) toy_delete.2
  = [[]; [JObj [("name", JStr "g"); ("rules", JArr [toy_rule "B" "2"])]]; [];
     [JObj [("name", JStr "g"); ("rules", JArr [toy_rule "B" "2"; toy_rule "C" "3"])]]].
Proof. vm_compute. split; reflexivity. Qed.
Lemma rule_edits_local_witness : exists l, toy_delete.2 = [] ++ l /\
  fresh (edited (named "A") (fun _ new => new = [])) toy_server [] l.
Proof.
  destruct (rule_edits_local true "ns" id (fun A => attempts (A := A) 4) (fun A fn s log => attempts_retried A 4 fn s log)
    (MkParams "A" "1" "" None None) "A" (MkLocator "" "" "" "") (MkParams "" "" "" None None)) as (_ & Hd & _).
  exact (Hd toy_server []).
Defined.
End sample.
