(* ===== verification/RevertFacts.v ===== *)
(** * Reverting what the diff reported

    The facts about revert.go: which value comes back over the wire, how the
    text of a path is resolved, what one write changes, and the theorem that
    composes them with the diff. *)

From stdpp Require Import strings.
From S2P Require Import Prelude GoText GoJson GoStruct CanonJson GoMarshal GoFloat Diff KubeApi Workload Revert.

#[local] Set Default Proof Using "Type".

(** ** The value that is written back

    The recorded value travels as JSON and is normalised when it is written. *)
Definition back (v : json) : json := normalizeJSONValue (decoded v).
(** Its text is the same and the values in it have texts. *)
Fixpoint wire_exact (v : json) : bool :=
  match v with
  | JInt _ | JFloat _ => bool_decide (marshal (back v) = marshal v) && proper (back v)
  | JArr l => forallb wire_exact l
  | JObj m => forallb (fun kv => wire_exact kv.2) m
  | _ => true
  end.
Lemma assoc_keys {A} (f : string -> A) ks k : assoc k (map (fun k => (k, f k)) ks) = if decide (k ∈ ks) then Some (f k) else None.
Proof.
  induction ks as [|k' ks IH]; cbn [map assoc].
  - destruct (decide (k ∈ [])) as [H|]; [by apply elem_of_nil in H|done].
  - destruct (decide (k = k')) as [->|Hne].
    + destruct (decide (k' ∈ k' :: ks)) as [|H]; [done|]. destruct H. by left.
    + rewrite IH. destruct (decide (k ∈ ks)), (decide (k ∈ k' :: ks)); try done; set_solver.
Qed.
Definition back_members (m : list (string * json)) : list (string * json) :=
  map (fun k => (k, default JNull (assoc k (map (fun kv => (kv.1, back kv.2)) m)))) (sort_strings m.*1).
Lemma back_obj m : back (JObj m) = JObj (back_members m).
Proof.
  unfold back, back_members. simpl. f_equal. rewrite map_map. apply map_ext. intros k. simpl. f_equal.
  rewrite !assoc_map. by destruct (assoc k m).
Qed.
Lemma back_arr l : back (JArr l) = JArr (map back l).
Proof. unfold back. simpl. by rewrite map_map. Qed.
Lemma back_keys m : (back_members m).*1 = sort_strings m.*1.
Proof. unfold back_members. rewrite <- list_fmap_compose. etransitivity; [|apply list_fmap_id]. by apply list_fmap_ext. Qed.
Lemma assoc_back m k : assoc k (back_members m) = back <$> assoc k m.
Proof.
  unfold back_members. rewrite assoc_keys. destruct (decide (k ∈ sort_strings m.*1)) as [E|E]; rewrite sort_strings_perm in E.
  - rewrite (assoc_map back). destruct (assoc k m) eqn:Ek; [done|]. by apply assoc_None in Ek.
  - apply assoc_None in E. by rewrite E.
Qed.
Lemma sort_strings_idem l : sort_strings (sort_strings l) = sort_strings l.
Proof. apply sort_strings_unique, sort_strings_perm. Qed.
Lemma back_exact v : proper v = true -> wire_exact v = true -> marshal (back v) = marshal v /\ proper (back v) = true.
Proof.
  induction v as [| | | | |l IH|m IH|] using json_nested_ind; intros Hp Hw; try done.
  - by apply andb_prop in Hw as [Hw%bool_decide_eq_true ?].
  - by apply andb_prop in Hw as [Hw%bool_decide_eq_true ?].
  - rewrite back_arr. cbn [marshal proper wire_exact] in *. rewrite forallb_forall in Hp, Hw. rewrite Forall_forall in IH. split.
    + rewrite map_map. f_equal. erewrite map_ext_in; [done|]. intros x Hx. by apply IH; [apply list_elem_of_In|apply Hp|apply Hw].
    + apply forallb_forall. intros y (x & <- & Hx)%in_map_iff. by apply IH; [apply list_elem_of_In|apply Hp|apply Hw].
  - rewrite back_obj. apply proper_obj in Hp as [Hnd Hm]. cbn [wire_exact] in Hw. rewrite forallb_forall in Hw. rewrite Forall_forall in IH.
    assert (forall k v, assoc k m = Some v -> marshal (back v) = marshal v /\ proper (back v) = true) as Hv.
    { intros k v Hk. pose proof (assoc_In _ _ _ Hk) as Hin. apply (IH (k, v) Hin); [by eapply Hm|].
      apply (Hw (k, v)). by apply list_elem_of_In. }
    split.
    + cbn [marshal]. rewrite back_keys, sort_strings_idem.
      assert (map (marshal_member (map (fun kv => (kv.1, marshal kv.2)) (back_members m))) (sort_strings m.*1) =
              map (marshal_member (map (fun kv => (kv.1, marshal kv.2)) m)) (sort_strings m.*1)) as ->; [|done].
      apply map_ext. intros k. unfold marshal_member. rewrite !(assoc_map marshal), assoc_back.
      destruct (assoc k m) as [v|] eqn:Ek; simpl; [|done]. by rewrite (proj1 (Hv k v Ek)).
    + cbn [proper]. rewrite back_keys. apply andb_true_intro. split.
      * apply bool_decide_eq_true. by rewrite sort_strings_perm.
      * apply forallb_forall. intros [k v] Hin%list_elem_of_In. simpl.
        assert (assoc k (back_members m) = Some v) as Ek.
        { apply In_assoc; [|done]. rewrite back_keys. by rewrite sort_strings_perm. }
        rewrite assoc_back in Ek. destruct (assoc k m) as [w|] eqn:Ew; simplify_eq/=.
        rewrite (proj2 (Hv k w Ew)), andb_true_r. by apply (Hm k w).
Qed.

(** ** Paths

    What a place in an object may hold, so that the text of a path says which
    keys it goes through: keys have neither dots nor brackets, except in the
    flat maps, whose members are no containers. *)
Inductive mode := Plain | Flat | Leaf.
Definition key_mode (k : string) : mode := if isFlatKeyMap k then Flat else Plain.
Definition next_mode (md : mode) (s : seg) : mode :=
  match md, s with Leaf, _ => Leaf | _, Idx _ => Plain | Plain, Key k => key_mode k | Flat, Key _ => Leaf end.
Definition flat_key (k : string) : bool := match k with String c _ => negb (is_sep c) | EmptyString => false end.
Definition good_key (md : mode) (k : string) : bool := match md with Plain => plain k | Flat => flat_key k | Leaf => false end.
Fixpoint safe (md : mode) (v : json) : bool :=
  match v with
  | JArr l => match md with Leaf => false | _ => (Z.of_nat (length l) <=? int64_max) && forallb (safe Plain) l end
  | JObj m => forallb (fun kv => good_key md kv.1 && safe (next_mode md (Key kv.1)) kv.2) m
              && match md with Leaf => false | _ => true end
  | _ => true
  end.
Definition good_seg (md : mode) (s : seg) : bool :=
  match md, s with Leaf, _ => false | _, Key k => good_key md k | _, Idx i => Z.of_nat i <=? int64_max end.
Fixpoint safe_path (md : mode) (p : list seg) : bool :=
  match p with [] => true | s :: p => good_seg md s && safe_path (next_mode md s) p end.
Definition seg_step (s : seg) : pathStep := match s with Key k => StepKey k | Idx i => StepIndex (Z.of_nat i) end.

Lemma safe_member md v s : safe md v = true -> safe (next_mode md s) (member v s) = true.
Proof.
  intros Hv. destruct s as [k|i]; simpl.
  - unfold mget, as_obj. destruct v as [| | | | | |m|]; try done. destruct (assoc k m) as [w|] eqn:E; [|done].
    cbn [safe] in Hv. apply andb_prop in Hv as [Hv _]. rewrite forallb_forall in Hv. apply assoc_In, list_elem_of_In in E.
    specialize (Hv _ E). by apply andb_prop in Hv as [_ ?].
  - destruct v as [| | | | |l| |]; try (by destruct i). destruct (nth_in_or_default i l JNull) as [Hi|E]; [|by simpl; rewrite E].
    cbn [safe] in Hv. destruct md; try done; apply andb_prop in Hv as [_ Hv]; rewrite forallb_forall in Hv; by apply Hv.
Qed.
Lemma safe_at md v p : safe md v = true -> safe (foldl next_mode md p) (at_path v p) = true.
Proof. revert md v. induction p as [|s p IH]; intros md v Hv; [done|]. simpl. by apply IH, safe_member. Qed.
Lemma safe_leaf v : safe Leaf v = true -> (forall m, v <> JObj m) /\ (forall l, v <> JArr l).
Proof. split; intros ? ->; cbn in *; rewrite ?andb_false_r in *; done. Qed.

(** The places of a change are such paths. *)
Lemma change_safe md b a p : safe md b = true -> safe md a = true -> leaf_change b a p -> safe_path md p = true.
Proof.
  revert md b a. induction p as [|s p IH]; intros md b a Hb Ha Hl; [done|]. destruct Hl as [Hc Hl]. cbn [safe_path].
  rewrite (IH _ _ _ (safe_member md b s Hb) (safe_member md a s Ha) Hl), andb_true_r.
  destruct b as [| | | | |bl|bm|], a as [| | | | |al|am|]; try done; destruct s as [k|i].
  - simpl in Hl. by apply leaf_change_nil in Hl.
  - simpl in Hl. assert (i < Nat.max (length bl) (length al))%nat as Hi.
    { destruct (decide (i < Nat.max (length bl) (length al))%nat); [done|]. rewrite !nth_overflow in Hl by lia. by apply leaf_change_nil in Hl. }
    cbn [safe] in *. destruct md; try done; cbn [good_seg]; apply andb_prop in Ha as [Ha _], Hb as [Hb _]; lia.
  - cbn [safe] in Ha, Hb. apply andb_prop in Ha as [Ha Hmd], Hb as [Hb _]. rewrite forallb_forall in Ha, Hb.
    assert (good_key md k = true) as Hk; [|destruct md; [exact Hk|exact Hk|done]].
    simpl in Hl. destruct (assoc k bm) as [w|] eqn:Ew.
    + apply assoc_In, list_elem_of_In, Hb in Ew. by apply andb_prop in Ew as [? _].
    + destruct (assoc k am) as [w|] eqn:Ew'; [|by apply leaf_change_nil in Hl].
      apply assoc_In, list_elem_of_In, Ha in Ew'. by apply andb_prop in Ew' as [? _].
  - simpl in Hl. destruct i; by apply leaf_change_nil in Hl.
Qed.

(** *** Their text *)
Fixpoint suffix (p : list seg) : string :=
  match p with
  | [] => ""
  | Key k :: p => "." +:+ k +:+ suffix p
  | Idx i :: p => "[" +:+ itoa (Z.of_nat i) +:+ "]" +:+ suffix p
  end.
Lemma suffix_sep p : sep_start (suffix p).
Proof. destruct p as [|[k|i] p]; [by left|right..]; by eexists _, _. Qed.
Lemma render_suffix path p : path <> "" -> render_from path p = path +:+ suffix p.
Proof.
  revert path. induction p as [|[k|i] p IH]; intros path Hp; cbn [render_from foldl seg_path suffix]; [by rewrite sapp_nil_r| |].
  - unfold joinPath. rewrite bool_decide_eq_false_2 by done. fold (render_from (path +:+ "." +:+ k) p).
    rewrite IH by (destruct path; done). by rewrite !sapp_assoc.
  - fold (render_from (indexPath path i) p). unfold indexPath. rewrite IH by (destruct path; done). by rewrite !sapp_assoc.
Qed.
Lemma render_key k p : k <> "" -> render (Key k :: p) = k +:+ suffix p.
Proof. intros Hk. unfold render. cbn. by apply render_suffix. Qed.
Lemma segment_head rest k : plain k = true -> segment_match rest k = true -> head_key rest = k.
Proof.
  intros Hk Hm. assert (pathMatchesAny rest [k] = true) as Hp by (unfold pathMatchesAny; cbn [existsb]; by rewrite orb_false_r).
  rewrite matches_plain in Hp by done. by apply bool_decide_eq_true in Hp.
Qed.
Lemma plain_cons k : plain k = true -> exists c r, k = String c r /\ is_sep c = false.
Proof.
  intros [Hne%negb_true_iff%bool_decide_eq_false Hh%bool_decide_eq_true]%andb_prop. destruct k as [|c r]; [done|].
  exists c, r. split; [done|]. simpl in Hh. by destruct (is_sep c).
Qed.
Lemma longest_head rest m : forallb (fun kv => plain kv.1) m = true -> longest rest m = "" \/ longest rest m = head_key rest.
Proof.
  unfold longest. assert (forall best, best = "" \/ best = head_key rest -> forallb (fun kv : string * json => plain kv.1) m = true ->
    let r := foldl (fun best kv => if (strlen kv.1 <=? strlen best)%nat then best else if segment_match rest kv.1 then kv.1 else best) best m in
    r = "" \/ r = head_key rest) as Hgen; [|intros Hm; by apply Hgen; [left|]].
  induction m as [|[k v] m IH]; intros best Hb; simpl; [done|]. intros [Hk Hm]%andb_prop. apply IH; [|done].
  destruct (strlen k <=? strlen best)%nat; [done|]. destruct (segment_match rest k) eqn:E; [|done]. right. symmetry. by apply segment_head.
Qed.
Lemma matchKey_plain node k s : safe Plain node = true -> plain k = true -> sep_start s -> matchKey node (k +:+ s) = k.
Proof.
  intros Hn Hk Hs. pose proof (head_key_app k s Hk Hs) as Hh. unfold matchKey.
  destruct (plain_cons k Hk) as (c & r & Ek & _).
  assert ((match node with JObj m => longest (k +:+ s) m | _ => "" end) = "" \/
          (match node with JObj m => longest (k +:+ s) m | _ => "" end) = k) as [-> | ->].
  { destruct node as [| | | | | |m|]; auto. destruct (longest_head (k +:+ s) m) as [E|E]; [|by left|right; congruence].
    cbn [safe] in Hn. apply andb_prop in Hn as [Hn _].
    rewrite forallb_forall in Hn |- *. intros kv Hkv. by apply Hn, andb_prop in Hkv as [? _]. }
  - unfold empty. by rewrite bool_decide_eq_true_2 by done.
  - unfold empty. rewrite bool_decide_eq_false_2 by (by rewrite Ek). done.
Qed.
Lemma rest_after s t : String.substring (strlen s) (strlen (s +:+ t) - strlen s) (s +:+ t) = t.
Proof. rewrite strlen_app. replace (strlen s + strlen t - strlen s)%nat with (strlen t) by lia. apply substring_suffix. Qed.
Lemma cut_app c s t : contains_byte (chr c) s = false -> 0 <= c < 256 -> cut c (s +:+ String (chr c) t) = Some (s, t).
Proof.
  intros Hs Hc. induction s as [|d s IH].
  - rewrite app_nil_l. cbn [cut]. by rewrite byte_chr, Z.eqb_refl by done.
  - rewrite app_cons. cbn [cut]. unfold contains_byte in Hs. cbn [String.list_ascii_of_string existsb] in Hs.
    apply orb_false_elim in Hs as [Hd Hs]. destruct (Z.eqb_spec (byte d) c) as [<-|]; [|by rewrite (IH Hs)].
    rewrite chr_byte in Hd. by rewrite bool_decide_eq_true_2 in Hd.
Qed.
Lemma digits_no_byte c s : all_digits s = true -> is_digit (chr c) = false -> contains_byte (chr c) s = false.
Proof.
  intros Hs Hc. induction s as [|d s IH]; [done|]. unfold contains_byte in *. cbn [String.list_ascii_of_string existsb].
  apply andb_prop in Hs as [Hd Hs]. rewrite IH by done. destruct (bool_decide_reflect (d = chr c)) as [->|]; [congruence|done].
Qed.
Lemma itoa_nat i : itoa (Z.of_nat i) = utoa (Z.of_nat i).
Proof. unfold itoa. destruct (Z.ltb_spec (Z.of_nat i) 0); [lia|done]. Qed.
Lemma quoted_digits i : quoted_key (utoa (Z.of_nat i)) = None.
Proof.
  destruct (utoa_spec (Z.of_nat i)) as (d & ds & -> & Hd & _); [lia|]. unfold quoted_key.
  pose proof (byte_digit d Hd). replace (byte (digit d) =? 39) with false by lia. by replace (byte (digit d) =? 34) with false by lia.
Qed.
Definition key_start (path : string) : Prop := exists c r, path = String c r /\ is_sep c = false.
Lemma key_start_app k s : key_start k -> key_start (k +:+ s).
Proof. intros (c & r & -> & Hc). rewrite app_cons. by eexists _, _. Qed.
Lemma good_key_start md k : good_key md k = true -> key_start k.
Proof.
  destruct md; [apply plain_cons| |done]. cbn. destruct k as [|c r]; [done|]. intros Hc%negb_true_iff. by eexists _, _.
Qed.
Lemma tokenize_key quote whole fuel path node prev : key_start path ->
  tokenize quote whole (S fuel) path node prev =
  let key := if isFlatKeyMap prev then path else matchKey node path in
  let? steps := tokenize quote whole fuel (String.substring (strlen key) (strlen path - strlen key) path) (descendKey node key) key in
  Ok (StepKey key :: steps).
Proof.
  intros (c & r & -> & Hc). unfold is_sep in Hc. apply orb_false_elim in Hc as [Hc1 Hc2]. cbn [tokenize]. by rewrite Hc1, Hc2.
Qed.
Lemma tokenize_suffix quote whole p md fuel node prev : safe_path md p = true -> safe md node = true ->
  isFlatKeyMap prev = match md with Flat => true | _ => false end -> (strlen (suffix p) < fuel)%nat ->
  tokenize quote whole fuel (suffix p) node prev = Ok (map seg_step p).
Proof.
  revert md fuel node prev. induction p as [|s p IH]; intros md fuel node prev Hp Hn Hf Hfuel; [by destruct fuel; [lia|]|].
  cbn [safe_path] in Hp. apply andb_prop in Hp as [Hs Hp]. pose proof (safe_member md node s Hn) as Hn'.
  destruct s as [k|i]; cbn [suffix] in *; len_norm.
  - destruct fuel as [|[|fuel]]; [lia|simpl in Hfuel; lia|]. rewrite !app_cons, !app_nil_l.
    change (tokenize quote whole (S (S fuel)) (String "." (k +:+ suffix p)) node prev)
      with (tokenize quote whole (S fuel) (k +:+ suffix p) node prev).
    assert (good_key md k = true) as Hk by (destruct md; [exact Hs|exact Hs|discriminate]). clear Hs.
    rewrite tokenize_key by (eapply key_start_app, good_key_start, Hk). cbv zeta.
    assert ((if isFlatKeyMap prev then k +:+ suffix p else matchKey node (k +:+ suffix p)) = k) as ->.
    { rewrite Hf. destruct md; [|destruct p as [|? p]; [apply sapp_nil_r|done]|done].
      apply matchKey_plain; [done|done|apply suffix_sep]. }
    rewrite rest_after. unfold descendKey.
    assert (strlen k + strlen (suffix p) <= fuel)%nat as Hfu by (change (strlen ".") with 1%nat in Hfuel; len_norm; lia).
    assert (1 <= strlen k)%nat as Hk1 by (destruct (good_key_start _ _ Hk) as (c & r & -> & _); len_norm; lia).
    destruct md; [| |done].
    + rewrite (IH (key_mode k)); [done|done|done|unfold key_mode; by destruct (isFlatKeyMap k)|lia].
    + destruct p as [|? p]; [|done]. by destruct fuel; [lia|].
  - destruct fuel as [|fuel]; [lia|]. rewrite !app_cons, !app_nil_l. cbn [tokenize].
    replace (byte "[" =? 46) with false by done. replace (byte "[" =? 91) with true by done. cbv iota.
    change (String "]" (suffix p)) with (String (chr 93) (suffix p)).
    rewrite itoa_nat, (cut_app 93 (utoa (Z.of_nat i)) (suffix p)); [|by apply digits_no_byte; [apply utoa_digits; lia|]|lia].
    rewrite quoted_digits, <- itoa_nat, atoi_itoa by (destruct md; simpl in Hs; try done; lia).
    assert (descendIndex node (Z.of_nat i) = member node (Idx i)) as ->.
    { unfold descendIndex. cbn [member]. unfold as_arr. destruct node; try (by destruct i).
      destruct (Z.ltb_spec (Z.of_nat i) 0); [lia|]. by rewrite Nat2Z.id. }
    destruct md; [| |discriminate]; (rewrite (IH Plain); [done..|]; change (strlen "[") with 1%nat in Hfuel; lia).
Qed.

(** *** From the root *)
Definition is_array (v : json) : bool := match v with JArr _ => true | _ => false end.
(** No field of the root is named like a kind or is an array. *)
Definition root_ok (m : list (string * json)) : bool :=
  forallb (fun kv => negb (bool_decide (is_Some (resolveWorkloadKind kv.1))) && negb (is_array kv.2)) m.
Definition root_path (p : list seg) : Prop :=
  exists k p', p = Key k :: p' /\ resolveWorkloadKind k = None /\ (p' = [] \/ exists k' p'', p' = Key k' :: p'').
Lemma cut_None c s : contains_byte (chr c) s = false -> 0 <= c < 256 -> cut c s = None.
Proof.
  intros Hs Hc. induction s as [|d s IH]; [done|]. cbn [cut]. unfold contains_byte in Hs. cbn [String.list_ascii_of_string existsb] in Hs.
  apply orb_false_elim in Hs as [Hd Hs]. destruct (Z.eqb_spec (byte d) c) as [<-|]; [|by rewrite (IH Hs)].
  rewrite chr_byte in Hd. by rewrite bool_decide_eq_true_2 in Hd.
Qed.
Lemma plain_no_dot k : plain k = true -> contains_byte (chr 46) k = false.
Proof.
  intros [_ Hh%bool_decide_eq_true]%andb_prop. induction k as [|c k IH]; [done|]. simpl in Hh.
  destruct (is_sep c) eqn:Hc; [done|]. injection Hh as Hh. unfold contains_byte in *. cbn [String.list_ascii_of_string existsb].
  rewrite (IH Hh), orb_false_r. apply bool_decide_eq_false. intros ->. done.
Qed.
Lemma unqualified_root p : root_path p -> safe_path Plain p = true -> unqualified (render p) = render p.
Proof.
  intros (k & p' & -> & Hk & Hp') Hs. cbn in Hs. apply andb_prop in Hs as [Hpl _]. destruct (plain_cons k Hpl) as (c & r & Ek & Hc).
  rewrite render_key by (by rewrite Ek). unfold unqualified.
  assert (strip_prefix "." (k +:+ suffix p') = None) as ->.
  { rewrite Ek, app_cons. simpl. unfold is_sep in Hc. case_decide as E; [|done]. by subst. }
  destruct Hp' as [->|(k' & p'' & ->)]; cbn [suffix].
  - rewrite sapp_nil_r. by rewrite cut_None by (done || by apply plain_no_dot).
  - rewrite app_cons, app_nil_l. change (String "." (k' +:+ suffix p'')) with (String (chr 46) (k' +:+ suffix p'')).
    rewrite (cut_app 46 k); [|by apply plain_no_dot|lia]. rewrite Hk.
    rewrite bool_decide_eq_false_2 by (by intros []). by rewrite andb_false_r.
Qed.
Lemma tokenize_render quote p root : p <> [] -> root_path p -> safe_path Plain p = true -> safe Plain root = true ->
  tokenizePath quote (render p) root = Ok (map seg_step p).
Proof.
  intros Hne Hr Hp Hv. unfold tokenizePath. rewrite unqualified_root by done. destruct Hr as (k & p' & -> & _).
  pose proof Hp as Hp0. cbn in Hp. apply andb_prop in Hp as [Hk Hp'].
  assert (key_start k) as Hks by (by apply (good_key_start Plain)).
  set (whole := render (Key k :: p')).
  assert (whole = k +:+ suffix p') as E by (apply render_key; by destruct Hks as (? & ? & -> & _)).
  transitivity (tokenize quote whole (S (strlen whole)) (k +:+ suffix p') root ""); [by rewrite <- E|].
  rewrite tokenize_key by (by apply key_start_app). cbv zeta. change (isFlatKeyMap "") with false. cbv iota.
  rewrite matchKey_plain by (done || apply suffix_sep). rewrite rest_after.
  rewrite (tokenize_suffix quote whole p' (key_mode k)); [done|done|by apply (safe_member Plain root (Key k))|unfold key_mode; by destruct (isFlatKeyMap k)|].
  rewrite E. destruct Hks as (c & r & -> & _). len_norm. lia.
Qed.

(** ** One write

    [reaches v p]: the containers on the way to the place [p] are there. *)
Fixpoint reaches (v : json) (p : list seg) : Prop :=
  match p with
  | [] => True
  | Key k :: p => (exists m, v = JObj m) /\ (p = [] \/ reaches (member v (Key k)) p)
  | Idx i :: p => (exists l, v = JArr l /\ (i < length l)%nat) /\ (p = [] \/ reaches (member v (Idx i)) p)
  end.
(** The value with [x] at [p]; [None] removes a key. *)
Fixpoint assign (v : json) (p : list seg) (x : option json) : json :=
  match p with
  | [] => default JNull x
  | Key k :: p =>
    match v with
    | JObj m => JObj (match p, x with [], None => mdel k m | _, _ => mset k (assign (member v (Key k)) p x) m end)
    | _ => v
    end
  | Idx i :: p =>
    match v with JArr l => JArr (<[i := assign (member v (Idx i)) p x]> l) | _ => v end
  end.
Definition ends_in_key (p : list seg) : Prop := forall i, last p <> Some (Idx i).
#[global] Instance seg_eq_dec : EqDecision seg.
Proof. solve_decision. Defined.
Lemma member_key_mset m k x s : member (JObj (mset k x m)) s = if decide (s = Key k) then x else member (JObj m) s.
Proof.
  destruct s as [k'|i]; simpl; [|by destruct i]. unfold mget. rewrite assoc_mset. repeat case_decide; simplify_eq; done.
Qed.
Lemma member_key_mdel m k s : member (JObj (mdel k m)) s = if decide (s = Key k) then JNull else member (JObj m) s.
Proof.
  destruct s as [k'|i]; simpl; [|by destruct i]. unfold mget. rewrite assoc_mdel. repeat case_decide; simplify_eq; done.
Qed.
Lemma member_insert l i x s : (i < length l)%nat -> member (JArr (<[i := x]> l)) s = if decide (s = Idx i) then x else member (JArr l) s.
Proof.
  intros Hi. destruct s as [k|j]; simpl; [done|]. rewrite !nth_lookup. destruct (decide (i = j)) as [->|Hne].
  - rewrite decide_True by done. rewrite list_lookup_insert_eq by done. done.
  - rewrite decide_False by congruence. by rewrite list_lookup_insert_ne.
Qed.

(** What the steps of a write see at the first place. *)
Lemma assign_member v s p x : reaches v (s :: p) -> forall s', member (assign v (s :: p) x) s' = if decide (s' = s) then assign (member v s) p x else member v s'.
Proof.
  intros Hr s'. destruct s as [k|i]; cbn [reaches assign] in *.
  - destruct Hr as [[m ->] _]. destruct p as [|s'' p]; [|apply member_key_mset]. destruct x; [apply member_key_mset|apply member_key_mdel].
  - destruct Hr as [(l & -> & Hi) _]. by apply member_insert.
Qed.
Lemma assign_shape v s p x : reaches v (s :: p) -> same_container v (assign v (s :: p) x) = true /\
  (forall l, v = JArr l -> length (as_arr (assign v (s :: p) x)) = length l).
Proof.
  intros Hr. destruct s as [k|i]; cbn [reaches assign] in *.
  - destruct Hr as [[m ->] _]. split; [by destruct p, x|done].
  - destruct Hr as [(l & -> & Hi) _]. split; [done|]. intros l' [= <-]. simpl. by rewrite length_insert.
Qed.
Lemma reaches_member v s p : reaches v (s :: p) -> p = [] \/ reaches (member v s) p.
Proof. destruct s; by intros [_ ?]. Qed.
Lemma at_assign_same v p x : reaches v p -> at_path (assign v p x) p = default JNull x.
Proof.
  revert v. induction p as [|s p IH]; intros v Hr; [done|]. unfold at_path. cbn [foldl]. fold (at_path (member (assign v (s :: p) x) s) p).
  rewrite assign_member, decide_True by done. destruct (reaches_member v s p Hr) as [->|Hr']; [done|by apply IH].
Qed.
Lemma at_assign_other v p q x : reaches v p -> ~ p `prefix_of` q -> ~ q `prefix_of` p -> at_path (assign v p x) q = at_path v q.
Proof.
  revert v q. induction p as [|s p IH]; intros v q Hr Hpq Hqp; [by destruct Hpq; apply prefix_nil|].
  destruct q as [|s' q]; [by destruct Hqp; apply prefix_nil|]. unfold at_path. cbn [foldl]. rewrite assign_member by done.
  destruct (decide (s' = s)) as [->|Hne]; [|done]. fold (at_path (assign (member v s) p x) q). fold (at_path (member v s) q).
  assert (~ p `prefix_of` q) as Hpq' by (intros H; apply Hpq; by apply prefix_cons).
  assert (~ q `prefix_of` p) as Hqp' by (intros H; apply Hqp; by apply prefix_cons).
  destruct (reaches_member v s p Hr) as [->|Hr']; [by destruct Hpq'; apply prefix_nil|by apply IH].
Qed.
Definition same_shape (v w : json) : Prop := same_container v w = true /\ (forall l, v = JArr l -> length (as_arr w) = length l).
Lemma at_assign_shape v p s q x : reaches v (q ++ s :: p) -> same_shape (at_path v q) (at_path (assign v (q ++ s :: p) x) q).
Proof.
  revert v. induction q as [|s' q IH]; intros v Hr; [by apply assign_shape|]. unfold at_path. cbn [app foldl] in *.
  rewrite assign_member, decide_True by done. destruct (reaches_member v s' _ Hr) as [E|Hr']; [by destruct q|by apply IH].
Qed.
(** Safety is kept by the write of a value that is safe there. *)
Lemma assign_safe md v p x : safe md v = true -> safe_path md p = true -> safe (foldl next_mode md p) (default JNull x) = true ->
  reaches v p -> safe md (assign v p x) = true.
Proof.
  revert md v. induction p as [|s p IH]; intros md v Hv Hp Hx Hr; [done|]. cbn [safe_path foldl] in *. apply andb_prop in Hp as [Hs Hp].
  assert (safe (next_mode md s) (assign (member v s) p x) = true) as Hw.
  { destruct (reaches_member v s p Hr) as [->|Hr']; [done|]. apply IH; [by apply safe_member|done|done|done]. }
  destruct s as [k|i]; cbn [reaches assign] in *.
  - destruct Hr as [[m ->] _]. assert (good_key md k = true) as Hk by (destruct md; [exact Hs|exact Hs|discriminate]).
    cbn [safe] in Hv |- *. apply andb_prop in Hv as [Hm Hmd]. rewrite Hmd, andb_true_r. rewrite forallb_forall in Hm.
    assert (forall w, safe (next_mode md (Key k)) w = true -> forall kv, kv ∈ mset k w m -> good_key md kv.1 && safe (next_mode md (Key kv.1)) kv.2 = true) as Hset.
    { intros w Hsw. clear Hw. induction m as [|[k' v'] m IHm]; simpl.
      - intros kv ->%list_elem_of_singleton. simpl. by rewrite Hk, Hsw.
      - destruct (decide (k = k')) as [<-|Hne]; intros kv [->|Hin]%elem_of_cons.
        + simpl. by rewrite Hk, Hsw.
        + apply Hm. right. by apply list_elem_of_In.
        + apply Hm. by left.
        + apply IHm; [|done]. intros y Hy. apply Hm. by right. }
    apply forallb_forall. intros kv Hkv%list_elem_of_In. destruct p as [|s' p]; [destruct x as [w|]|].
    + by apply (Hset w).
    + unfold mdel in Hkv. apply list_elem_of_In, filter_In in Hkv as [Hkv _]. by apply Hm.
    + by apply (Hset (assign (member (JObj m) (Key k)) (s' :: p) x)).
  - destruct Hr as [(l & -> & Hi) _]. cbn [safe] in Hv |- *.
    destruct md; try done; apply andb_prop in Hv as [Hlen Hl]; rewrite length_insert, Hlen; simpl; rewrite forallb_forall in Hl |- *;
      intros y Hy%list_elem_of_In; apply list_elem_of_lookup in Hy as [j Hj];
      (destruct (decide (i = j)) as [<-|Hne]; [rewrite list_lookup_insert_eq in Hj by done; by injection Hj as <-|
        rewrite list_lookup_insert_ne in Hj by done; apply Hl, list_elem_of_In; by eapply list_elem_of_lookup_2]).
Qed.

(** *** The code's write *)
Section write.
Context (quote : string -> string).
Lemma reaches_container v s p : reaches v (s :: p) -> (exists m, v = JObj m) \/ (exists l, v = JArr l).
Proof. destruct s; [by intros [[m ->] _]; left; eexists|by intros [(l & -> & _) _]; right; eexists]. Qed.
Lemma reaches_app v q p : reaches v (q ++ p) -> q <> [] -> p <> [] -> reaches (at_path v q) p.
Proof.
  revert v. induction q as [|s q IH]; intros v Hr Hq Hp; [done|]. cbn [app] in Hr. destruct (reaches_member v s _ Hr) as [E|Hr'].
  - by apply app_eq_nil in E as [_ ?].
  - unfold at_path. cbn [foldl]. destruct q as [|s' q]; [done|]. by apply IH.
Qed.
Lemma reaches_at v q p : reaches v (q ++ p) -> p <> [] -> reaches (at_path v q) p.
Proof. intros Hr Hp. destruct q as [|s q]; [done|by apply reaches_app]. Qed.
Lemma in_range_idx i l : (i < length l)%nat -> out_of_range (Z.of_nat i) l = false.
Proof. intros Hi. unfold out_of_range. destruct (Z.ltb_spec (Z.of_nat i) 0), (Z.leb_spec (Z.of_nat (length l)) (Z.of_nat i)); [lia..|done]. Qed.
Lemma navigate_reaches create v q s : reaches v (q ++ [s]) -> navigate quote create v (map seg_step q) = Ok (at_path v q).
Proof.
  revert v. induction q as [|s' q IH]; intros v Hr; [done|]. cbn [app map] in *.
  destruct (reaches_member v s' _ Hr) as [E|Hr']; [by destruct q|]. pose proof (IH _ Hr') as Hn.
  assert (member v s' <> JNull) as Hne.
  { destruct q as [|s'' q]; destruct (reaches_container _ _ _ Hr') as [[? ->]|[? ->]]; done. }
  unfold at_path in *. cbn [foldl]. destruct s' as [k|i]; cbn [seg_step navigate reaches] in *.
  - destruct Hr as [[m ->] _]. cbn [member as_obj] in *. by destruct (mget (Some m) k).
  - destruct Hr as [(l & -> & Hi) _]. cbn [member as_arr] in *. by rewrite in_range_idx, Nat2Z.id by done.
Qed.
Lemma write_at_assign v q s x : reaches v (q ++ [s]) ->
  write_at v (map seg_step q) (assign (at_path v q) [s] x) = assign v (q ++ [s]) x.
Proof.
  revert v. induction q as [|s' q IH]; intros v Hr; [done|]. cbn [app map] in *.
  destruct (reaches_member v s' _ Hr) as [E|Hr']; [by destruct q|]. pose proof (IH _ Hr') as Hw.
  assert (member v s' <> JNull) as Hne.
  { destruct q as [|s'' q]; destruct (reaches_container _ _ _ Hr') as [[? ->]|[? ->]]; done. }
  destruct s' as [k|i]; cbn [seg_step write_at reaches assign] in *.
  - destruct Hr as [[m ->] _]. unfold at_path in *. cbn [foldl member as_obj] in *.
    assert ((match mget (Some m) k with JNull => JObj [] | next => next end) = mget (Some m) k) as -> by (by destruct (mget (Some m) k)).
    rewrite Hw. by destruct q.
  - destruct Hr as [(l & -> & Hi) _]. unfold at_path in *. cbn [foldl member as_arr] in *. by rewrite Nat2Z.id, Hw.
Qed.
Definition written (e : RevertEntry) : option json := if re_HasOld e then Some (normalizeJSONValue (re_Old e)) else None.
Lemma write_last_assign e s parent : reaches parent [s] -> (re_HasOld e = false -> exists k, s = Key k) ->
  write_last quote e (seg_step s) parent = Ok (assign parent [s] (written e)).
Proof.
  intros Hr Hk. unfold written. destruct s as [k|i]; cbn [seg_step write_last reaches assign] in *.
  - destruct Hr as [[m ->] _]. by destruct (re_HasOld e).
  - destruct Hr as [(l & -> & Hi) _]. destruct (re_HasOld e); [|by destruct Hk]. cbn [negb]. by rewrite in_range_idx, Nat2Z.id.
Qed.
Lemma applyRevert_assign r e p : re_Path e = render p -> p <> [] -> root_path p -> safe_path Plain p = true -> safe Plain r = true ->
  reaches r p -> (re_HasOld e = false -> ends_in_key p) -> applyRevert quote r e = Ok (assign r p (written e)).
Proof.
  intros He Hne Hroot Hp Hr Hre Hend. unfold applyRevert. rewrite He, tokenize_render by done. cbn [rbind].
  destruct (exists_last Hne) as (q & s & ->). rewrite map_app. cbn [map]. rewrite last_snoc, removelast_last.
  rewrite (navigate_reaches _ _ _ s) by done. pose proof (reaches_at _ _ _ Hre ltac:(done)) as Hs.
  rewrite write_last_assign; [|done|].
  - cbn [rbind]. by rewrite write_at_assign.
  - intros Hf. specialize (Hend Hf). destruct s as [k|i]; [by exists k|]. destruct (Hend i). apply last_snoc.
Qed.
End write.

(** ** All the writes *)
Fixpoint common (b a : json) (p : list seg) : Prop :=
  same_container b a = true /\ match p with [] => True | s :: p => common (member b s) (member a s) p end.
Fixpoint edge (b a : json) (p : list seg) : Prop :=
  match p with [] => same_container b a = false | s :: p => same_container b a = true /\ edge (member b s) (member a s) p end.
Lemma change_edge b a p : leaf_change b a p <-> edge b a p /\ jsonEqual (at_path b p) (at_path a p) = false.
Proof.
  revert b a. induction p as [|s p IH]; intros b a; simpl; [done|]. rewrite IH. unfold at_path. cbn [foldl]. tauto.
Qed.
Lemma common_at b a p : common b a p -> same_container (at_path b p) (at_path a p) = true.
Proof. revert b a. induction p as [|s p IH]; intros b a [Hc Hp]; [done|]. by apply IH. Qed.
Lemma edge_at b a p : edge b a p -> same_container (at_path b p) (at_path a p) = false.
Proof. revert b a. induction p as [|s p IH]; intros b a; [done|]. intros [_ ?]. by apply IH. Qed.
(** A place is common, or it is at or below an edge. *)
Lemma common_or_edge b a p : common b a p \/ exists q q', p = q ++ q' /\ edge b a q.
Proof.
  revert b a. induction p as [|s p IH]; intros b a; destruct (same_container b a) eqn:Hc;
    try (by right; eexists [], _); [by left|]. destruct (IH (member b s) (member a s)) as [Hp|(q & q' & -> & Hq)]; [by left|].
  right. by exists (s :: q), q'.
Qed.
Lemma edge_prefix b a q p : edge b a q -> edge b a p -> q `prefix_of` p -> q = p.
Proof.
  revert b a p. induction q as [|s q IH]; intros b a p Hq Hp [k ->]; destruct k as [|s' k]; rewrite ?app_nil_r; try done.
  - simpl in *. destruct Hp as [Hc _]. congruence.
  - destruct Hq as [_ Hq], Hp as [_ Hp]. cbn [app]. f_equal. eapply IH; [exact Hq|exact Hp|by eexists].
Qed.
Lemma edge_not_common b a q p : edge b a q -> common b a p -> ~ q `prefix_of` p.
Proof.
  revert b a p. induction q as [|s q IH]; intros b a p Hq Hp [k ->]; [by destruct k; destruct Hp as [Hc _]; simpl in Hq; congruence|].
  destruct Hq as [_ Hq], Hp as [_ Hp]. apply (IH _ _ _ Hq Hp). by eexists.
Qed.
Lemma no_change_equal v w p : proper v = true -> proper w = true -> jsonEqual v w = true -> ~ leaf_change v w p.
Proof. intros Hv Hw E Hl. apply leaf_change_differs in Hl; [congruence|done..]. Qed.
Lemma proper_at v p : proper v = true -> proper (at_path v p) = true.
Proof. revert v. induction p as [|s p IH]; intros v Hv; [done|]. by apply (IH (member v s)), proper_member. Qed.
Lemma exact_at v p : wire_exact v = true -> wire_exact (at_path v p) = true.
Proof.
  revert v. induction p as [|s p IH]; intros v Hv; [done|]. apply (IH (member v s)). destruct s as [k|i].
  - destruct v as [| | | | | |m|]; try done. simpl. unfold mget. destruct (assoc k m) as [w|] eqn:E; [|done].
    cbn [wire_exact] in Hv. rewrite forallb_forall in Hv. apply (Hv (k, w)). by apply list_elem_of_In, assoc_In.
  - destruct v as [| | | | |l| |]; try (by destruct i). simpl. destruct (nth_in_or_default i l JNull) as [Hi|E]; [|by rewrite E].
    cbn [wire_exact] in Hv. rewrite forallb_forall in Hv. by apply Hv.
Qed.
Lemma change_app b a q p : leaf_change b a (q ++ p) -> leaf_change (at_path b q) (at_path a q) p.
Proof. revert b a. induction q as [|s q IH]; intros b a; [done|]. intros [_ Hl]. by apply (IH (member b s) (member a s)). Qed.

(** Arrays that are in both objects have the same length, and what changes
    in them was not null. *)
Fixpoint arrays_match (b : json) : json -> bool :=
  match b with
  | JArr bl =>
    let ms := map arrays_match bl in
    fun a => match a with
             | JArr al => (length bl =? length al)%nat && forallb (fun v => negb (is_null v)) bl
                          && forallb (fun b => b) (zip_with (fun f v => f v) ms al)
             | _ => true
             end
  | JObj bm =>
    let ms := map (fun kv => (kv.1, arrays_match kv.2)) bm in
    fun a => match a with JObj am => forallb (fun kf => kf.2 (mget (Some am) kf.1)) ms | _ => true end
  | _ => fun _ => true
  end.
Lemma arrays_member b a s : arrays_match b a = true -> same_container b a = true -> arrays_match (member b s) (member a s) = true.
Proof.
  intros Hm Hc. destruct b as [| | | | |bl|bm|], a as [| | | | |al|am|]; try done; destruct s as [k|i]; cbn [member as_obj as_arr mget]; try done; try (by destruct i).
  - cbn [arrays_match] in Hm. apply andb_prop in Hm as [_ Hm]. rewrite forallb_forall in Hm. rewrite (nth_lookup bl).
    destruct (bl !! i) as [v|] eqn:Ev; [|done]. cbn [default from_option]. rewrite nth_lookup. destruct (al !! i) as [w|] eqn:Ew; cbn.
    + apply Hm, list_elem_of_In. apply list_elem_of_lookup. exists i. rewrite lookup_zip_with, list_lookup_fmap, Ev. simpl. by rewrite Ew.
    + by destruct v.
  - cbn [arrays_match] in Hm. rewrite forallb_forall in Hm. destruct (assoc k bm) as [v|] eqn:Ev; [|done]. cbn.
    apply assoc_In in Ev. apply (Hm (k, arrays_match v)), list_elem_of_In, list_elem_of_fmap. by exists (k, v).
Qed.
Lemma arrays_change b a p i : arrays_match b a = true -> leaf_change b a (p ++ [Idx i]) ->
  at_path b (p ++ [Idx i]) <> JNull /\ (i < length (as_arr (at_path a p)))%nat.
Proof.
  revert b a. induction p as [|s p IH]; intros b a Hm Hl; destruct Hl as [Hc Hl].
  - simpl. destruct b as [| | | | |bl|bm|], a as [| | | | |al|am|]; try done.
    + cbn [arrays_match] in Hm. apply andb_prop in Hm as [[Hlen%Nat.eqb_eq Hn]%andb_prop _]. cbn [member as_arr] in *.
      destruct (decide (i < length al)%nat) as [Hi|Hi]; [|by rewrite !nth_overflow in Hl by lia; apply (leaf_change_nil []) in Hl].
      split; [|done]. rewrite forallb_forall in Hn. rewrite <- Hlen in Hi. specialize (Hn _ (nth_In bl JNull Hi)). by destruct (nth i bl JNull).
    + simpl in Hl. by destruct i; apply (leaf_change_nil []) in Hl.
  - apply (IH (member b s) (member a s)); [by apply arrays_member|done].
Qed.

Lemma back_safe md v : safe md v = true -> safe md (back v) = true.
Proof.
  revert md. induction v as [| | | | |l IH|m IH|] using json_nested_ind; intros md Hv; try done.
  - unfold back. simpl. unfold number_value. destruct (parse_float _); [|done]. simpl. by destruct (f_eq _ _).
  - unfold back. simpl. destruct (format_shortest _ _); [|simpl; by destruct (f_eq _ _)]. unfold number_value.
    destruct (parse_float _); [|done]. simpl. by destruct (f_eq _ _).
  - rewrite back_arr. cbn [safe] in *. rewrite length_map. rewrite Forall_forall in IH.
    destruct md; try done; apply andb_prop in Hv as [-> Hv]; simpl; rewrite forallb_forall in Hv |- *;
      intros y (x & <- & Hx)%in_map_iff; apply IH; [by apply list_elem_of_In|by apply Hv|by apply list_elem_of_In|by apply Hv].
  - rewrite back_obj. cbn [safe] in *. apply andb_prop in Hv as [Hv ->]. rewrite andb_true_r. rewrite forallb_forall in Hv |- *.
    rewrite Forall_forall in IH. unfold back_members. intros y (k & <- & Hk)%in_map_iff. cbn [fst snd].
    apply list_elem_of_In in Hk. rewrite sort_strings_perm in Hk. rewrite (assoc_map back).
    destruct (assoc k m) as [w|] eqn:E; [|by apply assoc_None in E]. apply assoc_In in E. simpl.
    pose proof (Hv (k, w) ltac:(by apply list_elem_of_In)) as [Hg Hw]%andb_prop. simpl in Hg, Hw. rewrite Hg. by apply (IH (k, w)).
Qed.
Lemma render_inj p q : p <> [] -> q <> [] -> root_path p -> root_path q -> safe_path Plain p = true -> safe_path Plain q = true ->
  render p = render q -> p = q.
Proof.
  intros Hp Hq Hrp Hrq Hsp Hsq E. pose proof (tokenize_render id p JNull Hp Hrp Hsp eq_refl) as H1.
  rewrite E, (tokenize_render id q JNull Hq Hrq Hsq eq_refl) in H1. injection H1 as H1. symmetry in H1. revert H1. apply list_fmap_eq_inj.
  intros [k|i] [k'|j]; simpl; intros [= H]; [by subst|]. f_equal. lia.
Qed.
(** What travels for one reported field, and the entry it is read as. *)
Definition wire_entry (d : DiffEntry) : json := JObj [("path", JStr (Path d)); ("old", decoded (Before d))].
Definition entry_of (d : DiffEntry) : RevertEntry :=
  MkEntry (Path d) (decoded (Before d)) (negb (bool_decide (decoded (Before d) = JNull))).
Lemma parse_entries_wire i l : Forall (fun d => Path d <> "") l -> parse_entries i (map wire_entry l) = Ok (map entry_of l).
Proof.
  revert i. induction l as [|d l IH]; intros i Hl; [done|]. inversion Hl as [|? ? Hd Hl']; subst. cbn [map parse_entries wire_entry].
  unfold str, empty, get_str, mget. cbn. rewrite bool_decide_eq_false_2 by done. by rewrite IH.
Qed.
Lemma decoded_null v : decoded v = JNull -> v = JNull.
Proof.
  destruct v; try done; cbn [decoded].
  - unfold number_value. by destruct (parse_float _).
  - destruct (marshal _); [|done]. unfold number_value. by destruct (parse_float _).
Qed.
Lemma written_back d : default JNull (written (entry_of d)) = back (Before d).
Proof.
  unfold written, entry_of. cbn [re_HasOld re_Old]. destruct (bool_decide_reflect (decoded (Before d) = JNull)) as [E|]; [|done].
  simpl. unfold back. by rewrite E.
Qed.

Section composition.
Context (quote : string -> string) (o n : list (string * json)).
Hypothesis (Hpo : proper (JObj o) = true) (Hso : safe Plain (JObj o) = true) (Hsn : safe Plain (JObj n) = true).
Hypothesis (Hro : root_ok o = true) (Hrn : root_ok n = true) (Hwo : wire_exact (JObj o) = true).
Hypothesis (Harr : arrays_match (JObj o) (JObj n) = true).
Notation O := (JObj o).
Notation N := (JObj n).
(** The value reverted at the places [ps] so far: elsewhere as the new
    object, at an edge that was reverted as the old one. *)
Record between (ps : list (list seg)) (r : json) : Prop := {
  bt_safe : safe Plain r = true;
  bt_shape p : common O N p -> same_shape (at_path N p) (at_path r p);
  bt_edge p : edge O N p -> at_path r p = if decide (p ∈ ps) then back (at_path O p) else at_path N p }.
Lemma between_nil : between [] N.
Proof using Hsn.
  split; [done| |].
  - intros p Hp. apply common_at in Hp. split; [by destruct (at_path O p), (at_path N p)|]. by intros l ->.
  - intros p _. destruct (decide (p ∈ [])) as [H|]; [by apply elem_of_nil in H|done].
Qed.
Lemma root_change p : leaf_change O N p -> p <> [] /\ root_path p.
Proof using Hro Hrn.
  intros Hl. pose proof Hl as (k & p' & -> & Hl' & Hin)%leaf_change_obj. split; [done|]. exists k, p'. split; [done|].
  unfold root_ok in Hro, Hrn. rewrite forallb_forall in Hro, Hrn. split.
  - assert (forall m, (forall kv, In kv m -> negb (bool_decide (is_Some (resolveWorkloadKind kv.1))) && negb (is_array kv.2) = true) ->
      k ∈ (m : list (string * json)).*1 -> resolveWorkloadKind k = None) as Hk.
    { intros m Hm (kv & -> & Hkv)%list_elem_of_fmap. apply list_elem_of_In, Hm in Hkv. apply andb_prop in Hkv as [Hkv _].
      apply negb_true_iff, bool_decide_eq_false in Hkv. by apply eq_None_not_Some. }
    destruct Hin as [Hin|Hin]; [by apply (Hk o)|by apply (Hk n)].
  - destruct p' as [|[k'|i] p']; [by left|right; by eexists _, _|].
    exfalso. destruct Hl' as [Hc Hl'].
    assert (is_array (mget (Some o) k) = false) as Hna.
    { unfold mget. destruct (assoc k o) as [v|] eqn:E; [|done]. apply assoc_In, list_elem_of_In, Hro in E.
      apply andb_prop in E as [_ E]. by apply negb_true_iff in E. }
    destruct (mget (Some o) k), (mget (Some n) k); try done; simpl in Hl'; destruct i; by apply leaf_change_nil in Hl'.
Qed.
Lemma change_reaches ps r p : between ps r -> leaf_change O N p -> reaches r p.
Proof using Harr.
  intros Hb Hl. assert (forall q s p', p = q ++ s :: p' -> reaches (at_path r q) [s]) as Hpre.
  { intros q s p' ->. pose proof (change_app _ _ _ _ Hl) as [Hc Hm].
    assert (common O N q) as Hq.
    { clear - Hl. revert Hl. generalize O N. induction q as [|s' q IH]; intros b a [Hc Hl]; [by split|]. split; [done|by apply IH]. }
    destruct (bt_shape ps r Hb q Hq) as [Hsame Hlen]. destruct s as [k|i]; cbn [reaches].
    - destruct (at_path O q), (at_path N q), (at_path r q); try done; simpl in Hm; try (by apply leaf_change_nil in Hm). by split; [eexists|left].
    - destruct (at_path O q) as [| | | | |ol|om|] eqn:EO, (at_path N q) as [| | | | |nl|nm|] eqn:EN, (at_path r q) as [| | | | |rl|rm|] eqn:ER; try done; simpl in Hm;
        try (by destruct i; apply leaf_change_nil in Hm). split; [|by left]. exists rl. split; [done|]. specialize (Hlen nl eq_refl). simpl in Hlen.
      rewrite Hlen. destruct p' as [|s' p'].
      + pose proof (arrays_change _ _ _ _ Harr Hl) as [_ Hi]. by rewrite EN in Hi.
      + destruct (decide (i < length nl)%nat) as [|Hi]; [done|]. destruct Hm as [Hm _]. rewrite (nth_overflow nl) in Hm by lia.
        by destruct (nth i ol JNull). }
  clear Hl Hb. revert r Hpre. induction p as [|s p IH]; intros r Hpre; [done|].
  pose proof (Hpre [] s p eq_refl) as Hs. assert (p = [] \/ reaches (member r s) p) as Hp.
  { destruct p as [|s' p]; [by left|right]. apply IH. intros q s'' p' E. apply (Hpre (s :: q) s'' p'). by rewrite E. }
  destruct s as [k|i]; destruct Hs as [Hs _]; by split.
Qed.

Definition reported (p : list seg) : DiffEntry := MkDiff (render p) (at_path O p) (at_path N p).
Lemma shape_trans u v w : same_shape u v -> same_shape v w -> same_shape u w.
Proof.
  intros [Huv Huv'] [Hvw Hvw']. split; [by destruct u, v, w|]. intros l ->. destruct v; try done. rewrite (Hvw' _ eq_refl). by apply Huv'.
Qed.
Lemma revert_step ps r p : between ps r -> leaf_change O N p ->
  exists r', applyRevert quote r (entry_of (reported p)) = Ok r' /\ between (p :: ps) r'.
Proof using All.
  intros Hb Hl. destruct (root_change p Hl) as [Hne Hroot]. pose proof (change_safe Plain _ _ _ Hso Hsn Hl) as Hsp.
  pose proof (change_reaches ps r p Hb Hl) as Hre. pose proof (proj1 (proj1 (change_edge O N p) Hl)) as He.
  pose proof (written_back (reported p)) as Hw. cbn [reported Before] in Hw.
  eexists. split; [apply (applyRevert_assign quote r _ p); try done; [apply (bt_safe ps r Hb)|]|].
  - cbn. intros Hnull%negb_false_iff%bool_decide_eq_true%decoded_null i Hlast. apply last_Some in Hlast as [q ->].
    by destruct (arrays_change _ _ _ _ Harr Hl).
  - split.
    + apply assign_safe; [apply (bt_safe ps r Hb)|done| |done]. rewrite Hw. apply back_safe. by apply safe_at.
    + intros q Hq. eapply shape_trans; [by apply (bt_shape ps r Hb)|]. destruct (decide (q `prefix_of` p)) as [[q' ->]|Hn].
      * destruct q' as [|s q']; [rewrite app_nil_r in *; by destruct (edge_not_common _ _ _ _ He Hq)|by apply at_assign_shape].
      * rewrite at_assign_other; [|done|by eapply edge_not_common|done]. split; [|by intros l ->].
        pose proof (proj1 (bt_shape ps r Hb q Hq)) as Hc. by destruct (at_path N q), (at_path r q).
    + intros q Hq. destruct (decide (q = p)) as [->|Hqp].
      * rewrite at_assign_same by done. rewrite Hw. by rewrite decide_True by left.
      * rewrite at_assign_other; [|done|intros Hp; apply Hqp; symmetry; by eapply edge_prefix|intros Hp; apply Hqp; by eapply edge_prefix].
        rewrite (bt_edge ps r Hb q Hq). destruct (decide (q ∈ ps)), (decide (q ∈ p :: ps)); try done; set_solver.
Qed.
Lemma revert_steps l ps r : between ps r -> Forall (fun d => exists p, leaf_change O N p /\ d = reported p) l ->
  exists r' ps', applyReverts quote r (map entry_of l) = Ok r' /\ between ps' r' /\ (forall p, p ∈ ps -> p ∈ ps') /\
    forall p, leaf_change O N p -> reported p ∈ l -> p ∈ ps'.
Proof using All.
  revert ps r. induction l as [|d l IH]; intros ps r Hb Hl.
  - exists r, ps. split_and!; [done|done|done|]. by intros p _ ?%elem_of_nil.
  - inversion Hl as [|? ? (p & Hp & ->) Hl']; subst. destruct (revert_step ps r p Hb Hp) as (r1 & E1 & Hb1).
    destruct (IH _ _ Hb1 Hl') as (r' & ps' & E & Hb' & Hps & Hrep). exists r', ps'. cbn [map applyReverts]. rewrite E1. cbn [rbind].
    split_and!; [done|done|intros q Hq; apply Hps; by right|]. intros q Hq [E2|Hin]%elem_of_cons; [|by apply Hrep].
    assert (q = p) as ->; [|by apply Hps; left]. injection E2 as E2 _ _. destruct (root_change p Hp), (root_change q Hq).
    apply render_inj; try done; by apply (change_safe Plain O N).
Qed.
End composition.

Definition sample_pod (replicas : Z) (image : string) (stamp : list (string * json)) (extra : list (string * json)) : list (string * json) :=
  [("kind", JStr "Deployment"); ("metadata", JObj [("name", JStr "web")]);
   ("spec", JObj ([("replicas", JInt replicas);
                   ("template", JObj [("metadata", JObj [("annotations", JObj stamp)]);
                                      ("spec", JObj [("containers", JArr [JObj [("name", JStr "app"); ("image", JStr image)]])])])] ++ extra))].
Definition sample_before : list (string * json) :=
  sample_pod 2 "web:1" [("kubectl.kubernetes.io/restartedAt", JStr "monday"); ("app.io/team", JStr "a")] [("paused", JBool true)].
Definition sample_after : list (string * json) :=
  sample_pod 5 "web:2" [("kubectl.kubernetes.io/restartedAt", JStr "friday"); ("app.io/owner", JStr "b")] [("minReadySeconds", JInt 3)].
Example sample_paths : map Path (ComputeSpecDiff (Some sample_after) (Some sample_before) DefaultSpecDiffOptions) =
  ["spec.minReadySeconds"; "spec.paused"; "spec.replicas"; "spec.template.metadata.annotations.app.io/owner";
   "spec.template.metadata.annotations.app.io/team"; "spec.template.metadata.annotations.kubectl.kubernetes.io/restartedAt";
   "spec.template.spec.containers[0].image"].
Proof. vm_compute. reflexivity. Qed.

(** Integers that binary64 represents come back as they were. *)
Lemma f_to_int_val a : 0 < a < 2 ^ 53 -> f_to_int (val a 0) = a.
Proof.
  intros Ha. pose proof (log2_range a Ha) as Hl. unfold val, f_to_int. set (e := Z.log2 a - 52 - 0).
  assert ((if 0 <=? e then mant a * 2 ^ e else mant a / 2 ^ (- e)) = a) as ->.
  { unfold mant, e. destruct (Z.leb_spec 0 (Z.log2 a - 52 - 0)).
    - assert (Z.log2 a = 52) as -> by lia. change (2 ^ (52 - 52)) with 1. change (2 ^ (52 - 52 - 0)) with 1. lia.
    - replace (- (Z.log2 a - 52 - 0)) with (52 - Z.log2 a) by lia. apply Z.div_mul. pose proof (Z.pow_pos_nonneg 2 (52 - Z.log2 a)). lia. }
  cbn [signed]. destruct (Z.leb_spec int64_min a), (Z.leb_spec a int64_max); try done; unfold int64_min, int64_max in *; lia.
Qed.
Lemma f_eq_refl_finite s m e : f_eq (F64 s m e) (F64 s m e) = true.
Proof. unfold f_eq, f_compare. by rewrite Z.compare_refl. Qed.
Lemma parse_integer z : 0 < z < 2 ^ 53 -> parse_float (utoa z) = Some (val z 0).
Proof.
  intros Hz. destruct (utoa_spec z) as (d & ds & E & Hd & Hds & _); [lia|]. pose proof (byte_digit d Hd) as Hb. unfold parse_float.
  assert ((match utoa z with String c r => if byte c =? 45 then (true, r) else (false, utoa z) | "" => (false, utoa z) end) = (false, utoa z)) as ->.
  { rewrite E. destruct (Z.eqb_spec (byte (digit d)) 45); [lia|done]. }
  pose proof (utoa_span z "" ltac:(lia) ltac:(by left)) as Hs. rewrite sapp_nil_r in Hs. rewrite Hs. cbn [parse_exponent].
  rewrite sapp_nil_r. rewrite bool_decide_eq_false_2 by (by rewrite E). rewrite digits_value_utoa by lia.
  change (Z.of_nat (strlen "")) with 0. rewrite Z.sub_0_r. unfold decimal_to_float. destruct (Z.eqb_spec z 0); [lia|].
  assert (Z.of_nat (strlen (utoa z)) <= 53) as Hlen.
  { unfold utoa. pose proof (dec_digits_fuel (S (Z.to_nat (Z.log2 z))) z "") as Hf. change (strlen "") with 0%nat in Hf.
    pose proof (log2_range z Hz). lia. }
  destruct (Z.ltb_spec 310 (Z.of_nat (strlen (utoa z)) + 0)); [lia|]. destruct (Z.ltb_spec (Z.of_nat (strlen (utoa z)) + 0) (-330)); [lia|].
  change (0 <=? 0) with true. cbv iota. rewrite Z.pow_0_r, Z.mul_1_r.
  pose proof (f_of_Z_val z Hz) as Hv. unfold f_of_Z in Hv. destruct (Z.ltb_spec z 0); [lia|]. rewrite Z.abs_eq in Hv by lia.
  unfold of_ratio in Hv. destruct (Z.eqb_spec z 0); [lia|]. destruct (round_rat z 1) as [[m e]|]; [by rewrite Hv|discriminate].
Qed.
Lemma integer_back z : 0 <= z < 2 ^ 53 -> back (JInt z) = JInt z.
Proof.
  intros Hz. destruct (Z.eq_dec z 0) as [->|Hz0]; [vm_compute; reflexivity|].
  unfold back. cbn [decoded]. unfold number_value, itoa. destruct (Z.ltb_spec z 0); [lia|]. rewrite parse_integer by lia.
  cbn [normalizeJSONValue]. rewrite f_to_int_val, f_of_Z_val by lia. unfold val at 1 2. by rewrite f_eq_refl_finite.
Qed.

(** ** Concurrent writers *)
Lemma applyRevert_obj quote m e r : applyRevert quote (JObj m) e = Ok r -> exists m', r = JObj m'.
Proof.
  unfold applyRevert. destruct (tokenizePath _ _ _) as [steps|]; [cbn [rbind]|done]. destruct (last steps) as [final|] eqn:El; [|done].
  apply last_Some in El as [before ->]. rewrite removelast_last. destruct (navigate _ _ _ _) as [parent|] eqn:En.
  - destruct (write_last _ _ _ _) as [parent'|] eqn:Ew; [cbn [rbind]|done]. intros [= <-].
    destruct before as [|[k|i] before]; cbn [write_at]; [|by eexists|done]. injection En as <-.
    destruct final as [k|i]; [|done]. cbn in Ew. injection Ew as <-. by eexists.
  - destruct (re_HasOld e); [done|]. intros [= <-]. by eexists.
Qed.
Lemma applyReverts_obj quote m entries r : applyReverts quote (JObj m) entries = Ok r -> exists m', r = JObj m'.
Proof.
  revert m. induction entries as [|e entries IH]; intros m; cbn [applyReverts]; [intros [= <-]; by eexists|].
  destruct (applyRevert _ _ _) as [r1|] eqn:E; [cbn [rbind]|done]. apply applyRevert_obj in E as [m' ->]. apply IH.
Qed.
