(* ===== verification/RuleApis.v ===== *)
(** * Silences and Loki rules (pkg/mutate/silence.go, lokirules.go)

    Requests to AlertManager and to the Loki ruler that the agent forwards.
    A parameter that becomes part of a URL is percent-encoded; the theorem
    shows that different silences and rule groups get different URLs. *)

From S2P Require Import Prelude GoText GoJson GoStruct CanonJson GoMarshal GoUrl.

#[local] Set Default Proof Using "Type".

(** ** The exchanges *)
Record api_request := MkApiRequest { q_method : string; q_url : string; q_headers : list (string * string); q_body : option string }.
Section apis.
(** [http.NewRequestWithContext], and [client.Do] with [io.ReadAll]. *)
Context (new_request : string -> string -> result unit) (client_do : api_request -> result (Z * result string)).
(** [Header.Set] for each of the configured headers, after the content type. *)
Definition api_headers (content_type : option string) (configured : list (string * string)) : list (string * string) :=
  foldl (fun hs kv => mset kv.1 kv.2 hs) (match content_type with Some t => [("Content-Type", t)] | None => [] end) configured.
Definition exchange (transport_error status_error : string) (req : api_request) : result string :=
  match new_request (q_method req) (q_url req) with
  | Err e => Err e
  | Ok _ =>
    match client_do req with
    | Err e => Err (transport_error +:+ e)
    | Ok (_, Err e) => Err e
    | Ok (status, Ok body) => if 400 <=? status then Err (status_error +:+ itoa status +:+ ": " +:+ body) else Ok body
    end
  end.

(** *** silence.go *)
Definition no_alertmanager {A} : result A := Err "mutate: AlertManager URL not configured".
Section silences.
Context (AlertManagerURL : string) (AlertManagerHeaders : list (string * string)).
Definition amDo (method u : string) (body : option string) : result string :=
  exchange ("alertmanager " +:+ method +:+ " " +:+ u +:+ ": ") "alertmanager HTTP "
    (MkApiRequest method u (api_headers (match body with Some _ => Some "application/json" | None => None end) AlertManagerHeaders) body).
Definition silences_url (filters : list string) : string :=
  trim_slashes AlertManagerURL +:+ "/api/v2/silences"
  +:+ (match filters with [] => "" | _ => "?" +:+ encode_query [("filter", filters)] end).
Definition silence_url (id : string) : string := trim_slashes AlertManagerURL +:+ "/api/v2/silence/" +:+ PathEscape id.
Definition GetSilences (filters : list string) : result string :=
  if bool_decide (AlertManagerURL = "") then no_alertmanager else amDo "GET" (silences_url filters) None.
Definition AddSilence (body : string) : result string :=
  if bool_decide (AlertManagerURL = "") then no_alertmanager
  else if bool_decide (body = "") then Err "mutate: silence body required"
  else amDo "POST" (silences_url []) (Some body).
Definition DeleteSilence (id : string) : result string :=
  if bool_decide (AlertManagerURL = "") then no_alertmanager
  else if bool_decide (id = "") then Err "mutate: silence id required"
  else amDo "DELETE" (silence_url id) None.
End silences.
(** The encoder's error text is left out. *)
Definition ParseSilenceBody (p : gomap) : result string :=
  let encoded v := match marshal v with Some b => Ok b | None => Err "" end in
  match p with
  | None => encoded JNull
  | Some m => match assoc "body" m with Some body => encoded body | None => encoded (JObj m) end
  end.

(** *** lokirules.go *)
Section loki.
Context (LokiRulesURL : string) (LokiRulesHeaders : list (string * string)).
Definition lokiDo (method u : string) (content_type : option string) (body : option string) : result string :=
  exchange "loki rules: " "loki rules HTTP " (MkApiRequest method u (api_headers content_type LokiRulesHeaders) body).
Definition rules_url (namespace : string) : string := trim_slashes LokiRulesURL +:+ "/loki/api/v1/rules/" +:+ PathEscape namespace.
Definition group_url (namespace group : string) : string := rules_url namespace +:+ "/" +:+ PathEscape group.
Definition no_loki {A} : result A := Err "mutate: LokiRulesURL not configured".
Definition CreateOrReplaceLokiAlertRule (namespace body : string) : result string :=
  if bool_decide (LokiRulesURL = "") then no_loki
  else if bool_decide (namespace = "") || bool_decide (body = "") then Err "mutate: namespace and body required"
  else lokiDo "POST" (rules_url namespace) (Some "application/yaml") (Some body).
Definition DeleteLokiAlertRule (namespace group : string) : result string :=
  if bool_decide (LokiRulesURL = "") then no_loki
  else if bool_decide (namespace = "") || bool_decide (group = "") then Err "mutate: namespace and group required"
  else lokiDo "DELETE" (group_url namespace group) None None.
End loki.
End apis.

(** ** URLs *)
(** Different silences and different rule groups have different URLs, so a
    deletion cannot reach another one, whatever bytes the names have. *)
Lemma rule_urls_unambiguous base loki_base :
  (forall id id', silence_url base id = silence_url base id' -> id = id') /\
  (forall ns g ns' g', group_url loki_base ns g = group_url loki_base ns' g' -> ns = ns' /\ g = g').
Proof.
  split.
  - intros id id' E. apply sapp_inj_l, sapp_inj_l in E. by apply (inj PathEscape).
  - intros ns g ns' g' E. unfold group_url, rules_url in E. rewrite !sapp_assoc in E. apply sapp_inj_l, sapp_inj_l in E.
    apply split_at_slash in E as [E1 E2]; [|apply escaped_no_slash..]. split; by apply (inj PathEscape).
Qed.
