(* ===== verification/Volumes.v ===== *)
(** * Volumes (pkg/mutate/pvc.go)

    [rightsize_pvc] compares the provisioned size with the wanted one and
    expands in place, migrates to a smaller claim ([PvcDownsize]) or does
    nothing; [volume_delete] removes a volume with the claim bound to it. *)

From stdpp Require Import strings.
From S2P Require Import Prelude GoText GoJson PvcDownsize KubeApi Workload.

#[local] Set Default Proof Using "Type".

(** ** Resizing *)

(** What the routing reads of a claim: provisioned and requested size (zero
    when absent) and the storage class. *)
Record claim (Q : Type) := MkClaim { cl_capacity : Q; cl_request : Q; cl_class : option string }.
Arguments MkClaim {Q} _ _ _.
Arguments cl_capacity {Q} _.
Arguments cl_request {Q} _.
Arguments cl_class {Q} _.
(** Its calls, with the texts of their errors: reading a claim, reading
    [allowVolumeExpansion] of a storage class, patching a claim. *)
Class ClaimApi (Q K : Type) := {
  get_claim : string -> string -> K -> (string + claim Q) * K;
  get_expansion : string -> K -> (string + option bool) * K;
  patch_claim : string -> string -> string -> K -> option string * K }.

Section resizing.
Context {Q K : Type} `{Quantities Q} `{Cluster Q K} `{ClaimApi Q K}.
(** [resource.ParseQuantity], [Quantity.String], [%q]. *)
Context (ParseQuantity : string -> result Q) (quantity_text : Q -> string) (quote : string -> string).
Inductive resizing :=
  | Failure (msg : string) (k : K)
  | Success (message : string) (k : K)
  | Migrated (r : option failure * @migration K).
Definition storage_patch (size : string) : string :=
  one_key "spec" (one_key "resources" (one_key "requests" (one_key "storage" (quote size)))).
Definition current_size (c : claim Q) : Q := if quantity_cmp (cl_capacity c) quantity_zero =? 0 then cl_request c else cl_capacity c.
(** Why the storage class refuses an expansion. *)
Definition expansion_refused (c : claim Q) (k : K) : option string * K :=
  match cl_class c with
  | None => (None, k)
  | Some sc =>
    if bool_decide (sc = "") then (None, k)
    else match get_expansion sc k with
    | (inl e, k) => (Some ("rightsize_pvc: get storageclass " +:+ quote sc +:+ ": " +:+ e), k)
    | (inr (Some true), k) => (None, k)
    | (inr _, k) => (Some ("rightsize_pvc: storageclass " +:+ quote sc +:+ " does not allow volume expansion"), k)
    end
  end.
Definition RightsizePVC (m : Mutator) (client exec_configured : bool) (namespace name size : string) (k : K) : resizing :=
  if negb client then Failure "mutate: client not configured" k
  else if empty namespace || empty name || empty size then Failure "mutate: namespace, name and size required" k
  else match ParseQuantity size with
  | Err e => Failure ("rightsize_pvc: invalid size " +:+ quote size +:+ ": " +:+ e) k
  | Ok target =>
    let where_ := namespace +:+ "/" +:+ name in
    match get_claim namespace name k with
    | (inl e, k) => Failure ("rightsize_pvc: get pvc " +:+ where_ +:+ ": " +:+ e) k
    | (inr pvc, k) =>
      let current := current_size pvc in
      let order := quantity_cmp target current in
      if order =? 0 then Success ("pvc " +:+ where_ +:+ " already at " +:+ quantity_text current) k
      else if order =? -1 then Migrated (DownsizePVC m exec_configured name target k)
      else match expansion_refused pvc k with
      | (Some e, k) => Failure e k
      | (None, k) =>
        match patch_claim namespace name (storage_patch (quantity_text target)) k with
        | (Some e, k) => Failure ("rightsize_pvc: patch pvc " +:+ where_ +:+ " to " +:+ quantity_text target +:+ ": " +:+ e) k
        | (None, k) => Success ("pvc " +:+ where_ +:+ " expansion to " +:+ quantity_text target +:+ " requested") k
        end
      end
    end
  end.
(** Claims never shrink in place: a request is an expansion only of a claim
    smaller than the wanted size. *)
Lemma shrinking_migrates m client exec_configured namespace name size k pvc k' target :
  client = true -> namespace <> "" -> name <> "" -> size <> "" -> ParseQuantity size = Ok target -> get_claim namespace name k = (inr pvc, k') ->
  quantity_cmp target (current_size pvc) = -1 ->
  RightsizePVC m client exec_configured namespace name size k = Migrated (DownsizePVC m exec_configured name target k').
Proof.
  intros -> Hns Hn Hs Hp Hg Hc. unfold RightsizePVC, empty. rewrite !bool_decide_eq_false_2 by done. cbn [negb orb]. by rewrite Hp, Hg, Hc.
Qed.
End resizing.

(** ** Deleting *)
Definition persistentvolumes : gvr := ("", "v1", "persistentvolumes").
Definition persistentvolumeclaims : gvr := ("", "v1", "persistentvolumeclaims").
Section deleting.
(** Whether the client is set; [spec.claimRef] of a volume, namespace and name. *)
Context (client : bool) (claim_ref : obj -> option (string * string)).
Definition volume_target (pvName : string) : target := MkTarget persistentvolumes None pvName.
Definition claim_target (ref : string * string) : target := MkTarget persistentvolumeclaims (Some ref.1) ref.2.
(** A reference with a name. *)
Definition bound_claim (pv : obj) : option (string * string) :=
  match claim_ref pv with Some (ns, name) => if empty name then None else Some (ns, name) | None => None end.
(** A deletion for which a missing object is no error. *)
Definition delete_if_there (prefix : string) (t : target) : act unit :=
  do! r := atry (perform (Delete t false None)) in
  match r with
  | inl (NotFound _) | inr _ => aret tt
  | inl e => afail (wrapped prefix e)
  end.
Definition succeeded (msg : string) : json := JObj [("success", JBool true); ("message", JStr msg)].
Definition DeleteVolume (pvName : string) : act json :=
  if negb client then no_client
  else if empty pvName then err "mutate: pv name required"
  else
    do! got := atry (perform1 (Get (volume_target pvName))) in
    match got with
    | inl (NotFound _) => aret (succeeded ("pv " +:+ pvName +:+ " already deleted"))
    | inl e => afail (wrapped ("volume_delete: get pv " +:+ pvName +:+ ": ") e)
    | inr pv =>
      do! deletedPVC := match bound_claim pv with
        | Some ref =>
          do! _ := delete_if_there ("volume_delete: delete bound pvc " +:+ ref.1 +:+ "/" +:+ ref.2 +:+ ": ") (claim_target ref) in
          aret (ref.1 +:+ "/" +:+ ref.2)
        | None => aret ""
        end in
      do! _ := delete_if_there ("volume_delete: delete pv " +:+ pvName +:+ ": ") (volume_target pvName) in
      aret (succeeded (if empty deletedPVC then "pv " +:+ pvName +:+ " deleted"
                       else "pv " +:+ pvName +:+ " and bound pvc " +:+ deletedPVC +:+ " deleted"))
    end.
(** Success means that the claim bound to the volume and then the volume were
    deleted, or were gone already. *)
Definition gone (s : server) (log : list call) (t : target) : Prop :=
  match s log (Delete t false None) with Answered _ | Failed (NotFound _) => True | _ => False end.
Lemma deleted_if_there prefix t s log r log' : delete_if_there prefix t s log = (inr r, log') -> log' = log ++ [Delete t false None] /\ gone s log t.
Proof. unfold delete_if_there, gone, abind, atry, perform, aret, afail. by destruct (s log _) as [|[]]; intros [= _ <-]. Qed.
Lemma volume_delete_success pvName s log r log' pv items : s log (Get (volume_target pvName)) = Answered (pv :: items) ->
  DeleteVolume pvName s log = (inr r, log') -> exists log1, log' = log1 ++ [Delete (volume_target pvName) false None] /\ gone s log1 (volume_target pvName) /\
    match bound_claim pv with
    | Some ref => log1 = log ++ [Get (volume_target pvName); Delete (claim_target ref) false None] /\
                  gone s (log ++ [Get (volume_target pvName)]) (claim_target ref)
    | None => log1 = log ++ [Get (volume_target pvName)]
    end.
Proof.
  intros Hg. unfold DeleteVolume, no_client, err. destruct (negb client); [done|]. destruct (empty pvName); [done|].
  cbv [abind atry perform1 perform aret]. rewrite Hg. cbn -[delete_if_there]. destruct (bound_claim pv) as [[ns name]|].
  - match goal with |- context [delete_if_there ?p (claim_target ?t) s ?l] =>
      destruct (delete_if_there p (claim_target t) s l) as [[e|[]] log1] eqn:E1; [done|] end.
    apply deleted_if_there in E1 as [-> Hc].
    match goal with |- context [delete_if_there ?p ?t s ?l] => destruct (delete_if_there p t s l) as [[e|[]] log2] eqn:E2; [done|] end.
    apply deleted_if_there in E2 as [-> Hv]. intros [= _ <-]. eexists. split_and!; [done|done|by rewrite <- app_assoc|done].
  - match goal with |- context [delete_if_there ?p ?t s ?l] => destruct (delete_if_there p t s l) as [[e|[]] log2] eqn:E2; [done|] end.
    apply deleted_if_there in E2 as [-> Hv]. intros [= _ <-]. eexists. by split_and!.
Qed.
End deleting.
