(* ===== verification/MutateHandlers.v ===== *)
(** * Handlers of the mutating actions (pkg/mutate/handlers.go)

    What each action name does with the parameters of a request, and which
    names an agent offers. *)

From stdpp Require Import strings.
From S2P Require Import Prelude GoText GoJson GoStruct GoFloat Drain KubeApi Workload AlertRules Revert RuleApis Volumes.

#[local] Set Default Proof Using "Type".

Record Mutator := MkMutator {
  Client : bool; AlertManagerURL : string; AlertManagerHeaders : list (string * string);
  LokiRulesURL : string; LokiRulesHeaders : list (string * string); m_Namespace : string; m_dynamic : bool }.

(** What a request comes to: Kubernetes calls, a forwarded HTTP request, a
    drain ([Drain.Drain]) or the resizing of a claim ([Volumes.RightsizePVC]). *)
Inductive action :=
  | Api (calls : act json)
  | Web (r : result json)
  | Draining (node : string) (opts : DrainOptions)
  | Resizing (namespace name size : string).
Definition handler : Type := gomap -> action.

(** ** Reading parameters *)
Definition has (p : gomap) (k : string) : bool := match p with Some m => bool_decide (is_Some (assoc k m)) | None => false end.
(** [.(float64)] and the conversion to an integer. *)
Definition float_param (v : json) : option Z := match v with JFloat f => Some (f_to_int f) | _ => None end.
Definition alertRuleLocator (p : gomap) : option AlertRuleLocator :=
  let loc := MkLocator (str p "namespace") (str p "name") (str p "group") (str p "alert") in
  if empty (loc_Name loc) then None else Some loc.
Definition isLegacyAlertRulePayload (p : gomap) : bool :=
  match p with
  | None => false
  | Some _ => negb (has p "rule") && negb (has p "apiVersion") && negb (empty (str p "alert"))
  end.
Definition parseLegacyAlertRuleParams (p : gomap) : LegacyAlertRuleParams :=
  MkParams (str p "alert") (str p "expr") (str p "duration") (as_obj (mget p "annotations")) (as_obj (mget p "labels")).
Definition perKindBodyField (kind : string) : string :=
  default "" (assoc kind [("Deployment", "deployment"); ("DaemonSet", "daemonset"); ("StatefulSet", "statefulset"); ("ReplicaSet", "replicaset");
                          ("Rollout", "rollout"); ("NodePool", "nodepool"); ("EC2NodeClass", "ec2nodeclass")]).
Definition non_nil (v : json) : option json := match v with JNull => None | v => Some v end.
Definition pickReplaceBody (kind : string) (p : gomap) : option json :=
  match p with
  | None => None
  | Some m =>
    match non_nil (mget p (perKindBodyField kind)), non_nil (mget p "body") with
    | Some v, _ => Some v
    | None, Some v => Some v
    | None, None => if has p "apiVersion" && has p "kind" && has p "metadata" then Some (JObj m) else None
    end
  end.
Definition silence_filters (p : gomap) : list string :=
  omap (fun x => match x with JStr s => Some s | _ => None end) (get_arr p "filters").
Definition raw (r : result string) : result json := let? body := r in Ok (JObj [("raw", JStr body)]).

(** ** The handlers *)
Section handlers.
Context (quote : string -> string) (now : string) `{Accessors} (claim_ref : obj -> option (string * string)).
Context (conflict_text : string -> string) (RetryOnConflict : forall A, act A -> act A).
Context (new_request : string -> string -> result unit) (client_do : api_request -> result (Z * result string)).
Context (m : Mutator).

(** [wrapErr]. *)
Definition wrapErr (fn : act unit) : act json := do! _ := fn in aret (JObj [("ok", JBool true)]).
Definition handleDeletePod (p : gomap) : act unit :=
  DeletePod (Client m) (str p "namespace") (str p "name") (float_param (mget p "grace_period_seconds")).
Definition handleDeleteJob (p : gomap) : act unit := DeleteJob (Client m) (str p "namespace") (str p "name").
Definition handleCordon (p : gomap) : act unit := Cordon (Client m) (str p "node").
Definition handleUncordon (p : gomap) : act unit := Uncordon (Client m) (str p "node").
Definition handleRolloutRestart (p : gomap) : act unit :=
  RolloutRestart quote (Client m) (m_dynamic m) now (str p "kind") (str p "namespace") (str p "name").
Definition handleDrain (p : gomap) : action := Draining (str p "node") (drain_options float_param p).

Definition handleCreateOrReplacePromRule (p : gomap) : act json :=
  if isLegacyAlertRulePayload p then
    match alertRuleLocator p with
    | Some loc => PatchAlertRuleInCR (m_dynamic m) (m_Namespace m) RetryOnConflict loc (parseLegacyAlertRuleParams p)
    | None => CreateOrReplaceAlertRule (m_dynamic m) (m_Namespace m) conflict_text RetryOnConflict (parseLegacyAlertRuleParams p)
    end
  else CreateOrReplacePrometheusRule (m_dynamic m) (if has p "rule" then mget p "rule" else of_map p).
Definition handleDeletePromRule (p : gomap) : act unit :=
  if getBool p "delete_cr" false then DeletePrometheusRule (m_dynamic m) (str p "namespace") (str p "name")
  else if empty (str p "alert") then err "delete_alert_rule: alert is required (set delete_cr to delete a whole PrometheusRule)"
  else match alertRuleLocator p with
       | Some loc => DeleteAlertRuleInCR (m_dynamic m) (m_Namespace m) RetryOnConflict loc
       | None => DeleteAlertRule (m_dynamic m) (m_Namespace m) RetryOnConflict (str p "alert")
       end.

Definition kinds_text : string := "(Deployment|DaemonSet|StatefulSet|ReplicaSet|Rollout|NodePool|EC2NodeClass)".
Definition body_required (action kind : string) : string :=
  action +:+ ": body required (pass under " +:+ quote (perKindBodyField kind) +:+ ", " +:+ quote "body" +:+ ", or full manifest at top level)".
Definition handleReplaceWorkload (p : gomap) : act json :=
  let kind := str p "kind" in
  if empty kind then err ("replace_workload: kind required " +:+ kinds_text)
  else if has p "revert_paths" then handleRevertWorkload quote (m_dynamic m) p
  else match pickReplaceBody kind p with
  | None => err (body_required "replace_workload" kind)
  | Some body =>
    do! updated := ReplaceWorkload quote (m_dynamic m) kind (str p "namespace") (str p "name") body in
    aret (JObj [("updated", updated); ("message", JStr (kind +:+ "/" +:+ location (str p "namespace") (str p "name") +:+ " updated"))])
  end.
Definition handleDeleteWorkload (p : gomap) : act json :=
  let kind := str p "kind" in
  if empty kind then err ("delete_workload: kind required " +:+ kinds_text)
  else DeleteWorkload quote (m_dynamic m) kind (str p "namespace") (str p "name").
Definition handleCreateWorkload (p : gomap) : act json :=
  let kind := str p "kind" in
  if empty kind then err ("create_workload: kind required " +:+ kinds_text)
  else
    let bodyKind := match resolveWorkloadKind kind with Some (canonical, _) => canonical | None => kind end in
    match pickReplaceBody bodyKind p with
    | None => err (body_required "create_workload" bodyKind)
    | Some body =>
      do! created := CreateWorkload quote (m_dynamic m) kind (str p "namespace") (str p "name") body in
      aret (JObj [("created", created); ("message", JStr (kind +:+ "/" +:+ location (str p "namespace") (str p "name") +:+ " created"))])
    end.
Definition handleReplicaRightsizing (p : gomap) : act json :=
  match toInt64 (mget p "replica_count") with
  | None => err "replica_rightsizing: replica_count required (integer or numeric string)"
  | Some replicas => ScaleWorkload quote (m_dynamic m) (str p "kind") (str p "namespace") (str p "name") replicas
  end.
Definition handleRightsizePVC (p : gomap) : action := Resizing (str p "namespace") (str p "name") (str p "size").
Definition handleVolumeDelete (p : gomap) : act json := DeleteVolume (Client m) claim_ref (str p "name").

Definition handleCreateLokiRule (p : gomap) : result json :=
  raw (CreateOrReplaceLokiAlertRule new_request client_do (LokiRulesURL m) (LokiRulesHeaders m) (str p "namespace") (str p "body")).
Definition handleDeleteLokiRule (p : gomap) : result json :=
  raw (DeleteLokiAlertRule new_request client_do (LokiRulesURL m) (LokiRulesHeaders m) (str p "namespace") (str p "group")).
Definition handleGetSilences (p : gomap) : result json :=
  raw (GetSilences new_request client_do (AlertManagerURL m) (AlertManagerHeaders m) (silence_filters p)).
Definition handleAddSilence (p : gomap) : result json :=
  raw (let? body := ParseSilenceBody p in AddSilence new_request client_do (AlertManagerURL m) (AlertManagerHeaders m) body).
Definition handleDeleteSilence (p : gomap) : result json :=
  raw (DeleteSilence new_request client_do (AlertManagerURL m) (AlertManagerHeaders m) (str p "id")).

(** ** The registry *)
Definition base_handlers : list (string * handler) :=
  [("delete_pod", fun p => Api (wrapErr (handleDeletePod p))); ("delete_job", fun p => Api (wrapErr (handleDeleteJob p)));
   ("cordon", fun p => Api (wrapErr (handleCordon p))); ("uncordon", fun p => Api (wrapErr (handleUncordon p)));
   ("rollout_restart", fun p => Api (wrapErr (handleRolloutRestart p))); ("drain", handleDrain)].
Definition silence_handlers : list (string * handler) :=
  [("get_silences", fun p => Web (handleGetSilences p)); ("add_silence", fun p => Web (handleAddSilence p));
   ("delete_silence", fun p => Web (handleDeleteSilence p))].
Definition dynamic_handlers : list (string * handler) :=
  [("create_or_replace_alert_rule", fun p => Api (handleCreateOrReplacePromRule p)); ("delete_alert_rule", fun p => Api (wrapErr (handleDeletePromRule p)));
   ("create_workload", fun p => Api (handleCreateWorkload p)); ("replace_workload", fun p => Api (handleReplaceWorkload p));
   ("delete_workload", fun p => Api (handleDeleteWorkload p)); ("revert_workload", fun p => Api (handleRevertWorkload quote (m_dynamic m) p));
   ("replica_rightsizing", fun p => Api (handleReplicaRightsizing p))].
Definition volume_handlers : list (string * handler) :=
  [("rightsize_pvc", handleRightsizePVC); ("volume_delete", fun p => Api (handleVolumeDelete p))].
Definition loki_handlers : list (string * handler) :=
  [("create_loki_alert_rule", fun p => Web (handleCreateLokiRule p)); ("update_loki_alert_rule", fun p => Web (handleCreateLokiRule p));
   ("delete_loki_alert_rule", fun p => Web (handleDeleteLokiRule p))].
Definition Handlers : list (string * handler) :=
  base_handlers ++ (if empty (AlertManagerURL m) then [] else silence_handlers) ++ (if m_dynamic m then dynamic_handlers else [])
  ++ volume_handlers ++ (if empty (LokiRulesURL m) then [] else loki_handlers).
End handlers.

(** ** Deleting alert rules *)
Section deleting.
Context `{Accessors} (RetryOnConflict : forall A, act A -> act A) (m : Mutator).
Hypothesis retry_runs : forall A (fn : act A) s log, retried fn s log (RetryOnConflict A fn s log).1 (RetryOnConflict A fn s log).2.
Lemma retry_only {A} P (fn : act A) : only P fn -> only P (RetryOnConflict A fn).
Proof using retry_runs.
  intros Hf s log. specialize (retry_runs A fn s log). revert retry_runs. generalize (RetryOnConflict A fn s log). intros [r log'] Hr. cbn in Hr |- *.
  induction Hr as [log|log log1 msg r log2 E Hr IH]; [apply Hf|]. destruct (Hf s log) as (l & El & Hl). rewrite E in El. cbn in El. subst log1.
  destruct IH as (l' & -> & Hl'). exists (l ++ l'). by rewrite app_assoc, Forall_app.
Qed.
(** The resource a deletion of a rule edits. *)
Definition edited_resource (p : gomap) : target :=
  match alertRuleLocator p with
  | Some loc => rule_target (if empty (loc_Namespace loc) then m_Namespace m else loc_Namespace loc) (loc_Name loc)
  | None => rule_target (m_Namespace m) LegacyAlertRuleCRDName
  end.

Lemma edit_calls P t edit : P (Get t) -> (forall o, P (Update t o)) -> only P (edit_groups t edit).
Proof.
  intros Hg Hu. unfold edit_groups. apply only_bind; [by apply only_perform1|]. intros e. apply only_bind; [apply only_lift|]. intros gs.
  apply only_bind; [apply only_lift|]. intros o. by apply only_perform1.
Qed.
Lemma delete_attempt_calls P ns alert : let t := rule_target ns LegacyAlertRuleCRDName in
  P (Get t) -> (forall o, P (Update t o)) -> only P (delete_attempt ns alert).
Proof.
  intros t Hg Hu. unfold delete_attempt. cbv zeta. apply only_bind; [by apply only_try, only_perform1|].
  intros [[]|e]; first [apply only_fail|apply only_ret|idtac]. cbv beta iota zeta. case_match; [|apply only_ret].
  apply only_bind; [apply only_lift|]. intros o. apply only_bind; [by apply only_perform|]. intros. apply only_ret.
Qed.
Lemma located_deletion P dynamic ns loc : let t := rule_target (if empty (loc_Namespace loc) then ns else loc_Namespace loc) (loc_Name loc) in
  P (Get t) -> (forall o, P (Update t o)) -> only P (DeleteAlertRuleInCR dynamic ns RetryOnConflict loc).
Proof using retry_runs.
  intros t Hg Hu. unfold DeleteAlertRuleInCR. apply only_bind_lift. intros t'. unfold locatedRuleClient. repeat (case_match; [done|]).
  intros [= <-]. apply only_bind; [by apply retry_only, edit_calls|]. intros. apply only_ret.
Qed.

(** C16: losing the rule's name cannot cost a whole resource.  Unless
    [delete_cr] is the JSON value true, a deletion of an alert rule only reads
    and updates the one resource that the request names, or the agent's own
    one, and makes no call at all when the rule's name is missing.  With it,
    the only call is the deletion of the resource named by namespace and
    name. *)
Theorem rule_deletion_keeps_resources p :
  (mget p "delete_cr" <> JBool true ->
   only (fun c => (c = Get (edited_resource p) \/ exists o, c = Update (edited_resource p) o) /\ str p "alert" <> "") (handleDeletePromRule RetryOnConflict m p)) /\
  (mget p "delete_cr" = JBool true ->
   only (fun c => c = Delete (rule_target (str p "namespace") (str p "name")) false None) (handleDeletePromRule RetryOnConflict m p)).
Proof using retry_runs.
  unfold handleDeletePromRule, getBool. split; intros Hd.
  - assert (match mget p "delete_cr" with JBool b => b | _ => false end = false) as -> by (by destruct (mget p "delete_cr") as [|[]| | | | | |]).
    destruct (empty (str p "alert")) eqn:Ea; [apply only_fail|]. apply nonempty in Ea. unfold edited_resource.
    destruct (alertRuleLocator p) as [loc|].
    + apply located_deletion; intros; naive_solver.
    + unfold DeleteAlertRule. repeat (case_match; [apply only_fail|]). apply retry_only, delete_attempt_calls; intros; naive_solver.
  - rewrite Hd. unfold DeletePrometheusRule. repeat (case_match; [apply only_fail|]). apply only_bind; [by apply only_try, only_perform|].
    intros [[]|l]; first [apply only_fail|apply only_ret].
Qed.
End deleting.

(** ** Reverting instead of replacing *)
Section reverting.
Context (quote : string -> string) `{Accessors} (m : Mutator).
Definition reverted (entries : list RevertEntry) (live o : obj) : Prop := applyReverts quote (JObj live) entries = Ok (JObj o).
Lemma revert_loop_edits (Q : obj -> obj -> Prop) retries where_ t entries :
  (forall live o, reverted entries live o -> Q live o) -> edits Q (revert_loop quote retries where_ t entries).
Proof.
  intros HQ.
  induction retries as [|n IH]; cbn [revert_loop]; (apply (edits_read _ t); [apply reads_wrap, reads_get|]; intros e;
    destruct (applyReverts quote (JObj e) entries) as [[| | | | | |o|]|msg] eqn:E; try (by apply updates_none);
    apply updates_update1; [by apply HQ|]; intros [[]|]; first [apply edits_fail|apply edits_ret|apply IH]).
Qed.
(** The workload is never overwritten with the manifest of such a request:
    what is written is the object as it is, with the recorded values put back
    at the recorded paths. *)
Lemma revert_paths_ignore_manifest p : has p "revert_paths" = true ->
  edits (fun live o => exists entries, parseRevertEntries (mget p "revert_paths") = Ok entries /\ reverted entries live o)
    (handleReplaceWorkload quote m p).
Proof.
  intros Hp. unfold handleReplaceWorkload. rewrite Hp. destruct (empty (str p "kind")) eqn:Ek; [apply edits_fail|].
  unfold handleRevertWorkload. rewrite Ek. destruct (parseRevertEntries _) as [entries|msg]; [|apply edits_fail].
  change (edits ?Q (abind (lift (Ok entries)) ?k)) with (edits Q (k entries)). cbv beta. unfold RevertWorkload. case_match; [apply edits_fail|].
  case_match; [apply edits_fail|]. destruct entries as [|e es]; [apply edits_fail|]. destruct (resolveWorkloadKind _) as [[canonical entry]|]; [|apply edits_fail].
  case_match; [apply edits_fail|]. apply edits_bind; [|intros; apply edits_ret]. apply revert_loop_edits. intros live o Ho. by exists (e :: es).
Qed.
End reverting.

(** ** Sample *)
Section sample.
#[local] Existing Instance Plain.accessors.
Definition toy_agent : Mutator := MkMutator true "" [] "" [] "ns" true.
Definition lost_name : gomap := Some [("namespace", JStr "ns"); ("name", JStr "cr")].
Lemma rule_deletion_keeps_resources_witness :
  mget lost_name "delete_cr" <> JBool true /\
  ((mget lost_name "delete_cr" <> JBool true -> only (fun c => (c = Get (edited_resource toy_agent lost_name) \/
      exists o, c = Update (edited_resource toy_agent lost_name) o) /\ str lost_name "alert" <> "")
    (handleDeletePromRule (fun A => attempts (A := A) 4) toy_agent lost_name)) /\
   (mget lost_name "delete_cr" = JBool true ->
    only (fun c => c = Delete (rule_target (str lost_name "namespace") (str lost_name "name")) false None)
      (handleDeletePromRule (fun A => attempts (A := A) 4) toy_agent lost_name))).
Proof.
  split; [done|]. apply (rule_deletion_keeps_resources (fun A => attempts (A := A) 4) toy_agent). intros A fn s log. apply attempts_retried.
Defined.
End sample.
