(* ===== verification/HttpProxy.v ===== *)
(** * The generic HTTP proxy (pkg/observability/httpproxy)

    [http_proxy_request] forwards a request to one of the configured targets.
    The exchange is a parameter; the request that is sent is what the model
    determines. *)

From S2P Require Import Prelude GoText GoJson CanonJson GoMarshal GoUrl.

#[local] Set Default Proof Using "Type".

Record Request := MkRequest {
  Target : string; Method : string; Path : string; Query : values; Headers : list (string * string); Body : string }.
Definition string_members (v : json) : list (string * string) :=
  match v with JObj m => omap (fun kv => match kv.2 with JStr s => Some (kv.1, s) | _ => None end) m | _ => [] end.
Definition query_values (v : json) : option (list string) :=
  match v with
  | JStr s => Some [s]
  | JArr l => match omap (fun x => match x with JStr s => Some s | _ => None end) l with [] => None | vs => Some vs end
  | _ => None
  end.
Definition query_members (v : json) : values :=
  match v with JObj m => omap (fun kv => vs ← query_values kv.2; Some (kv.1, vs)) m | _ => [] end.
Definition parseRequest (p : gomap) : Request :=
  MkRequest (get_str p "target") (get_str p "method") (get_str p "path") (query_members (mget p "query")) (string_members (mget p "headers"))
    (match mget p "body" with JNull => "" | b => default "" (marshal b) end).

Section proxy.
(** [%q]. *)
Context (quote : string -> string) (Targets : list (string * string)).
Definition resolveTarget (target : string) : result string :=
  if bool_decide (target = "") then Err "httpproxy: target required"
  else if has_prefix target "http://" || has_prefix target "https://" then
    if bool_decide (is_Some (assoc "*" Targets)) then Ok target else Err "httpproxy: explicit URL targets are disabled"
  else match assoc target Targets with
       | None => Err ("httpproxy: target " +:+ quote target +:+ " not configured")
       | Some base => Ok base
       end.
(** [strings.TrimLeft(s, "/")]. *)
Fixpoint trim_left_slashes (s : string) : string :=
  match s with String c r => if byte c =? 47 then trim_left_slashes r else s | EmptyString => "" end.
Record sent := MkSent { st_method : string; st_url : string; st_headers : list (string * string); st_body : string }.
Record Response := MkResponse { StatusCode : Z; r_Headers : list (string * string); r_Body : string }.
Definition proxy_url (baseURL : string) (r : Request) : string :=
  trim_slashes baseURL +:+ "/" +:+ trim_left_slashes (Path r) +:+ (match Query r with [] => "" | q => "?" +:+ encode_query q end).
Definition outgoing (baseURL : string) (r : Request) : sent :=
  MkSent (if bool_decide (Method r = "") then "GET" else Method r) (proxy_url baseURL r)
    (foldl (fun hs kv => mset (CanonicalMIMEHeaderKey kv.1) kv.2 hs) [] (Headers r)) (Body r).
(** [http.NewRequestWithContext]; [HTTP.Do] with reading the body. *)
Context (new_request : string -> string -> result unit) (http_do : sent -> result (Z * list (string * list string) * result string)).
Definition first_values (h : list (string * list string)) : list (string * string) :=
  omap (fun kv => match kv.2 with v :: _ => Some (kv.1, v) | [] => None end) h.
Definition Do (r : Request) : result Response :=
  let? baseURL := resolveTarget (Target r) in
  let o := outgoing baseURL r in
  let? _ := new_request (st_method o) (st_url o) in
  match http_do o with
  | Err e => Err ("httpproxy: " +:+ e)
  | Ok (status, headers, body) => let? body := body in Ok (MkResponse status (first_values headers) body)
  end.

(** ** Where requests can go *)
Lemma outgoing_prefix baseURL r : has_prefix (proxy_url baseURL r) (trim_slashes baseURL +:+ "/") = true.
Proof.
  unfold proxy_url. generalize (trim_left_slashes (Path r) +:+ (match Query r with [] => "" | q => "?" +:+ encode_query q end)). intros t.
  apply has_prefix_spec. exists t. by rewrite sapp_assoc.
Qed.
(** Without the wildcard, every request that is sent is below the base URL of
    a configured target: a slash separates the base from what the caller
    chooses, so the host cannot be extended. *)
Lemma proxy_stays_on_targets r res : assoc "*" Targets = None -> Do r = Ok res ->
  exists base, assoc (Target r) Targets = Some base /\ has_prefix (st_url (outgoing base r)) (trim_slashes base +:+ "/") = true.
Proof.
  intros Hw. unfold Do, resolveTarget. case_bool_decide; [done|]. destruct (has_prefix _ _ || _).
  { rewrite Hw. by rewrite bool_decide_eq_false_2 by (by intros [? [=]]). }
  destruct (assoc (Target r) Targets) as [base|]; [|done]. intros _. exists base. split; [done|]. apply outgoing_prefix.
Qed.
(** The method is the caller's. *)
Lemma any_method_forwarded baseURL r : Method r <> "" -> st_method (outgoing baseURL r) = Method r.
Proof. intros Hm. cbn. by rewrite bool_decide_eq_false_2. Qed.
End proxy.

Example explicit_targets : forall quote, map (fun ts => is_ok (resolveTarget quote ts "http://10.0.0.1")) [[]; [("grafana", "http://grafana")]; [("*", "")]] = [false; false; true].
Proof. reflexivity. Qed.
