(* ===== verification/SvcDiscover.v ===== *)
(** * Service discovery (pkg/svcdiscover)

    The URL of the first service that one of a list of label selectors
    finds, remembered for an hour, and the watch for a service that appears
    later.  Listing services by selector is a parameter. *)

From S2P Require Import Prelude GoText GoJson GoTime.

#[local] Set Default Proof Using "Type".

Definition PrometheusSelectors : list string :=
  ["app=kube-prometheus-stack-prometheus"; "app=prometheus,component=server,release!=kubecost"; "app=prometheus-server";
   "app=prometheus-operator-prometheus"; "app=prometheus-msteams"; "app=rancher-monitoring-prometheus"; "app=prometheus-prometheus";
   "app.kubernetes.io/name=prometheus,app.kubernetes.io/component=server"; "app.kubernetes.io/component=query,app.kubernetes.io/name=thanos";
   "app.kubernetes.io/name=thanos-query"; "app=thanos-query"; "app=thanos-querier"; "app.kubernetes.io/name=vmsingle";
   "app.kubernetes.io/name=victoria-metrics-single"; "app.kubernetes.io/name=vmselect"; "app=vmselect"].
Definition AlertManagerSelectors : list string :=
  ["app=kube-prometheus-stack-alertmanager"; "app=prometheus,component=alertmanager"; "app=prometheus-operator-alertmanager"; "app=alertmanager";
   "app=rancher-monitoring-alertmanager"; "app=prometheus-alertmanager"; "operated-alertmanager=true"; "app.kubernetes.io/name=alertmanager";
   "app.kubernetes.io/name=vmalertmanager"].
Definition LokiSelectors : list string := ["app=loki"; "app.kubernetes.io/instance=loki"].
Definition OpencostSelectors : list string := ["app=opencost"; "app.kubernetes.io/name=opencost"].
Definition CacheTTL : duration := 3600 * second.

Record service := MkService { svc_Name : string; svc_Namespace : string; svc_Ports : list Z }.
(** The services a selector lists, or an error. *)
Definition cluster := string -> option (list service).
Record Discoverer := MkDiscoverer { d_cs : bool; clusterDomain : string; d_cache : list (string * (string * time)) }.
Definition New (cs : bool) (domain : string) : Discoverer :=
  MkDiscoverer cs (if bool_decide (domain = "") then "cluster.local" else domain) [].

Definition findOne (list_services : cluster) (domain selector : string) : string :=
  match list_services selector with
  | Some (svc :: _) =>
    match svc_Ports svc with
    | [] => ""
    | port :: _ => "http://" +:+ svc_Name svc +:+ "." +:+ svc_Namespace svc +:+ ".svc." +:+ domain +:+ ":" +:+ itoa port
    end
  | _ => ""
  end.
Fixpoint first_found (list_services : cluster) (domain : string) (selectors : list string) : string :=
  match selectors with
  | [] => ""
  | sel :: selectors =>
    let u := findOne list_services domain sel in
    if bool_decide (u = "") then first_found list_services domain selectors else u
  end.
(** A call at [now]; [None] is the nil discoverer. *)
Definition FindFirst (list_services : cluster) (now : time) (selectors : list string) (d : option Discoverer) : string * option Discoverer :=
  match d with
  | None => ("", None)
  | Some dd =>
    if negb (d_cs dd) then ("", d)
    else
      let cacheKey := join "|" selectors in
      let search := let url := first_found list_services (clusterDomain dd) selectors in
        (url, Some (MkDiscoverer (d_cs dd) (clusterDomain dd) (mset cacheKey (url, time_add now CacheTTL) (d_cache dd)))) in
      match assoc cacheKey (d_cache dd) with
      | Some (url, expires) => if time_before now expires then (url, d) else search
      | None => search
      end
  end.
Definition Coalesce (vals : list string) : string :=
  default "" (List.find (fun v => negb (bool_decide (trim_space v = ""))) vals).
(** What the cluster lists at each tick until the context ends; the URL that
    is handed to [onFound]. *)
Fixpoint WatchUntilFound (cs : bool) (domain : string) (selectors : list string) (interval : duration) (ticks : list (cluster * time)) : option string :=
  if negb cs || (interval <=? 0) then None
  else match ticks with
  | [] => None
  | (list_services, now) :: ticks =>
    let u := (FindFirst list_services now selectors (Some (New cs domain))).1 in
    if bool_decide (u = "") then WatchUntilFound cs domain selectors interval ticks else Some u
  end.

(** ** Facts *)
Lemma first_found_spec c domain selectors u : u <> "" -> first_found c domain selectors = u <->
  exists l1 sel l2, selectors = l1 ++ sel :: l2 /\ findOne c domain sel = u /\ Forall (fun s => findOne c domain s = "") l1.
Proof.
  intros Hu. induction selectors as [|s selectors IH]; cbn [first_found]; [split; [by intros <-|by intros ([] & ? & ? & [=] & _)]|].
  case_bool_decide as Hs.
  - rewrite IH. split; intros (l1 & sel & l2 & E & Hf & Hl).
    + exists (s :: l1), sel, l2. by rewrite E; split_and!; [| |constructor].
    + destruct l1 as [|s' l1]; injection E as -> ->; [congruence|]. inversion Hl. by exists l1, sel, l2.
  - split; [intros <-; by exists [], s, selectors|]. intros (l1 & sel & l2 & E & Hf & Hl). destruct l1 as [|s' l1]; injection E as -> ->; [done|]. by inversion Hl.
Qed.
(** The watch finds a service at the first tick at which the cluster lists
    one, although earlier searches found nothing: no answer is cached across
    ticks. *)
Lemma watch_finds cs domain selectors interval before c now after : cs = true -> 0 < interval ->
  Forall (fun t => first_found t.1 (clusterDomain (New cs domain)) selectors = "") before ->
  first_found c (clusterDomain (New cs domain)) selectors <> "" ->
  WatchUntilFound cs domain selectors interval (before ++ (c, now) :: after) = Some (first_found c (clusterDomain (New cs domain)) selectors).
Proof.
  intros -> Hi Hb Hc. induction Hb as [|[c' now'] before Hn _ IH]; cbn [app WatchUntilFound]; (destruct (Z.leb_spec interval 0); [lia|]); cbn [negb orb FindFirst d_cs New d_cache assoc].
  - by rewrite bool_decide_eq_false_2.
  - cbn in Hn |- *. rewrite Hn, bool_decide_eq_true_2 by done. exact IH.
Qed.
(** A negative answer is kept for an hour, too. *)
Lemma negative_answer_cached c c' now now' selectors d : d_cs d = true -> assoc (join "|" selectors) (d_cache d) = None ->
  first_found c (clusterDomain d) selectors = "" -> time_before now' (time_add now CacheTTL) = true ->
  (FindFirst c' now' selectors (FindFirst c now selectors (Some d)).2).1 = "".
Proof.
  destruct d as [cs domain cache]. cbn [d_cs d_cache clusterDomain]. intros -> Hn Hc Ht. unfold FindFirst. cbn [d_cs d_cache clusterDomain negb].
  rewrite Hn. cbn [snd d_cs d_cache clusterDomain negb]. rewrite assoc_mset, decide_True by done. by rewrite Ht.
Qed.
