(* ===== verification/Wiring.v ===== *)
(** * Assembly of the agent (cmd/agent/main.go)

    [run] up to the creation of the dispatcher: which actions are registered,
    with which kind of handler, and which of them need no signature.  The
    configuration, the clients that could be built and what service discovery
    found determine both. *)

From stdpp Require Import gmap sets strings.
From S2P Require Import Prelude GoText GoJson GoStruct GoCrypto GoTime RelaySig Auth SvcDiscover Config MutateHandlers.

#[local] Set Default Proof Using "Type".

(** A handler of the package that offers the action, or a stub that reports
    its datasource as not configured. *)
Inductive origin := Real (package : string) | Stub (datasource : string).
Record registry := MkRegistry { rg_handlers : gmap string origin; rg_light : gset string }.

(** [maps.Copy(handlers, m)] and the additions to [lightActions]. *)
Definition copy (package : string) (names : list string) (r : registry) : registry :=
  MkRegistry (foldl (fun h a => <[a := Real package]> h) (rg_handlers r) names) (rg_light r).
Definition allow (names : list string) (r : registry) : registry := MkRegistry (rg_handlers r) (rg_light r ∪ list_to_set names).
Definition open (package : string) (names : list string) (r : registry) : registry := allow names (copy package names r).
Definition when (c : bool) (f : registry -> registry) (r : registry) : registry := if c then f r else r.
Definition registerProxy (datasource : string) (enabled : bool) (real : list string) (r : registry) : registry :=
  foldl (fun r a =>
    let r := allow [a] r in
    if enabled then copy datasource [a] r
    else match rg_handlers r !! a with
         | Some _ => r
         | None => MkRegistry (<[a := Stub datasource]> (rg_handlers r)) (rg_light r)
         end) r real.

(** ** The actions of each package *)
Definition builtin_actions : list string := ["ping"; "echo"; "health"].
Definition prometheus_actions : list string :=
  ["prometheus_query"; "prometheus_query_range"; "prometheus_label_names"; "prometheus_label_values"; "prometheus_series"; "prometheus_alerts"].
Definition servicemap_actions : list string := ["service_map"; "service_map_enricher"; "traces_dependency_map"].
Definition loki_actions : list string := ["loki_query"; "loki_query_range"; "loki_labels"; "loki_label_values"; "loki_series"].
Definition loki_compat_actions : list string :=
  ["query_loki"; "query_loki_labels"; "query_grafana_loki_label_values"; "query_grafana_loki_series"].
Definition elasticsearch_actions : list string := ["query_es"; "query_es_indices"; "query_es_index_field"; "query_es_field_index_values"].
Definition signoz_actions : list string := ["signoz_query_range"; "signoz_label_suggest"; "signoz_value_suggest"].
Definition jaeger_actions : list string :=
  ["jaeger_query_traces"; "jaeger_query_services"; "jaeger_query_trace_by_id"; "jaeger_query_operations"; "jaeger_query_metrics"].
Definition chronosphere_actions : list string := ["chronosphere_query_traces"].
Definition pinot_actions : list string := ["pinot_query"; "pinot_tables"; "pinot_schema"].
Definition httpproxy_actions : list string := ["http_proxy_request"].
Definition gcp_actions : list string := ["gke_logs"; "gke_traces"].
Definition kube_actions : list string := ["get_resource"; "get_resource_yaml"; "list_resource_names"; "kubectl_command_executor"].
Definition scanner_actions : list string := ["schedule_k8s_job"; "wait_for_k8s_job"; "get_k8s_job_logs"; "delete_k8s_job"].
Definition podexec_actions (profiler : bool) : list string := "pod_bash_enricher" :: if profiler then ["pod_profiler"] else [].
Definition podrunner_actions : list string := ["pod_script_run_enricher"].
Definition rightsize_actions : list string := ["continuous_rightsizing"].
Definition control_actions : list string := ["refresh_playbook"].

(** ** [run] *)

(** What start-up finds out: whether the Kubernetes configuration gave a
    typed and then a dynamic client, what the cluster lists and when, and
    whether Google credentials are there. *)
Record host := MkHost { typed_built : bool; dynamic_built : bool; listed : cluster; started : time; gcp_credentials : bool }.
Section run.
Context (cfg : Config) (h : host).
Definition typedKube : bool := typed_built h.
Definition dynamicKube : bool := typed_built h && dynamic_built h.
(** Without a client these subsystems are switched off. *)
Definition kube_gated (flag : bool) : bool := flag && typed_built h.
(** A blank URL is filled by service discovery. *)
Definition discovered (configured : string) (selectors : list string) : string :=
  if bool_decide (configured = "") then (FindFirst (listed h) (started h) selectors (Some (New (typed_built h) ""))).1 else configured.
Definition lokiURL : string := discovered (LokiURL cfg) LokiSelectors.
Definition alertManagerURL : string := discovered (Config.AlertManagerURL cfg) AlertManagerSelectors.
Definition set (s : string) : bool := negb (bool_decide (s = "")).
(** The mutator of [mutate.New] and its setters; the header lists and the
    install namespace do not matter for the names. *)
Definition mutator : Mutator :=
  MkMutator (typed_built h) alertManagerURL [] (Config.LokiRulesURL cfg) [] (ScannerNamespace cfg) dynamicKube.
Section names.
Context (quote : string -> string) `{KubeApi.Accessors}.
(** The names [mutate.Handlers] offers; the parameters of the handlers
    themselves do not matter. *)
Definition mutation_actions (m : Mutator) : list string :=
  (Handlers quote "" (fun _ => None) (fun s => s) (fun _ fn => fn) (fun _ _ => Ok tt) (fun _ => Err "") m).*1.

(** The registrations of [run], in its order; the construction of the clients
    that serve them is left out. *)
Definition register_queries (r : registry) : registry :=
  let r := open "prometheus" prometheus_actions r in
  let r := open "enrichers" ["prometheus_enricher"; "prometheus_queries_enricher"; "prometheus_labels"; "application_stats"; "slo_generator"] r in
  let r := open "servicemap" servicemap_actions r in
  when (set lokiURL) (fun r => open "enrichers" loki_compat_actions (open "loki" loki_actions r)) r.
Definition register_proxies (r : registry) : registry :=
  let r := registerProxy "elasticsearch" (ElasticsearchEnabled cfg && set (ElasticsearchURL cfg)) elasticsearch_actions r in
  let r := registerProxy "signoz" (set (SignozURL cfg)) signoz_actions r in
  let r := registerProxy "jaeger" (set (JaegerURL cfg)) jaeger_actions r in
  let r := registerProxy "chronosphere" (set (ChronosphereURL cfg)) chronosphere_actions r in
  let r := registerProxy "pinot" (set (PinotURL cfg)) pinot_actions r in
  let r := registerProxy "http_proxy" (negb (bool_decide (ParseTargets (HTTPProxyTargets cfg) = []))) httpproxy_actions r in
  registerProxy "gcp" (GCPEnabled cfg && gcp_credentials h) gcp_actions r.
Definition register_cluster (r : registry) : registry :=
  let r := when typedKube (open "enrichers" ["logs_enricher"]) r in
  let r := open "enrichers" ["query_data"; "api_traces_enricher_v2"] r in
  let r := when (kube_gated (KubeEnabled cfg)) (open "kube" kube_actions) r in
  let r := when (kube_gated (ScannersEnabled cfg)) (open "scanners" scanner_actions) r in
  when (kube_gated (PodExecEnabled cfg)) (fun r => open "podrunner" podrunner_actions (copy "podexec" (podexec_actions typedKube) r)) r.
Definition register_mutations (r : registry) : registry :=
  let r := when (kube_gated (MutateEnabled cfg)) (fun r => allow ["create_or_replace_alert_rule"; "delete_alert_rule"] (copy "mutate" (mutation_actions mutator) r)) r in
  let r := when dynamicKube (open "rightsize" rightsize_actions) r in
  when dynamicKube (copy "rightsize" ["rightsizing_resource"]) r.
Definition run_registry : registry :=
  open "control" control_actions (register_mutations (register_cluster (register_proxies (register_queries (open "main" builtin_actions (MkRegistry ∅ ∅)))))).
(** The validator that [run] builds: the whole set is its allowlist. *)
Definition validator (key : option string) (rv : option Verifier) : Validator :=
  SetLightActions (Some (rg_light run_registry)) (MkValidator (AuthSecretKey cfg) key (Some (rg_light run_registry)) None rv).
End names.
End run.

(** ** Which actions are open *)

(** Every action that any configuration opens. *)
Definition open_actions : list string :=
  builtin_actions ++ prometheus_actions ++ ["prometheus_enricher"; "prometheus_queries_enricher"; "prometheus_labels"; "application_stats"; "slo_generator"]
  ++ servicemap_actions ++ loki_actions ++ loki_compat_actions ++ elasticsearch_actions ++ signoz_actions ++ jaeger_actions ++ chronosphere_actions
  ++ pinot_actions ++ httpproxy_actions ++ gcp_actions ++ ["logs_enricher"; "query_data"; "api_traces_enricher_v2"] ++ kube_actions ++ scanner_actions
  ++ podrunner_actions ++ rightsize_actions ++ control_actions ++ ["create_or_replace_alert_rule"; "delete_alert_rule"].
Definition opens (names : list string) (r : registry) : Prop := rg_light r ⊆ list_to_set names.
(** Every open action has a handler, apart from [names]. *)
Definition handled (names : list string) (r : registry) : Prop := forall a, a ∈ rg_light r -> is_Some (rg_handlers r !! a) \/ a ∈ names.
Definition among (names all : list string) : bool := forallb (fun a => bool_decide (a ∈ all)) names.
Lemma among_spec names all : among names all = true -> (list_to_set names : gset string) ⊆ list_to_set all.
Proof. unfold among. rewrite forallb_forall. intros H a Ha%elem_of_list_to_set. apply elem_of_list_to_set. apply list_elem_of_In in Ha. by apply H, bool_decide_eq_true in Ha. Qed.
Lemma copied package names r a : is_Some (rg_handlers (copy package names r) !! a) <-> is_Some (rg_handlers r !! a) \/ a ∈ names.
Proof.
  unfold copy. cbn. generalize (rg_handlers r). induction names as [|n names IH]; intros h; cbn [foldl]; [set_solver|].
  rewrite IH. destruct (decide (n = a)) as [->|Hn]; [rewrite lookup_insert_eq; set_solver|]. rewrite lookup_insert_ne by done. set_solver.
Qed.
Lemma proxied datasource enabled real r :
  rg_light (registerProxy datasource enabled real r) = rg_light r ∪ list_to_set real /\
  forall a, is_Some (rg_handlers (registerProxy datasource enabled real r) !! a) <-> is_Some (rg_handlers r !! a) \/ a ∈ real.
Proof.
  unfold registerProxy. revert r. induction real as [|n real IH]; intros r; cbn [foldl]; [split; set_solver|].
  set (r1 := if enabled then _ else _). destruct (IH r1) as [-> Hh]. setoid_rewrite Hh.
  assert (rg_light r1 = rg_light r ∪ {[n]} /\ forall a, is_Some (rg_handlers r1 !! a) <-> is_Some (rg_handlers r !! a) \/ a = n) as [Hl Hr].
  { unfold r1. destruct enabled; [split; [cbn; set_solver|intros a; rewrite copied; cbn; set_solver]|]. cbn. destruct (rg_handlers r !! n) eqn:E; cbn.
    - split; [set_solver|]. intros a. split; [by left|]. intros [?| ->]; [done|by eexists].
    - split; [set_solver|]. intros a. destruct (decide (n = a)) as [->|Hn]; [rewrite lookup_insert_eq; naive_solver|].
      rewrite lookup_insert_ne by done. naive_solver. }
  split; [rewrite Hl; set_solver|]. intros a. rewrite Hr. set_solver.
Qed.
Definition good (all exempt : list string) (r : registry) : Prop := opens all r /\ handled exempt r.
Lemma good_open all exempt package names r : among names all = true -> good all exempt r -> good all exempt (open package names r).
Proof.
  intros Hn%among_spec [Ho Hh]. unfold open, allow. split; [unfold opens in *; cbn; set_solver|]. intros a Ha. cbn [rg_light rg_handlers] in Ha |- *.
  rewrite copied. apply elem_of_union in Ha as [Ha|Ha%elem_of_list_to_set]; [destruct (Hh a Ha); auto|auto].
Qed.
Lemma good_copy all exempt package names r : good all exempt r -> good all exempt (copy package names r).
Proof. intros [Ho Hh]. split; [exact Ho|]. intros a Ha. rewrite copied. destruct (Hh a Ha); auto. Qed.
Lemma good_when all exempt c f r : (forall r, good all exempt r -> good all exempt (f r)) -> good all exempt r -> good all exempt (when c f r).
Proof. unfold when. destruct c; auto. Qed.
Lemma good_proxy all exempt datasource enabled real r : among real all = true -> good all exempt r -> good all exempt (registerProxy datasource enabled real r).
Proof.
  intros Hn%among_spec [Ho Hh]. destruct (proxied datasource enabled real r) as [Hl Hr]. split; [unfold opens in *; rewrite Hl; set_solver|].
  intros a. rewrite Hl, Hr. intros [Ha|Ha%elem_of_list_to_set]%elem_of_union; [destruct (Hh a Ha); auto|auto].
Qed.
Lemma good_allow all exempt names r : among names all = true -> (forall a, a ∈ names -> is_Some (rg_handlers r !! a) \/ a ∈ exempt) -> good all exempt r ->
  good all exempt (allow names r).
Proof.
  intros Hn%among_spec Hx [Ho Hh]. split; [unfold opens, allow in *; cbn; set_solver|]. intros a Ha. unfold allow in Ha |- *. cbn in Ha |- *.
  apply elem_of_union in Ha as [Ha|Ha%elem_of_list_to_set]; auto.
Qed.
#[export] Hint Resolve good_open good_copy good_when good_proxy : registry.
Definition alert_rule_actions : list string := ["create_or_replace_alert_rule"; "delete_alert_rule"].
Definition all_mutations : list string :=
  ["delete_pod"; "delete_job"; "cordon"; "uncordon"; "rollout_restart"; "drain"; "get_silences"; "add_silence"; "delete_silence";
   "create_or_replace_alert_rule"; "delete_alert_rule"; "create_workload"; "replace_workload"; "delete_workload"; "revert_workload";
   "replica_rightsizing"; "rightsize_pvc"; "volume_delete"; "create_loki_alert_rule"; "update_loki_alert_rule"; "delete_loki_alert_rule"].
Lemma mutation_names quote `{KubeApi.Accessors} m a : a ∈ mutation_actions quote m ->
  a ∈ all_mutations.
Proof.
  unfold mutation_actions, Handlers. rewrite !fmap_app. intros Ha. repeat (apply elem_of_app in Ha as [Ha|Ha]);
    repeat (case_match; cbn in Ha); set_solver.
Qed.
Lemma filtered (P : string -> bool) all a : forallb P all = true -> a ∈ all -> P a = true.
Proof. rewrite forallb_forall. intros HP Ha%list_elem_of_In. by apply HP. Qed.
Definition member (a : string) (l : list string) : bool := bool_decide (a ∈ l).
Lemma open_mutations a : a ∈ open_actions -> a ∈ all_mutations -> a ∈ alert_rule_actions.
Proof.
  intros Ho Hm. assert (forallb (fun a => negb (member a all_mutations) || member a alert_rule_actions) open_actions = true) as Hall by (vm_compute; reflexivity).
  pose proof (filtered _ _ _ Hall Ho) as Hx. cbv beta in Hx. unfold member in Hx. rewrite (bool_decide_eq_true_2 _ Hm) in Hx. by apply bool_decide_eq_true in Hx.
Qed.
Lemma open_not_exec a : a ∈ open_actions -> a ∉ "rightsizing_resource" :: podexec_actions true.
Proof.
  intros Ho. assert (forallb (fun a => negb (member a ("rightsizing_resource" :: podexec_actions true))) open_actions = true) as Hall by (vm_compute; reflexivity).
  pose proof (filtered _ _ _ Hall Ho) as Hx. by apply negb_true_iff, bool_decide_eq_false in Hx.
Qed.
(** The registry opens known actions only, and each has a handler, but for the
    two alert rule actions when there is no dynamic client. *)
Lemma run_registry_good cfg h quote `{KubeApi.Accessors} :
  good open_actions (if dynamicKube h then [] else alert_rule_actions) (run_registry cfg h quote).
Proof.
  unfold run_registry, register_mutations, register_cluster, register_proxies, register_queries. cbv zeta.
  repeat first [apply good_open; [vm_compute; reflexivity|] | apply good_proxy; [vm_compute; reflexivity|] | apply good_copy | assumption
    | apply good_when; [intros r Hr; cbv beta|]].
  2: { split; [done|]. intros a Ha. set_solver. }
  apply good_allow; [vm_compute; reflexivity| |by apply good_copy].
  intros a Ha. destruct (dynamicKube h) eqn:Ed; [left|by right]. apply copied. right. unfold mutation_actions, Handlers. rewrite !fmap_app. cbn [m_dynamic mutator]. rewrite Ed.
  apply elem_of_app. right. apply elem_of_app. right. apply elem_of_app. left. cbn. set_solver.
Qed.

Lemma active_actions s vd l : LightActionsSet (SetLightActions (Some s) vd) = Some l -> l = s.
Proof. by intros [= <-]. Qed.
Lemma unsigned_light oaep_decrypt uuid_parse r v : HmacSignature r = "" -> PartialAuthA r = "" -> PartialAuthB r = "" ->
  is_ok (validate_mode oaep_decrypt uuid_parse r v, v).1 = true -> light_allowed r v.
Proof.
  intros Hh Ha Hb Hv%is_ok_unit. apply validate_mode_iff in Hv as [[? _]|[[_ Hp]|(_ & _ & _ & Hl)]]; [done| |done].
  by destruct Hp as (? & ? & ? & ? & ? & _ & _ & _ & ? & _).
Qed.


(** ** Sample *)
Section sample.
#[local] Existing Instance KubeApi.Plain.accessors.
Definition toy_config : Config := config_of_env (fun name => if bool_decide (name = "MUTATE_ENABLED") then "true" else "").
Definition toy_host (dynamic : bool) : host := MkHost true dynamic (fun _ => None) 0 false.
Definition toy_request (action : string) : Request := MkRequest None action "" "" "" (MkEnvelope "" "" "" "") "".
Definition no_signature (key msg sig : string) : bool := false.
Abbreviation unsigned dynamic action :=
  (is_ok (Validate no_signature (fun _ _ => None) (fun _ => None) 0 0 (toy_request action) (validator toy_config (toy_host dynamic) id None None)).1).
Example unsigned_sample : map (fun a => unsigned true a) ["get_resource"; "http_proxy_request"; "delete_alert_rule"; "delete_pod"; "drain"; "pod_bash_enricher"; "rightsizing_resource"]
  = [true; true; true; false; false; false; false].
Proof. vm_compute. reflexivity. Qed.
(** Without a dynamic client the alert rule actions are open, but unknown. *)
Example alert_rules_unhandled : unsigned false "delete_alert_rule" = true /\ rg_handlers (run_registry toy_config (toy_host false) id) !! "delete_alert_rule" = None.
Proof. vm_compute. split; reflexivity. Qed.
End sample.
