(* ===== verification/ServiceMapQueries.v ===== *)
(** * Service map: the queries (pkg/servicemap/queries.go)

    The PromQL text of every series the map is built from, with and without a
    workload filter, and the expansion of its placeholders. *)

From S2P Require Import Prelude GoText CanonJson PromQL.

#[local] Set Default Proof Using "Type".

Definition edgeGroupBy : string :=
  "src_workload_kind, src_kind, src_workload_name, " +:+
  "src_workload_namespace, destination_workload_kind, " +:+
  "destination_workload_name, destination_workload_namespace, destination_ip".

Definition nodeQueries : gmap string string := list_to_map
  [("kube_pod_info", "kube_pod_info{__CLUSTER__} unless on (cluster, namespace, pod) (kube_pod_status_phase{__CLUSTER__ "
                     +:+ matcher "phase" "=" "Succeeded" +:+ "} == 1)");
   ("pod_workload", "count by (container_id, src_workload_kind, src_workload_name, src_workload_namespace) (container_net_tcp_bytes_sent_total{__CLUSTER__})");
   ("kube_pod_labels", "kube_pod_labels{__CLUSTER__}");
   ("kube_pod_status_ready", "kube_pod_status_ready{__CLUSTER__ " +:+ matcher "condition" "=" "true" +:+ "}");
   ("kube_service_info", "kube_service_info{__CLUSTER__}");
   ("kube_deployment_spec_replicas", "kube_deployment_spec_replicas{__CLUSTER__}");
   ("kube_daemonset_status_desired_number_scheduled", "kube_daemonset_status_desired_number_scheduled{__CLUSTER__}");
   ("kube_statefulset_replicas", "kube_statefulset_replicas{__CLUSTER__}");
   ("container_oom_kills_total", "increase(container_oom_kills_total{__CLUSTER__}[$RANGE]) % 10000000");
   ("container_restarts", "increase(container_restarts_total{__CLUSTER__}[$RANGE]) % 10000000");
   ("container_throttled_time", "rate(container_resources_cpu_throttled_seconds_total{__CLUSTER__}[$RANGE])");
   ("container_volume_size", "container_resources_disk_size_bytes{__CLUSTER__}");
   ("container_volume_used", "container_resources_disk_used_bytes{__CLUSTER__}")].

(** ** Protocols *)
Definition status_digit (s : string) : option Z :=
  match s with String a (String _ (String _ EmptyString)) => Some (byte a) | _ => None end.
Definition httpFailed (status : string) : bool :=
  match status_digit status with Some d => (d =? 52) || (d =? 53) | None => false end.
Definition statusFailed (status : string) : bool := bool_decide (status = "failed").
Definition dnsFailed (status : string) : bool :=
  negb (bool_decide (status = "ok")) && negb (bool_decide (status = "nxdomain")).

Record l7Protocol := MkProtocol { l7_name : string; l7_requests : string; l7_latency : string; l7_failed : string -> bool }.
Definition l7Protocols : list l7Protocol :=
  [MkProtocol "HTTP" "container_http_requests_total" "container_http_requests_duration_seconds_total" httpFailed;
   MkProtocol "Postgres" "container_postgres_queries_total" "container_postgres_queries_duration_seconds_total" statusFailed;
   MkProtocol "MySQL" "container_mysql_queries_total" "container_mysql_queries_duration_seconds_total" statusFailed;
   MkProtocol "MongoDB" "container_mongo_queries_total" "container_mongo_queries_duration_seconds_total" statusFailed;
   MkProtocol "Redis" "container_redis_queries_total" "container_redis_queries_duration_seconds_total" statusFailed;
   MkProtocol "Memcached" "container_memcached_queries_total" "container_memcached_queries_duration_seconds_total" statusFailed;
   MkProtocol "Cassandra" "container_cassandra_queries_total" "container_cassandra_queries_duration_seconds_total" statusFailed;
   MkProtocol "ClickHouse" "container_clickhouse_queries_total" "container_clickhouse_queries_duration_seconds_total" statusFailed;
   MkProtocol "FoundationDB" "container_foundationdb_requests_total" "container_foundationdb_requests_duration_seconds_total" statusFailed;
   MkProtocol "Zookeeper" "container_zookeeper_requests_total" "container_zookeeper_requests_duration_seconds_total" statusFailed;
   MkProtocol "Kafka" "container_kafka_requests_total" "container_kafka_requests_duration_seconds_total" statusFailed;
   MkProtocol "RabbitMQ" "container_rabbitmq_messages_total" "" statusFailed;
   MkProtocol "NATS" "container_nats_messages_total" "" statusFailed;
   MkProtocol "Dubbo" "container_dubbo_requests_total" "container_dubbo_requests_duration_seconds_total" statusFailed;
   MkProtocol "DNS" "container_dns_requests_total" "container_dns_requests_duration_seconds_total" dnsFailed].
Definition l7RequestsKey (p : l7Protocol) : string := "l7_requests:" +:+ l7_name p.
Definition l7LatencyKey (p : l7Protocol) : string := "l7_latency:" +:+ l7_name p.

(** ** Edge metrics *)
Record edgeMetric := MkEdgeMetric { em_key : string; em_agg : string; em_by : string; em_expr : string }.
Definition protocol_metrics (p : l7Protocol) : list edgeMetric :=
  MkEdgeMetric (l7RequestsKey p) "sum" "status" ("rate(" +:+ l7_requests p +:+ "{__EDGE__}[$RANGE])")
  :: if bool_decide (l7_latency p = "") then []
     else [MkEdgeMetric (l7LatencyKey p) "max" ""
             ("rate(" +:+ l7_latency p +:+ "_sum{__EDGE__}[$RANGE]) / (rate(" +:+ l7_latency p +:+ "_count{__EDGE__}[$RANGE]) > 0)")].
Definition edgeMetrics : list edgeMetric :=
  [MkEdgeMetric "container_net_tcp_successful_connects" "sum" "" "rate(container_net_tcp_successful_connects_total{__EDGE__}[$RANGE])";
   MkEdgeMetric "container_net_tcp_bytes_sent" "sum" "" "rate(container_net_tcp_bytes_sent_total{__EDGE__}[$RANGE])";
   MkEdgeMetric "container_net_tcp_bytes_received" "sum" "" "rate(container_net_tcp_bytes_received_total{__EDGE__}[$RANGE])"]
  ++ (l7Protocols ≫= protocol_metrics).

Definition edgeQuery (m : edgeMetric) (filtered : bool) : string :=
  let inner :=
    if filtered then
      let src := ReplaceAll (em_expr m) "__EDGE__" "__CLUSTER__ $SRC_FILTER," in
      let dst := ReplaceAll (em_expr m) "__EDGE__" "__CLUSTER__ $DST_FILTER," in
      "(" +:+ src +:+ ") or (" +:+ dst +:+ ")"
    else ReplaceAll (em_expr m) "__EDGE__" "__CLUSTER__" in
  let by_labels := if bool_decide (em_by m = "") then edgeGroupBy else edgeGroupBy +:+ ", " +:+ em_by m in
  em_agg m +:+ " by (" +:+ by_labels +:+ ") (" +:+ inner +:+ ") > 0".
Definition buildQueries (filtered : bool) : gmap string string :=
  foldl (fun out m => <[em_key m := edgeQuery m filtered]> out) nodeQueries edgeMetrics.
Definition Queries : gmap string string := buildQueries false.
Definition ApplicationQueries : gmap string string := buildQueries true.

(** ** Placeholders *)
Definition expandPlaceholders (query rangeStep srcFilter dstFilter podFilter nsFilter clusterFilter : string) : string :=
  let q := ReplaceAll query "$RANGE" rangeStep in
  let q := ReplaceAll q "$SRC_FILTER" srcFilter in
  let q := ReplaceAll q "$DST_FILTER" dstFilter in
  let q := ReplaceAll q "$POD_FILTER" podFilter in
  let q := ReplaceAll q "$NAMESPACE_FILTER" nsFilter in
  ReplaceAll q "__CLUSTER__" clusterFilter.

(** The entries of the map in the order the iteration takes them. *)
Definition dictToPrometheusFilter (m : list (string * string)) : string :=
  join "," (map (fun kv => matcher kv.1 "=~" (if contains_byte (chr 37) kv.2 then ReplaceAll kv.2 "%" ".*" else kv.2)) m).
