(* ===== verification/ServiceMap.v ===== *)
(** * Service map: building the topology (pkg/servicemap: types.go, world.go,
    parser.go, build.go)

    The samples of Prometheus answers, the world of applications, pods and
    edges, and the passes that build it.  Where the code takes the first match
    of a map iteration, whose order the language leaves open, [pick n] is the
    choice the [n]-th such iteration makes; the world counts them.  Adding to
    different entries of a map commutes, so the other iterations need no
    choice. *)

From S2P Require Import Prelude GoText GoJson GoStruct GoFloat ServiceMapQueries.

#[local] Set Default Proof Using "Type".

(** ** Types *)
Record ApplicationID := MkID { id_Name : string; id_Kind : string; id_Namespace : string }.
#[export] Instance ApplicationID_eq_dec : EqDecision ApplicationID.
Proof. solve_decision. Defined.
Record Instance_ := MkInstance { in_ID : ApplicationID; IsFailed : bool }.
Definition labels := gmap string string.
Record promResult := MkResult { Metric : labels; Last : float64; HasVal : bool }.

(** ** parser.go *)
Record promResultRaw := MkRaw { raw_metric : smap; raw_value : option (list json); raw_values : list (list json) }.
Record promQueryResponse := MkResponse { resp_status : string; resp_result : list promResultRaw }.
Definition set_anys (m : member) (old : option (list json)) : option (list json) * bool :=
  match m_val m with JArr l => (Some l, negb (has_other (JArr l))) | JNull => (None, true) | _ => (old, false) end.
Fixpoint sample_rows (l : list json) : list (list json) * bool :=
  match l with
  | [] => ([], true)
  | v :: l =>
    let '(rows, ok) := sample_rows l in
    match v with JArr r => (r :: rows, ok && negb (has_other v)) | JNull => ([] :: rows, ok) | _ => ([] :: rows, false) end
  end.
Definition set_rows (m : member) (old : list (list json)) : list (list json) * bool :=
  match m_val m with JArr l => sample_rows l | JNull => ([], true) | _ => (old, false) end.
Definition set_result (f : string) (m : member) (r : promResultRaw) : promResultRaw * bool :=
  if bool_decide (f = "metric") then
    let '(v, ok) := set_string_map (raw_metric r) m in (MkRaw v (raw_value r) (raw_values r), ok)
  else if bool_decide (f = "value") then
    let '(v, ok) := set_anys m (raw_value r) in (MkRaw (raw_metric r) v (raw_values r), ok)
  else let '(v, ok) := set_rows m (raw_values r) in (MkRaw (raw_metric r) (raw_value r) v, ok).
Definition set_data (f : string) (m : member) (r : promQueryResponse) : promQueryResponse * bool :=
  if bool_decide (f = "result") then
    let '(l, ok) := set_list (set_struct ["metric"; "value"; "values"] set_result) (MkRaw None None []) (resp_result r) m in
    (MkResponse (resp_status r) l, ok)
  else let '(_, ok) := set_string "" m in (r, ok).
Definition set_response (f : string) (m : member) (r : promQueryResponse) : promQueryResponse * bool :=
  if bool_decide (f = "status") then
    let '(v, ok) := set_string (resp_status r) m in (MkResponse v (resp_result r), ok)
  else set_struct ["resultType"; "result"] set_data r m.

Definition finite (f : float64) : bool := match f with F64 _ _ _ => true | _ => false end.
Section parser.
Context (other_float : string -> option float64).
Definition lastValue (values : list (list json)) : option float64 :=
  match last values with
  | Some [_; JStr s] => match ParseFloat other_float s with
                        | Some v => if finite v then Some v else None
                        | None => None
                        end
  | _ => None
  end.
Definition sample (r : promResultRaw) : promResult :=
  let values := match raw_value r with Some v => [v] | None => raw_values r end in
  let metric := list_to_map (default [] (raw_metric r)) in
  match lastValue values with
  | Some v => MkResult metric v true
  | None => MkResult metric float_zero false
  end.
Definition parsePromResponse (raw : string) : result (list promResult) :=
  if bool_decide (raw = "") then Ok []
  else let '(resp, ok) := unmarshal_struct ["status"; "data"] set_response raw (MkResponse "" []) in
       if negb ok then Err "json"
       else if negb (bool_decide (resp_status resp = "success")) then Ok []
       else Ok (map sample (resp_result resp)).
End parser.
Definition labelOr (l : labels) (key fallback : string) : string :=
  match l !! key with Some v => if bool_decide (v = "") then fallback else v | None => fallback end.

(** ** world.go *)
Record application := MkApp { app_id : ApplicationID; app_labels : labels; app_instances : gmap string Instance_; app_desired : Z }.
Record containerSums := MkSums { oomKills : float64; restarts : float64; cpuThrottlingTime : float64; volumeSize : float64; volumeUsed : float64 }.
Record linkAccum := MkLink
  { connects : float64; requests : float64; failures : float64; latency : float64; bytesSent : float64; bytesRecv : float64;
    protocol : string; protocolRequests : float64 }.
Definition zero_link : linkAccum := MkLink float_zero float_zero float_zero float_zero float_zero float_zero "" float_zero.
Definition zero_sums : containerSums := MkSums float_zero float_zero float_zero float_zero float_zero.
Definition requestRate (la : linkAccum) : float64 :=
  if bool_decide (protocol la = "") then connects la else requests la.
(** [iterations] is not a field of the code: it numbers the map iterations
    whose order matters. *)
Record world := MkWorld
  { applications : gmap string application; podIPToApp : gmap string string; podApp : gmap string string;
    serviceIPToApp : gmap string string; containerStats : gmap string containerSums;
    edges : gmap (string * string) linkAccum; iterations : nat }.
Definition newWorld : world := MkWorld ∅ ∅ ∅ ∅ ∅ ∅ 0.
Definition on_apps f w := MkWorld (f (applications w)) (podIPToApp w) (podApp w) (serviceIPToApp w) (containerStats w) (edges w) (iterations w).
Definition on_podIP f w := MkWorld (applications w) (f (podIPToApp w)) (podApp w) (serviceIPToApp w) (containerStats w) (edges w) (iterations w).
Definition on_pods f w := MkWorld (applications w) (podIPToApp w) (f (podApp w)) (serviceIPToApp w) (containerStats w) (edges w) (iterations w).
Definition on_serviceIP f w := MkWorld (applications w) (podIPToApp w) (podApp w) (f (serviceIPToApp w)) (containerStats w) (edges w) (iterations w).
Definition on_stats f w := MkWorld (applications w) (podIPToApp w) (podApp w) (serviceIPToApp w) (f (containerStats w)) (edges w) (iterations w).
Definition on_edges f w := MkWorld (applications w) (podIPToApp w) (podApp w) (serviceIPToApp w) (containerStats w) (f (edges w)) (iterations w).
Definition iterate w := MkWorld (applications w) (podIPToApp w) (podApp w) (serviceIPToApp w) (containerStats w) (edges w) (S (iterations w)).

Definition appKey (id : ApplicationID) : string := id_Kind id +:+ "/" +:+ id_Namespace id +:+ "/" +:+ id_Name id.
(** The slot of [id], created if needed; it is found again under [appKey id]. *)
Definition upsertApp (id : ApplicationID) (w : world) : world :=
  match applications w !! appKey id with
  | Some _ => w
  | None => on_apps <[appKey id := MkApp id ∅ ∅ 0]> w
  end.
Definition containerStatsFor (appK : string) (f : containerSums -> containerSums) : world -> world :=
  on_stats (partial_alter (fun s => Some (f (default zero_sums s))) appK).
Definition addEdge (e : string * string) (w : world) : world :=
  match edges w !! e with Some _ => w | None => on_edges <[e := zero_link]> w end.
Definition resolveAppByIP (w : world) (ip : string) : string :=
  if bool_decide (ip = "") then ""
  else match podIPToApp w !! ip with Some k => k | None => default "" (serviceIPToApp w !! ip) end.

(** ** build.go: names of workloads and pods *)
Definition nonWorkloadKinds : list string := ["localhost"; "node"; "external"].
Definition podRef (namespace pod : string) : string := namespace +:+ "/" +:+ pod.
Definition podFromContainerID (id : string) : option (string * string) :=
  match split_at (chr 47) id with
  | [p0; p1; p2; p3; _] =>
    if negb (bool_decide (p0 = "")) || negb (bool_decide (p1 = "k8s")) || bool_decide (p2 = "") || bool_decide (p3 = "")
    then None else Some (p2, p3)
  | _ => None
  end.
Definition orDefault (s fallback : string) : string := if bool_decide (s = "") then fallback else s.
(** [^[bcdfghjklmnpqrstvwxz2456789]{6,11}$] *)
Definition hash_char (c : ascii) : bool := contains_byte c "bcdfghjklmnpqrstvwxz2456789".
Definition podTemplateHashRe (s : string) : bool :=
  bool_decide (6 <= strlen s <= 11)%nat && all_of hash_char s.
Definition workloadID (kind name namespace : string) : ApplicationID :=
  match (if bool_decide (kind = "ReplicaSet") then cut_last (chr 45) name else None) with
  | Some (base, suffix) =>
    if negb (bool_decide (base = "")) && podTemplateHashRe suffix then MkID base "Deployment" namespace
    else MkID name kind namespace
  | None => MkID name kind namespace
  end.
Definition or_deployment (id : ApplicationID) : ApplicationID :=
  MkID (id_Name id) (orDefault (id_Kind id) "Deployment") (id_Namespace id).
Definition directOwner (l : labels) : ApplicationID :=
  let ns := labelOr l "namespace" "" in
  let name := labelOr l "created_by_name" "" in
  if bool_decide (name = "") then MkID (labelOr l "pod" "") "Pod" ns
  else workloadID (labelOr l "created_by_kind" "") name ns.
Definition podWorkload (out : gmap string ApplicationID) (r : promResult) : gmap string ApplicationID :=
  let l := Metric r in
  let kind := labelOr l "src_workload_kind" "" in
  let name := labelOr l "src_workload_name" "" in
  match podFromContainerID (labelOr l "container_id" "") with
  | Some (ns, pod) =>
    if bool_decide (name = "") || bool_decide (kind ∈ nonWorkloadKinds) then out
    else <[podRef ns pod := or_deployment (workloadID kind name (labelOr l "src_workload_namespace" ns))]> out
  | None => out
  end.
Definition podWorkloads (results : list promResult) : gmap string ApplicationID := foldl podWorkload ∅ results.

Definition matchesLabelPrefix (name : string) : bool := has_prefix name "label_" && negb (bool_decide (name = "label_")).
Definition stripLabelPrefix (name : string) : string := default name (strip_prefix "label_" name).
(** The pod labels among [l], under their own names. *)
Definition pod_labels (l : labels) : labels :=
  list_to_map (map (fun kv => (stripLabelPrefix kv.1, kv.2)) (filter (fun kv => matchesLabelPrefix kv.1) (map_to_list l))).

(** ** The passes over one series *)
Definition zero_instance : Instance_ := MkInstance (MkID "" "" "") false.
Definition alter_app (f : application -> application) (k : string) : world -> world := on_apps (alter f k).
Definition with_instance (pod : string) (i : Instance_) (a : application) : application :=
  MkApp (app_id a) (app_labels a) (<[pod := i]> (app_instances a)) (app_desired a).
Definition with_labels (l : labels) (a : application) : application :=
  MkApp (app_id a) (l ∪ app_labels a) (app_instances a) (app_desired a).
Definition with_desired (n : Z) (a : application) : application :=
  MkApp (app_id a) (app_labels a) (app_instances a) n.

(** Phase 1 *)
Definition add_pod (workloads : gmap string ApplicationID) (w : world) (r : promResult) : world :=
  let l := Metric r in
  let ns := labelOr l "namespace" "" in
  let podName := labelOr l "pod" "" in
  let podIP := labelOr l "pod_ip" "" in
  let id := match workloads !! podRef ns podName with Some id => id | None => directOwner l end in
  let w := upsertApp id w in
  let w := if bool_decide (podName = "") then w
           else on_pods <[podRef ns podName := appKey id]>
                  (alter_app (with_instance podName (MkInstance (MkID podName (id_Kind id) ns) false)) (appKey id) w) in
  if bool_decide (podIP = "") then w else on_podIP <[podIP := appKey id]> w.
(** Phase 2 *)
Definition label_pod (w : world) (r : promResult) : world :=
  let l := Metric r in
  match podApp w !! podRef (labelOr l "namespace" "") (labelOr l "pod" "") with
  | Some k => alter_app (with_labels (pod_labels l)) k w
  | None =>
    if bool_decide (labelOr l "created_by_name" "" = "") then w
    else alter_app (with_labels (pod_labels l)) (appKey (directOwner l)) (upsertApp (directOwner l) w)
  end.
(** Phase 3; [None] is the panic of dereferencing a missing application. *)
Definition mark_ready (w : world) (r : promResult) : option world :=
  let l := Metric r in
  let podName := labelOr l "pod" "" in
  match podApp w !! podRef (labelOr l "namespace" "") podName with
  | None => Some w
  | Some k =>
    app ← applications w !! k;
    let inst := default zero_instance (app_instances app !! podName) in
    Some (alter_app (with_instance podName (MkInstance (in_ID inst) (negb (HasVal r) || f_eq (Last r) float_zero))) k w)
  end.
Fixpoint mark_all_ready (w : world) (results : list promResult) : option world :=
  match results with [] => Some w | r :: results => w ← mark_ready w r; mark_all_ready w results end.
(** Phase 4 *)
Definition add_service (w : world) (r : promResult) : world :=
  let l := Metric r in
  let clusterIP := labelOr l "cluster_ip" "" in
  let svcName := labelOr l "service" "" in
  let ns := labelOr l "namespace" "" in
  if bool_decide (clusterIP = "") || bool_decide (svcName = "") then w
  else let id := MkID svcName "Service" ns in on_serviceIP <[clusterIP := appKey id]> (upsertApp id w).
(** Phase 5 *)
Definition replica_count (kind labelKey : string) (w : world) (r : promResult) : world :=
  let name := labelOr (Metric r) labelKey "" in
  let ns := labelOr (Metric r) "namespace" "" in
  if bool_decide (name = "") then w
  else
    let id := MkID name kind ns in
    let w := upsertApp id w in
    if HasVal r then alter_app (with_desired (f_to_int (Last r))) (appKey id) w else w.
Definition applyReplicaCount (w : world) (results : list promResult) (kind labelKey : string) : world :=
  foldl (replica_count kind labelKey) w results.
(** Phase 6 *)
Definition container_stat (accumulate : float64 -> containerSums -> containerSums) (w : world) (r : promResult) : world :=
  if negb (HasVal r) then w
  else match podFromContainerID (labelOr (Metric r) "container_id" "") with
       | None => w
       | Some (ns, pod) =>
         match podApp w !! podRef ns pod with
         | Some k => containerStatsFor k (accumulate (Last r)) w
         | None => w
         end
       end.
Definition addContainerStat (w : world) (results : list promResult) (accumulate : float64 -> containerSums -> containerSums) : world :=
  foldl (container_stat accumulate) w results.

(** ** The edges *)
Definition of_key (metrics : gmap string (list promResult)) (key : string) : list promResult := default [] (metrics !! key).
Section build.
Context (pick : nat -> nat).

(** Any application with the name in the namespace. *)
Definition named (name namespace : string) (w : world) : list string :=
  (filter (fun ka => id_Name (app_id ka.2) = name /\ id_Namespace (app_id ka.2) = namespace) (map_to_list (applications w))).*1.
Definition pick_one (keys : list string) (w : world) : option string :=
  keys !! (pick (iterations w) mod length keys)%nat.
Definition resolveApp (kind name namespace : string) (w : world) : option string * world :=
  let id := workloadID kind name namespace in
  if negb (bool_decide (id_Kind id = "")) && bool_decide (is_Some (applications w !! appKey id))
  then (Some (appKey id), w)
  else (pick_one (named (id_Name id) namespace w) w, iterate w).
(** The application an edge label names, registered if it is not known. *)
Definition resolve_or_register (kind name namespace : string) (w : world) : string * world :=
  match resolveApp kind name namespace w with
  | (Some k, w) => (k, w)
  | (None, w) => let id := or_deployment (workloadID kind name namespace) in (appKey id, upsertApp id w)
  end.
(** The edge whose accumulator is returned. *)
Definition edgeFromConnectionLabels (w : world) (l : labels) : option (string * string) * world :=
  let srcKind := labelOr l "src_workload_kind" (labelOr l "src_kind" "") in
  let srcName := labelOr l "src_workload_name" "" in
  let srcNS := labelOr l "src_workload_namespace" "" in
  if bool_decide (srcName = "") || bool_decide (srcKind ∈ nonWorkloadKinds) then (None, w)
  else
    let '(srcK, w) := resolve_or_register srcKind srcName srcNS w in
    let dstKind := labelOr l "destination_workload_kind" "" in
    let dstName := labelOr l "destination_workload_name" "" in
    let dstNS := labelOr l "destination_workload_namespace" "" in
    let '(dstK, w) := if bool_decide (dstName = "") then (resolveAppByIP w (labelOr l "destination_ip" ""), w)
                      else resolve_or_register dstKind dstName dstNS w in
    if bool_decide (dstK = "") || bool_decide (dstK = srcK) then (None, w)
    else (Some (srcK, dstK), addEdge (srcK, dstK) w).

(** [fn] updates the accumulator of the edge and the state the closure captures. *)
Section each.
Context {A : Type} (fn : string * string -> promResult -> A -> linkAccum -> A * linkAccum).
Definition visit (acc : A * world) (r : promResult) : A * world :=
  let '(a, w) := acc in
  if negb (HasVal r) then (a, w)
  else match edgeFromConnectionLabels w (Metric r) with
       | (Some e, w) => let '(a, la) := fn e r a (default zero_link (edges w !! e)) in (a, on_edges <[e := la]> w)
       | (None, w) => (a, w)
       end.
Definition forEachEdge (a : A) (w : world) (results : list promResult) : A * world := foldl visit (a, w) results.
End each.
Definition eachEdge (fn : promResult -> linkAccum -> linkAccum) (w : world) (results : list promResult) : world :=
  (forEachEdge (fun _ r u la => (u, fn r la)) tt w results).2.

Definition add_connects (r : promResult) (la : linkAccum) : linkAccum :=
  MkLink (float_add (connects la) (Last r)) (requests la) (failures la) (latency la) (bytesSent la) (bytesRecv la) (protocol la) (protocolRequests la).
Definition add_failures (v : float64) (la : linkAccum) : linkAccum :=
  MkLink (connects la) (requests la) (float_add (failures la) v) (latency la) (bytesSent la) (bytesRecv la) (protocol la) (protocolRequests la).
Definition slowest (r : promResult) (la : linkAccum) : linkAccum :=
  if f_lt (latency la) (Last r)
  then MkLink (connects la) (requests la) (failures la) (Last r) (bytesSent la) (bytesRecv la) (protocol la) (protocolRequests la)
  else la.
Definition add_sent (r : promResult) (la : linkAccum) : linkAccum :=
  MkLink (connects la) (requests la) (failures la) (latency la) (float_add (bytesSent la) (Last r)) (bytesRecv la) (protocol la) (protocolRequests la).
Definition add_received (r : promResult) (la : linkAccum) : linkAccum :=
  MkLink (connects la) (requests la) (failures la) (latency la) (bytesSent la) (float_add (bytesRecv la) (Last r)) (protocol la) (protocolRequests la).
(** The requests of a protocol on an edge; the busiest protocol names it. *)
Definition settle (name : string) (n : float64) (la : linkAccum) : linkAccum :=
  let busiest := f_lt (protocolRequests la) n in
  MkLink (connects la) (float_add (requests la) n) (failures la) (latency la) (bytesSent la) (bytesRecv la)
    (if busiest then name else protocol la) (if busiest then n else protocolRequests la).
Definition count_requests (p : l7Protocol) (e : string * string) (r : promResult) (perEdge : gmap (string * string) float64) (la : linkAccum) :
  gmap (string * string) float64 * linkAccum :=
  (<[e := float_add (default float_zero (perEdge !! e)) (Last r)]> perEdge,
   if l7_failed p (labelOr (Metric r) "status" "") then add_failures (Last r) la else la).
Definition protocol_edges (metrics : gmap string (list promResult)) (w : world) (p : l7Protocol) : world :=
  let '(perEdge, w) := forEachEdge (count_requests p) ∅ w (of_key metrics (l7RequestsKey p)) in
  let w := on_edges (map_imap (fun e la => Some (match perEdge !! e with Some n => settle (l7_name p) n la | None => la end))) w in
  eachEdge slowest w (of_key metrics (l7LatencyKey p)).

Definition add_oomKills (v : float64) (s : containerSums) := MkSums (float_add (oomKills s) v) (restarts s) (cpuThrottlingTime s) (volumeSize s) (volumeUsed s).
Definition add_restarts (v : float64) (s : containerSums) := MkSums (oomKills s) (float_add (restarts s) v) (cpuThrottlingTime s) (volumeSize s) (volumeUsed s).
Definition add_throttling (v : float64) (s : containerSums) := MkSums (oomKills s) (restarts s) (float_add (cpuThrottlingTime s) v) (volumeSize s) (volumeUsed s).
Definition add_volumeSize (v : float64) (s : containerSums) := MkSums (oomKills s) (restarts s) (cpuThrottlingTime s) (float_add (volumeSize s) v) (volumeUsed s).
Definition add_volumeUsed (v : float64) (s : containerSums) := MkSums (oomKills s) (restarts s) (cpuThrottlingTime s) (volumeSize s) (float_add (volumeUsed s) v).

Definition add_pods (metrics : gmap string (list promResult)) : option world :=
  let workloads := podWorkloads (of_key metrics "pod_workload") in
  let w := foldl (add_pod workloads) newWorld (of_key metrics "kube_pod_info") in
  let w := foldl label_pod w (of_key metrics "kube_pod_labels") in
  mark_all_ready w (of_key metrics "kube_pod_status_ready").
Definition add_services (metrics : gmap string (list promResult)) (w : world) : world :=
  let w := foldl add_service w (of_key metrics "kube_service_info") in
  let w := applyReplicaCount w (of_key metrics "kube_deployment_spec_replicas") "Deployment" "deployment" in
  let w := applyReplicaCount w (of_key metrics "kube_statefulset_replicas") "StatefulSet" "statefulset" in
  applyReplicaCount w (of_key metrics "kube_daemonset_status_desired_number_scheduled") "DaemonSet" "daemonset".
Definition add_container_stats (metrics : gmap string (list promResult)) (w : world) : world :=
  let w := addContainerStat w (of_key metrics "container_oom_kills_total") add_oomKills in
  let w := addContainerStat w (of_key metrics "container_restarts") add_restarts in
  let w := addContainerStat w (of_key metrics "container_throttled_time") add_throttling in
  let w := addContainerStat w (of_key metrics "container_volume_size") add_volumeSize in
  addContainerStat w (of_key metrics "container_volume_used") add_volumeUsed.
Definition add_edges (metrics : gmap string (list promResult)) (w : world) : world :=
  let w := eachEdge add_connects w (of_key metrics "container_net_tcp_successful_connects") in
  let w := foldl (protocol_edges metrics) w l7Protocols in
  let w := eachEdge add_sent w (of_key metrics "container_net_tcp_bytes_sent") in
  eachEdge add_received w (of_key metrics "container_net_tcp_bytes_received").
(** [None] is a panic. *)
Definition build (metrics : gmap string (list promResult)) : option world :=
  w ← add_pods metrics;
  Some (add_edges metrics (add_container_stats metrics (add_services metrics w))).
End build.
