(* ===== verification/ServiceMapWorld.v ===== *)
(** * Service map: the invariant of the world (pkg/servicemap/build.go)

    Every pass of the build keeps the world consistent: index entries and
    ends of edges are known applications, applications stand under their
    keys, and no edge is a loop.  Pods are grouped under the names that the
    edges carry. *)

From S2P Require Import Prelude GoText GoFloat ServiceMapQueries ServiceMap.

#[local] Set Default Proof Using "Type".

(** ** The invariant of the world *)
Definition known (w : world) (k : string) : Prop := is_Some (applications w !! k).
Record world_ok (w : world) : Prop := MkOk
  { ok_keys : forall k a, applications w !! k = Some a -> appKey (app_id a) = k;
    ok_ips : forall ip k, podIPToApp w !! ip = Some k -> known w k;
    ok_pods : forall p k, podApp w !! p = Some k -> known w k;
    ok_services : forall ip k, serviceIPToApp w !! ip = Some k -> known w k;
    ok_edges : forall s d la, edges w !! (s, d) = Some la -> known w s /\ known w d /\ s <> d }.
(** [w'] knows what [w] knows. *)
Definition grows (w w' : world) : Prop := forall k, known w k -> known w' k.
(** A step of the build: nothing is forgotten and the invariant is kept. *)
Definition step (w w' : world) : Prop := grows w w' /\ (world_ok w -> world_ok w').
#[export] Instance step_preorder : PreOrder step.
Proof. split; [intros w; split; auto; by intros ?|intros w1 w2 w3 [G1 O1] [G2 O2]; split; [intros k Hk; auto|auto]]. Qed.
Lemma foldl_step {A} (f : world -> A -> world) l w : (forall w x, step w (f w x)) -> step w (foldl f w l).
Proof.
  intros H. revert w. induction l as [|x l IH]; intros w; cbn [foldl]; [reflexivity|].
  etransitivity; [apply H|apply IH].
Qed.

Lemma new_ok : world_ok newWorld.
Proof. split; cbn; intros *; rewrite lookup_empty; done. Qed.
(** Updating the entries of applications without their ids. *)
Lemma alter_step f k w : (forall a, app_id (f a) = app_id a) -> step w (alter_app f k w).
Proof.
  intros Hf. assert (forall k', known (alter_app f k w) k' <-> known w k') as Hk.
  { intros k'. unfold known, alter_app, on_apps. cbn [applications]. destruct (decide (k = k')) as [<-|].
    - rewrite lookup_alter_eq. by rewrite fmap_is_Some.
    - by rewrite lookup_alter_ne. }
  split; [by intros k' ?; apply Hk|]. intros [K I P V E]. split; [|by intros; apply Hk; eauto..|].
  - intros k' a. unfold alter_app, on_apps. cbn [applications]. destruct (decide (k = k')) as [<-|].
    + rewrite lookup_alter_eq. intros (b & Eb & ->)%fmap_Some. rewrite Hf. by apply K.
    + rewrite lookup_alter_ne by done. apply K.
  - intros s d la H. destruct (E s d la H) as (? & ? & ?). by rewrite !Hk.
Qed.
Lemma upsert_step id w : step w (upsertApp id w).
Proof.
  unfold upsertApp. destruct (applications w !! appKey id) eqn:E; [reflexivity|].
  assert (grows w (on_apps <[appKey id := MkApp id ∅ ∅ 0]> w)) as G.
  { intros k Hk. unfold known, on_apps. cbn [applications]. destruct (decide (appKey id = k)) as [<-|].
    - rewrite lookup_insert_eq. eauto.
    - by rewrite lookup_insert_ne. }
  split; [done|]. intros [K I P V D]. split; [|by intros; apply G; eauto..|].
  - intros k a. unfold on_apps. cbn [applications]. destruct (decide (appKey id = k)) as [<-|].
    + rewrite lookup_insert_eq. by intros [= <-].
    + rewrite lookup_insert_ne by done. apply K.
  - intros s d la H. destruct (D s d la H) as (? & ? & ?). auto.
Qed.
Lemma upsert_known id w : known (upsertApp id w) (appKey id).
Proof.
  unfold upsertApp, known. destruct (applications w !! appKey id) eqn:E; [eauto|].
  unfold on_apps. cbn [applications]. rewrite lookup_insert_eq. eauto.
Qed.
(** An index entry for a known application. *)
Lemma index_ok (m : gmap string string) (w : world) i k0 k j :
  (forall ip k, m !! ip = Some k -> known w k) -> known w k0 -> <[i := k0]> m !! j = Some k -> known w k.
Proof. intros Hm H0 [[-> <-]|[_ H]]%lookup_insert_Some; eauto. Qed.
Lemma pods_step p k w : known w k -> step w (on_pods <[p := k]> w).
Proof. intros H. split; [by intros ?|]. intros [K I P V D]. split; try done. intros q k' Hq. exact (index_ok (podApp w) w p k k' q P H Hq). Qed.
Lemma podIP_step p k w : known w k -> step w (on_podIP <[p := k]> w).
Proof. intros H. split; [by intros ?|]. intros [K I P V D]. split; try done. intros q k' Hq. exact (index_ok (podIPToApp w) w p k k' q I H Hq). Qed.
Lemma serviceIP_step p k w : known w k -> step w (on_serviceIP <[p := k]> w).
Proof. intros H. split; [by intros ?|]. intros [K I P V D]. split; try done. intros q k' Hq. exact (index_ok (serviceIPToApp w) w p k k' q V H Hq). Qed.
Lemma stats_step f w : step w (on_stats f w).
Proof. split; [by intros ?|]. by intros [K I P V D]. Qed.
Lemma iterate_step w : step w (iterate w).
Proof. split; [by intros ?|]. by intros [K I P V D]. Qed.
(** New figures for edges, and new edges between known applications. *)
Lemma edges_step f w :
  (world_ok w -> forall s d la, f (edges w) !! (s, d) = Some la -> is_Some (edges w !! (s, d)) \/ (known w s /\ known w d /\ s <> d)) ->
  step w (on_edges f w).
Proof.
  intros H. split; [by intros ?|]. intros Hw. pose proof (H Hw) as H'. destruct Hw as [K I P V D]. split; try done.
  intros s d la Hl. destruct (H' s d la Hl) as [[la' ?]|?]; [by apply (D s d la')|done].
Qed.



(** ** Every pass is a step *)
Lemma add_pod_step ids w r : step w (add_pod ids w r).
Proof.
  unfold add_pod. generalize (match ids !! podRef (labelOr (Metric r) "namespace" "") (labelOr (Metric r) "pod" "") with
              | Some id => id | None => directOwner (Metric r) end). intros id.
  pose proof (upsert_known id w) as Hk. transitivity (upsertApp id w); [apply upsert_step|].
  generalize dependent (upsertApp id w). intros w1 Hk.
  assert (forall w2, step w1 w2 -> step w1 (if bool_decide (labelOr (Metric r) "pod_ip" "" = "") then w2
            else on_podIP <[labelOr (Metric r) "pod_ip" "" := appKey id]> w2)) as Hip.
  { intros w2 S2. case_bool_decide; [done|]. etransitivity; [exact S2|]. by apply podIP_step, S2. }
  apply Hip. clear Hip. case_bool_decide; [reflexivity|].
  etransitivity; [|apply pods_step]; [by apply alter_step|]. by apply (alter_step _ (appKey id) w1).
Qed.
Lemma label_pod_step w r : step w (label_pod w r).
Proof.
  unfold label_pod. destruct (podApp w !! _); [by apply alter_step|]. case_bool_decide; [reflexivity|].
  etransitivity; [apply upsert_step|by apply alter_step].
Qed.
Lemma add_service_step w r : step w (add_service w r).
Proof.
  unfold add_service. destruct (_ || _); [reflexivity|].
  etransitivity; [apply upsert_step|]. apply serviceIP_step, upsert_known.
Qed.
Lemma replica_count_step kind key w r : step w (replica_count kind key w r).
Proof.
  unfold replica_count. case_bool_decide; [reflexivity|].
  destruct (HasVal r); [|apply upsert_step]. etransitivity; [apply upsert_step|by apply alter_step].
Qed.
Lemma container_stat_step f w r : step w (container_stat f w r).
Proof.
  unfold container_stat. destruct (negb _); [reflexivity|]. destruct (podFromContainerID _) as [[ns pod]|]; [|reflexivity].
  destruct (podApp w !! _); [apply stats_step|reflexivity].
Qed.
(** Phase 3 never meets a missing application. *)
Lemma mark_ready_step w r : world_ok w -> exists w', mark_ready w r = Some w' /\ step w w'.
Proof.
  intros Hw. unfold mark_ready. destruct (podApp w !! _) as [k|] eqn:E.
  - destruct (ok_pods w Hw _ _ E) as [a ->]. eexists. split; [reflexivity|by apply alter_step].
  - eexists. split; [reflexivity|reflexivity].
Qed.
Lemma mark_all_step l w : world_ok w -> exists w', mark_all_ready w l = Some w' /\ step w w'.
Proof.
  revert w. induction l as [|r l IH]; intros w Hw; cbn [mark_all_ready]; [eexists; split; reflexivity|].
  destruct (mark_ready_step w r Hw) as (w1 & -> & S1). cbn [mbind option_bind].
  destruct (IH w1) as (w2 & -> & S2); [by apply S1|]. eexists. split; [reflexivity|by etransitivity].
Qed.

Section passes.
Context (pick : nat -> nat).
Lemma resolve_spec kind name ns w : match resolveApp pick kind name ns w with
  | (Some k, w') => known w' k /\ step w w'
  | (None, w') => step w w'
  end.
Proof using.
  unfold resolveApp. destruct (negb _ && _) eqn:E; [|destruct (pick_one _ _ _) as [k|] eqn:Ek].
  - apply andb_prop in E as [_ ?%bool_decide_eq_true]. by split.
  - split; [|apply iterate_step]. apply list_elem_of_lookup_2, list_elem_of_fmap in Ek as ([k' a] & -> & Hin).
    apply list_elem_of_filter in Hin as [_ ?%elem_of_map_to_list]. cbn. by exists a.
  - apply iterate_step.
Qed.
Lemma register_spec kind name ns w : let '(k, w') := resolve_or_register pick kind name ns w in known w' k /\ step w w'.
Proof using.
  unfold resolve_or_register. pose proof (resolve_spec kind name ns w) as H.
  destruct (resolveApp pick kind name ns w) as [[k|] w']; [done|].
  split; [apply upsert_known|]. etransitivity; [exact H|apply upsert_step].
Qed.
Lemma byIP_known w ip : world_ok w -> resolveAppByIP w ip <> "" -> known w (resolveAppByIP w ip).
Proof using.
  intros Hw. unfold resolveAppByIP. case_bool_decide; [done|].
  destruct (podIPToApp w !! ip) eqn:E; [by intros _; eapply ok_ips|].
  destruct (serviceIPToApp w !! ip) eqn:E'; [by intros _; eapply ok_services|done].
Qed.

Lemma add_edge_step s d w : (world_ok w -> known w s /\ known w d /\ s <> d) -> step w (addEdge (s, d) w).
Proof using.
  intros H. unfold addEdge. destruct (edges w !! (s, d)); [reflexivity|]. apply edges_step. intros Hw s' d' la.
  intros [[[= <- <-] _]|[_ ?]]%lookup_insert_Some; eauto.
Qed.
Lemma add_edge_there e w : is_Some (edges (addEdge e w) !! e).
Proof using.
  unfold addEdge. destruct (edges w !! e) eqn:E; [by rewrite E|]. unfold on_edges. cbn [edges].
  rewrite lookup_insert_eq. eauto.
Qed.
Lemma edge_spec w l : let '(oe, w') := edgeFromConnectionLabels pick w l in
  step w w' /\ forall e, oe = Some e -> is_Some (edges w' !! e).
Proof using.
  unfold edgeFromConnectionLabels. destruct (_ || _); [by split|].
  pose proof (register_spec (labelOr l "src_workload_kind" (labelOr l "src_kind" "")) (labelOr l "src_workload_name" "")
    (labelOr l "src_workload_namespace" "") w) as Hsrc.
  destruct (resolve_or_register pick _ _ _ w) as [srcK w1]. destruct Hsrc as [Ks S1].
  assert (let '(dstK, w2) := if bool_decide (labelOr l "destination_workload_name" "" = "")
            then (resolveAppByIP w1 (labelOr l "destination_ip" ""), w1)
            else resolve_or_register pick (labelOr l "destination_workload_kind" "") (labelOr l "destination_workload_name" "")
                   (labelOr l "destination_workload_namespace" "") w1
          in step w1 w2 /\ (world_ok w2 -> dstK <> "" -> known w2 dstK)) as Hdst.
  { case_bool_decide.
    - split; [reflexivity|]. intros Hw. by apply byIP_known.
    - pose proof (register_spec (labelOr l "destination_workload_kind" "") (labelOr l "destination_workload_name" "")
        (labelOr l "destination_workload_namespace" "") w1) as Hd.
      destruct (resolve_or_register pick _ _ _ w1) as [dstK w2]. by destruct Hd. }
  destruct (if bool_decide _ then _ else _) as [dstK w2]. destruct Hdst as [S2 Kd].
  destruct (bool_decide (dstK = "") || bool_decide (dstK = srcK)) eqn:E; [split; [by etransitivity|done]|].
  apply orb_false_elim in E as [Hne%bool_decide_eq_false Hself%bool_decide_eq_false].
  split; [|intros e [= <-]; apply add_edge_there].
  transitivity w1; [done|]. transitivity w2; [done|]. apply add_edge_step. intros Hw.
  split_and!; [by apply S2|auto|congruence].
Qed.
Lemma edge_update_step e la w : is_Some (edges w !! e) -> step w (on_edges <[e := la]> w).
Proof using.
  intros He. apply edges_step. intros _ s d la' [[<- _]|[_ ?]]%lookup_insert_Some; eauto.
Qed.
Lemma visit_step {A} fn (a : A) w r : step w (visit pick fn (a, w) r).2.
Proof using.
  unfold visit. destruct (negb _); [reflexivity|]. pose proof (edge_spec w (Metric r)) as H.
  destruct (edgeFromConnectionLabels pick w (Metric r)) as [[e|] w']; [|apply H]. destruct H as [S1 He].
  destruct (fn e r a _) as [a' la]. etransitivity; [exact S1|]. by apply edge_update_step, He.
Qed.
Lemma for_each_step {A} fn (a : A) w l : step w (forEachEdge pick fn a w l).2.
Proof using.
  unfold forEachEdge. revert a w. induction l as [|r l IH]; intros a w; cbn [foldl]; [reflexivity|].
  pose proof (visit_step fn a w r) as H. destruct (visit pick fn (a, w) r) as [a' w']. etransitivity; [exact H|apply IH].
Qed.
Lemma each_edge_step fn w l : step w (eachEdge pick fn w l).
Proof using. apply for_each_step. Qed.
Lemma protocol_step m w p : step w (protocol_edges pick m w p).
Proof using.
  unfold protocol_edges. pose proof (for_each_step (count_requests p) ∅ w (of_key m (l7RequestsKey p))) as H.
  destruct (forEachEdge _ _ _ _ _) as [perEdge w']. etransitivity; [exact H|]. etransitivity; [|apply each_edge_step].
  apply edges_step. intros _ s d la. rewrite map_lookup_imap. destruct (edges w' !! (s, d)); [eauto|done].
Qed.
Lemma add_edges_step m w : step w (add_edges pick m w).
Proof using.
  unfold add_edges. etransitivity; [apply each_edge_step|]. etransitivity; [|etransitivity; apply each_edge_step].
  apply foldl_step. apply protocol_step.
Qed.

(** The code never panics, and leaves a consistent world. *)
Lemma build_ok metrics : exists w, build pick metrics = Some w /\ world_ok w.
Proof using.
  unfold build, add_pods.
  assert (step newWorld (foldl label_pod (foldl (add_pod (podWorkloads (of_key metrics "pod_workload"))) newWorld
    (of_key metrics "kube_pod_info")) (of_key metrics "kube_pod_labels"))) as S1.
  { etransitivity; [|apply (foldl_step label_pod), label_pod_step]. apply (foldl_step (add_pod _)), add_pod_step. }
  destruct (mark_all_step (of_key metrics "kube_pod_status_ready") _ (proj2 S1 new_ok)) as (w & -> & S2).
  eexists. split; [reflexivity|]. apply add_edges_step.
  assert (step w (add_container_stats metrics (add_services metrics w))) as S3; [|by apply S3, S2, S1, new_ok].
  transitivity (add_services metrics w).
  - unfold add_services, applyReplicaCount. repeat (etransitivity; [|apply (foldl_step (replica_count _ _)), replica_count_step]).
    apply (foldl_step add_service), add_service_step.
  - unfold add_container_stats, addContainerStat. repeat (etransitivity; [|apply (foldl_step (container_stat _)), container_stat_step]). reflexivity.
Qed.
End passes.

(** ** Names *)
Lemma hash_no_dash s : all_of hash_char s = true -> cut_last (chr 45) s = None.
Proof.
  induction s as [|c s IH]; cbn [all_of cut_last]; [done|]. intros [Hc Hs]%andb_prop. rewrite IH by done.
  case_bool_decide; [by subst c|done].
Qed.
(** A ReplicaSet of a Deployment is named after it; everything else keeps its
    kind and name. *)
Lemma workloadID_deployment base hash ns : base <> "" -> podTemplateHashRe hash = true ->
  workloadID "ReplicaSet" (base +:+ "-" +:+ hash) ns = MkID base "Deployment" ns.
Proof.
  intros Hb Hh. unfold workloadID. rewrite bool_decide_true by done.
  replace (base +:+ "-" +:+ hash) with (base +:+ String (chr 45) hash) by done.
  pose proof Hh as [_ Hc]%andb_prop. rewrite last_cut_app, hash_no_dash by done.
  by rewrite bool_decide_false, Hh.
Qed.
Lemma workloadID_other kind name ns : workloadID kind name ns = MkID name kind ns \/
  exists base hash, kind = "ReplicaSet" /\ name = base +:+ "-" +:+ hash /\ base <> "" /\ podTemplateHashRe hash = true /\
    workloadID kind name ns = MkID base "Deployment" ns.
Proof.
  unfold workloadID. case_bool_decide as Hk; [|by left]. destruct (cut_last _ name) as [[base hash]|] eqn:E; [|by left].
  apply last_cut_Some in E as [-> _]. destruct (negb _ && _) eqn:Eb; [right|by left].
  apply andb_prop in Eb as [Hb%negb_true_iff%bool_decide_eq_false Hh]. by exists base, hash.
Qed.
Lemma workloadID_kind kind name ns : kind <> "" -> or_deployment (workloadID kind name ns) = workloadID kind name ns.
Proof.
  intros Hk. unfold or_deployment, orDefault.
  destruct (workloadID_other kind name ns) as [->|(b & h & _ & _ & _ & _ & ->)]; cbn [id_Name id_Kind id_Namespace].
  - by rewrite bool_decide_false.
  - done.
Qed.

(** What the agent reports about a pod: kind, name and namespace of its
    workload; the namespace defaults to the pod's. *)
Definition reports (r : promResult) (p kind name ns : string) : Prop :=
  exists podNS pod, podFromContainerID (labelOr (Metric r) "container_id" "") = Some (podNS, pod) /\ p = podRef podNS pod /\
    kind = labelOr (Metric r) "src_workload_kind" "" /\ name = labelOr (Metric r) "src_workload_name" "" /\
    ns = labelOr (Metric r) "src_workload_namespace" podNS /\ name <> "" /\ kind ∉ nonWorkloadKinds.
Lemma podWorkload_spec out r p id : podWorkload out r !! p = Some id ->
  out !! p = Some id \/ exists kind name ns, reports r p kind name ns /\ id = or_deployment (workloadID kind name ns).
Proof.
  unfold podWorkload. destruct (podFromContainerID _) as [[podNS pod]|] eqn:E; [|by left].
  destruct (_ || _) eqn:Eb; [by left|]. apply orb_false_elim in Eb as [Hn%bool_decide_eq_false Hk%bool_decide_eq_false].
  intros [[<- <-]|[_ ?]]%lookup_insert_Some; [right|by left].
  eexists _, _, _. split; [|reflexivity]. by exists podNS, pod.
Qed.
Lemma podWorkloads_spec results p id : podWorkloads results !! p = Some id ->
  exists r kind name ns, r ∈ results /\ reports r p kind name ns /\ id = or_deployment (workloadID kind name ns).
Proof.
  unfold podWorkloads. induction results as [|r l IH] using rev_ind; [done|]. rewrite foldl_snoc.
  intros [H|(kind & name & ns & Hr & ->)]%podWorkload_spec.
  - destruct (IH H) as (r' & kind & name & ns & Hin & ?). exists r', kind, name, ns. split; [|done]. apply elem_of_app. by left.
  - exists r, kind, name, ns. split; [|done]. apply elem_of_app. right. by apply list_elem_of_singleton.
Qed.
Lemma add_pod_indexed ids w r id : labelOr (Metric r) "pod" "" <> "" ->
  ids !! podRef (labelOr (Metric r) "namespace" "") (labelOr (Metric r) "pod" "") = Some id ->
  podApp (add_pod ids w r) !! podRef (labelOr (Metric r) "namespace" "") (labelOr (Metric r) "pod" "") = Some (appKey id) /\
  known (add_pod ids w r) (appKey id).
Proof.
  intros Hp Hid. unfold add_pod. rewrite Hid, (bool_decide_false (labelOr (Metric r) "pod" "" = "")) by done.
  pose proof (upsert_known id w) as Hk. generalize dependent (upsertApp id w). intros w1 Hk.
  assert (known (alter_app (with_instance (labelOr (Metric r) "pod" "") (MkInstance (MkID (labelOr (Metric r) "pod" "")
    (id_Kind id) (labelOr (Metric r) "namespace" "")) false)) (appKey id) w1) (appKey id)) as Hk'.
  { by apply (alter_step _ (appKey id) w1). }
  case_bool_decide; (split; [apply lookup_insert_eq|exact Hk']).
Qed.
Lemma resolve_known pick kind name ns w : kind <> "" -> known w (appKey (workloadID kind name ns)) ->
  resolve_or_register pick kind name ns w = (appKey (workloadID kind name ns), w).
Proof.
  intros Hk Hw. assert (id_Kind (workloadID kind name ns) <> "") as Hkind.
  { by destruct (workloadID_other kind name ns) as [->|(b & h & _ & _ & _ & _ & ->)]. }
  unfold resolve_or_register, resolveApp. by rewrite (bool_decide_false (_ = "")), (bool_decide_true (is_Some _)).
Qed.

(** Pods are grouped under the names that edges carry.  A pod that the agent
    reports is indexed under the workload of one of its reports; and in every
    later world an edge whose source labels are those of that report, with a
    kind, starts at that application. *)
Theorem edges_find_their_pods pick results w r id :
  labelOr (Metric r) "pod" "" <> "" ->
  podWorkloads results !! podRef (labelOr (Metric r) "namespace" "") (labelOr (Metric r) "pod" "") = Some id ->
  let w' := add_pod (podWorkloads results) w r in
  podApp w' !! podRef (labelOr (Metric r) "namespace" "") (labelOr (Metric r) "pod" "") = Some (appKey id) /\
  exists s kind name ns, s ∈ results /\ reports s (podRef (labelOr (Metric r) "namespace" "") (labelOr (Metric r) "pod" "")) kind name ns /\
    forall w2 l e w3, grows w' w2 -> kind <> "" ->
      labelOr l "src_workload_kind" "" = kind -> labelOr l "src_workload_name" "" = name -> labelOr l "src_workload_namespace" "" = ns ->
      edgeFromConnectionLabels pick w2 l = (Some e, w3) -> e.1 = appKey id.
Proof.
  intros Hp Hid w'. destruct (add_pod_indexed _ w r id Hp Hid) as [Hi Hk]. split; [exact Hi|].
  apply podWorkloads_spec in Hid as (s & kind & name & ns & Hin & Hs & ->). exists s, kind, name, ns. split_and!; [done|done|].
  intros w2 l e w3 G Hkind Ek En Ens. rewrite workloadID_kind in Hk |- * by done.
  assert (labelOr l "src_workload_kind" (labelOr l "src_kind" "") = kind) as Ek'.
  { revert Ek. unfold labelOr at 1 2. destruct (l !! "src_workload_kind"); [case_bool_decide|]; congruence. }
  unfold edgeFromConnectionLabels. rewrite Ek', En, Ens, resolve_known by (done || by apply G).
  destruct (_ || _); [done|]. destruct (if bool_decide _ then _ else _) as [dstK w4].
  destruct (_ || _); [done|]. by intros [= <- _].
Qed.

(** ** A cluster *)
Definition labels_of (l : list (string * string)) : labels := list_to_map l.
Definition series (l : list (string * string)) (v : Z) : promResult := MkResult (labels_of l) (f_of_Z v) true.
Definition web_report : promResult := series
  [("container_id", "/k8s/shop/web-7c9f8bd5d-x2x4z/web"); ("src_workload_kind", "ReplicaSet"); ("src_workload_name", "web-7c9f8bd5d");
   ("src_workload_namespace", "shop")] 1.
Definition web_pod : promResult := series
  [("namespace", "shop"); ("pod", "web-7c9f8bd5d-x2x4z"); ("pod_ip", "10.0.0.1"); ("created_by_kind", "ReplicaSet");
   ("created_by_name", "web-7c9f8bd5d")] 1.
Definition web_calls (status : string) : list (string * string) :=
  [("src_workload_kind", "ReplicaSet"); ("src_workload_name", "web-7c9f8bd5d"); ("src_workload_namespace", "shop");
   ("destination_workload_name", "db-0"); ("destination_workload_namespace", "shop"); ("status", status)].
Definition shop_metrics : gmap string (list promResult) := list_to_map
  [("pod_workload", [web_report]); ("kube_pod_info", [web_pod]);
   ("l7_requests:HTTP", [series (web_calls "200") 3; series (web_calls "503") 2]);
   ("container_net_tcp_successful_connects", [series (web_calls "") 7])].
Definition shop_world : world := default newWorld (build (fun _ => 0%nat) shop_metrics).
Example shop_edges : map (fun e => (e.1, requestRate e.2, failures e.2, protocol e.2)) (map_to_list (edges shop_world))
  = [(("Deployment/shop/web", "Deployment/shop/db-0"), f_of_Z 5, f_of_Z 2, "HTTP")].
Proof. vm_compute. reflexivity. Qed.

Lemma edges_find_their_pods_witness : podWorkloads [web_report] !! podRef "shop" "web-7c9f8bd5d-x2x4z" = Some (MkID "web" "Deployment" "shop") /\
  podApp (add_pod (podWorkloads [web_report]) newWorld web_pod) !! podRef "shop" "web-7c9f8bd5d-x2x4z" = Some "Deployment/shop/web".
Proof.
  assert (podWorkloads [web_report] !! podRef "shop" "web-7c9f8bd5d-x2x4z" = Some (MkID "web" "Deployment" "shop")) as H
    by (vm_compute; reflexivity).
  split; [exact H|]. refine (proj1 (edges_find_their_pods (fun _ => 0%nat) [web_report] newWorld web_pod (MkID "web" "Deployment" "shop") _ H)).
  vm_compute. discriminate.
Defined.
