(* ===== verification/ServiceMapRender.v ===== *)
(** * Service map: rendering (pkg/servicemap/render.go, types.go)

    The wire form of the world, and the theorem that the rendered map is
    closed: both ends of every link are in it and report the same figures.
    The lists follow the iteration order of the maps, which the language
    leaves open; nothing proved here depends on it. *)

From S2P Require Import Prelude GoText GoFloat ServiceMap ServiceMapWorld.

#[local] Set Default Proof Using "Type".

Inductive Status := StatusUnknown | StatusOK | StatusWarning | StatusFailed.
(** The figures of an edge, which both kinds of link carry. *)
Record figures := MkFigures
  { Weight : float64; Latency : float64; RequestCount : float64; FailureCount : float64; Protocol : string;
    BytesSent : float64; BytesReceived : float64 }.
Record UpstreamLink := MkUpstream { ul_ID : string; ul_Status : Status; ul_Stats : list string; ul_figures : figures }.
Record DownstreamLink := MkDownstream { dl_ID : ApplicationID; dl_Status : Status; dl_Stats : list string; dl_figures : figures }.
Definition idToText (id : ApplicationID) : string := id_Namespace id +:+ ":" +:+ id_Kind id +:+ ":" +:+ id_Name id.
(** Category and Type are never set, and Indicators stays empty. *)
Record Application := MkApplication
  { ID : ApplicationID; Labels : labels; Status_ : Status; Upstreams : list UpstreamLink; Downstreams : list DownstreamLink;
    Instances : list Instance_; DesiredInstances : Z; FailedInstances : Z; OOMKills : Z; Restarts : Z;
    CPUThrottlingTime : float64; VolumeSize : float64; VolumeUsed : float64; IsHealthy : bool; HealthReason : string }.

Definition saneFloat (v : float64) : float64 := if finite v then v else float_zero.
Definition saneInt (v : float64) : Z := if finite v then f_to_int v else 0.
Definition protocolOrDefault (p : string) : string := if bool_decide (p = "") then "Unknown" else p.
Definition link_figures (la : linkAccum) : figures :=
  MkFigures (saneFloat (requestRate la)) (saneFloat (latency la)) (saneFloat (requestRate la)) (saneFloat (failures la))
    (protocolOrDefault (protocol la)) (saneFloat (bytesSent la)) (saneFloat (bytesRecv la)).

(** The applications that [k] calls and that call it, with the edges. *)
Definition callee (w : world) (k : string) (e : string * string * linkAccum) : option (string * application * linkAccum) :=
  let '(src, dst, la) := e in
  if bool_decide (src = k) then a ← applications w !! dst; Some (dst, a, la) else None.
Definition caller (w : world) (k : string) (e : string * string * linkAccum) : option (string * application * linkAccum) :=
  let '(src, dst, la) := e in
  if bool_decide (dst = k) then a ← applications w !! src; Some (src, a, la) else None.
Definition callees (w : world) (k : string) := omap (callee w k) (map_to_list (edges w)).
Definition callers (w : world) (k : string) := omap (caller w k) (map_to_list (edges w)).
Definition upstream (x : string * application * linkAccum) : UpstreamLink :=
  MkUpstream (idToText (app_id x.1.2)) StatusUnknown [] (link_figures x.2).
Definition downstream (x : string * application * linkAccum) : DownstreamLink :=
  MkDownstream (app_id x.1.2) StatusUnknown [] (link_figures x.2).

Definition health (ooms restarted failed : Z) : bool * string :=
  let h := (true, "") in
  let h := if 0 <? ooms then (false, "OOMKills") else h in
  let h := if 0 <? restarted then (false, "Restarts") else h in
  if 0 <? failed then (false, "FailedInstances") else h.
Definition render_app (w : world) (k : string) (a : application) : Application :=
  let insts := (map_to_list (app_instances a)).*2 in
  let failed := Z.of_nat (length (filter (fun i => IsFailed i = true) insts)) in
  let s := default zero_sums (containerStats w !! k) in
  let '(ok, reason) := health (saneInt (oomKills s)) (saneInt (restarts s)) failed in
  MkApplication (app_id a) (app_labels a) StatusUnknown (map upstream (callees w k)) (map downstream (callers w k))
    insts (app_desired a) failed (saneInt (oomKills s)) (saneInt (restarts s))
    (saneFloat (cpuThrottlingTime s)) (saneFloat (volumeSize s)) (saneFloat (volumeUsed s)) ok reason.
(** The applications marked as used while [k] is rendered. *)
Definition marked (w : world) (k : string) : list string :=
  let both := (callees w k ++ callers w k).*1.*1 in
  if bool_decide (both = []) then [] else k :: both.
Definition used (w : world) : list string := (map_to_list (applications w)).*1 ≫= marked w.
Definition render (w : world) : list Application :=
  filter (fun a => appKey (ID a) ∈ used w) (map (fun ka => render_app w ka.1 ka.2) (map_to_list (applications w))).

(** ** What is rendered *)
Lemma elem_of_callees w k x : x ∈ callees w k <-> edges w !! (k, x.1.1) = Some x.2 /\ applications w !! x.1.1 = Some x.1.2.
Proof.
  unfold callees. rewrite list_elem_of_omap. split.
  - intros ([[s d] la] & Hin%elem_of_map_to_list & H). cbn [callee] in H. case_bool_decide; [|done].
    apply bind_Some in H as (a & Ha & [= <-]). subst. done.
  - destruct x as [[d a] la]. cbn [fst snd]. intros [He Ha]. exists (k, d, la).
    rewrite elem_of_map_to_list. split; [done|]. cbn [callee]. by rewrite bool_decide_true, Ha.
Qed.
Lemma elem_of_callers w k x : x ∈ callers w k <-> edges w !! (x.1.1, k) = Some x.2 /\ applications w !! x.1.1 = Some x.1.2.
Proof.
  unfold callers. rewrite list_elem_of_omap. split.
  - intros ([[s d] la] & Hin%elem_of_map_to_list & H). cbn [caller] in H. case_bool_decide; [|done].
    apply bind_Some in H as (a & Ha & [= <-]). subst. done.
  - destruct x as [[s a] la]. cbn [fst snd]. intros [He Ha]. exists (s, k, la).
    rewrite elem_of_map_to_list. split; [done|]. cbn [caller]. by rewrite bool_decide_true, Ha.
Qed.
Lemma used_spec w k : world_ok w -> k ∈ used w <-> known w k /\ (callees w k <> [] \/ callers w k <> []).
Proof.
  intros Hw. unfold used. rewrite list_elem_of_bind. split.
  - intros (k' & Hk & Hin). apply list_elem_of_fmap in Hin as ([k0 a] & -> & Ha%elem_of_map_to_list). cbn [fst] in Hk |- *.
    unfold marked in Hk. case_bool_decide as Eb; [by apply elem_of_nil in Hk|]. apply elem_of_cons in Hk as [->|Hk].
    + split; [by exists a|]. destruct (callees w k0); [right|by left]. intros E. by rewrite E in Eb.
    + apply list_elem_of_fmap in Hk as (y & -> & Hy). apply list_elem_of_fmap in Hy as (x & -> & Hx).
      apply elem_of_app in Hx as [[He Hd]%elem_of_callees|[He Hd]%elem_of_callers].
      * split; [by eexists|right]. intros E. assert ((k0, a, x.2) ∈ callers w x.1.1) as H; [by apply elem_of_callers|].
        rewrite E in H. by apply elem_of_nil in H.
      * split; [by eexists|left]. intros E. assert ((k0, a, x.2) ∈ callees w x.1.1) as H; [by apply elem_of_callees|].
        rewrite E in H. by apply elem_of_nil in H.
  - intros [[a Ha] Hl]. exists k. split.
    + unfold marked. case_bool_decide as Eb; [|by left].
      apply fmap_nil_inv, fmap_nil_inv, app_nil in Eb. naive_solver.
    + apply list_elem_of_fmap. exists (k, a). by rewrite elem_of_map_to_list.
Qed.
Lemma elem_of_render w a : world_ok w ->
  a ∈ render w <-> exists k app, applications w !! k = Some app /\ a = render_app w k app /\ (callees w k <> [] \/ callers w k <> []).
Proof.
  intros Hw. assert (forall k app, ID (render_app w k app) = app_id app) as Hid.
  { intros k app. unfold render_app. by destruct (health _ _ _). }
  unfold render. rewrite list_elem_of_filter, list_elem_of_fmap. split.
  - intros [Hu ([k app] & -> & Ha%elem_of_map_to_list)]. cbn [fst snd] in *. exists k, app.
    rewrite Hid, (ok_keys w Hw _ _ Ha), used_spec in Hu by done. split_and!; [done|done|apply Hu].
  - intros (k & app & Ha & -> & Hl). rewrite Hid, (ok_keys w Hw _ _ Ha), used_spec by done.
    split; [split; [by eexists|done]|]. exists (k, app). by rewrite elem_of_map_to_list.
Qed.
Lemma upstreams_eq w k app : Upstreams (render_app w k app) = map upstream (callees w k).
Proof. unfold render_app. by destruct (health _ _ _). Qed.
Lemma downstreams_eq w k app : Downstreams (render_app w k app) = map downstream (callers w k).
Proof. unfold render_app. by destruct (health _ _ _). Qed.
Lemma render_id w k app : ID (render_app w k app) = app_id app.
Proof. unfold render_app. by destruct (health _ _ _). Qed.

(** The contract of the map with its readers. *)
Definition closed_map (apps : list Application) : Prop :=
  NoDup (ID <$> apps) /\
  forall a, a ∈ apps ->
    (Upstreams a <> [] \/ Downstreams a <> []) /\
    (forall u, u ∈ Upstreams a -> exists b d, b ∈ apps /\ ul_ID u = idToText (ID b) /\ ID b <> ID a /\
       d ∈ Downstreams b /\ dl_ID d = ID a /\ dl_figures d = ul_figures u) /\
    (forall d, d ∈ Downstreams a -> exists b u, b ∈ apps /\ dl_ID d = ID b /\ ID b <> ID a /\
       u ∈ Upstreams b /\ ul_ID u = idToText (ID a) /\ ul_figures u = dl_figures d).
Lemma render_ids_distinct w : world_ok w -> NoDup (ID <$> render w).
Proof.
  intros Hw. unfold render. eapply sublist_NoDup; [|apply fmap_sublist, sublist_filter].
  assert (NoDup ((fun ka => app_id ka.2) <$> map_to_list (applications w))) as H.
  - apply (NoDup_fmap_1 appKey). rewrite <- list_fmap_compose.
    replace ((appKey ∘ (fun ka : string * application => app_id ka.2)) <$> map_to_list (applications w)) with (map_to_list (applications w)).*1.
    + apply NoDup_fst_map_to_list.
    + apply list_fmap_ext. intros i [k a] Hi. symmetry. apply (ok_keys w Hw). apply elem_of_map_to_list. by eapply list_elem_of_lookup_2.
  - replace (ID <$> map _ _) with ((fun ka => app_id ka.2) <$> map_to_list (applications w)); [done|].
    change (map (fun ka => render_app w ka.1 ka.2) (map_to_list (applications w)))
      with ((fun ka => render_app w ka.1 ka.2) <$> map_to_list (applications w)).
    rewrite <- list_fmap_compose. apply list_fmap_ext. intros i ka _. symmetry. apply render_id.
Qed.
(** Both ends of an edge between known applications are rendered, and see it. *)
Lemma edge_rendered w s a d b la : world_ok w -> applications w !! s = Some a -> applications w !! d = Some b ->
  edges w !! (s, d) = Some la ->
  render_app w s a ∈ render w /\ render_app w d b ∈ render w /\ app_id a <> app_id b /\
  upstream (d, b, la) ∈ Upstreams (render_app w s a) /\ downstream (s, a, la) ∈ Downstreams (render_app w d b).
Proof.
  intros Hw Ha Hb He. rewrite upstreams_eq, downstreams_eq.
  assert ((d, b, la) ∈ callees w s) as Hc by by apply elem_of_callees.
  assert ((s, a, la) ∈ callers w d) as Hc' by by apply elem_of_callers.
  split_and!; [| | |by apply list_elem_of_fmap_2..].
  - apply elem_of_render; [done|]. exists s, a. split_and!; [done..|]. left. by eapply elem_of_not_nil.
  - apply elem_of_render; [done|]. exists d, b. split_and!; [done..|]. right. by eapply elem_of_not_nil.
  - intros E. apply (ok_edges w Hw) in He as (_ & _ & []).
    rewrite <- (ok_keys w Hw _ _ Ha), <- (ok_keys w Hw _ _ Hb). by rewrite E.
Qed.
Lemma render_closed w : world_ok w -> closed_map (render w).
Proof.
  intros Hw. split; [by apply render_ids_distinct|]. intros a (k & app & Ha & -> & Hl)%elem_of_render; [|done].
  split_and!.
  - rewrite upstreams_eq, downstreams_eq. destruct Hl as [H|H]; [left|right]; by intros ?%fmap_nil_inv.
  - rewrite upstreams_eq. intros u ([[d b] la] & -> & [He Hb]%elem_of_callees)%list_elem_of_fmap.
    destruct (edge_rendered w k app d b la Hw Ha Hb He) as (_ & ? & ? & _ & ?).
    exists (render_app w d b), (downstream (k, app, la)). rewrite !render_id. by split_and!.
  - rewrite downstreams_eq. intros u ([[s b] la] & -> & [He Hb]%elem_of_callers)%list_elem_of_fmap.
    destruct (edge_rendered w s b k app la Hw Hb Ha He) as (? & _ & ? & ? & _).
    exists (render_app w s b), (upstream (k, app, la)). rewrite !render_id. by split_and!.
Qed.

(** C19: the rendered map is closed.  Whatever the answers and the order of the map iterations, the build
    does not panic, and in the rendered map applications are listed
    once and have a link; every upstream of [a] names a listed application
    other than [a], which lists [a] among its downstreams with the same
    figures; and the other way round.  Every edge of the world is such a
    link, with its figures. *)
Theorem map_is_closed pick metrics : exists w, build pick metrics = Some w /\ closed_map (render w) /\
  forall src dst la, edges w !! (src, dst) = Some la -> exists a b u, a ∈ render w /\ b ∈ render w /\
    appKey (ID a) = src /\ appKey (ID b) = dst /\ u ∈ Upstreams a /\ ul_ID u = idToText (ID b) /\ ul_figures u = link_figures la.
Proof.
  destruct (build_ok pick metrics) as (w & E & Hw). exists w. split_and!; [done|by apply render_closed|].
  intros s d la He. destruct (ok_edges w Hw _ _ _ He) as ([a Ha] & [b Hb] & _).
  destruct (edge_rendered w s a d b la Hw Ha Hb He) as (? & ? & _ & ? & _).
  exists (render_app w s a), (render_app w d b), (upstream (d, b, la)).
  rewrite !render_id, (ok_keys w Hw _ _ Ha), (ok_keys w Hw _ _ Hb). by split_and!.
Qed.
Example shop_map : map (fun a => (idToText (ID a), map ul_ID (Upstreams a), map (fun d => idToText (dl_ID d)) (Downstreams a),
                                  Z.of_nat (length (Instances a)))) (render shop_world)
  = [("shop:Deployment:web", ["shop:Deployment:db-0"], [], 1); ("shop:Deployment:db-0", [], ["shop:Deployment:web"], 0)].
Proof. vm_compute. reflexivity. Qed.
