(* ===== verification/ServiceMapSource.v ===== *)
(** * Service map: the service (pkg/servicemap/service.go, handlers.go)

    The request's filter and window, the Prometheus fetch, the choice of the
    source of the edges with its fallback, the shadow build and the
    comparison of two maps.  The Prometheus client, the ClickHouse read and
    the context are given by their answers; [iter] is the order in which a
    map of labels is iterated. *)

From S2P Require Import Prelude GoText GoJson GoTime GoFloat CanonJson PromQL ServiceMapQueries ServiceMap ServiceMapRender.

#[local] Set Default Proof Using "Type".

(** ** The request *)
Record FilterParams := MkParams { WorkloadName : string; WorkloadNamespace : string; StartTime : string; EndTime : string; Duration : Z }.
Definition str (m : gomap) (k : string) : string := as_str (mget m k).
Definition parseFilterParams (p : gomap) : FilterParams :=
  let out := MkParams (str p "workload_name") (str p "workload_namespace") (str p "r_start_time") (str p "r_end_time")
               (match mget p "duration" with JFloat f => f_to_int f | _ => 0 end) in
  match mget p "workload_filter" with
  | JObj wf =>
    MkParams (if bool_decide (WorkloadName out = "") then str (Some wf) "workload_name" else WorkloadName out)
      (if bool_decide (WorkloadNamespace out = "") then str (Some wf) "workload_namespace" else WorkloadNamespace out)
      (StartTime out) (EndTime out) (Duration out)
  | _ => out
  end.

Inductive Source := SourcePrometheus | SourceClickHouse | SourceShadow.
Definition ParseSource (v : string) : Source * bool :=
  let s := to_lower (trim_space v) in
  if bool_decide (s = "") || bool_decide (s = "prometheus") then (SourcePrometheus, true)
  else if bool_decide (s = "clickhouse") then (SourceClickHouse, true)
  else if bool_decide (s = "shadow") then (SourceShadow, true)
  else (SourcePrometheus, false).
(** [ch] is whether a client is attached. *)
Definition source (ch : bool) (s : Source) : Source := if ch then s else SourcePrometheus.

(** ** The window *)
Definition minWindow : duration := 5 * minute.
Definition Seconds (d : duration) : float64 :=
  float_add (f_of_Z (Z.quot d second)) (f_div (f_of_Z (Z.rem d second)) (f_of_Z second)).
Definition parsed_or (text : string) (t : time) : time :=
  if bool_decide (text = "") then t else default t (parse_rfc3339 text).
(** [now] is the wall clock in UTC: the end and the length of the window. *)
Definition window_of (now : time) (p : FilterParams) : time * duration :=
  let end_ := parsed_or (EndTime p) now in
  let durationMin := if Duration p <=? 0 then 1440 else Duration p in
  let start := time_add end_ (wrap64 (wrap64 (- durationMin) * minute)) in
  let start := parsed_or (StartTime p) start in
  let window := time_sub end_ start in
  (end_, if window <? minWindow then minWindow else window).
(** [end.Add(-window)] *)
Definition window_start (w : time * duration) : time := time_add w.1 (wrap64 (- w.2)).

Section filters.
Context (iter : list (string * string) -> list (string * string)).
Record filters := MkFilters { srcFilter : string; dstFilter : string; podFilter : string; nsFilter : string }.
Definition filters_of (p : FilterParams) : filters :=
  let dict l := dictToPrometheusFilter (iter l) in
  if negb (bool_decide (WorkloadName p = "")) then
    MkFilters (dict [("src_workload_name", WorkloadName p); ("src_workload_namespace", WorkloadNamespace p)])
      (dict [("destination_workload_name", WorkloadName p); ("destination_workload_namespace", WorkloadNamespace p)])
      (dict [("pod", WorkloadName p +:+ "%")]) (dict [("namespace", WorkloadNamespace p)])
  else if negb (bool_decide (WorkloadNamespace p = "")) then
    MkFilters (dict [("src_workload_namespace", WorkloadNamespace p)]) (dict [("destination_workload_namespace", WorkloadNamespace p)])
      (matcher "pod" "=~" ".*") (dict [("namespace", WorkloadNamespace p)])
  else MkFilters "" "" (matcher "pod" "=~" ".*") "".
Definition clusterFilter (clusterName : string) : string :=
  if bool_decide (clusterName = "") then "" else matcher "cluster" "=" clusterName +:+ ",".
Definition queryList (p : FilterParams) : gmap string string :=
  if negb (bool_decide (WorkloadName p = "")) || negb (bool_decide (WorkloadNamespace p = "")) then ApplicationQueries else Queries.
Definition expand (clusterName : string) (p : FilterParams) (w : time * duration) (q : string) : string :=
  let f := filters_of p in
  expandPlaceholders q (itoa (f_to_int (Seconds w.2)) +:+ "s") (srcFilter f) (dstFilter f) (podFilter f) (nsFilter f) (clusterFilter clusterName).
End filters.

(** ** Fetching *)
Definition kubeKeys {V} (m : gmap string V) : gmap string V := filter (fun kv => has_prefix kv.1 "kube_" = true) m.
Section fetch.
Context (other_float : string -> option float64).
(** [query q at] is the client's answer; a query cut off by the context fails. *)
Context (query : string -> string -> result string).
Definition fetch_one (endStr : string) (expand : string -> string) (q : string) : option (list promResult) :=
  match query (expand q) endStr with
  | Ok raw => match parsePromResponse other_float raw with Ok data => Some data | Err _ => None end
  | Err _ => None
  end.
Definition fetchProm (queries : gmap string string) (endStr : string) (expand : string -> string) : gmap string (list promResult) :=
  omap (fetch_one endStr expand) queries.
(** [summary] is the answer of [fetchSummary]. *)
Definition clickhouseMetrics (queries : gmap string string) (fetch : gmap string string -> gmap string (list promResult))
  (summary : result (gmap string (list promResult))) : gmap string (list promResult) :=
  let metrics := fetch (kubeKeys queries) in
  match summary with
  | Ok ch => ch ∪ metrics
  | Err _ => fetch (filter (fun kv => bool_decide (is_Some (kubeKeys queries !! kv.1)) = false) queries) ∪ metrics
  end.

(** [Build], for a service with a Prometheus client or without; the second
    result is the map to compare in the background.  [cancelled] is the
    context's error behind the fetches. *)
Record Service := MkService { has_prom : bool; ClusterName : string; has_ch : bool; svc_Source : Source }.
Context (iter : list (string * string) -> list (string * string)) (pick : nat -> nat).
Definition no_client : string := "servicemap: prometheus client not configured".
Definition render_build (metrics : gmap string (list promResult)) : option (list Application) := render <$> build pick metrics.
Definition Build (s : Service) (now : time) (p : FilterParams) (summary : result (gmap string (list promResult))) (cancelled : option string) :
  result (option (list Application) * option (gmap string (list promResult))) :=
  if negb (has_prom s) then Err no_client
  else
    let w := window_of now p in
    let fetch keys := fetchProm keys (itoa (unix_seconds w.1)) (expand iter (ClusterName s) p w) in
    let checked metrics k := match cancelled with Some e => Err e | None => k metrics end in
    match source (has_ch s) (svc_Source s) with
    | SourceClickHouse => checked (clickhouseMetrics (queryList p) fetch summary) (fun m => Ok (render_build m, None))
    | SourceShadow => checked (fetch (queryList p)) (fun m => Ok (render_build m, Some (kubeKeys m)))
    | SourcePrometheus => checked (fetch (queryList p)) (fun m => Ok (render_build m, None))
    end.
End fetch.

(** ** The shadow build *)
Definition shadowInterval : duration := 15 * minute.
Record shadow := MkShadow { lastShadow : gmap string time; shadowBusy : bool }.
Definition shadow_key (window : duration) (p : FilterParams) : string :=
  itoa (f_to_int (Seconds window)) +:+ "|" +:+ WorkloadNamespace p +:+ "|" +:+ WorkloadName p.
(** Whether the comparison starts. *)
Definition maybeShadow (now : time) (key : string) (s : shadow) : bool * shadow :=
  let live := filter (fun kt => time_sub now kt.2 <? shadowInterval = true) (lastShadow s) in
  if bool_decide (is_Some (live !! key)) || shadowBusy s then (false, MkShadow live (shadowBusy s))
  else (true, MkShadow (<[key := now]> live) true).
Definition shadow_done (s : shadow) : shadow := MkShadow (lastShadow s) false.
(** The metrics of the ClickHouse map. *)
Definition shadow_metrics (kube ch : gmap string (list promResult)) : gmap string (list promResult) := ch ∪ kube.

(** ** Comparing two maps *)
Record mapDiff := MkDiff { d_prom : Z; d_ch : Z; d_both : Z; d_onlyProm : Z; d_onlyCH : Z; d_reqWithin5 : Z; d_reqCompared : Z }.
Definition link_name (a : Application) (u : UpstreamLink) : string :=
  idToText (ID a) +:+ " -> " +:+ ul_ID u +:+ " [" +:+ Protocol (ul_figures u) +:+ "]".
Definition links (apps : list Application) : gmap string float64 :=
  foldl (fun out a => foldl (fun out u => <[link_name a u := RequestCount (ul_figures u)]> out) out (Upstreams a)) ∅ apps.
Definition five_percent : float64 := of_ratio false 5 100.
Definition within_five (pv cv : float64) : bool :=
  let hi := if f_lt pv cv then cv else pv in
  let diff := f_sub pv cv in
  let diff := if f_lt diff float_zero then f_neg diff else diff in
  f_le (f_div diff hi) five_percent.
Definition compare_link (cl : gmap string float64) (d : mapDiff) (kv : string * float64) : mapDiff :=
  match cl !! kv.1 with
  | None => MkDiff (d_prom d) (d_ch d) (d_both d) (d_onlyProm d + 1) (d_onlyCH d) (d_reqWithin5 d) (d_reqCompared d)
  | Some cv =>
    let zero := f_eq kv.2 float_zero && f_eq cv float_zero in
    MkDiff (d_prom d) (d_ch d) (d_both d + 1) (d_onlyProm d) (d_onlyCH d)
      (d_reqWithin5 d + if negb zero && within_five kv.2 cv then 1 else 0) (d_reqCompared d + if zero then 0 else 1)
  end.
Definition compareMaps (prom ch : list Application) : mapDiff :=
  let pl := links prom in
  let cl := links ch in
  let d := foldl (compare_link cl) (MkDiff (Z.of_nat (size pl)) (Z.of_nat (size cl)) 0 0 0 0 0) (map_to_list pl) in
  MkDiff (d_prom d) (d_ch d) (d_both d) (d_onlyProm d) (Z.of_nat (size cl) - d_both d) (d_reqWithin5 d) (d_reqCompared d).

(** ** Which map is served *)
Definition served {A B} (r : result (A * B)) : result A := let? x := r in Ok x.1.
Section serving.
Context (other_float : string -> option float64) (query : string -> string -> result string).
Lemma fetch_filter queries endStr expand (P : string -> Prop) `{forall k, Decision (P k)} :
  fetchProm other_float query (filter (fun kv => P kv.1) queries) endStr expand
  = filter (fun kv => P kv.1) (fetchProm other_float query queries endStr expand).
Proof using.
  apply map_eq. intros k. unfold fetchProm. rewrite lookup_omap. apply option_eq. intros l.
  rewrite map_lookup_filter_Some, lookup_omap, bind_Some. split.
  - by intros (q & [Hq HP]%map_lookup_filter_Some & Hf); cbn in *; rewrite Hq.
  - intros [Hl HP]. apply bind_Some in Hl as (q & Hq & Hf). exists q. split; [|done]. by apply map_lookup_filter_Some.
Qed.
Lemma lookup_kubeKeys {V} (m : gmap string V) k : kubeKeys m !! k = if has_prefix k "kube_" then m !! k else None.
Proof using.
  unfold kubeKeys. rewrite map_lookup_filter. destruct (m !! k); cbn; destruct (has_prefix k "kube_"); reflexivity.
Qed.
Lemma split_fetch queries endStr expand :
  let fetch keys := fetchProm other_float query keys endStr expand in
  fetch (filter (fun kv => bool_decide (is_Some (kubeKeys queries !! kv.1)) = false) queries) ∪ fetch (kubeKeys queries) = fetch queries.
Proof using.
  pose proof (fetch_filter queries endStr expand (fun k => bool_decide (is_Some (kubeKeys queries !! k)) = false)) as Erest.
  assert (fetchProm other_float query (kubeKeys queries) endStr expand = kubeKeys (fetchProm other_float query queries endStr expand)) as Ekube
    by exact (fetch_filter queries endStr expand (fun k => has_prefix k "kube_" = true)).
  cbn beta in Erest. cbn beta zeta. rewrite Erest, Ekube. apply map_eq. intros k.
  rewrite lookup_union, map_lookup_filter, !lookup_kubeKeys. unfold fetchProm. rewrite lookup_omap. cbn [fst].
  destruct (queries !! k) as [q|] eqn:Eq; cbn; [|by destruct (has_prefix k "kube_")].
  destruct (fetch_one _ _ _ _ q) as [l|]; cbn; [|by destruct (has_prefix k "kube_")].
  rewrite lookup_kubeKeys, Eq. destruct (has_prefix k "kube_"); reflexivity.
Qed.
End serving.

(** C21: the map does not depend on ClickHouse when it cannot serve the window.
    With the ClickHouse source and a refused read, [Build] answers exactly
    what it answers with the Prometheus source, queries, window, filters and
    errors included; and the map served in shadow mode is that map too. *)
Theorem fallback_serves_prometheus other_float query iter pick prom name ch now p cancelled e summary :
  let run src := Build other_float query iter pick (MkService prom name ch src) now p in
  run SourceClickHouse (Err e) cancelled = run SourcePrometheus summary cancelled /\
  served (run SourceShadow summary cancelled) = served (run SourcePrometheus summary cancelled).
Proof.
  cbn zeta. unfold Build. cbn [has_prom has_ch svc_Source ClusterName]. destruct prom; cbn [negb]; [|done].
  destruct ch; cbn [source]; [|done]. unfold clickhouseMetrics. rewrite split_fetch. split; [done|].
  by destruct cancelled.
Qed.

(** ** The shadow build is rare *)
Inductive shadow_event := ShadowCall (now : time) (key : string) | ShadowDone.
(** The state and the builds started so far, the newest first. *)
Definition shadow_step (st : shadow * list (time * string)) (e : shadow_event) : shadow * list (time * string) :=
  match e with
  | ShadowCall now key =>
    let '(starts, s) := maybeShadow now key st.1 in (s, if starts then (now, key) :: st.2 else st.2)
  | ShadowDone => (shadow_done st.1, st.2)
  end.
Fixpoint in_order (t : time) (es : list shadow_event) : Prop :=
  match es with
  | [] => True
  | ShadowCall now _ :: es => t <= now /\ in_order now es
  | ShadowDone :: es => in_order t es
  end.
Fixpoint spaced (l : list (time * string)) : Prop :=
  match l with
  | [] => True
  | (t, k) :: l => (forall t', (t', k) ∈ l -> shadowInterval <= t - t') /\ spaced l
  end.
(** A start is spaced from now on or still recorded. *)
Definition remembered (t : time) (st : shadow * list (time * string)) : Prop :=
  spaced st.2 /\ forall t0 k, (t0, k) ∈ st.2 -> shadowInterval <= t - t0 \/ exists t1, lastShadow st.1 !! k = Some t1 /\ t0 <= t1.
Lemma shadow_step_remembered t now key st : t <= now -> remembered t st -> remembered now (shadow_step st (ShadowCall now key)).
Proof.
  intros Ht [Hs Hr]. unfold shadow_step, maybeShadow. set (live := filter _ _).
  assert (forall k t1, lastShadow st.1 !! k = Some t1 -> live !! k = Some t1 \/ live !! k = None /\ shadowInterval <= now - t1) as Hl.
  { intros k t1 E. unfold live. rewrite map_lookup_filter, E. cbn. destruct (time_sub now t1 <? shadowInterval) eqn:El; [by left|right].
    split; [done|]. unfold time_sub, int64_min, int64_max in El. unfold shadowInterval, minute, second in *. lia. }
  assert (forall t0 k, (t0, k) ∈ st.2 -> shadowInterval <= now - t0 \/ exists t1, live !! k = Some t1 /\ t0 <= t1) as Hr'.
  { intros t0 k Hin. destruct (Hr t0 k Hin) as [?|(t1 & E & ?)]; [left; lia|].
    destruct (Hl k t1 E) as [?|[_ ?]]; [right; eauto|left; lia]. }
  case_bool_decide as Eb; cbn [orb]; [by split|]. destruct (shadowBusy st.1); [by split|]. unfold remembered. cbn [fst snd lastShadow]. split.
  - split; [|done]. intros t0 Hin. destruct (Hr' t0 key Hin) as [?|(t1 & E & _)]; [done|]. rewrite E in Eb. by destruct Eb.
  - intros t0 k [[= -> ->]|Hin]%elem_of_cons.
    + right. exists now. split; [apply lookup_insert_eq|lia].
    + destruct (decide (k = key)) as [->|Hne].
      * left. destruct (Hr' t0 key Hin) as [?|(t1 & E & _)]; [done|]. rewrite E in Eb. by destruct Eb.
      * destruct (Hr' t0 k Hin) as [?|(t1 & E & ?)]; [by left|right; exists t1]. by rewrite lookup_insert_ne.
Qed.
(** While the clock does not go back, two shadow builds for one window and
    filter start at least [shadowInterval] apart. *)
Theorem shadow_builds_spaced t es : in_order t es -> spaced (foldl shadow_step (MkShadow ∅ false, []) es).2.
Proof.
  set (st := (MkShadow ∅ false, [])). assert (remembered t st) as H0 by (split; [done|by intros ? ? ?%elem_of_nil]).
  clearbody st. revert t st H0. induction es as [|e es IH]; intros t st H0 Ho; [by destruct H0|].
  destruct e as [now key|]; cbn [foldl in_order] in *.
  - destruct Ho as [Hle Ho]. eapply IH; [by apply (shadow_step_remembered t)|done].
  - by eapply (IH t).
Qed.
(** A build starts only while none is running. *)
Lemma one_shadow_build now key s : (maybeShadow now key s).1 = true -> shadowBusy s = false /\ shadowBusy (maybeShadow now key s).2 = true.
Proof. unfold maybeShadow. destruct (bool_decide _), (shadowBusy s); done. Qed.

(** ** The comparison counts every link once *)
(** [d'] counts [n] more links than [d]. *)
Definition counted (n : Z) (d d' : mapDiff) : Prop :=
  d_prom d' = d_prom d /\ d_ch d' = d_ch d /\ d_both d' + d_onlyProm d' = d_both d + d_onlyProm d + n /\
  0 <= d_reqWithin5 d' - d_reqWithin5 d <= d_reqCompared d' - d_reqCompared d /\
  d_reqCompared d' - d_reqCompared d <= d_both d' - d_both d.
Lemma compare_link_counts cl d kv : counted 1 d (compare_link cl d kv).
Proof.
  unfold counted, compare_link. destruct (cl !! kv.1) as [cv|]; cbn; [|lia].
  destruct (_ && f_eq cv _), (within_five _ cv); cbn; lia.
Qed.
Lemma compare_links_count cl l d : counted (Z.of_nat (length l)) d (foldl (compare_link cl) d l).
Proof.
  revert d. induction l as [|kv l IH]; intros d; cbn [foldl length]; [unfold counted; lia|].
  pose proof (compare_link_counts cl d kv) as H1. specialize (IH (compare_link cl d kv)). unfold counted in *. lia.
Qed.
Theorem comparison_accounts prom ch : let d := compareMaps prom ch in
  d_prom d = d_both d + d_onlyProm d /\ d_ch d = d_both d + d_onlyCH d /\ 0 <= d_reqWithin5 d <= d_reqCompared d /\ d_reqCompared d <= d_both d.
Proof.
  pose proof (compare_links_count (links ch) (map_to_list (links prom))
    (MkDiff (Z.of_nat (size (links prom))) (Z.of_nat (size (links ch))) 0 0 0 0 0)) as H.
  rewrite length_map_to_list in H. unfold counted in H. cbn zeta. unfold compareMaps.
  destruct (foldl _ _ _). cbn [d_prom d_ch d_both d_onlyProm d_onlyCH d_reqWithin5 d_reqCompared] in *. lia.
Qed.

(** ** The window *)
Lemma window_of_long now p : minWindow <= (window_of now p).2.
Proof. unfold window_of. cbn [snd]. case_match; lia. Qed.
(** The window reaches back to the start that was asked for. *)
Lemma window_covers_request now p t : parse_rfc3339 (StartTime p) = Some t -> StartTime p <> "" ->
  parsed_or (EndTime p) now - t <= int64_max ->
  window_start (window_of now p) <= t /\ (window_of now p).1 = parsed_or (EndTime p) now.
Proof.
  intros Hp Hne Hr. assert (forall x, parsed_or (StartTime p) x = t) as Hs.
  { intros x. unfold parsed_or. by rewrite bool_decide_false, Hp. }
  unfold window_start, window_of. cbn [fst snd]. rewrite Hs. split; [|done]. set (e := parsed_or (EndTime p) now) in *.
  unfold time_add, time_sub. unfold int64_max, minWindow, minute, second in *.
  set (w := Z.max _ _). assert (e - t <= w) by (unfold w, int64_min; lia). assert (w <= 2 ^ 63 - 1) by (unfold w, int64_min; lia).
  case_match; rewrite wrap64_id by (unfold int64_min, int64_max; lia); lia.
Qed.
Definition web_of_shop : FilterParams := MkParams "web" "shop" "" "2024-05-01T12:00:00Z" 60.
Example an_hour : window_of 0 web_of_shop = (civil 2024 5 1 12 0 0 0, 60 * minute).
Proof. vm_compute. reflexivity. Qed.
Example a_filtered_query :
  expand id "prod" web_of_shop (window_of 0 web_of_shop) (edgeQuery (MkEdgeMetric "k" "sum" "status" "rate(hits{__EDGE__}[$RANGE])") true)
  = "sum by (" +:+ edgeGroupBy +:+ ", status) ((rate(hits{" +:+ matcher "cluster" "=" "prod" +:+ ", "
    +:+ matcher "src_workload_name" "=~" "web" +:+ "," +:+ matcher "src_workload_namespace" "=~" "shop" +:+ ",}[3600s])) or (rate(hits{"
    +:+ matcher "cluster" "=" "prod" +:+ ", " +:+ matcher "destination_workload_name" "=~" "web" +:+ ","
    +:+ matcher "destination_workload_namespace" "=~" "shop" +:+ ",}[3600s]))) > 0".
Proof. vm_compute. reflexivity. Qed.
(** A workload name alone also asks for an empty namespace label. *)
Example name_without_namespace : srcFilter (filters_of id (MkParams "web" "" "" "" 0))
  = matcher "src_workload_name" "=~" "web" +:+ "," +:+ matcher "src_workload_namespace" "=~" "".
Proof. vm_compute. reflexivity. Qed.
