(* ===== verification/ClickHouseSql.v ===== *)
(** * Service map: the ClickHouse statements (pkg/servicemap/summary.go,
    clickhouse_source.go)

    Literals and identifiers, the filter, the summary tables and their
    materialized views, the texts of the reads, and the setup loop that
    creates the summary.  [l] is the time left to the context's deadline. *)

From S2P Require Import Prelude GoText GoJson GoTime GoFloat GoFmt ServiceMapQueries ServiceMapSource.

#[local] Set Default Proof Using "Type".

(** ** Literals *)
Definition quote_char : ascii := chr 39.
Definition backslash : ascii := chr 92.
Fixpoint escape_literal (s : string) : string :=
  match s with
  | EmptyString => ""
  | String c r =>
    if bool_decide (c = backslash) || bool_decide (c = quote_char) then String backslash (String c (escape_literal r))
    else String c (escape_literal r)
  end.
Definition sqlString (s : string) : string := String quote_char (escape_literal s +:+ String quote_char "").
Definition sqlList (values : list string) : string := join ", " (map sqlString values).
Definition ident (s : string) : string := "`" +:+ ReplaceAll s "`" "``" +:+ "`".
Definition table (db name : string) : string := ident db +:+ "." +:+ ident name.

(** ** Names *)
Definition rawSumTable : string := "otel_metrics_sum".
Definition rawHistogramTable : string := "otel_metrics_histogram".
Definition rawGaugeTable : string := "otel_metrics_gauge".
Definition coverageMetric : string := "container_net_tcp_bytes_sent_total".
Definition coverageSlack : duration := 5 * minute.
Definition coverageBucket : duration := 5 * minute.
Definition deltaCounters : string := "AggregationTemporality = 1 AND IsMonotonic = 1".
Definition deltaHistograms : string := "AggregationTemporality = 1".
Definition maxQuerySeconds : Z := 60.
Definition maxQueryMemory : Z := 2000000000.
Definition summaryEdgesTable : string := "nb_service_map_edges_v1".
Definition summaryLatencyTable : string := "nb_service_map_latency_v1".
Definition summaryAgentsTable : string := "nb_service_map_agents_v1".
Definition summaryPodsTable : string := "nb_service_map_pods_v1".
Definition summaryMVSuffix : string := "_mv".
Definition summaryTTL : string := "INTERVAL 7 DAY".
Definition summaryTables : list string := [summaryEdgesTable; summaryLatencyTable; summaryAgentsTable; summaryPodsTable].
Definition summaryViews : list string := map (fun t => t +:+ summaryMVSuffix) summaryTables.

Definition tcpEdgeMetrics : list (string * string) :=
  [("container_net_tcp_successful_connects", "container_net_tcp_successful_connects_total");
   ("container_net_tcp_bytes_sent", "container_net_tcp_bytes_sent_total");
   ("container_net_tcp_bytes_received", "container_net_tcp_bytes_received_total")].
Definition counterMetrics : list string := sort_strings (tcpEdgeMetrics.*2 ++ map l7_requests l7Protocols).
Definition latencyMetrics : list string := sort_strings (filter (fun m => m <> "") (map l7_latency l7Protocols)).
Definition edgeLabels : list string := split_at (chr 44) (ReplaceAll edgeGroupBy " " "").
Definition by_labels : string := join ", " edgeLabels.
Definition attrColumns : string := join ", " (map (fun l => "Attributes[" +:+ sqlString l +:+ "] AS " +:+ l) edgeLabels).
Definition edgeLabelColumns : string := join ",
		" (map (fun l => l +:+ " LowCardinality(String)") edgeLabels).

Definition querySettings (l : option duration) : string :=
  let limit := match l with
               | Some d => let left := f_to_int (f_ceil (Seconds d)) in if left <? maxQuerySeconds then Z.max left 1 else maxQuerySeconds
               | None => maxQuerySeconds
               end in
  "SETTINGS max_execution_time = " +:+ itoa limit +:+ ", max_memory_usage = " +:+ itoa maxQueryMemory.

(** ** The filter; the keys are sorted *)
Definition filter_side (m : list (string * string)) : string :=
  "(" +:+ join " AND " (map (fun kv => "match(" +:+ kv.1 +:+ ", " +:+ sqlString ("^(?:" +:+ ReplaceAll kv.2 "%" ".*" +:+ ")$") +:+ ")") m) +:+ ")".
Definition filter_sides (src dst : list (string * string)) : string :=
  " AND (" +:+ filter_side src +:+ " OR " +:+ filter_side dst +:+ ")".
Definition filterSQL (p : FilterParams) : string :=
  if negb (bool_decide (WorkloadName p = "")) then
    filter_sides [("src_workload_name", WorkloadName p); ("src_workload_namespace", WorkloadNamespace p)]
      [("destination_workload_name", WorkloadName p); ("destination_workload_namespace", WorkloadNamespace p)]
  else if negb (bool_decide (WorkloadNamespace p = "")) then
    filter_sides [("src_workload_namespace", WorkloadNamespace p)] [("destination_workload_namespace", WorkloadNamespace p)]
  else "".

(** ** The reads *)
Definition views_log_sql (l : option duration) : string :=
  "SELECT engine_full, toUnixTimestamp(metadata_modification_time)
		FROM system.tables WHERE database = 'system' AND name = 'query_views_log' " +:+ querySettings l.
Definition objects_sql (db : string) (l : option duration) : string :=
  "SELECT count(), toUnixTimestamp(max(metadata_modification_time))
		FROM system.tables WHERE database = " +:+ sqlString db +:+ " AND name IN (" +:+ sqlList (summaryTables ++ summaryViews) +:+ ") " +:+ querySettings l.
Definition failures_sql (db : string) (start end_ : time) (l : option duration) : string :=
  "SELECT view_name, count() FROM system.query_views_log
		WHERE event_date >= toDate(toDateTime(" +:+ itoa (unix_seconds start) +:+ ")) AND event_time >= toDateTime(" +:+ itoa (unix_seconds start) +:+ ") AND event_time < toDateTime(" +:+ itoa (unix_seconds (time_add end_ coverageSlack)) +:+ ")
		  AND view_name IN (" +:+ sqlList (map (fun v => db +:+ "." +:+ v) summaryViews) +:+ ") AND status != 'QueryFinish'
		GROUP BY view_name " +:+ querySettings l.
Definition agents_sql (db : string) (start end_ : time) (l : option duration) : string :=
  "SELECT agent,
		       groupUniqArray(toUnixTimestamp(toStartOfInterval(minute, INTERVAL " +:+ itoa (f_to_int (Seconds coverageBucket)) +:+ " SECOND))) AS buckets
		FROM " +:+ table db summaryAgentsTable +:+ "
		WHERE minute >= toDateTime(" +:+ itoa (unix_seconds start) +:+ ") AND minute < toDateTime(" +:+ itoa (unix_seconds end_) +:+ ")
		GROUP BY agent " +:+ querySettings l.
Definition minutes_between (from to : time) : string :=
  "minute >= toDateTime(" +:+ itoa (unix_seconds from) +:+ ") AND minute < toDateTime(" +:+ itoa (unix_seconds to) +:+ ")".
Definition between (start end_ : time) : string :=
  "TimeUnix > toDateTime64(" +:+ itoa (unix_seconds start) +:+ ", 9) AND TimeUnix <= toDateTime64(" +:+ itoa (unix_seconds end_) +:+ ", 9)".
Definition edges_sql (db : string) (from to : time) (p : FilterParams) (l : option duration) : string :=
  "SELECT MetricName, " +:+ by_labels +:+ ", status, sum(value)
		FROM " +:+ table db summaryEdgesTable +:+ " WHERE MetricName IN (" +:+ sqlList counterMetrics +:+ ") AND " +:+ minutes_between from to +:+ filterSQL p +:+ "
		GROUP BY MetricName, " +:+ by_labels +:+ ", status
		HAVING sum(value) > 0 " +:+ querySettings l.
Definition latency_sql (db : string) (from to : time) (p : FilterParams) (l : option duration) : string :=
  "SELECT MetricName, " +:+ by_labels +:+ ", max(series_mean)
		FROM (
		  SELECT MetricName, " +:+ by_labels +:+ ", sum(total) / sum(samples) AS series_mean
		  FROM " +:+ table db summaryLatencyTable +:+ " WHERE MetricName IN (" +:+ sqlList latencyMetrics +:+ ") AND " +:+ minutes_between from to +:+ filterSQL p +:+ "
		  GROUP BY MetricName, " +:+ by_labels +:+ ", series
		  HAVING sum(samples) > 0
		)
		GROUP BY MetricName, " +:+ by_labels +:+ "
		HAVING max(series_mean) > 0 " +:+ querySettings l.
Definition health_sql (db : string) (start end_ from to : time) (window : float64) (l : option duration) : string :=
  "SELECT * FROM (
		SELECT multiIf(MetricName = 'container_oom_kills_total', 'container_oom_kills_total',
		               MetricName = 'container_restarts_total', 'container_restarts',
		               'container_throttled_time') AS key,
		       Attributes['container_id'] AS cid, '' AS kind, '' AS name, '' AS ns,
		       if(MetricName = 'container_resources_cpu_throttled_seconds_total', sum(Value) / " +:+ float_text window +:+ ", sum(Value)) AS value
		FROM " +:+ table db rawSumTable +:+ "
		WHERE MetricName IN ('container_oom_kills_total', 'container_restarts_total', 'container_resources_cpu_throttled_seconds_total') AND " +:+ deltaCounters +:+ " AND " +:+ between start end_ +:+ "
		GROUP BY MetricName, Attributes
		UNION ALL
		SELECT if(MetricName = 'container_resources_disk_size_bytes', 'container_volume_size', 'container_volume_used'),
		       Attributes['container_id'], '', '', '', argMax(Value, TimeUnix)
		FROM " +:+ table db rawGaugeTable +:+ "
		WHERE MetricName IN ('container_resources_disk_size_bytes', 'container_resources_disk_used_bytes') AND " +:+ between start end_ +:+ "
		GROUP BY MetricName, Attributes
		UNION ALL
		SELECT 'pod_workload', container_id, src_workload_kind, src_workload_name, src_workload_namespace, 1
		FROM " +:+ table db summaryPodsTable +:+ "
		WHERE hour >= toStartOfHour(toDateTime(" +:+ itoa (unix_seconds from) +:+ ")) AND hour < toDateTime(" +:+ itoa (unix_seconds to) +:+ ")
		GROUP BY container_id, src_workload_kind, src_workload_name, src_workload_namespace
		) " +:+ querySettings l.

(** ** The summary *)
Definition raw_tables_sql (db : string) : string :=
  "SELECT count() FROM system.tables WHERE database = " +:+ sqlString db +:+ " AND name IN (" +:+ sqlList [rawSumTable; rawHistogramTable] +:+ ")".
Definition edges_table (db : string) : string :=
  "CREATE TABLE IF NOT EXISTS " +:+ table db summaryEdgesTable +:+ " (
		minute DateTime,
		MetricName LowCardinality(String),
		" +:+ edgeLabelColumns +:+ ",
		status LowCardinality(String),
		value Float64
	) ENGINE = SummingMergeTree
	PARTITION BY toDate(minute)
	ORDER BY (minute, MetricName, " +:+ by_labels +:+ ", status)
	TTL minute + " +:+ summaryTTL.
Definition latency_table (db : string) : string :=
  "CREATE TABLE IF NOT EXISTS " +:+ table db summaryLatencyTable +:+ " (
		minute DateTime,
		MetricName LowCardinality(String),
		" +:+ edgeLabelColumns +:+ ",
		series UInt64,
		total Float64,
		samples UInt64
	) ENGINE = SummingMergeTree
	PARTITION BY toDate(minute)
	ORDER BY (minute, MetricName, " +:+ by_labels +:+ ", series)
	TTL minute + " +:+ summaryTTL.
Definition agents_table (db : string) : string :=
  "CREATE TABLE IF NOT EXISTS " +:+ table db summaryAgentsTable +:+ " (
		minute DateTime,
		agent String,
		rows UInt64
	) ENGINE = SummingMergeTree
	PARTITION BY toDate(minute)
	ORDER BY (minute, agent)
	TTL minute + " +:+ summaryTTL.
Definition pods_table (db : string) : string :=
  "CREATE TABLE IF NOT EXISTS " +:+ table db summaryPodsTable +:+ " (
		hour DateTime,
		container_id String,
		src_workload_kind LowCardinality(String),
		src_workload_name LowCardinality(String),
		src_workload_namespace LowCardinality(String),
		rows UInt64
	) ENGINE = SummingMergeTree
	PARTITION BY toDate(hour)
	ORDER BY (hour, container_id, src_workload_kind, src_workload_name, src_workload_namespace)
	TTL hour + " +:+ summaryTTL.
Definition edges_view (db : string) : string :=
  "CREATE MATERIALIZED VIEW IF NOT EXISTS " +:+ table db (summaryEdgesTable +:+ summaryMVSuffix) +:+ " TO " +:+ table db summaryEdgesTable +:+ " AS
	SELECT toStartOfMinute(TimeUnix) AS minute, MetricName, " +:+ attrColumns +:+ ", Attributes['status'] AS status, sum(Value) AS value
	FROM " +:+ table db rawSumTable +:+ "
	WHERE MetricName IN (" +:+ sqlList counterMetrics +:+ ") AND " +:+ deltaCounters +:+ "
	GROUP BY minute, MetricName, " +:+ by_labels +:+ ", status".
Definition latency_view (db : string) : string :=
  "CREATE MATERIALIZED VIEW IF NOT EXISTS " +:+ table db (summaryLatencyTable +:+ summaryMVSuffix) +:+ " TO " +:+ table db summaryLatencyTable +:+ " AS
	SELECT toStartOfMinute(TimeUnix) AS minute, MetricName, " +:+ attrColumns +:+ ",
	       cityHash64(Attributes, ResourceAttributes['service.instance.id']) AS series,
	       sum(Sum) AS total, sum(Count) AS samples
	FROM " +:+ table db rawHistogramTable +:+ "
	WHERE MetricName IN (" +:+ sqlList latencyMetrics +:+ ") AND " +:+ deltaHistograms +:+ "
	GROUP BY minute, MetricName, " +:+ by_labels +:+ ", series".
Definition agents_view (db : string) : string :=
  "CREATE MATERIALIZED VIEW IF NOT EXISTS " +:+ table db (summaryAgentsTable +:+ summaryMVSuffix) +:+ " TO " +:+ table db summaryAgentsTable +:+ " AS
	SELECT toStartOfMinute(TimeUnix) AS minute, ResourceAttributes['service.instance.id'] AS agent, count() AS rows
	FROM " +:+ table db rawSumTable +:+ "
	WHERE MetricName = " +:+ sqlString coverageMetric +:+ " AND " +:+ deltaCounters +:+ "
	GROUP BY minute, agent".
Definition pods_view (db : string) : string :=
  "CREATE MATERIALIZED VIEW IF NOT EXISTS " +:+ table db (summaryPodsTable +:+ summaryMVSuffix) +:+ " TO " +:+ table db summaryPodsTable +:+ " AS
	SELECT toStartOfHour(TimeUnix) AS hour, Attributes['container_id'] AS container_id,
	       Attributes['src_workload_kind'] AS src_workload_kind, Attributes['src_workload_name'] AS src_workload_name,
	       Attributes['src_workload_namespace'] AS src_workload_namespace, count() AS rows
	FROM " +:+ table db rawSumTable +:+ "
	WHERE MetricName = " +:+ sqlString coverageMetric +:+ " AND " +:+ deltaCounters +:+ "
	GROUP BY hour, container_id, src_workload_kind, src_workload_name, src_workload_namespace".
Definition summaryDDL (db : string) : list string :=
  [edges_table db; latency_table db; agents_table db; pods_table db; edges_view db; latency_view db; agents_view db; pods_view db].

(** ** Running statements

    [query] is the client: an error, or the error text and the rows of the
    answer. *)
Section client.
Context (query : string -> result (option string * list (list json))).
Definition chRows (sql : string) : result (list (list json)) :=
  let? res := query sql in match res.1 with Some e => Err e | None => Ok res.2 end.
Section numbers.
Context (other_float : string -> option float64).
Definition num (v : json) : float64 :=
  match v with JFloat x => x | JStr s => default F64NaN (ParseFloat other_float s) | _ => F64NaN end.
Definition text (v : json) : string := match v with JNull => "" | JStr s => s | _ => sprint_v v end.
Definition rawTablesExist (db : string) : result bool :=
  let? rows := chRows (raw_tables_sql db) in
  Ok match rows with [[n]] => f_eq (num n) (f_of_Z 2) | _ => false end.
Inductive setup_error := SummaryNotReady | SetupFailed (msg : string).
(** The first statement that fails ends the setup. *)
Fixpoint create (stmts : list string) : option setup_error :=
  match stmts with
  | [] => None
  | stmt :: stmts => match chRows stmt with
                     | Ok _ => create stmts
                     | Err e => Some (SetupFailed ("servicemap: create summary: " +:+ e))
                     end
  end.
Definition ensureSummary (db : string) : option setup_error :=
  match rawTablesExist db with
  | Err e => Some (SetupFailed e)
  | Ok false => Some SummaryNotReady
  | Ok true => create (summaryDDL db)
  end.
End numbers.
End client.

(** ** The setup loop *)
Definition summaryRetry : duration := minute.
Definition summaryRecheck : duration := 10 * minute.
Record setup := MkSetup { summaryReady : bool; failing : bool }.
(** One round with the outcome of [ensureSummary]: the state and the wait. *)
Definition setup_round (outcome : option setup_error) (s : setup) : setup * duration :=
  match outcome with
  | None => (MkSetup true false, summaryRecheck)
  | Some SummaryNotReady => (MkSetup false (failing s), summaryRetry)
  | Some (SetupFailed _) => (MkSetup (summaryReady s) true, summaryRecheck)
  end.
Definition StartSummary (ch : bool) (src : Source) (outcomes : list (option setup_error)) : setup :=
  match source ch src with
  | SourcePrometheus => MkSetup false false
  | _ => foldl (fun s o => (setup_round o s).1) (MkSetup false false) outcomes
  end.

(** The last outcome that says whether the raw tables are there. *)
Fixpoint last_word (outcomes : list (option setup_error)) : bool :=
  match outcomes with
  | [] => false
  | None :: _ => true
  | Some SummaryNotReady :: _ => false
  | Some (SetupFailed _) :: os => last_word os
  end.
(** ClickHouse is read exactly while the last round that reached the tables
    created the summary; the Prometheus source never creates it. *)
Theorem summary_ready_spec ch src outcomes : summaryReady (StartSummary ch src outcomes)
  = match source ch src with SourcePrometheus => false | _ => last_word (rev outcomes) end.
Proof.
  unfold StartSummary. assert (summaryReady (foldl (fun s o => (setup_round o s).1) (MkSetup false false) outcomes) = last_word (rev outcomes)) as H.
  - induction outcomes as [|o os IH] using rev_ind; [done|]. rewrite foldl_snoc, rev_unit. by destruct o as [[]|].
  - by destruct (source ch src).
Qed.

(** ** Literals cannot be left

    A reader of string literals with the two escapes of the server's syntax
    that the writer uses: the content and the text behind the literal. *)
Fixpoint literal_body (s : string) : option (string * string) :=
  match s with
  | EmptyString => None
  | String c r =>
    if bool_decide (c = quote_char) then Some ("", r)
    else if bool_decide (c = backslash) then
      match r with
      | String d r' =>
        if bool_decide (d = backslash) || bool_decide (d = quote_char)
        then at' ← literal_body r'; Some (String d at'.1, at'.2) else None
      | EmptyString => None
      end
    else at' ← literal_body r; Some (String c at'.1, at'.2)
  end.
Definition read_literal (s : string) : option (string * string) :=
  match s with String c r => if bool_decide (c = quote_char) then literal_body r else None | EmptyString => None end.
(** A quoted text is read back and ends where it was closed: whatever
    workload name or namespace a request carries, the literal in the
    statement has exactly that content, and what follows is not part of it. *)
Theorem sql_literal_roundtrip s rest : read_literal (sqlString s +:+ rest) = Some (s, rest).
Proof.
  unfold sqlString. rewrite app_cons, sapp_assoc, app_cons, app_nil_l. cbn [read_literal]. rewrite bool_decide_true by done.
  induction s as [|c s IH]; cbn [escape_literal].
  - rewrite app_nil_l. cbn [literal_body]. by rewrite bool_decide_true.
  - destruct (bool_decide (c = backslash) || bool_decide (c = quote_char)) eqn:E.
    + rewrite !app_cons. cbn [literal_body]. rewrite bool_decide_false, bool_decide_true, E, IH by done. done.
    + rewrite app_cons. cbn [literal_body]. apply orb_false_elim in E as [-> ->]. by rewrite IH.
Qed.
