(* ===== verification/MapCoverage.v ===== *)
(** * Service map: reading from ClickHouse (pkg/servicemap/clickhouse_source.go)

    The coverage check and the read of the edge and container metrics.  The
    client is given by its answers, [left n] is the time left to the deadline
    at the [n]-th statement, and counting the running node agents is a
    parameter.  [time.Truncate] counts from the zero instant.

    The checks of [fetchClickHouse] as properties of the data follow: the
    summary and the log of its failures exist since before the window, no view
    failed in it, and the node agents' rows leave no gap. *)

From S2P Require Import Prelude GoText GoJson GoStruct GoTime GoFloat GoFmt CanonJson ServiceMapQueries ServiceMap ServiceMapSource ClickHouseSql.

#[local] Set Default Proof Using "Type".

Definition Truncate (t : time) (d : duration) : time := t - t mod d.
Definition Unix (sec : Z) : time := unix_to_internal + sec * second.

(** Why ClickHouse cannot serve the window: a failed statement, or one of the
    gaps that wrap [errNotCovered]. *)
Inductive cover_error :=
| QueryFailed (msg : string)
| NoClient
| EmptyWindow
| ViewsLogDisabled
| ViewsLogUnreadable
| ViewsLogStartsLate (since : time)
| ViewsLogTTLUnreadable
| ViewsLogKeeps (keep : duration)
| SummaryTablesUnreadable
| ObjectsMissing (n : float64)
| SummaryStartUnreadable
| SummaryStartsLate (first : time)
| ViewFailed (view : string) (n : float64)
| ViewFailuresUnreadable
| CoverageRowUnreadable
| NoAgentRows
| AgentGap (agent : string) (bucket : Z)
| NoAgentRowsFor (bucket : Z)
| CannotCountAgents (msg : string)
| AgentsMissing (got want bucket : Z)
| NotReady.
Definition covered (A : Type) : Type := A + cover_error.
Definition cbind {A B} (r : covered A) (k : A -> covered B) : covered B := match r with inl a => k a | inr e => inr e end.
Notation "'let!' x ':=' c 'in' k" := (cbind c (fun x => k)) (at level 200, x pattern, c at level 100, k at level 200).
Definition require (b : bool) (e : cover_error) : covered unit := if b then inl tt else inr e.
Definition queried {A} (r : result A) : covered A := match r with Ok a => inl a | Err e => inr (QueryFailed e) end.

(** ** The retention of the view log *)
Definition ttl_units : list (string * duration) :=
  [("Second", second); ("Minute", minute); ("Hour", hour); ("Day", 24 * hour); ("Week", 7 * 24 * hour); ("Month", 28 * 24 * hour);
   ("Quarter", 89 * 24 * hour); ("Year", 365 * 24 * hour)].
(** [viewsLogTTLRe]: whether the column is the date, the unit, the digits. *)
Fixpoint ttl_unit (units : list (string * duration)) (s : string) : option (duration * string) :=
  match units with
  | [] => None
  | (name, d) :: units => match strip_prefix (name +:+ "(") s with Some r => Some (d, r) | None => ttl_unit units s end
  end.
Definition ttl_clause (s : string) : option (bool * duration * string) :=
  r ← strip_prefix "event_" s;
  dr ← match strip_prefix "date" r with Some r => Some (true, r) | None => (fun r => (false, r)) <$> strip_prefix "time" r end;
  r ← strip_prefix " + toInterval" dr.2;
  ur ← ttl_unit ttl_units r;
  let '(ds, r) := span_digits ur.2 in
  if bool_decide (ds = "") || negb (bool_decide (r = ")")) then None else Some (dr.1, ur.1, ds).
(** [Some 0] is for ever, [None] a clause that is not understood. *)
Definition viewsLogRetention (engineFull : string) : option duration :=
  match cut_first " TTL " engineFull with
  | None => Some 0
  | Some (_, ttl) =>
    let ttl := match cut_first " SETTINGS " ttl with Some (before, _) => before | None => ttl end in
    m ← ttl_clause ttl;
    let '(date, unit, ds) := m in
    n ← atoi ds;
    if n <=? 0 then None
    else
      let keep := wrap64 (n * unit) in
      let keep := if date : bool then wrap64 (keep - 24 * hour) else keep in
      if keep <=? 0 then None else Some keep
  end.

Example retentions : map viewsLogRetention
  ["SystemLog PARTITION BY x ORDER BY y"; "SystemLog TTL event_date + toIntervalDay(8) SETTINGS a = 1"; "SystemLog TTL event_time + toIntervalMonth(1)";
   "SystemLog TTL event_time + toIntervalDay(30) TO VOLUME 'cold', event_time + toIntervalDay(1)"; "SystemLog TTL event_date + toIntervalHour(24)"]
  = [Some 0; Some (7 * 24 * hour); Some (28 * 24 * hour); None; None].
Proof. vm_compute. reflexivity. Qed.

Section source.
Context (query : string -> result (option string * list (list json))) (other_float : string -> option float64).
Context (left : nat -> option duration) (now : time).
Abbreviation rows sql := (queried (chRows query sql)).
Abbreviation number := (num other_float).

Definition checkViewsLog (start : time) : covered unit :=
  let! rs := rows (views_log_sql (left 1)) in
  match rs with
  | [] => inr ViewsLogDisabled
  | [engine; made] :: _ =>
    let created := number made in
    if is_nan created then inr ViewsLogUnreadable
    else
      let since := Unix (f_to_int created) in
      if time_before start since then inr (ViewsLogStartsLate since)
      else match viewsLogRetention (text engine) with
           | None => inr ViewsLogTTLUnreadable
           | Some keep => require (negb ((0 <? keep) && time_before start (time_add now (- keep)))) (ViewsLogKeeps keep)
           end
  | _ :: _ => inr ViewsLogUnreadable
  end.

(** ** Coverage *)
Definition check_objects (db : string) (start : time) : covered unit :=
  let! rs := rows (objects_sql db (left 0)) in
  match rs with
  | [[n; made]] =>
    if negb (f_eq (number n) (f_of_Z (Z.of_nat (length (summaryTables ++ summaryViews))))) then inr (ObjectsMissing (number n))
    else
      let created := number made in
      if is_nan created then inr SummaryStartUnreadable
      else
        let first := Truncate (Unix (f_to_int created)) minute in
        require (negb (time_before start (time_add first minute))) (SummaryStartsLate first)
  | _ => inr SummaryTablesUnreadable
  end.
Definition check_failures (db : string) (start end_ : time) : covered unit :=
  let! rs := rows (failures_sql db start end_ (left 2)) in
  match rs with
  | [] => inl tt
  | [view; n] :: _ => inr (ViewFailed (text view) (number n))
  | _ :: _ => inr ViewFailuresUnreadable
  end.
(** The buckets in which each agent has rows. *)
Fixpoint bucket_values (bs : list json) : covered (list Z) :=
  match bs with
  | [] => inl []
  | v :: bs => let b := number v in
               if is_nan b then inr CoverageRowUnreadable else let! l := bucket_values bs in inl (f_to_int b :: l)
  end.
Fixpoint agent_rows (rs : list (list json)) (agents : gmap string (list Z)) : covered (gmap string (list Z)) :=
  match rs with
  | [] => inl agents
  | (agent :: JArr bs :: _) :: rs =>
    let! l := bucket_values bs in
    agent_rows rs (if bool_decide (l = []) then agents else <[text agent := default [] (agents !! text agent) ++ l]> agents)
  | _ :: _ => inr CoverageRowUnreadable
  end.
(** The starts of the buckets fully inside the window, from [b] on. *)
Fixpoint buckets_from (fuel : nat) (b limit : time) : list Z :=
  match fuel with
  | O => []
  | S fuel => if limit <? b + coverageBucket then [] else unix_seconds b :: buckets_from fuel (b + coverageBucket) limit
  end.
Definition first_bucket (start : time) : time :=
  let first := Truncate start coverageBucket in
  if time_before first start then time_add first coverageBucket else first.
Definition required_buckets (start end_ : time) : list Z :=
  let limit := time_add end_ (- coverageSlack) in
  buckets_from (Z.to_nat ((limit - first_bucket start) / coverageBucket)) (first_bucket start) limit.
Definition position (required : list Z) (b : Z) : option nat := fst <$> list_find (fun x => x = b) required.
(** [slices.Compact] *)
Fixpoint compact (l : list nat) : list nat :=
  match l with
  | i :: ((j :: _) as r) => if bool_decide (i = j) then compact r else i :: compact r
  | _ => l
  end.
Definition agent_buckets (required bs : list Z) : list nat := compact (merge_sort le (omap (position required) bs)).
Fixpoint first_gap (idx : list nat) : option nat :=
  match idx with
  | i :: ((j :: _) as r) => if bool_decide (j = S i) then first_gap r else Some (S i)
  | _ => None
  end.
(** The agents are visited in the map's order, which is left open: of several
    gaps any may be reported. *)
Fixpoint check_agents (required : list Z) (agents : list (string * list Z)) : covered (list (list nat)) :=
  match agents with
  | [] => inl []
  | (agent, bs) :: agents =>
    let idx := agent_buckets required bs in
    match first_gap idx with
    | Some i => inr (AgentGap agent (default 0 (required !! i)))
    | None => let! l := check_agents required agents in inl (idx :: l)
    end
  end.
Definition perBucket (idxs : list (list nat)) (i : nat) : Z := Z.of_nat (length (filter (fun idx => i ∈ idx) idxs)).
Definition empty_bucket (n : nat) (idxs : list (list nat)) : option nat := List.find (fun i => perBucket idxs i =? 0) (seq 0 n).
Definition check_count (nodeAgents : option (time -> result Z)) (required : list Z) (idxs : list (list nat)) : covered unit :=
  match nodeAgents with
  | None => inl tt
  | Some count =>
    let last := pred (length required) in
    let bucket := default 0 (required !! last) in
    match count (Unix bucket) with
    | Err e => inr (CannotCountAgents e)
    | Ok want => require (negb (perBucket idxs last <? want)) (AgentsMissing (perBucket idxs last) want bucket)
    end
  end.
Definition check_buckets (nodeAgents : option (time -> result Z)) (required : list Z) (agents : gmap string (list Z)) : covered unit :=
  if bool_decide (required = []) then require (negb (bool_decide (agents = ∅))) NoAgentRows
  else
    let! idxs := check_agents required (map_to_list agents) in
    match empty_bucket (length required) idxs with
    | Some i => inr (NoAgentRowsFor (default 0 (required !! i)))
    | None => check_count nodeAgents required idxs
    end.
Definition checkCoverage (db : string) (nodeAgents : option (time -> result Z)) (start end_ : time) : covered unit :=
  let! _ := check_objects db start in
  let! _ := checkViewsLog start in
  let! _ := check_failures db start end_ in
  let! rs := rows (agents_sql db start end_ (left 3)) in
  let! agents := agent_rows rs ∅ in
  check_buckets nodeAgents (required_buckets start end_) agents.

(** ** The metrics *)
Definition edgeRow (r : list json) : labels :=
  list_to_map (zip edgeLabels (map (fun v => text v) (firstn (length edgeLabels) (drop 1 r)))).
Definition requestKey (metric : string) : string :=
  match List.find (fun p => bool_decide (l7_requests p = metric)) l7Protocols with Some p => l7RequestsKey p | None => "" end.
Definition latencyKey (metric : string) : string :=
  if bool_decide (metric = "") then ""
  else match List.find (fun p => bool_decide (l7_latency p = metric)) l7Protocols with Some p => l7LatencyKey p | None => "" end.
Definition tcpKey (metric : string) : string :=
  match List.find (fun km => bool_decide (km.2 = metric)) tcpEdgeMetrics with Some km => km.1 | None => "" end.
Definition add_result (key : string) (r : promResult) (out : gmap string (list promResult)) : gmap string (list promResult) :=
  <[key := of_key out key ++ [r]]> out.
Definition edge_result (minuteWindow : float64) (out : gmap string (list promResult)) (r : list json) : gmap string (list promResult) :=
  if negb (bool_decide (length r = (length edgeLabels + 3)%nat)) then out
  else
    let metric := text (default JNull (r !! 0%nat)) in
    let rate := f_div (number (default JNull (last r))) minuteWindow in
    if negb (bool_decide (requestKey metric = "")) then
      add_result (requestKey metric)
        (MkResult (<["status" := text (default JNull (r !! (1 + length edgeLabels)%nat))]> (edgeRow r)) rate true) out
    else if negb (bool_decide (tcpKey metric = "")) then add_result (tcpKey metric) (MkResult (edgeRow r) rate true) out
    else out.
Definition latency_result (out : gmap string (list promResult)) (r : list json) : gmap string (list promResult) :=
  if negb (bool_decide (length r = (length edgeLabels + 2)%nat)) then out
  else
    let key := latencyKey (text (default JNull (r !! 0%nat))) in
    if bool_decide (key = "") then out
    else add_result key (MkResult (edgeRow r) (number (default JNull (last r))) true) out.
Definition health_result (out : gmap string (list promResult)) (r : list json) : gmap string (list promResult) :=
  match r with
  | [key; cid; kind; name; ns; v] =>
    let labels : gmap string string := {["container_id" := text cid]} in
    let labels := if bool_decide (text key = "pod_workload")
                  then <["src_workload_kind" := text kind]> (<["src_workload_name" := text name]> (<["src_workload_namespace" := text ns]> labels))
                  else labels in
    if finite (number v) then add_result (text key) (MkResult labels (number v) true) out else out
  | _ => out
  end.
(** [client] is whether there is a client, and its database. *)
Definition fetchClickHouse (client : option string) (start end_ : time) (p : FilterParams) (nodeAgents : option (time -> result Z)) :
  covered (gmap string (list promResult)) :=
  match client with
  | None => inr NoClient
  | Some db =>
    let window := Seconds (time_sub end_ start) in
    let from := Truncate start minute in
    let to := Truncate end_ minute in
    let minuteWindow := Seconds (time_sub to from) in
    if f_le window float_zero || f_le minuteWindow float_zero then inr EmptyWindow
    else
      let! _ := checkCoverage db nodeAgents from to in
      let! edge_rows := rows (edges_sql db from to p (left 4)) in
      let! latency_rows := rows (latency_sql db from to p (left 5)) in
      let! health_rows := rows (health_sql db start end_ from to window (left 6)) in
      inl (foldl health_result (foldl latency_result (foldl (edge_result minuteWindow) ∅ edge_rows) latency_rows) health_rows)
  end.
Definition fetchSummary (ready : bool) (client : option string) (start end_ : time) (p : FilterParams) (nodeAgents : option (time -> result Z)) :
  covered (gmap string (list promResult)) :=
  if ready then fetchClickHouse client start end_ p nodeAgents else inr NotReady.
End source.

(** * What a covered window means *)

(** ** The required buckets *)
Lemma buckets_lookup fuel b limit i x : buckets_from fuel b limit !! i = Some x <->
  (i < fuel)%nat /\ b + (Z.of_nat i + 1) * coverageBucket <= limit /\ x = unix_seconds (b + Z.of_nat i * coverageBucket).
Proof.
  assert (0 < coverageBucket) as HB by done.
  revert b i. induction fuel as [|fuel IH]; intros b i; cbn [buckets_from]; [split; [done|lia]|].
  destruct (limit <? b + coverageBucket) eqn:E; [split; [done|nia]|]. destruct i as [|i]; cbn.
  - split; [|intros (_ & _ & ->)].
    + intros [= <-]. split_and!; [lia|lia|]. f_equal. lia.
    + do 2 f_equal. lia.
  - rewrite IH. replace (b + coverageBucket + (Z.of_nat i + 1) * coverageBucket) with (b + (Z.of_nat (S i) + 1) * coverageBucket) by lia.
    replace (b + coverageBucket + Z.of_nat i * coverageBucket) with (b + Z.of_nat (S i) * coverageBucket) by lia. intuition lia.
Qed.
(** A bucket that lies fully inside the window, without its last minutes. *)
Definition inside (start end_ b : time) : Prop :=
  b mod coverageBucket = 0 /\ start <= b /\ b + coverageBucket <= end_ - coverageSlack.
Lemma truncate_first start : first_bucket start mod coverageBucket = 0 /\ start <= first_bucket start < start + coverageBucket.
Proof.
  assert (0 < coverageBucket) as HB by done. unfold first_bucket, time_before, time_add, Truncate.
  pose proof (Z.mod_pos_bound start coverageBucket HB) as Hm.
  assert ((start - start mod coverageBucket) mod coverageBucket = 0) as H0.
  { rewrite Zminus_mod_idemp_r. by rewrite Z.sub_diag, Zmod_0_l. }
  destruct (start - start mod coverageBucket <? start) eqn:E; split; try lia.
  rewrite Zplus_mod, H0, Z_mod_same_full. done.
Qed.
(** The [i]-th required bucket, and the index of a bucket inside the window. *)
Definition bucket_at (start : time) (i : nat) : time := first_bucket start + Z.of_nat i * coverageBucket.
Lemma required_lookup start end_ i x : required_buckets start end_ !! i = Some x <->
  inside start end_ (bucket_at start i) /\ x = unix_seconds (bucket_at start i).
Proof.
  assert (0 < coverageBucket) as HB by done. destruct (truncate_first start) as [Hm Hf].
  unfold required_buckets. rewrite buckets_lookup. unfold inside, bucket_at, time_add.
  assert ((first_bucket start + Z.of_nat i * coverageBucket) mod coverageBucket = 0) as Ha by (rewrite Z_mod_plus_full; lia).
  set (limit := end_ + - coverageSlack).
  assert ((i < Z.to_nat ((limit - first_bucket start) / coverageBucket))%nat <-> first_bucket start + (Z.of_nat i + 1) * coverageBucket <= limit) as Hi.
  { split; intros H.
    - assert (Z.of_nat i + 1 <= (limit - first_bucket start) / coverageBucket) as H1 by lia.
      pose proof (Z.mul_div_le (limit - first_bucket start) coverageBucket HB). nia.
    - assert (Z.of_nat i + 1 <= (limit - first_bucket start) / coverageBucket) as H1 by (apply Z.div_le_lower_bound; lia). lia. }
  rewrite Hi. unfold limit. intuition nia.
Qed.
Lemma inside_index start end_ b : inside start end_ b -> exists i, b = bucket_at start i.
Proof.
  assert (0 < coverageBucket) as HB by done. destruct (truncate_first start) as [Hm Hf]. intros (Hb & Hs & _).
  apply Z.mod_divide in Hm as [k Hk]; [|done]. apply Z.mod_divide in Hb as [j Hj]; [|done].
  assert (k <= j) as Hle by nia. exists (Z.to_nat (j - k)). unfold bucket_at. nia.
Qed.
Lemma bucket_at_unix start i j : unix_seconds (bucket_at start i) = unix_seconds (bucket_at start j) -> i = j.
Proof.
  assert (0 < second) as Hsec by done. unfold bucket_at, unix_seconds.
  assert (forall n, (first_bucket start + n * coverageBucket - unix_to_internal) / second
    = (first_bucket start - unix_to_internal) / second + n * 300) as H.
  { intros n. replace (first_bucket start + n * coverageBucket - unix_to_internal)
      with (first_bucket start - unix_to_internal + n * 300 * second) by (unfold coverageBucket, minute; lia).
    by rewrite Z.div_add by lia. }
  rewrite !H. lia.
Qed.
Lemma position_spec start end_ b i : position (required_buckets start end_) b = Some i <->
  inside start end_ (bucket_at start i) /\ b = unix_seconds (bucket_at start i).
Proof.
  unfold position. rewrite <- required_lookup. split.
  - intros ([j x] & (Hx & -> & _)%list_find_Some & ->)%fmap_Some. done.
  - intros H. apply fmap_Some. exists (i, b). split; [|done]. apply list_find_Some. split_and!; [done|done|].
    intros j y Hy Hlt ->. apply required_lookup in Hy as [_ Hy]. apply required_lookup in H as [_ H].
    rewrite H in Hy. apply bucket_at_unix in Hy. lia.
Qed.

(** ** The buckets of an agent *)
Lemma elem_of_compact i l : i ∈ compact l <-> i ∈ l.
Proof.
  induction l as [|j [|k l] IH]; [done|done|]. change (compact (j :: k :: l)) with
    (if bool_decide (j = k) then compact (k :: l) else j :: compact (k :: l)).
  case_bool_decide as E; [subst k; rewrite IH; set_solver|]. rewrite !(elem_of_cons _ i j), IH. done.
Qed.
Lemma elem_of_agent_buckets start end_ bs i : i ∈ agent_buckets (required_buckets start end_) bs <->
  inside start end_ (bucket_at start i) /\ unix_seconds (bucket_at start i) ∈ bs.
Proof.
  unfold agent_buckets. rewrite elem_of_compact, (merge_sort_Permutation le), list_elem_of_omap. setoid_rewrite position_spec. naive_solver.
Qed.
Lemma no_gap idx : first_gap idx = None -> idx = seq (default 0%nat (head idx)) (length idx).
Proof.
  induction idx as [|i [|j idx] IH]; [done|done|]. change (first_gap (i :: j :: idx)) with
    (if bool_decide (j = S i) then first_gap (j :: idx) else Some (S i)).
  case_bool_decide as E; [|done]. intros H. specialize (IH H). subst j. unfold default in *. cbn [head length seq id] in *. cbv [id] in *. by rewrite <- IH.
Qed.
Lemma no_gap_between idx i j k : first_gap idx = None -> i ∈ idx -> k ∈ idx -> (i <= j <= k)%nat -> j ∈ idx.
Proof. intros ->%no_gap. rewrite !elem_of_seq. lia. Qed.
Lemma check_agents_spec required agents idxs : check_agents required agents = inl idxs ->
  idxs = map (fun kb => agent_buckets required kb.2) agents /\ Forall (fun idx => first_gap idx = None) idxs.
Proof.
  revert idxs. induction agents as [|[agent bs] agents IH]; intros idxs; cbn [check_agents map]; [by intros [= <-]|].
  destruct (first_gap _) eqn:E; [done|]. destruct (check_agents required agents) as [l|]; [|done]. cbn.
  intros [= <-]. destruct (IH l eq_refl) as [<- Hl]. by split; [|constructor].
Qed.

(** ** Coverage *)
(** The node agents that have rows in a bucket. *)
Definition agents_in (agents : gmap string (list Z)) (b : time) : Z :=
  Z.of_nat (length (filter (fun kb => unix_seconds b ∈ kb.2) (map_to_list agents))).
Record covers (start end_ : time) (agents : gmap string (list Z)) : Prop := MkCovers
  { cov_nonempty : agents <> ∅;
    cov_buckets : forall b, inside start end_ b -> 0 < agents_in agents b;
    cov_agents : forall agent bs b1 b b2, agents !! agent = Some bs -> inside start end_ b1 -> inside start end_ b ->
      inside start end_ b2 -> b1 <= b <= b2 -> unix_seconds b1 ∈ bs -> unix_seconds b2 ∈ bs -> unix_seconds b ∈ bs }.
(** The last bucket inside the window has rows from as many agents as run. *)
Definition all_running (nodeAgents : option (time -> result Z)) (start end_ : time) (agents : gmap string (list Z)) : Prop :=
  forall count b, nodeAgents = Some count -> inside start end_ b -> ~ inside start end_ (b + coverageBucket) ->
    exists want, count (Unix (unix_seconds b)) = Ok want /\ want <= agents_in agents b.

Lemma perBucket_agents start end_ agents i : inside start end_ (bucket_at start i) ->
  perBucket (map (fun kb => agent_buckets (required_buckets start end_) kb.2) (map_to_list agents)) i = agents_in agents (bucket_at start i).
Proof.
  intros Hi. unfold perBucket, agents_in. f_equal. induction (map_to_list agents) as [|[a bs] l IH]; [done|].
  cbn [map]. rewrite !filter_cons. cbn [snd].
  destruct (decide (i ∈ agent_buckets (required_buckets start end_) bs)) as [H|H], (decide (unix_seconds (bucket_at start i) ∈ bs)) as [H'|H'];
    rewrite elem_of_agent_buckets in H; cbn [length]; rewrite ?IH; try done; tauto.
Qed.
Lemma required_length start end_ i : (i < length (required_buckets start end_))%nat <-> inside start end_ (bucket_at start i).
Proof.
  rewrite <- lookup_lt_is_Some. split.
  - by intros [x [? _]%required_lookup].
  - intros H. eexists. by apply required_lookup.
Qed.
Lemma bucket_at_S start i : bucket_at start (S i) = bucket_at start i + coverageBucket.
Proof. unfold bucket_at. lia. Qed.
Lemma check_buckets_spec nodeAgents start end_ agents :
  check_buckets nodeAgents (required_buckets start end_) agents = inl tt ->
  covers start end_ agents /\ all_running nodeAgents start end_ agents.
Proof.
  unfold check_buckets. destruct (decide (required_buckets start end_ = [])) as [E|E].
  - rewrite bool_decide_true by done. unfold require. case_bool_decide as Ea; [done|]. intros _.
    assert (forall b, ~ inside start end_ b) as Hno.
    { intros b Hb. destruct (inside_index _ _ _ Hb) as [i ->]. apply required_length in Hb. rewrite E in Hb. cbn in Hb. lia. }
    split; [split; [done|by intros b ?%Hno|by intros ? ? ? b ? ? ?%Hno]|by intros ? b ? ?%Hno].
  - rewrite bool_decide_false by done. destruct (check_agents _ _) as [idxs|] eqn:Ei; [|done].
    apply check_agents_spec in Ei as [-> Hg]. cbn [cbind]. destruct (empty_bucket _ _) eqn:Ee; [done|]. intros Hc.
    assert (forall i, inside start end_ (bucket_at start i) -> 0 < agents_in agents (bucket_at start i)) as Hpos.
    { intros i Hi. rewrite <- (perBucket_agents start end_) by done. unfold empty_bucket in Ee.
      pose proof (List.find_none _ _ Ee i) as H. rewrite in_seq in H. apply required_length in Hi. specialize (H ltac:(lia)).
      unfold perBucket in *. cbn beta in H. lia. }
    split; [split|].
    + intros ->. destruct (required_buckets start end_) as [|x l] eqn:El; [done|].
      assert (inside start end_ (bucket_at start 0)) as H0 by (apply required_length; rewrite El; cbn; lia).
      apply Hpos in H0. unfold agents_in in H0. rewrite map_to_list_empty in H0. cbn in H0. lia.
    + intros b Hb. destruct (inside_index _ _ _ Hb) as [i ->]. by apply Hpos.
    + intros agent bs b1 b b2 Ha H1 H H2 Hle. destruct (inside_index _ _ _ H1) as [i ->], (inside_index _ _ _ H) as [j ->], (inside_index _ _ _ H2) as [k ->].
      intros Hi Hk. assert (first_gap (agent_buckets (required_buckets start end_) bs) = None) as Hgap.
      { rewrite Forall_forall in Hg. apply Hg, list_elem_of_fmap. exists (agent, bs). by rewrite elem_of_map_to_list. }
      assert (j ∈ agent_buckets (required_buckets start end_) bs) as Hj; [|by apply elem_of_agent_buckets in Hj as [_ ?]].
      eapply (no_gap_between _ i j k Hgap); [by apply elem_of_agent_buckets..|].
      unfold bucket_at, coverageBucket, minute, second in Hle. lia.
    + intros count b -> Hb Hlast. destruct (inside_index _ _ _ Hb) as [i ->]. rewrite <- bucket_at_S, <- required_length in Hlast.
      pose proof Hb as Hi. apply required_length in Hi. assert (pred (length (required_buckets start end_)) = i) as Epred by lia.
      unfold check_count in Hc. rewrite Epred, (proj2 (required_lookup start end_ i (unix_seconds (bucket_at start i)))) in Hc by done.
      cbn [default] in Hc. unfold default in Hc. cbv [id] in Hc. destruct (count _) as [want|] eqn:Ew; [|done]. exists want. split; [done|].
      rewrite (perBucket_agents start end_) in Hc by done. destruct (_ <? want) eqn:El; [done|lia].
Qed.

Lemma cbind_inl {A B} (r : covered A) (k : A -> covered B) b : cbind r k = inl b <-> exists a, r = inl a /\ k a = inl b.
Proof. destruct r; cbn; naive_solver. Qed.
Lemma require_inl b e : require b e = inl tt <-> b = true.
Proof. unfold require. destruct b; naive_solver. Qed.
Lemma queried_inl {A} (r : result A) a : queried r = inl a <-> r = Ok a.
Proof. destruct r; cbn; naive_solver. Qed.

Section facts.
Context (query : string -> result (option string * list (list json))) (other_float : string -> option float64).
Context (left : nat -> option duration) (now : time).
Abbreviation number := (num other_float).
(** All eight objects exist, the newest since before the window. *)
Definition summary_in_place (db : string) (start : time) : Prop :=
  exists n made, chRows query (objects_sql db (left 0)) = Ok [[n; made]] /\ f_eq (number n) (f_of_Z 8) = true /\
    is_nan (number made) = false /\ Truncate (Unix (f_to_int (number made))) minute + minute <= start.
(** The log of view failures is at least as old as the window, and still
    keeps its start; [0] is for ever. *)
Definition failures_logged (start : time) : Prop :=
  exists engine made rest keep, chRows query (views_log_sql (left 1)) = Ok ([engine; made] :: rest) /\ is_nan (number made) = false /\
    Unix (f_to_int (number made)) <= start /\ viewsLogRetention (text engine) = Some keep /\ (keep <= 0 \/ now - keep <= start).
Lemma check_objects_spec db start : check_objects query other_float left db start = inl tt -> summary_in_place db start.
Proof using.
  unfold check_objects, summary_in_place. rewrite cbind_inl. intros ([|[|n [|made [|]]] [|]] & Hr%queried_inl & H); try done.
  exists n, made. split; [done|]. change (length (summaryTables ++ summaryViews)) with 8%nat in H.
  destruct (f_eq (number n) _) eqn:En; [|done]. cbn [negb] in H. destruct (is_nan (number made)); [done|].
  apply require_inl in H. unfold time_before, time_add in H. split_and!; [done|done|lia].
Qed.
Lemma check_log_spec start : checkViewsLog query other_float left now start = inl tt -> failures_logged start.
Proof using.
  unfold checkViewsLog, failures_logged. rewrite cbind_inl. intros ([|[|engine [|made [|]]] rest] & Hr%queried_inl & H); try done.
  destruct (is_nan (number made)) eqn:En; [done|]. unfold time_before in H. destruct (start <? _) eqn:Es; [done|].
  destruct (viewsLogRetention (text engine)) as [keep|] eqn:Ek; [|done]. apply require_inl in H.
  exists engine, made, rest, keep. split_and!; [done|done|lia|done|]. unfold time_add in H. lia.
Qed.
Lemma check_failures_spec db start end_ : check_failures query other_float left db start end_ = inl tt ->
  chRows query (failures_sql db start end_ (left 2)) = Ok [].
Proof using.
  unfold check_failures. rewrite cbind_inl. by intros ([|[|view [|n [|]]] rest] & Hr%queried_inl & H).
Qed.

(** C20: ClickHouse serves only windows it covers.  If the read succeeds, then,
    with the minutes [from, to) it reads edges from: the eight summary objects
    exist and the minute in which the newest was created is over by [from];
    the failure log reaches back to the window and has no failed view in it;
    every five-minute bucket inside the window has rows of some node agent;
    an agent with rows in two buckets has rows in every bucket between; and
    when the running agents can be counted, the last bucket has rows of at
    least as many. *)
Theorem clickhouse_window_covered db start end_ p nodeAgents out :
  fetchClickHouse query other_float left now (Some db) start end_ p nodeAgents = inl out ->
  let from := Truncate start minute in
  let to := Truncate end_ minute in
  summary_in_place db from /\ failures_logged from /\ chRows query (failures_sql db from to (left 2)) = Ok [] /\
  exists rs agents, chRows query (agents_sql db from to (left 3)) = Ok rs /\ agent_rows other_float rs ∅ = inl agents /\
    covers from to agents /\ all_running nodeAgents from to agents.
Proof using.
  intros H from to. unfold fetchClickHouse in H. fold from to in H. destruct (_ || _); [done|].
  apply cbind_inl in H as ([] & H & _). unfold checkCoverage in H.
  apply cbind_inl in H as ([] & Ho & H). apply cbind_inl in H as ([] & Hl & H). apply cbind_inl in H as ([] & Hf & H).
  apply cbind_inl in H as (rs & Hr%queried_inl & H). apply cbind_inl in H as (agents & Ha & H).
  split_and!; [by apply check_objects_spec|by apply check_log_spec|by apply check_failures_spec|].
  exists rs, agents. split_and!; [done|done|by apply check_buckets_spec in H as [? _]|by apply check_buckets_spec in H as [_ ?]].
Qed.
End facts.

(** ** Witness: half an hour of two node agents *)
Definition noon : time := civil 2024 5 1 12 0 0 0.
Definition ten_past (n : Z) : time := noon + n * minute.
Definition num_of (t : time) : json := JFloat (f_of_Z (unix_seconds t)).
Definition toy_answers (sql : string) : result (option string * list (list json)) :=
  if has_prefix sql "SELECT count(), toUnix" then Ok (None, [[JStr "8"; num_of (ten_past (-60))]])
  else if has_prefix sql "SELECT engine_full" then Ok (None, [[JStr "SystemLog TTL event_date + toIntervalDay(8) SETTINGS a = 1"; num_of (ten_past (-600))]])
  else if has_prefix sql "SELECT view_name" then Ok (None, [])
  else if has_prefix sql "SELECT agent" then
    Ok (None, [[JStr "node-a"; JArr (map (fun n => num_of (ten_past n)) [0; 5; 10; 15; 20])];
               [JStr "node-b"; JArr (map (fun n => num_of (ten_past n)) [15; 10; 20])]])
  else Ok (None, []).
Definition toy_read (end_ : time) : covered (gmap string (list promResult)) :=
  fetchClickHouse toy_answers (fun _ => None) (fun _ => None) (ten_past 31) (Some "otel") noon end_ (MkParams "" "" "" "" 0) (Some (fun _ => Ok 2)).
Example late_window_refused : toy_read (ten_past 40) = inr (NoAgentRowsFor (unix_seconds (ten_past 25))).
Proof. vm_compute. reflexivity. Qed.
Lemma clickhouse_window_covered_witness : toy_read (ten_past 30) = inl ∅ /\
  chRows toy_answers (failures_sql "otel" (Truncate noon minute) (Truncate (ten_past 30) minute) None) = Ok [].
Proof.
  assert (toy_read (ten_past 30) = inl ∅) as H by (vm_compute; reflexivity). split; [exact H|].
  exact (proj1 (proj2 (proj2 (clickhouse_window_covered toy_answers (fun _ => None) (fun _ => None) (ten_past 31) "otel" noon (ten_past 30)
    (MkParams "" "" "" "" 0) (Some (fun _ => Ok 2)) ∅ H)))).
Defined.
