(* ===== verification/Interact.v ===== *)
(** * Computations that talk to the outside

    A handler that calls an API server, reads the clock and waits is a tree of
    calls: [Call c k] performs [c] and goes on with [k] on its answer.  [run]
    executes it against any environment, a function from the exchanges so far
    and the next call to an answer, so a theorem over all environments covers
    every behaviour of the outside, other writers included.  [wp] is the
    proof method: what holds of log and result when every answer meets a
    contract; [wp_run] relates the two. *)

From S2P Require Import Prelude.

#[local] Set Default Proof Using "Type".

Section computations.
Context {C : Type} {R : C -> Type}.

Inductive prog (A : Type) : Type :=
  | Ret (a : A)
  | Call (c : C) (k : R c -> prog A).
#[global] Arguments Ret {A} a.
#[global] Arguments Call {A} c k.

Fixpoint bind {A B} (p : prog A) (f : A -> prog B) : prog B :=
  match p with
  | Ret a => f a
  | Call c k => Call c (fun r => bind (k r) f)
  end.
Definition ask (c : C) : prog (R c) := Call c Ret.

(** A call with its answer. *)
Record event := Event { e_call : C; e_answer : R e_call }.
Abbreviation log := (list event).
Definition environment := log -> forall c, R c.

Fixpoint run {A} (env : environment) (p : prog A) (l : log) : log * A :=
  match p with
  | Ret a => (l, a)
  | Call c k => run env (k (env l c)) (l ++ [Event c (env l c)])
  end.

(** What the answers are known to satisfy, given the exchanges before. *)
Definition contract := log -> event -> Prop.
Definition honours (G : contract) (env : environment) : Prop := forall l c, G l (Event c (env l c)).
Definition anything : contract := fun _ _ => True.

Fixpoint wp {A} (G : contract) (p : prog A) (l : log) (Q : log -> A -> Prop) : Prop :=
  match p with
  | Ret a => Q l a
  | Call c k => forall r, G l (Event c r) -> wp G (k r) (l ++ [Event c r]) Q
  end.

Lemma wp_run {A} G env (p : prog A) l Q : honours G env -> wp G p l Q -> Q (run env p l).1 (run env p l).2.
Proof. intros HG. revert l. induction p as [a|c k IH]; intros l Hp; [done|]. apply IH, Hp, HG. Qed.
Lemma honours_anything env : honours anything env.
Proof. done. Qed.
Lemma wp_imp {A} G (p : prog A) l Q Q' : wp G p l Q -> (forall l a, Q l a -> Q' l a) -> wp G p l Q'.
Proof. intros Hp HQ. revert l Hp. induction p as [a|c k IH]; intros l Hp; [by apply HQ|]. intros r Hr. by apply IH, Hp. Qed.
Lemma wp_bind {A B} G (p : prog A) (f : A -> prog B) l Q :
  wp G p l (fun l' a => wp G (f a) l' Q) -> wp G (bind p f) l Q.
Proof. revert l. induction p as [a|c k IH]; intros l Hp; [done|]. intros r Hr. by apply IH, Hp. Qed.
Lemma wp_ask {B} G c (f : R c -> prog B) l Q :
  (forall r, G l (Event c r) -> wp G (f r) (l ++ [Event c r]) Q) -> wp G (bind (ask c) f) l Q.
Proof. done. Qed.
Lemma wp_ret {A} G (a : A) l (Q : log -> A -> Prop) : Q l a -> wp G (Ret a) l Q.
Proof. done. Qed.
(** Both at once: the first part is summarised by [Q]. *)
Lemma wp_seq {A B} G (p : prog A) (f : A -> prog B) l Q Q' :
  wp G p l Q -> (forall l' a, Q l' a -> wp G (f a) l' Q') -> wp G (bind p f) l Q'.
Proof. intros Hp Hf. by eapply wp_bind, wp_imp. Qed.
Lemma wp_and {A} G (p : prog A) l Q Q' : wp G p l Q -> wp G p l Q' -> wp G p l (fun l a => Q l a /\ Q' l a).
Proof. revert l. induction p as [a|c k IH]; intros l Hp Hp'; [done|]. intros r Hr. by apply IH; [apply Hp|apply Hp']. Qed.
Lemma wp_weaken {A} (G G' : contract) (p : prog A) l Q : wp G' p l Q -> (forall l e, G l e -> G' l e) -> wp G p l Q.
Proof. intros Hp HG. revert l Hp. induction p as [a|c k IH]; intros l Hp; [done|]. intros r Hr. by apply IH, Hp, HG. Qed.

(** ** The calls a computation makes

    [calls P p]: whatever is answered, every call of [p] satisfies [P], and
    the log only grows. *)
Definition extends (P : C -> Prop) (l l' : log) : Prop := exists d, l' = l ++ d /\ Forall (fun e => P (e_call e)) d.
Fixpoint calls {A} (P : C -> Prop) (p : prog A) : Prop :=
  match p with Ret _ => True | Call c k => P c /\ forall r, calls P (k r) end.
Lemma extends_refl P l : extends P l l.
Proof. exists []. by rewrite app_nil_r. Qed.
Lemma extends_trans P l l' l'' : extends P l l' -> extends P l' l'' -> extends P l l''.
Proof. intros (d & -> & Hd) (d' & -> & Hd'). exists (d ++ d'). rewrite <- app_assoc. split; [done|]. by apply Forall_app. Qed.
Lemma extends_one (P : C -> Prop) l c r : P c -> extends P l (l ++ [Event c r]).
Proof. intros Hc. exists [Event c r]. split; [done|]. by constructor. Qed.
Lemma calls_bind {A B} P (p : prog A) (f : A -> prog B) : calls P p -> (forall a, calls P (f a)) -> calls P (bind p f).
Proof. intros Hp Hf. induction p as [a|c k IH]; [apply Hf|]. destruct Hp. split; [done|]. intros r. by apply IH. Qed.
Lemma extends_event (P : C -> Prop) l e : P (e_call e) -> extends P l (l ++ [e]).
Proof. intros He. exists [e]. split; [done|]. by constructor. Qed.
Lemma calls_ret {A} P (a : A) : calls P (Ret a).
Proof. done. Qed.
Lemma calls_ask (P : C -> Prop) c : P c -> calls P (ask c).
Proof. done. Qed.
Lemma calls_ask_bind {B} (P : C -> Prop) c (f : R c -> prog B) : P c -> (forall r, calls P (f r)) -> calls P (bind (ask c) f).
Proof. done. Qed.
Lemma calls_wp {A} G P (p : prog A) l : calls P p -> wp G p l (fun l' _ => extends P l l').
Proof.
  revert l. induction p as [a|c k IH]; intros l Hp; [apply extends_refl|]. destruct Hp as [Hc Hk]. intros r _.
  eapply wp_imp; [by apply IH|]. intros l' a' Hl. exact (extends_trans P _ _ _ (extends_one P l c r Hc) Hl).
Qed.
Lemma calls_impl {A} (P P' : C -> Prop) (p : prog A) : calls P p -> (forall c, P c -> P' c) -> calls P' p.
Proof. intros Hp HP. induction p as [a|c k IH]; [done|]. destruct Hp. split; [by apply HP|]. intros r. by apply IH. Qed.
Lemma wp_calls {A B} G P (p : prog A) (f : A -> prog B) l Q : calls P p ->
  (forall l' a, extends P l l' -> wp G (f a) l' Q) -> wp G (bind p f) l Q.
Proof. intros Hp Hf. eapply wp_seq; [exact (calls_wp G P p l Hp)|]. done. Qed.
(** The log only grows. *)
Lemma wp_grows {A} G (p : prog A) l : wp G p l (fun l' _ => extends (fun _ => True) l l').
Proof. apply (calls_wp G (fun _ => True)). by induction p. Qed.
Lemma calls_run {A} P env (p : prog A) l : calls P p -> extends P l (run env p l).1.
Proof. intros Hp. exact (wp_run anything env p l (fun l' _ => extends P l l') (honours_anything env) (calls_wp _ P p l Hp)). Qed.
(** What is kept of a log is not changed by calls of which nothing is kept. *)
Lemma omap_silent {W} (keep : event -> option W) (P : C -> Prop) l l' :
  (forall e, P (e_call e) -> keep e = None) -> extends P l l' -> omap keep l' = omap keep l.
Proof.
  intros Hk (d & -> & Hd). rewrite omap_app. enough (omap keep d = []) as -> by by rewrite app_nil_r.
  induction Hd as [|e d He _ IH]; [done|]. cbn [omap list_omap]. by rewrite (Hk _ He).
Qed.
End computations.
#[global] Arguments prog {C} R A.
#[global] Arguments event {C} R.
#[global] Arguments environment {C} R.
#[global] Arguments contract {C} R.

Notation "'let!' x ':=' p 'in' q" := (bind p (fun x => q))
  (at level 200, x binder, p at level 100, q at level 200, right associativity) : agent_scope.
Notation "'let!' ' x ':=' p 'in' q" := (bind p (fun x => q))
  (at level 200, x strict pattern, p at level 100, q at level 200, right associativity) : agent_scope.

(** Splits a computation at its calls and case distinctions. *)
Ltac calls_step := first
  [apply calls_ret | apply calls_ask; done | apply calls_ask_bind; [try done|intros] | apply calls_bind; [|intros] | case_match | progress cbv zeta].
Ltac calls_all := intros; repeat calls_step.
