(* ===== verification/EnricherBlocks.v ===== *)
(** * Responses of the enriching actions (pkg/enrichers/finding.go)

    A response carries one finding with one piece of evidence, whose data is
    the text of an array of blocks; the data of a JSON block is again a
    text. *)

From S2P Require Import Prelude GoText GoJson GoMarshal GoCrypto GoFloat CanonJson.

Definition Block := list (string * json).

Definition PrometheusBlock (data : list (string * json)) (query : string) : Block :=
  [("type", JStr "prometheus"); ("data", JObj data);
   ("metadata", JObj [("query-result-version", JStr "1.0"); ("query", JStr query)]);
   ("version", JFloat (f_of_Z 1)); ("additional_info", JNull)].

Definition JSONBlock (payload : json) : result Block :=
  match marshal payload with
  | Some b => Ok [("type", JStr "json"); ("data", JStr b); ("additional_info", JNull)]
  | None => Err "json: unsupported value"
  end.

(** The text after the last dot. *)
Fixpoint file_extension (filename : string) (ext : option string) : string :=
  match filename with
  | String c r => file_extension r (if byte c =? 46 then Some r else ext)
  | EmptyString => default "" ext
  end.
Definition FileBlock (filename contents : string) : Block :=
  [("type", JStr (file_extension filename None)); ("filename", JStr filename);
   ("data", JStr ("b'" +:+ b64_encode contents +:+ "'")); ("additional_info", JNull)].
Definition MarkdownBlock (text : string) : Block :=
  [("type", JStr "markdown"); ("data", JStr text); ("additional_info", JNull)].

Definition nil_uuid : string := "00000000-0000-0000-0000-000000000000".
(** [fresh] is the UUID that is generated when none is given. *)
Definition FindingResponse (accountID findingID fresh : string) (blocks : list Block) : result (list (string * json)) :=
  let id := if bool_decide (findingID = nil_uuid) then fresh else findingID in
  match marshal (match blocks with [] => JNull | _ => JArr (map JObj blocks) end) with
  | None => Err "json: unsupported value"
  | Some encoded =>
    Ok [("success", JBool true);
        ("findings", JArr [JObj [("id", JStr id);
          ("evidence", JArr [JObj [("issue_id", JStr id); ("file_type", JStr "structured_data"); ("data", JStr encoded); ("account_id", JStr accountID)]])]])]
  end.

Definition ErrorResponse (msg : string) (code : Z) : list (string * json) :=
  [("success", JBool false); ("msg", JStr msg); ("error_code", JInt code)].

Example file_block : FileBlock "pod.log.gz" "hi" = [("type", JStr "gz"); ("filename", JStr "pod.log.gz"); ("data", JStr "b'aGk='"); ("additional_info", JNull)].
Proof. vm_compute. reflexivity. Qed.

(** ** What a caller reads back

    The steps of a caller: the first finding, its first evidence, the blocks
    in its data, the payload in the first block's data. *)
Definition first_of (v : json) : json := default JNull (head (as_arr v)).
Definition evidence_data (resp : list (string * json)) : string :=
  get_str (as_obj (first_of (mget (as_obj (first_of (mget (Some resp) "findings"))) "evidence"))) "data".
Definition payload_of (resp : list (string * json)) : option json :=
  blocks ← parse (evidence_data resp);
  parse (get_str (as_obj (first_of blocks)) "data").

Lemma evidence_data_response account id fresh blocks resp : FindingResponse account id fresh blocks = Ok resp ->
  marshal (match blocks with [] => JNull | _ => JArr (map JObj blocks) end) = Some (evidence_data resp).
Proof. unfold FindingResponse. destruct (marshal _) as [t|]; [|done]. by intros [= <-]. Qed.

Lemma payload_delivered account id fresh payload block resp :
  readable payload = true -> depth payload <= max_nesting_depth ->
  JSONBlock payload = Ok block -> FindingResponse account id fresh [block] = Ok resp ->
  payload_of resp = Some (decoded payload).
Proof.
  intros Hr Hd. unfold JSONBlock. destruct (marshal payload) as [t|] eqn:Et; [|done]. intros [= <-] Hf%evidence_data_response.
  unfold payload_of. assert (valid_utf8 t = true) as Ht by (by eapply utf8_valid, marshal_utf8).
  set (b := JArr _) in Hf. assert (readable b = true) as Hb by (cbn; by rewrite Ht).
  rewrite (marshal_parses b _ Hb ltac:(unfold max_nesting_depth; cbn; lia) Hf). cbn -[marshal parse]. by apply marshal_parses.
Qed.
