(* ===== verification/RunnerPods.v ===== *)
(** * Scripts in a pod of their own (pkg/podrunner)

    [Handle] of pod_script_run_enricher writes the script to a ConfigMap,
    starts a pod that runs it, polls the pod until it ends, reads its log and
    removes what it created.  The Kubernetes API, the clock, the wait and the
    UUID generator are the calls of the computation. *)

From S2P Require Import Prelude GoText GoJson GoMarshal GoCrypto GoFloat GoDuration CanonJson EnricherBlocks Interact.
From S2P Require Import KubeApi.

#[local] Set Default Proof Using "Type".

Record Runner := MkRunner {
  r_client : bool;  (* whether the client is configured *)
  DefaultNamespace : string;
  ServiceAccount : string;
  AccountID : string;
  PollInterval : duration }.
Definition New (cs : bool) (defaultNS sa accountID : string) : Runner := MkRunner cs defaultNS sa accountID (5 * second).

(** ** Objects *)
Record container := MkContainer {
  c_name : string; c_image : string; c_pull_policy : string; c_command : list string;
  c_env_from : list string;  (* names of secrets *)
  c_env : list (string * string);
  c_mounts : list (string * string) (* volume and path *) }.
Record pod := MkPod {
  p_namespace : string; p_name : string; p_service_account : string; p_restart_policy : string;
  p_containers : list container; p_volumes : list (string * string) (* name and ConfigMap *) }.
(** What the loop reads of a pod's status. *)
Record container_status := MkContainerStatus { cs_name : string; cs_waiting : option (string * string) (* reason, message *) }.
Record pod_status := MkPodStatus { ps_phase : string; ps_containers : list container_status; ps_init_containers : list container_status }.

(** ** Calls *)
Inductive request :=
  | NewUUID
  | Now
  | CtxErr                                    (* ctx.Err() *)
  | Wait (d : duration)                       (* the select on ctx.Done and time.After *)
  | CreateConfigMap (ns name script : string)
  | DeleteConfigMap (ns name : string)
  | CreatePod (p : pod)
  | DeletePod (ns name : string)
  | GetPod (ns name : string)
  | PodLog (ns name : string).                (* the reads up to the first error *)
(** An optional string is an error text. *)
Definition reply (q : request) : Type :=
  match q with
  | NewUUID => string
  | Now => time
  | CtxErr | Wait _ | CreateConfigMap _ _ _ | DeleteConfigMap _ _ | CreatePod _ | DeletePod _ _ => option string
  | GetPod _ _ => kube_error + pod_status
  | PodLog _ _ => string + list string
  end.
Abbreviation act := (prog reply).

(** ** Helpers *)
Definition failFastReasons : list string :=
  ["ImagePullBackOff"; "ErrImagePull"; "CreateContainerConfigError"; "InvalidImageName"; "CreateContainerError"; "RunContainerError"].
Fixpoint stuck_container (l : list container_status) : string :=
  match l with
  | [] => ""
  | cs :: l =>
    match cs_waiting cs with
    | Some (reason, message) =>
      if bool_decide (reason ∈ failFastReasons) then "container " +:+ cs_name cs +:+ " waiting: " +:+ reason +:+ " — " +:+ message
      else stuck_container l
    | None => stuck_container l
    end
  end.
Definition detectUnrecoverable (p : pod_status) : string := stuck_container (ps_containers p ++ ps_init_containers p).

Definition decodeStringMap (v : json) : list (string * string) :=
  match v with
  | JObj m => omap (fun kv => match kv.2 with JStr s => Some (kv.1, s) | _ => None end) m
  | _ => []
  end.
Definition shortUUID : act string := let! u := ask NewUUID in Ret (String.substring 0 8 (ReplaceAll u "-" "")).

Definition createConfigMap (ns name b64Script : string) : act (option string) := ask (CreateConfigMap ns name b64Script).
Definition deleteConfigMap (ns name : string) : act unit := let! _ := ask (DeleteConfigMap ns name) in Ret tt.
Definition deletePod (ns name : string) : act unit := let! _ := ask (DeletePod ns name) in Ret tt.
Definition script_pod (r : Runner) (ns name image cmName secret : string) (env : list (string * string)) : pod :=
  MkPod ns name (ServiceAccount r) "Never"
    [MkContainer "runner-container" image "IfNotPresent"
       ["sh"; "-c"; "base64 -d /mnt/script > /tmp/script.sh && sh /tmp/script.sh"]
       (if bool_decide (secret = "") then [] else [secret]) env [("script-volume", "/mnt")]]
    [("script-volume", cmName)].
Definition createPod (r : Runner) (ns name image cmName secret : string) (env : list (string * string)) : act (option string) :=
  ask (CreatePod (script_pod r ns name image cmName secret env)).

Definition readPodLogs (ns name : string) : act (result string) :=
  let! got := ask (PodLog ns name) in
  Ret (match got with
       | inl e => Err ("open log stream: " +:+ e)
       | inr reads => Ok (String.concat "" reads)
       end).

(** ** Waiting

    One look at the pod: [Some] when the loop returns. *)
Definition check_pod (ns name : string) : act (option (result string)) :=
  let! got := ask (GetPod ns name) in
  match got with
  | inl (NotFound _) => Ret (Some (Err ("pod " +:+ ns +:+ "/" +:+ name +:+ " disappeared during wait")))
  | inl _ => Ret None
  | inr p =>
    let reason := detectUnrecoverable p in
    if negb (bool_decide (reason = "")) then Ret (Some (Err reason))
    else if bool_decide (ps_phase p = "Succeeded") || bool_decide (ps_phase p = "Failed") then
      let! logs := readPodLogs ns name in Ret (Some logs)
    else Ret None
  end.
Fixpoint poll_pod (fuel : nat) (ns name : string) (timeout poll : duration) (deadline : time) : act (option (result string)) :=
  match fuel with
  | O => Ret None
  | S fuel =>
    let! cancelled := ask CtxErr in
    match cancelled with
    | Some e => Ret (Some (Err e))
    | None =>
      let! seen := check_pod ns name in
      match seen with
      | Some res => Ret (Some res)
      | None =>
        let! now := ask Now in
        if deadline <? now then Ret (Some (Err ("pod " +:+ ns +:+ "/" +:+ name +:+ " did not complete within " +:+ duration_string timeout)))
        else
          let! woken := ask (Wait poll) in
          match woken with
          | Some e => Ret (Some (Err e))
          | None => poll_pod fuel ns name timeout poll deadline
          end
      end
    end
  end.
Definition effective_timeout (timeout : duration) : duration := if timeout <=? 0 then minute else timeout.
Definition poll_interval (r : Runner) : duration := if PollInterval r <=? 0 then 5 * second else PollInterval r.
(** Rounds that suffice when the clock advances with the waits. *)
Definition poll_rounds (timeout poll : duration) : nat := Z.to_nat (timeout / poll) + 2.
Definition waitAndReadLogs (r : Runner) (ns name : string) (timeout : duration) : act (option (result string)) :=
  let timeout := effective_timeout timeout in
  let poll := poll_interval r in
  let! now := ask Now in
  poll_pod (poll_rounds timeout poll) ns name timeout poll (time_add now timeout).

(** ** The answer *)
Definition echoed : list string := ["env_from_secret_keys"; "env_variables"; "wait_threshold"].
Definition response_dict (params : gomap) (ns pod image command secret logs errMsg : string) : list (string * json) :=
  let base := [("type", JStr "pod_script_run_enricher"); ("namespace", JStr ns); ("pod_name", JStr pod); ("image", JStr image);
               ("command", JStr command); ("secret", JStr secret);
               ("response", JStr (if bool_decide (errMsg = "") then logs else errMsg))] in
  base ++ omap (fun k => if mhas params k then Some (k, mget params k) else None) echoed
       ++ (if bool_decide (errMsg = "") then [] else [("error", JStr errMsg)]).
Definition respond (r : Runner) (params : gomap) (ns pod image command secret logs errMsg : string) : act (list (string * json)) :=
  match JSONBlock (JObj (response_dict params ns pod image command secret logs errMsg)) with
  | Err e => Ret (ErrorResponse ("podrunner: marshal response: " +:+ e) 500)
  | Ok block =>
    let! fresh := ask NewUUID in
    Ret (match FindingResponse (AccountID r) nil_uuid fresh [block] with
         | Err e => ErrorResponse ("podrunner: build finding: " +:+ e) 500
         | Ok resp => resp
         end)
  end.

(** ** The request *)
Definition wait_minutes (params : gomap) : Z :=
  match mget params "wait_threshold" with
  | JFloat v => if f_le (f_of_Z 1) v then f_to_int v else 1
  | JInt v => if 1 <=? v then v else 1
  | _ => 1
  end.
(** The part of a secret before the first slash names its namespace. *)
Definition split_secret (namespace secret : string) : string * string :=
  match cut 47 secret with
  | Some (before, after) => (if bool_decide (namespace = "") then before else namespace, after)
  | None => (namespace, secret)
  end.
Definition or_default (s d : string) : string := if bool_decide (s = "") then d else s.
(** Everything after the two checks; the deferred removals run in reverse
    order once the response is built. *)
Definition run_script (r : Runner) (params : gomap) (image command podName namespace secret : string) : act (option (list (string * json))) :=
  let env := decodeStringMap (mget params "env_variables") in
  let! short := shortUUID in
  let cmName := "nb-script-" +:+ short in
  let answer logs errMsg := respond r params namespace podName image command secret logs errMsg in
  let! created := createConfigMap namespace cmName (b64_encode command) in
  match created with
  | Some e => let! resp := answer "" ("create configmap: " +:+ e) in Ret (Some resp)
  | None =>
    let! started := createPod r namespace podName image cmName secret env in
    match started with
    | Some e =>
      let! resp := answer "" ("create pod: " +:+ e) in
      let! _ := deleteConfigMap namespace cmName in
      Ret (Some resp)
    | None =>
      let! outcome := waitAndReadLogs r namespace podName (wrap64 (wait_minutes params * minute)) in
      match outcome with
      | None => Ret None
      | Some o =>
        let! resp := match o with Ok logs => answer logs "" | Err e => answer "" e end in
        let! _ := deletePod namespace podName in
        let! _ := deleteConfigMap namespace cmName in
        Ret (Some resp)
      end
    end
  end.
(** [None] only when the polling runs out of rounds. *)
Definition Handle (r : Runner) (params : gomap) : act (option (list (string * json))) :=
  if negb (r_client r) then Ret (Some (ErrorResponse "podrunner: kubernetes client not configured" 500)) else
  let image := get_str params "image" in
  let command := get_str params "command" in
  if bool_decide (image = "") then Ret (Some (ErrorResponse "pod_script_run_enricher: image is required" 400))
  else if bool_decide (command = "") then Ret (Some (ErrorResponse "pod_script_run_enricher: command is required" 400))
  else
    let '(namespace, secret) := split_secret (get_str params "namespace") (get_str params "secret") in
    let namespace := or_default namespace (DefaultNamespace r) in
    let! podName := (if bool_decide (get_str params "pod_name" = "") then let! u := ask NewUUID in Ret ("nb-pod-" +:+ u)
                     else Ret (get_str params "pod_name")) in
    run_script r params image command podName namespace secret.
Definition Handlers (r : Runner) : list (string * (gomap -> act (option (list (string * json))))) :=
  [("pod_script_run_enricher", Handle r)].

(** ** The clock *)
Definition tick (c : option time) (e : event reply) : option time :=
  match e with
  | Event q a =>
    match q return reply q -> option time with
    | Now => fun t => Some t
    | Wait d => fun err => match err with None => (fun c => c + d) <$> c | Some _ => c end
    | _ => fun _ => c
    end a
  end.
(** What the clock shows at least after the exchanges of a log. *)
Definition clock (l : list (event reply)) : option time := fold_left tick l None.
(** A clock reading is not before the last one plus the waits since. *)
Definition clock_ok : contract reply := fun l e =>
  match e with
  | Event q a =>
    match q return reply q -> Prop with
    | Now => fun t => match clock l with Some c => c <= t | None => True end
    | _ => fun _ => True
    end a
  end.
Definition timeless (q : request) : Prop := match q with Now | Wait _ => False | _ => True end.
Lemma clock_app l e : clock (l ++ [e]) = tick (clock l) e.
Proof. unfold clock. by rewrite fold_left_app. Qed.
Lemma clock_timeless l l' : extends timeless l l' -> clock l' = clock l.
Proof.
  intros (d & -> & Hd). unfold clock. rewrite fold_left_app. generalize (fold_left tick l None). induction Hd as [|[q a] d Hq _ IH]; intros c; [done|].
  cbn [fold_left]. rewrite IH. by destruct q.
Qed.
Lemma check_pod_timeless ns name : calls timeless (check_pod ns name).
Proof. unfold check_pod, readPodLogs. calls_all. Qed.
(** With a clock that advances, the rounds suffice. *)
Lemma polling_ends ns name timeout poll deadline fuel l c : 0 < poll -> (0 < fuel)%nat ->
  clock l = Some c -> deadline < c + poll * (Z.of_nat fuel - 1) ->
  wp clock_ok (poll_pod fuel ns name timeout poll deadline) l (fun _ o => is_Some o).
Proof.
  intros Hp. revert l c. induction fuel as [|fuel IH]; intros l c Hf Hc Hd; [lia|]. cbn [poll_pod].
  apply wp_ask. intros [e|] _; [by eexists|]. apply (wp_calls _ timeless); [apply check_pod_timeless|].
  intros l' [o|] Hl%clock_timeless; [by eexists|]. rewrite clock_app in Hl. cbn [tick] in Hl. rewrite Hc in Hl.
  apply wp_ask. intros t Ht. cbn in Ht. rewrite Hl in Ht. case_match eqn:Et; [by eexists|].
  apply wp_ask. intros [e|] _; [by eexists|]. apply IH with (c := t + poll).
  - lia.
  - by rewrite !clock_app.
  - lia.
Qed.
Lemma waiting_ends r ns name timeout l : wp clock_ok (waitAndReadLogs r ns name timeout) l (fun _ o => is_Some o).
Proof.
  unfold waitAndReadLogs. set (t := effective_timeout timeout). assert (0 < t) by (subst t; unfold effective_timeout, minute, second; case_match; lia).
  set (p := poll_interval r). assert (0 < p) by (subst p; unfold poll_interval, second; case_match; lia).
  apply wp_ask. intros now _. apply polling_ends with (c := now); [done|unfold poll_rounds; lia|by rewrite clock_app|].
  unfold time_add, poll_rounds. assert (0 <= t / p) by (apply Z.div_pos; lia). pose proof (Z.mul_succ_div_gt t p ltac:(lia)). nia.
Qed.

(** ** What a request leaves behind *)
Definition written (e : event reply) : option (request * bool) :=
  match e with
  | Event q a =>
    match q return reply q -> option (request * bool) with
    | CreateConfigMap ns n s => fun err => Some (CreateConfigMap ns n s, bool_decide (err = None))
    | DeleteConfigMap ns n => fun err => Some (DeleteConfigMap ns n, bool_decide (err = None))
    | CreatePod p => fun err => Some (CreatePod p, bool_decide (err = None))
    | DeletePod ns n => fun err => Some (DeletePod ns n, bool_decide (err = None))
    | _ => fun _ => None
    end a
  end.
(** The changes to the cluster, in order, with their success. *)
Definition writes (l : list (event reply)) : list (request * bool) := omap written l.
Definition reading (q : request) : Prop :=
  match q with CreateConfigMap _ _ _ | DeleteConfigMap _ _ | CreatePod _ | DeletePod _ _ => False | _ => True end.
Lemma pod_writes_app l l' : writes (l ++ l') = writes l ++ writes l'.
Proof. apply omap_app. Qed.
Lemma pod_writes_reading l l' : extends reading l l' -> writes l' = writes l.
Proof. apply omap_silent. by intros [[] a] H. Qed.
Lemma respond_reading r params ns pod image command secret logs err : calls reading (respond r params ns pod image command secret logs err).
Proof. unfold respond. by case_match. Qed.
Lemma check_pod_reading ns name : calls reading (check_pod ns name).
Proof. unfold check_pod, readPodLogs. calls_all. Qed.
Lemma poll_reading fuel ns name timeout poll deadline : calls reading (poll_pod fuel ns name timeout poll deadline).
Proof.
  induction fuel as [|fuel IH]; [done|]. cbn [poll_pod]. pose proof (check_pod_reading ns name). calls_all; done.
Qed.
Lemma waiting_reading r ns name timeout : calls reading (waitAndReadLogs r ns name timeout).
Proof. split; [done|]. intros t. apply poll_reading. Qed.

(** The pod a request stands for. *)
Definition request_image (params : gomap) : string := get_str params "image".
Definition request_command (params : gomap) : string := get_str params "command".
Definition request_namespace (r : Runner) (params : gomap) : string :=
  or_default (split_secret (get_str params "namespace") (get_str params "secret")).1 (DefaultNamespace r).
Definition request_secret (params : gomap) : string := (split_secret (get_str params "namespace") (get_str params "secret")).2.
Definition requested_pod (r : Runner) (params : gomap) (name cm : string) : pod :=
  script_pod r (request_namespace r params) name (request_image params) cm (request_secret params) (decodeStringMap (mget params "env_variables")).
(** Nothing, or the map alone because it could not be created, or the map
    and a pod, each removed if it was created: the pod first. *)
Definition tidy (r : Runner) (params : gomap) (w : list (request * bool)) : Prop :=
  let ns := request_namespace r params in
  w = [] \/ exists cm, let made := CreateConfigMap ns cm (b64_encode (request_command params)) in
    w = [(made, false)] \/
    exists name d, let p := requested_pod r params name cm in
      w = [(made, true); (CreatePod p, false); (DeleteConfigMap ns cm, d)] \/
      exists d', w = [(made, true); (CreatePod p, true); (DeletePod ns name, d); (DeleteConfigMap ns cm, d')].

Lemma run_script_tidy r params name l : writes l = [] ->
  wp clock_ok (run_script r params (request_image params) (request_command params) name (request_namespace r params) (request_secret params)) l
    (fun l o => is_Some o /\ tidy r params (writes l)).
Proof.
  intros Hl. unfold run_script, shortUUID, createConfigMap, createPod, deletePod, deleteConfigMap. cbv zeta. apply wp_bind, wp_ask. intros u _. cbn [wp]. set (cm := "nb-script-" +:+ _).
  set (made := CreateConfigMap _ cm _). set (started := CreatePod _). set (answer := respond _ _ _ _ _ _ _).
  assert (forall logs err, calls reading (answer logs err)) as Hanswer by (intros; apply respond_reading).
  apply (wp_ask _ made). intros [e|] _.
  - apply (wp_calls _ reading); [apply Hanswer|]. intros l' resp El%pod_writes_reading. apply wp_ret. split; [by eexists|]. right. exists cm. left.
    by rewrite El, !pod_writes_app, Hl.
  - apply (wp_ask _ started). intros [e|] _.
    + apply (wp_calls _ reading); [apply Hanswer|]. intros l' resp El%pod_writes_reading. apply wp_bind, wp_ask. intros d _. split; [by eexists|].
      right. exists cm. right. exists name, (bool_decide (d = None)). left. by rewrite pod_writes_app, El, !pod_writes_app, Hl.
    + eapply wp_seq; [apply wp_and; [apply waiting_ends|exact (calls_wp _ reading _ _ (waiting_reading _ _ _ _))]|].
      intros l' o [[res ->] El%pod_writes_reading]. apply (wp_calls _ reading); [destruct res; apply Hanswer|].
      intros l'' resp El'%pod_writes_reading. apply wp_bind, wp_ask. intros d _. cbn [wp]. apply wp_bind, wp_ask. intros d' _. split; [by eexists|].
      right. exists cm. right. exists name, (bool_decide (d = None)). right.
      exists (bool_decide (d' = None)). by rewrite !pod_writes_app, El', El, !pod_writes_app, Hl.
Qed.

(** C33: whatever the API server, the pod and the log stream do, and when the
    request is cancelled, a script request returns once the clock advances,
    and the cluster has been changed in one of three ways: not at all, by one
    failed attempt, or by the requested ConfigMap and pod, of which every
    object that was created has been deleted, pod first; nothing else is
    created or deleted, in particular no pod of the requested name that was
    there before. *)
Theorem runner_cleans_up r params env : honours clock_ok env ->
  is_Some (run env (Handle r params) []).2 /\ tidy r params (writes (run env (Handle r params) []).1).
Proof.
  intros Henv. apply (wp_run clock_ok env _ [] (fun l o => is_Some o /\ tidy r params (writes l)) Henv). unfold Handle. destruct (r_client r); [|split; [by eexists|by left]].
  cbn [negb]. case_bool_decide; [split; [by eexists|by left]|]. case_bool_decide; [split; [by eexists|by left]|].
  destruct (split_secret (get_str params "namespace") (get_str params "secret")) as [ns secret] eqn:Es.
  assert (or_default ns (DefaultNamespace r) = request_namespace r params) as -> by (unfold request_namespace; by rewrite Es).
  assert (secret = request_secret params) as -> by (unfold request_secret; by rewrite Es).
  apply wp_bind. case_bool_decide; [apply wp_ask; intros u _|]; apply wp_ret; by apply run_script_tidy.
Qed.

(** A cluster whose pod needs two looks, and one that never lets it start. *)
Definition looks (l : list (event reply)) : nat :=
  length (List.filter (fun e => match e_call e with GetPod _ _ => true | _ => false end) l).
Definition sample_env (status : nat -> pod_status) : environment reply := fun l q =>
  match q return reply q with
  | NewUUID => "0f8fad5b-d9cb-469f-a165-70867728950e"
  | Now => default 0 (clock l)
  | CtxErr | Wait _ | CreateConfigMap _ _ _ | DeleteConfigMap _ _ | CreatePod _ | DeletePod _ _ => None
  | GetPod _ _ => inr (status (looks l))
  | PodLog _ _ => inr ["hello "; "world"]
  end.
Lemma sample_clock status : honours clock_ok (sample_env status).
Proof. intros l q. destruct q; cbn; try done. destruct (clock l); [|done]. by cbn. Qed.
Definition sample_params : gomap :=
  Some [("image", JStr "busybox"); ("command", JStr "echo hello world"); ("secret", JStr "data/creds"); ("wait_threshold", JFloat (f_of_Z 2))].
Definition sample_runner : Runner := New true "nudgebee-agent" "runner" "acc".
Definition two_looks (n : nat) : pod_status := MkPodStatus (if (n <? 1)%nat then "Pending" else "Succeeded") [] [].
Definition never_ends (n : nat) : pod_status := MkPodStatus "Running" [] [].
Definition response_text (out : option (list (string * json))) : string :=
  get_str (as_obj (default JNull (resp ← out; payload_of resp))) "response".
Example script_output : response_text (run (sample_env two_looks) (Handle sample_runner sample_params) []).2 = "hello world".
Proof. vm_compute. reflexivity. Qed.
Example script_timeout : response_text (run (sample_env never_ends) (Handle sample_runner sample_params) []).2
  = "pod data/nb-pod-0f8fad5b-d9cb-469f-a165-70867728950e did not complete within 2m0s".
Proof. vm_compute. reflexivity. Qed.
(** A threshold too large for a duration wraps around and falls back to a
    minute. *)
Example huge_threshold : effective_timeout (wrap64 (wait_minutes (Some [("wait_threshold", JFloat (f_of_Z 200000000))]) * minute)) = minute.
Proof. vm_compute. reflexivity. Qed.

Lemma runner_cleans_up_witness :
  let ran := run (sample_env two_looks) (Handle sample_runner sample_params) [] in
  (is_Some ran.2 /\ tidy sample_runner sample_params (writes ran.1)) /\ length (writes ran.1) = 4%nat.
Proof. split; [exact (runner_cleans_up sample_runner sample_params (sample_env two_looks) (sample_clock two_looks))|vm_compute; reflexivity]. Defined.

(** The response carries the output, or the error, in its payload. *)
Lemma response_decodes r params ns pod image command secret logs err env l :
  let dict := response_dict params ns pod image command secret logs err in
  readable (JObj dict) = true -> depth (JObj dict) <= max_nesting_depth ->
  payload_of (run env (respond r params ns pod image command secret logs err) l).2 = Some (decoded (JObj dict)).
Proof.
  intros dict Hr Hd. destruct (marshal_readable_total _ Hr) as [t Ht]. unfold respond. fold dict. unfold JSONBlock at 1. rewrite Ht. cbn [run bind ask snd].
  set (block := [_; _; _]). assert (JSONBlock (JObj dict) = Ok block) as Hb by (unfold JSONBlock; by rewrite Ht).
  set (fresh := env l NewUUID). assert (is_Some (marshal (JArr (map JObj [block])))) as [t' Ht'].
  { apply marshal_readable_total. cbn. by rewrite (utf8_valid t) by (by eapply marshal_utf8). }
  destruct (FindingResponse (AccountID r) nil_uuid fresh [block]) as [resp|e] eqn:Ef; [by eapply payload_delivered|].
  unfold FindingResponse in Ef. by rewrite Ht' in Ef.
Qed.
