(* ===== verification/ScanJobs.v ===== *)
(** * Jobs on request of the backend (pkg/scanners)

    The four actions that create, watch, read and delete Kubernetes Jobs, the
    copies of pull secrets a Job may need, and the sweep that removes
    finished Jobs.  The corev1 types the agent passes through are a class of
    parameters with their JSON decoders. *)

From S2P Require Import Prelude GoText GoJson CanonJson GoStruct GoMarshal GoCrypto GoTime GoDuration Interact KubeApi.

#[local] Set Default Proof Using "Type".

(** corev1.Container, Volume, VolumeMount and ResourceRequirements. *)
Class PodParts := {
  Container : Type; Volume : Type; VolumeMount : Type; Resources : Type;
  no_resources : Resources;
  set_containers : list Container -> member -> list Container * bool;
  set_volumes : list Volume -> member -> list Volume * bool;
  set_mounts : list VolumeMount -> member -> list VolumeMount * bool;
  set_resources : Resources -> member -> Resources * bool }.

(** ** Constants *)
Definition jobTTLSeconds : Z := 600.
Definition jobBackoffLimit : Z := 0.
Definition minJobActiveDeadlineSeconds : Z := 1800.
Definition unschedulableGrace : duration := 5 * minute.
Definition defaultMaxConcurrent : Z := 5.
Definition defaultLogCapBytes : Z := Z.shiftl 64 20.
Definition managedByLabel : string := "app.kubernetes.io/managed-by".
Definition managedByValue : string := "nudgebee-agent".
Definition orchestratorLabel : string := "nudgebee.com/orchestrator".
Definition orchestratorValue : string := "api-server".
Definition jobUUIDLabel : string := "nudgebee.com/job-uuid".
Definition jobNameSelectorLabel : string := "job-name".
Definition copiedPullSecretLabel : string := "nudgebee.com/copied-pull-secret".
Definition reaperListLimit : Z := 100.
Definition reapGraceSeconds : Z := jobTTLSeconds.
(** The selector of the agent's own Jobs. *)
Definition managed_selector : string :=
  managedByLabel +:+ "=" +:+ managedByValue +:+ "," +:+ orchestratorLabel +:+ "=" +:+ orchestratorValue.
Definition pods_selector (jobName : string) : string := jobNameSelectorLabel +:+ "=" +:+ jobName.

Record Runner := MkRunner {
  r_Namespace : string; r_DefaultSA : string; r_MaxConcurrentJobs : Z; r_LogCapBytes : Z; r_AutoCopyPullSecrets : bool }.
Definition NewRunner (namespace serviceAccount : string) : Runner :=
  MkRunner (if bool_decide (namespace = "") then "nudgebee-agent" else namespace) serviceAccount defaultMaxConcurrent defaultLogCapBytes false.

(** ** Job specifications *)
Record PodRef := MkPodRef { pr_Namespace : string; pr_Name : string }.
Section spec.
Context {P : PodParts}.

Record JobSpec := MkSpec {
  NamePrefix : string; Image : string; Command : list string; Args : list string; Env : smap; ServiceAccount : string;
  Privileged : bool; HostPID : bool; HostNetwork : bool; NodeName : string; ImagePullPolicy : string; RunAsUser : option Z;
  InitContainers : list Container; Volumes : list Volume; VolumeMounts : list VolumeMount;
  ImagePullSecretsFrom : option PodRef; Resources_ : Resources; NodeSelector : smap; TimeoutHintSeconds : Z }.
Definition zero_spec : JobSpec :=
  MkSpec "" "" [] [] None "" false false false "" "" None [] [] [] None no_resources None 0.

Definition set_bool (old : bool) (m : member) : bool * bool :=
  match m_val m with JBool b => (b, true) | JNull => (old, true) | _ => (old, false) end.
(** A pointer: [null] resets it, otherwise a fresh or the present target. *)
Definition set_pointer {A} (decode : A -> member -> A * bool) (zero : A) (old : option A) (m : member) : option A * bool :=
  match m_val m with
  | JNull => (None, true)
  | _ => let '(a, ok) := decode (default zero old) m in (Some a, ok)
  end.
Definition pod_ref_fields : list string := ["namespace"; "name"].
Definition set_pod_ref_field (f : string) (m : member) (p : PodRef) : PodRef * bool :=
  if bool_decide (f = "namespace") then let '(s, ok) := set_string (pr_Namespace p) m in (MkPodRef s (pr_Name p), ok)
  else let '(s, ok) := set_string (pr_Name p) m in (MkPodRef (pr_Namespace p) s, ok).
Definition spec_fields : list string :=
  ["name_prefix"; "image"; "command"; "args"; "env"; "service_account"; "privileged"; "host_pid"; "host_network"; "node_name";
   "image_pull_policy"; "run_as_user"; "init_containers"; "volumes"; "volume_mounts"; "image_pull_secrets_from"; "resources";
   "node_selector"; "timeout_hint_seconds"].
Definition set_spec (f : string) (m : member) (s : JobSpec) : JobSpec * bool :=
  let 'MkSpec np im co ar en sa pr hp hn nn pp ru ic vo vm ps re ns th := s in
  let with_ {A} (r : A * bool) (k : A -> JobSpec) := (k r.1, r.2) in
  if bool_decide (f = "name_prefix") then with_ (set_string np m) (fun np => MkSpec np im co ar en sa pr hp hn nn pp ru ic vo vm ps re ns th)
  else if bool_decide (f = "image") then with_ (set_string im m) (fun im => MkSpec np im co ar en sa pr hp hn nn pp ru ic vo vm ps re ns th)
  else if bool_decide (f = "command") then with_ (set_string_list co (m_val m)) (fun co => MkSpec np im co ar en sa pr hp hn nn pp ru ic vo vm ps re ns th)
  else if bool_decide (f = "args") then with_ (set_string_list ar (m_val m)) (fun ar => MkSpec np im co ar en sa pr hp hn nn pp ru ic vo vm ps re ns th)
  else if bool_decide (f = "env") then with_ (set_string_map en m) (fun en => MkSpec np im co ar en sa pr hp hn nn pp ru ic vo vm ps re ns th)
  else if bool_decide (f = "service_account") then with_ (set_string sa m) (fun sa => MkSpec np im co ar en sa pr hp hn nn pp ru ic vo vm ps re ns th)
  else if bool_decide (f = "privileged") then with_ (set_bool pr m) (fun pr => MkSpec np im co ar en sa pr hp hn nn pp ru ic vo vm ps re ns th)
  else if bool_decide (f = "host_pid") then with_ (set_bool hp m) (fun hp => MkSpec np im co ar en sa pr hp hn nn pp ru ic vo vm ps re ns th)
  else if bool_decide (f = "host_network") then with_ (set_bool hn m) (fun hn => MkSpec np im co ar en sa pr hp hn nn pp ru ic vo vm ps re ns th)
  else if bool_decide (f = "node_name") then with_ (set_string nn m) (fun nn => MkSpec np im co ar en sa pr hp hn nn pp ru ic vo vm ps re ns th)
  else if bool_decide (f = "image_pull_policy") then with_ (set_string pp m) (fun pp => MkSpec np im co ar en sa pr hp hn nn pp ru ic vo vm ps re ns th)
  else if bool_decide (f = "run_as_user") then with_ (set_pointer set_int 0 ru m) (fun ru => MkSpec np im co ar en sa pr hp hn nn pp ru ic vo vm ps re ns th)
  else if bool_decide (f = "init_containers") then with_ (set_containers ic m) (fun ic => MkSpec np im co ar en sa pr hp hn nn pp ru ic vo vm ps re ns th)
  else if bool_decide (f = "volumes") then with_ (set_volumes vo m) (fun vo => MkSpec np im co ar en sa pr hp hn nn pp ru ic vo vm ps re ns th)
  else if bool_decide (f = "volume_mounts") then with_ (set_mounts vm m) (fun vm => MkSpec np im co ar en sa pr hp hn nn pp ru ic vo vm ps re ns th)
  else if bool_decide (f = "image_pull_secrets_from") then
    with_ (set_pointer (set_struct pod_ref_fields set_pod_ref_field) (MkPodRef "" "") ps m) (fun ps => MkSpec np im co ar en sa pr hp hn nn pp ru ic vo vm ps re ns th)
  else if bool_decide (f = "resources") then with_ (set_resources re m) (fun re => MkSpec np im co ar en sa pr hp hn nn pp ru ic vo vm ps re ns th)
  else if bool_decide (f = "node_selector") then with_ (set_string_map ns m) (fun ns => MkSpec np im co ar en sa pr hp hn nn pp ru ic vo vm ps re ns th)
  else with_ (set_int th m) (fun th => MkSpec np im co ar en sa pr hp hn nn pp ru ic vo vm ps re ns th).
Definition decodeJobSpec (params : gomap) : result JobSpec :=
  match mget params "spec" with
  | JNull => Err "schedule_k8s_job: spec is required"
  | raw =>
    match marshal raw with
    | None => Err "re-encode spec: "
    | Some encoded =>
      let '(spec, ok) := unmarshal_struct spec_fields set_spec encoded zero_spec in
      if ok then Ok spec else Err "decode spec: "
    end
  end.

(** ** The Job *)
Record security_context := MkSecurity { sc_Privileged : option bool; sc_RunAsUser : option Z }.
Record main_container := MkMain {
  mc_Name : string; mc_Image : string; mc_Command : list string; mc_Args : list string; mc_Env : list (string * string);
  mc_VolumeMounts : list VolumeMount; mc_Resources : Resources; mc_ImagePullPolicy : string; mc_SecurityContext : option security_context }.
Record pod_spec := MkPodSpec {
  RestartPolicy : string; ps_InitContainers : list Container; Main : main_container; ps_HostPID : bool; ps_HostNetwork : bool;
  ps_NodeName : string; ps_NodeSelector : smap; ServiceAccountName : string; ps_Volumes : list Volume; ImagePullSecrets : list string }.
Record new_job := MkNewJob {
  nj_Name : string; nj_Namespace : string; nj_Labels : list (string * string);
  BackoffLimit : Z; TTLSecondsAfterFinished : Z; ActiveDeadlineSeconds : Z; Suspend : option bool;
  TemplateLabels : list (string * string); Template : pod_spec }.

Definition BuildJob (r : Runner) (spec : JobSpec) (jobName jobUUID : string) : new_job :=
  let container := MkMain "scanner" (Image spec) (Command spec) (Args spec) (default [] (Env spec)) (VolumeMounts spec) (Resources_ spec)
    (ImagePullPolicy spec)
    (if Privileged spec || bool_decide (is_Some (RunAsUser spec))
     then Some (MkSecurity (if Privileged spec then Some true else None) (RunAsUser spec)) else None) in
  let saName := if bool_decide (ServiceAccount spec = "") then r_DefaultSA r else ServiceAccount spec in
  let deadline := if minJobActiveDeadlineSeconds <? TimeoutHintSeconds spec then TimeoutHintSeconds spec else minJobActiveDeadlineSeconds in
  MkNewJob jobName (r_Namespace r)
    [(managedByLabel, managedByValue); (orchestratorLabel, orchestratorValue); (jobUUIDLabel, jobUUID)]
    jobBackoffLimit jobTTLSeconds deadline None [(jobNameSelectorLabel, jobName)]
    (MkPodSpec "Never" (InitContainers spec) container (HostPID spec) (HostNetwork spec) (NodeName spec) (NodeSelector spec) saName
       (Volumes spec) []).
(** The pull secrets are referenced before they exist, so the Job waits. *)
Definition with_pull_secrets (names : list string) (j : new_job) : new_job :=
  let 'MkNewJob n ns ls bo ttl dl su tl t := j in
  let 'MkPodSpec rp ic mc hp hn nn sel sa vo ps := t in
  MkNewJob n ns ls bo ttl dl (match names with [] => su | _ => Some true end) tl (MkPodSpec rp ic mc hp hn nn sel sa vo (ps ++ names)).
End spec.
#[global] Arguments JobSpec : clear implicits.
#[global] Arguments new_job : clear implicits.

(** ** Names

    [lower] is [unicode.ToLower] outside ASCII. *)
Section names.
Context (lower : Z -> Z).
Definition to_lower_rune (r : Z) : Z := if r <? 128 then (if in_range 65 90 r then r + 32 else r) else lower r.
Definition dns_rune (r : Z) : bool := in_range 97 122 r || in_range 48 57 r.
Fixpoint dashed (prevDash : bool) (l : list Z) : string :=
  match l with
  | [] => ""
  | r :: l =>
    if dns_rune r then String (chr r) (dashed false l)
    else if prevDash then dashed true l else String (chr 45) (dashed true l)
  end.
Fixpoint trim_dashes (s : string) : string :=
  match s with String c r => if byte c =? 45 then trim_dashes r else s | EmptyString => "" end.
Definition sanitizeDNSPrefix (s : string) : string :=
  srev (trim_dashes (srev (trim_dashes (dashed false (map to_lower_rune (runes s)))))).
Definition max_prefix : nat := 63 - 1 - 8.
(** [random] is the outcome of reading four random bytes. *)
Definition makeJobName (prefix : string) (random : result string) : result string :=
  let clean := sanitizeDNSPrefix prefix in
  if bool_decide (clean = "") then Err "name_prefix is required and must contain at least one DNS-1123 character"
  else match random with
       | Err e => Err ("rand: " +:+ e)
       | Ok buf => Ok (stake max_prefix clean +:+ "-" +:+ hex_encode buf)
       end.
End names.
Definition copiedSecretName (jobName srcNamespace srcName : string) : string :=
  "imgps-" +:+ jobName +:+ "-" +:+ stake 8 (hex_encode (sha256 (srcNamespace +:+ "/" +:+ srcName))).

(** ** What the agent reads of Jobs and pods *)
Record condition := MkCondition { cd_Type : string; cd_Status : string; cd_Reason : string; cd_Message : string; cd_Since : time }.
Record job := MkJob {
  j_Name : string; j_UID : string; j_Conditions : list condition; j_Active : Z; j_Succeeded : Z; j_Failed : Z;
  j_StartTime : option time; j_CompletionTime : option time }.
Record container_status := MkStatus { st_Name : string; st_Waiting : option (string * string) (* reason, message *) }.
Record job_pod := MkJobPod { jp_Name : string; jp_Init : list container_status; jp_Containers : list container_status; jp_Conditions : list condition }.
Record secret := MkSecret { s_Type : string; s_Data : list (string * string) }.
Record owner_reference := MkOwner { o_APIVersion : string; o_Kind : string; o_Name : string; o_UID : string }.
Record new_secret := MkNewSecret {
  ns_Name : string; ns_Namespace : string; ns_Labels : list (string * string); ns_Type : string; ns_Data : list (string * string);
  ns_Owners : list owner_reference }.

Definition ends (c : condition) : bool :=
  bool_decide (cd_Status c = "True") && (bool_decide (cd_Type c = "Complete") || bool_decide (cd_Type c = "Failed")).
Definition jobIsTerminal (j : job) : bool := existsb ends (j_Conditions j).
Definition jobStatusSnapshot (j : job) : string * string :=
  match List.find ends (j_Conditions j) with Some c => (cd_Type c, cd_Message c) | None => ("Running", "") end.
Definition jobFinishedAt (j : job) : option time :=
  if negb (jobIsTerminal j) then None
  else match j_CompletionTime j with
       | Some t => Some t
       | None => cd_Since <$> List.find ends (j_Conditions j)
       end.

(** ** Calls *)
Inductive request {P : PodParts} :=
  | ListJobs (ns selector : string) (limit : option Z)
  | CreateJob (ns : string) (j : new_job P)
  | PatchJob (ns name body : string)
  | GetJob (ns name : string)
  | DeleteJob (ns name : string)                  (* background propagation *)
  | ListPods (ns selector : string)
  | PodLog (ns name : string)                     (* the reads up to the first error *)
  | GetTargetPod (ns name : string)               (* pull secrets, service account *)
  | GetServiceAccount (ns name : string)          (* pull secrets *)
  | GetSecret (ns name : string)
  | CreateSecret (ns : string) (s : new_secret)
  | RandomBytes
  | NewUUID
  | Now.
Definition reply {P : PodParts} (q : request) : Type :=
  match q with
  | ListJobs _ _ _ => string + list job
  | CreateJob _ _ => string + job
  | PatchJob _ _ _ => option string
  | GetJob _ _ => kube_error + job
  | DeleteJob _ _ => option kube_error
  | ListPods _ _ => string + list job_pod
  | PodLog _ _ => string + list string
  | GetTargetPod _ _ => string + list string * string
  | GetServiceAccount _ _ => string + list string
  | GetSecret _ _ => string + secret
  | CreateSecret _ _ => option kube_error
  | RandomBytes => result string
  | NewUUID => string
  | Now => time
  end.

Section runner.
Context {P : PodParts} (lower : Z -> Z) (gzip : string -> string) (order : list string -> list string).
Context (r : Runner).
Abbreviation act := (prog reply).
Abbreviation ns := (r_Namespace r).

Definition listManagedJobs : act (result Z) :=
  let! jobs := ask (ListJobs ns managed_selector None) in
  Ret (match jobs with
       | inl e => Err e
       | inr l => Ok (Z.of_nat (length (List.filter (fun j => negb (jobIsTerminal j)) l)))
       end).

(** *** Pull secrets *)
Definition registry_type (t : string) : bool :=
  bool_decide (t = "kubernetes.io/dockerconfigjson") || bool_decide (t = "kubernetes.io/dockercfg").
Definition add_names (names more : list string) : list string :=
  foldl (fun acc s => if bool_decide (s = "") || bool_decide (s ∈ acc) then acc else acc ++ [s]) names more.
Definition secret_copy (ref : PodRef) (jobName name : string) (src : secret) : new_secret :=
  MkNewSecret (copiedSecretName jobName (pr_Namespace ref) name) ns [(managedByLabel, managedByValue); (copiedPullSecretLabel, "true")]
    (s_Type src) (s_Data src) [].
Fixpoint copy_secrets (ref : PodRef) (jobName : string) (names : list string) : act (list new_secret) :=
  match names with
  | [] => Ret []
  | name :: names =>
    let! src := ask (GetSecret (pr_Namespace ref) name) in
    let! rest := copy_secrets ref jobName names in
    Ret (match src with
         | inl _ => rest
         | inr src => if registry_type (s_Type src) then secret_copy ref jobName name src :: rest else rest
         end)
  end.
(** The names are a map in the code; [order] is the order of its iteration. *)
Definition resolvePullSecrets (ref : PodRef) (jobName : string) : act (list new_secret) :=
  let! got := ask (GetTargetPod (pr_Namespace ref) (pr_Name ref)) in
  match got with
  | inl _ => Ret []
  | inr (secrets, serviceAccount) =>
    let saName := if bool_decide (serviceAccount = "") then "default" else serviceAccount in
    let! sa := ask (GetServiceAccount (pr_Namespace ref) saName) in
    let names := add_names [] secrets in
    let names := match sa with inl _ => names | inr more => add_names names more end in
    copy_secrets ref jobName (order names)
  end.
Definition owned_by (j : job) (s : new_secret) : new_secret :=
  let 'MkNewSecret n m ls t d os := s in MkNewSecret n m ls t d (os ++ [MkOwner "batch/v1" "Job" (j_Name j) (j_UID j)]).
Fixpoint createOwnedSecrets (secrets : list new_secret) (j : job) : act unit :=
  match secrets with
  | [] => Ret tt
  | s :: secrets => let! _ := ask (CreateSecret ns (owned_by j s)) in createOwnedSecrets secrets j
  end.

(** *** schedule_k8s_job *)
Definition resume_patch : string := "{" +:+ dquote +:+ "spec" +:+ dquote +:+ ":{" +:+ dquote +:+ "suspend" +:+ dquote +:+ ":false}}".
Definition resumeJob (jobName : string) : act (option string) := ask (PatchJob ns jobName resume_patch).
Definition deleteJobCascade (jobName : string) : act (option kube_error) := ask (DeleteJob ns jobName).
Definition job_limit : Z := if r_MaxConcurrentJobs r <=? 0 then defaultMaxConcurrent else r_MaxConcurrentJobs r.
Definition limit_reached (active : Z) : list (string * json) :=
  [("success", JBool false); ("error", JStr "concurrent_job_limit"); ("limit", JInt job_limit); ("active", JInt active)].
Definition scheduled (created : job) (jobUUID : string) : list (string * json) :=
  [("success", JBool true); ("job_name", JStr (j_Name created)); ("job_uuid", JStr jobUUID)].
(** From the finished Job description on. *)
Definition submit (job : new_job P) (pending : list new_secret) (jobUUID : string) : act (result (list (string * json))) :=
  let! created := ask (CreateJob ns (with_pull_secrets (map ns_Name pending) job)) in
  match created with
  | inl e => Ret (Err ("schedule_k8s_job: create: " +:+ e))
  | inr created =>
    match pending with
    | [] => Ret (Ok (scheduled created jobUUID))
    | _ =>
      let! _ := createOwnedSecrets pending created in
      let! resumed := resumeJob (j_Name created) in
      match resumed with
      | None => Ret (Ok (scheduled created jobUUID))
      | Some e =>
        let! _ := deleteJobCascade (j_Name created) in
        Ret (Err ("schedule_k8s_job: resume suspended job: " +:+ e))
      end
    end
  end.
Definition handleScheduleJob (params : gomap) : act (result (list (string * json))) :=
  match decodeJobSpec params with
  | Err e => Ret (Err e)
  | Ok spec =>
    if bool_decide (NamePrefix spec = "") then Ret (Err "schedule_k8s_job: name_prefix is required")
    else if bool_decide (Image spec = "") then Ret (Err "schedule_k8s_job: image is required")
    else
      let! active := listManagedJobs in
      match active with
      | Err e => Ret (Err ("schedule_k8s_job: list active jobs: " +:+ e))
      | Ok active =>
        if job_limit <=? active then Ret (Ok (limit_reached active))
        else
          let! random := (if bool_decide (sanitizeDNSPrefix lower (NamePrefix spec) = "") then Ret (Ok "") else ask RandomBytes) in
          match makeJobName lower (NamePrefix spec) random with
          | Err e => Ret (Err ("schedule_k8s_job: " +:+ e))
          | Ok jobName =>
            let! jobUUID := ask NewUUID in
            let job := BuildJob r spec jobName jobUUID in
            let! pending := match ImagePullSecretsFrom spec with
                            | Some ref => if r_AutoCopyPullSecrets r then resolvePullSecrets ref jobName else Ret []
                            | None => Ret []
                            end in
            submit job pending jobUUID
          end
      end
  end.

(** *** wait_for_k8s_job *)
Definition pull_reasons : list string := ["ImagePullBackOff"; "ErrImagePull"; "ErrImageNeverPull"].
Definition pull_stuck (quote : string -> string) (l : list container_status) : option string :=
  match List.find (fun cs => match st_Waiting cs with Some (reason, _) => bool_decide (reason ∈ pull_reasons) | None => false end) l with
  | Some cs => Some ("image pull failed for container " +:+ quote (st_Name cs) +:+ ": " +:+ default "" (snd <$> st_Waiting cs))
  | None => None
  end.
Fixpoint first_stuck (quote : string -> string) (pods : list job_pod) : option string :=
  match pods with
  | [] => None
  | p :: pods =>
    match pull_stuck quote (jp_Init p) with
    | Some msg => Some msg
    | None => match pull_stuck quote (jp_Containers p) with Some msg => Some msg | None => first_stuck quote pods end
    end
  end.
Definition imagePullFailure (quote : string -> string) (jobName : string) : act (option string) :=
  let! pods := ask (ListPods ns (pods_selector jobName)) in
  Ret (match pods with inl _ => None | inr l => first_stuck quote l end).
Definition waits_for_node (now : time) (c : condition) : bool :=
  bool_decide (cd_Type c = "PodScheduled") && bool_decide (cd_Status c = "False") && bool_decide (cd_Reason c = "Unschedulable")
  && (unschedulableGrace <? time_sub now (cd_Since c)).
Definition unschedulable (jobName : string) (now : time) : act (option string) :=
  let! pods := ask (ListPods ns (pods_selector jobName)) in
  Ret (match pods with
       | inl _ => None
       | inr l => (fun c => "unschedulable: " +:+ cd_Message c) <$> List.find (waits_for_node now) (concat (map jp_Conditions l))
       end).
Definition status_answer (j : job) (status reason : string) : list (string * json) :=
  [("status", JStr status); ("failure_reason", JStr reason); ("active", JInt (j_Active j)); ("succeeded", JInt (j_Succeeded j));
   ("failed", JInt (j_Failed j))]
  ++ (match j_StartTime j with Some t => [("start_time", JStr (format_rfc3339 t))] | None => [] end)
  ++ (match j_CompletionTime j with Some t => [("completion_time", JStr (format_rfc3339 t))] | None => [] end).
Definition handleWaitForJob (quote : string -> string) (params : gomap) : act (result (list (string * json))) :=
  let jobName := get_str params "job_name" in
  if bool_decide (jobName = "") then Ret (Err "wait_for_k8s_job: job_name is required") else
  let! got := ask (GetJob ns jobName) in
  match got with
  | inl (NotFound _) =>
    Ret (Ok [("status", JStr "NotFound"); ("failure_reason", JStr "job no longer exists (TTL expired or never created)")])
  | inl e => Ret (Err ("wait_for_k8s_job: get: " +:+ error_text e))
  | inr j =>
    let '(status, reason) := jobStatusSnapshot j in
    if bool_decide (status = "Running") then
      let! stuck := imagePullFailure quote jobName in
      match stuck with
      | Some msg => Ret (Ok (status_answer j "Failed" msg))
      | None =>
        let! now := ask Now in
        let! stuck := unschedulable jobName now in
        match stuck with
        | Some msg => Ret (Ok (status_answer j "Failed" msg))
        | None => Ret (Ok (status_answer j status reason))
        end
      end
    else Ret (Ok (status_answer j status reason))
  end.

(** *** get_k8s_job_logs

    The state of the loop: what is kept, how many bytes are dropped. *)
Definition log_cap : Z := if r_LogCapBytes r <=? 0 then defaultLogCapBytes else r_LogCapBytes r.
Definition take_read (cap : Z) (st : string * Z) (buf : string) : string * Z :=
  let '(out, dropped) := st in
  let room := cap - Z.of_nat (strlen out) in
  let n := Z.of_nat (strlen buf) in
  if room <=? 0 then (out, dropped + n)
  else if n <=? room then (out +:+ buf, dropped)
  else (out +:+ stake (Z.to_nat room) buf, dropped + (n - room)).
Definition fetchPodLogs (jobName : string) : act (result (string * bool * Z)) :=
  let! pods := ask (ListPods ns (pods_selector jobName)) in
  match pods with
  | inl e => Ret (Err e)
  | inr [] => Ret (Err "no pods found for job")
  | inr (p :: _) =>
    let! stream := ask (PodLog ns (jp_Name p)) in
    Ret (match stream with
         | inl e => Err e
         | inr reads => let '(out, dropped) := foldl (take_read log_cap) ("", 0) reads in Ok (out, 0 <? dropped, dropped)
         end)
  end.
Definition handleGetJobLogs (params : gomap) : act (result (list (string * json))) :=
  let jobName := get_str params "job_name" in
  if bool_decide (jobName = "") then Ret (Err "get_k8s_job_logs: job_name is required") else
  let! got := fetchPodLogs jobName in
  Ret (match got with
       | Err e => Err ("get_k8s_job_logs: " +:+ e)
       | Ok (stdout, truncated, dropped) =>
         Ok [("stdout_b64_gzip", JStr (b64_encode (gzip stdout))); ("stdout_size", JInt (Z.of_nat (strlen stdout)));
             ("truncated", JBool truncated); ("stdout_bytes_dropped", JInt dropped)]
       end).

(** *** delete_k8s_job and the sweep *)
Definition delete_failed (e : option kube_error) : option string :=
  match e with None | Some (NotFound _) => None | Some e => Some (error_text e) end.
Definition handleDeleteJob (params : gomap) : act (result (list (string * json))) :=
  let jobName := get_str params "job_name" in
  if bool_decide (jobName = "") then Ret (Err "delete_k8s_job: job_name is required") else
  let! e := deleteJobCascade jobName in
  Ret (match delete_failed e with
       | Some e => Err ("delete_k8s_job: " +:+ e)
       | None => Ok [("deleted", JBool true)]
       end).
Definition reap_due (now : time) (j : job) : bool :=
  match jobFinishedAt j with Some t => negb (time_sub now t <? reapGraceSeconds * second) | None => false end.
Fixpoint reap (now : time) (jobs : list job) (deleted : Z) : act Z :=
  match jobs with
  | [] => Ret deleted
  | j :: jobs =>
    if reap_due now j then
      let! e := deleteJobCascade (j_Name j) in
      reap now jobs (match delete_failed e with Some _ => deleted | None => deleted + 1 end)
    else reap now jobs deleted
  end.
Definition reapFinishedJobs (now : time) : act Z :=
  let! jobs := ask (ListJobs ns managed_selector (Some reaperListLimit)) in
  match jobs with
  | inl _ => Ret 0
  | inr l => reap now l 0
  end.
Definition Handlers (quote : string -> string) : list (string * (gomap -> act (result (list (string * json))))) :=
  [("schedule_k8s_job", handleScheduleJob); ("wait_for_k8s_job", handleWaitForJob quote);
   ("get_k8s_job_logs", handleGetJobLogs); ("delete_k8s_job", handleDeleteJob)].
End runner.

(** ** Names are DNS labels *)
Definition dns_char (c : ascii) : bool := in_range 97 122 (byte c) || in_range 48 57 (byte c) || (byte c =? 45).
Definition no_dash_first (s : string) : bool := match s with String c _ => negb (byte c =? 45) | EmptyString => false end.
(** At most 63 characters of [a-z0-9-], with no dash at either end. *)
Definition dns_label (s : string) : bool :=
  all_of dns_char s && no_dash_first s && no_dash_first (srev s) && (strlen s <=? 63)%nat.

Lemma all_of_srev p s : all_of p (srev s) = all_of p s.
Proof. induction s as [|c s IH]; [done|]. rewrite srev_cons, all_of_app, IH. cbn [all_of]. by rewrite andb_true_r, andb_comm. Qed.
Lemma all_of_stake p n s : all_of p s = true -> all_of p (stake n s) = true.
Proof. revert n. induction s as [|c s IH]; intros [|n]; [done..|]. cbn. intros [-> Hs]%andb_prop. by apply IH. Qed.
Lemma dashed_chars b l : all_of dns_char (dashed b l) = true.
Proof.
  revert b. induction l as [|x l IH]; intros b; [done|]. cbn [dashed]. case_match eqn:E.
  - cbn [all_of]. rewrite IH, andb_true_r. unfold dns_char. unfold dns_rune in E. apply orb_prop in E.
    assert (0 <= x < 256) by (destruct E as [E|E]; apply in_range_true in E; lia). rewrite byte_chr by done. by destruct E as [-> | ->]; rewrite ?orb_true_r.
  - destruct b; [apply IH|]. cbn [all_of]. by rewrite IH.
Qed.
Lemma trim_dashes_all p s : all_of p s = true -> all_of p (trim_dashes s) = true.
Proof. induction s as [|c s IH]; [done|]. cbn. intros [Hc Hs]%andb_prop. case_match; [by apply IH|]. cbn. by rewrite Hc, Hs. Qed.
Lemma trim_dashes_first s : trim_dashes s = "" \/ no_dash_first (trim_dashes s) = true.
Proof. induction s as [|c s IH]; [by left|]. cbn. case_match eqn:E; [done|]. right. cbn. by rewrite E. Qed.
(** Trimming the end keeps the first character. *)
Lemma trim_end_first s : srev (trim_dashes (srev s)) <> "" -> no_dash_first s = true -> no_dash_first (srev (trim_dashes (srev s))) = true.
Proof.
  assert (forall t, exists d, srev t = srev (trim_dashes t) +:+ d) as Hd.
  { induction t as [|c t [d Hd]]; [by exists ""|]. cbn [trim_dashes]. case_match; [|exists ""; by rewrite sapp_nil_r].
    exists (d +:+ String c ""). by rewrite srev_cons, Hd, sapp_assoc. }
  destruct (Hd (srev s)) as [d Ed]. rewrite srev_involutive in Ed. revert Ed. generalize (srev (trim_dashes (srev s))). by intros [|c u] ->.
Qed.
Lemma sanitized_prefix lower s : sanitizeDNSPrefix lower s <> "" ->
  all_of dns_char (sanitizeDNSPrefix lower s) = true /\ no_dash_first (sanitizeDNSPrefix lower s) = true.
Proof.
  unfold sanitizeDNSPrefix. set (t := trim_dashes (dashed false _)). intros Hne. split.
  - rewrite all_of_srev. apply trim_dashes_all. rewrite all_of_srev. apply trim_dashes_all, dashed_chars.
  - apply trim_end_first; [done|]. destruct (trim_dashes_first (dashed false (map (to_lower_rune lower) (runes s)))) as [E|E]; [|done].
    fold t in E. by rewrite E in Hne.
Qed.
Lemma stake_le n s : (strlen (stake n s) <= n)%nat.
Proof. revert s. unfold stake, strlen. induction n as [|n IH]; intros [|c s]; cbn [String.substring String.length]; [lia..|]. specialize (IH s). lia. Qed.
Lemma stake_first n s : (0 < n)%nat -> no_dash_first s = true -> no_dash_first (stake n s) = true.
Proof. destruct n, s; try done. lia. Qed.
Lemma hex_encode_chars s : all_of (fun c => dns_char c && negb (byte c =? 45)) (hex_encode s) = true.
Proof.
  assert (forall d, 0 <= d < 16 -> dns_char (hex_lower d) && negb (byte (hex_lower d) =? 45) = true) as Hd.
  { intros d Hd. assert (exists n : nat, (n < 16)%nat /\ d = Z.of_nat n) as (n & Hn & ->) by (exists (Z.to_nat d); lia).
    do 16 (destruct n as [|n]; [vm_compute; reflexivity|]). lia. }
  induction s as [|c s IH]; [done|]. cbn [hex_encode all_of]. pose proof (byte_range c).
  rewrite IH, !Hd by div_lia. done.
Qed.
Lemma strlen_srev s : strlen (srev s) = strlen s.
Proof. induction s as [|c s IH]; [done|]. rewrite srev_cons, strlen_app, IH, !strlen_cons. change (strlen "") with 0%nat. lia. Qed.
Lemma hex_encode_length s : strlen (hex_encode s) = (2 * strlen s)%nat.
Proof. induction s as [|c s IH]; [done|]. cbn [hex_encode]. rewrite !strlen_cons, IH. lia. Qed.
(** A generated name is a DNS label whatever prefix was asked for. *)
Lemma makeJobName_label lower prefix buf name : strlen buf = 4%nat -> makeJobName lower prefix (Ok buf) = Ok name -> dns_label name = true.
Proof.
  intros Hb. unfold makeJobName. case_bool_decide as Hne; [done|]. intros [= <-]. destruct (sanitized_prefix lower prefix Hne) as [Hc Hf].
  set (p := sanitizeDNSPrefix lower prefix) in *. pose proof (hex_encode_chars buf) as Hh. pose proof (hex_encode_length buf) as Hl.
  assert (all_of dns_char (hex_encode buf) = true) as Hd.
  { revert Hh. generalize (hex_encode buf). induction s as [|c s IH]; [done|]. cbn [all_of]. intros [[-> _]%andb_prop Hs]%andb_prop. by rewrite IH. }
  unfold dns_label. rewrite !all_of_app, Hd, all_of_stake by done. assert (no_dash_first (stake max_prefix p) = true) as Hp by (by apply stake_first; [unfold max_prefix; lia|]).
  assert (no_dash_first (stake max_prefix p +:+ "-" +:+ hex_encode buf) = true) as -> by (by destruct (stake max_prefix p)).
  assert (no_dash_first (srev (stake max_prefix p +:+ "-" +:+ hex_encode buf)) = true) as ->.
  { rewrite !srev_sapp. rewrite <- all_of_srev in Hh. assert (strlen (srev (hex_encode buf)) = 8%nat) as Hs by (rewrite strlen_srev; lia).
    destruct (srev (hex_encode buf)) as [|c u]; [done|]. cbn [all_of] in Hh. apply andb_prop in Hh as [[_ Hc']%andb_prop _]. done. }
  cbn [andb]. apply Nat.leb_le. rewrite !strlen_app, Hl, Hb. pose proof (stake_le max_prefix p). change (strlen "-") with 1%nat. change max_prefix with 54%nat in *. lia.
Qed.

(** ** What scheduling changes in the cluster *)
Section contained.
Context {P : PodParts}.
Context (r : Runner).

Definition is_write (q : request) : bool :=
  match q with CreateJob _ _ | PatchJob _ _ _ | DeleteJob _ _ | CreateSecret _ _ => true | _ => false end.
Definition writes (l : list (event reply)) : list (event reply) := List.filter (fun e => is_write (e_call e)) l.
Definition reading (q : request) : Prop := is_write q = false.
(** Four random bytes. *)
Definition random_ok : contract reply := fun _ e =>
  match e with
  | Event q a => match q return reply q -> Prop with RandomBytes => fun buf => forall b, buf = Ok b -> strlen b = 4%nat | _ => fun _ => True end a
  end.
(** What the agent imposes on every Job, whatever the specification says. *)
Definition hygienic (j : new_job P) : Prop :=
  nj_Namespace j = r_Namespace r /\ dns_label (nj_Name j) = true /\
  BackoffLimit j = 0 /\ TTLSecondsAfterFinished j = 600 /\ 1800 <= ActiveDeadlineSeconds j /\ RestartPolicy (Template j) = "Never" /\
  (managedByLabel, managedByValue) ∈ nj_Labels j /\ (orchestratorLabel, orchestratorValue) ∈ nj_Labels j.
(** A copied secret belongs to the Job and holds registry credentials. *)
Definition owned_copy (c : job) (j : new_job P) (s : new_secret) : Prop :=
  ns_Namespace s = r_Namespace r /\ registry_type (ns_Type s) = true /\ ns_Owners s = [MkOwner "batch/v1" "Job" (j_Name c) (j_UID c)] /\
  ns_Name s ∈ ImagePullSecrets (Template j).
Definition submitted (w : list (event reply)) : Prop :=
  let ns := r_Namespace r in
  w = [] \/ exists j, hygienic j /\
    ((exists e, w = [Event (CreateJob ns j) (inl e)]) \/
     exists c, (Suspend j = None /\ w = [Event (CreateJob ns j) (inr c)]) \/
       Suspend j = Some true /\ r_AutoCopyPullSecrets r = true /\ exists copies : list (new_secret * option kube_error), Forall (fun sa => owned_copy c j sa.1) copies /\
         let made := Event (CreateJob ns j) (inr c) :: map (fun sa => Event (R := reply) (CreateSecret ns sa.1) sa.2) copies in
         w = made ++ [Event (PatchJob ns (j_Name c) resume_patch) None] \/
         exists e d, w = made ++ [Event (PatchJob ns (j_Name c) resume_patch) (Some e); Event (DeleteJob ns (j_Name c)) d]).
(** Fewer running Jobs than allowed were counted. *)
Definition below_limit (l : list (event reply)) : Prop :=
  exists jobs, Event (ListJobs (r_Namespace r) managed_selector None) (inr jobs) ∈ l /\
    Z.of_nat (length (List.filter (fun j => negb (jobIsTerminal j)) jobs)) < job_limit r.

Lemma writes_app l l' : writes (l ++ l') = writes l ++ writes l'.
Proof. apply List.filter_app. Qed.
Lemma writes_reading l l' : extends reading l l' -> writes l' = writes l.
Proof.
  intros (d & -> & Hd). rewrite writes_app. enough (writes d = []) as -> by by rewrite app_nil_r.
  induction Hd as [|e d He _ IH]; [done|]. unfold writes in *. cbn [List.filter]. rewrite He. exact IH.
Qed.

Definition fresh_copy (s : new_secret) : Prop :=
  ns_Namespace s = r_Namespace r /\ registry_type (ns_Type s) = true /\ ns_Owners s = [].
Lemma copy_secrets_spec ref jobName names l :
  wp random_ok (copy_secrets r ref jobName names) l (fun l' pending => extends reading l l' /\ Forall fresh_copy pending).
Proof.
  revert l. induction names as [|name names IH]; intros l; cbn [copy_secrets]; [split; [apply extends_refl|constructor]|].
  apply wp_ask. intros src _. eapply wp_seq; [apply IH|]. intros l' rest [Hl Hr]. split.
  - eapply (extends_trans reading); [|exact Hl]. by apply (extends_event reading).
  - destruct src as [e|src]; [done|]. case_match eqn:E; [|done]. constructor; [|done]. done.
Qed.
Lemma pull_secrets_spec order ref jobName l :
  wp random_ok (resolvePullSecrets order r ref jobName) l (fun l' pending => extends reading l l' /\ Forall fresh_copy pending).
Proof.
  apply wp_ask. intros [e|[secrets sa]] _; [split; [by apply (extends_event reading)|constructor]|].
  apply wp_ask. intros more _. eapply wp_imp; [apply copy_secrets_spec|]. intros l' pending [Hl Hp]. split; [|done].
  eapply (extends_trans reading); [|exact Hl]. eapply (extends_trans reading); by apply (extends_event reading).
Qed.
Lemma create_secrets_spec pending j l :
  wp random_ok (createOwnedSecrets r pending j) l (fun l' _ => exists answers : list (option kube_error), length answers = length pending /\
    writes l' = writes l ++ map (fun sa => Event (R := reply) (CreateSecret (r_Namespace r) sa.1) sa.2) (zip (map (owned_by j) pending) answers)).
Proof.
  revert l. induction pending as [|s pending IH]; intros l; cbn [createOwnedSecrets]; [exists []; by rewrite app_nil_r|].
  apply wp_ask. intros a _. eapply wp_imp; [apply IH|]. intros l' [] (answers & Hl & Hw). exists (a :: answers). split; [by cbn; rewrite Hl|].
  rewrite Hw, writes_app, <- app_assoc. done.
Qed.

Lemma built_hygienic spec name uuid names : dns_label name = true -> hygienic (with_pull_secrets names (BuildJob r spec name uuid)).
Proof.
  intros Hn. unfold hygienic. cbn. split_and!; try done; [|set_solver..]. case_match; unfold minJobActiveDeadlineSeconds in *; lia.
Qed.
Lemma fresh_owned c pending : Forall fresh_copy pending ->
  forall j, (forall s, s ∈ pending -> ns_Name s ∈ ImagePullSecrets (Template j)) -> Forall (owned_copy c j) (map (owned_by c) pending).
Proof.
  intros Hf j Hj. rewrite Forall_forall in *. intros s' (s & -> & Hs)%list_elem_of_fmap. destruct (Hf s Hs) as (Hn & Ht & Ho). specialize (Hj s Hs).
  destruct s as [n m ls ty da os]; cbn in *. subst. done.
Qed.
Lemma submit_spec spec name uuid pending l : dns_label name = true -> Forall fresh_copy pending ->
  (pending <> [] -> r_AutoCopyPullSecrets r = true) -> writes l = [] ->
  wp random_ok (submit r (BuildJob r spec name uuid) pending uuid) l (fun l' _ => submitted (writes l')).
Proof.
  intros Hn Hf Ha Hl. unfold submit. set (j := with_pull_secrets _ _). assert (hygienic j) as Hj by (by apply built_hygienic).
  assert (forall c, writes (l ++ [Event (R := reply) (CreateJob (r_Namespace r) j) c]) = [Event (R := reply) (CreateJob (r_Namespace r) j) c]) as Hw.
  { intros c. by rewrite writes_app, Hl. }
  apply (wp_ask _ (CreateJob (r_Namespace r) j)). intros [e|c] _.
  { apply wp_ret. right. exists j. split; [done|]. left. exists e. apply Hw. }
  destruct pending as [|s pending].
  { apply wp_ret. right. exists j. split; [done|]. right. exists c. left. split; [done|apply Hw]. }
  set (made := s :: pending) in *. eapply wp_seq; [apply create_secrets_spec|]. intros l' [] (answers & Hlen & Hw'). rewrite Hw in Hw'.
  set (copies := zip _ answers) in Hw'. assert (Forall (fun sa => owned_copy c j sa.1) copies) as Hc.
  { apply (List.Forall_map fst (owned_copy c j) copies). change (map fst copies) with copies.*1. subst copies. rewrite fst_zip by (rewrite length_map; lia).
    apply fresh_owned; [done|]. intros s' Hs'. subst j. cbn. apply (list_elem_of_fmap_2 ns_Name) in Hs'. set_solver. }
  assert (forall l'' tl, l'' = l' ++ tl -> writes l'' = (Event (R := reply) (CreateJob (r_Namespace r) j) (inr c)
    :: map (fun sa => Event (R := reply) (CreateSecret (r_Namespace r) sa.1) sa.2) copies) ++ writes tl) as Htl by (intros l'' tl ->; by rewrite writes_app, Hw').
  apply (wp_ask _ (PatchJob (r_Namespace r) (j_Name c) resume_patch)). intros [e|] _.
  - apply (wp_ask _ (DeleteJob (r_Namespace r) (j_Name c))). intros d _. apply wp_ret. right. exists j. split; [done|]. right. exists c. right.
    split; [done|]. split; [by apply Ha|]. exists copies. split; [done|]. right. exists e, d. rewrite <- app_assoc. by rewrite (Htl _ _ eq_refl).
  - apply wp_ret. right. exists j. split; [done|]. right. exists c. right. split; [done|]. split; [by apply Ha|]. exists copies. split; [done|]. left.
    by rewrite (Htl _ _ eq_refl).
Qed.

(** C35: whatever the API server answers, a request to schedule a Job changes the
    cluster in one of four ways: not at all; by one Job that was refused; by
    one Job; or by one suspended Job, copies of pull secrets it references
    and owns, and its release, where a failed release is followed by its
    deletion.  The Job is in the agent's namespace, has a valid name, does not
    retry, has a deadline of at least half an hour, is removed ten minutes
    after it ends and carries the labels of the sweep; it is only created when
    fewer Jobs than the limit were found running, and secrets are copied only
    when that is switched on and only if they hold registry credentials. *)
Theorem scheduling_contained lower order params env : honours random_ok env ->
  let l := (run env (handleScheduleJob lower order r params) []).1 in
  submitted (writes l) /\ (writes l <> [] -> below_limit l).
Proof.
  intros Henv. apply (wp_run random_ok env _ [] (fun l _ => submitted (writes l) /\ (writes l <> [] -> below_limit l)) Henv).
  assert (forall l : list (event reply), writes l = [] -> submitted (writes l) /\ (writes l <> [] -> below_limit l)) as Hnone by (intros l ->; split; [by left|done]).
  unfold handleScheduleJob. destruct (decodeJobSpec params) as [spec|e]; [|by apply Hnone]. do 2 (case_bool_decide; [by apply Hnone|]).
  apply wp_bind, wp_ask. intros [e|jobs] _; [by apply Hnone|]. cbn [wp]. set (active := Z.of_nat _). set (l1 := _ ++ _).
  assert (writes l1 = []) as Hl1 by done. case_match eqn:El; [by apply Hnone|]. apply wp_bind.
  assert (below_limit l1) as Hb by (exists jobs; split; [left|by apply Z.leb_gt in El]).
  assert (forall l2 random, extends reading l1 l2 -> (forall b, random = Ok b -> sanitizeDNSPrefix lower (NamePrefix spec) = "" \/ strlen b = 4%nat) ->
    wp random_ok (match makeJobName lower (NamePrefix spec) random with
      | Err e => Ret (Err ("schedule_k8s_job: " +:+ e))
      | Ok jobName => let! jobUUID := ask NewUUID in let! pending := match ImagePullSecretsFrom spec with
          | Some ref => if r_AutoCopyPullSecrets r then resolvePullSecrets order r ref jobName else Ret [] | None => Ret [] end in
          submit r (BuildJob r spec jobName jobUUID) pending jobUUID end) l2
      (fun l _ => submitted (writes l) /\ (writes l <> [] -> below_limit l))) as Hrest; [|].
  { intros l2 random Hl2 Hr. pose proof Hl2 as Hw2%writes_reading. rewrite Hl1 in Hw2. destruct (makeJobName _ _ _) as [name|e] eqn:En; [|by apply Hnone].
    assert (dns_label name = true) as Hn.
    { destruct random as [b|e]; unfold makeJobName in En; case_bool_decide as Hs; try done. destruct (Hr b eq_refl) as [|Hb4]; [done|].
      apply (makeJobName_label lower (NamePrefix spec) b); [done|]. unfold makeJobName. by rewrite bool_decide_false. }
    apply wp_ask. intros uuid _. set (l3 := l2 ++ _). assert (extends reading l1 l3) as Hl3 by (eapply extends_trans; [done|]; by apply extends_event).
    assert (forall l4, extends reading l1 l4 -> forall l5, extends (fun _ => True) l4 l5 -> below_limit l5) as Hlim.
    { intros l4 (d & -> & _) l5 (d' & -> & _). destruct Hb as (js & Hin & Hlt). exists js. split; [|done]. set_solver. }
    eapply wp_seq with (Q := fun l4 pending => extends reading l1 l4 /\ Forall fresh_copy pending /\ (pending <> [] -> r_AutoCopyPullSecrets r = true)).
    - destruct (ImagePullSecretsFrom spec) as [ref|]; [|done]. destruct (r_AutoCopyPullSecrets r) eqn:Ea; [|done].
      eapply wp_imp; [apply pull_secrets_spec|]. intros l4 pending [Hl4 Hp]. split_and!; [by eapply extends_trans|done|done].
    - intros l4 pending (Hl4 & Hp & Ha). pose proof Hl4 as Hw4%writes_reading. rewrite Hl1 in Hw4.
      eapply wp_imp; [apply wp_and; [by apply submit_spec|apply wp_grows]|].
      intros l5 _ [Hs Hx]. split; [done|]. intros _. by eapply Hlim. }
  case_bool_decide as Hs.
  - apply Hrest; [apply extends_refl|]. intros b _. by left.
  - apply wp_ask. intros random Hr. apply Hrest; [by apply extends_event|]. intros b ->. right. by apply Hr.
Qed.
End contained.

(** ** Reading logs *)
Lemma stake_app n s t : stake n (s +:+ t) = stake n s +:+ stake (n - strlen s) t.
Proof.
  revert n. induction s as [|c s IH]; intros n; [rewrite !app_nil_l; change (strlen "") with 0%nat; rewrite Nat.sub_0_r; by destruct n|].
  destruct n as [|n]; [by destruct t|]. rewrite app_cons, strlen_cons. change (stake (S n) (String c (s +:+ t))) with (String c (stake n (s +:+ t))).
  by rewrite IH.
Qed.
Lemma stake_length n s : strlen (stake n s) = Nat.min n (strlen s).
Proof. revert s. unfold stake, strlen. induction n as [|n IH]; intros [|c s]; cbn [String.substring String.length]; [done..|]. by rewrite IH. Qed.
Lemma stake_whole n s : (strlen s <= n)%nat -> stake n s = s.
Proof. revert s. unfold stake, strlen. induction n as [|n IH]; intros [|c s]; cbn [String.substring String.length]; [done|lia|done|]. intros. by rewrite IH by lia. Qed.
Lemma take_read_text cap text buf : 0 <= cap ->
  take_read cap (stake (Z.to_nat cap) text, Z.max 0 (Z.of_nat (strlen text) - cap)) buf
  = (stake (Z.to_nat cap) (text +:+ buf), Z.max 0 (Z.of_nat (strlen (text +:+ buf)) - cap)).
Proof.
  intros Hc. unfold take_read. rewrite stake_length, stake_app, strlen_app. case_match eqn:E1; [apply Z.leb_le in E1|apply Z.leb_gt in E1].
  - replace (Z.to_nat cap - strlen text)%nat with 0%nat by lia. replace (stake 0 buf) with "" by (by destruct buf). rewrite sapp_nil_r. f_equal. lia.
  - rewrite (stake_whole _ text) by lia. case_match eqn:E2; [apply Z.leb_le in E2|apply Z.leb_gt in E2]; f_equal; try lia.
    + by rewrite stake_whole by lia.
    + do 2 f_equal. lia.
Qed.
(** The log kept is the first bytes of what the container wrote, up to the
    cap, and the bytes beyond it are counted. *)
Lemma logs_capped cap reads : 0 <= cap ->
  foldl (take_read cap) ("", 0) reads
  = (stake (Z.to_nat cap) (String.concat "" reads), Z.max 0 (Z.of_nat (strlen (String.concat "" reads)) - cap)).
Proof.
  intros Hc. assert (forall text, foldl (take_read cap) (stake (Z.to_nat cap) text, Z.max 0 (Z.of_nat (strlen text) - cap)) reads
    = (stake (Z.to_nat cap) (text +:+ String.concat "" reads), Z.max 0 (Z.of_nat (strlen (text +:+ String.concat "" reads)) - cap))) as H.
  { induction reads as [|buf reads IH]; intros text; [cbn [foldl]; by rewrite sapp_nil_r|]. cbn [foldl]. rewrite take_read_text, IH by done.
    replace (String.concat "" (buf :: reads)) with (buf +:+ String.concat "" reads) by (destruct reads; [by cbn; rewrite sapp_nil_r|done]).
    by rewrite sapp_assoc. }
  specialize (H ""). rewrite app_nil_l in H. rewrite <- H. f_equal. f_equal; [by destruct (Z.to_nat cap)|]. change (strlen "") with 0%nat. lia.
Qed.

(** ** The sweep *)
Section sweep.
Context {P : PodParts}.
Context (r : Runner).
Lemma reap_calls now jobs deleted env l :
  map e_call (run env (reap r now jobs deleted) l).1
  = map e_call l ++ map (fun j => DeleteJob (r_Namespace r) (j_Name j)) (List.filter (reap_due now) jobs).
Proof.
  revert deleted l. induction jobs as [|j jobs IH]; intros deleted l; cbn [reap List.filter map]; [by rewrite app_nil_r|].
  case_match; [|apply IH]. cbn [run bind ask deleteJobCascade]. rewrite IH, map_app, <- app_assoc. done.
Qed.

(** A sweep lists the agent's own Jobs, by both labels and in its
    namespace, and deletes exactly those that reached a terminal condition at
    least ten minutes ago, each once and with its pods; a Job that is still
    running, or ended more recently, is left alone. *)
Theorem sweep_deletes_finished now env :
  let calls := map e_call (run env (reapFinishedJobs r now) []).1 in
  let listed := match env [] (ListJobs (r_Namespace r) managed_selector (Some reaperListLimit)) with inr jobs => jobs | inl _ => [] end in
  let due := List.filter (reap_due now) listed in
  calls = ListJobs (r_Namespace r) managed_selector (Some reaperListLimit) :: map (fun j => DeleteJob (r_Namespace r) (j_Name j)) due /\
  forall j, j ∈ due <-> j ∈ listed /\ exists t, jobIsTerminal j = true /\ jobFinishedAt j = Some t /\ 600 * second <= time_sub now t.
Proof.
  split.
  - unfold reapFinishedJobs. cbn [run bind ask]. destruct (env [] _) as [e|jobs]; [done|]. by rewrite reap_calls.
  - intros j. rewrite list_elem_of_In, filter_In, <- list_elem_of_In. apply and_iff_compat_l. unfold reap_due, jobFinishedAt. split.
    + intros Hd. destruct (jobIsTerminal j); [|done]. cbn [negb] in *. destruct (match j_CompletionTime j with Some t => Some t | None => _ end) as [t|]; [|done].
      exists t. split_and!; [done..|]. unfold reapGraceSeconds, jobTTLSeconds in Hd. lia.
    + intros (t & Ht & -> & Hd). unfold reapGraceSeconds, jobTTLSeconds. lia.
Qed.
End sweep.

(** ** Examples *)
Definition sample_parts : PodParts :=
  {| Container := string; Volume := string; VolumeMount := string; Resources := string; no_resources := "";
     set_containers old _ := (old, true); set_volumes old _ := (old, true); set_mounts old _ := (old, true); set_resources old _ := (old, true) |}.
#[local] Existing Instance sample_parts.
Definition sample_runner : Runner := MkRunner "nudgebee-agent" "scanner" 5 0 true.
Definition sample_job (done : bool) (at_ : time) : job :=
  MkJob "trivy-0a0b0c0d" "uid-1" (if done then [MkCondition "Complete" "True" "" "" at_] else []) 0 1 0 None (if done then Some at_ else None).
(** The release of a suspended Job fails. *)
Definition sample_env (resume : option string) : environment reply := fun _ q =>
  match q return reply q with
  | ListJobs _ _ _ => inr [sample_job true 0; sample_job false 0]
  | CreateJob _ j => inr (MkJob (nj_Name j) "uid-2" [] 0 0 0 None None)
  | PatchJob _ _ _ => resume
  | GetJob _ _ => inl (NotFound "gone")
  | DeleteJob _ _ | CreateSecret _ _ => None
  | ListPods _ _ => inr [MkJobPod "p" [] [MkStatus "scanner" (Some ("ErrImagePull", "no such tag"))] []]
  | PodLog _ _ => inr ["abc"; "def"]
  | GetTargetPod _ _ => inr (["regcred"; "regcred"], "")
  | GetServiceAccount _ _ => inr ["token"]
  | GetSecret _ name => inr (MkSecret (if bool_decide (name = "regcred") then "kubernetes.io/dockerconfigjson" else "Opaque") [])
  | RandomBytes => Ok "abcd"
  | NewUUID => "0f8fad5b-d9cb-469f-a165-70867728950e"
  | Now => 0
  end.
Definition sample_params : gomap :=
  Some [("spec", JObj [("name_prefix", JStr "--Image Scan--"); ("image", JStr "trivy"); ("timeout_hint_seconds", JInt 3000);
                       ("image_pull_secrets_from", JObj [("namespace", JStr "shop"); ("name", JStr "cart-0")])])].
Abbreviation schedule resume := (run (sample_env resume) (handleScheduleJob (fun x => x) (fun l => l) sample_runner sample_params) []).
Lemma sample_random resume : honours random_ok (sample_env resume).
Proof. intros l q. destruct q; cbn; try done. by intros b [= <-]. Qed.
(** A Job whose release fails is deleted again; only the registry secret is copied. *)
Lemma scheduling_contained_witness :
  (submitted sample_runner (writes (schedule (Some "timeout")).1) /\ (writes (schedule (Some "timeout")).1 <> [] -> below_limit sample_runner (schedule (Some "timeout")).1))
  /\ length (writes (schedule (Some "timeout")).1) = 4%nat.
Proof.
  split; [|vm_compute; reflexivity].
  exact (scheduling_contained sample_runner (fun x => x) (fun l => l) sample_params (sample_env (Some "timeout")) (sample_random (Some "timeout"))).
Defined.
Example schedule_answer : (schedule None).2
  = Ok [("success", JBool true); ("job_name", JStr "image-scan-61626364"); ("job_uuid", JStr "0f8fad5b-d9cb-469f-a165-70867728950e")].
Proof. vm_compute. reflexivity. Qed.
(** The hint of the specification, which its comment says is ignored, is the
    deadline when it is longer than half an hour. *)
Example hint_is_used : match decodeJobSpec sample_params with Ok s => ActiveDeadlineSeconds (BuildJob sample_runner s "n" "u") | Err _ => 0 end = 3000.
Proof. vm_compute. reflexivity. Qed.
(** [delete_k8s_job] deletes any Job of the namespace, also one that was not
    scheduled by the agent. *)
Lemma any_job_deleted (r : Runner) name env : name <> "" ->
  map e_call (run env (handleDeleteJob r (Some [("job_name", JStr name)])) []).1 = [DeleteJob (r_Namespace r) name].
Proof.
  intros Hn. unfold handleDeleteJob. change (get_str _ _) with (as_str (mget (Some [("job_name", JStr name)]) "job_name")). cbn -[bool_decide].
  by rewrite bool_decide_false.
Qed.
Example pull_failure_reported : (run (sample_env None) (imagePullFailure sample_runner (fun s => s) "j") []).2
  = Some "image pull failed for container scanner: no such tag".
Proof. vm_compute. reflexivity. Qed.
Example log_of_six : (run (sample_env None) (fetchPodLogs (MkRunner "n" "s" 0 4 false) "j") []).2 = Ok ("abcd", true, 2).
Proof. vm_compute. reflexivity. Qed.
