(* ===== verification/KubeReads.v ===== *)
(** * Reading Kubernetes objects (pkg/kube/dynamic.go, kind_resolver.go, handlers.go)

    get_resource, get_resource_yaml and list_resource_names list objects
    through the dynamic client and answer with a finding.  A list request is
    a call of the computation; YAML, the key renaming's character classes and
    kubectl are arguments. *)

From stdpp Require Import strings.
From S2P Require Import Prelude GoText GoJson EnricherBlocks Interact Snake.
From S2P Require Import KubeApi Workload.

#[local] Set Default Proof Using "Type".

(** ** Kinds *)
Definition core (resource : string) : gvr := ("", "v1", resource).
Definition kindToGVR : list (string * gvr) :=
  [("pod", core "pods"); ("service", core "services"); ("configmap", core "configmaps"); ("secret", core "secrets");
   ("persistentvolumeclaim", core "persistentvolumeclaims"); ("persistentvolume", core "persistentvolumes"); ("node", core "nodes");
   ("namespace", core "namespaces"); ("serviceaccount", core "serviceaccounts"); ("endpoints", core "endpoints"); ("event", core "events");
   ("replicationcontroller", core "replicationcontrollers"); ("limitrange", core "limitranges"); ("resourcequota", core "resourcequotas");
   ("deployment", ("apps", "v1", "deployments")); ("daemonset", ("apps", "v1", "daemonsets"));
   ("statefulset", ("apps", "v1", "statefulsets")); ("replicaset", ("apps", "v1", "replicasets"));
   ("job", ("batch", "v1", "jobs")); ("cronjob", ("batch", "v1", "cronjobs"));
   ("ingress", ("networking.k8s.io", "v1", "ingresses")); ("ingressclass", ("networking.k8s.io", "v1", "ingressclasses"));
   ("networkpolicy", ("networking.k8s.io", "v1", "networkpolicies"));
   ("horizontalpodautoscaler", ("autoscaling", "v2", "horizontalpodautoscalers"));
   ("poddisruptionbudget", ("policy", "v1", "poddisruptionbudgets"));
   ("role", ("rbac.authorization.k8s.io", "v1", "roles")); ("rolebinding", ("rbac.authorization.k8s.io", "v1", "rolebindings"));
   ("clusterrole", ("rbac.authorization.k8s.io", "v1", "clusterroles"));
   ("clusterrolebinding", ("rbac.authorization.k8s.io", "v1", "clusterrolebindings"));
   ("storageclass", ("storage.k8s.io", "v1", "storageclasses"));
   ("rollout", ("argoproj.io", "v1alpha1", "rollouts")); ("nodepool", ("karpenter.sh", "v1", "nodepools"));
   ("ec2nodeclass", ("karpenter.k8s.aws", "v1", "ec2nodeclasses"))].
Definition resolveKind (kind : string) : option gvr := assoc (to_lower (trim_space kind)) kindToGVR.

(** ** Parameters *)
Record GetParams := MkGetParams {
  Group : string; Version : string; ResourceType : string;
  Namespace : string; Namespaces : list string; Name : string; Names : list string;
  LabelSelector : string; FieldSelector : string; AllNamespaces : bool }.
Definition strParam (m : gomap) (k : string) : string := get_str m k.
Definition boolParam (m : gomap) (k : string) : bool := as_bool (mget m k).
Definition nonblank (l : list string) : list string := List.filter (fun s => negb (bool_decide (s = ""))) (map trim_space l).
Definition strListParam (m : gomap) (k : string) : list string :=
  nonblank (match mget m k with
            | JStr s => [s]
            | JArr l => omap (fun v => match v with JStr s => Some s | _ => None end) l
            | _ => []
            end).
Definition single (values : list string) : string := match values with [v] => v | _ => "" end.
Definition or_else (s d : string) : string := if bool_decide (s = "") then d else s.
Definition ParseGetParams (p : gomap) : GetParams :=
  let namespaces := strListParam p "namespace" in
  let names := strListParam p "name" in
  let gp g v t := MkGetParams g v t (single namespaces) namespaces (single names) names
                    (strParam p "label_selector") (strParam p "field_selector") (boolParam p "all_namespaces") in
  let g := strParam p "group" in let v := strParam p "version" in let t := strParam p "resource_type" in
  if bool_decide (t = "") then
    match resolveKind (strParam p "kind") with
    | Some (kg, kv, kt) => gp (or_else g kg) (or_else v kv) kt
    | None => gp g v t
    end
  else gp g v t.
Definition splitCSV (s : string) : list string := nonblank (split_at (chr 44) s).

(** ** Calls *)
Inductive request :=
  | ListObjects (r : gvr) (ns : option string) (labels fields : string)
  | NewUUID.
Definition reply (q : request) : Type :=
  match q with ListObjects _ _ _ _ => kube_error + list obj | NewUUID => string end.
Abbreviation act := (prog reply).

Section reads.
Context `{Accessors}.
(** Whether the dynamic client is set. *)
Context (dynamic : bool).

Definition contains (values : list string) (want : string) : bool := bool_decide (want ∈ values).
(** The namespace a request is scoped to, if any. *)
Definition resourceInterface (p : GetParams) : option string :=
  if negb (bool_decide (Namespace p = "")) && negb (AllNamespaces p) then Some (Namespace p)
  else if AllNamespaces p || bool_decide (Namespace p = "") then None
  else Some (Namespace p).
Definition with_namespace (ns : string) (p : GetParams) : GetParams :=
  MkGetParams (Group p) (Version p) (ResourceType p) ns (Namespaces p) (Name p) (Names p) (LabelSelector p) (FieldSelector p) (AllNamespaces p).
Definition wanted (p : GetParams) (item : obj) : bool :=
  if negb (bool_decide (Names p = [])) && negb (contains (Names p) (get_name item)) then false
  else if negb (bool_decide (Namespaces p = [])) && negb (bool_decide (get_namespace item = "")) && negb (contains (Namespaces p) (get_namespace item)) then false
  else true.
Definition list_at (g : gvr) (p : GetParams) : act (kube_error + list obj) :=
  ask (ListObjects g (resourceInterface p) (LabelSelector p) (FieldSelector p)).
Definition listOne (g : gvr) (p : GetParams) : act (kube_error + list obj) :=
  let! first := list_at g p in
  let! got := match first with
              | inl (NotFound e) => if bool_decide (Namespace p = "") then Ret (inl (NotFound e)) else list_at g (with_namespace "" p)
              | r => Ret r
              end in
  Ret (match got with
       | inl e => inl (wrapped ("list " +:+ g.2 +:+ ": ") e)
       | inr items => inr (List.filter (wanted p) items)
       end).
(** The loop over the types: an error counts only when there is one type. *)
Fixpoint list_types (p : GetParams) (alone : bool) (types : list string) (out : list obj) : act (kube_error + list obj) :=
  match types with
  | [] => Ret (inr out)
  | t :: types =>
    let! items := listOne (Group p, Version p, t) p in
    match items with
    | inl e => if alone then Ret (inl e) else list_types p alone types out
    | inr items => list_types p alone types (out ++ items)
    end
  end.
Definition not_configured : kube_error := Other "kube: dynamic client not configured".
Definition incomplete : kube_error := Other "kube: version and resource_type are required".
Definition GetResource (p : GetParams) : act (kube_error + list obj) :=
  if negb dynamic then Ret (inl not_configured)
  else if bool_decide (Version p = "") || bool_decide (ResourceType p = "") then Ret (inl incomplete)
  else let types := splitCSV (ResourceType p) in list_types p (bool_decide (length types = 1%nat)) types [].
Record NamedResource := MkNamed { nr_Name : string; nr_Namespace : string }.
Definition ListResourceNames (p : GetParams) : act (kube_error + list NamedResource) :=
  if negb dynamic then Ret (inl not_configured)
  else if bool_decide (Version p = "") || bool_decide (ResourceType p = "") then Ret (inl incomplete)
  else
    let! got := ask (ListObjects (Group p, Version p, ResourceType p) (resourceInterface p) "" "") in
    Ret (match got with
         | inl e => inl e
         | inr items => inr (map (fun o => MkNamed (get_name o) (get_namespace o)) items)
         end).

(** ** Handlers

    [yaml] is the YAML encoder, [kubectl] the executor's answer. *)
Context (is_upper is_lower is_digit_rune : Z -> bool) (to_lower_rune : Z -> Z).
Context (yaml : json -> result string) (kubectl : string -> string -> result json) (accountID : string).
Abbreviation SnakeKeysDeep := (SnakeKeysDeep is_upper is_lower is_digit_rune to_lower_rune).
Definition GetResourceYAML (p : GetParams) : act (result string) :=
  let! got := GetResource p in
  Ret (match got with inl e => Err (error_text e) | inr items => yaml (JArr (map JObj items)) end).
Definition wrapAsFinding (payload : json) : act (result (list (string * json))) :=
  match JSONBlock payload with
  | Err e => Ret (Err e)
  | Ok block => let! fresh := ask NewUUID in Ret (FindingResponse accountID nil_uuid fresh [block])
  end.
Definition named_json (n : NamedResource) : json :=
  JObj (("name", JStr (nr_Name n)) :: (if bool_decide (nr_Namespace n = "") then [] else [("namespace", JStr (nr_Namespace n))])).
Definition get_resource (p : gomap) : act (result (list (string * json))) :=
  let! got := GetResource (ParseGetParams p) in
  match got with
  | inl e => Ret (Err (error_text e))
  | inr items => wrapAsFinding (SnakeKeysDeep (JArr (map JObj items)))
  end.
Definition get_resource_yaml (p : gomap) : act (result (list (string * json))) :=
  let params := ParseGetParams p in
  let! got := GetResource params in
  match got with
  | inl e => Ret (Err (error_text e))
  | inr items =>
    match yaml (SnakeKeysDeep (JArr (map JObj items))) with
    | Err e => Ret (Err e)
    | Ok y =>
      let filename := or_else (Name params) (ResourceType params) +:+ ".yaml" in
      let kind := or_else (Name params) (ResourceType params) in
      let markdown := MarkdownBlock ("Your YAML file for " +:+ ResourceType params +:+ " " +:+ Namespace params +:+ "/" +:+ kind) in
      let! fresh := ask NewUUID in
      Ret (FindingResponse accountID nil_uuid fresh [markdown; FileBlock filename y])
    end
  end.
Definition list_resource_names (p : gomap) : act (result (list (string * json))) :=
  let! got := ListResourceNames (ParseGetParams p) in
  match got with
  | inl e => Ret (Err (error_text e))
  | inr l => wrapAsFinding (JArr (map named_json l))
  end.
Definition kubectl_command_executor (p : gomap) : act (result (list (string * json))) :=
  match kubectl (strParam p "command") (strParam p "output_encoding") with
  | Err e => Ret (Err e)
  | Ok data => wrapAsFinding data
  end.
Definition Handlers (client executor : bool) : list (string * (gomap -> act (result (list (string * json))))) :=
  (if client then [("get_resource", get_resource); ("get_resource_yaml", get_resource_yaml); ("list_resource_names", list_resource_names)] else [])
  ++ (if executor then [("kubectl_command_executor", kubectl_command_executor)] else []).
End reads.

(** ** What is requested and what is returned *)
Section scope.
Context `{Accessors} (p : GetParams).
Abbreviation event := (event reply).

(** A call made after the exchanges [pre]: it names one of the requested
    types with the requested selectors, and it lists the whole cluster only
    when the parameters do not name one namespace, or right after the API
    server did not find the type in that namespace. *)
Definition in_scope (pre : list event) (q : request) : Prop :=
  match q with
  | ListObjects (g, v, t) ns labels fields =>
    (g = Group p /\ v = Version p /\ t ∈ splitCSV (ResourceType p) /\ labels = LabelSelector p /\ fields = FieldSelector p) /\
    (ns = resourceInterface p \/
     ns = None /\ exists l e, pre = l ++ [Event (R := reply) (ListObjects (g, v, t) (resourceInterface p) labels fields) (inl (NotFound e))])
  | NewUUID => False
  end.
Definition log_in_scope (l : list event) : Prop := forall pre e post, l = pre ++ e :: post -> in_scope pre (e_call e).
(** An object an answer of the log holds. *)
Definition answered (l : list event) (o : obj) : Prop :=
  exists g ns labels fields items, Event (R := reply) (ListObjects g ns labels fields) (inr items) ∈ l /\ o ∈ items.

Lemma scope_snoc l q a : log_in_scope l -> in_scope l q -> log_in_scope (l ++ [Event q a]).
Proof.
  intros Hl Hq pre e post E. destruct post as [|x post] using rev_ind.
  - apply app_inj_tail in E as [-> <-]. exact Hq.
  - rewrite app_comm_cons, app_assoc in E. apply app_inj_tail in E as [-> _]. by eapply Hl.
Qed.
Lemma answered_mono l l' o : answered l o -> answered (l ++ l') o.
Proof. intros (g & ns & la & fi & items & Hin & Ho). exists g, ns, la, fi, items. set_solver. Qed.
Definition good (l : list event) (out : list obj) : Prop := log_in_scope l /\ forall o, o ∈ out -> wanted p o = true /\ answered l o.
Lemma good_filter l g ns la fi items : log_in_scope (l ++ [Event (R := reply) (ListObjects g ns la fi) (inr items)]) ->
  good (l ++ [Event (R := reply) (ListObjects g ns la fi) (inr items)]) (List.filter (wanted p) items).
Proof.
  intros Hl. split; [done|]. intros o [Ho Hw]%list_elem_of_In%filter_In. split; [done|].
  exists g, ns, la, fi, items. split; [set_solver|by apply list_elem_of_In].
Qed.

Lemma listOne_good t l : t ∈ splitCSV (ResourceType p) -> log_in_scope l ->
  wp anything (listOne (Group p, Version p, t) p) l (fun l' r => extends (fun _ => True) l l' /\ log_in_scope l' /\
    forall items, r = inr items -> good l' items).
Proof.
  intros Ht Hl. set (g := (Group p, Version p, t)). unfold listOne. set (q := ListObjects g (resourceInterface p) (LabelSelector p) (FieldSelector p)).
  assert (forall a, log_in_scope (l ++ [Event (R := reply) q a])) as Hl1.
  { intros a. apply scope_snoc; [done|]. split; [done|]. by left. }
  assert (forall l2 r, extends (fun _ => True) l l2 -> log_in_scope l2 -> (forall items, r = inr items -> good l2 (List.filter (wanted p) items)) ->
    wp anything (Ret (match r with inl e => inl (wrapped ("list " +:+ g.2 +:+ ": ") e) | inr items => inr (List.filter (wanted p) items) end)) l2
      (fun l' r => extends (fun _ => True) l l' /\ log_in_scope l' /\ forall items, r = inr items -> good l' items)) as Hend.
  { intros l2 r Hx Hs Hg. apply wp_ret. split_and!; [done..|]. intros items. destruct r as [e|items']; [done|]. intros [= <-]. by apply Hg. }
  assert (forall a, extends (fun _ => True) l (l ++ [Event (R := reply) q a])) as Hx1 by (intros; by apply extends_event).
  assert (forall a, wp anything (let! got := Ret (inl a) in Ret (match got with inl e => inl (wrapped ("list " +:+ g.2 +:+ ": ") e)
    | inr items => inr (List.filter (wanted p) items) end)) (l ++ [Event (R := reply) q (inl a)])
    (fun l' r => extends (fun _ => True) l l' /\ log_in_scope l' /\ forall items, r = inr items -> good l' items)) as Hfail.
  { intros a. apply (Hend _ (inl a)); [done|done|by intros]. }
  apply (wp_ask _ q). intros [[e|e|e|e]|items] _; [|apply Hfail..|].
  - case_bool_decide as Hn; [apply Hfail|]. set (q' := ListObjects g (resourceInterface (with_namespace "" p)) (LabelSelector p) (FieldSelector p)).
    assert (forall a, log_in_scope ((l ++ [Event (R := reply) q (inl (NotFound e))]) ++ [Event (R := reply) q' a])) as Hl2.
    { intros a. apply scope_snoc; [done|]. split; [done|]. right. split; [|by eexists _, _]. unfold resourceInterface. cbn. by destruct (AllNamespaces p). }
    apply (wp_ask _ q'). intros a _. apply Hend; [|done|].
    + eapply extends_trans; [apply Hx1|]. by apply extends_event.
    + intros items ->. by apply good_filter.
  - apply (Hend _ (inr items)); [done|done|]. intros items' [= <-]. by apply good_filter.
Qed.
Lemma list_types_good alone types out l : (forall t, t ∈ types -> t ∈ splitCSV (ResourceType p)) -> good l out ->
  wp anything (list_types p alone types out) l (fun l' r => log_in_scope l' /\ forall items, r = inr items -> good l' items).
Proof.
  revert out l. induction types as [|t types IH]; intros out l Ht Hg; cbn [list_types].
  { apply wp_ret. split; [apply Hg|]. by intros items [= <-]. }
  eapply wp_seq; [apply listOne_good; [apply Ht; left|apply Hg]|]. intros l' r ((d & -> & _) & Hs & Hr).
  assert (forall x, x ∈ types -> x ∈ splitCSV (ResourceType p)) as Ht' by (intros; apply Ht; by right). destruct Hg as [_ Hg]. destruct r as [e|items].
  - destruct alone; [apply wp_ret; by split|]. apply IH; [done|]. split; [done|]. intros o Ho. destruct (Hg o Ho). split; [done|]. by apply answered_mono.
  - apply IH; [done|]. split; [done|]. intros o [Ho|Ho]%elem_of_app.
    + destruct (Hg o Ho). split; [done|]. by apply answered_mono.
    + destruct (Hr items eq_refl) as [_ Hi]. by apply Hi.
Qed.
Lemma wanted_spec o : wanted p o = true <->
  (Names p = [] \/ get_name o ∈ Names p) /\ (Namespaces p = [] \/ get_namespace o = "" \/ get_namespace o ∈ Namespaces p).
Proof. unfold wanted, contains. repeat case_bool_decide; cbn; naive_solver. Qed.

End scope.

(** ** The two tables of kinds agree *)
(** Whatever can be changed by kind can be read by the same kind, in any
    case, at the same resource. *)
Lemma mutable_kinds_readable : forallb (fun ke => bool_decide (resolveKind ke.1 = Some (k_gvr ke.2)) && bool_decide (resolveKind (to_lower ke.1) = Some (k_gvr ke.2)))
  supportedWorkloadKinds = true.
Proof. vm_compute. reflexivity. Qed.

(** ** Names

    [ListResourceNames] does not look at names, selectors or several
    namespaces: the request and the answer are those of the whole type. *)
Lemma names_ignore_filters `{Accessors} dynamic p names labels fields env :
  let p' := MkGetParams (Group p) (Version p) (ResourceType p) (Namespace p) (Namespaces p) (Name p) names labels fields (AllNamespaces p) in
  run env (ListResourceNames dynamic p') [] = run env (ListResourceNames dynamic p) [].
Proof. reflexivity. Qed.

Example legacy_kind : let p := ParseGetParams (Some [("kind", JStr "Deployment"); ("namespace", JArr [JStr " demo "]); ("name", JStr "cart")]) in
  (Group p, Version p, ResourceType p, Namespace p, Names p) = ("apps", "v1", "deployments", "demo", ["cart"]).
Proof. vm_compute. reflexivity. Qed.
Definition sample_server : environment reply := fun _ q =>
  match q return reply q with
  | NewUUID => "0f8fad5b-d9cb-469f-a165-70867728950e"
  | ListObjects g (Some _) _ _ => inl (NotFound "the server could not find the requested resource")
  | ListObjects g None _ _ => inr (map (fun n => [("metadata", JObj [("name", JStr n)])]) ["node-a"; "node-b"])
  end.
(** A cluster-scoped type asked for with a namespace is listed without it. *)
Example nodes_with_namespace :
  (run sample_server (@GetResource Plain.accessors true (ParseGetParams (Some [("kind", JStr "node"); ("namespace", JStr "default"); ("name", JStr "node-b")]))) []).2
  = inr [[("metadata", JObj [("name", JStr "node-b")])]].
Proof. vm_compute. reflexivity. Qed.
