(* ===== verification/GrafanaProxy.v ===== *)
(** * The Grafana, API and Prometheus proxy (pkg/grafana/proxy.go)

    A request of the relay, whose body is base64, becomes one HTTP request;
    the answer goes back with its body in base64.  Building the request from
    a URL and the exchange are arguments. *)

From stdpp Require Import strings.
From S2P Require Import Prelude GoText GoJson GoStruct GoCrypto GoUrl.
From S2P Require Import RelaySig Auth Dispatch.

#[local] Set Default Proof Using "Type".

Abbreviation header := (list (string * list string)).
Abbreviation Request := GrafanaRequest.
Record Response := MkResponse { rs_StatusCode : Z; rs_ContentLength : Z; rs_Body : string; rs_Header : header }.
Record Proxy := MkProxy {
  GrafanaURL : string; PrometheusURL : string;
  PrometheusURLFn : option string;  (* what the lookup answers for this request *)
  PrometheusHeaders : header; Username : string; Password : string; ExtraHeaders : list string }.
(** [strings.TrimRight(s, "/")]. *)
Definition trim_right_slashes (s : string) : string := srev (trim_slashes (srev s)).
Definition New (grafanaURL user pass : string) (extra : list string) (promURL : string) (promHeaders : header) : Proxy :=
  MkProxy (trim_right_slashes grafanaURL) (trim_right_slashes promURL) None promHeaders user pass extra.
Definition promBase (p : Proxy) : string :=
  match PrometheusURLFn p with Some u => trim_right_slashes u | None => PrometheusURL p end.

(** ** Headers: [http.Header.Set] and [Add] *)
Definition header_set (k v : string) (h : header) : header := mset (CanonicalMIMEHeaderKey k) [v] h.
Definition header_add (k v : string) (h : header) : header :=
  let k := CanonicalMIMEHeaderKey k in mset k (default [] (assoc k h) ++ [v]) h.
Definition add_all (h : header) (kvs : string * list string) : header := foldl (fun h v => header_add kvs.1 v h) h kvs.2.
Definition mergeHeaders (base extras : header) : header :=
  foldl (fun out kvs => mset kvs.1 (default [] (assoc kvs.1 out) ++ kvs.2) out) base extras.
Definition basic_auth (user pass : string) : string := "Basic " +:+ b64_encode (user +:+ ":" +:+ pass).
Definition extra_header (h : header) (line : string) : header :=
  match cut 58 line with
  | Some (k, v) => if bool_decide (k = "") then h else header_set (trim_space k) (trim_space v) h
  | None => h
  end.
Definition is_cookie (k : string) : bool := fold_equal k "Cookie".
Definition forwarded (h incoming : header) : header := foldl (fun h kvs => if is_cookie kvs.1 then h else add_all h kvs) h incoming.

(** ** The request that is sent *)
Record outgoing := MkOutgoing { o_method : string; o_url : string; o_header : header; o_body : option string; o_length : option Z }.
Definition errResp (status : Z) (msg : string) : Response :=
  MkResponse status (Z.of_nat (strlen msg)) (b64_encode msg) [("Content-Type", ["text/plain"])].
Section proxy.
(** The error of [http.NewRequestWithContext], base64's error text, and the
    exchange: status, headers and the body or the error of reading it. *)
Context (request_error : string -> string -> option string) (b64_error : string -> string).
Context (exchange : outgoing -> result (Z * header * result string)).

Definition auth_headers (p : Proxy) : header :=
  let h := if negb (bool_decide (Username p = "")) && negb (bool_decide (Password p = "")) then header_set "Authorization" (basic_auth (Username p) (Password p)) [] else [] in
  foldl extra_header h (ExtraHeaders p).
Definition request_of (p : Proxy) (fullURL : string) (req : Request) : result outgoing :=
  let method := if bool_decide (g_method req = "") then "GET" else g_method req in
  match (if bool_decide (g_body req = "") then Ok None
         else match b64_decode (g_body req) with Some b => Ok (Some b) | None => Err (b64_error (g_body req)) end) with
  | Err e => Err ("Invalid base64 body: " +:+ e)
  | Ok body =>
    match request_error method fullURL with
    | Some e => Err ("Build request: " +:+ e)
    | None =>
      let h := forwarded (auth_headers p) (g_header req) in
      Ok (if 0 <? g_content_length req
          then MkOutgoing method fullURL (header_set "Content-Length" (itoa (g_content_length req)) h) body (Some (g_content_length req))
          else MkOutgoing method fullURL h body None)
    end
  end.
Definition do_ (p : Proxy) (fullURL : string) (req : Request) : Response :=
  match request_of p fullURL req with
  | Err e => errResp 400 e
  | Ok out =>
    match exchange out with
    | Err e => errResp 502 ("Upstream error: " +:+ e)
    | Ok (_, _, Err e) => errResp 502 ("Read upstream body: " +:+ e)
    | Ok (status, h, Ok raw) => MkResponse status (Z.of_nat (strlen raw)) (b64_encode raw) h
    end
  end.
Definition HandleGrafana (p : Proxy) (req : Request) : Response :=
  if bool_decide (GrafanaURL p = "") then errResp 503 "Grafana not configured (GRAFANA_URL unset)"
  else do_ p (GrafanaURL p +:+ g_url req) req.
Definition HandleAPI (p : Proxy) (baseURL : string) (req : Request) : Response :=
  if bool_decide (baseURL = "") then errResp 400 "Missing X-API-Base-URL header"
  else do_ p (trim_right_slashes baseURL +:+ g_url req) req.
Definition with_header (h : header) (req : Request) : Request := MkGrafana (g_method req) (g_url req) (g_content_length req) (g_body req) h.
Definition HandlePrometheus (p : Proxy) (req : Request) : Response :=
  let base := promBase p in
  if bool_decide (base = "") then errResp 503 "Prometheus not configured (PROMETHEUS_URL unset)"
  else do_ p (base +:+ g_url req) (with_header (mergeHeaders (g_header req) (PrometheusHeaders p)) req).
(** cmd/agent/main.go, [grafanaAdapter]. *)
Definition handle_proxy (p : Proxy) (kind : proxy_kind) (req : Request) : Response :=
  match kind with
  | ProxyAPI base => HandleAPI p base req
  | ProxyPrometheus => HandlePrometheus p req
  | ProxyGrafana => HandleGrafana p req
  end.
End proxy.

(** ** What is forwarded *)
Lemma assoc_header_add k v h k' : assoc k' (header_add k v h) =
  if decide (k' = CanonicalMIMEHeaderKey k) then Some (default [] (assoc k' h) ++ [v]) else assoc k' h.
Proof. unfold header_add. rewrite assoc_mset. case_decide as E; [|done]. by rewrite E. Qed.
(** Cookies of the caller are not forwarded, under any spelling of the name. *)
Lemma add_all_other k vs h k' : k' <> CanonicalMIMEHeaderKey k -> assoc k' (add_all h (k, vs)) = assoc k' h.
Proof.
  intros Hk. unfold add_all. revert h. induction vs as [|v vs IH]; intros h; [done|]. cbn [foldl fst snd] in *. rewrite IH, assoc_header_add. by rewrite decide_False.
Qed.
Lemma add_all_prefix kvs h k l : assoc k h = Some l -> exists l', assoc k (add_all h kvs) = Some (l ++ l').
Proof.
  unfold add_all. generalize (kvs.2) as vs. intros vs. revert h l. induction vs as [|v vs IH]; intros h l Hl; cbn [foldl]; [exists []; by rewrite app_nil_r|].
  destruct (decide (k = CanonicalMIMEHeaderKey kvs.1)) as [E|E].
  - destruct (IH (header_add kvs.1 v h) (l ++ [v])) as [l' Hl']; [by rewrite assoc_header_add, decide_True, Hl|].
    exists (v :: l'). by rewrite Hl', <- app_assoc.
  - apply IH. by rewrite assoc_header_add, decide_False.
Qed.
Lemma canonical_char (upper : bool) c d :
  (if upper && in_range 97 122 (byte c) then chr (byte c - 32) else if negb upper && in_range 65 90 (byte c) then chr (byte c + 32) else c) = d ->
  c = d \/ c = chr (byte d + 32) /\ upper = true \/ c = chr (byte d - 32) /\ upper = false.
Proof.
  destruct upper; cbn [andb negb]; intros E; case_match eqn:Ec; subst d; try by left.
  - right. left. split; [|done]. apply in_range_true in Ec. rewrite byte_chr by lia. apply byte_inj. rewrite byte_chr by lia. lia.
  - right. right. split; [|done]. apply in_range_true in Ec. rewrite byte_chr by lia. apply byte_inj. rewrite byte_chr by lia. lia.
Qed.
(** The canonical name is Cookie for its spellings only. *)
Lemma canonical_cookie k : CanonicalMIMEHeaderKey k = "Cookie" -> is_cookie k = true.
Proof.
  unfold CanonicalMIMEHeaderKey. case_match; [|by intros ->].
  destruct k as [|c1 [|c2 [|c3 [|c4 [|c5 [|c6 [|c7 k]]]]]]]; cbn [canonical_case]; intros E; try discriminate E.
  injection E as E1 E2 E3 E4 E5 E6.
  apply (canonical_char true c1 "C") in E1 as [->|[[-> _]|[_ ?]]]; [..|done]; apply (canonical_char false c2 "o") in E2 as [->|[[_ ?]|[-> _]]]; try done;
  apply (canonical_char false c3 "o") in E3 as [->|[[_ ?]|[-> _]]]; try done; apply (canonical_char false c4 "k") in E4 as [->|[[_ ?]|[-> _]]]; try done;
  apply (canonical_char false c5 "i") in E5 as [->|[[_ ?]|[-> _]]]; try done; apply (canonical_char false c6 "e") in E6 as [->|[[_ ?]|[-> _]]]; try done;
  vm_compute; reflexivity.
Qed.
Lemma cookies_dropped h incoming : assoc "Cookie" (forwarded h incoming) = assoc "Cookie" h.
Proof.
  unfold forwarded. revert h. induction incoming as [|[k vs] incoming IH]; intros h; [done|]. cbn [foldl fst]. rewrite IH. case_match eqn:E; [done|].
  apply add_all_other. intros Hk. by rewrite canonical_cookie in E.
Qed.

(** ** Where the credentials go

    Whatever URL is requested, Grafana's user name and password are the first
    Authorization value that is sent. *)
Lemma forwarded_prefix h incoming k l : assoc k h = Some l -> exists l', assoc k (forwarded h incoming) = Some (l ++ l').
Proof.
  unfold forwarded. revert h l. induction incoming as [|kvs incoming IH]; intros h l Hl; cbn [foldl]; [exists []; by rewrite app_nil_r|].
  case_match; [by apply IH|]. destruct (add_all_prefix kvs h k l Hl) as [l1 H1]. destruct (IH _ _ H1) as [l2 H2]. exists (l1 ++ l2). by rewrite H2, app_assoc.
Qed.
Lemma credentials_sent request_error b64_error p url req out :
  Username p <> "" -> Password p <> "" -> ExtraHeaders p = [] -> request_of request_error b64_error p url req = Ok out ->
  o_url out = url /\ exists l, assoc "Authorization" (o_header out) = Some (basic_auth (Username p) (Password p) :: l).
Proof.
  intros Hu Hp He. unfold request_of. assert (assoc "Authorization" (auth_headers p) = Some [basic_auth (Username p) (Password p)]) as Ha.
  { unfold auth_headers. rewrite He, !bool_decide_false by done. reflexivity. }
  destruct (forwarded_prefix _ (g_header req) _ _ Ha) as [l Hl].
  destruct (if bool_decide (g_body req = "") then _ else _) as [body|]; [|done]. destruct (request_error _ url); [done|].
  case_match; intros [= <-]; (split; [done|]); exists l; cbn [o_header]; [|done]. unfold header_set. rewrite assoc_mset, decide_False by (vm_compute; congruence). done.
Qed.

(** An unauthenticated message that names another host gets them there. *)
Definition sample_proxy : Proxy := New "http://grafana:80/" "admin" "secret" [] "" [].
Definition q (s : string) : string := String (chr 34) s +:+ String (chr 34) "".
Definition sample_message : string :=
  "{" +:+ q "method" +:+ ":" +:+ q "GET" +:+ "," +:+ q "url" +:+ ":" +:+ q "/x" +:+ "," +:+ q "header" +:+ ":{" +:+ q "X-NB-Request-Type" +:+ ":[" +:+ q "APIProxy"
  +:+ "]," +:+ q "X-API-Base-URL" +:+ ":[" +:+ q "http://elsewhere" +:+ "]}}".
Example credentials_leave_the_cluster : forall ed oaep uuid marshal d, d_grafana d = true ->
  exists req out, (handle_start ed oaep uuid marshal 0 0 sample_message d).1 = CallGrafana (ProxyAPI "http://elsewhere") "" req /\
    request_of (fun _ _ => None) (fun _ => "") sample_proxy ("http://elsewhere" +:+ g_url req) req = Ok out /\
    o_url out = "http://elsewhere/x" /\ assoc "Authorization" (o_header out) = Some ["Basic YWRtaW46c2VjcmV0"].
Proof.
  intros ed oaep uuid marshal d Hd. unfold handle_start.
  assert (isJSONObject (pr_body (read_probe sample_message)) = false) as -> by (vm_compute; reflexivity).
  assert (negb (bool_decide (pr_method (read_probe sample_message) = "")) && negb (bool_decide (pr_url (read_probe sample_message) = "")) = true) as -> by (vm_compute; reflexivity).
  unfold handleGrafana. assert (read_grafana sample_message = Some (MkGrafana "GET" "/x" 0 "" [("X-NB-Request-Type", ["APIProxy"]); ("X-API-Base-URL", ["http://elsewhere"])])) as ->
    by (vm_compute; reflexivity).
  rewrite Hd. cbn [fst]. eexists _, _. split; [reflexivity|]. split; [vm_compute; reflexivity|]. split; reflexivity.
Qed.
