(* ===== verification/AgentListers.v ===== *)
(** * What the trigger engine and the findings look up in the cluster

    cmd/agent: k8s_events_lister.go and k8s_events_cache.go (the events of an
    object), node_locator.go (the node of a node-exporter series),
    service_backends_lister.go (pods and templates a Service selects),
    node_agent_counter.go (running node agents).  The API server's answers and
    the informer's cache are arguments; what runs under a mutex is a step. *)

From stdpp Require Import strings sorting.
From S2P Require Import Prelude GoText GoJson Lru RateLimit Churn Owner Engine Finding Interact.
From S2P Require Import KubeApi.

#[local] Set Default Proof Using "Type".

(** ** Events *)
Record object_reference := MkReference { or_Kind : string; or_Namespace : string; or_Name : string }.
Record event := MkEventObject {
  eo_Name : string; eo_Namespace : string; eo_UID : string; eo_ResourceVersion : string;
  eo_Involved : object_reference; eo_Type : string; eo_Reason : string; eo_Message : string; eo_Count : Z;
  eo_Component : string; eo_ReportingController : string;
  eo_Creation : time; eo_First : time; eo_Last : time; eo_EventTime : time;
  eo_Series : option (Z * time) (* count, last observed *);
  eo_rest : json (* the other members *) }.

Fixpoint pickEventTime (candidates : list time) : time :=
  match candidates with
  | [] => zero_time
  | t :: l => if is_zero_time t then pickEventTime l else t
  end.
(** The first-seen column is not read by anyone and left out. *)
Definition toAgentEvent (e : event) : K8sEvent :=
  let source := if bool_decide (eo_Component e = "") then eo_ReportingController e else eo_Component e in
  let last := pickEventTime [eo_Last e; eo_EventTime e; eo_Creation e] in
  let last := match eo_Series e with Some (_, t) => if is_zero_time t then last else t | None => last end in
  let count := match eo_Series e with Some (n, _) => if 0 <? n then n else eo_Count e | None => eo_Count e end in
  MkK8sEvent (eo_Type e) (eo_Reason e) (trim_space (eo_Message e)) count last source.
(** Most recent first, and at most [limit]. *)
Definition newest_first (a b : K8sEvent) : Prop := ev_last_seen b <= ev_last_seen a.
#[export] Instance newest_first_dec : RelDecision newest_first.
Proof. intros a b. unfold newest_first. apply _. Defined.
Definition most_recent (limit : Z) (l : list K8sEvent) : list K8sEvent := take (Z.to_nat limit) (merge_sort newest_first l).

(** *** The live lister

    [list] is the answer to a List of the events of a namespace with a field
    selector and a limit. *)
Definition field_selector (kind name : string) : string :=
  join "," ((if bool_decide (kind = "") then [] else ["involvedObject.kind=" +:+ kind])
            ++ (if bool_decide (name = "") then [] else ["involvedObject.name=" +:+ name])).
Definition live_ListEvents (client : bool) (list : string -> string -> Z -> result (list event)) : K8sEventsLister :=
  fun namespace kind name limit =>
  if negb client then Ok []
  else if bool_decide (namespace = "") && bool_decide (kind = "") && bool_decide (name = "") then Ok []
  else match list namespace (field_selector kind name) (limit * 2) with
       | Err e => Err e
       | Ok l => Ok (most_recent limit (map toAgentEvent l))
       end.

(** *** The cached lister *)
Definition cachedEventMessageMax : nat := 512.
Definition involvedKey (kind name : string) : string := to_lower kind +:+ "/" +:+ name.
Fixpoint rune_boundary (s : string) (n : nat) : nat :=
  match n with
  | O => O
  | S k => if match String.get n s with Some c => rune_start c | None => true end then n else rune_boundary s k
  end.
Definition truncateUTF8 (s : string) (n : nat) : string :=
  if decide (strlen s <= n)%nat then s else String.substring 0 (rune_boundary s n) s.
Definition trimEvent (e : event) : event :=
  MkEventObject (eo_Name e) (eo_Namespace e) (eo_UID e) (eo_ResourceVersion e)
    (MkReference (or_Kind (eo_Involved e)) (or_Namespace (eo_Involved e)) (or_Name (eo_Involved e)))
    (eo_Type e) (eo_Reason e) (truncateUTF8 (trim_space (eo_Message e)) cachedEventMessageMax) (eo_Count e)
    (eo_Component e) (eo_ReportingController e) (eo_Creation e) (eo_First e) (eo_Last e) (eo_EventTime e) (eo_Series e) JNull.
(** The informer: whether it has synced, and what its cache holds. *)
Record informer := MkInformer { in_synced : bool; in_cache : list event }.
Definition involved_in (kind name : string) (e : event) : bool :=
  bool_decide (involvedKey (or_Kind (eo_Involved e)) (or_Name (eo_Involved e)) = involvedKey kind name).
Definition in_namespace (namespace : string) (e : event) : bool := bool_decide (namespace = "") || bool_decide (eo_Namespace e = namespace).
Definition cached_ListEvents (inf : informer) (live : K8sEventsLister) : K8sEventsLister := fun namespace kind name limit =>
  if negb (in_synced inf) then live namespace kind name limit
  else
    let serve (index : event -> bool) :=
      Ok (most_recent limit (map toAgentEvent (List.filter (in_namespace namespace) (List.filter index (in_cache inf))))) in
    if negb (bool_decide (kind = "")) && negb (bool_decide (name = "")) then serve (involved_in kind name)
    else if bool_decide (kind = "") && bool_decide (name = "") && negb (bool_decide (namespace = "")) then
      serve (fun e => bool_decide (eo_Namespace e = namespace))
    else live namespace kind name limit.

(** ** The node of a series *)
Definition nodeIPCacheTTL : duration := 2 * minute.
Record node := MkNode { nd_Name : string; nd_Addresses : list (string * string) (* type, address *) }.
Record locator := MkNodes { ipToNode : option (list (string * string)); cachedAt : time; refreshed : bool }.
Definition newNodeLocator : locator := MkNodes None zero_time false.
Definition address_type (t : string) : bool := bool_decide (t ∈ ["InternalIP"; "ExternalIP"; "Hostname"]).
Definition node_addresses (nodes : list node) : list (string * string) :=
  foldl (fun m nd => foldl (fun m a => if address_type a.1 && negb (bool_decide (a.2 = "")) then mset a.2 (nd_Name nd) m else m) m (nd_Addresses nd)) [] nodes.
(** [get] is the node name of a pod, or the error. *)
Definition node_for_pod (client : bool) (get : string -> string -> result string) (namespace podName : string) : string :=
  if negb client || bool_decide (trim_space podName = "") || bool_decide (trim_space namespace = "") then ""
  else match get namespace podName with Ok n => n | Err _ => "" end.
Definition lookupIP (now : time) (afterRefresh : bool) (ip : string) (l : locator) : string :=
  match ipToNode l with
  | None => ""
  | Some m => if negb afterRefresh && (nodeIPCacheTTL <? time_sub now (cachedAt l)) then "" else default "" (assoc ip m)
  end.
(** One pass through [refreshIPs], which one goroutine at a time executes:
    the check at [now], the answer of the List if one is made, the time it is
    stored.  The result is whether the map is fresh and whether it listed. *)
Definition still_fresh (now : time) (l : locator) : bool := refreshed l && (time_sub now (cachedAt l) <=? nodeIPCacheTTL).
Definition refreshIPs (now : time) (answer : result (list node)) (stored : time) (l : locator) : bool * bool * locator :=
  if still_fresh now l then (true, false, l)
  else match answer with
       | Err _ => (false, true, l)
       | Ok nodes => (true, true, MkNodes (Some (node_addresses nodes)) stored true)
       end.
Definition node_for_ip (client : bool) (now now' : time) (answer : result (list node)) (stored : time) (ip : string) (l : locator) : string * locator :=
  if negb client || bool_decide (trim_space ip = "") then ("", l)
  else
    let found := lookupIP now false ip l in
    if negb (bool_decide (found = "")) then (found, l)
    else let '(ok, _, l) := refreshIPs now' answer stored l in
         (if ok then lookupIP now' true ip l else "", l).

(** ** Counting the node agents *)
Definition nodeAgentCountTTL : duration := minute.
Record counter := MkCounter { started : list time; listed : time }.
(** [answer] holds the start times of the running pods that have one. *)
Definition count_agents (now : time) (answer : result (list (option time))) (stored : time) (startedBefore : time) (c : counter) : result Z * counter :=
  let stale := is_zero_time (listed c) || (nodeAgentCountTTL <=? time_sub now (listed c)) in
  let number c := Z.of_nat (length (List.filter (fun t => time_before t startedBefore) (started c))) in
  if stale then
    match answer with
    | Err e => (Err e, c)
    | Ok pods => let c := MkCounter (omap id pods) stored in (Ok (number c), c)
    end
  else (Ok (number c), c).

(** ** What a Service selects *)
Module Backends.
Abbreviation labels := (list (string * string)).
Inductive request :=
  | ListPods (ns : string) (selector : option string)  (* names and labels *)
  | ListTemplates (resource ns : string)                (* pod template labels *)
  | ListRollouts (ns : string).                         (* pod template labels; whether the API is missing or forbidden *)
Definition reply (q : request) : Type :=
  match q with
  | ListPods _ _ => string + list (string * labels)
  | ListTemplates _ _ => string + list labels
  | ListRollouts _ => string * bool + list labels
  end.
Abbreviation act := (prog reply).
Section backends.
(** labels.Set.String and the selector of a set; whether the clients are set. *)
Context (set_string : labels -> string) (matches : labels -> labels -> bool) (client dyn : bool).
Definition refuse (namespace : string) (selector : labels) : bool := negb client || bool_decide (namespace = "") || bool_decide (selector = []).
Definition AnyPodMatching (namespace : string) (selector : labels) : act (result bool) :=
  if refuse namespace selector then Ret (Ok false)
  else let! got := ask (ListPods namespace (Some (set_string selector))) in
       Ret (match got with inl e => Err e | inr l => Ok (negb (bool_decide (l = []))) end).
(** The latch says that the rollouts API is known to be missing. *)
Definition anyRolloutTemplateMatching (namespace : string) (selector : labels) (latch : bool) : act (result bool * bool) :=
  if negb dyn || latch then Ret (Ok false, latch)
  else let! got := ask (ListRollouts namespace) in
       Ret (match got with
            | inl (e, unsupported) => if unsupported : bool then (Ok false, true) else (Err e, latch)
            | inr l => (Ok (existsb (fun t => negb (bool_decide (t = [])) && matches selector t) l), latch)
            end).
Fixpoint sweep (namespace : string) (selector : labels) (resources : list string) (latch : bool) : act (result bool * bool) :=
  match resources with
  | [] => anyRolloutTemplateMatching namespace selector latch
  | r :: resources =>
    let! got := ask (ListTemplates r namespace) in
    match got with
    | inl e => Ret (Err e, latch)
    | inr l => if existsb (matches selector) l then Ret (Ok true, latch) else sweep namespace selector resources latch
    end
  end.
Definition AnyWorkloadTemplateMatching (namespace : string) (selector : labels) (latch : bool) : act (result bool * bool) :=
  if refuse namespace selector then Ret (Ok false, latch)
  else sweep namespace selector ["deployments"; "statefulsets"; "daemonsets"] latch.
Definition by_name (a b : string * labels) : Prop := String.le a.1 b.1.
#[local] Instance by_name_dec : RelDecision by_name.
Proof. intros a b. unfold by_name. apply _. Defined.
Definition ListPodLabels (namespace : string) (limit : Z) : act (result (list PodLabelSample)) :=
  if negb client || bool_decide (namespace = "") || (limit <=? 0) then Ret (Ok [])
  else let! got := ask (ListPods namespace None) in
       Ret (match got with
            | inl e => Err e
            | inr l => Ok (map (fun p => MkSample p.1 p.2) (merge_sort by_name (take (Z.to_nat limit) l)))
            end).
End backends.
End Backends.

(** ** The cache shows what the live lister shows *)
Lemma trim_left_prefix s : exists pre, s = pre +:+ trim_left s.
Proof. induction s as [|c s [pre IH]]; [by exists ""|]. cbn [trim_left]. case_match; [|by exists ""]. exists (String c pre). by rewrite app_cons, <- IH. Qed.
Lemma trim_right_prefix s : exists post, s = srev (trim_left (srev s)) +:+ post.
Proof. destruct (trim_left_prefix (srev s)) as [pre E]. exists (srev pre). rewrite <- srev_sapp, <- E. by rewrite srev_involutive. Qed.
Lemma trim_left_fixed s : trim_left (trim_left s) = trim_left s.
Proof. induction s as [|c s IH]; [done|]. cbn [trim_left]. case_match eqn:E; [done|]. cbn [trim_left]. by rewrite E. Qed.
Definition no_space_first (s : string) : bool := match s with String c _ => negb (is_space c) | EmptyString => true end.
Lemma trim_left_none s : no_space_first s = true -> trim_left s = s.
Proof. destruct s as [|c s]; [done|]. cbn. by intros ->%negb_true_iff. Qed.
Lemma trim_left_first s : no_space_first (trim_left s) = true.
Proof. induction s as [|c s IH]; [done|]. cbn. case_match eqn:E; [done|]. cbn. by rewrite E. Qed.
Lemma prefix_first s t : no_space_first (s +:+ t) = true -> no_space_first s = true.
Proof. by destruct s. Qed.
Lemma trim_space_first s : no_space_first (trim_space s) = true.
Proof. unfold trim_space. destruct (trim_right_prefix (trim_left s)) as [post E]. apply (prefix_first _ post). rewrite <- E. apply trim_left_first. Qed.
Lemma trim_space_last s : no_space_first (srev (trim_space s)) = true.
Proof. unfold trim_space. rewrite srev_involutive. apply trim_left_first. Qed.
Lemma trim_space_trimmed s : no_space_first s = true -> no_space_first (srev s) = true -> trim_space s = s.
Proof. intros Hf Hl. unfold trim_space. rewrite (trim_left_none s) by done. rewrite trim_left_none by done. apply srev_involutive. Qed.
Lemma trim_space_twice s : trim_space (trim_space s) = trim_space s.
Proof. apply trim_space_trimmed; [apply trim_space_first|apply trim_space_last]. Qed.
(** Trimming a prefix of a trimmed text gives a prefix of it. *)
Lemma trim_space_prefix s t : no_space_first (s +:+ t) = true -> exists u, s +:+ t = trim_space s +:+ u.
Proof.
  intros Hf%prefix_first. unfold trim_space. rewrite (trim_left_none s Hf). destruct (trim_right_prefix s) as [post E]. exists (post +:+ t).
  rewrite <- sapp_assoc. by rewrite <- E.
Qed.
Lemma substring_split n s : exists t, s = String.substring 0 n s +:+ t.
Proof. revert s. induction n as [|n IH]; intros [|c s]; [by exists ""|by exists (String c s)|by exists ""|]. destruct (IH s) as [t E]. exists t. cbn. by rewrite app_cons, <- E. Qed.
Lemma substring_shorter n s t : (n <= strlen s)%nat -> String.substring 0 n (s +:+ t) = String.substring 0 n s.
Proof.
  revert s. induction n as [|n IH]; intros [|c s] Hn; [by rewrite ?app_nil_l; destruct t|done|by inversion Hn|]. rewrite app_cons. cbn. rewrite IH; [done|]. rewrite strlen_cons in Hn. lia.
Qed.
(** The row of a table is the same for the cached form of an event, as long
    as the cut message is longer than what the table shows. *)
Lemma cached_row now e : let m := trim_space (eo_Message e) in
  (strlen m <= 512 \/ 200 < strlen (trim_space (truncateUTF8 m 512)))%nat ->
  event_row now (toAgentEvent (trimEvent e)) = event_row now (toAgentEvent e).
Proof.
  intros m Hm. unfold event_row, toAgentEvent, trimEvent. cbn -[truncateUTF8 truncate pickEventTime trim_space]. do 7 f_equal. fold m.
  unfold cachedEventMessageMax. unfold truncateUTF8 in *. destruct (decide _) as [Hs|Hs]; [subst m; by rewrite trim_space_twice|]. destruct Hm as [|Hm]; [done|].
  set (cut := String.substring 0 _ m) in *. destruct (substring_split (rune_boundary m 512) m) as [t Et]. fold cut in Et.
  assert (no_space_first (cut +:+ t) = true) as Hf by (rewrite <- Et; apply trim_space_first).
  destruct (trim_space_prefix cut t Hf) as [u Eu]. rewrite <- Et in Eu. unfold truncate. rewrite !decide_False by lia. rewrite Eu.
  by rewrite (substring_shorter _ (trim_space cut)) by lia.
Qed.
(** A message of blanks around the cut is shown without the mark. *)
Example blanks_around_the_cut : let e m := MkEventObject "" "" "" "" (MkReference "" "" "") "" "" m 1 "" "" 0 0 0 0 None JNull in
  let m := String.concat "" (repeat "x" 200) +:+ String.concat "" (repeat " " 400) +:+ "y" in
  (ev_message (toAgentEvent (trimEvent (e m))) = String.concat "" (repeat "x" 200)) /\
  bool_decide (event_row 0 (toAgentEvent (trimEvent (e m))) = event_row 0 (toAgentEvent (e m))) = false.
Proof. split; vm_compute; reflexivity. Qed.

#[local] Instance newest_first_trans : Transitive newest_first.
Proof. intros a b c. unfold newest_first. lia. Qed.
#[local] Instance newest_first_total : Total newest_first.
Proof. intros a b. unfold newest_first. lia. Qed.
Lemma strongly_sorted_app {A} (R : A -> A -> Prop) l k : StronglySorted R (l ++ k) -> StronglySorted R l /\ Forall (fun a => Forall (R a) k) l.
Proof.
  induction l as [|x l IH]; cbn; [by split; constructor|]. intros [Hs [Hl Hk]%Forall_app]%StronglySorted_inv. destruct (IH Hs). split; constructor; done.
Qed.
(** What is kept is sorted, and nothing left out is more recent. *)
Lemma most_recent_spec limit l : exists rest, Permutation l (most_recent limit l ++ rest) /\ StronglySorted newest_first (most_recent limit l) /\
  Forall (fun a => Forall (newest_first a) rest) (most_recent limit l) /\ (length (most_recent limit l) <= Z.to_nat limit)%nat /\
  (rest = [] \/ length (most_recent limit l) = Z.to_nat limit).
Proof.
  unfold most_recent. set (s := merge_sort newest_first l). set (n := Z.to_nat limit). exists (drop n s).
  assert (StronglySorted newest_first (take n s ++ drop n s)) as Hs by (rewrite take_drop; apply StronglySorted_merge_sort; apply _).
  apply strongly_sorted_app in Hs as [Hs Hk]. split_and!; [|done|done|rewrite length_take; lia|].
  - rewrite take_drop. symmetry. apply merge_sort_Permutation.
  - destruct (decide (length s <= n)%nat); [left; by apply drop_ge|right; rewrite length_take; lia].
Qed.

(** Once the informer has synced, the events shown for an object are the
    most recent ones among all cached events about an object of that name and
    that kind, in any case of its letters, within the namespace, if one was
    given: they are in order, at most as many as asked for, none that was
    left out is more recent, and none is left out while there is room; no
    request goes to the API server. *)
Theorem cached_events_shown cluster live namespace kind name limit : kind <> "" -> name <> "" ->
  exists shown rest, cached_ListEvents (MkInformer true (map trimEvent cluster)) live namespace kind name limit = Ok shown /\
    Permutation (map (fun e => toAgentEvent (trimEvent e))
      (List.filter (fun e => bool_decide (to_lower (or_Kind (eo_Involved e)) +:+ "/" +:+ or_Name (eo_Involved e) = to_lower kind +:+ "/" +:+ name)
                             && (bool_decide (namespace = "") || bool_decide (eo_Namespace e = namespace))) cluster)) (shown ++ rest) /\
    StronglySorted newest_first shown /\ Forall (fun a => Forall (newest_first a) rest) shown /\
    (length shown <= Z.to_nat limit)%nat /\ (rest = [] \/ length shown = Z.to_nat limit).
Proof.
  intros Hk Hn. unfold cached_ListEvents. cbn [in_synced negb in_cache]. rewrite !(bool_decide_false _ Hk), !(bool_decide_false _ Hn). cbn [negb andb].
  set (l := map toAgentEvent _). destruct (most_recent_spec limit l) as (rest & Hp & Hs & Hr & Hl & Hm). exists (most_recent limit l), rest.
  split_and!; try done. rewrite <- Hp. subst l. clear. induction cluster as [|e cluster IH]; [done|]. cbn [map List.filter].
  change (involved_in kind name (trimEvent e)) with (bool_decide (to_lower (or_Kind (eo_Involved e)) +:+ "/" +:+ or_Name (eo_Involved e) = to_lower kind +:+ "/" +:+ name)).
  destruct (bool_decide (_ = to_lower kind +:+ "/" +:+ name)); cbn [andb List.filter map]; [|exact IH].
  change (in_namespace namespace (trimEvent e)) with (bool_decide (namespace = "") || bool_decide (eo_Namespace e = namespace)).
  destruct (_ || _); [|exact IH]. cbn [map]. by rewrite IH.
Qed.
Definition sample_event (kind name message : string) (last : time) : event :=
  MkEventObject "e" "demo" "" "" (MkReference kind "demo" name) "Warning" "BackOff" message 3 "kubelet" "" 0 0 last 0 None JNull.
Lemma cached_events_shown_witness :
  let cluster := [sample_event "ConfigMap" "cfg" "old" 5; sample_event "Pod" "cfg" "other" 9; sample_event "ConfigMap" "cfg" "new" 7] in
  cached_ListEvents (MkInformer true (map trimEvent cluster)) (fun _ _ _ _ => Err "no request") "demo" "configmap" "cfg" 1 = Ok [toAgentEvent (sample_event "ConfigMap" "cfg" "new" 7)] /\
  exists shown rest, cached_ListEvents (MkInformer true (map trimEvent cluster)) (fun _ _ _ _ => Err "no request") "demo" "configmap" "cfg" 1 = Ok shown /\
    length (shown ++ rest) = 2%nat.
Proof.
  split; [vm_compute; reflexivity|].
  destruct (cached_events_shown [sample_event "ConfigMap" "cfg" "old" 5; sample_event "Pod" "cfg" "other" 9; sample_event "ConfigMap" "cfg" "new" 7]
    (fun _ _ _ _ => Err "no request") "demo" "configmap" "cfg" 1 ltac:(discriminate) ltac:(discriminate)) as (shown & rest & Hs & Hp & _).
  exists shown, rest. split; [exact Hs|]. apply Permutation_length in Hp. rewrite <- Hp. vm_compute. reflexivity.
Defined.

(** ** How often nodes are listed *)
Lemma refresh_listed now answer stored l ok l' : refreshIPs now answer stored l = (ok, true, l') -> still_fresh now l = false.
Proof. unfold refreshIPs. by case_match. Qed.
Lemma refresh_success now answer stored l l' : refreshIPs now answer stored l = (true, true, l') -> refreshed l' = true /\ cachedAt l' = stored.
Proof. unfold refreshIPs. case_match; [done|]. case_match; [|done]. by intros [= <-]. Qed.
(** The passes of all goroutines, in the order in which they hold the lock:
    time of the check, answer, time of storing. *)
Fixpoint refreshes (ops : list (time * result (list node) * time)) (l : locator) : list (bool * bool) * locator :=
  match ops with
  | [] => ([], l)
  | (now, answer, stored) :: ops =>
    let '(ok, listed, l) := refreshIPs now answer stored l in
    let '(rs, l) := refreshes ops l in ((ok, listed) :: rs, l)
  end.
(** After a List has succeeded no other is made for two minutes, however many
    alerts ask for addresses that are not known. *)
Lemma one_list_per_ttl ops l : refreshed l = true ->
  Forall (fun op => cachedAt l <= op.1.1 <= cachedAt l + nodeIPCacheTTL) ops ->
  refreshes ops l = (map (fun _ => (true, false)) ops, l).
Proof.
  intros Hr. induction 1 as [|[[now answer] stored] ops Ho _ IH]; [done|]. cbn [refreshes map fst snd] in *.
  unfold refreshIPs, still_fresh. rewrite Hr. assert (time_sub now (cachedAt l) <=? nodeIPCacheTTL = true) as ->; [|cbn [andb]; by rewrite IH].
  apply Z.leb_le. unfold time_sub, nodeIPCacheTTL, minute, second in *. unfold int64_max, int64_min. repeat case_match; lia.
Qed.
(** An answer comes from a map that is at most two minutes old, or was just
    fetched. *)
Lemma node_for_ip_fresh client now now' answer stored ip l n l' : node_for_ip client now now' answer stored ip l = (n, l') -> n <> "" ->
  time_sub now (cachedAt l') <= nodeIPCacheTTL \/ time_sub now' (cachedAt l') <= nodeIPCacheTTL \/ cachedAt l' = stored.
Proof.
  unfold node_for_ip. case_match; [by intros [= <- <-]|]. case_match eqn:E; [intros [= <- <-] _|].
  - left. unfold lookupIP in E. destruct (ipToNode l); [|done]. destruct (negb false && (nodeIPCacheTTL <? time_sub now (cachedAt l))) eqn:Et; [done|].
    cbn in Et. lia.
  - unfold refreshIPs. destruct (still_fresh now' l) eqn:Ef.
    + intros [=] _. subst l'. right. left. unfold still_fresh in Ef. apply andb_prop in Ef as [_ Ef]. lia.
    + destruct answer as [nodes|e]; [|by intros [= <- <-]]. intros [=] _. subst l'. by right; right.
Qed.
(** Counts within a minute of a listing make no request. *)
Lemma counts_reuse_listing now answer stored before c : listed c <> zero_time -> listed c <= now < listed c + nodeAgentCountTTL ->
  count_agents now answer stored before c = (Ok (Z.of_nat (length (List.filter (fun t => time_before t before) (started c)))), c).
Proof.
  intros Hl Hn. unfold count_agents. assert (is_zero_time (listed c) || (nodeAgentCountTTL <=? time_sub now (listed c)) = false) as ->; [|done].
  apply orb_false_intro; [by apply Z.eqb_neq|]. apply Z.leb_gt. unfold time_sub, nodeAgentCountTTL, minute, second, int64_max, int64_min in *. repeat case_match; lia.
Qed.

(** ** The template sweep *)
Section sweep.
Import Backends.
Context (matches : labels -> labels -> bool).
Definition listed_template (l : list (Interact.event reply)) (t : labels) : Prop :=
  (exists r ns ts, Event (R := reply) (ListTemplates r ns) (inr ts) ∈ l /\ t ∈ ts) \/
  (exists ns ts, Event (R := reply) (ListRollouts ns) (inr ts) ∈ l /\ t ∈ ts /\ t <> []).
(** A positive answer rests on a template that was listed and carries the
    selector; a negative one on all four kinds, or on a missing API. *)
Lemma sweep_true dyn namespace selector resources latch l :
  wp anything (sweep matches dyn namespace selector resources latch) l
    (fun l' r => r.1 = Ok true -> exists t, listed_template l' t /\ matches selector t = true).
Proof.
  revert l. induction resources as [|r resources IH]; intros l; cbn [sweep].
  - unfold anyRolloutTemplateMatching. case_match; [by apply wp_ret|]. apply wp_ask. intros [[e u]|ts] _; apply wp_ret; [by destruct u|].
    cbn [fst]. intros [= E]. apply existsb_exists in E as (t & Ht & [Hne%negb_true_iff%bool_decide_eq_false Hm]%andb_prop). exists t. split; [|done]. right.
    exists namespace, ts. split_and!; [set_solver|by apply list_elem_of_In|done].
  - apply wp_ask. intros [e|ts] _; [by apply wp_ret|]. case_match eqn:E; [|apply IH]. apply wp_ret. intros _.
    apply existsb_exists in E as (t & Ht & Hm). exists t. split; [|done]. left. exists r, namespace, ts. split; [set_solver|by apply list_elem_of_In].
Qed.
(** Once the rollouts API is known to be missing it is not asked again. *)
Lemma latched_sweep_quiet dyn namespace selector resources :
  calls (fun q => match q with ListRollouts _ => False | _ => True end) (sweep matches dyn namespace selector resources true).
Proof.
  induction resources as [|r resources IH]; cbn [sweep].
  - unfold anyRolloutTemplateMatching. by rewrite orb_true_r.
  - apply calls_ask_bind; [done|]. intros [e|ts]; [done|]. by destruct (existsb _ _).
Qed.
End sweep.
