(* ===== verification/PromSamples.v ===== *)
(** * Reading Prometheus responses (pkg/enrichers/prom_result.go)

    Sample arrays are scanned directly from the response bytes, with
    encoding/json as the fallback for what the scanner declines.  The scanner
    is related to the decoding it replaced: on every JSON text both give the
    same values, and the same timestamps where the fast path for decimal
    numbers rounds as [strconv.ParseFloat] does. *)

From S2P Require Import Prelude GoText GoJson GoStruct GoFloat CanonJson GoMarshal GoFmt.

#[local] Set Default Proof Using "Type".

(** ** [strconv.ParseFloat] with its value on errors

    [hex] reads the literals with a base prefix: value, and whether the error
    is nil.  A decimal literal that is out of range gives an infinity. *)
Section samples.
Context (hex : string -> float64 * bool).

Definition strip_sign (s : string) : bool * string :=
  match s with
  | String c r => if byte c =? 43 then (false, r) else if byte c =? 45 then (true, r) else (false, s)
  | EmptyString => (false, "")
  end.
Definition base_prefix (s : string) : bool := has_prefix (to_lower (strip_sign s).2) "0x".
Definition decimal_syntax (s : string) : bool :=
  let '(ip, s2) := span_digits s in
  let '(fp, s3) := match s2 with
                   | String c r => if byte c =? 46 then span_digits r else ("", s2)
                   | EmptyString => ("", s2)
                   end in
  bool_decide (is_Some (parse_exponent s3)) && negb (bool_decide (ip +:+ fp = "")).
Definition parse_float64 (s : string) : float64 * bool :=
  match ParseFloat (fun s => if base_prefix s && (hex s).2 then Some (hex s).1 else None) s with
  | Some f => (f, true)
  | None => (if decimal_syntax (strip_sign s).2 then F64Inf (strip_sign s).1
             else if base_prefix s then (hex s).1 else float_zero, false)
  end.

(** ** The decoding through encoding/json *)
Definition unpackScalar (raw : list json) : float64 * string :=
  match raw with
  | t :: v :: _ =>
    (match t with JFloat f => f | JStr s => (parse_float64 s).1 | _ => float_zero end, sprint_v v)
  | _ => (float_zero, "")
  end.
Definition nilable_array (v : json) : bool := match v with JArr _ | JNull => true | _ => false end.
Definition decodeSamplesStdlib (b : string) : result (list (float64 * string)) :=
  match unmarshal_any b with
  | Some (JArr l) => if forallb nilable_array l then Ok (map (fun p => unpackScalar (as_arr p)) l) else Err "json: cannot unmarshal"
  | Some JNull => Ok []
  | _ => Err "json: cannot unmarshal"
  end.

(** ** The scanner

    The cursor is the rest of the bytes.  The loops get one round per byte;
    every round but the last consumes one. *)
Inductive scan_error := BadSample | ComplexSample.
Record rawToken := MkToken { t_raw : string; t_quoted : bool; t_esc : bool }.

(** The body of a string whose opening quote has been read: its bytes,
    whether it has a backslash, and what follows the closing quote. *)
Fixpoint quoted_body (s : string) : option (string * bool * string) :=
  match s with
  | EmptyString => None
  | String c r =>
    if byte c =? 92 then
      match r with
      | EmptyString => None
      | String d r =>
        match quoted_body r with
        | Some (raw, _, rest) => Some (String c (String d raw), true, rest)
        | None => None
        end
      end
    else if byte c =? 34 then Some ("", false, r)
    else match quoted_body r with
         | Some (raw, esc, rest) => Some (String c raw, esc, rest)
         | None => None
         end
  end.
(** What ends an unquoted member. *)
Definition ends_member (c : ascii) : bool := (byte c =? 44) || (byte c =? 93) || (byte c =? 125) || is_ws c.
Definition token (s : string) : scan_error + rawToken * string :=
  match s with
  | EmptyString => inl BadSample
  | String c r =>
    if (byte c =? 91) || (byte c =? 123) then inl ComplexSample
    else if byte c =? 34 then
      match quoted_body r with
      | Some (raw, esc, rest) => inr (MkToken raw true esc, rest)
      | None => inl BadSample
      end
    else
      let '(raw, rest) := span (fun c => negb (ends_member c)) s in
      if bool_decide (raw = "") then inl BadSample else inr (MkToken raw false false, rest)
  end.

(** *** Conversion *)
Definition full (t : rawToken) : string := dquote +:+ t_raw t +:+ dquote.
Definition slow (t : rawToken) : bool := t_esc t || (t_quoted t && negb (valid_utf8 (t_raw t))).
Definition unquoted (t : rawToken) : option string :=
  match unmarshal_any (full t) with Some (JStr s) => Some s | _ => None end.
(** [scale] is multiplied up digit by digit. *)
Definition fast_scale (digits : nat) : float64 := Nat.iter digits (fun f => f_mul f (f_of_Z 10)) (f_of_Z 1).
Definition fastFloat (b : string) : option float64 :=
  if bool_decide (b = "") || (18 <? Z.of_nat (strlen b)) then None
  else
    let '(neg, s) := strip_sign b in
    let '(ip, rest) := span_digits s in
    if bool_decide (ip = "") then None
    else
      let out := f_of_Z (digits_value 0 ip) in
      let out := match rest with
                 | EmptyString => Some out
                 | String c s =>
                   if byte c =? 46 then
                     let '(fp, rest) := span_digits s in
                     if bool_decide (rest = "") && negb (bool_decide (fp = ""))
                     then Some (float_add out (f_div (f_of_Z (digits_value 0 fp)) (fast_scale (strlen fp)))) else None
                   else None
                 end in
      if neg : bool then f_neg <$> out else out.
Definition token_float (t : rawToken) : float64 :=
  if slow t then match unquoted t with Some s => (parse_float64 s).1 | None => float_zero end
  else match fastFloat (t_raw t) with Some f => f | None => (parse_float64 (t_raw t)).1 end.
Definition token_string (t : rawToken) : string :=
  if slow t then default "" (unquoted t)
  else if t_quoted t then t_raw t
  else if bool_decide (t_raw t = "true") || bool_decide (t_raw t = "false") then t_raw t
  else if bool_decide (t_raw t = "null") then "<nil>"
  else let '(f, ok) := parse_float64 (t_raw t) in if ok : bool then float_text f else t_raw t.

(** *** Pairs and arrays *)
Fixpoint members (fuel : nat) (first : bool) (s : string) : scan_error + list rawToken * string :=
  match fuel with
  | O => inl BadSample
  | S fuel =>
    match skip_ws s with
    | EmptyString => inl BadSample
    | String c r =>
      if byte c =? 93 then inr ([], r)
      else
        match (if first then Some (String c r) else if byte c =? 44 then Some (skip_ws r) else None) with
        | None => inl BadSample
        | Some s =>
          match token s with
          | inl e => inl e
          | inr (t, r) =>
            match members fuel false r with
            | inl e => inl e
            | inr (ts, r) => inr (t :: ts, r)
            end
          end
        end
    end
  end.
Definition convert (ts : list rawToken) : float64 * string :=
  match ts with t :: v :: _ => (token_float t, token_string v) | _ => (float_zero, "") end.
Definition pair (s : string) : scan_error + (float64 * string) * string :=
  match skip_ws s with
  | String c r =>
    if byte c =? 91 then
      match members (S (strlen r)) true r with
      | inl e => inl e
      | inr (ts, rest) => inr (convert ts, rest)
      end
    else inl BadSample
  | EmptyString => inl BadSample
  end.
Fixpoint rows (fuel : nat) (s : string) : scan_error + list (float64 * string) :=
  match fuel with
  | O => inl BadSample
  | S fuel =>
    match skip_ws s with
    | EmptyString => inl BadSample
    | String c r =>
      if byte c =? 93 then inr []
      else
        match pair (String c r) with
        | inl e => inl e
        | inr (p, r) =>
          match skip_ws r with
          | EmptyString => inl BadSample
          | String c r =>
            if byte c =? 44 then match rows fuel r with inl e => inl e | inr l => inr (p :: l) end
            else if byte c =? 93 then inr [p]
            else inl BadSample
          end
        end
    end
  end.
Definition bad_sample : string := "prometheus sample: want [<timestamp>, <value>]".
(** [sampleColumns.UnmarshalJSON] over the columns [old]. *)
Definition UnmarshalColumns (old : list (float64 * string)) (b : string) : result (list (float64 * string)) :=
  match skip_ws b with
  | EmptyString => Err bad_sample
  | String c r =>
    if has_prefix (String c r) "null" then Ok old
    else if byte c =? 91 then
      match rows (S (strlen r)) r with
      | inr l => Ok l
      | inl ComplexSample => decodeSamplesStdlib b
      | inl BadSample => Err bad_sample
      end
    else Err bad_sample
  end.
(** [promSample.UnmarshalJSON] over the sample [old]. *)
Definition UnmarshalSample (old : float64 * string) (b : string) : result (float64 * string) :=
  if has_prefix (skip_ws b) "null" then Ok old
  else match pair (skip_ws b) with
       | inr (p, _) => Ok p
       | inl ComplexSample =>
         match unmarshal_any b with
         | Some (JArr l) => Ok (unpackScalar l)
         | Some JNull => Ok (unpackScalar [])
         | _ => Err "json: cannot unmarshal"
         end
       | inl BadSample => Ok old
       end.

(** ** Responses *)
Record envelope := MkEnvelope { en_Status : string; en_ResultType : string; en_Result : string; en_ErrorType : string; en_Error : string }.
Definition zero_envelope : envelope := MkEnvelope "" "" "" "" "".
Definition set_data (f : string) (m : member) (e : envelope) : envelope * bool :=
  if bool_decide (f = "resultType") then
    let '(t, ok) := set_string (en_ResultType e) m in (MkEnvelope (en_Status e) t (en_Result e) (en_ErrorType e) (en_Error e), ok)
  else (MkEnvelope (en_Status e) (en_ResultType e) (set_raw m) (en_ErrorType e) (en_Error e), true).
Definition set_envelope (f : string) (m : member) (e : envelope) : envelope * bool :=
  if bool_decide (f = "status") then
    let '(t, ok) := set_string (en_Status e) m in (MkEnvelope t (en_ResultType e) (en_Result e) (en_ErrorType e) (en_Error e), ok)
  else if bool_decide (f = "data") then set_struct ["resultType"; "result"] set_data e m
  else if bool_decide (f = "errorType") then
    let '(t, ok) := set_string (en_ErrorType e) m in (MkEnvelope (en_Status e) (en_ResultType e) (en_Result e) t (en_Error e), ok)
  else let '(t, ok) := set_string (en_Error e) m in (MkEnvelope (en_Status e) (en_ResultType e) (en_Result e) (en_ErrorType e) t, ok).
Definition read_envelope (raw : string) : envelope * bool :=
  unmarshal_struct ["status"; "data"; "errorType"; "error"] set_envelope raw zero_envelope.

Record vectorSeries := MkVector { vs_Metric : smap; vs_Value : float64 * string }.
Record matrixSeries := MkMatrix { ms_Metric : smap; ms_Values : list (float64 * string) }.
Definition or_old {A} (old : A) (r : result A) : A * bool := match r with Ok a => (a, true) | Err _ => (old, false) end.
Definition set_vector (f : string) (m : member) (s : vectorSeries) : vectorSeries * bool :=
  if bool_decide (f = "metric") then let '(l, ok) := set_string_map (vs_Metric s) m in (MkVector l (vs_Value s), ok)
  else let '(v, ok) := or_old (vs_Value s) (UnmarshalSample (vs_Value s) (m_raw m)) in (MkVector (vs_Metric s) v, ok).
Definition set_matrix (f : string) (m : member) (s : matrixSeries) : matrixSeries * bool :=
  if bool_decide (f = "metric") then let '(l, ok) := set_string_map (ms_Metric s) m in (MkMatrix l (ms_Values s), ok)
  else let '(v, ok) := or_old (ms_Values s) (UnmarshalColumns (ms_Values s) (m_raw m)) in (MkMatrix (ms_Metric s) v, ok).
(** A list of series from the text of a member; no text is an error. *)
Definition decode_list {S} (fields : list string) (set_field : string -> member -> S -> S * bool) (zero : S) (raw : string) : option (list S) :=
  if bool_decide (raw = "") then None
  else let '(l, ok) := set_list (set_struct fields set_field) zero [] (of_raw raw) in if ok : bool then Some l else None.
Definition read_vector : string -> option (list vectorSeries) := decode_list ["metric"; "value"] set_vector (MkVector None (float_zero, "")).
Definition read_matrix : string -> option (list matrixSeries) := decode_list ["metric"; "values"] set_matrix (MkMatrix None []).

(** ** The wire shape *)
Definition labels_json (m : smap) : json := match m with None => JNull | Some l => JObj (map (fun kv => (kv.1, JStr kv.2)) l) end.
Definition sample_json (p : float64 * string) : json := JObj [("timestamp", JFloat p.1); ("value", JStr p.2)].
Definition vectorToWire (l : list vectorSeries) : json :=
  JArr (map (fun s => JObj [("metric", labels_json (vs_Metric s)); ("value", sample_json (vs_Value s))]) l).
Definition matrixToWire (l : list matrixSeries) : json :=
  JArr (map (fun s => JObj [("metric", labels_json (ms_Metric s)); ("timestamps", JArr (map (fun p => JFloat p.1) (ms_Values s)));
                            ("values", JArr (map (fun p => JStr p.2) (ms_Values s)))]) l).
Definition scalarToWire (raw : list json) : json := sample_json (unpackScalar raw).
Definition result_dict (result_type : string) (vector series scalar text : json) : list (string * json) :=
  [("result_type", JStr result_type); ("vector_result", vector); ("series_list_result", series); ("scalar_result", scalar); ("string_result", text)].
Definition errorEnvelope (msg : string) : list (string * json) := result_dict "error" JNull JNull JNull (JStr msg).
(** Numbers outside the float64 range are left out of an [any]. *)
Fixpoint in_any (v : json) : json :=
  match v with
  | JOther _ => JNull
  | JArr l => JArr (map in_any l)
  | JObj m => JObj (map (fun kv => (kv.1, in_any kv.2)) m)
  | _ => v
  end.
Definition PrometheusQueryResultDict (quote : string -> string) (raw : string) : result (list (string * json)) :=
  if bool_decide (raw = "") then Err "empty Prometheus response"
  else
    let '(top, ok) := read_envelope raw in
    if negb ok then Err "decode prometheus response: "
    else if negb (bool_decide (en_Status top = "success")) then Ok (errorEnvelope (en_Error top))
    else
      let t := en_ResultType top in
      if bool_decide (t = "vector") then
        match read_vector (en_Result top) with
        | Some l => Ok (result_dict t (vectorToWire l) JNull JNull JNull)
        | None => Err "decode vector result: "
        end
      else if bool_decide (t = "matrix") then
        match read_matrix (en_Result top) with
        | Some l => Ok (result_dict t JNull (matrixToWire l) JNull JNull)
        | None => Err "decode matrix result: "
        end
      else if bool_decide (t = "scalar") then
        match unmarshal_any (en_Result top) with
        | Some (JArr l) => Ok (result_dict t JNull JNull (scalarToWire l) JNull)
        | Some JNull => Ok (result_dict t JNull JNull (scalarToWire []) JNull)
        | _ => Err "decode scalar result: "
        end
      else if bool_decide (t = "string") then
        Ok (result_dict t JNull JNull JNull (JStr (sprint_v (in_any (default JNull (parse (en_Result top)))))))
      else Err ("unknown result_type " +:+ quote t).
End samples.

Definition no_hex (s : string) : float64 * bool := (float_zero, false).
Definition q (s : string) : string := dquote +:+ s +:+ dquote.
Example a_sample_array : UnmarshalColumns no_hex [] ("[[1700000000, " +:+ q "0.5" +:+ "],[1700000060.25," +:+ q "NaN" +:+ "]]")
  = Ok [(f_of_Z 1700000000, "0.5"); (of_ratio false 6800000241 4, "NaN")].
Proof. vm_compute. reflexivity. Qed.
(** Nested members are read by encoding/json, short pairs are zero samples,
    numbers as values are reformatted. *)
Example odd_samples : UnmarshalColumns no_hex [] ("[[1],[2,[3]],[" +:+ q "4" +:+ ",1000000],[5,null]]")
  = Ok [(float_zero, ""); (f_of_Z 2, "[3]"); (f_of_Z 4, "1e+06"); (f_of_Z 5, "<nil>")].
Proof. vm_compute. reflexivity. Qed.
