(* ===== verification/FastDecimal.v ===== *)
(** * When adding a decimal fraction rounds correctly

    The fast path of the sample scanner computes [float64(i) +
    float64(f)/10^k], with two roundings, where [strconv.ParseFloat] rounds
    once.  For [10^k <= 2*i] both give the same float. *)

From S2P Require Import Prelude GoText GoFloat PromSamples.

#[local] Set Default Proof Using "Type".

(** ** Rounding quotients *)
Lemma div_half_even_unique n d a : 0 < d -> 2 * n - d < 2 * d * a < 2 * n + d -> div_half_even n d = a.
Proof.
  intros Hd Ha. pose proof (div_half_even_bounds n d Hd) as Hb. set (q := div_half_even n d) in *. clearbody q.
  destruct (Z.lt_trichotomy q a) as [|[|]]; [exfalso; nia|done|exfalso; nia].
Qed.
Lemma div_half_even_ratio n d n' d' : 0 < d -> 0 < d' -> n * d' = n' * d -> div_half_even n d = div_half_even n' d'.
Proof.
  intros Hd Hd' E. unfold div_half_even.
  pose proof (Z.div_mod n d ltac:(lia)) as En. pose proof (Z.mod_pos_bound n d Hd) as Hr.
  pose proof (Z.div_mod n' d' ltac:(lia)) as En'. pose proof (Z.mod_pos_bound n' d' Hd') as Hr'.
  set (q := n / d) in *. set (r := n mod d) in *. set (q' := n' / d') in *. set (r' := n' mod d') in *. clearbody q r q' r'. subst n n'.
  assert (q = q') as <-.
  { assert (0 <= r * d' < d * d' /\ 0 <= r' * d < d * d') as [? ?] by nia. assert (0 < d * d') as Hdd by nia.
    assert (q * (d * d') + r * d' = q' * (d * d') + r' * d) as Eq by lia. set (x := d * d') in *. clearbody x.
    destruct (Z.lt_trichotomy q q') as [|[|]]; [exfalso; nia|done|exfalso; nia]. }
  assert (r * d' = r' * d) as Er by lia.
  assert ((2 * r ?= d) = (2 * r' ?= d')) as Ec.
  { rewrite (Zmult_compare_compat_r (2 * r) d d'), (Zmult_compare_compat_r (2 * r') d' d) by lia. f_equal; lia. }
  unfold Z.ltb. rewrite (Z.compare_antisym (2 * r) d), (Z.compare_antisym (2 * r') d'), Ec. done.
Qed.
(** [p / d] is scaled by [2^s] to a mantissa of 53 bits. *)
Definition scaled_by (s p d : Z) : Prop := 1 <= s <= 1000 /\ 2 ^ 52 * d <= p * 2 ^ s < 2 ^ 53 * d.
Lemma round_rat_at s p d : 0 < p -> 0 < d -> scaled_by s p d ->
  round_rat p d = Some (if div_half_even (p * 2 ^ s) d =? 2 ^ 53 then (2 ^ 52, 1 - s) else (div_half_even (p * 2 ^ s) d, - s)).
Proof.
  intros Hp Hd [Hs Hb]. assert (52 + Z.log2 d <= Z.log2 p + s <= 53 + Z.log2 d) as Hl.
  { rewrite (Z.add_comm (Z.log2 p)), <- (Z.log2_mul_pow2 d 52), <- (Z.log2_mul_pow2 d 53), <- (Z.log2_mul_pow2 p s) by lia.
    split; apply Z.log2_le_mono; lia. }
  unfold round_rat. rewrite Z.max_r by lia. set (e1 := Z.log2 p - Z.log2 d - 53).
  assert (forall e, e < 0 -> scale2 p d e = (p * 2 ^ (- e), d)) as Hsc.
  { intros e He. unfold scale2. by destruct (Z.leb_spec 0 e); [lia|]. }
  assert (forall x, 0 <= x -> p * 2 ^ (x + 1) = 2 * (p * 2 ^ x)) as Hpow by (intros x Hx; rewrite Z.pow_add_r by lia; lia).
  assert ((let '(n1, d1) := scale2 p d e1 in if 2 ^ 53 <=? n1 / d1 then e1 + 1 else e1) = - s) as He.
  { assert (e1 = - s - 1 \/ e1 = - s) as [E|E] by lia; rewrite E, Hsc by lia.
    - replace (- (- s - 1)) with (s + 1) by lia. rewrite Hpow by lia.
      assert (2 ^ 53 <= 2 * (p * 2 ^ s) / d) by (apply Z.div_le_lower_bound; lia). destruct (Z.leb_spec (2 ^ 53) (2 * (p * 2 ^ s) / d)); lia.
    - rewrite Z.opp_involutive. assert (p * 2 ^ s / d < 2 ^ 53) by (apply Z.div_lt_upper_bound; lia). destruct (Z.leb_spec (2 ^ 53) (p * 2 ^ s / d)); lia. }
  destruct (scale2 p d e1) as [n1 d1]. rewrite He, Hsc, Z.opp_involutive by lia.
  destruct (_ =? 2 ^ 53); [replace (- s + 1) with (1 - s) by lia; by replace (971 <? 1 - s) with false by lia|by replace (971 <? - s) with false by lia].
Qed.
Lemma of_ratio_at s p d : 0 < p -> 0 < d -> scaled_by s p d ->
  of_ratio false p d = if div_half_even (p * 2 ^ s) d =? 2 ^ 53 then F64 false (2 ^ 52) (1 - s) else F64 false (div_half_even (p * 2 ^ s) d) (- s).
Proof.
  intros Hp Hd Hs. unfold of_ratio. rewrite (round_rat_at s) by done. destruct (Z.eqb_spec p 0); [lia|].
  pose proof (div_half_even_bounds (p * 2 ^ s) d Hd) as Hb. destruct Hs as [_ Hs]. set (a := div_half_even _ _) in *. clearbody a.
  destruct (a =? 2 ^ 53); [done|]. destruct (Z.eqb_spec a 0); [nia|done].
Qed.
Lemma scaled_ratio s p d p' d' : 0 < d -> 0 < d' -> p * d' = p' * d -> scaled_by s p d -> scaled_by s p' d'.
Proof. intros Hd Hd' E [Hs Hb]. split; [done|]. pose proof (Z.pow_pos_nonneg 2 s ltac:(lia) ltac:(lia)). set (x := 2 ^ s) in *. clearbody x. split; nia. Qed.
Lemma of_ratio_ratio s p d p' d' : 0 < p -> 0 < d -> 0 < p' -> 0 < d' -> p * d' = p' * d -> scaled_by s p d ->
  of_ratio false p d = of_ratio false p' d'.
Proof.
  intros Hp Hd Hp' Hd' E Hs. rewrite (of_ratio_at s p d), (of_ratio_at s p' d') by (done || by apply (scaled_ratio s p d)).
  rewrite (div_half_even_ratio (p * 2 ^ s) d (p' * 2 ^ s) d') by (done || nia). done.
Qed.
Lemma scaled_exists p d : 0 < p -> 0 < d -> Z.log2 p - Z.log2 d <= 50 -> Z.log2 d - Z.log2 p <= 900 -> exists s, scaled_by s p d.
Proof.
  intros Hp Hd H1 H2. destruct (Z.log2_spec p Hp) as [Hp1 Hp2], (Z.log2_spec d Hd) as [Hd1 Hd2].
  pose proof (Z.log2_nonneg p). pose proof (Z.log2_nonneg d). set (s := 52 + Z.log2 d - Z.log2 p).
  assert (2 ^ 52 * 2 ^ Z.log2 d = 2 ^ Z.log2 p * 2 ^ s) as E by (rewrite <- !pow2_split by lia; f_equal; lia).
  pose proof (Z.pow_pos_nonneg 2 s ltac:(lia) ltac:(lia)) as Hs. rewrite Z.pow_succ_r in * by lia. change (2 ^ 53) with (2 * 2 ^ 52).
  set (a := 2 ^ Z.log2 p) in *. set (b := 2 ^ Z.log2 d) in *. assert (2 ^ (s + 1) = 2 * 2 ^ s) as Es by (rewrite Z.add_1_r, Z.pow_succ_r; lia).
  destruct (Z.le_gt_cases (2 ^ 52 * d) (p * 2 ^ s)).
  - exists s. unfold scaled_by. change (2 ^ 53) with (2 * 2 ^ 52). set (x := 2 ^ s) in *. clearbody x a b. split; [lia|]. split; [done|]. nia.
  - exists (s + 1). unfold scaled_by. rewrite Es. change (2 ^ 53) with (2 * 2 ^ 52). set (x := 2 ^ s) in *. clearbody x a b. split; [lia|]. split; nia.
Qed.

(** ** Quotient and sum of small integers *)
Lemma fraction_scaled F S : 0 < F < S -> S < 2 ^ 27 -> exists s, 53 <= s <= 80 /\ scaled_by s F S.
Proof.
  intros HF HS. pose proof (Z.log2_nonneg F). pose proof (Z.log2_nonneg S). assert (Z.log2 S < 27) by (apply Z.log2_lt_pow2; lia).
  pose proof (Z.log2_le_mono F S ltac:(lia)). destruct (scaled_exists F S) as [s Hs]; [lia..|]. exists s. split; [|done]. destruct Hs as [Hs [Hlo Hhi]].
  split; apply Z.le_ngt; intros Hlt.
  - assert (2 ^ s <= 2 ^ 52) by (apply Z.pow_le_mono_r; lia). nia.
  - assert (2 ^ 81 <= 2 ^ s) by (apply Z.pow_le_mono_r; lia). change (2 ^ 81) with (2 ^ 27 * 2 ^ 54) in *. change (2 ^ 53) with (2 ^ 26 * 2 ^ 27) in *. nia.
Qed.
Lemma div_small F S : 0 < F < S -> S < 2 ^ 27 -> f_div (f_of_Z F) (f_of_Z S) = of_ratio false F S.
Proof.
  intros HF HS. assert (2 ^ 27 < 2 ^ 53) by done. rewrite !f_of_Z_val by lia. unfold f_div, val. pose proof (mant_range F ltac:(lia)) as HmF. pose proof (mant_range S ltac:(lia)) as HmS.
  pose proof (log2_range F ltac:(lia)). pose proof (log2_range S ltac:(lia)). pose proof (Z.log2_le_mono F S ltac:(lia)).
  destruct (Z.eqb_spec (mant S) 0); [lia|]. cbn [xorb]. unfold of_scaled. destruct (fraction_scaled F S HF HS) as (s & _ & Hs).
  replace (Z.log2 F - 52 - 0 - (Z.log2 S - 52 - 0)) with (Z.log2 F - Z.log2 S) by lia. symmetry.
  assert (forall a, mant a = a * 2 ^ (52 - Z.log2 a)) as Hm by done.
  pose proof (Z.pow_pos_nonneg 2 (- (Z.log2 F - Z.log2 S)) ltac:(lia) ltac:(lia)) as Hp.
  destruct (Z.leb_spec 0 (Z.log2 F - Z.log2 S)) as [Hle|Hle].
  - replace (Z.log2 F - Z.log2 S) with 0 by lia. rewrite Z.pow_0_r, Z.mul_1_r. apply (of_ratio_ratio s); [lia..| |done].
    rewrite !Hm. replace (Z.log2 F) with (Z.log2 S) by lia. lia.
  - apply (of_ratio_ratio s); [lia..| |done]. rewrite !Hm.
    assert (2 ^ (52 - Z.log2 F) = 2 ^ (52 - Z.log2 S) * 2 ^ (- (Z.log2 F - Z.log2 S))) as -> by (rewrite <- pow2_split by lia; f_equal; lia). lia.
Qed.
(** The quotient of a proper fraction: [q / 2^s], within half a unit, exact
    when the fraction has few binary places. *)
Lemma quotient_near F S : 0 < F < S -> S < 2 ^ 27 ->
  exists s q m e, 53 <= s <= 80 /\ of_ratio false F S = F64 false m e /\ - s <= e <= - s + 1 /\ m * 2 ^ (e + s) = q /\
    - S <= 2 * (q * S - F * 2 ^ s) <= S /\ forall j c, 0 <= j <= s -> F * 2 ^ j = c * S -> q * S = F * 2 ^ s.
Proof.
  intros HF HS. destruct (fraction_scaled F S HF HS) as (s & Hsr & Hs). rewrite (of_ratio_at s) by (done || lia).
  pose proof (div_half_even_bounds (F * 2 ^ s) S ltac:(lia)) as Hb. set (q := div_half_even (F * 2 ^ s) S) in *.
  assert (forall j c, 0 <= j <= s -> F * 2 ^ j = c * S -> q * S = F * 2 ^ s) as Hex.
  { intros j c Hj E. assert (F * 2 ^ s = (c * 2 ^ (s - j)) * S) as E'.
    { replace (2 ^ s) with (2 ^ j * 2 ^ (s - j)) by (rewrite <- pow2_split by lia; f_equal; lia). rewrite Z.mul_assoc, E. lia. }
    unfold q. rewrite E', div_half_even_exact by lia. lia. }
  destruct (Z.eqb_spec q (2 ^ 53)) as [Eq|_].
  - exists s, q, (2 ^ 52), (1 - s). replace (1 - s + s) with 1 by lia. split_and!; [lia..|done|lia|lia|by rewrite Eq|lia|lia|done].
  - exists s, q, q, (- s). replace (- s + s) with 0 by lia. split_and!; [lia..|done|lia|lia|lia|lia|lia|done].
Qed.
Lemma integer_scaled I N S : 0 < I < 2 ^ 51 -> 0 < S -> S * I <= N < S * I + S -> scaled_by (52 - Z.log2 I) N S.
Proof.
  intros HI HS HN. assert (0 <= Z.log2 I < 51) as HL by (split; [apply Z.log2_nonneg|apply Z.log2_lt_pow2; lia]).
  destruct (Z.log2_spec I ltac:(lia)) as [H1 H2]. set (L := Z.log2 I) in *. split; [lia|].
  assert (2 ^ 52 = 2 ^ L * 2 ^ (52 - L)) as E1 by (rewrite <- pow2_split by lia; f_equal; lia).
  assert (2 ^ 53 = 2 ^ Z.succ L * 2 ^ (52 - L)) as E2 by (rewrite <- pow2_split by lia; f_equal; lia).
  pose proof (Z.pow_pos_nonneg 2 (52 - L) ltac:(lia) ltac:(lia)). rewrite E1, E2.
  set (x := 2 ^ (52 - L)) in *. set (a := 2 ^ L) in *. set (b := 2 ^ Z.succ L) in *. clearbody x a b.
  assert (a * S <= I * S) by (apply Z.mul_le_mono_nonneg_r; lia). assert ((I + 1) * S <= b * S) by (apply Z.mul_le_mono_nonneg_r; lia).
  split; [rewrite <- (Z.mul_assoc a), (Z.mul_comm x), Z.mul_assoc; apply Z.mul_le_mono_nonneg_r; lia|].
  rewrite <- (Z.mul_assoc b), (Z.mul_comm x), Z.mul_assoc. apply Z.mul_lt_mono_pos_r; lia.
Qed.
Lemma add_quotient I q s m e : 0 < I < 2 ^ 51 -> 0 <= q < 2 ^ s -> 53 <= s <= 80 -> - s <= e <= - s + 1 -> m * 2 ^ (e + s) = q ->
  float_add (f_of_Z I) (F64 false m e) = of_ratio false (I * 2 ^ s + q) (2 ^ s).
Proof.
  intros HI Hq Hs He Em. assert (2 ^ 51 < 2 ^ 53) by done. rewrite f_of_Z_val by lia. unfold val, float_add. cbn [signed andb].
  assert (0 <= Z.log2 I < 51) as HL by (split; [apply Z.log2_nonneg|apply Z.log2_lt_pow2; lia]). set (L := Z.log2 I) in *.
  rewrite Z.min_r by lia. rewrite Z.sub_diag, Z.pow_0_r, Z.mul_1_r.
  pose proof (mant_range I ltac:(lia)) as Hm.
  assert (mant I * 2 ^ (L - 52 - 0 - e) = I * 2 ^ (- e)) as ->.
  { unfold mant. fold L. rewrite <- Z.mul_assoc, <- pow2_split by lia. f_equal. f_equal. lia. }
  pose proof (Z.pow_pos_nonneg 2 (- e) ltac:(lia) ltac:(lia)) as Hp. pose proof (Z.pow_pos_nonneg 2 (e + s) ltac:(lia) ltac:(lia)) as Hp'.
  assert (2 ^ s = 2 ^ (- e) * 2 ^ (e + s)) as Es by (rewrite <- pow2_split by lia; f_equal; lia).
  assert (0 <= m) as Hm0 by nia. destruct (Z.eqb_spec (I * 2 ^ (- e) + m) 0); [nia|].
  replace (I * 2 ^ (- e) + m <? 0) with false by nia. rewrite Z.abs_eq by nia. unfold of_scaled. destruct (Z.leb_spec 0 e); [lia|]. rewrite Z.mul_1_l.
  symmetry. apply (of_ratio_ratio (52 - L)); [nia|nia|nia|nia| |].
  - rewrite Es, <- Em. ring.
  - rewrite Z.mul_comm. apply integer_scaled; lia.
Qed.

(** ** The fast path *)
Lemma fast_scale_power k : (k <= 8)%nat -> fast_scale k = f_of_Z (10 ^ Z.of_nat k).
Proof. intros Hk. do 9 (destruct k as [|k]; [by vm_compute|]). lia. Qed.
Lemma five_cancel k t x : 0 <= t -> (5 ^ Z.of_nat k | x * 2 ^ t) -> (5 ^ Z.of_nat k | x).
Proof.
  assert (exists h, 5 ^ Z.of_nat k = 2 * h + 1) as [h Hh].
  { induction k as [|k [h Hh]]; [by exists 0|]. rewrite Nat2Z.inj_succ, Z.pow_succ_r, Hh by lia. exists (5 * h + 2). lia. }
  rewrite Hh. intros Ht. revert x. pattern t. apply natlike_ind; [|clear t Ht|done].
  - intros x. by rewrite Z.pow_0_r, Z.mul_1_r.
  - intros t Ht IH x Hd. apply IH. rewrite Z.pow_succ_r in Hd by done. destruct Hd as [c Hc]. set (y := x * 2 ^ t) in *.
    exists (y - h * c). assert (2 * y = c * (2 * h + 1)) by (unfold y; lia). nia.
Qed.
Lemma fast_zero I S : 0 < I < 2 ^ 51 -> 0 < S < 2 ^ 53 -> float_add (f_of_Z I) (f_div (f_of_Z 0) (f_of_Z S)) = of_ratio false (I * S + 0) S.
Proof.
  intros HI HS. assert (2 ^ 51 < 2 ^ 53) by done. change (f_of_Z 0) with (F64 false 0 (-1074)). rewrite (f_of_Z_val S) by lia.
  assert (f_div (F64 false 0 (-1074)) (val S 0) = F64 false 0 (-1074)) as ->.
  { unfold f_div, val. pose proof (mant_range S ltac:(lia)). destruct (Z.eqb_spec (mant S) 0); [lia|]. unfold of_scaled. by destruct (0 <=? _). }
  rewrite f_of_Z_val by lia. unfold val, float_add. cbn [signed andb]. pose proof (mant_range I ltac:(lia)).
  assert (0 <= Z.log2 I < 51) as HL by (split; [apply Z.log2_nonneg|apply Z.log2_lt_pow2; lia]).
  rewrite Z.min_r by lia. rewrite !Z.add_0_r. replace (Z.log2 I - 52 - 0 - -1074) with (Z.log2 I + 1022) by lia.
  assert (mant I * 2 ^ (Z.log2 I + 1022) = I * 2 ^ 1074) as ->.
  { unfold mant. rewrite <- Z.mul_assoc, <- pow2_split by lia. f_equal. f_equal. lia. }
  pose proof (Z.pow_pos_nonneg 2 1074 ltac:(lia) ltac:(lia)) as Hp. destruct (Z.eqb_spec (I * 2 ^ 1074) 0); [nia|].
  replace (I * 2 ^ 1074 <? 0) with false by nia. rewrite Z.abs_eq by nia. unfold of_scaled. change (0 <=? -1074) with false. cbv iota. rewrite Z.mul_1_l.
  change (- -1074) with 1074. set (x := 2 ^ 1074) in *. clearbody x.
  apply (of_ratio_ratio (52 - Z.log2 I)); [nia|lia|nia|lia|lia|]. apply integer_scaled; lia.
Qed.
Lemma fast_fraction I F k : (1 <= k <= 8)%nat -> 0 <= F < 10 ^ Z.of_nat k -> 10 ^ Z.of_nat k <= 2 * I -> I < 2 ^ 51 ->
  float_add (f_of_Z I) (f_div (f_of_Z F) (fast_scale k)) = of_ratio false (I * 10 ^ Z.of_nat k + F) (10 ^ Z.of_nat k).
Proof.
  intros Hk HF HI2 HI. rewrite fast_scale_power by lia.
  assert (10 ^ Z.of_nat k = 2 ^ Z.of_nat k * 5 ^ Z.of_nat k) as E10 by (by rewrite <- Z.pow_mul_l).
  assert (10 ^ Z.of_nat k <= 10 ^ 8) as Hk8 by (apply Z.pow_le_mono_r; lia).
  assert (exists h, 10 ^ Z.of_nat k = 2 * h) as [h Heven].
  { exists (5 * 10 ^ (Z.of_nat k - 1)). replace (Z.of_nat k) with (Z.succ (Z.of_nat k - 1)) at 1 by lia. rewrite Z.pow_succ_r by lia. lia. }
  set (S := 10 ^ Z.of_nat k) in *. change (10 ^ 8) with 100000000 in Hk8. assert (0 < S < 2 ^ 27) as HS by lia.
  assert (2 ^ 27 < 2 ^ 53) by done. destruct (Z.eqb_spec F 0) as [->|HF0]; [apply fast_zero; lia|].
  rewrite div_small by lia. destruct (quotient_near F S) as (s & q & m & e & Hs & -> & He & Em & Hnear & Hex); [lia..|].
  assert (0 < 2 ^ s) as Hps by (apply Z.pow_pos_nonneg; lia). assert (2 ^ 53 <= 2 ^ s) as Hs53 by (apply Z.pow_le_mono_r; lia).
  assert (0 <= q < 2 ^ s) as Hq by nia. rewrite (add_quotient I q s m e) by lia.
  assert (0 < I) as HI0 by lia. set (t := 52 - Z.log2 I). assert (0 <= Z.log2 I < 51) as HL by (split; [apply Z.log2_nonneg|apply Z.log2_lt_pow2; lia]).
  assert (scaled_by t (I * 2 ^ s + q) (2 ^ s)) as H1 by (apply integer_scaled; lia).
  assert (scaled_by t (I * S + F) S) as H2 by (apply integer_scaled; lia).
  destruct (Znumtheory.Zdivide_dec (5 ^ Z.of_nat k) F) as [[c Ec]|Hno].
  { assert (q * S = F * 2 ^ s) as Eq by (apply (Hex (Z.of_nat k) c); [lia|rewrite Ec, E10; lia]).
    apply (of_ratio_ratio t); [nia|lia|nia|lia|rewrite !Z.mul_add_distr_r, Eq; lia|done]. }
  rewrite (of_ratio_at t), (of_ratio_at t) by (done || nia). enough (div_half_even ((I * 2 ^ s + q) * 2 ^ t) (2 ^ s) = div_half_even ((I * S + F) * 2 ^ t) S) as -> by done.
  apply div_half_even_unique; [done|]. set (T := 2 ^ t). assert (0 < T) as HT by (apply Z.pow_pos_nonneg; lia).
  pose proof (div_half_even_bounds ((I * S + F) * T) S ltac:(lia)) as Hb. set (a := div_half_even ((I * S + F) * T) S) in *.
  assert (forall b, (I * S + F) * (2 * T) = b * S -> False) as Htie.
  { intros b Eb. apply Hno. assert (5 ^ Z.of_nat k | I * S + F) as Hd.
    { apply (five_cancel k (t + 1)); [lia|]. rewrite Z.pow_add_r by lia. fold T. exists (b * 2 ^ Z.of_nat k). change (2 ^ 1) with 2. rewrite (Z.mul_comm T), Eb, E10. lia. }
    apply (Z.divide_add_cancel_r _ (I * S)); [|done]. exists (I * 2 ^ Z.of_nat k). rewrite E10. lia. }
  assert (- S < 2 * ((I * S + F) * T) - 2 * S * a < S) as Hstrict.
  { split; apply Z.le_neq; (split; [lia|]); intros E; [apply (Htie (2 * a - 1))|apply (Htie (2 * a + 1))]; lia. }
  assert (- S + 2 <= 2 * ((I * S + F) * T) - 2 * S * a <= S - 2) as Hgap by lia.
  assert (S * T < 2 * 2 ^ s) as Hsmall.
  { assert (S < 2 ^ Z.succ (Z.succ (Z.log2 I))) as HSI. { destruct (Z.log2_spec I HI0). rewrite Z.pow_succ_r by lia. lia. }
    assert (2 ^ Z.succ (Z.succ (Z.log2 I)) * T = 2 ^ 54) as E54 by (unfold T, t; rewrite <- pow2_split by lia; f_equal; lia).
    change (2 ^ 54) with (2 * 2 ^ 53) in E54. nia. }
  clearbody T S a. set (w := 2 ^ s) in *. clearbody w. clear H1 H2 Htie Hstrict Hex.
  set (d := 2 * ((I * S + F) * T) - 2 * S * a) in *. set (n := 2 * (q * S - F * w)) in *.
  assert (S * (2 * ((I * w + q) * T) - 2 * w * a) = w * d + T * n) as E by (unfold d, n; ring).
  assert (- (S * w) < w * d + T * n < S * w) as Hfin by (split; nia). split; nia.
Qed.

(** ** Texts *)
Lemma digits_value_split acc s t : digits_value acc (s +:+ t) = digits_value (digits_value acc s) t.
Proof. revert acc. induction s as [|c s IH]; intros acc; [done|]. rewrite app_cons. apply IH. Qed.
Lemma digits_value_shift acc s : all_digits s = true ->
  digits_value acc s = acc * 10 ^ Z.of_nat (strlen s) + digits_value 0 s /\ 0 <= digits_value 0 s < 10 ^ Z.of_nat (strlen s).
Proof.
  revert acc. induction s as [|c s IH]; intros acc; [change (strlen "") with 0%nat; cbn; lia|]. cbn [all_digits]. intros [Hc Hs]%andb_prop.
  cbn [digits_value]. rewrite strlen_cons, Nat2Z.inj_succ, Z.pow_succ_r by lia. unfold is_digit in Hc.
  destruct (IH (acc * 10 + (byte c - 48)) Hs) as [-> Hb]. destruct (IH (0 * 10 + (byte c - 48)) Hs) as [-> _]. set (p := 10 ^ _) in *. clearbody p.
  apply in_range_true in Hc. split; [ring|]. nia.
Qed.
(** The fraction is short enough for the integer part. *)
Definition short_fraction (b : string) : bool :=
  let '(ip, rest) := span_digits (strip_sign b).2 in
  match rest with
  | EmptyString => true
  | String _ fp => (10 ^ Z.of_nat (strlen fp) <=? 2 * digits_value 0 ip) && (digits_value 0 ip <? 2 ^ 51)
  end.
Lemma round_rat_integer p : 0 < p < 2 ^ 61 -> is_Some (round_rat p 1).
Proof.
  intros Hp. unfold round_rat. assert (Z.log2 p < 61) by (apply Z.log2_lt_pow2; lia). change (Z.log2 1) with 0.
  set (e1 := Z.max (-1074) _). assert (e1 <= 7) by lia. destruct (scale2 p 1 e1) as [n1 d1]. set (e := if 2 ^ 53 <=? n1 / d1 then e1 + 1 else e1).
  assert (e <= 8) by (unfold e; case_match; lia). destruct (scale2 p 1 e) as [n2 d2]. destruct (_ =? 2 ^ 53); (case_match; [lia|done]).
Qed.
Lemma decimal_ratio m k nd : 0 <= m -> (k <= 300)%nat -> 0 <= nd <= 300 -> (m <> 0 -> is_Some (round_rat m (10 ^ Z.of_nat k))) ->
  decimal_to_float false m (- Z.of_nat k) nd = Some (of_ratio false m (10 ^ Z.of_nat k)).
Proof.
  intros Hm Hk Hn Hr. unfold decimal_to_float, of_ratio. destruct (Z.eqb_spec m 0) as [|Hne]; [done|].
  replace (310 <? nd + - Z.of_nat k) with false by lia. replace (nd + - Z.of_nat k <? -330) with false by lia.
  destruct (Hr Hne) as [[m' e] Hr']. destruct (Z.leb_spec 0 (- Z.of_nat k)) as [H0|H0].
  - replace (- Z.of_nat k) with 0 by lia. replace (Z.of_nat k) with 0 in * by lia. rewrite !Z.pow_0_r, Z.mul_1_r in *. by rewrite Hr'.
  - rewrite Z.opp_involutive. by rewrite Hr'.
Qed.
Lemma parse_unsigned d t ip s2 fp : is_digit d = true -> span_digits (String d t) = (ip, s2) ->
  (s2 = "" /\ fp = "" \/ exists c, s2 = String c fp /\ byte c = 46 /\ all_digits fp = true) ->
  parse_float (String d t) = decimal_to_float false (digits_value 0 (ip +:+ fp)) (- Z.of_nat (strlen fp)) (Z.of_nat (strlen (ip +:+ fp))).
Proof.
  intros Hd Hs Hf. assert (in_range 48 57 (byte d) = true) as Hr by done. unfold parse_float. replace (byte d =? 45) with false by (unfold in_range in Hr; lia). cbv iota beta. rewrite Hs.
  assert ((match s2 with String c r => if byte c =? 46 then span_digits r else ("", s2) | EmptyString => ("", s2) end) = (fp, "")) as ->.
  { destruct Hf as [[-> ->]|(c & -> & -> & Hfp)]; [done|]. change (46 =? 46) with true. cbv iota. rewrite <- (sapp_nil_r fp) at 1. by apply span_digits_app. }
  cbn [parse_exponent]. rewrite bool_decide_false; [by rewrite Z.sub_0_l|]. cbn [span_digits] in Hs. rewrite Hd in Hs.
  destruct (span_digits t). injection Hs as <- <-. by rewrite app_cons.
Qed.
(** The fast path reads what [ParseFloat] reads. *)
Lemma fast_parse b f : fastFloat b = Some f -> short_fraction b = true ->
  exists d t g, (strip_sign b).2 = String d t /\ is_digit d = true /\ parse_float (String d t) = Some g /\ f = if (strip_sign b).1 then f_neg g else g.
Proof.
  unfold fastFloat, short_fraction. destruct (bool_decide (b = "")) eqn:Eb; [done|]. destruct (Z.ltb_spec 18 (Z.of_nat (strlen b))) as [|Hlen]; [done|]. cbn [orb].
  assert (strlen (strip_sign b).2 <= strlen b)%nat as Hle by (unfold strip_sign; destruct b as [|c b]; [done|]; repeat case_match; cbn [snd]; rewrite ?strlen_cons; lia).
  destruct (strip_sign b) as [neg s]. cbn [fst snd] in *. destruct (span_digits s) as [ip rest] eqn:Es. destruct (span_digits_spec _ _ _ Es) as (Hsp & Hip & _).
  destruct (bool_decide_reflect (ip = "")) as [|Hip0]; [done|]. intros Hf Hshort.
  assert (exists d t, s = String d t /\ is_digit d = true) as (d & t & Hst & Hd).
  { destruct ip as [|d ip]; [done|]. rewrite Hsp, app_cons. cbn in Hip. apply andb_prop in Hip as [Hd _]. eauto. }
  exists d, t. rewrite Hst in *. enough (forall out, (match rest with
      | EmptyString => Some (f_of_Z (digits_value 0 ip))
      | String c s => if byte c =? 46 then let '(fp, rest) := span_digits s in
          if bool_decide (rest = "") && negb (bool_decide (fp = "")) then Some (float_add (f_of_Z (digits_value 0 ip)) (f_div (f_of_Z (digits_value 0 fp)) (fast_scale (strlen fp)))) else None
        else None
      end) = Some out -> parse_float (String d t) = Some out) as Hout.
  { destruct neg.
    - apply fmap_Some in Hf as (g & Hg & ->). exists g. split_and!; [done..|by apply Hout|done].
    - exists f. split_and!; [done..|by apply Hout|done]. }
  clear Hf f. intros out Hout. rewrite Hsp in Hle. rewrite strlen_app in Hle.
  destruct (digits_value_shift 0 ip Hip) as [_ Hi]. set (I := digits_value 0 ip) in *.
  destruct rest as [|c r].
  - injection Hout as <-. rewrite (parse_unsigned d t ip "" "") by (done || by left). rewrite sapp_nil_r. fold I. change (strlen "") with 0%nat.
    rewrite (decimal_ratio I 0); [unfold f_of_Z; replace (I <? 0) with false by lia; by rewrite Z.abs_eq by lia|lia..|].
    intros Hne. apply round_rat_integer. assert (10 ^ Z.of_nat (strlen ip) <= 10 ^ 18) by (apply Z.pow_le_mono_r; lia). change (2 ^ 61) with 2305843009213693952. change (10 ^ 18) with 1000000000000000000 in *. lia.
  - destruct (Z.eqb_spec (byte c) 46) as [Ec|]; [|done]. destruct (span_digits r) as [fp rest] eqn:Er. destruct (span_digits_spec _ _ _ Er) as (Hr & Hfp & _).
    destruct (bool_decide_reflect (rest = "")) as [->|]; [|done]. destruct (bool_decide_reflect (fp = "")) as [|Hfp0]; [done|]. injection Hout as <-. rewrite sapp_nil_r in Hr. subst r.
    apply andb_prop in Hshort as [H1 H2]. destruct (digits_value_shift 0 fp Hfp) as [_ HF]. destruct (digits_value_shift I fp Hfp) as [EN _].
    rewrite strlen_cons in Hle. assert (strlen fp <> 0)%nat as Hk0 by (by destruct fp). rewrite (parse_unsigned d t ip (String c fp) fp) by (done || right; eauto).
    assert (strlen fp <= 8)%nat as Hk8.
    { apply Nat.le_ngt. intros Hgt. assert (10 ^ Z.of_nat (strlen ip) <= 10 ^ Z.of_nat (17 - strlen fp)) by (apply Z.pow_le_mono_r; lia).
      assert (10 * 10 ^ Z.of_nat (17 - strlen fp) <= 10 ^ Z.of_nat (strlen fp)); [|lia]. rewrite <- Z.pow_succ_r by lia. apply Z.pow_le_mono_r; lia. }
    rewrite digits_value_split. fold I. rewrite EN, strlen_app. set (F := digits_value 0 fp) in *. set (k := strlen fp) in *.
    assert (0 < 10 ^ Z.of_nat k) as Hp by (apply Z.pow_pos_nonneg; lia). assert (0 < I) as HI by lia. assert (10 ^ Z.of_nat k <= 10 ^ 8) by (apply Z.pow_le_mono_r; lia).
    rewrite decimal_ratio; [f_equal; symmetry; apply fast_fraction; lia|nia|lia|lia|].
    intros _. rewrite (round_rat_at (52 - Z.log2 I)); [done|nia|done|apply integer_scaled; lia].
Qed.

(** With more digits the two roundings show; a timestamp in milliseconds has
    room to spare. *)
Example rounds_twice : option_map (fun f => bool_decide (parse_float "7.69" = Some f)) (fastFloat "7.69") = Some false /\ short_fraction "7.69" = false.
Proof. vm_compute. done. Qed.
Example milliseconds : short_fraction "1700000000.123" = true /\ short_fraction "-1700000000.123456" = true.
Proof. vm_compute. done. Qed.
