(* ===== verification/PromSampleFacts.v ===== *)
(** * The sample scanner against encoding/json

    Strings, numbers, pairs and arrays in turn: what the JSON reader of
    GoJson accepts, the scanner of PromSamples splits at the same places. *)

From S2P Require Import Prelude GoText GoJson GoStruct GoFloat CanonJson GoMarshal GoFmt PromSamples FastDecimal.

#[local] Set Default Proof Using "Type".

(** ** Strings *)
Definition quote : ascii := chr 34.

(** Looking ahead never goes beyond a quote. *)
Lemma decode_rune_quote u t : u <> "" -> decode_rune (u +:+ String quote t) = decode_rune u.
Proof.
  intros Hu. destruct u as [|c0 u]; [done|]. rewrite app_cons. unfold decode_rune.
  destruct (byte c0 <? 128); [done|].
  assert (byte quote = 34) as Eq by done.
  destruct u as [|c1 [|c2 [|c3 u]]]; rewrite ?app_cons, ?app_nil_l, ?Eq; unfold in_range; split_tests; try done; try lia.
  all: repeat (case_match; try done); lia.
Qed.
Lemma take4_quote u t t' : (exists x r, take4 (u +:+ String quote t) = Some (x, r +:+ String quote t) /\ take4 (u +:+ String quote t') = Some (x, r +:+ String quote t'))
  \/ take4 (u +:+ String quote t) = None /\ take4 (u +:+ String quote t') = None.
Proof.
  assert (hex_val quote = None) as Eq by done.
  destruct u as [|a [|b [|c [|d u]]]]; rewrite ?app_cons, ?app_nil_l; cbn [take4].
  5: { destruct (hex4 a b c d) as [x|]; [left; by exists x, u|by right]. }
  all: right; split; repeat (case_match; subst; try done).
  all: match goal with H : hex4 _ _ _ _ = Some _ |- _ => unfold hex4 in H; rewrite Eq in H; repeat case_match; done end.
Qed.
Lemma low_surrogate_quote x u t t' : low_surrogate x (u +:+ String quote t) = low_surrogate x (u +:+ String quote t').
Proof.
  destruct u as [|b [|c u]]; rewrite ?app_cons, ?app_nil_l; cbn [low_surrogate].
  - by destruct t, t'.
  - change (byte quote =? 117) with false. by rewrite andb_false_r.
  - destruct (_ && _); [|done]. by destruct (take4_quote u t t') as [(y & r & -> & ->)|[-> ->]].
Qed.
Lemma unit_at_quote u t t' : u <> "" -> unit_at (u +:+ String quote t) = unit_at (u +:+ String quote t').
Proof.
  intros Hu. destruct u as [|c u]; [done|]. pose proof (decode_rune_quote (String c u) t Hu) as Hd. pose proof (decode_rune_quote (String c u) t' Hu) as Hd'.
  rewrite !app_cons in *. unfold unit_at. rewrite Hd, Hd'. destruct (byte c =? 92); [|done].
  destruct u as [|e u]; rewrite ?app_cons, ?app_nil_l; cbn [escape_at]; [done|]. destruct (byte e =? 117); [|done].
  destruct (take4_quote u t t') as [(x & r & -> & ->)|[-> ->]]; [|done]. by rewrite (low_surrogate_quote x r t t').
Qed.

(** A character and the bytes it takes: none of them ends the literal. *)
Definition quiet (c : ascii) : bool := negb (byte c =? 34) && negb (byte c =? 92).
Definition prepend (u : string) (e : bool) (r : option (string * bool * string)) : option (string * bool * string) :=
  match r with Some (raw, esc, rest) => Some (u +:+ raw, e || esc, rest) | None => None end.
Lemma quoted_quiet u s : all_of quiet u = true -> quoted_body (u +:+ s) = prepend u false (quoted_body s).
Proof.
  induction u as [|c u IH]; [rewrite app_nil_l; destruct (quoted_body s) as [[[] ]|]; cbn [prepend orb]; by rewrite ?app_nil_l|]. cbn [all_of]. intros [[Hq Hb]%andb_prop Hu]%andb_prop.
  rewrite app_cons. cbn [quoted_body]. rewrite (proj1 (negb_true_iff _) Hb), (proj1 (negb_true_iff _) Hq), IH by done.
  destruct (quoted_body s) as [[[] ]|]; cbn [prepend orb]; by rewrite ?app_cons.
Qed.
Lemma decode_rune_width c s r w : decode_rune (String c s) = (r, w) -> 128 <= byte c ->
  exists u s', String c s = u +:+ s' /\ strlen u = w /\ u <> "" /\ all_of quiet u = true.
Proof.
  intros E Hc. assert (forall d, 128 <= byte d -> quiet d = true) as Hq by (intros d Hd; unfold quiet; lia).
  unfold decode_rune in E. replace (byte c <? 128) with false in E by lia.
  assert (exists u s', String c s = u +:+ s' /\ strlen u = 1%nat /\ u <> "" /\ all_of quiet u = true) as H1.
  { exists (String c ""), s. split_and!; [done..|]. cbn. by rewrite Hq. }
  destruct s as [|c1 s]; [by injection E as <- <-|].
  destruct (in_range 194 223 (byte c)).
  { destruct (in_range 128 191 (byte c1)) eqn:E1; injection E as <- <-; [|done]. exists (String c (String c1 "")), s. split_and!; [done..|].
    cbn. rewrite !Hq by range_lia. done. }
  destruct s as [|c2 s]; [by injection E as <- <-|].
  destruct (in_range 224 239 (byte c)).
  { destruct (_ && _) eqn:E1; injection E as <- <-; [|done]. exists (String c (String c1 (String c2 ""))), s. split_and!; [done..|].
    cbn. rewrite !Hq; [done|..]; revert E1; split_tests; range_lia. }
  destruct s as [|c3 s]; [by injection E as <- <-|].
  destruct (in_range 240 244 (byte c)); [|by injection E as <- <-].
  destruct (_ && _) eqn:E1; injection E as <- <-; [|done]. exists (String c (String c1 (String c2 (String c3 "")))), s. split_and!; [done..|].
  cbn. rewrite !Hq; [done|..]; revert E1; split_tests; range_lia.
Qed.
Lemma hex_quiet c x : hex_val c = Some x -> quiet c = true.
Proof. unfold hex_val, quiet. split_tests; try done; range_lia. Qed.
Lemma take4_quiet s x r : take4 s = Some (x, r) -> exists u, s = u +:+ r /\ strlen u = 4%nat /\ all_of quiet u = true.
Proof.
  unfold take4. destruct s as [|a [|b [|c [|d s]]]]; try done. unfold hex4.
  destruct (hex_val a) eqn:Ea; [|done]. destruct (hex_val b) eqn:Eb; [|done]. destruct (hex_val c) eqn:Ec; [|done]. destruct (hex_val d) eqn:Ed; [|done].
  intros [= <- <-]. exists (String a (String b (String c (String d "")))). split_and!; [done..|]. cbn. by rewrite (hex_quiet a _ Ea), (hex_quiet b _ Eb), (hex_quiet c _ Ec), (hex_quiet d _ Ed).
Qed.

Lemma prepend_prepend u u' e e' r : prepend u e (prepend u' e' r) = prepend (u +:+ u') (e || e') r.
Proof. destruct r as [[[] ]|]; [|done]. cbn. by rewrite sapp_assoc, orb_assoc. Qed.
Lemma quoted_escape c e s : byte c = 92 -> quoted_body (String c (String e s)) = prepend (String c (String e "")) true (quoted_body s).
Proof.
  intros Hc. cbn [quoted_body]. rewrite Hc. change (92 =? 92) with true. cbv iota.
  destruct (quoted_body s) as [[[] ]|]; cbn [prepend orb]; by rewrite ?app_cons, ?app_nil_l.
Qed.
(** The bytes of one character, passed over. *)
Definition passes (c : ascii) (s : string) (w : nat) : Prop :=
  exists u s', String c s = u +:+ s' /\ strlen u = w /\ u <> "" /\
    forall s'', quoted_body (u +:+ s'') = prepend u (byte c =? 92) (quoted_body s'').
Lemma escape_passes c s t w : byte c = 92 -> escape_at s = Some (t, w) -> passes c s w.
Proof.
  intros Hc. unfold passes. rewrite Hc. change (92 =? 92) with true. destruct s as [|e r]; [done|]. cbn [escape_at].
  assert (forall h r2, r = h +:+ r2 -> strlen h = 4%nat -> all_of quiet h = true ->
    exists u s', String c (String e r) = u +:+ s' /\ strlen u = 6%nat /\ u <> "" /\ forall s'', quoted_body (u +:+ s'') = prepend u true (quoted_body s'')) as Hunit.
  { intros h r2 -> Hl Hh. exists (String c (String e h)), r2. rewrite !app_cons. split_and!; [done|by rewrite !strlen_cons, Hl|done|].
    intros s''. rewrite !app_cons, quoted_escape, quoted_quiet, prepend_prepend by done. by rewrite !app_cons, app_nil_l. }
  destruct (byte e =? 117).
  - destruct (take4 r) as [[x r2]|] eqn:E4; [|done]. destruct (take4_quiet _ _ _ E4) as (h & Er & Hl & Hh).
    destruct (is_surrogate x); [|intros [= _ <-]; by apply (Hunit h r2)].
    destruct (low_surrogate x r2) as [rn|] eqn:El; [|intros [= _ <-]; by apply (Hunit h r2)]. intros [= _ <-].
    unfold low_surrogate in El. destruct r2 as [|b [|d r3]]; try done. destruct (_ && _) eqn:Eb; [|done]. apply andb_prop in Eb as [Eb _].
    destruct (take4 r3) as [[v r4]|] eqn:E4'; [|done]. destruct (take4_quiet _ _ _ E4') as (g & Er3 & Hl' & Hg). subst r r3.
    exists (String c (String e (h +:+ String b (String d g)))), r4. split_and!.
    + by rewrite !app_cons, sapp_assoc, !app_cons.
    + by rewrite !strlen_cons, strlen_app, !strlen_cons, Hl, Hl'.
    + done.
    + intros s''. rewrite !app_cons, sapp_assoc, !app_cons, quoted_escape, quoted_quiet, quoted_escape, quoted_quiet, !prepend_prepend by (done || lia).
      cbn [orb]. f_equal. rewrite !sapp_assoc, !app_cons, !app_nil_l. done.
  - destruct (simple_escape e); [|done]. intros [= _ <-]. exists (String c (String e "")), r. rewrite !app_cons, app_nil_l. split_and!; [done..|].
    intros s''. rewrite !app_cons, app_nil_l. by apply quoted_escape.
Qed.
Lemma unit_passes c s t w : unit_at (String c s) = Some (t, w) -> byte c <> 34 -> passes c s w.
Proof.
  unfold unit_at. intros Hu Hq. destruct (Z.eqb_spec (byte c) 92) as [Hc|Hc]; [by apply (escape_passes c s t w)|].
  unfold passes. rewrite (proj2 (Z.eqb_neq _ _) Hc). destruct (byte c <? 32); [done|].
  destruct (Z.ltb_spec (byte c) 128).
  - injection Hu as <- <-. exists (String c ""), s. split_and!; [by rewrite app_cons, app_nil_l|done..|].
    intros s''. apply quoted_quiet. cbn. unfold quiet. lia.
  - destruct (decode_rune (String c s)) as [rn sz] eqn:E. injection Hu as <- <-. destruct (decode_rune_width _ _ _ _ E) as (u & s' & -> & Hl & Hne & Hq'); [done|].
    exists u, s'. split_and!; try done. intros s''. by apply quoted_quiet.
Qed.
Lemma runes_unit c u k rn : decode_rune (String c u +:+ k) = (rn, S (strlen u)) -> runes (String c u +:+ k) = rn :: runes k.
Proof.
  intros Hd. unfold runes. rewrite app_cons in *. cbn [runes_from]. rewrite Hd, Nat.pred_succ. f_equal. clear.
  induction u as [|c u IH]; [done|]. rewrite app_cons. apply IH.
Qed.
Lemma plain_unit c s t w : unit_at (String c s) = Some (t, w) -> byte c <> 92 -> exists rn, t = encode_rune rn /\ decode_rune (String c s) = (rn, w).
Proof.
  unfold unit_at. intros H Hc. rewrite (proj2 (Z.eqb_neq _ _) Hc) in H. destruct (byte c <? 32); [done|]. destruct (Z.ltb_spec (byte c) 128).
  - injection H as <- <-. exists (byte c). split; [by rewrite encode_rune_ascii|]. unfold decode_rune. by replace (byte c <? 128) with true by lia.
  - destruct (decode_rune _) as [rn sz]. injection H as <- <-. by exists rn.
Qed.
(** A literal that is read ends at the same quote for the scanner; its bytes
    denote the text, and are it when nothing is escaped. *)
Lemma lex_quoted s t r : lex_str s = Some (t, r) ->
  exists raw esc, quoted_body s = Some (raw, esc, r) /\ s = raw +:+ String quote r /\ lex_str (raw +:+ String quote "") = Some (t, "") /\
    (esc = false -> t = encode_runes (runes raw)).
Proof.
  remember (strlen s) as n eqn:En. revert s t r En. induction n as [n IH] using (well_founded_induction lt_wf). intros s t r -> Hlex.
  destruct s as [|c s1]; [done|]. destruct (Z.eqb_spec (byte c) 34) as [Hq|Hq].
  - unfold lex_str in Hlex. cbn [lex_from] in Hlex. rewrite Hq in Hlex. change (34 =? 34) with true in Hlex. injection Hlex as <- <-.
    exists "", false. cbn [quoted_body]. rewrite Hq. split_and!; [done|rewrite app_nil_l; f_equal; unfold quote; by rewrite <- Hq, chr_byte|done..].
  - destruct (unit_at (String c s1)) as [[t1 w]|] eqn:Hu; [|unfold lex_str in Hlex; cbn [lex_from] in Hlex; by rewrite (proj2 (Z.eqb_neq _ _) Hq), Hu in Hlex].
    destruct (unit_passes _ _ _ _ Hu Hq) as (u & s' & Es & Hl & Hne & Hscan).
    destruct u as [|c' u]; [done|]. rewrite app_cons in Es. injection Es as <- ->. rewrite strlen_cons in Hl.
    assert ((byte c =? 34) = false) as Hq' by lia.
    assert (forall k, unit_at (String c u +:+ k) = Some (t1, w) -> lex_str (String c u +:+ k) = emit t1 (lex_str k)) as Hstep.
    { intros k Hk. apply (lex_str_unit c u t1 k w); done. }
    rewrite <- app_cons in Hlex, Hu |- *. rewrite (Hstep _ Hu) in Hlex. destruct (lex_str s') as [[t2 r']|] eqn:Hlex'; [|done]. injection Hlex as <- <-.
    destruct (IH (strlen s')) with (s := s') (t := t2) (r := r') as (raw & esc & Hb & Es' & Hback & Hplain); [rewrite ?app_cons, strlen_cons, strlen_app; lia|done..|].
    exists (String c u +:+ raw), ((byte c =? 92) || esc). rewrite Hscan, Hb. cbn [prepend]. split_and!; [done|by rewrite Es' at 1; rewrite sapp_assoc| |].
    + rewrite sapp_assoc, Hstep; [by rewrite Hback|]. rewrite <- sapp_assoc, (unit_at_quote _ "" r') by done. by rewrite sapp_assoc, <- Es'.
    + intros [Hc He]%orb_false_iff. rewrite (Hplain He). rewrite app_cons in Hu. destruct (plain_unit _ _ _ _ Hu ltac:(lia)) as (rn & -> & Hd).
      rewrite (runes_unit c u raw rn); [done|]. rewrite Hl, <- Hd, <- app_cons, Es', <- sapp_assoc. symmetry. by apply decode_rune_quote.
Qed.
Lemma unmarshal_literal raw t : lex_str (raw +:+ String quote "") = Some (t, "") -> unmarshal_any (dquote +:+ raw +:+ dquote) = Some (JStr t).
Proof.
  intros H. unfold unmarshal_any, parse. change (dquote +:+ raw +:+ dquote) with (String quote (raw +:+ String quote "")).
  change (skip_ws (String quote (raw +:+ String quote ""))) with (String quote (raw +:+ String quote "")).
  assert (forall n, pval (S n) 0 (String quote (raw +:+ String quote "")) = Some (JStr t, "")) as Hp.
  { intros n. cbn [pval]. change (byte quote =? 123) with false. change (byte quote =? 91) with false. change (byte quote =? 34) with true. cbv iota. by rewrite H. }
  rewrite Nat.add_comm. cbn [Nat.add]. by rewrite Hp.
Qed.

(** ** Numbers *)
Definition number_char (c : ascii) : bool := is_digit c || (byte c =? 43) || (byte c =? 45) || (byte c =? 46) || (byte c =? 101) || (byte c =? 69).
Lemma digits_number ds : all_digits ds = true -> all_of number_char ds = true.
Proof. induction ds as [|c ds IH]; [done|]. cbn. intros [Hc Hd]%andb_prop. rewrite IH by done. unfold number_char. by rewrite Hc. Qed.
Lemma lex_int_split s ip r : lex_int s = Some (ip, r) -> s = ip +:+ r /\ all_digits ip = true /\ ip <> "".
Proof.
  destruct s as [|c s]; [done|]. cbn [lex_int]. destruct (Z.eqb_spec (byte c) 48) as [E|_].
  - intros [= <- <-]. split_and!; [by rewrite app_cons, app_nil_l| |done]. cbn. unfold is_digit, in_range. by rewrite E.
  - destruct (is_digit c) eqn:Hc; [|done]. intros H. assert (span_digits (String c s) = (ip, r)) as Es by congruence. clear H. destruct (span_digits_spec _ _ _ Es) as (E & Hd & _). split_and!; [done|done|].
    intros ->. cbn [span_digits] in Es. rewrite Hc in Es. by destruct (span_digits s).
Qed.
Lemma lex_frac_split s fp r : lex_frac s = Some (fp, r) -> s = fp +:+ r /\ all_of number_char fp = true.
Proof.
  destruct s as [|c s]; [by intros [= <- <-]|]. cbn [lex_frac]. destruct (Z.eqb_spec (byte c) 46) as [E|_]; [|by intros [= <- <-]; rewrite app_nil_l].
  destruct (span_digits s) as [ds r1] eqn:Es. destruct (span_digits_spec _ _ _ Es) as (-> & Hd & _). case_bool_decide; [done|]. intros [= <- <-].
  rewrite app_cons. split; [done|]. cbn. rewrite (digits_number ds) by done. unfold number_char. rewrite E. by rewrite !orb_true_r.
Qed.
Lemma lex_exp_split s xp r : lex_exp s = Some (xp, r) -> s = xp +:+ r /\ all_of number_char xp = true.
Proof.
  destruct s as [|c s]; [by intros [= <- <-]|]. cbn [lex_exp]. destruct (_ || _) eqn:Ec; [|by intros [= <- <-]; rewrite app_nil_l].
  assert (number_char c = true) as Hc by (unfold number_char; lia).
  destruct (match s with String c1 r1 => if (byte c1 =? 45) || (byte c1 =? 43) then (String c1 "", r1) else ("", s) | EmptyString => ("", s) end)
    as [sg r1] eqn:Esg.
  assert (s = sg +:+ r1 /\ all_of number_char sg = true) as [-> Hsg].
  { destruct s as [|c1 s]; [by injection Esg as <- <-|]. destruct ((byte c1 =? 45) || (byte c1 =? 43)) eqn:E1; injection Esg as <- <-; [|by rewrite app_nil_l].
    split; [by rewrite app_cons, app_nil_l|]. cbn. unfold number_char. rewrite andb_true_r. lia. }
  destruct (span_digits r1) as [ds r2] eqn:Es. destruct (span_digits_spec _ _ _ Es) as (-> & Hd & _). case_bool_decide; [done|]. intros [= <- <-].
  rewrite app_cons, sapp_assoc. split; [done|]. cbn. by rewrite Hc, all_of_app, Hsg, digits_number.
Qed.
(** A number literal is a sign and a body that starts with a digit. *)
Lemma lex_number_split s lit r : lex_number s = Some (lit, r) ->
  s = lit +:+ r /\ all_of number_char lit = true /\
  exists sg d body, lit = sg +:+ String d body /\ is_digit d = true /\ (sg = "" \/ sg = "-").
Proof.
  unfold lex_number.
  destruct (match s with String c r => if byte c =? 45 then (String c "", r) else ("", s) | EmptyString => ("", s) end) as [sg s1] eqn:Esg.
  assert (s = sg +:+ s1 /\ (sg = "" \/ sg = "-") /\ all_of number_char sg = true) as (-> & Hsg & Hsn).
  { destruct s as [|c s]; [injection Esg as <- <-; auto|]. destruct (Z.eqb_spec (byte c) 45) as [E|]; injection Esg as <- <-; [|rewrite app_nil_l; auto].
    rewrite <- (chr_byte c), E. rewrite app_cons, app_nil_l. auto. }
  destruct (lex_int s1) as [[ip s2]|] eqn:Ei; [|done]. destruct (lex_int_split _ _ _ Ei) as (-> & Hip & Hne).
  destruct (lex_frac s2) as [[fp s3]|] eqn:Ef; [|done]. destruct (lex_frac_split _ _ _ Ef) as (-> & Hfp).
  destruct (lex_exp s3) as [[xp s4]|] eqn:Ex; [|done]. destruct (lex_exp_split _ _ _ Ex) as (-> & Hxp). intros [= <- <-].
  split_and!; [by rewrite !sapp_assoc|by rewrite !all_of_app, Hsn, (digits_number ip), Hfp, Hxp|].
  destruct ip as [|d ip]; [done|]. cbn in Hip. apply andb_prop in Hip as [Hd _]. exists sg, d, (ip +:+ fp +:+ xp). by rewrite app_cons.
Qed.

Lemma parse_float_neg d body : is_digit d = true ->
  parse_float (String (chr 45) (String d body)) = f_neg <$> parse_float (String d body).
Proof.
  intros Hd. assert (byte d <> 45) as Hne by (unfold is_digit in Hd; range_lia).
  unfold parse_float. change (byte (chr 45) =? 45) with true. cbv iota. rewrite (proj2 (Z.eqb_neq _ _) Hne).
  destruct (span_digits (String d body)) as [ip s2]. destruct (match s2 with EmptyString => _ | String _ _ => _ end) as [fp s3].
  destruct (parse_exponent s3); [|done]. case_bool_decide; [done|]. unfold decimal_to_float. repeat case_match; done.
Qed.
Section facts.
Context (hex : string -> float64 * bool).
Abbreviation parse_float64 := (parse_float64 hex).

Lemma special_digit d body : is_digit d = true -> special_float (to_lower (String d body)) = None.
Proof.
  intros Hd. unfold special_float. cbn [to_lower]. assert (in_range 48 57 (byte d) = true) as Hr by done.
  unfold lower_ascii. replace ((65 <=? byte d) && (byte d <=? 90)) with false by range_lia.
  rewrite !bool_decide_false; [done|..]; intros [= -> _]; by vm_compute in Hr.
Qed.
Lemma parse_body d body f : is_digit d = true -> parse_float (String d body) = Some f ->
  parse_float64 (String d body) = (f, true) /\ parse_float64 (String (chr 45) (String d body)) = (f_neg f, true) /\
  parse_float64 (String (chr 43) (String d body)) = (f, true).
Proof.
  intros Hd Hf. assert (in_range 48 57 (byte d) = true) as Hr by done.
  assert (has_prefix (String d body) "-" = false) as Hp. { unfold has_prefix. cbn [strip_prefix]. destruct (decide _) as [<-|]; [by vm_compute in Hr|done]. }
  unfold PromSamples.parse_float64, ParseFloat.
  change (byte (chr 45) =? 43) with false. change (byte (chr 45) =? 45) with true. change (byte (chr 43) =? 43) with true. cbv iota.
  replace (byte d =? 43) with false by range_lia. replace (byte d =? 45) with false by range_lia. rewrite special_digit, Hf, Hp by done. done.
Qed.
Lemma parse_literal s lit r f : lex_number s = Some (lit, r) -> parse_float lit = Some f -> parse_float64 lit = (f, true).
Proof.
  intros Hl Hf. destruct (lex_number_split _ _ _ Hl) as (_ & _ & sg & d & body & -> & Hd & [->| ->]).
  - rewrite app_nil_l in *. by apply parse_body.
  - change ("-" +:+ String d body) with (String (chr 45) (String d body)) in *. rewrite parse_float_neg in Hf by done.
    destruct (parse_float (String d body)) as [g|] eqn:Eg; [|done]. injection Hf as <-. by apply (parse_body d body g).
Qed.

(** ** Members *)

(** The same time, or one whose decimal text is too long for the fast path to
    round correctly. *)
Definition same_time (a b : float64) : Prop :=
  a = b \/ exists lit, fastFloat lit = Some a /\ (parse_float64 lit).1 = b /\ short_fraction lit = false.
Definition time_of (v : json) : float64 := match v with JFloat f => f | JStr s => (parse_float64 s).1 | _ => float_zero end.
Definition agrees (t : rawToken) (v : json) : Prop := token_string hex t = sprint_v v /\ same_time (token_float hex t) (time_of v).
Definition scalar (v : json) : bool := match v with JArr _ | JObj _ => false | _ => true end.
Definition ends_here (r : string) : bool := match r with String c _ => ends_member c | EmptyString => true end.

Lemma fast_agrees b : same_time (match fastFloat b with Some f => f | None => (parse_float64 b).1 end) (parse_float64 b).1.
Proof.
  destruct (fastFloat b) as [f|] eqn:Ef; [|by left]. destruct (short_fraction b) eqn:Es; [|right; eauto]. left.
  destruct (fast_parse b f Ef Es) as (d & t & g & Eb & Hd & Hg & ->). destruct (parse_body d t g Hd Hg) as (H1 & H2 & H3).
  destruct b as [|c b]; [done|]. unfold strip_sign in *. destruct (Z.eqb_spec (byte c) 43) as [E|]; [|destruct (Z.eqb_spec (byte c) 45) as [E|]]; cbn [fst snd] in *; subst.
  - rewrite <- (chr_byte c), E. by rewrite H3.
  - rewrite <- (chr_byte c), E. by rewrite H2.
  - injection Eb as -> ->. by rewrite H1.
Qed.
Lemma span_here p lit r : all_of p lit = true -> match r with String c _ => p c = false | EmptyString => True end -> span p (lit +:+ r) = (lit, r).
Proof.
  intros Hl Hr. induction lit as [|c lit IH].
  - rewrite app_nil_l. destruct r as [|c r]; [done|]. cbn [span]. by rewrite Hr.
  - cbn in Hl. apply andb_prop in Hl as [Hc Hl]. rewrite app_cons. cbn [span]. by rewrite Hc, IH.
Qed.
Lemma token_plain c lit r : all_of (fun c => negb (ends_member c)) (String c lit) = true -> negb ((byte c =? 91) || (byte c =? 123) || (byte c =? 34)) = true ->
  ends_here r = true -> token (String c lit +:+ r) = inr (MkToken (String c lit) false false, r).
Proof.
  intros Hl Hc Hr. rewrite app_cons. unfold token. apply negb_true_iff, orb_false_iff in Hc as [-> ->]. rewrite <- app_cons, span_here; [by rewrite bool_decide_false|done|].
  destruct r; [done|]. cbn in Hr. by rewrite Hr.
Qed.
Lemma pelems_array fuel d s acc v r : pelems fuel d s acc = Some (v, r) -> exists l, v = JArr l.
Proof.
  revert s acc. induction fuel as [|fuel IH]; intros s acc; [done|]. cbn [pelems]. destruct (pval fuel d s) as [[x r0]|]; [|done].
  destruct (skip_ws r0) as [|c r1]; [done|]. destruct (byte c =? 44); [apply IH|]. destruct (byte c =? 93); [|done]. intros [= <- _]. eauto.
Qed.
Lemma pmembers_object fuel d s acc v r : pmembers fuel d s acc = Some (v, r) -> exists m, v = JObj m.
Proof.
  revert s acc. induction fuel as [|fuel IH]; intros s acc; [done|]. cbn [pmembers]. destruct s as [|q s]; [done|]. destruct (byte q =? 34); [|done].
  destruct (lex_str s) as [[k r1]|]; [|done]. destruct (skip_ws r1) as [|c r2]; [done|]. destruct (byte c =? 58); [|done].
  destruct (pval fuel d (skip_ws r2)) as [[x r3]|]; [|done]. destruct (skip_ws r3) as [|c' r4]; [done|]. destruct (byte c' =? 44); [apply IH|].
  destruct (byte c' =? 125); [|done]. intros [= <- _]. eauto.
Qed.

Lemma string_agrees raw esc t : lex_str (raw +:+ String quote "") = Some (t, "") -> (esc = false -> t = encode_runes (runes raw)) ->
  agrees (MkToken raw true esc) (JStr t).
Proof.
  intros Hback Hplain. unfold agrees, token_string, token_float, unquoted, full. cbn [t_raw t_quoted t_esc]. rewrite (unmarshal_literal raw t Hback).
  destruct (slow (MkToken raw true esc)) eqn:Hs; [split; [done|by left]|]. unfold slow in Hs. cbn in Hs. apply orb_false_iff in Hs as [-> Hv%negb_false_iff].
  rewrite (Hplain eq_refl) in *. apply bool_decide_eq_true in Hv. rewrite Hv in *. split; [done|]. apply fast_agrees.
Qed.
Lemma number_agrees s lit r f : lex_number s = Some (lit, r) -> parse_float lit = Some f -> agrees (MkToken lit false false) (JFloat f).
Proof.
  intros Hl Hf. pose proof (parse_literal s lit r f Hl Hf) as Hp. destruct (lex_number_split _ _ _ Hl) as (_ & Hn & _).
  unfold agrees, token_string, token_float. change (slow (MkToken lit false false)) with false. cbn [t_raw t_quoted].
  rewrite !bool_decide_false by (intros ->; by vm_compute in Hn). split; [by rewrite Hp|].
  cbn [time_of]. pose proof (fast_agrees lit) as Hfast. by rewrite Hp in Hfast |- *.
Qed.
Lemma number_plain c : number_char c = true -> negb (ends_member c) = true /\ negb ((byte c =? 91) || (byte c =? 123) || (byte c =? 34)) = true.
Proof. unfold number_char, ends_member, is_ws, is_digit. intros H. unfold in_range in H. split; lia. Qed.
Lemma token_value fuel d s v r : pval fuel d s = Some (v, r) -> has_other v = false -> ends_here r = true ->
  if scalar v then exists tok, token s = inr (tok, r) /\ agrees tok v else token s = inl ComplexSample.
Proof.
  destruct fuel as [|fuel]; [done|]. destruct s as [|c s]; [done|]. cbn [pval]. intros Hv Ho Hr.
  destruct (Z.eqb_spec (byte c) 123) as [E|H123].
  { assert (scalar v = false) as ->; [|cbn [token]; by rewrite E]. destruct (_ <=? d); [done|]. destruct (skip_ws s) as [|c1 r1]; [done|].
    destruct (_ =? 125); [by injection Hv as <- _|]. by destruct (pmembers_object _ _ _ _ _ _ Hv) as [m ->]. }
  destruct (Z.eqb_spec (byte c) 91) as [E|H91].
  { assert (scalar v = false) as ->; [|cbn [token]; by rewrite E]. destruct (_ <=? d); [done|]. destruct (skip_ws s) as [|c1 r1]; [done|].
    destruct (_ =? 93); [by injection Hv as <- _|]. by destruct (pelems_array _ _ _ _ _ _ Hv) as [m ->]. }
  destruct (Z.eqb_spec (byte c) 34) as [E|H34].
  { destruct (lex_str s) as [[t r1]|] eqn:El; [|done]. injection Hv as <- <-. cbn [scalar]. destruct (lex_quoted _ _ _ El) as (raw & esc & Hq & _ & Hback & Hplain).
    exists (MkToken raw true esc). split; [|by apply string_agrees]. unfold token. rewrite E. change ((34 =? 91) || (34 =? 123)) with false. change (34 =? 34) with true. cbv iota. by rewrite Hq. }
  assert (forall lit, strip_prefix lit (String c s) = Some r -> lit ∈ ["true"; "false"; "null"] -> token (String c s) = inr (MkToken lit false false, r)) as Hword.
  { intros lit Hlit%strip_prefix_Some Hin. rewrite Hlit. destruct lit as [|c' lit]; [by apply elem_of_cons in Hin as [|[|[|Hin%elem_of_nil]%elem_of_cons]%elem_of_cons]|].
    apply token_plain; [..|done]; repeat (apply elem_of_cons in Hin as [Hin|Hin]; [by injection Hin as -> ->|]); by apply elem_of_nil in Hin. }
  assert (forall lit w, strip_prefix lit (String c s) = Some r -> lit ∈ ["true"; "false"; "null"] -> scalar w = true -> agrees (MkToken lit false false) w ->
    if scalar w then exists tok, token (String c s) = inr (tok, r) /\ agrees tok w else token (String c s) = inl ComplexSample) as Hwords.
  { intros lit w Hlit Hin -> Ha. eauto. }
  destruct (byte c =? 116).
  { destruct (strip_prefix "true" (String c s)) as [r1|] eqn:Ep; [|done]. injection Hv as <- <-. apply (Hwords "true"); [done|set_solver|done|]. split; [done|by left]. }
  destruct (byte c =? 102).
  { destruct (strip_prefix "false" (String c s)) as [r1|] eqn:Ep; [|done]. injection Hv as <- <-. apply (Hwords "false"); [done|set_solver|done|]. split; [done|by left]. }
  destruct (byte c =? 110).
  { destruct (strip_prefix "null" (String c s)) as [r1|] eqn:Ep; [|done]. injection Hv as <- <-. apply (Hwords "null"); [done|set_solver|done|]. split; [done|by left]. }
  destruct (lex_number (String c s)) as [[lit r1]|] eqn:El; [|done]. injection Hv as <- <-. unfold number_value in *. destruct (parse_float lit) as [f|] eqn:Ef; [|done].
  cbn [scalar]. exists (MkToken lit false false). split; [|by apply (number_agrees (String c s) lit r1)].
  destruct (lex_number_split _ _ _ El) as (Es & Hn & sg & d' & body & Elit & Hd & _). rewrite Es. destruct lit as [|c' lit]; [by destruct sg|].
  pose proof Hn as Hn'. cbn in Hn'. apply andb_prop in Hn' as [Hc' _]. apply token_plain; [|by apply number_plain|done].
  revert Hn. generalize (String c' lit). clear. intros l. induction l as [|x l IH]; [done|]. cbn. intros [Hx Hl]%andb_prop. rewrite IH by done. by rewrite (proj1 (number_plain x Hx)).
Qed.

(** ** Pairs and arrays *)
Lemma quoted_shorter s raw esc r : quoted_body s = Some (raw, esc, r) -> (strlen r < strlen s)%nat.
Proof.
  remember (strlen s) as n eqn:En. revert s raw esc r En. induction n as [n IH] using (well_founded_induction lt_wf). intros s raw esc r -> Hq.
  destruct s as [|c s]; [done|]. cbn [quoted_body] in Hq. rewrite strlen_cons in *. destruct (byte c =? 92).
  - destruct s as [|d s]; [done|]. rewrite strlen_cons in *. destruct (quoted_body s) as [[[raw' esc'] r']|] eqn:E; [|done]. injection Hq as <- <- <-.
    specialize (IH (strlen s) ltac:(lia) s _ _ _ eq_refl E). lia.
  - destruct (byte c =? 34); [injection Hq as <- <- <-; lia|]. destruct (quoted_body s) as [[[raw' esc'] r']|] eqn:E; [|done]. injection Hq as <- <- <-.
    specialize (IH (strlen s) ltac:(lia) s _ _ _ eq_refl E). lia.
Qed.
Lemma span_lengths p s a b : span p s = (a, b) -> strlen s = (strlen a + strlen b)%nat.
Proof.
  revert a b. induction s as [|c s IH]; intros a b; cbn [span]; [by intros [= <- <-]|]. destruct (p c); [|by intros [= <- <-]].
  destruct (span p s) as [a' b']. intros [= <- <-]. rewrite !strlen_cons, (IH a' b') by done. lia.
Qed.
Lemma token_shorter s t r : token s = inr (t, r) -> (strlen r < strlen s)%nat.
Proof.
  unfold token. destruct s as [|c s]; [done|]. destruct (_ || _); [done|]. destruct (byte c =? 34).
  - destruct (quoted_body s) as [[[raw esc] r']|] eqn:E; [|done]. intros [= _ <-]. rewrite strlen_cons. apply quoted_shorter in E. lia.
  - destruct (span _ _) as [raw rest] eqn:E. apply span_lengths in E. case_bool_decide; [done|]. intros [= _ <-]. rewrite E. destruct raw; [done|]. rewrite strlen_cons. lia.
Qed.
Lemma skip_ws_shorter s : (strlen (skip_ws s) <= strlen s)%nat.
Proof. induction s as [|c s IH]; [done|]. cbn [skip_ws]. destruct (is_ws c); rewrite ?strlen_cons; lia. Qed.
Lemma skip_ws_ends r c r1 : skip_ws r = String c r1 -> ends_member c = true -> ends_here r = true.
Proof.
  destruct r as [|x r]; [done|]. cbn [skip_ws ends_here]. destruct (is_ws x) eqn:E; [intros _ _; unfold ends_member; rewrite E; by rewrite !orb_true_r|]. by intros [= -> ->].
Qed.
(** A member and what follows it. *)
Definition chain (f : nat) (s : string) : scan_error + list rawToken * string :=
  match token s with
  | inl e => inl e
  | inr (t, r) => match members f false r with inl e => inl e | inr (ts, r) => inr (t :: ts, r) end
  end.
Lemma chain_values fuel d s acc l r : pelems fuel d s acc = Some (JArr l, r) -> existsb has_other l = false ->
  exists vs, l = acc ++ vs /\ forall f, (strlen s <= f)%nat ->
    if forallb scalar vs then exists toks, chain f s = inr (toks, r) /\ Forall2 agrees toks vs else chain f s = inl ComplexSample.
Proof.
  revert s acc. induction fuel as [|fuel IH]; intros s acc; [done|]. cbn [pelems]. intros Hp Ho. destruct (pval fuel d s) as [[v r0]|] eqn:Ev; [|done].
  destruct (skip_ws r0) as [|c r1] eqn:Er0; [done|]. pose proof (skip_ws_shorter r0) as Hl0. rewrite Er0, strlen_cons in Hl0.
  assert (forall vs, l = (acc ++ [v]) ++ vs -> has_other v = false) as Hov.
  { intros vs ->. rewrite <- app_assoc, existsb_app in Ho. apply orb_false_iff in Ho as [_ Ho]. cbn in Ho. by apply orb_false_iff in Ho as [? _]. }
  assert (ends_member c = true -> has_other v = false -> if scalar v then exists tok, token s = inr (tok, r0) /\ agrees tok v else token s = inl ComplexSample) as Htok.
  { intros Hc Hv. apply (token_value fuel d s v r0 Ev Hv). by apply (skip_ws_ends _ c r1). }
  destruct (Z.eqb_spec (byte c) 44) as [Ec|_].
  - destruct (IH _ _ Hp Ho) as (vs & -> & Hvs). exists (v :: vs). rewrite <- app_assoc. split; [done|]. intros f Hf. specialize (Hov vs eq_refl).
    specialize (Htok ltac:(unfold ends_member; by rewrite Ec) Hov). unfold chain. cbn [forallb]. destruct (scalar v); [|by rewrite Htok]. destruct Htok as (tok & Et & Ha).
    rewrite Et. apply token_shorter in Et. destruct f as [|f]; [lia|]. cbn [members]. rewrite Er0, Ec. change (44 =? 93) with false. change (44 =? 44) with true. cbv iota.
    change (match token (skip_ws r1) with inl e => inl e | inr (t, r) => match members f false r with inl e => inl e | inr (ts, r) => inr (t :: ts, r) end end) with (chain f (skip_ws r1)).
    specialize (Hvs f ltac:(pose proof (skip_ws_shorter r1); lia)). cbn [andb]. destruct (forallb scalar vs); [|by rewrite Hvs].
    destruct Hvs as (toks & -> & Hts). exists (tok :: toks). split; [done|]. by constructor.
  - destruct (Z.eqb_spec (byte c) 93) as [Ec|_]; [|done]. injection Hp as <- <-. exists [v]. split; [done|]. intros f Hf. specialize (Hov [] ltac:(by rewrite app_nil_r)).
    specialize (Htok ltac:(unfold ends_member; by rewrite Ec) Hov). unfold chain. cbn [forallb]. destruct (scalar v); [|by rewrite Htok]. destruct Htok as (tok & Et & Ha).
    rewrite Et. apply token_shorter in Et. destruct f as [|f]; [lia|]. cbn [members]. rewrite Er0, Ec. change (93 =? 93) with true. cbv iota. exists [tok]. split; [done|]. constructor; [done|constructor].
Qed.
Definition same_sample (a b : float64 * string) : Prop := a.2 = b.2 /\ same_time a.1 b.1.
Lemma convert_agrees toks vs : Forall2 agrees toks vs -> same_sample (convert hex toks) (unpackScalar hex vs).
Proof.
  intros H. destruct H as [|t v toks vs Ht H]; [split; [done|by left]|]. destruct H as [|t' v' toks vs Ht' _]; [split; [done|by left]|].
  destruct Ht as [_ Ht], Ht' as [Ht' _]. split; [done|]. cbn. exact Ht.
Qed.
Lemma pval_array fuel d s l r : pval fuel d s = Some (JArr l, r) -> exists c r0, s = String c r0 /\ byte c = 91 /\
  ((exists c1, skip_ws r0 = String c1 r /\ byte c1 = 93 /\ l = []) \/
   (exists n c1 r1, skip_ws r0 = String c1 r1 /\ byte c1 <> 93 /\ pelems n (d + 1) (String c1 r1) [] = Some (JArr l, r))).
Proof.
  destruct fuel as [|fuel]; [done|]. destruct s as [|c s]; [done|]. cbn [pval]. intros Hv. exists c, s.
  destruct (Z.eqb_spec (byte c) 123).
  { destruct (_ <=? d); [done|]. destruct (skip_ws s) as [|c1 r1]; [done|]. destruct (_ =? 125); [done|]. by destruct (pmembers_object _ _ _ _ _ _ Hv). }
  destruct (Z.eqb_spec (byte c) 91) as [E|].
  { split_and!; [done..|]. destruct (_ <=? d); [done|]. destruct (skip_ws s) as [|c1 r1]; [done|]. destruct (Z.eqb_spec (byte c1) 93).
    - left. injection Hv as <- <-. eauto.
    - right. eauto 8. }
  destruct (byte c =? 34); [by destruct (lex_str s) as [[]|]|]. destruct (byte c =? 116); [by destruct (strip_prefix _ _)|]. destruct (byte c =? 102); [by destruct (strip_prefix _ _)|].
  destruct (byte c =? 110); [by destruct (strip_prefix _ _)|]. destruct (lex_number _) as [[lit r1]|]; [|done]. unfold number_value in Hv. by destruct (parse_float lit).
Qed.
Lemma pair_value fuel d s l r : pval fuel d s = Some (JArr l, r) -> existsb has_other l = false ->
  if forallb scalar l then exists p, pair hex s = inr (p, r) /\ same_sample p (unpackScalar hex l) else pair hex s = inl ComplexSample.
Proof.
  intros Hv Ho. destruct (pval_array _ _ _ _ _ Hv) as (c & r0 & -> & Ec & Hcase). unfold pair. assert (is_ws c = false) as Hw by (unfold is_ws; by rewrite Ec).
  cbn [skip_ws]. rewrite Hw, Ec. change (91 =? 91) with true. cbv iota. cbn [members]. destruct Hcase as [(c1 & -> & Ec1 & ->)|(n & c1 & r1 & Es & Ec1 & Hp)].
  - rewrite Ec1. change (93 =? 93) with true. cbv iota. cbn [forallb]. exists (convert hex []). split; [done|]. by apply (convert_agrees [] []).
  - rewrite Es. rewrite (proj2 (Z.eqb_neq _ _) Ec1).
    change (match token (String c1 r1) with inl e => inl e | inr (t, r) => match members (strlen r0) false r with inl e => inl e | inr (ts, r) => inr (t :: ts, r) end end) with (chain (strlen r0) (String c1 r1)).
    destruct (chain_values _ _ _ _ _ _ Hp Ho) as (vs & El & Hvs). cbn in El. subst l. specialize (Hvs (strlen r0) ltac:(rewrite <- Es; apply skip_ws_shorter)).
    destruct (forallb scalar vs); [|by rewrite Hvs]. destruct Hvs as (toks & -> & Ha). exists (convert hex toks). split; [done|]. by apply convert_agrees.
Qed.
Lemma members_shorter f first s ts r : members f first s = inr (ts, r) -> (strlen r < strlen s)%nat.
Proof.
  revert first s ts r. induction f as [|f IH]; intros first s ts r; [done|]. cbn [members]. pose proof (skip_ws_shorter s) as Hl. destruct (skip_ws s) as [|c s1]; [done|].
  rewrite strlen_cons in Hl. destruct (byte c =? 93); [intros [= _ <-]; lia|].
  destruct (if first then _ else _) as [s2|] eqn:E2; [|done]. destruct (token s2) as [|[t r1]] eqn:Et; [done|]. apply token_shorter in Et.
  destruct (members f false r1) as [|[ts' r2]] eqn:Em; [done|]. intros [= _ <-]. apply IH in Em. destruct first; [injection E2 as <-; rewrite strlen_cons in Et; lia|].
  destruct (byte c =? 44); [|done]. injection E2 as <-. pose proof (skip_ws_shorter s1). lia.
Qed.
Lemma pair_shorter s p r : pair hex s = inr (p, r) -> (strlen r < strlen s)%nat.
Proof.
  unfold pair. pose proof (skip_ws_shorter s) as Hl. destruct (skip_ws s) as [|c s1]; [done|]. rewrite strlen_cons in Hl. destruct (byte c =? 91); [|done].
  destruct (members _ true s1) as [|[ts r1]] eqn:Em; [done|]. intros [= _ <-]. apply members_shorter in Em. lia.
Qed.

(** The rows of an array whose elements are arrays. *)
Definition row_of (v : json) : float64 * string := unpackScalar hex (as_arr v).
Definition flat_row (v : json) : bool := forallb scalar (as_arr v).
Definition is_row (v : json) : bool := match v with JArr _ => true | _ => false end.
Lemma rows_values fuel d x s acc l r : skip_ws x = s -> pelems fuel d s acc = Some (JArr l, r) -> existsb has_other l = false -> forallb is_row l = true ->
  exists vs, l = acc ++ vs /\ forall f, (strlen x < f)%nat ->
    if forallb flat_row vs then exists cols, rows hex f x = inr cols /\ Forall2 same_sample cols (map row_of vs) else rows hex f x = inl ComplexSample.
Proof.
  revert x s acc. induction fuel as [|fuel IH]; intros x s acc Ex; [done|]. cbn [pelems]. intros Hp Ho Hr. destruct (pval fuel d s) as [[v r0]|] eqn:Ev; [|done].
  assert (forall vs f, l = (acc ++ [v]) ++ vs -> exists row, v = JArr row /\
    if forallb scalar row then exists p, rows hex (S f) x = (match skip_ws r0 with
          | EmptyString => inl BadSample
          | String c r =>
            if byte c =? 44 then match rows hex f r with inl e => inl e | inr l => inr (p :: l) end
            else if byte c =? 93 then inr [p]
            else inl BadSample
          end) /\ same_sample p (unpackScalar hex row) /\ (strlen r0 < strlen x)%nat else rows hex (S f) x = inl ComplexSample) as Hrow.
  { intros vs f ->. rewrite <- app_assoc, existsb_app in Ho. rewrite <- app_assoc, forallb_app in Hr. apply orb_false_iff in Ho as [_ Ho]. cbn in Ho. apply orb_false_iff in Ho as [Ho _].
    apply andb_prop in Hr as [_ Hr]. cbn in Hr. apply andb_prop in Hr as [Hr _]. destruct v as [| | | | |row| |]; try done. exists row. split; [done|].
    cbn [rows]. rewrite Ex. pose proof (skip_ws_shorter x) as Hlx. rewrite Ex in Hlx. pose proof (pair_value _ _ _ _ _ Ev Ho) as Hpair. destruct (pval_array _ _ _ _ _ Ev) as (c0 & s0 & -> & E0 & _). rewrite E0. change (91 =? 93) with false. cbv iota.
    destruct (forallb scalar row); [|by rewrite Hpair]. destruct Hpair as (p & Hpair & Hs). exists p. rewrite Hpair. apply pair_shorter in Hpair. split_and!; [done|done|lia]. }
  destruct (skip_ws r0) as [|c r1] eqn:Er0; [done|]. pose proof (skip_ws_shorter r0) as Hl0. rewrite Er0, strlen_cons in Hl0.
  destruct (Z.eqb_spec (byte c) 44) as [Ec|_].
  - destruct (IH r1 _ _ eq_refl Hp Ho Hr) as (vs & -> & Hvs). exists (v :: vs). rewrite <- app_assoc. split; [done|]. intros [|f] Hf; [lia|].
    destruct (Hrow vs f eq_refl) as (row & -> & Hr1). cbn [forallb]. unfold flat_row at 1. cbn [as_arr]. destruct (forallb scalar row); [|done]. destruct Hr1 as (p & -> & Hs & Hl). cbn [andb].
    specialize (Hvs f ltac:(lia)). destruct (forallb flat_row vs); [|by rewrite Hvs]. destruct Hvs as (cols & -> & Hc). exists (p :: cols). split; [done|]. by constructor.
  - destruct (Z.eqb_spec (byte c) 93) as [Ec|_]; [|done]. injection Hp as <- <-. exists [v]. split; [done|]. intros [|f] Hf; [lia|].
    destruct (Hrow [] f ltac:(by rewrite app_nil_r)) as (row & -> & Hr1). cbn [forallb]. unfold flat_row at 1. cbn [as_arr]. destruct (forallb scalar row); [|done]. destruct Hr1 as (p & -> & Hs & Hl).
    exists [p]. split; [done|]. by constructor.
Qed.
End facts.

(** C37: scanning a JSON array of arrays succeeds and gives one sample per row
    with the value text encoding/json and [fmt] would have given; the
    timestamps are those of [strconv.ParseFloat] wherever the decimal text is
    short enough for the fast path to be exact.  Rows with nested members are
    handed to encoding/json and give what it gives. *)
Theorem scanner_agrees (hex : string -> float64 * bool) (old : list (float64 * string)) (b : string) (l : list json) :
  unmarshal_any b = Some (JArr l) -> forallb is_row l = true ->
  exists cols ref, UnmarshalColumns hex old b = Ok cols /\ decodeSamplesStdlib hex b = Ok ref /\ Forall2 (same_sample hex) cols ref.
Proof.
  intros Hb Hr. assert (decodeSamplesStdlib hex b = Ok (map (row_of hex) l)) as Href.
  { unfold decodeSamplesStdlib. rewrite Hb. replace (forallb nilable_array l) with true; [done|]. symmetry.
    apply forallb_forall. intros v Hv. apply (proj1 (forallb_forall _ _) Hr) in Hv. by destruct v. }
  unfold unmarshal_any, parse in Hb. destruct (pval _ 0 (skip_ws b)) as [[v r]|] eqn:Ev; [|done]. case_decide; [|done].
  destruct (has_other v) eqn:Ho; [done|]. injection Hb as ->. cbn in Ho.
  destruct (pval_array _ _ _ _ _ Ev) as (c & r0 & Es & Ec & Hcase).
  assert (has_prefix (String c r0) "null" = false) as Hn.
  { unfold has_prefix. cbn [strip_prefix]. destruct (decide _) as [<-|]; [by vm_compute in Ec|done]. }
  unfold UnmarshalColumns. rewrite Href, Es, Hn, Ec. change (91 =? 91) with true. cbv iota.
  destruct Hcase as [(c1 & E0 & Ec1 & ->)|(n & c1 & r1 & E0 & Ec1 & Hp)].
  - cbn [rows]. rewrite E0, Ec1. by exists [], [].
  - destruct (rows_values hex _ _ _ _ _ _ _ E0 Hp Ho Hr) as (vs & Evs & Hvs). cbn in Evs. subst vs. specialize (Hvs (S (strlen r0)) ltac:(lia)).
    destruct (forallb flat_row l).
    + destruct Hvs as (cols & -> & Hc). eauto.
    + rewrite Hvs. exists (map (row_of hex) l), (map (row_of hex) l). split_and!; [done..|]. clear. induction l; [done|]. constructor; [split; [done|by left]|done].
Qed.
Definition two_rows : string := "[[1700000000," +:+ q "0.5" +:+ "], [1700000060.25, 1e3]]".
Lemma scanner_agrees_witness :
  unmarshal_any two_rows = Some (JArr [JArr [JFloat (f_of_Z 1700000000); JStr "0.5"]; JArr [JFloat (of_ratio false 6800000241 4); JFloat (f_of_Z 1000)]]) /\
  exists cols ref, UnmarshalColumns no_hex [] two_rows = Ok cols /\ decodeSamplesStdlib no_hex two_rows = Ok ref /\ Forall2 (same_sample no_hex) cols ref.
Proof.
  split; [vm_compute; reflexivity|].
  apply (scanner_agrees no_hex [] two_rows [JArr [JFloat (f_of_Z 1700000000); JStr "0.5"]; JArr [JFloat (of_ratio false 6800000241 4); JFloat (f_of_Z 1000)]]); vm_compute; reflexivity.
Defined.

(** A null row and a number out of range: where the two differ. *)
Example null_row : UnmarshalColumns no_hex [] "[null]" = Err bad_sample /\ decodeSamplesStdlib no_hex "[null]" = Ok [(float_zero, "")].
Proof. vm_compute. done. Qed.
Example huge_time : UnmarshalColumns no_hex [] ("[[1e999," +:+ q "1" +:+ "]]") = Ok [(F64Inf false, "1")] /\ decodeSamplesStdlib no_hex ("[[1e999," +:+ q "1" +:+ "]]") = Err "json: cannot unmarshal".
Proof. vm_compute. done. Qed.
