(* ===== verification/PromEnricher.v ===== *)
(** * The Prometheus actions (pkg/enrichers/prometheus.go)

    Windows and steps, the queries that are sent, the two enrichers and the
    label values.  The client is given by its answers; a batch of queries
    runs concurrently, as a step relation.  The texts of encoding/json's
    errors are left out of the messages that wrap them. *)

From S2P Require Import Prelude GoText GoJson GoStruct GoTime GoFloat CanonJson GoMarshal GoFmt GoDuration PromSamples FastDecimal EnricherBlocks.

#[local] Set Default Proof Using "Type".

Definition maxConcurrentQueries : nat := 8.
Definition maxRangePoints : Z := 11000.

(** ** Timestamps: [time.Parse] with the four layouts *)

(** A space of the layout: any number of them, none at the end of the text. *)
Definition some_spaces (s : string) : option string :=
  match s with
  | EmptyString => Some ""
  | String c _ => if byte c =? 32 then Some (span (fun c => byte c =? 32) s).2 else None
  end.
(** ["2006-01-02 15:04:05"] and a fraction, in UTC, with the rest of the text. *)
Definition date_and_time (s : string) : option (time * string) :=
  '(y, s) ← take_num 4 0 s; s ← expect "-" s;
  '(mo, s) ← take_num 2 0 s; s ← expect "-" s;
  '(d, s) ← take_num 2 0 s; s ← some_spaces s;
  '(h, s) ← take_num12 s; s ← expect ":" s;
  '(mi, s) ← take_num 2 0 s; s ← expect ":" s;
  '(sec, s) ← take_num 2 0 s;
  let '(ns, s) := take_fraction s in
  if in_range 1 12 mo && (1 <=? d) && (d <=? days_in mo y) && (h <? 24) && (mi <? 60) && (sec <? 60)
  then Some (civil y mo d h mi sec ns, s) else None.
(** The length of [+h] or [-h], an offset of at most 23 hours. *)
Definition signed_offset (s : string) : nat :=
  match s with
  | String c r =>
    if (byte c =? 43) || (byte c =? 45) then
      let '(ds, _) := span_digits r in
      if bool_decide (ds = "") || (23 <? digits_value 0 ds) then O else S (strlen ds)
    else O
  | EmptyString => O
  end.
Definition is_upper (c : ascii) : bool := in_range 65 90 (byte c).
(** The length of a zone abbreviation. *)
Definition zone_length (s : string) : option nat :=
  if (strlen s <? 3)%nat then None
  else if has_prefix s "ChST" || has_prefix s "MeST" then Some 4%nat
  else if has_prefix s "GMT" then Some (3 + signed_offset (String.substring 3 (strlen s) s))%nat
  else if has_prefix s "+" || has_prefix s "-" then (if bool_decide (signed_offset s = O) then None else Some (signed_offset s))
  else
    let caps := (span is_upper s).1 in
    match strlen caps with
    | 3%nat => Some 3%nat
    | 4%nat => if has_suffix caps "T" || bool_decide (caps = "WITA") then Some 4%nat else None
    | 5%nat => if has_suffix caps "T" then Some 5%nat else None
    | _ => None
    end.

Section enricher.
(** Hexadecimal literals, [%q], and the seconds a zone abbreviation stands
    for at a time (the zones of the machine). *)
Context (hex : string -> float64 * bool) (quote : string -> string) (abbreviation : string -> time -> Z).

Definition parse_utc (s : string) : option time :=
  '(t, s) ← date_and_time s; s ← some_spaces s; if bool_decide (s = "UTC") then Some t else None.
Definition parse_zoned (s : string) : option time :=
  '(t, s) ← date_and_time s; s ← some_spaces s;
  if bool_decide (s = "UTC") then Some t
  else if has_prefix s "UTC" then None
  else
    n ← zone_length s;
    if bool_decide (n = strlen s) then Some (t - abbreviation s t * second) else None.
Definition parseTimestamp (s : string) : result time :=
  let s := trim_space s in
  match parse_utc s with
  | Some t => Ok t
  | None =>
    match parse_zoned s with
    | Some t => Ok t
    | None => match parse_rfc3339 s with Some t => Ok t | None => Err ("unrecognised timestamp " +:+ quote s) end
    end
  end.

(** ** Windows *)

(** [%T] *)
Definition type_text (v : json) : string :=
  match v with
  | JNull => "<nil>" | JBool _ => "bool" | JInt _ => "int" | JFloat _ => "float64" | JStr _ => "string"
  | JArr _ => "[]interface {}" | JObj _ => "map[string]interface {}" | JOther t => t
  end.
Definition atoi_error (s : string) : string :=
  "strconv.Atoi: parsing " +:+ quote s +:+ ": " +:+
  (if all_digits (strip_sign s).2 && negb (bool_decide ((strip_sign s).2 = "")) then "value out of range" else "invalid syntax").
Definition toInt (v : json) : result Z :=
  match v with
  | JInt z => Ok z
  | JFloat f => Ok (f_to_int f)
  | JStr s => match atoi s with Some z => Ok z | None => Err (atoi_error s) end
  | _ => Err ("expected number, got " +:+ type_text v)
  end.
(** [raw] is nil when there is no window; [now] is the clock. *)
Definition parseDuration (now : time) (raw : json) : result (time * time) :=
  match raw with
  | JNull => Ok (zero_time, zero_time)
  | _ =>
    let raw := match raw with JArr (v :: _) => v | _ => raw end in
    match raw with
    | JObj m =>
      match assoc "duration_minutes" m with
      | Some dm =>
        let? mins := rwrap "duration_minutes: " (toInt dm) in
        let now := now - now mod second in
        Ok (time_add now (wrap64 (wrap64 (- mins) * minute)), now)
      | None =>
        let starts := get_str (Some m) "starts_at" in
        let ends := get_str (Some m) "ends_at" in
        if bool_decide (starts = "") || bool_decide (ends = "") then Err "duration: starts_at and ends_at are required"
        else
          let? s := rwrap "starts_at: " (parseTimestamp starts) in
          let? e := rwrap "ends_at: " (parseTimestamp ends) in
          Ok (s, e)
      end
    | _ => Err ("duration: unexpected type " +:+ type_text raw)
    end
  end.

(** ** Steps *)
Definition promDurationUnits : list (string * float64) :=
  [("ms", of_ratio false 1 1000); ("s", f_of_Z 1); ("m", f_of_Z 60); ("h", f_of_Z 3600); ("d", f_of_Z 86400);
   ("w", f_of_Z 604800); ("y", f_of_Z 31536000)].
Fixpoint take_prom_unit (units : list (string * float64)) (s : string) : option (float64 * string) :=
  match units with
  | [] => None
  | (suffix, seconds) :: units => match strip_prefix suffix s with Some r => Some (seconds, r) | None => take_prom_unit units s end
  end.
(** Every round takes a digit and a unit. *)
Fixpoint prom_terms (fuel : nat) (total : float64) (s : string) : option float64 :=
  match fuel with
  | O => None
  | S fuel =>
    if bool_decide (s = "") then Some total
    else
      let '(ds, r) := span_digits s in
      if bool_decide (ds = "") then None
      else
        let '(n, ok) := parse_float64 hex ds in
        if negb ok then None
        else match take_prom_unit promDurationUnits r with
             | Some (unit, r) => prom_terms fuel (float_add total (f_mul n unit)) r
             | None => None
             end
  end.
Definition parsePromDuration (s : string) : option float64 :=
  if bool_decide (s = "") then None else prom_terms (S (strlen s)) float_zero s.

(** [d.Seconds()] *)
Definition seconds (d : duration) : float64 :=
  float_add (f_of_Z (Z.quot d second)) (f_div (f_of_Z (Z.rem d second)) (f_of_Z second)).
Definition positive (f : float64) : bool := f_lt float_zero f.
(** The seconds a step is taken for. *)
Definition step_seconds (step : string) : float64 :=
  let '(f, ok) := parse_float64 hex step in
  if ok && negb (f_le f float_zero) then f
  else match parsePromDuration step with
       | Some d => if positive d then d
                   else match ParseDuration step with Some d => if 0 <? d then seconds d else f_of_Z 60 | None => f_of_Z 60 end
       | None => match ParseDuration step with Some d => if 0 <? d then seconds d else f_of_Z 60 | None => f_of_Z 60 end
       end.
Definition clampStep (startsAt endsAt : time) (step : string) : string :=
  let span := seconds (time_sub endsAt startsAt) in
  if f_le span float_zero then step
  else if f_le (f_div span (step_seconds step)) (f_of_Z maxRangePoints) then step
  else itoa (f_to_int (f_ceil (f_div span (f_of_Z maxRangePoints)))).
Definition number_step (v : json) : option string :=
  match v with
  | JStr s => if bool_decide (s = "") then None else Some s
  | JFloat f => if positive f then Some (match f with F64 _ _ _ => default "" (format_shortest fmt_f f) | F64Inf _ => "+Inf" | F64NaN => "NaN" end) else None
  | _ => None
  end.
Definition stringStep (params : gomap) : string :=
  match number_step (mget params "step") with
  | Some s => s
  | None => default "" (number_step (mget params "steps"))
  end.

(** ** Queries *)
Inductive prom_call :=
| Query (query atTime : string)
| QueryRange (query start end_ step : string)
| LabelValues (label start end_ : string) (matches : list string).
Definition unix_text (t : time) : string := itoa (unix_seconds t).
Definition instant_call (query : string) (endsAt : time) : prom_call :=
  Query query (if is_zero_time endsAt then "" else unix_text endsAt).
(** The call of [runOne]. *)
Definition run_call (query : string) (instant : bool) (startsAt endsAt : time) (step : string) : result prom_call :=
  if instant then Ok (instant_call query endsAt)
  else if is_zero_time startsAt || is_zero_time endsAt then Err "prometheus_enricher: range query requires duration with starts_at and ends_at"
  else Ok (QueryRange query (unix_text startsAt) (unix_text endsAt)
             (clampStep startsAt endsAt (if bool_decide (step = "") then "60" else step))).
Definition runOne (query : string) (instant : bool) (startsAt endsAt : time) (step : string) (answer : result string) : result (list (string * json)) :=
  let? _ := run_call query instant startsAt endsAt step in
  let? raw := answer in
  PrometheusQueryResultDict hex quote raw.
Definition runOneInstantRaw (answer : result string) : result (list json) :=
  let? raw := answer in
  let '(env, ok) := read_envelope raw in
  if negb ok then Err "decode prometheus response: "
  else if negb (bool_decide (en_Status env = "success")) then
    Err (if bool_decide (en_Error env = "") then "non-success status: " +:+ en_Status env else en_Error env)
  else if bool_decide (en_Result env = "") then Ok []
  else match unmarshal_any (en_Result env) with
       | Some (JArr l) => Ok l
       | Some JNull => Ok []
       | _ => Err "decode result array: "
       end.

(** ** [prometheus_enricher] and [prometheus_queries_enricher] *)
Context (accountID fresh : string) (now : time).
Definition promql_required : list (string * json) := ErrorResponse "Invalid request, prometheus_enricher requires a promql query." 400.

Record batch := MkBatch { b_queries : list (string * string); b_instant : bool; b_start : time; b_end : time; b_step : string }.
Definition read_query (v : json) : list (string * string) :=
  match v with
  | JObj m => let q := get_str (Some m) "query" in if bool_decide (q = "") then [] else [(get_str (Some m) "key", q)]
  | _ => []
  end.
(** The batch a message asks for, or the response that refuses it. *)
Definition read_batch (params : gomap) : list (string * json) + batch :=
  let raw := match get_arr params "promql_queries" with
             | [] => let q := get_str params "promql_query" in
                     if bool_decide (q = "") then [] else [JObj [("key", JStr "A"); ("query", JStr q)]]
             | l => l
             end in
  if bool_decide (raw = []) then inl promql_required
  else match parseDuration now (mget params "duration") with
       | Err e => inl (ErrorResponse e 400)
       | Ok (s, e) => inr (MkBatch (flat_map read_query raw) (as_bool (mget params "instant")) s e (stringStep params))
       end.
(** What the goroutine of a query stores. *)
Definition query_result (b : batch) (query : string) (answer : result string) : json :=
  if b_instant b then
    match runOneInstantRaw answer with Ok l => JArr l | Err e => JObj (errorEnvelope e) end
  else match runOne query false (b_start b) (b_end b) (b_step b) answer with
       | Ok r => JObj r
       | Err e => JObj (errorEnvelope e)
       end.
Definition deliver (keys : list string) (results : list json) : result (list (string * json)) :=
  let? block := JSONBlock (JObj (foldl (fun out kr => mset kr.1 kr.2 out) [] (zip keys results))) in
  FindingResponse accountID nil_uuid fresh [block].
(** The response, for the answers to the queries in their order. *)
Definition HandleQueriesEnricher (params : gomap) (answers : list (result string)) : result (list (string * json)) :=
  match read_batch params with
  | inl refusal => Ok refusal
  | inr b => deliver (b_queries b).*1 (zip_with (query_result b) (b_queries b).*2 answers)
  end.
Definition HandleEnricher (params : gomap) (answers : list (result string)) : result (list (string * json)) :=
  match get_arr params "promql_queries" with
  | _ :: _ => HandleQueriesEnricher params answers
  | [] =>
    let query := get_str params "promql_query" in
    if bool_decide (query = "") then Ok promql_required
    else match parseDuration now (mget params "duration") with
         | Err e => Ok (ErrorResponse e 400)
         | Ok (s, e) =>
           let data := match runOne query (as_bool (mget params "instant")) s e (stringStep params) (default (Err "") (head answers)) with
                       | Ok r => r
                       | Err e => errorEnvelope e
                       end in
           FindingResponse accountID nil_uuid fresh [PrometheusBlock data query]
         end
  end.

(** ** [prometheus_labels] *)
Definition labels_payload (kind error : string) (data : list json) : json :=
  JObj [("result_type", JStr kind); ("data", JArr data); ("error", JStr error)].
Definition label_response (payload : json) : result (list (string * json)) :=
  let? block := JSONBlock payload in FindingResponse accountID nil_uuid fresh [block].
Definition labelsErrorFinding (msg : string) : result (list (string * json)) := label_response (labels_payload "error" msg []).
Record label_envelope := MkLabels { le_Status : string; le_Data : option (list json); le_Error : string }.
Definition set_label (f : string) (m : member) (e : label_envelope) : label_envelope * bool :=
  if bool_decide (f = "status") then let '(t, ok) := set_string (le_Status e) m in (MkLabels t (le_Data e) (le_Error e), ok)
  else if bool_decide (f = "data") then
    match m_val m with
    | JArr l => (MkLabels (le_Status e) (Some l) (le_Error e), negb (existsb has_other l))
    | JNull => (MkLabels (le_Status e) None (le_Error e), true)
    | _ => (e, false)
    end
  else let '(t, ok) := set_string (le_Error e) m in (MkLabels (le_Status e) (le_Data e) t, ok).
Definition extractPrometheusDataArray (raw : string) : result (list json) :=
  let '(env, ok) := unmarshal_struct ["status"; "data"; "error"] set_label raw (MkLabels "" None "") in
  if negb ok then Err ""
  else if negb (bool_decide (le_Status env = "success")) then
    Err (if bool_decide (le_Error env = "") then "non-success status: " +:+ le_Status env else le_Error env)
  else Ok (default [] (le_Data env)).
Definition paramStringSlice (p : gomap) (key : string) : list string :=
  match mget p key with
  | JStr s => [s]
  | JArr l => flat_map (fun v => match v with JStr s => [s] | _ => [] end) l
  | _ => []
  end.
Definition label_call (params : gomap) : prom_call :=
  LabelValues (get_str params "label_name") (get_str params "start") (get_str params "end") (paramStringSlice params "match[]").
Definition HandleLabels (params : gomap) (answer : result string) : result (list (string * json)) :=
  if bool_decide (get_str params "label_name" = "") then labelsErrorFinding "prometheus_labels: label_name is required"
  else match answer with
       | Err e => labelsErrorFinding ("prometheus_labels: " +:+ e)
       | Ok raw =>
         match extractPrometheusDataArray raw with
         | Err e => labelsErrorFinding ("prometheus_labels: parse response: " +:+ e)
         | Ok values => label_response (labels_payload "success" "" values)
         end
       end.
End enricher.

(** ** The fan-out

    The goroutines of a batch: one waits for the semaphore, runs its query
    and stores the result in its slot. *)
Inductive phase := Queued | InFlight | Answered (res : json).
Definition is_running (p : phase) : bool := match p with InFlight => true | _ => false end.
Definition in_flight (st : list phase) : nat := length (filter (fun p => is_running p = true) st).
Inductive fan_step (jobs : list (result string -> json)) : list phase -> list phase -> Prop :=
| Acquire i st : st !! i = Some Queued -> (in_flight st < maxConcurrentQueries)%nat -> fan_step jobs st (<[i := InFlight]> st)
| Release i st job answer : st !! i = Some InFlight -> jobs !! i = Some job -> fan_step jobs st (<[i := Answered (job answer)]> st).
Definition started (jobs : list (result string -> json)) : list phase := map (fun _ => Queued) jobs.
Definition answered (p : phase) : option json := match p with Answered r => Some r | _ => None end.
(** [wg.Wait()] returns when every goroutine has stored its result. *)
Definition gathered (st : list phase) : option (list json) := mapM answered st.

(** ** Widened steps *)
Lemma div_integers F S : 0 < F < 2 ^ 44 -> 0 < S < 2 ^ 44 -> f_div (f_of_Z F) (f_of_Z S) = of_ratio false F S.
Proof.
  intros HF HS. assert (2 ^ 44 < 2 ^ 53) by done. rewrite !f_of_Z_val by lia. unfold f_div, val. pose proof (mant_range F ltac:(lia)) as HmF. pose proof (mant_range S ltac:(lia)) as HmS.
  assert (forall a, 0 < a < 2 ^ 44 -> 0 <= Z.log2 a < 44) as Hlog by (intros a Ha; split; [apply Z.log2_nonneg|apply Z.log2_lt_pow2; lia]).
  pose proof (Hlog F HF). pose proof (Hlog S HS). destruct (Z.eqb_spec (mant S) 0); [lia|]. cbn [xorb]. unfold of_scaled.
  destruct (scaled_exists F S) as (s & Hs); [lia..|].
  replace (Z.log2 F - 52 - 0 - (Z.log2 S - 52 - 0)) with (Z.log2 F - Z.log2 S) by lia. symmetry.
  assert (forall a, mant a = a * 2 ^ (52 - Z.log2 a)) as Hm by done.
  destruct (Z.leb_spec 0 (Z.log2 F - Z.log2 S)) as [Hle|Hle].
  - pose proof (Z.pow_pos_nonneg 2 (Z.log2 F - Z.log2 S) ltac:(lia) ltac:(lia)). apply (of_ratio_ratio s); [lia|lia|nia|lia| |done]. rewrite !Hm.
    assert (2 ^ (52 - Z.log2 S) = 2 ^ (52 - Z.log2 F) * 2 ^ (Z.log2 F - Z.log2 S)) as -> by (rewrite <- pow2_split by lia; f_equal; lia). lia.
  - pose proof (Z.pow_pos_nonneg 2 (- (Z.log2 F - Z.log2 S)) ltac:(lia) ltac:(lia)). apply (of_ratio_ratio s); [lia|lia|lia|nia| |done]. rewrite !Hm.
    assert (2 ^ (52 - Z.log2 F) = 2 ^ (52 - Z.log2 S) * 2 ^ (- (Z.log2 F - Z.log2 S))) as -> by (rewrite <- pow2_split by lia; f_equal; lia). lia.
Qed.
(** Rounding a quotient of small integers does not move its ceiling. *)
Lemma ceil_integers n D : 0 < n < 2 ^ 44 -> 0 < D < 2 ^ 44 -> f_ceil (of_ratio false n D) = f_of_Z (div_up n D).
Proof.
  intros Hn HD. set (K := div_up n D). pose proof (div_up_spec n D ltac:(lia)) as HK. fold K in HK. assert (0 < K) as HK0 by nia.
  assert (forall a, 0 < a < 2 ^ 44 -> 0 <= Z.log2 a < 44) as Hlog by (intros a Ha; split; [apply Z.log2_nonneg|apply Z.log2_lt_pow2; lia]).
  pose proof (Hlog n Hn). pose proof (Hlog D HD). destruct (scaled_exists n D) as (s & Hs); [lia..|].
  rewrite (of_ratio_at s n D) by (done || lia). destruct Hs as [Hs [Hlo Hhi]].
  pose proof (div_half_even_bounds (n * 2 ^ s) D ltac:(lia)) as Hq. set (q := div_half_even (n * 2 ^ s) D) in *. pose proof (Z.pow_pos_nonneg 2 s ltac:(lia) ltac:(lia)) as HS0. set (S := 2 ^ s) in *.
  assert (D < S) as HS. { change (2 ^ 52) with (2 ^ 8 * 2 ^ 44) in Hlo. assert (n * S <= 2 ^ 44 * S) by (apply Z.mul_le_mono_nonneg_r; lia). lia. }
  assert ((K - 1) * S < q <= K * S) as Hqk by (split; nia).
  unfold f_of_Z. replace (K <? 0) with false by lia. rewrite Z.abs_eq by lia. destruct (Z.eqb_spec q (2 ^ 53)) as [Eq|_].
  - unfold f_ceil, f_integral. destruct (Z.leb_spec 0 (1 - s)).
    + exfalso. assert (s = 1) as -> by lia. change (2 ^ 1) with 2 in *. unfold S in *. lia.
    + f_equal. apply div_up_unique; [apply Z.pow_pos_nonneg; lia|].
      assert (S = 2 * 2 ^ (- (1 - s))) as ES by (unfold S; rewrite <- (Z.pow_succ_r 2) by lia; f_equal; lia). rewrite Eq, ES in Hqk. lia.
  - unfold f_ceil, f_integral. destruct (Z.leb_spec 0 (- s)); [lia|]. rewrite Z.opp_involutive. fold S. f_equal. by apply div_up_unique.
Qed.
Lemma f_to_int_integer a : 0 < a < 2 ^ 53 -> f_to_int (f_of_Z a) = a.
Proof.
  intros Ha. rewrite f_of_Z_val by done. unfold f_to_int, val. cbn [signed]. pose proof (log2_range a Ha) as Hl. pose proof (mant_range a Ha).
  assert ((if 0 <=? Z.log2 a - 52 - 0 then mant a * 2 ^ (Z.log2 a - 52 - 0) else mant a / 2 ^ (- (Z.log2 a - 52 - 0))) = a) as ->.
  { unfold mant. destruct (Z.leb_spec 0 (Z.log2 a - 52 - 0)).
    - replace (Z.log2 a) with 52 by lia. cbn. lia.
    - replace (- (Z.log2 a - 52 - 0)) with (52 - Z.log2 a) by lia. apply Z.div_mul. apply Z.pow_nonzero; lia. }
  unfold int64_min, int64_max. replace (_ && _) with true; [done|]. assert (2 ^ 53 < 2 ^ 63 - 1) by done. lia.
Qed.
Lemma seconds_whole n : 0 < n -> n * second <= int64_max -> seconds (n * second) = f_of_Z n.
Proof.
  intros Hn Hm. assert (n < 2 ^ 34) by (unfold second, int64_max in Hm; lia). unfold seconds. rewrite Z.quot_mul, Z.rem_mul by done.
  assert (second < 2 ^ 53) by done. rewrite fast_zero by (unfold second in *; lia). unfold f_of_Z. replace (n <? 0) with false by lia. rewrite Z.abs_eq by lia.
  apply (of_ratio_ratio (52 - Z.log2 n)); [unfold second; lia..|]. apply integer_scaled; unfold second; lia.
Qed.

Lemma clamped (hex : string -> float64 * bool) startsAt n step : 0 < n -> n * second <= int64_max ->
  clampStep hex startsAt (startsAt + n * second) step =
  if f_le (f_div (f_of_Z n) (step_seconds hex step)) (f_of_Z maxRangePoints) then step else itoa (div_up n maxRangePoints).
Proof.
  intros Hn Hm. assert (n < 2 ^ 34) by (unfold second, int64_max in Hm; lia). unfold clampStep.
  rewrite time_sub_exact by (unfold int64_min, second in *; lia). replace (startsAt + n * second - startsAt) with (n * second) by lia. rewrite seconds_whole by done.
  assert (f_le (f_of_Z n) float_zero = false) as ->.
  { rewrite f_of_Z_val by lia. pose proof (mant_range n ltac:(lia)). unfold f_le, f_compare, val, float_zero. cbn [signed].
    pose proof (log2_range n ltac:(lia)). rewrite Z.min_r by lia. pose proof (Z.pow_pos_nonneg 2 (Z.log2 n - 52 - 0 - -1074) ltac:(lia) ltac:(lia)).
    destruct (Z.compare_spec (mant n * 2 ^ (Z.log2 n - 52 - 0 - -1074)) (0 * 2 ^ (-1074 - -1074))); [nia|nia|done]. }
  destruct (f_le (f_div _ (step_seconds hex step)) _); [done|]. unfold maxRangePoints. rewrite div_integers, ceil_integers by lia.
  rewrite f_to_int_integer; [done|]. pose proof (div_up_spec n 11000 ltac:(lia)). assert (2 ^ 34 < 2 ^ 53) by done. nia.
Qed.

Definition month_start : time := unix_to_internal + 1704067200 * second.

(** ** Every query is answered *)
Definition weight (p : phase) : nat := match p with Queued => 2 | InFlight => 1 | Answered _ => 0 end.
Definition weights (st : list phase) : nat := sum_list_with weight st.
Definition sound (jobs : list (result string -> json)) (st : list phase) : Prop :=
  (in_flight st <= maxConcurrentQueries)%nat /\ Forall2 (fun job p => forall r, p = Answered r -> exists a, r = job a) jobs st.

Lemma in_flight_insert st i p p' : st !! i = Some p ->
  (in_flight (<[i := p']> st) + (if is_running p then 1 else 0) = in_flight st + (if is_running p' then 1 else 0))%nat.
Proof.
  revert i. induction st as [|x st IH]; intros [|i]; [done..|intros [= ->]|intros Hi]; unfold in_flight in *; cbn [insert list_insert]; rewrite !filter_cons.
  - repeat case_decide; destruct (is_running p), (is_running p'); simpl; (congruence || lia).
  - specialize (IH i Hi). case_decide; simpl; [f_equal|]; exact IH.
Qed.
Lemma weights_insert st i p p' : st !! i = Some p -> (weights (<[i := p']> st) + weight p = weights st + weight p')%nat.
Proof.
  revert i. unfold weights. induction st as [|x st IH]; intros [|i]; [done..|intros [= ->]|intros Hi]; [cbn; lia|].
  specialize (IH i Hi). change (weight x + sum_list_with weight (<[i:=p']> st) + weight p = weight x + sum_list_with weight st + weight p')%nat. lia.
Qed.
Lemma fan_step_sound jobs st st' : fan_step jobs st st' -> sound jobs st -> sound jobs st' /\ weights st = S (weights st').
Proof.
  intros Hs [Hf Hr]. destruct Hs as [i st Hi Hc|i st job a Hi Hj].
  - pose proof (in_flight_insert st i Queued InFlight Hi) as Hl. pose proof (weights_insert st i Queued InFlight Hi) as Hw. cbn in Hl, Hw.
    split; [split|lia]; [lia|]. destruct (Forall2_lookup_r _ _ _ _ _ Hr Hi) as (job & Hj & _). rewrite <- (list_insert_id jobs i job Hj). by apply Forall2_insert.
  - pose proof (in_flight_insert st i InFlight (Answered (job a)) Hi) as Hl. pose proof (weights_insert st i InFlight (Answered (job a)) Hi) as Hw. cbn in Hl, Hw.
    split; [split|lia]; [lia|]. rewrite <- (list_insert_id jobs i job Hj). apply Forall2_insert; [done|]. intros r [= <-]. eauto.
Qed.
Lemma fan_steps_sound jobs k st st' : nsteps (fan_step jobs) k st st' -> sound jobs st -> sound jobs st' /\ weights st = (k + weights st')%nat.
Proof.
  induction 1 as [st|k st1 st2 st3 H12 H23 IH]; intros Hs; [done|]. destruct (fan_step_sound _ _ _ H12 Hs) as [Hs2 ->]. destruct (IH Hs2) as [Hs3 ->]. split; [done|lia].
Qed.
Lemma started_sound jobs : sound jobs (started jobs) /\ weights (started jobs) = (2 * length jobs)%nat.
Proof.
  unfold sound, started, in_flight, weights. induction jobs as [|j jobs [[Hf Hr] Hw]]; [repeat split; [unfold maxConcurrentQueries; cbn; lia|constructor]|].
  cbn [map]. rewrite filter_cons_False by done. split; [split; [done|by constructor]|]. cbn. lia.
Qed.
(** Nothing waits without a running query to wait for. *)
Lemma find_weight (w : nat) (st : list phase) : (exists i p, st !! i = Some p /\ weight p = w) \/ Forall (fun p => weight p <> w) st.
Proof.
  destruct (decide (Exists (fun p => weight p = w) st)) as [(p & Hp & Hw)%list.Exists_exists|Hno].
  - left. apply list_elem_of_lookup in Hp as (i & Hi). eauto.
  - right. apply Forall_Exists_neg in Hno. by eapply Forall_impl.
Qed.
Lemma fan_progress jobs st : sound jobs st -> (exists st', fan_step jobs st st') \/ exists rs, gathered st = Some rs.
Proof.
  intros [Hf Hr]. destruct (find_weight 1 st) as [(i & p & Hi & Hp)|Hno].
  { left. destruct (Forall2_lookup_r _ _ _ _ _ Hr Hi) as (job & Hj & _). destruct p; try done. eexists. by apply (Release jobs i st job (Err "")). }
  destruct (find_weight 2 st) as [(i & p & Hi & Hp)|Hnq].
  - left. destruct p; try done. exists (<[i := InFlight]> st). apply Acquire; [done|].
    assert (in_flight st = 0%nat) as ->; [|unfold maxConcurrentQueries; lia]. clear - Hno. unfold in_flight. induction Hno as [|x st Hx _ IH]; [done|].
    rewrite filter_cons_False; [done|]. by destruct x.
  - right. clear - Hno Hnq. unfold gathered. induction st as [|x st IH]; [by exists []|]. inversion Hno; inversion Hnq; subst. destruct IH as [rs IH]; [done..|].
    destruct x as [| |r]; [done..|]. exists (r :: rs). cbn. by rewrite IH.
Qed.
Lemma gathered_answers jobs st rs : sound jobs st -> gathered st = Some rs ->
  exists answers, length answers = length jobs /\ rs = zip_with (fun job a => job a) jobs answers.
Proof.
  intros [_ Hr]. revert rs. unfold gathered. induction Hr as [|job p jobs st Hp _ IH]; intros rs; cbn; [intros [= <-]; by exists []|].
  destruct (answered p) as [r|] eqn:Ep; [|done]. destruct (mapM answered st) as [rs'|]; [|done]. cbn. intros [= <-].
  destruct (IH rs' eq_refl) as (answers & Hl & ->). destruct p; try done. injection Ep as ->. destruct (Hp r eq_refl) as [a ->]. exists (a :: answers). cbn. by rewrite Hl.
Qed.

(** C39: a batch of queries is answered whole, however its goroutines
    interleave and whatever the answers are: at most eight queries are in
    flight, there is no deadlock, and after two steps per query the response
    is the one that running the queries one after the other would give. *)
Theorem batch_answered (hex : string -> float64 * bool) (quote : string -> string) (abbreviation : string -> time -> Z)
  (accountID fresh : string) (now : time) (params : gomap) (b : batch) (k : nat) (st : list phase) :
  read_batch quote abbreviation now params = inr b ->
  let jobs := map (query_result hex quote b) (b_queries b).*2 in
  nsteps (fan_step jobs) k (started jobs) st ->
  (k <= 2 * length (b_queries b))%nat /\ (in_flight st <= maxConcurrentQueries)%nat /\
  ((exists st', fan_step jobs st st') \/
   exists results answers, gathered st = Some results /\ length answers = length (b_queries b) /\
     deliver accountID fresh (b_queries b).*1 results = HandleQueriesEnricher hex quote abbreviation accountID fresh now params answers).
Proof.
  intros Hb jobs Hn. assert (length jobs = length (b_queries b)) as El by (unfold jobs; by rewrite !length_map).
  destruct (started_sound jobs) as [H0 Hw0]. destruct (fan_steps_sound _ _ _ _ Hn H0) as [Hs Hw]. split_and!; [lia|apply Hs|].
  destruct (fan_progress _ _ Hs) as [|[rs Hrs]]; [by left|right]. destruct (gathered_answers _ _ _ Hs Hrs) as (answers & Hl & ->).
  exists (zip_with (fun job a => job a) jobs answers), answers. split_and!; [done|by rewrite Hl|]. unfold HandleQueriesEnricher. rewrite Hb. f_equal.
  unfold jobs. clear. revert answers. induction (b_queries b).*2 as [|q qs IH]; intros [|a answers]; [done..|]. cbn. by rewrite IH.
Qed.
Definition two_queries : gomap := Some [("instant", JBool true);
  ("promql_queries", JArr [JObj [("key", JStr "A"); ("query", JStr "up")]; JStr "?"; JObj [("key", JStr "B"); ("query", JStr "down")]])].
Definition two_batch : batch := MkBatch [("A", "up"); ("B", "down")] true 0 0 "".
Definition two_jobs : list (result string -> json) := map (query_result no_hex (fun s => s) two_batch) ["up"; "down"].
Lemma batch_answered_witness :
  read_batch (fun s => s) (fun _ _ => 0) 0 two_queries = inr two_batch /\
  nsteps (fan_step two_jobs) 2 (started two_jobs) [InFlight; InFlight] /\
  (2 <= 4)%nat /\ (2 <= maxConcurrentQueries)%nat /\
  ((exists st', fan_step two_jobs [InFlight; InFlight] st') \/
   exists results answers, gathered [InFlight; InFlight] = Some results /\ length answers = 2%nat /\
     deliver "acc" "id" ["A"; "B"] results = HandleQueriesEnricher no_hex (fun s => s) (fun _ _ => 0) "acc" "id" 0 two_queries answers).
Proof.
  assert (read_batch (fun s => s) (fun _ _ => 0) 0 two_queries = inr two_batch) as Hb by (vm_compute; reflexivity).
  assert (nsteps (fan_step two_jobs) 2 (started two_jobs) [InFlight; InFlight]) as Hn.
  { eapply nsteps_l; [|eapply nsteps_l; [|apply nsteps_O]].
    - apply (Acquire two_jobs 0 [Queued; Queued]); [reflexivity|vm_compute; lia].
    - apply (Acquire two_jobs 1 [InFlight; Queued]); [reflexivity|vm_compute; lia]. }
  split; [exact Hb|]. split; [exact Hn|].
  exact (batch_answered no_hex (fun s => s) (fun _ _ => 0) "acc" "id" 0 two_queries two_batch 2 [InFlight; InFlight] Hb Hn).
Defined.

Example step_durations : map (step_seconds no_hex) ["30"; "1d"; "1m30s"; "1h30m0.5s"; "-5"; "x"] = map f_of_Z [30; 86400; 90] ++ [of_ratio false 10801 2; f_of_Z 60; f_of_Z 60].
Proof. vm_compute. reflexivity. Qed.
Example timestamps : map (fun s => is_ok (parseTimestamp (fun s => s) (fun _ _ => 0) s)) ["2024-02-29 06:30:00 UTC"; "2024-02-29 6:30:00.5  UTC"; "2024-02-29 06:30:00 CEST"; "2024-02-29T06:30:00Z"; "2024-02-30 06:30:00 UTC"; "2024-02-29"]
  = [true; true; true; true; false; false].
Proof. vm_compute. reflexivity. Qed.
