(* ===== verification/AppStats.v ===== *)
(** * Application statistics (pkg/enrichers/app_stats.go, timeseries.go,
    app_stats_queries.go)

    Range queries laid onto fixed-step grids, the workload a series belongs
    to, the merge of the series of a workload and the reduction to the
    response.  The iteration orders of Go maps are the orders of the lists.
    The theorems at the end are about the cells of a grid, the owner of a pod
    and what the response leaves out. *)

From S2P Require Import Prelude GoText GoJson GoStruct GoTime GoFloat CanonJson GoMarshal GoFmt PromQL PromSamples FastDecimal PromEnricher.

#[local] Set Default Proof Using "Type".

(** ** Series (timeseries.go) *)
Record timeSeries := MkSeries { fromTime : Z; ts_step : Z; data : list float64 }.
Definition newTimeSeries (from : Z) (points step : Z) : timeSeries := MkSeries from step (replicate (Z.to_nat points) F64NaN).
(** [t] and the arithmetic on it are int64. *)
Definition set (s : timeSeries) (t : Z) (v : float64) : timeSeries :=
  if (ts_step s =? 0) || (t <? fromTime s) then s
  else
    let idx := Z.quot (wrap64 (t - fromTime s)) (ts_step s) in
    if (idx <? 0) || (Z.of_nat (length (data s)) <=? idx) then s
    else MkSeries (fromTime s) (ts_step s) (<[Z.to_nat idx := v]> (data s)).
Definition last (s : timeSeries) : float64 := default F64NaN (list.last (data s)).
Definition reduce (f : float64 -> float64 -> float64) (s : timeSeries) : float64 := fold_left f (data s) F64NaN.
(** The cells both have are combined; [dest] keeps the others. *)
Fixpoint merge_cells (f : float64 -> float64 -> float64) (l l' : list float64) : list float64 :=
  match l, l' with
  | x :: l, y :: l' => f x y :: merge_cells f l l'
  | _, _ => l
  end.
Definition mergeSeries (f : float64 -> float64 -> float64) (dest ts : option timeSeries) : option timeSeries :=
  match dest, ts with
  | None, _ => ts
  | _, None => dest
  | Some d, Some t => Some (MkSeries (fromTime d) (ts_step d) (merge_cells f (data d) (data t)))
  end.
Definition rMax (acc v : float64) : float64 := if is_nan acc then v else if is_nan v then acc else if f_lt acc v then v else acc.
Definition rMin (acc v : float64) : float64 := if is_nan acc then v else if is_nan v then acc else if f_lt v acc then v else acc.
Definition rNanSum (acc v : float64) : float64 :=
  let acc := if is_nan acc then float_zero else acc in if is_nan v then acc else float_add acc v.
Definition finite (f : float64) : bool := match f with F64 _ _ _ => true | _ => false end.

(** ** The workload of a series *)
Definition has_key (m : smap) (k : string) : bool := match m with Some l => bool_decide (is_Some (assoc k l)) | None => false end.
Definition hasAnyKey (m : smap) (keys : list string) : bool := existsb (has_key m) keys.
Definition pod_char (c : ascii) : bool := in_range 97 122 (byte c) || is_digit c || (byte c =? 45).
Definition hex_char (c : ascii) : bool := is_digit c || in_range 97 102 (byte c).
Definition safe_chars : string := "bcdfghjklmnpqrstvwxz2456789".
Definition safe_char (c : ascii) : bool := contains_byte c safe_chars.
(** What follows the group, at the start of a text: [-\d], a dash and five
    safe characters, a dash with up to ten hex digits before that. *)
Definition statefulset_tail (s : string) : bool :=
  match s with String d (String c _) => (byte d =? 45) && is_digit c | _ => false end.
Definition daemonset_tail (s : string) : bool :=
  match s with
  | String d (String a (String b (String c (String e (String f _))))) => (byte d =? 45) && forallb safe_char [a; b; c; e; f]
  | _ => false
  end.
Definition deployment_tail (s : string) : bool :=
  match s with
  | String d r =>
    let '(h, t) := span hex_char r in
    (byte d =? 45) && (1 <=? strlen h)%nat && (strlen h <=? 10)%nat && daemonset_tail t
  | EmptyString => false
  end.
(** The longest group that starts here: at least one character of the class,
    followed by the tail. *)
Fixpoint group_here (tail : string -> bool) (s : string) : option string :=
  match s with
  | String c r =>
    if pod_char c then
      match group_here tail r with
      | Some g => Some (String c g)
      | None => if tail r then Some (String c "") else None
      end
    else None
  | EmptyString => None
  end.
(** The leftmost match of the group and its tail. *)
Fixpoint find_group (tail : string -> bool) (s : string) : option string :=
  match s with
  | String _ r => match group_here tail s with Some g => Some g | None => find_group tail r end
  | EmptyString => None
  end.
Definition ownerFromPodName (pod : string) : string :=
  match find_group deployment_tail pod with
  | Some g => g
  | None =>
    match find_group daemonset_tail pod with
    | Some g => g
    | None => match find_group statefulset_tail pod with Some g => g | None => pod end
    end
  end.
Definition resolveOwner (labels : smap) : string * string * string :=
  let get := sget labels in
  let '(owner, namespace) :=
    if negb (bool_decide (get "actual_destination_workload_namespace" = "")) then
      (get "actual_destination_workload_name", get "actual_destination_workload_namespace")
    else if negb (bool_decide (get "destination_workload_namespace" = "")) then
      (get "destination_workload_name", get "destination_workload_namespace")
    else if negb (bool_decide (get "container_id" = "")) then
      match split_at (chr 47) (get "container_id") with
      | _ :: _ :: ns :: pod :: _ :: _ => (ownerFromPodName pod, ns)
      | _ => ("", "")
      end
    else if negb (bool_decide (get "deployment" = "")) then (get "deployment", get "namespace")
    else (ownerFromPodName (get "pod"), get "namespace") in
  (if bool_decide (owner = "") then ownerFromPodName (get "pod") else owner, namespace, get "container").
Definition identity_labels : list string :=
  ["pod"; "namespace"; "container_id"; "actual_destination_workload_namespace"; "deployment"; "destination_workload_namespace"].
(** Owner, namespace and container. *)
Definition workloadOf (labels : smap) : option (string * string * string) :=
  if hasAnyKey labels identity_labels then
    let '(owner, namespace, container) := resolveOwner labels in
    if bool_decide (namespace = "") then None else Some (owner, namespace, container)
  else None.

(** ** Filters *)
Definition filter_part (kv : string * json) : list string :=
  match kv.2 with
  | JArr l =>
    let vals := flat_map (fun v => match v with JStr s => [s] | _ => [] end) l in
    if bool_decide (vals = []) then [] else [matcher kv.1 "=~" (join "|" vals)]
  | JStr s => [matcher kv.1 "=~" (ReplaceAll s "%" ".*")]
  | _ => []
  end.
Definition dictToPrometheusFilter (d : json) : string :=
  match d with JObj m => join "," (flat_map filter_part m) | _ => "" end.
Definition asStringMap (v : json) : list (string * string) :=
  match v with JObj m => flat_map (fun kv => match kv.2 with JStr s => [(kv.1, s)] | _ => [] end) m | _ => [] end.
Record appFilters := MkFilters { af_pod : string; af_workload : string }.
Definition app_field (k suffix : string) (app : json) : list json :=
  match app with JObj m => let s := get_str (Some m) k in if bool_decide (s = "") then [] else [JStr (s +:+ suffix)] | _ => [] end.
Definition buildAppFilters (applications : json) : option appFilters :=
  match applications with
  | JArr apps =>
    let pods := flat_map (app_field "name" ".*") apps in
    let namespaces := flat_map (app_field "namespace" "") apps in
    if bool_decide (pods = []) && bool_decide (namespaces = []) then None
    else Some (MkFilters (dictToPrometheusFilter (JObj [("pod", JArr pods); ("namespace", JArr namespaces)]))
                         (dictToPrometheusFilter (JObj [("destination_workload_name", JArr pods); ("destination_workload_namespace", JArr namespaces)])))
  | _ => None
  end.
Definition substitute (q range pod workload container : string) : string :=
  let q := ReplaceAll q "$RANGE" range in
  let q := ReplaceAll q "$POD_FILTER" pod in
  let q := ReplaceAll q "$WORKLOAD_FILTER" workload in
  let q := ReplaceAll q "$CONTAINER_FILTER" container in
  ReplaceAll q "__CLUSTER__" "".

(** ** Responses on a grid *)
Record metricSeries := MkMetric { labels : smap; values : timeSeries }.
Section stats.
Context (hex : string -> float64 * bool).

Record range_response := MkRange { rr_Status : string; rr_ResultType : string; rr_Result : list matrixSeries }.
Definition set_range_data (f : string) (m : member) (r : range_response) : range_response * bool :=
  if bool_decide (f = "resultType") then let '(t, ok) := set_string (rr_ResultType r) m in (MkRange (rr_Status r) t (rr_Result r), ok)
  else let '(l, ok) := set_list (set_struct ["metric"; "values"] (set_matrix hex)) (MkMatrix None []) (rr_Result r) m in
       (MkRange (rr_Status r) (rr_ResultType r) l, ok).
Definition set_range (f : string) (m : member) (r : range_response) : range_response * bool :=
  if bool_decide (f = "status") then let '(t, ok) := set_string (rr_Status r) m in (MkRange t (rr_ResultType r) (rr_Result r), ok)
  else set_struct ["resultType"; "result"] set_range_data r m.
Definition read_range (raw : string) : range_response * bool := unmarshal_struct ["status"; "data"] set_range raw (MkRange "" "" []).

(** The cells of a sample: second and value, NaN when it is no number. *)
Definition cell (p : float64 * string) : Z * float64 :=
  (f_to_int p.1, match parse_float64 hex p.2 with (f, true) => f | _ => F64NaN end).
Definition grid_step (startUnix endUnix step : Z) : Z :=
  let span := endUnix - startUnix in
  if (0 <? span) && (0 <? step) && (maxRangePoints <? span / step)
  then f_to_int (f_ceil (f_div (f_of_Z span) (f_of_Z maxRangePoints))) else step.
Definition grid_points (startUnix endUnix step : Z) : Z :=
  let points := Z.quot (endUnix - startUnix) step in if points <=? 0 then 1 else points.
Definition lay (startUnix points step : Z) (samples : list (Z * float64)) : timeSeries :=
  fold_left (fun s c => set s c.1 c.2) samples (newTimeSeries startUnix points step).
Definition parseMetricSeries (raw : string) (startUnix endUnix step : Z) : result (list metricSeries) :=
  let '(resp, ok) := read_range raw in
  if negb ok then Err ""
  else if negb (bool_decide (rr_Status resp = "success")) then Ok []
  else
    let step := grid_step startUnix endUnix step in
    let points := grid_points startUnix endUnix step in
    Ok (map (fun r => MkMetric (ms_Metric r) (lay startUnix points step (map cell (ms_Values r)))) (rr_Result resp)).
End stats.

(** ** Buckets *)

(** The fields of a workload that collect a series, each with its query and
    the merge of its series. *)
Definition known_queries : list (string * (string * (float64 -> float64 -> float64))) :=
  [("pod_memory_max_usage", ("MemMax", rMax)); ("pod_cpu_usage_p99", ("CPUP99", rMax)); ("pod_cpu_usage_p50", ("CPUP50", rMax));
   ("pod_memory_usage_p99", ("MemP99", rMax)); ("pod_memory_usage_p50", ("MemP50", rMax));
   ("container_http_requests_total_count", ("TotalRequests", rNanSum)); ("container_http_requests_failure_count", ("FailRequests", rNanSum));
   ("container_log_messages", ("LogFailures", rMax)); ("container_cpu_request", ("MaxCPURequest", rMax));
   ("container_memory_request", ("MaxMemRequest", rMax)); ("container_http_requests_latency_p99", ("LatencyP99", rMax));
   ("filter_valid", ("ValidData", rNanSum)); ("filter_bad", ("BadData", rNanSum)); ("filter_good", ("GoodData", rNanSum));
   ("container_memory_limit", ("MaxMemLimit", rMax)); ("container_cpu_limit", ("MaxCPULimit", rMax)); ("oom_kill_limit", ("OOMKill", rMax));
   ("pod_cpu_max_usage", ("CPUMax", rMax))].
Definition other_reducer (queryName : string) : float64 -> float64 -> float64 :=
  if has_prefix queryName "max" then rMax else if has_prefix queryName "min" then rMin else rNanSum.
(** A field of the record is [None] until its first series; the reducers of
    the other metrics follow from their names. *)
Record applicationStats := MkStats { ApplicationID : string; Name : string; Namespace : string; Container : string;
                                     Fields : list (string * timeSeries); OtherMetrics : list (string * timeSeries) }.
Definition merge_into (f : float64 -> float64 -> float64) (k : string) (ts : timeSeries) (l : list (string * timeSeries)) : list (string * timeSeries) :=
  match mergeSeries f (assoc k l) (Some ts) with Some s => mset k s l | None => l end.
Definition collect (queryName : string) (ts : timeSeries) (a : applicationStats) : applicationStats :=
  match assoc queryName known_queries with
  | Some (field, f) => MkStats (ApplicationID a) (Name a) (Namespace a) (Container a) (merge_into f field ts (Fields a)) (OtherMetrics a)
  | None => MkStats (ApplicationID a) (Name a) (Namespace a) (Container a) (Fields a) (merge_into (other_reducer queryName) queryName ts (OtherMetrics a))
  end.
Definition add_series (queryName : string) (apps : list (string * applicationStats)) (m : metricSeries) : list (string * applicationStats) :=
  match workloadOf (labels m) with
  | Some (owner, namespace, container) =>
    let appID := owner +:+ "/" +:+ namespace in
    let app := default (MkStats appID owner namespace container [] []) (assoc appID apps) in
    mset appID (collect queryName (values m) app) apps
  | None => apps
  end.
Definition extractMetricStats (metrics : list (string * list metricSeries)) : list (string * applicationStats) :=
  fold_left (fun apps qs => fold_left (add_series qs.1) qs.2 apps) metrics [].

(** ** The response of a workload *)
Definition add_number (key : string) (v : option float64) (out : list (string * json)) : list (string * json) :=
  match v with Some f => if finite f then mset key (JFloat f) out else out | None => out end.
Definition reduced (a : applicationStats) (field : string) (f : float64 -> float64 -> float64) : option float64 := reduce f <$> assoc field (Fields a).
Definition latest (a : applicationStats) (field : string) : option float64 := last <$> assoc field (Fields a).
Definition add_valid (valid : option float64) (out : list (string * json)) : list (string * json) :=
  match valid with
  | Some v =>
    if finite v then
      let out := mset "valid_data_count" (JFloat v) out in
      match assoc "good_data_count" out with Some (JFloat g) => mset "bad_data_count" (JFloat (f_sub v g)) out | _ => out end
    else out
  | None => out
  end.
Definition add_other (a : applicationStats) (out : list (string * json)) : list (string * json) :=
  let other := flat_map (fun kv => let v := reduce (other_reducer kv.1) kv.2 in if finite v then [(kv.1, JFloat v)] else []) (OtherMetrics a) in
  if bool_decide (other = []) then out else mset "other_metrics" (JObj other) out.
Definition toResponse (a : applicationStats) : list (string * json) :=
  let out := [("application_id", JStr (ApplicationID a)); ("name", JStr (Name a)); ("namespace", JStr (Namespace a)); ("container", JStr (Container a))] in
  let out := add_number "memory_max" (reduced a "MemMax" rMax) out in
  let out := add_number "memory_p99" (reduced a "MemP99" rMax) out in
  let out := add_number "memory_p50" (reduced a "MemP50" rMax) out in
  let out := add_number "cpu_p99" (reduced a "CPUP99" rMax) out in
  let out := add_number "cpu_p50" (reduced a "CPUP50" rMax) out in
  let out := add_number "cpu_max" (reduced a "CPUMax" rMax) out in
  let out := add_number "latency" (reduced a "LatencyP99" rMax) out in
  let out := add_number "latency_p99" (reduced a "LatencyP99" rMax) out in
  let out := add_number "log_failure_count" (reduced a "LogFailures" rNanSum) out in
  let out := add_number "total_request_count" (reduced a "TotalRequests" rNanSum) out in
  let out := add_number "total_request_count" (reduced a "FailRequests" rNanSum) out in
  let out := add_number "good_data_count" (latest a "GoodData") out in
  let out := add_number "max_memory_request" (latest a "MaxMemRequest") out in
  let out := add_number "max_memory_limit" (latest a "MaxMemLimit") out in
  let out := add_number "max_cpu_limit" (latest a "MaxCPULimit") out in
  let out := add_number "bad_data_count" (latest a "BadData") out in
  let out := add_valid (latest a "ValidData") out in
  let out := add_number "oom_kill_limit" (reduced a "OOMKill" rMax) out in
  add_other a out.

(** ** The action *)
(** Quotes are written as apostrophes. *)
Definition promql (s : string) : string := ReplaceAll s "'" dquote.
Definition ApplicationMonitoringQueries : list (string * string) :=
  [("pod_cpu_usage_p99", promql "quantile_over_time(0.99,sum by (container, pod, namespace,job) (rate (container_cpu_usage_seconds_total{__CLUSTER__ $POD_FILTER}))[1d:])");
   ("pod_cpu_usage_p50", promql "quantile_over_time(0.50,sum by (container, pod, namespace,job) (rate (container_cpu_usage_seconds_total{__CLUSTER__ $POD_FILTER}))[1d:])");
   ("pod_memory_max_usage", promql "max_over_time(max(container_memory_working_set_bytes{__CLUSTER__ $POD_FILTER}) by (container, pod, job, namespace)[1h:])");
   ("pod_memory_usage_p99", promql "quantile_over_time(0.99,sum by (container, pod, namespace,job)(container_memory_working_set_bytes{__CLUSTER__ $POD_FILTER, container!='POD', container!=''})[1h:])");
   ("pod_memory_usage_p50", promql "quantile_over_time(0.50,sum by(container, pod, namespace,job)(container_memory_working_set_bytes{__CLUSTER__ $POD_FILTER, container!='POD', container!=''})[1h:])");
   ("pod_cpu_max_usage", promql "max_over_time(max(container_memory_working_set_bytes{__CLUSTER__ $POD_FILTER}) by (container, pod, job, namespace)[1h:])");
   ("container_http_requests_total_count", promql "sum by (destination_workload_name,destination_workload_namespace) (increase(container_http_requests_total{__CLUSTER__ $WORKLOAD_FILTER}[1h]))");
   ("container_http_requests_failure_count", promql "sum by (destination_workload_name,destination_workload_namespace) (increase(container_http_requests_total{__CLUSTER__ $WORKLOAD_FILTER, status='500'}[1h]))");
   ("container_log_messages", promql "increase(container_log_messages_total{__CLUSTER__ $CONTAINER_FILTER,level=~'error|critical'}[$RANGE])");
   ("container_cpu_request", promql "max_over_time(max(kube_pod_container_resource_requests{__CLUSTER__ resource='cpu', $POD_FILTER}) by (container, pod, job, namespace)[1h:])");
   ("container_memory_request", promql "max_over_time(max(kube_pod_container_resource_requests{__CLUSTER__ resource='memory', $POD_FILTER})by (container, pod, job, namespace)[1h:])");
   ("container_cpu_limit", promql "max_over_time(max(kube_pod_container_resource_limits{__CLUSTER__ resource='cpu', $POD_FILTER}) by (container, pod, job, namespace)[1h:])");
   ("container_memory_limit", promql "max_over_time(max(kube_pod_container_resource_limits{__CLUSTER__ resource='memory', $POD_FILTER})by (container, pod, job, namespace)[1h:])");
   ("container_http_requests_latency_p99", promql "histogram_quantile(0.99, sum(rate(container_http_requests_duration_seconds_total_bucket{__CLUSTER__ $WORKLOAD_FILTER}[$RANGE]))by (job,container_id, le))")].

(** A fraction of six digits behind a dot or a comma, read by [atoi]. *)
Definition micro_fraction (s : string) : option (Z * string) :=
  match s with
  | String c r =>
    if negb ((byte c =? 46) || (byte c =? 44)) || (strlen r <? 6)%nat then None
    else
      let '(neg, ds) := strip_sign (stake 6 r) in
      if all_digits ds && negb (neg && negb (digits_value 0 ds =? 0)) then Some (digits_value 0 ds * 1000, String.substring 6 (strlen r) r) else None
  | EmptyString => None
  end.
(** [time.Parse] with the layout [2006-01-02T15:04:05.000000Z]. *)
Definition parse_micro (s : string) : option time :=
  '(y, s) ← take_num 4 0 s; s ← expect "-" s;
  '(mo, s) ← take_num 2 0 s; s ← expect "-" s;
  '(d, s) ← take_num 2 0 s; s ← expect "T" s;
  '(h, s) ← take_num12 s; s ← expect ":" s;
  '(mi, s) ← take_num 2 0 s; s ← expect ":" s;
  '(sec, s) ← take_num 2 0 s; '(ns, s) ← micro_fraction s; s ← expect "Z" s;
  if bool_decide (s = "") && in_range 1 12 mo && (1 <=? d) && (d <=? days_in mo y) && (h <? 24) && (mi <? 60) && (sec <? 60)
  then Some (civil y mo d h mi sec ns) else None.
Definition time_param (params : gomap) (k : string) (default_ : time) : time :=
  let s := get_str params k in
  if bool_decide (s = "") then default_ else default default_ (parse_micro s).
Definition widened_step (startTime endTime : time) : Z :=
  let span := seconds (time_sub endTime startTime) in
  if positive span then
    let minStep := f_to_int (f_ceil (f_div span (f_of_Z maxRangePoints))) in if 60 <? minStep then minStep else 60
  else 60.

Section run.
Context (hex : string -> float64 * bool) (quote : string -> string).
Record stats_request := MkRequest { q_queries : list (string * string); q_start : time; q_end : time; q_step : Z;
                                    q_pod : string; q_workload : string; q_container : string }.
Definition read_request (now : time) (params : gomap) : stats_request :=
  let endTime := time_param params "r_end_time" now in
  let durationMin := match toInt quote (mget params "r_duration") with Ok v => if 0 <? v then v else 60 | Err _ => 60 end in
  let startTime := time_param params "r_start_time" (time_add endTime (wrap64 (wrap64 (- durationMin) * minute))) in
  let pod := dictToPrometheusFilter (mget params "pod_filter") in
  let container := dictToPrometheusFilter (mget params "container_filter") in
  let workload := dictToPrometheusFilter (mget params "workload_filter") in
  let '(pod, workload) := match buildAppFilters (mget params "applications") with
                          | Some f => (if bool_decide (pod = "") then af_pod f else pod, if bool_decide (workload = "") then af_workload f else workload)
                          | None => (pod, workload)
                          end in
  let user := asStringMap (mget params "queries") in
  MkRequest (if bool_decide (user = []) then ApplicationMonitoringQueries else user) startTime endTime (widened_step startTime endTime) pod workload container.
Definition range_call (r : stats_request) (query : string) : prom_call :=
  let stepStr := itoa (q_step r) +:+ "s" in
  QueryRange (substitute query stepStr (q_pod r) (q_workload r) (q_container r)) (unix_text (q_start r)) (unix_text (q_end r)) stepStr.
(** The series of the queries that succeed. *)
Definition runQueries (answer : prom_call -> result string) (r : stats_request) : list (string * list metricSeries) :=
  flat_map (fun kq =>
    match rbind (answer (range_call r kq.2)) (fun raw => parseMetricSeries hex raw (unix_seconds (q_start r)) (unix_seconds (q_end r)) (q_step r)) with
    | Ok l => [(kq.1, l)]
    | Err _ => []
    end) (q_queries r).
Definition run (answer : prom_call -> result string) (now : time) (params : gomap) : list (list (string * json)) :=
  map (fun a => toResponse a.2) (extractMetricStats (runQueries answer (read_request now params))).
Definition Handler (answer : prom_call -> result string) (now : time) (params : gomap) : list (string * json) :=
  [("success", JBool true); ("data", JArr (map JObj (run answer now params)))].
End run.

(** * What the statistics are made of *)

(** ** Grids *)
Lemma f_to_int_range f : int64_min <= f_to_int f <= int64_max.
Proof. unfold f_to_int, int64_min, int64_max. destruct f; [|lia..]. destruct (_ && _) eqn:E; lia. Qed.
Definition in_cell (from step : Z) (i : nat) (t : Z) : bool := (from <=? t) && ((t - from) / step =? Z.of_nat i).
(** The last sample of a cell, NaN without one. *)
Definition latest_in (from step : Z) (i : nat) (samples : list (Z * float64)) : float64 :=
  fold_left (fun acc c => if in_cell from step i c.1 then c.2 else acc) samples F64NaN.
Lemma set_spec s t v : 0 <= fromTime s -> t <= int64_max -> 0 < ts_step s ->
  fromTime (set s t v) = fromTime s /\ ts_step (set s t v) = ts_step s /\ length (data (set s t v)) = length (data s) /\
  forall i, (i < length (data s))%nat -> data (set s t v) !! i = if in_cell (fromTime s) (ts_step s) i t then Some v else data s !! i.
Proof.
  intros Hf Ht Hs. unfold set, in_cell. destruct (Z.eqb_spec (ts_step s) 0); [lia|]. cbn [orb]. destruct (Z.ltb_spec t (fromTime s)).
  { replace (fromTime s <=? t) with false by lia. done. }
  replace (fromTime s <=? t) with true by lia. cbn [andb]. rewrite wrap64_id by (unfold int64_min, int64_max in *; lia).
  rewrite Z.quot_div_nonneg by lia. assert (0 <= (t - fromTime s) / ts_step s) as Hq by (apply Z.div_pos; lia). set (q := (t - fromTime s) / ts_step s) in *. clearbody q.
  replace (q <? 0) with false by lia. cbn [orb]. destruct (Z.leb_spec (Z.of_nat (length (data s))) q).
  - split_and!; [done..|]. intros i Hi. destruct (Z.eqb_spec q (Z.of_nat i)); [lia|done].
  - cbn [fromTime ts_step data]. split_and!; [done|done|apply length_insert|]. intros i Hi. destruct (Z.eqb_spec q (Z.of_nat i)) as [->|Hne].
    + rewrite Nat2Z.id. by apply list_lookup_insert_eq.
    + apply list_lookup_insert_ne. lia.
Qed.
Lemma lay_spec from points step samples : 0 <= from -> 0 < step -> Forall (fun c => c.1 <= int64_max) samples ->
  let s := lay from points step samples in
  fromTime s = from /\ ts_step s = step /\ length (data s) = Z.to_nat points /\
  forall i, (i < Z.to_nat points)%nat -> data s !! i = Some (latest_in from step i samples).
Proof.
  intros Hf Hs. unfold lay, latest_in. induction samples as [|c samples IH] using rev_ind; intros Hall.
  - cbn. split_and!; [done|done|by rewrite length_replicate|]. intros i Hi. by apply lookup_replicate_2.
  - apply Forall_app in Hall as [Hall Hc]. inversion Hc; subst. destruct (IH Hall) as (E1 & E2 & E3 & E4). rewrite fold_left_app. cbn [fold_left].
    destruct (set_spec (fold_left (fun s c => set s c.1 c.2) samples (newTimeSeries from points step)) c.1 c.2) as (F1 & F2 & F3 & F4); [lia..|].
    rewrite E1, E2, E3 in *. split_and!; [done..|]. intros i Hi. rewrite F4, fold_left_app by done. cbn [fold_left]. destruct (in_cell _ _ _ _); [done|]. by apply E4.
Qed.
Lemma grid_step_pos startUnix endUnix step : 0 < step -> endUnix - startUnix < 2 ^ 44 -> 0 < grid_step startUnix endUnix step /\ 1 <= grid_points startUnix endUnix (grid_step startUnix endUnix step) <= maxRangePoints.
Proof.
  intros Hs Hspan. unfold grid_step, grid_points. set (span := endUnix - startUnix) in *. clearbody span.
  destruct (Z.ltb_spec 0 span) as [Hpos|Hneg]; cbn [andb].
  - replace (0 <? step) with true by lia. cbn [andb]. destruct (Z.ltb_spec maxRangePoints (span / step)) as [Hw|Hw].
    + unfold maxRangePoints in *. rewrite div_integers, ceil_integers by lia. pose proof (div_up_spec span 11000 ltac:(lia)) as Hu.
      assert (2 ^ 44 < 2 ^ 53) by done. rewrite f_to_int_integer by nia. assert (0 < div_up span 11000) by nia. split; [done|]. rewrite Z.quot_div_nonneg by lia.
      assert (span / div_up span 11000 < 11001) by (apply Z.div_lt_upper_bound; nia). destruct (Z.leb_spec (span / div_up span 11000) 0); lia.
    + split; [done|]. rewrite Z.quot_div_nonneg by lia. unfold maxRangePoints in *. destruct (Z.leb_spec (span / step) 0); lia.
  - split; [done|]. assert (Z.quot span step <= 0) as Hq by (pose proof (Z.quot_le_mono span 0 step Hs Hneg); rewrite Z.quot_0_l in *; lia).
    replace (Z.quot span step <=? 0) with true by lia. unfold maxRangePoints. lia.
Qed.
(** A row of the response and the series made of it. *)
Definition row_series (hex : string -> float64 * bool) (from step : Z) (r : matrixSeries) (m : metricSeries) : Prop :=
  labels m = ms_Metric r /\ 1 <= Z.of_nat (length (data (values m))) <= maxRangePoints /\
  forall i, (i < length (data (values m)))%nat -> data (values m) !! i = Some (latest_in from step i (map (cell hex) (ms_Values r))).

(** every series of a response, whatever the window and the step, takes at
    most 11000 cells and at least one, and a cell holds the last sample of its
    interval, NaN where there is none. *)
Theorem grid_cells (hex : string -> float64 * bool) (raw : string) (startUnix endUnix step : Z) (l : list metricSeries) :
  0 <= startUnix -> endUnix < 2 ^ 44 -> 0 < step ->
  parseMetricSeries hex raw startUnix endUnix step = Ok l ->
  let resp := (read_range hex raw).1 in
  if bool_decide (rr_Status resp = "success")
  then Forall2 (row_series hex startUnix (grid_step startUnix endUnix step)) (rr_Result resp) l else l = [].
Proof.
  intros Hs He Hst. unfold parseMetricSeries. destruct (read_range hex raw) as [resp ok]. destruct ok; [|done]. cbn [negb fst]. case_bool_decide as Hok; [|by intros [= <-]].
  intros [= <-]. destruct (grid_step_pos startUnix endUnix step Hst ltac:(lia)) as [Hg Hp]. set (g := grid_step startUnix endUnix step) in *. clearbody g.
  apply Forall2_fmap_r, Forall_Forall2_diag, Forall_true. intros r. unfold row_series, compose. cbn [labels values].
  destruct (lay_spec startUnix (grid_points startUnix endUnix g) g (map (cell hex) (ms_Values r)) Hs Hg) as (_ & _ & Hl & Hc).
  { apply Forall_map, Forall_true. intros p. apply f_to_int_range. }
  rewrite Hl, Z2Nat.id by lia. split_and!; [done|lia..|]. intros i Hi. by apply Hc.
Qed.

Definition one_row : string := "{" +:+ q "status" +:+ ":" +:+ q "success" +:+ "," +:+ q "data" +:+ ":{" +:+ q "resultType" +:+ ":" +:+ q "matrix" +:+ ","
  +:+ q "result" +:+ ":[{" +:+ q "metric" +:+ ":{" +:+ q "pod" +:+ ":" +:+ q "db-0" +:+ "}," +:+ q "values" +:+ ":[[0," +:+ q "1" +:+ "],[59," +:+ q "2" +:+ "],[180," +:+ q "3" +:+ "]]}]}}".
Lemma grid_cells_witness :
  parseMetricSeries no_hex one_row 0 180 60 = Ok [MkMetric (Some [("pod", "db-0")]) (MkSeries 0 60 [f_of_Z 2; F64NaN; F64NaN])] /\
  let resp := (read_range no_hex one_row).1 in
  if bool_decide (rr_Status resp = "success")
  then Forall2 (row_series no_hex 0 (grid_step 0 180 60)) (rr_Result resp) [MkMetric (Some [("pod", "db-0")]) (MkSeries 0 60 [f_of_Z 2; F64NaN; F64NaN])]
  else [MkMetric (Some [("pod", "db-0")]) (MkSeries 0 60 [f_of_Z 2; F64NaN; F64NaN])] = [].
Proof.
  split; [vm_compute; reflexivity|]. apply (grid_cells no_hex one_row 0 180 60); [lia|lia|lia|vm_compute; reflexivity].
Defined.
(** A range query answers for its last second, too; that sample is dropped. *)
Example last_sample_dropped : last (lay 0 3 60 [(0, f_of_Z 1); (60, f_of_Z 2); (120, f_of_Z 3); (180, f_of_Z 4)]) = f_of_Z 3.
Proof. vm_compute. reflexivity. Qed.

(** ** Owners *)
Lemma group_here_app tail g s : all_of pod_char g = true -> g <> "" -> tail s = true ->
  group_here tail s = None -> group_here tail (g +:+ s) = Some g.
Proof.
  intros Hg Hne Ht Hs. induction g as [|c g IH]; [done|]. cbn in Hg. apply andb_prop in Hg as [Hc Hg]. rewrite app_cons. cbn [group_here]. rewrite Hc.
  destruct g as [|d g]; [by rewrite app_nil_l, Hs, Ht|]. by rewrite IH.
Qed.
(** No longer group: the rest has no second place for the tail. *)
Fixpoint no_tail (tail : string -> bool) (s : string) : bool :=
  match s with String _ r => negb (tail r) && no_tail tail r | EmptyString => true end.
Lemma no_group tail s : no_tail tail s = true -> group_here tail s = None.
Proof.
  induction s as [|c s IH]; [done|]. cbn [no_tail group_here]. intros [Ht%negb_true_iff Hs]%andb_prop. rewrite IH, Ht by done. by destruct (pod_char c).
Qed.
Definition undashed (s : string) : bool := all_of (fun c => negb (byte c =? 45)) s.
Lemma deployment_tail_dash c s : deployment_tail (String c s) = true -> byte c = 45.
Proof. unfold deployment_tail. destruct (span hex_char s). intros H. do 3 apply andb_prop in H as [H _]. lia. Qed.
Lemma undashed_no_tail s t : undashed s = true -> no_tail deployment_tail t = true -> deployment_tail t = false -> no_tail deployment_tail (s +:+ t) = true /\ (s <> "" -> deployment_tail (s +:+ t) = false).
Proof.
  intros Hs Ht Hd. induction s as [|c s IH]; [rewrite app_nil_l; by split|]. cbn in Hs. apply andb_prop in Hs as [Hc Hs]. destruct (IH Hs) as [H1 H2]. rewrite app_cons. split.
  - cbn [no_tail]. rewrite H1, andb_true_r. apply negb_true_iff. destruct s as [|d s]; [exact Hd|by apply H2].
  - intros _. apply not_true_is_false. intros E%deployment_tail_dash. lia.
Qed.
Lemma hex_undashed h : all_of hex_char h = true -> undashed h = true.
Proof.
  unfold undashed. induction h as [|c h IH]; [done|]. cbn. intros [Hc Hh]%andb_prop. rewrite IH by done. unfold hex_char, is_digit, in_range in Hc. rewrite andb_true_r. lia.
Qed.
Lemma safe_undashed r : all_of safe_char r = true -> undashed r = true.
Proof.
  unfold undashed. induction r as [|c r IH]; [done|]. cbn. intros [Hc Hr]%andb_prop. rewrite IH, andb_true_r by done. apply negb_true_iff, Z.eqb_neq. intros E.
  assert (c = chr 45) as -> by (rewrite <- (chr_byte c), E; done). by vm_compute in Hc.
Qed.
Lemma span_stops p a c r : all_of p a = true -> p c = false -> span p (a +:+ String c r) = (a, String c r).
Proof.
  intros Ha Hc. induction a as [|x a IH]; [rewrite app_nil_l; cbn [span]; by rewrite Hc|]. cbn in Ha. apply andb_prop in Ha as [Hx Ha]. rewrite app_cons. cbn [span]. by rewrite Hx, IH.
Qed.

(** the pods of a deployment get its name: a name of the characters of pod
    names, a dash with a template hash of one to ten hex digits, a dash with
    five safe characters. *)
Theorem deployment_owner (name hash random : string) :
  name <> "" -> all_of pod_char name = true ->
  all_of hex_char hash = true -> (1 <= strlen hash <= 10)%nat ->
  all_of safe_char random = true -> strlen random = 5%nat ->
  ownerFromPodName (name +:+ "-" +:+ hash +:+ "-" +:+ random) = name.
Proof.
  intros Hne Hn Hh Hl Hr Hr5. set (dash := chr 45). assert (byte dash = 45) as Ed by done.
  set (t := String dash (hash +:+ String dash random)). change ("-" +:+ hash +:+ "-" +:+ random) with t.
  assert (daemonset_tail (String dash random) = true) as Hd.
  { destruct random as [|a [|b [|c [|e [|f [|g r]]]]]]; by cbn in Hr5. }
  assert (deployment_tail t = true) as Ht.
  { unfold t, deployment_tail. rewrite span_stops by done. rewrite Hd, Ed. rewrite (proj2 (Nat.leb_le 1 (strlen hash))), (proj2 (Nat.leb_le (strlen hash) 10)) by lia. done. }
  assert (deployment_tail (String dash random) = false) as Hlast.
  { unfold deployment_tail. destruct (span hex_char random) as [h u] eqn:E. destruct (daemonset_tail u) eqn:Eu; [|by rewrite andb_false_r]. exfalso.
    assert (random = h +:+ u) as E' by (clear - E; revert h u E; induction random as [|c s IH]; intros h u; cbn [span]; [by intros [= <- <-]|]; destruct (hex_char c); [|by intros [= <- <-]];
      destruct (span hex_char s) as [a b]; intros [= <- <-]; by rewrite app_cons, (IH a b)).
    destruct u as [|d u]; [done|]. assert (byte d = 45) as Ed'. { clear E'. unfold daemonset_tail in Eu. repeat case_match; try done. apply andb_prop in Eu as [Eu _]. lia. }
    apply safe_undashed in Hr. unfold undashed in Hr. rewrite E', all_of_app in Hr. apply andb_prop in Hr as [_ Hr]. cbn in Hr. by rewrite Ed' in Hr. }
  assert (no_tail deployment_tail (String dash random) = true) as Hnr.
  { cbn [no_tail]. destruct (undashed_no_tail random "" (safe_undashed _ Hr) eq_refl eq_refl) as [H1 H2]. rewrite sapp_nil_r in *. rewrite H1, andb_true_r.
    apply negb_true_iff. destruct random; [done|]. by apply H2. }
  assert (no_tail deployment_tail t = true) as Hnt.
  { unfold t. cbn [no_tail]. destruct (undashed_no_tail hash (String dash random) (hex_undashed _ Hh) Hnr Hlast) as [H1 H2]. rewrite H1, andb_true_r.
    apply negb_true_iff. destruct hash; [destruct Hl as [Hl _]; inversion Hl|]. by apply H2. }
  unfold ownerFromPodName. assert (find_group deployment_tail (name +:+ t) = Some name) as ->; [|done].
  pose proof (group_here_app deployment_tail name t Hn Hne Ht (no_group _ _ Hnt)) as Hg. destruct name as [|c name]; [done|]. rewrite app_cons in *. unfold find_group. by rewrite Hg.
Qed.
Lemma deployment_owner_witness : all_of pod_char "web-api" = true /\ ownerFromPodName ("web-api" +:+ "-" +:+ "5d4f8bbc9" +:+ "-" +:+ "x7k2z") = "web-api".
Proof. split; [vm_compute; reflexivity|]. apply (deployment_owner "web-api" "5d4f8bbc9" "x7k2z"); vm_compute; [congruence|reflexivity|reflexivity|lia|reflexivity|reflexivity]. Defined.
(** Nothing anchors the patterns: a segment that starts with five safe
    characters ends the name, whatever follows, so the pods of a StatefulSet
    can be counted for another workload. *)
Example cut_short : map ownerFromPodName ["db-0"; "ns-cntrl-api-0"; "kafka-bridge-2"; "plain"] = ["db"; "ns"; "kafka-bridge"; "plain"].
Proof. vm_compute. reflexivity. Qed.

(** ** What the response leaves out *)
Lemma add_number_other k k' v out : k <> k' -> assoc k (add_number k' v out) = assoc k out.
Proof. intros Hne. unfold add_number. destruct v as [f|]; [|done]. destruct (finite f); [|done]. by rewrite assoc_mset, decide_False. Qed.
(** The CPU requests are queried and merged, and never sent. *)
Lemma cpu_request_lost (a : applicationStats) : assoc "max_cpu_request" (toResponse a) = None.
Proof.
  unfold toResponse, add_other, add_valid. cbv zeta.
  repeat match goal with
    | |- context [assoc _ (if _ then _ else _)] => case_match
    | |- context [assoc _ (match _ with _ => _ end)] => case_match
    | |- context [assoc _ (mset ?k _ _)] => rewrite assoc_mset, (decide_False (P := _ = k)) by done
    | |- context [assoc _ (add_number ?k _ _)] => rewrite (add_number_other _ k) by done
    end; done.
Qed.
(** The failures replace the number of requests. *)
Example failures_overwrite : let s n := MkSeries 0 60 [f_of_Z n] in
  assoc "total_request_count" (toResponse (MkStats "a/b" "a" "b" "" [("TotalRequests", s 100); ("FailRequests", s 3)] [])) = Some (JFloat (f_of_Z 3)).
Proof. vm_compute. reflexivity. Qed.
Example the_cpu_maximum : assoc "pod_cpu_max_usage" ApplicationMonitoringQueries = assoc "pod_memory_max_usage" ApplicationMonitoringQueries.
Proof. vm_compute. reflexivity. Qed.
