(* ===== verification/BurnRate.v ===== *)
(** * SLO reports (pkg/enrichers/slo.go, slo_burnrate.go)

    The queries of an SLO, the counts of a window, the report over the SLO's
    window and the burn rates over the windows of the alert rules.  The
    client is given by its answers; the iteration orders of Go maps, in which
    the answers of a window are collected, are the orders of the lists.  The theorems at the end say
    when a report alerts. *)

From S2P Require Import Prelude GoText GoJson GoStruct GoTime GoFloat CanonJson GoMarshal GoFmt PromQL PromSamples FastDecimal PromEnricher AppStats.

#[local] Set Default Proof Using "Type".

Record sloConfig := MkSLO { c_Name : string; c_Goal : float64; c_Method : string; c_GroupBy : string; c_Expression : string;
  c_FilterGood : string; c_FilterBad : string; c_FilterValid : string; c_BurnRateThreshold : float64; c_Window : Z; c_ThresholdBucket : float64 }.

Section slo.
Context (hex : string -> float64 * bool) (quote : string -> string).

(** ** Configuration *)
Definition toFloat (v : json) : float64 :=
  match v with
  | JFloat f => f
  | JInt z => f_of_Z z
  | JStr s => let '(f, ok) := parse_float64 hex s in if ok : bool then f else float_zero
  | _ => float_zero
  end.
Definition parseSLOConfig (m : gomap) : sloConfig :=
  MkSLO (get_str m "name") (toFloat (mget m "goal")) (get_str m "method") (get_str m "group_by") (get_str m "expression")
    (get_str m "filter_good") (get_str m "filter_bad") (get_str m "filter_valid") (toFloat (mget m "error_budget_burn_rate_threshold"))
    (match toInt quote (mget m "window") with Ok z => z | Err _ => 0 end) (toFloat (mget m "threshold_bucket")).
Definition with_window (c : sloConfig) (w : Z) : sloConfig :=
  MkSLO (c_Name c) (c_Goal c) (c_Method c) (c_GroupBy c) (c_Expression c) (c_FilterGood c) (c_FilterBad c) (c_FilterValid c) (c_BurnRateThreshold c) w (c_ThresholdBucket c).
Definition default_group : string := "destination_workload_name, destination_workload_namespace".
Definition with_defaults (c : sloConfig) : sloConfig :=
  MkSLO (c_Name c) (c_Goal c) (c_Method c)
    (if bool_decide (c_GroupBy c = "") || contains (c_GroupBy c) "actual_destination_workload_name" then default_group else c_GroupBy c)
    (c_Expression c) (c_FilterGood c) (c_FilterBad c) (c_FilterValid c)
    (if f_eq (c_BurnRateThreshold c) float_zero then of_ratio false 144 10 else c_BurnRateThreshold c)
    (if c_Window c <=? 0 then 3600 else c_Window c) (c_ThresholdBucket c).

(** ** Queries *)

(** [regexp.QuoteMeta] *)
Definition meta_char (c : ascii) : bool := contains_byte c "\.+*?()|[]{}^$".
Fixpoint QuoteMeta (s : string) : string :=
  match s with
  | String c r => if meta_char c then String (chr 92) (String c (QuoteMeta r)) else String c (QuoteMeta r)
  | EmptyString => ""
  end.
(** [strings.Replace(q, "}", new, 1)] *)
Definition replace_brace (q new : string) : string := match cut_first "}" q with Some (a, b) => a +:+ new +:+ b | None => q end.
(** [le] is the label of a bucket. *)
Definition fmtSLOQuery (query : string) (window : Z) (operators : list string) (le : option string) : string :=
  let q := trim_space query in
  let range := "[" +:+ itoa window +:+ "s" in
  let q := if contains q "[window" then ReplaceAll q "[window" range else q +:+ range +:+ "]" in
  let q := fold_left (fun q op => op +:+ "(" +:+ q +:+ ")") operators q in
  match le with
  | Some v => replace_brace q (", le=~" +:+ quote ("^" +:+ QuoteMeta v +:+ "(\.0+)?$") +:+ "}")
  | None => q
  end.
Definition fixed_text (f : float64) : string := match f with F64 _ _ _ => default "" (format_shortest fmt_f f) | F64Inf s => if s then "-Inf" else "+Inf" | F64NaN => "NaN" end.
Definition sloQueries (c : sloConfig) (rangeSec : Z) (fn : string) : result (list (string * string)) :=
  let fmt query := fmtSLOQuery query rangeSec [fn; "sum by (" +:+ c_GroupBy c +:+ ")"] in
  if bool_decide (c_Method c = "good_bad_ratio") then
    if bool_decide (c_FilterGood c = "") then Err "slo_generator: good_bad_ratio requires filter_good"
    else if negb (bool_decide (c_FilterBad c = "")) then Ok [("filter_good", fmt (c_FilterGood c) None); ("filter_bad", fmt (c_FilterBad c) None)]
    else if negb (bool_decide (c_FilterValid c = "")) then Ok [("filter_good", fmt (c_FilterGood c) None); ("filter_valid", fmt (c_FilterValid c) None)]
    else Err "slo_generator: good_bad_ratio requires filter_bad or filter_valid"
  else if bool_decide (c_Method c = "distribution_cut") then
    if bool_decide (c_Expression c = "") || f_eq (c_ThresholdBucket c) float_zero then Err "slo_generator: distribution_cut requires expression and threshold_bucket"
    else Ok [("filter_good", fmt (c_Expression c) (Some (fixed_text (c_ThresholdBucket c))));
             ("filter_valid", fmt (ReplaceAll (c_Expression c) "_bucket" "_count") None)]
  else Err ("slo_generator: unknown method " +:+ quote (c_Method c)).
Definition buildSLOQueries (c : sloConfig) : result (list (string * string)) := sloQueries c (c_Window c) "increase".

(** ** Rules and coverage *)
Record alertRule := MkRule { r_LongWindow : Z; r_ShortWindow : Z; r_Threshold : float64; r_Severity : string }.
Definition severityOK : string := "OK".
Definition severityWarning : string := "WARNING".
Definition severityCritical : string := "CRITICAL".
Definition alertRules : list alertRule := [MkRule 3600 300 (of_ratio false 144 10) severityCritical; MkRule 21600 900 (f_of_Z 6) severityCritical].
Definition coveragePoints : Z := 12.
Definition minCoverage : float64 := of_ratio false 1 2.
Definition minCoverageStep : Z := 60.
Definition coverageKey : string := "coverage".
Fixpoint dedup (seen l : list Z) : list Z :=
  match l with
  | [] => []
  | w :: l => if bool_decide (w ∈ seen) then dedup seen l else w :: dedup (w :: seen) l
  end.
Definition requiredWindows : list Z := dedup [] (flat_map (fun r => [r_LongWindow r; r_ShortWindow r]) alertRules).
Definition coverageStep (window : Z) : Z := Z.max (Z.quot window coveragePoints) minCoverageStep.
Definition coverageQuery (c : sloConfig) (window : Z) : result (string * Z) :=
  let step := coverageStep window in
  let? presence := sloQueries c step "count_over_time" in
  let keys := if bool_decide (is_Some (assoc "filter_valid" presence)) then ["filter_valid"] else ["filter_good"; "filter_bad"] in
  let parts := flat_map (fun k => match assoc k presence with Some q => [q] | None => [] end) keys in
  Ok ("count_over_time((" +:+ join " or " parts +:+ ")[" +:+ itoa window +:+ "s:" +:+ itoa step +:+ "s])", Z.quot window step).

(** ** Counts of a window *)
Record windowStats := MkWindow { w_name : string; w_namespace : string; w_good : option float64; w_bad : option float64; w_valid : option float64; w_coverage : float64 }.
Definition no_window : windowStats := MkWindow "" "" None None None float_zero.
(** A count that is absent is zero. *)
Definition count (v : option float64) : float64 := default float_zero v.
Definition total (w : windowStats) : float64 := match w_valid w with Some v => v | None => float_add (count (w_good w)) (count (w_bad w)) end.
Definition badCount (w : windowStats) : float64 :=
  match w_valid w with
  | Some v => let b := f_sub v (count (w_good w)) in if positive b then b else float_zero
  | None => count (w_bad w)
  end.
Definition badRatio (w : windowStats) : option float64 :=
  if f_lt (w_coverage w) minCoverage then None
  else if f_le (total w) float_zero then None
  else Some (f_div (badCount w) (total w)).

(** An instant query's samples by workload; the samples of a workload are
    merged. *)
Record workloadSample := MkSample { s_name : string; s_namespace : string; s_value : float64 }.
Record vector_response := MkVectors { vr_Status : string; vr_Error : string; vr_ResultType : string; vr_Result : list vectorSeries }.
Definition set_vector_data (f : string) (m : member) (r : vector_response) : vector_response * bool :=
  if bool_decide (f = "resultType") then let '(t, ok) := set_string (vr_ResultType r) m in (MkVectors (vr_Status r) (vr_Error r) t (vr_Result r), ok)
  else let '(l, ok) := set_list (set_struct ["metric"; "value"] (set_vector hex)) (MkVector None (float_zero, "")) (vr_Result r) m in
       (MkVectors (vr_Status r) (vr_Error r) (vr_ResultType r) l, ok).
Definition set_vectors (f : string) (m : member) (r : vector_response) : vector_response * bool :=
  if bool_decide (f = "status") then let '(t, ok) := set_string (vr_Status r) m in (MkVectors t (vr_Error r) (vr_ResultType r) (vr_Result r), ok)
  else if bool_decide (f = "error") then let '(t, ok) := set_string (vr_Error r) m in (MkVectors (vr_Status r) t (vr_ResultType r) (vr_Result r), ok)
  else set_struct ["resultType"; "result"] set_vector_data r m.
Definition read_vectors (raw : string) : vector_response * bool := unmarshal_struct ["status"; "error"; "data"] set_vectors raw (MkVectors "" "" "" []).
Definition add_sample (merge : float64 -> float64 -> float64) (out : list (string * workloadSample)) (r : vectorSeries) : list (string * workloadSample) :=
  match workloadOf (vs_Metric r) with
  | None => out
  | Some (name, namespace, _) =>
    let '(v, ok) := parse_float64 hex (vs_Value r).2 in
    if negb ok || negb (finite v) then out
    else
      let key := name +:+ "/" +:+ namespace in
      let v := match assoc key out with Some smp => merge (s_value smp) v | None => v end in
      mset key (MkSample name namespace v) out
  end.
Definition instantByWorkload (merge : float64 -> float64 -> float64) (answer : result string) : result (list (string * workloadSample)) :=
  let? raw := answer in
  let '(resp, ok) := read_vectors raw in
  if negb ok then Err "decode prometheus response: "
  else if negb (bool_decide (vr_Status resp = "success")) then Err ("prometheus status " +:+ quote (vr_Status resp) +:+ ": " +:+ vr_Error resp)
  else if negb (bool_decide (vr_ResultType resp = "vector")) then Err ("prometheus result type " +:+ quote (vr_ResultType resp) +:+ ", want vector")
  else Ok (fold_left (add_sample merge) (vr_Result resp) []).

(** [math.Min] of a quotient and 1 *)
Definition at_most_one (f : float64) : float64 := if is_nan f then F64NaN else if f_lt (f_of_Z 1) f then f_of_Z 1 else f.
Definition put_sample (key : string) (points : Z) (out : list (string * windowStats)) (ks : string * workloadSample) : list (string * windowStats) :=
  let '(k, smp) := ks in
  let ws := default no_window (assoc k out) in
  let v := s_value smp in
  let ws' :=
    if bool_decide (key = "filter_good") then MkWindow (s_name smp) (s_namespace smp) (Some v) (w_bad ws) (w_valid ws) (w_coverage ws)
    else if bool_decide (key = "filter_bad") then MkWindow (s_name smp) (s_namespace smp) (w_good ws) (Some v) (w_valid ws) (w_coverage ws)
    else if bool_decide (key = "filter_valid") then MkWindow (s_name smp) (s_namespace smp) (w_good ws) (w_bad ws) (Some v) (w_coverage ws)
    else MkWindow (s_name smp) (s_namespace smp) (w_good ws) (w_bad ws) (w_valid ws)
           (if 0 <? points then at_most_one (f_div v (f_of_Z points)) else w_coverage ws) in
  mset k ws' out.
(** The calls of a window. *)
Definition window_queries (c : sloConfig) (window : Z) (withCoverage : bool) : result (list (string * string) * Z) :=
  let? queries := buildSLOQueries (with_window c window) in
  if withCoverage then let? qn := coverageQuery c window in Ok (queries ++ [(coverageKey, qn.1)], qn.2) else Ok (queries, 0).
Definition merge_of (key : string) : float64 -> float64 -> float64 := if bool_decide (key = coverageKey) then rMax else rNanSum.
(** [answer] gives the response to a query of the window, by its key.  A
    failed query fails the window. *)
Fixpoint gather (answer : string -> string -> result string) (points : Z) (queries : list (string * string)) (out : list (string * windowStats)) (errs : list string)
  : list (string * windowStats) * list string :=
  match queries with
  | [] => (out, errs)
  | (key, query) :: queries =>
    match instantByWorkload (merge_of key) (answer key query) with
    | Err e => gather answer points queries out (errs ++ [key +:+ ": " +:+ e])
    | Ok samples => gather answer points queries (fold_left (put_sample key points) samples out) errs
    end
  end.
Definition newline : string := String (chr 10) "".
Definition statsForWindow (answer : string -> string -> result string) (c : sloConfig) (window : Z) (withCoverage : bool) : result (list (string * windowStats)) :=
  let? qp := window_queries c window withCoverage in
  match gather answer qp.2 qp.1 [] [] with
  | (out, []) => Ok out
  | (_, errs) => Err (join newline errs)
  end.

(** ** Burn rates *)
Record burnRate := MkBurn { b_LongWindow : Z; b_ShortWindow : Z; b_Threshold : float64; b_LongPercentage : float64; b_ShortPercentage : float64;
  b_LongBurnRate : float64; b_ShortBurnRate : float64; b_Severity : string }.
Definition round1 (v : float64) : float64 := f_div (f_round (f_mul v (f_of_Z 10))) (f_of_Z 10).
Definition round6 (v : float64) : float64 := if finite v then f_div (f_round (f_mul v (f_of_Z 1000000))) (f_of_Z 1000000) else v.
Definition rule_rate (byWindow : list (Z * windowStats)) (objective : float64) (r : alertRule) : option burnRate :=
  long ← list_find (fun ws => ws.1 = r_LongWindow r) byWindow;
  short ← list_find (fun ws => ws.1 = r_ShortWindow r) byWindow;
  lr ← badRatio long.2.2;
  sr ← badRatio short.2.2;
  let lb := round1 (f_div lr objective) in
  let sb := round1 (f_div sr objective) in
  Some (MkBurn (r_LongWindow r) (r_ShortWindow r) (r_Threshold r) (round6 (f_mul lr (f_of_Z 100))) (round6 (f_mul sr (f_of_Z 100))) lb sb
          (if f_lt (r_Threshold r) lb && f_lt (r_Threshold r) sb then r_Severity r else severityOK)).
Definition calcBurnRates (byWindow : list (Z * windowStats)) (goal : float64) : list burnRate :=
  let objective := f_sub (f_of_Z 1) goal in
  if f_le objective float_zero then [] else omap (rule_rate byWindow objective) alertRules.
Definition rank (severity : string) : Z := if bool_decide (severity = severityWarning) then 1 else if bool_decide (severity = severityCritical) then 2 else 0.
Definition no_burn : burnRate := MkBurn 0 0 float_zero float_zero float_zero float_zero float_zero "".
Definition worstSeverity (rates : list burnRate) : string * burnRate :=
  fold_left (fun acc br => if rank acc.1 <? rank (b_Severity br) then (b_Severity br, br) else acc) rates (severityOK, no_burn).
(** The windows one after the other; a failed one fails them all. *)
Fixpoint windows_stats (answer : Z -> string -> string -> result string) (c : sloConfig) (windows : list Z) : option (list (Z * list (string * windowStats))) :=
  match windows with
  | [] => Some []
  | w :: windows =>
    match statsForWindow (answer w) c w true, windows_stats answer c windows with
    | Ok stats, Some rest => Some ((w, stats) :: rest)
    | _, _ => None
    end
  end.
Definition per_window (byWindow : list (Z * list (string * windowStats))) (key : string) : list (Z * windowStats) :=
  omap (fun ws => match assoc key ws.2 with Some st => Some (ws.1, st) | None => None end) byWindow.
(** The rates of a workload; [None] if they cannot be evaluated. *)
Definition burnRatesByApp (answer : Z -> string -> string -> result string) (c : sloConfig) : option (string -> list burnRate) :=
  if f_le (f_of_Z 1) (c_Goal c) then None
  else match windows_stats answer c requiredWindows with
       | Some byWindow => Some (fun key => calcBurnRates (per_window byWindow key) (c_Goal c))
       | None => None
       end.
Definition formatBurnStatus (rate : float64) (window : Z) : string :=
  let '(n, unit) := if (3600 <=? window) && (Z.rem window 3600 =? 0) then (Z.quot window 3600, "hour")
                    else if (60 <=? window) && (Z.rem window 60 =? 0) then (Z.quot window 60, "minute") else (window, "second") in
  "error budget burn rate is " +:+ fixed 1 rate +:+ "x within " +:+ itoa n +:+ " " +:+ unit +:+ (if n =? 1 then "" else "s").
Definition burn_json (b : burnRate) : json :=
  JObj [("long_window", JInt (b_LongWindow b)); ("short_window", JInt (b_ShortWindow b)); ("threshold", JFloat (b_Threshold b));
        ("long_window_percentage", JFloat (b_LongPercentage b)); ("short_window_percentage", JFloat (b_ShortPercentage b));
        ("long_window_burn_rate", JFloat (b_LongBurnRate b)); ("short_window_burn_rate", JFloat (b_ShortBurnRate b)); ("severity", JStr (b_Severity b))].

(** ** Reports *)
Definition no_data : float64 := f_of_Z (-1).
Definition numFromMap (m : list (string * json)) (key : string) (def : float64) : float64 :=
  match assoc key m with
  | Some (JFloat f) => f
  | Some (JInt z) => f_of_Z z
  | Some (JStr s) => let '(f, ok) := parse_float64 hex s in if ok : bool then f else def
  | _ => def
  end.
Definition legacyStats (w : windowStats) : list (string * json) :=
  let out := [("name", JStr (w_name w)); ("namespace", JStr (w_namespace w))] in
  let put k v out := match v with Some f => mset k (JFloat f) out | None => out end in
  let out := put "good_data_count" (w_good w) out in
  let out := put "bad_data_count" (w_bad w) out in
  match w_valid w with
  | Some v =>
    let out := mset "valid_data_count" (JFloat v) out in
    match w_good w with Some g => mset "bad_data_count" (JFloat (f_sub v g)) out | None => out end
  | None => out
  end.
(** A count that is missing or no number is zero. *)
Definition count_of (stats : list (string * json)) (key : string) : float64 :=
  let v := numFromMap stats key no_data in if f_eq v no_data || is_nan v then float_zero else v.
Definition hundred : float64 := f_of_Z 100.
Definition base_report (c : sloConfig) (stats : list (string * json)) (startTime endTime : time) : list (string * json) :=
  [("workload", JStr (get_str (Some stats) "name")); ("namespace", JStr (get_str (Some stats) "namespace")); ("name", JStr (c_Name c));
   ("goal", JFloat (c_Goal c)); ("window", JInt (c_Window c)); ("start_time", JFloat (f_of_Z (unix_seconds startTime)));
   ("end_time", JFloat (f_of_Z (unix_seconds endTime))); ("valid", JBool true); ("alert", JBool false); ("sli_measurement", JFloat float_zero);
   ("events_count", JInt 0); ("good_events_count", JInt 0); ("bad_events_count", JInt 0); ("alert_message", JStr "");
   ("error_budget_burn_rate_threshold", JFloat (c_BurnRateThreshold c))].
Definition put_all (kvs : list (string * json)) (out : list (string * json)) : list (string * json) := fold_left (fun out kv => mset kv.1 kv.2 out) kvs out.
Definition enough_events (stats : list (string * json)) (minValidEvents : Z) : bool :=
  let good := count_of stats "good_data_count" in
  let bad := count_of stats "bad_data_count" in
  let unknown := f_eq (numFromMap stats "valid_data_count" no_data) no_data in
  negb (f_eq good float_zero && f_eq bad float_zero && unknown) && negb (f_lt (float_add good bad) (f_of_Z minValidEvents) && unknown).
Definition sli_of (stats : list (string * json)) : float64 :=
  let good := count_of stats "good_data_count" in
  let bad := count_of stats "bad_data_count" in
  let valid := numFromMap stats "valid_data_count" no_data in
  if positive (float_add good bad) then round6 (f_div good (float_add good bad)) else if negb (f_eq valid no_data) then round6 valid else float_zero.
(** The rate the error budget is burned at over the SLO's window. *)
Definition single_rate (c : sloConfig) (sli : float64) : float64 :=
  let target := f_sub (f_of_Z 1) (c_Goal c) in
  if positive target then f_div (f_round (f_mul (f_div (f_sub (f_of_Z 1) sli) target) (f_of_Z 10))) (f_of_Z 10) else float_zero.
Definition single_alert (c : sloConfig) (sli : float64) : bool := positive (c_BurnRateThreshold c) && f_lt (c_BurnRateThreshold c) (single_rate c sli).
Definition buildSLOReport (c : sloConfig) (stats : list (string * json)) (startTime endTime : time) (minValidEvents : Z) : list (string * json) :=
  let report := base_report c stats startTime endTime in
  let good := count_of stats "good_data_count" in
  let bad := count_of stats "bad_data_count" in
  if negb (enough_events stats minValidEvents) then mset "valid" (JBool false) report
  else
    let sli := sli_of stats in
    let window := f_of_Z (c_Window c) in
    let gap := f_sub sli (c_Goal c) in
    let target := f_sub (f_of_Z 1) (c_Goal c) in
    let value := f_sub (f_of_Z 1) sli in
    let minutes x := f_div (f_mul window x) (f_of_Z 60) in
    let report := put_all
      [("gap", JFloat gap); ("error_budget_target", JFloat target); ("error_budget_measurement", JFloat value);
       ("error_budget_burn_rate", JFloat (single_rate c sli)); ("error_budget_remaining_minutes", JFloat (minutes gap));
       ("error_budget_minutes", JFloat (minutes target)); ("error_minutes", JFloat (minutes value));
       ("error_budget_consumed_ratio", JFloat (if positive target then f_div (f_mul value hundred) target else float_zero));
       ("sli_measurement", JFloat sli); ("events_count", JInt (f_to_int (float_add good bad))); ("good_events_count", JInt (f_to_int good));
       ("bad_events_count", JInt (f_to_int bad)); ("alert_message", JStr (formatBurnStatus (single_rate c sli) (c_Window c)));
       ("alert", JBool (single_alert c sli))] report in
    if f_lt sli float_zero || f_lt (f_of_Z 1) sli then mset "valid" (JBool false) report else report.
Definition attachBurnRates (report : list (string * json)) (rates : list burnRate) : list (string * json) :=
  if negb (as_bool (mget (Some report) "valid")) then report
  else
    let '(severity, firing) := worstSeverity rates in
    let alert := negb (bool_decide (severity = severityOK)) in
    put_all [("burn_rates", JArr (map burn_json rates)); ("severity", JStr severity); ("alert", JBool alert);
             ("alert_message", JStr (if alert then formatBurnStatus (b_LongBurnRate firing) (b_LongWindow firing) else ""))] report.

(** [slo_generator]: [answer] gives the response to each query, by whether
    it is one of the burn-rate windows, the window, the key and the text;
    [env] is the variable MIN_VALID_EVENTS. *)
Definition envIntDefault (env : string) (def : Z) : Z := if bool_decide (env = "") then def else default def (atoi env).
Definition compute (answer : bool -> Z -> string -> string -> result string) (now : time) (env : string) (params : gomap) : result (list (list (string * json))) :=
  let raw := get_obj params "slo_config" in
  if bool_decide (default [] raw = []) then Err "slo_generator: slo_config is required"
  else
    let c := with_defaults (parseSLOConfig raw) in
    let startTime := time_add now (wrap64 (wrap64 (- c_Window c) * second)) in
    let? _ := buildSLOQueries c in
    let? apps := rwrap "slo_generator: " (statsForWindow (answer false (c_Window c)) c (c_Window c) false) in
    let rates := burnRatesByApp (answer true) c in
    Ok (map (fun key =>
          let report := buildSLOReport c (legacyStats (default no_window (assoc key apps))) startTime now (envIntDefault env 1) in
          match rates with Some f => attachBurnRates report (f key) | None => report end) (sort_strings apps.*1)).
Definition Handler (answer : bool -> Z -> string -> string -> result string) (now : time) (env : string) (params : gomap) : list (string * json) :=
  match compute answer now env params with
  | Err e => [("success", JBool false); ("data", JArr []); ("msg", JStr e)]
  | Ok reports => [("success", JBool true); ("data", JArr (map JObj reports))]
  end.
End slo.

Example rules_windows : requiredWindows = [3600; 300; 21600; 900].
Proof. vm_compute. reflexivity. Qed.
Example le_matcher : fmtSLOQuery (fun s => dquote +:+ s +:+ dquote) " lat_bucket{a='b'} " 300 ["increase"; "sum by (x)"] (Some "0.5")
  = "sum by (x)(increase(lat_bucket{a='b', le=~" +:+ dquote +:+ "^0\.5(\.0+)?$" +:+ dquote +:+ "}[300s]))".
Proof. vm_compute. reflexivity. Qed.
Example statuses : map (fun w => formatBurnStatus (of_ratio false 29 2) w) [3600; 21600; 300; 5400; 90]
  = ["error budget burn rate is 14.5x within 1 hour"; "error budget burn rate is 14.5x within 6 hours"; "error budget burn rate is 14.5x within 5 minutes";
     "error budget burn rate is 14.5x within 90 minutes"; "error budget burn rate is 14.5x within 90 seconds"].
Proof. vm_compute. reflexivity. Qed.

(** * When a report alerts *)

(** The rounded burn rate of a window that can be judged. *)
Definition window_burn (byWindow : list (Z * windowStats)) (goal : float64) (w : Z) : option float64 :=
  ws ← list_find (fun ws => ws.1 = w) byWindow; ratio ← badRatio ws.2.2; Some (round1 (f_div ratio (f_sub (f_of_Z 1) goal))).
(** Both windows of the rule are burning above its threshold. *)
Definition rule_fires (byWindow : list (Z * windowStats)) (goal : float64) (r : alertRule) : bool :=
  match window_burn byWindow goal (r_LongWindow r), window_burn byWindow goal (r_ShortWindow r) with
  | Some long, Some short => f_lt (r_Threshold r) long && f_lt (r_Threshold r) short
  | _, _ => false
  end.
Definition budget_left (goal : float64) : bool := negb (f_le (f_sub (f_of_Z 1) goal) float_zero).
Definition burning (byWindow : list (Z * windowStats)) (goal : float64) : bool := budget_left goal && existsb (rule_fires byWindow goal) alertRules.

Definition fires (b : burnRate) : bool := negb (bool_decide (b_Severity b = severityOK)).
Definition graded (b : burnRate) : Prop := b_Severity b = severityOK \/ b_Severity b = severityCritical.
Lemma worst_fires rates : Forall graded rates ->
  negb (bool_decide ((worstSeverity rates).1 = severityOK)) = existsb fires rates.
Proof.
  unfold worstSeverity. assert (forall acc, (acc.1 = severityOK \/ acc.1 = severityCritical) -> Forall graded rates ->
    negb (bool_decide ((fold_left (fun acc br => if rank acc.1 <? rank (b_Severity br) then (b_Severity br, br) else acc) rates acc).1 = severityOK))
    = negb (bool_decide (acc.1 = severityOK)) || existsb fires rates) as Hgen.
  { induction rates as [|b rates IH]; intros acc Ha Hr; cbn [fold_left existsb]; [by rewrite orb_false_r|]. inversion Hr as [|? ? Hb Hr']; subst.
    unfold fires at 1. destruct acc as [s br]. cbn [fst] in *. unfold graded in Hb. destruct Ha as [->| ->], Hb as [E|E]; rewrite E; cbn -[fold_left existsb bool_decide].
    all: rewrite IH by (cbn; auto); done. }
  intros Hr. rewrite Hgen by auto. done.
Qed.
Lemma rule_rate_fires byWindow goal r : r_Severity r = severityCritical ->
  match rule_rate byWindow (f_sub (f_of_Z 1) goal) r with
  | Some b => graded b /\ fires b = rule_fires byWindow goal r
  | None => rule_fires byWindow goal r = false
  end.
Proof.
  intros Hr. unfold rule_rate, rule_fires, window_burn. destruct (list_find (fun ws => ws.1 = r_LongWindow r) byWindow) as [long|]; cbn [mbind option_bind]; [|done].
  destruct (list_find (fun ws => ws.1 = r_ShortWindow r) byWindow) as [short|]; cbn [mbind option_bind]; [|by destruct (badRatio long.2.2)].
  destruct (badRatio long.2.2) as [lr|]; cbn [mbind option_bind]; [|done]. destruct (badRatio short.2.2) as [sr|]; cbn [mbind option_bind]; [|done].
  unfold graded, fires. cbn [b_Severity]. destruct (_ && _); rewrite ?Hr; auto.
Qed.
Lemma rates_graded byWindow goal : Forall graded (calcBurnRates byWindow goal) /\ existsb fires (calcBurnRates byWindow goal) = burning byWindow goal.
Proof.
  unfold calcBurnRates, burning, budget_left. destruct (f_le _ _); [done|]. cbn [negb andb].
  assert (Forall (fun r => r_Severity r = severityCritical) alertRules) as Hall by (by repeat constructor).
  induction Hall as [|r rules Hr _ [IH1 IH2]]; [done|]. pose proof (rule_rate_fires byWindow goal r Hr) as H. cbn [omap list_omap existsb].
  destruct (rule_rate byWindow (f_sub (f_of_Z 1) goal) r) as [b|]; [destruct H as [Hg Hf]|].
  - split; [by constructor|]. cbn [existsb]. by rewrite Hf, <- IH2.
  - by rewrite H.
Qed.

Lemma assoc_append {A} k (m m' : list (string * A)) : assoc k (m ++ m') = match assoc k m with Some v => Some v | None => assoc k m' end.
Proof. induction m as [|[j w] m IH]; [done|]. simpl. by case_decide. Qed.
Lemma assoc_put_all k kvs out : assoc k (put_all kvs out) = match assoc k (rev kvs) with Some v => Some v | None => assoc k out end.
Proof.
  unfold put_all. revert out. induction kvs as [|[k' v] kvs IH]; intros out; [done|]. cbn [fold_left rev fst snd]. rewrite IH, assoc_append, assoc_mset. cbn [assoc].
  destruct (assoc k (rev kvs)); [done|]. by destruct (decide (k = k')).
Qed.
Lemma attach_alert report rates : Forall graded rates -> mget (Some (attachBurnRates report rates)) "valid" = JBool true ->
  mget (Some report) "valid" = JBool true /\ mget (Some (attachBurnRates report rates)) "alert" = JBool (existsb fires rates).
Proof.
  intros Hg. rewrite <- worst_fires by done. unfold attachBurnRates. destruct (as_bool (mget (Some report) "valid")) eqn:Ev; cbn [negb].
  - destruct (worstSeverity rates) as [s b]. cbn [mget fst]. rewrite !assoc_put_all. cbn. intros Hv. split; [done|]. done.
  - intros Hv. by rewrite Hv in Ev.
Qed.

(** A report that is valid alerts for its window alone. *)
Lemma report_alert hex c stats startTime endTime n : let report := buildSLOReport hex c stats startTime endTime n in
  mget (Some report) "valid" = JBool true -> mget (Some report) "alert" = JBool (single_alert c (sli_of hex stats)) /\ enough_events hex stats n = true.
Proof.
  cbv zeta. unfold buildSLOReport. cbv zeta. destruct (enough_events hex stats n); cbn [negb].
  - destruct (f_lt _ float_zero || _).
    + cbn [mget]. rewrite assoc_mset. cbn. done.
    + cbn [mget]. rewrite !assoc_put_all. cbn. done.
  - cbn [mget]. rewrite assoc_mset. cbn. done.
Qed.

Definition one_value (v : string) : string :=
  "{" +:+ q "status" +:+ ":" +:+ q "success" +:+ "," +:+ q "data" +:+ ":{" +:+ q "resultType" +:+ ":" +:+ q "vector" +:+ "," +:+ q "result" +:+ ":[{" +:+ q "metric" +:+ ":{"
  +:+ q "destination_workload_name" +:+ ":" +:+ q "web" +:+ "," +:+ q "destination_workload_namespace" +:+ ":" +:+ q "shop" +:+ "}," +:+ q "value" +:+ ":[0," +:+ q v +:+ "]}]}}".
Definition half_bad (burn : bool) (window : Z) (key query : string) : result string := Ok (one_value (if bool_decide (key = coverageKey) then "12" else "50")).
Definition slo_params : gomap := Some [("slo_config", JObj [("name", JStr "web"); ("goal", JFloat (of_ratio false 99 100)); ("method", JStr "good_bad_ratio");
  ("filter_good", JStr "good{}"); ("filter_bad", JStr "bad{}")])].
Definition slo_reports : list (list (string * json)) := match compute no_hex (fun s => s) half_bad month_start "" slo_params with Ok l => l | Err _ => [] end.
