(* ===== verification/Profiler.v ===== *)
(** * The pod profiler (pkg/podexec/profiler.go, profiler_tar.go, handlers.go)

    First the pure part: which tool takes which profile of which language,
    what a failed Go profile says about the target's endpoint, the debugger
    pod, the events it prints and the texts of errors.  Then one run: checks,
    language detection, the debugger pod with its wait, log stream and file
    copy, and the retry with eBPF.  The Kubernetes API, Prometheus, the clock,
    the waits and the copy out of the pod are the calls of the computation.
    The pollers of client-go look at once and then on every tick until their
    context ends, so a wait makes at most one look per interval of its
    timeout, and one. *)

From S2P Require Import Prelude GoText GoJson GoStruct CanonJson GoMarshal GoFmt GoTime GoDuration GoCrypto KubeApi Interact.

#[local] Set Default Proof Using "Type".

(** * Choosing and starting a profiler *)

(** ** Languages, tools, outputs: the wire values *)
Definition LangJava : string := "java".
Definition LangPython : string := "python".
Definition LangGo : string := "go".
Definition LangNode : string := "node".
Definition LangRuby : string := "ruby".
Definition LangUnknown : string := "unknown".
Definition ToolAsyncProfiler : string := "async-profiler".
Definition ToolJcmd : string := "jcmd".
Definition ToolPyspy : string := "pyspy".
Definition ToolBpf : string := "bpf".
Definition ToolPerf : string := "perf".
Definition ToolRbspy : string := "rbspy".
Definition ToolAustin : string := "austin".
Definition ToolPprof : string := "pprof".
Definition OutputJfr : string := "jfr".
Definition OutputThreadDump : string := "threaddump".
Definition OutputHeapDump : string := "heapdump".
Definition OutputHeapHistogram : string := "heaphistogram".
Definition OutputFlameGraph : string := "flamegraph".
Definition OutputFlat : string := "flat".
Definition OutputTraces : string := "traces".
Definition OutputCollapsed : string := "collapsed".
Definition OutputTree : string := "tree".
Definition OutputRaw : string := "raw".
Definition OutputPprof : string := "pprof".
Definition ProfileMemory : string := "memory".
Definition ProfileCPU : string := "cpu".

Record ProfileRequest := MkProfile { pr_Name : string; pr_Namespace : string; pr_Seconds : Z; pr_ProfileType : string;
                                     pr_ProfileTool : string; pr_Lang : string; pr_OutputType : string }.

(** The tool and the output for a kind of profile; [None] when the image has
    no tool for it. *)
Definition profilingToolForType (lang pt : string) : option (string * string) :=
  let eqs := fun s t : string => bool_decide (s = t) in
  let row :=
    if eqs lang LangJava then
      if eqs pt ProfileMemory then Some (ToolJcmd, OutputHeapHistogram) else if eqs pt ProfileCPU then Some (ToolJcmd, OutputThreadDump) else None
    else if eqs lang LangPython then
      if eqs pt ProfileCPU then Some (ToolPyspy, OutputFlameGraph) else if eqs pt ProfileMemory then Some (ToolAustin, OutputRaw) else None
    else if eqs lang LangNode then if eqs pt ProfileCPU then Some (ToolPerf, OutputFlameGraph) else None
    else if eqs lang LangGo then
      if eqs pt ProfileCPU then Some (ToolPprof, OutputPprof) else if eqs pt ProfileMemory then Some (ToolPprof, OutputHeapDump) else None
    else if eqs lang LangRuby then if eqs pt ProfileCPU then Some (ToolRbspy, OutputFlameGraph) else None
    else None in
  match row with
  | Some r => Some r
  | None => if eqs pt ProfileMemory then None else Some (ToolBpf, OutputFlameGraph)
  end.
Definition toolOutputs : list (string * list (string * list string)) :=
  [(ToolJcmd, [(ProfileCPU, [OutputThreadDump; OutputJfr]); (ProfileMemory, [OutputHeapHistogram; OutputHeapDump])]);
   (ToolAsyncProfiler, [(ProfileCPU, [OutputFlameGraph; OutputFlat; OutputTraces; OutputCollapsed; OutputTree; OutputRaw])]);
   (ToolPyspy, [(ProfileCPU, [OutputFlameGraph; OutputThreadDump; OutputRaw])]);
   (ToolAustin, [(ProfileMemory, [OutputRaw; OutputFlameGraph])]);
   (ToolPerf, [(ProfileCPU, [OutputFlameGraph; OutputRaw])]);
   (ToolBpf, [(ProfileCPU, [OutputFlameGraph; OutputRaw])]);
   (ToolPprof, [(ProfileCPU, [OutputPprof]); (ProfileMemory, [OutputHeapDump])]);
   (ToolRbspy, [(ProfileCPU, [OutputFlameGraph])])].
Definition toolProduces (tool pt output : string) : bool :=
  bool_decide (output ∈ default [] (assoc pt (default [] (assoc tool toolOutputs)))).
Definition profilingToolForOutput (lang output : string) : string :=
  if bool_decide (lang = LangJava) then
    if bool_decide (output ∈ [OutputJfr; OutputThreadDump; OutputHeapDump; OutputHeapHistogram]) then ToolJcmd
    else if bool_decide (output ∈ [OutputFlameGraph; OutputFlat; OutputTraces; OutputCollapsed; OutputTree; OutputRaw]) then ToolAsyncProfiler
    else ToolBpf
  else if bool_decide (lang = LangPython) then ToolPyspy
  else if bool_decide (lang = LangNode) then ToolPerf
  else if bool_decide (lang = LangGo) then ToolPprof
  else if bool_decide (lang = LangRuby) then ToolRbspy
  else ToolBpf.
Section resolve.
Context (quote : string -> string).
Definition resolveTool (lang : string) (req : ProfileRequest) : result (string * string) :=
  let pt := pr_ProfileType req in
  if negb (bool_decide (pr_ProfileTool req = "")) || bool_decide (pt = "") then
    let output := if bool_decide (pr_OutputType req = "") then OutputFlameGraph else pr_OutputType req in
    Ok (if bool_decide (pr_ProfileTool req = "") then profilingToolForOutput lang output else pr_ProfileTool req, output)
  else if negb (bool_decide (pt = ProfileCPU)) && negb (bool_decide (pt = ProfileMemory)) then
    Err ("pod_profiler: unknown profile_type " +:+ quote pt +:+ " (want " +:+ quote ProfileCPU +:+ " or " +:+ quote ProfileMemory +:+ ")")
  else
    match profilingToolForType lang pt with
    | None => Err ("pod_profiler: " +:+ pt +:+ " profiling is not available for " +:+ lang +:+ " targets — the profiler has no " +:+ pt
                   +:+ " profiler for this language; ask for a cpu profile instead")
    | Some (tool, output) =>
      let want := pr_OutputType req in
      if bool_decide (want = "") || bool_decide (want = output) then Ok (tool, output)
      else if toolProduces tool pt want then Ok (tool, want)
      else let alt := profilingToolForOutput lang want in if toolProduces alt pt want then Ok (alt, want) else Ok (tool, output)
    end.
End resolve.
(** [strings.Replace(template, "{}", variant, 1)]; [template] is the
    variable PROFILER_IMAGE. *)
Definition defaultProfilerImage (template lang tool : string) : string :=
  let template := if bool_decide (template = "") then "registry.dev.nudgebee.pollux.in/nudgebee-profiler-{}:latest" else template in
  let variant :=
    if fold_equal tool ToolPerf then "perf"
    else if bool_decide (lang = LangPython) then "python"
    else if bool_decide (lang = LangJava) then "jvm"
    else if bool_decide (lang = LangRuby) then "ruby"
    else if bool_decide (lang = LangNode) then "perf" else "bpf" in
  match cut_first "{}" template with Some (a, b) => a +:+ variant +:+ b | None => template end.

(** ** A Go profile that fails on the target's endpoint *)
Record pprofEndpointFailure := MkFailure { f_Port : string; f_Status : Z; f_Reset : bool }.
Definition failure_text (f : pprofEndpointFailure) : string :=
  let on := if bool_decide (f_Port f = "") then "" else " on :" +:+ f_Port f in
  if f_Status f =? 401 then "the pprof endpoint" +:+ on +:+ " requires authentication (HTTP 401)"
  else if f_Status f =? 403 then "the pprof endpoint" +:+ on +:+ " refused the request (HTTP 403)"
  else if f_Status f =? 404 then "the target serves no /debug/pprof" +:+ on +:+ " (HTTP 404)"
  else if f_Reset f then "the target reset the connection to its pprof endpoint" +:+ on +:+ " without answering — that port does not serve /debug/pprof over HTTP"
  else "nothing in the target accepted a connection to its pprof endpoint" +:+ on.
(** [:(\d+)/debug/pprof/] *)
Definition port_here (s : string) : option string :=
  match s with
  | String c r => let '(ds, t) := span_digits r in if (byte c =? 58) && negb (bool_decide (ds = "")) && has_prefix t "/debug/pprof/" then Some ds else None
  | EmptyString => None
  end.
Fixpoint leftmost {A} (here : string -> option A) (s : string) : option A :=
  match here s with
  | Some a => Some a
  | None => match s with String _ r => leftmost here r | EmptyString => None end
  end.
(** [(401|403|404)\b] *)
Definition word_char (c : ascii) : bool := is_digit c || in_range 65 90 (byte c) || in_range 97 122 (byte c) || (byte c =? 95).
Definition status_code (s : string) : option Z :=
  let code n t := match strip_prefix t s with
                  | Some r => if match r with String c _ => word_char c | EmptyString => false end then None else Some n
                  | None => None
                  end in
  match code 401 "401" with Some n => Some n | None => match code 403 "403" with Some n => Some n | None => code 404 "404" end end.
(** [(?:HTTP/\d(?:\.\d)? |ERROR )] before it *)
Definition status_here (s : string) : option Z :=
  match strip_prefix "HTTP/" s with
  | Some (String d r) =>
    if is_digit d then
      let r' := match r with String p (String e t) => if (byte p =? 46) && is_digit e then t else r | _ => r end in
      match r' with String c t => if byte c =? 32 then status_code t else None | EmptyString => None end
    else None
  | Some EmptyString => None
  | None => match strip_prefix "ERROR " s with Some t => status_code t | None => None end
  end.
(** Containment up to case. *)
Fixpoint prefix_of_list (p l : list Z) : bool :=
  match p, l with
  | [], _ => true
  | x :: p, y :: l => (x =? y) && prefix_of_list p l
  | _, [] => false
  end.
Fixpoint contains_list (p l : list Z) : bool := prefix_of_list p l || match l with [] => false | _ :: l => contains_list p l end.
Definition contains_fold (s sub : string) : bool := contains_list (fold_name sub) (fold_name s).
Definition refused (s : string) : bool := existsb (contains_fold s) ["connection refused"; "can't connect to remote host"; "no listening port found"].
Definition reset (s : string) : bool := existsb (contains_fold s) ["connection reset by peer"; "error getting response"].
Definition classifyPprofFailure (reason : string) : option pprofEndpointFailure :=
  let port := default "" (leftmost port_here reason) in
  if negb (contains reason "/debug/pprof") && negb (contains reason "no listening port found") then None
  else match leftmost status_here reason with
       | Some code => Some (MkFailure port code false)
       | None => if refused reason then Some (MkFailure port 0 false)
                 else if reset reason then Some (MkFailure port 0 true) else None
       end.

(** ** The debugger pod *)
Record buildDebuggerArgs := MkArgs { a_Name : string; a_Namespace : string; a_NodeName : string; a_Image : string; a_Lang : string; a_Tool : string; a_Output : string;
  a_PodUID : string; a_ContainerID : string; a_ContainerRuntime : string; a_ContainerRuntimePath : string; a_DurationSeconds : Z }.
Definition debuggerContainer : string := "profiler".
(** A HostPath volume is created as a directory when it is missing. *)
Record debugger_pod := MkDebugger { d_Name : string; d_Namespace : string; d_Labels : list (string * string); d_NodeName : string; d_RestartPolicy : string;
  d_HostPID : bool; d_Volumes : list (string * string) (* name, host path *); d_ContainerName : string; d_Image : string; d_Command : list string;
  d_Privileged : bool; d_Capabilities : list string; d_Mounts : list (string * string) }.
Definition buildDebuggerPod (a : buildDebuggerArgs) : debugger_pod :=
  MkDebugger (a_Name a) (a_Namespace a) [("app.kubernetes.io/managed-by", "nudgebee-agent"); ("nudgebee.com/role", "pod-profiler")]
    (a_NodeName a) "Never" true [("modules", "/lib/modules"); ("target-filesystem", a_ContainerRuntimePath a)] debuggerContainer (a_Image a)
    ["/app/agent"; "--target-container-runtime"; a_ContainerRuntime a; "--target-container-runtime-path"; a_ContainerRuntimePath a;
     "--target-pod-uid"; a_PodUID a; "--target-container-id"; a_ContainerID a; "--lang"; a_Lang a; "--event-type"; "itimer";
     "--profiling-tool"; a_Tool a; "--output-type"; a_Output a; "--grace-period-ending"; "600s"; "--duration"; itoa (a_DurationSeconds a) +:+ "s";
     "--compressor-type"; "gzip"]
    true ["SYS_ADMIN"] [("modules", "/lib/modules"); ("target-filesystem", a_ContainerRuntimePath a)].
(** What is read of a node and of a pod. *)
Definition containerRuntimeFor (version : string) : string * string :=
  (match cut 58 version with Some (EmptyString, _) => version | Some (n, _) => n | None => version end,
   if contains version "k3s" then "/run/k3s/containerd" else "/run/containerd").
Record terminated_state := MkTerminated { t_Reason : string; t_Message : string; t_ExitCode : Z }.
Record container_status := MkStatus { cs_Name : string; cs_ContainerID : string; cs_Ready : bool; cs_Waiting : option (string * string) (* reason, message *);
                                      cs_Terminated : option terminated_state }.
Record pod_state := MkPodState { ps_Name : string; ps_UID : string; ps_NodeName : string; ps_Phase : string; ps_Reason : string; ps_Message : string;
                                 ps_Deleting : bool; ps_Containers : list container_status }.
Definition targetContainer (p : pod_state) : result (string * string) :=
  match ps_Containers p with
  | [] => Err "pod_profiler: target pod has no container statuses (not running yet)"
  | cs :: _ => if bool_decide (cs_ContainerID cs = "") then Err "pod_profiler: target pod's first container has no containerID" else Ok (cs_ContainerID cs, ps_UID p)
  end.

(** ** Texts of errors *)
Definition maxDetailLen : nat := 300.
(** [strings.ToValidUTF8(s, "")] *)
Fixpoint valid_from (skip : nat) (s : string) : string :=
  match s with
  | EmptyString => ""
  | String c r =>
    match skip with
    | S k => String c (valid_from k r)
    | O => let '(rune, size) := decode_rune s in
           if (rune =? rune_error) && (size =? 1)%nat then valid_from 0 r else String c (valid_from (pred size) r)
    end
  end.
Definition ellipsis : string := encode_rune 8230.
Definition oneLine (s : string) : string :=
  let s := join " " (fields_func is_space "" s) in
  if (maxDetailLen <? strlen s)%nat then valid_from 0 (stake maxDetailLen s) +:+ ellipsis else s.
Definition joinReason (parts : list string) : string := join ": " (List.filter (fun p => negb (bool_decide (p = ""))) parts).
Definition newline : string := String (chr 10) "".
Definition status_part (cs : container_status) : list string :=
  match cs_Terminated cs with
  | Some t =>
    let s := "container " +:+ cs_Name cs +:+ " exited: " +:+ (if bool_decide (t_Reason t = "") then "terminated" else t_Reason t) +:+ ", exit code " +:+ itoa (t_ExitCode t) in
    let msg := oneLine (t_Message t) in
    [if bool_decide (msg = "") then s else s +:+ ": " +:+ msg]
  | None =>
    match cs_Waiting cs with
    | Some (reason, message) => if bool_decide (reason = "") then [] else ["container " +:+ cs_Name cs +:+ " waiting: " +:+ joinReason [reason; oneLine message]]
    | None => []
    end
  end.
Definition describeDebugger (p : option pod_state) (logTail : list string) : string :=
  join "; " (match p with
             | Some p =>
               let why := joinReason [ps_Reason p; oneLine (ps_Message p)] in
               ("phase " +:+ (if bool_decide (ps_Phase p = "") then "Pending" else ps_Phase p) +:+ (if bool_decide (why = "") then "" else " (" +:+ why +:+ ")"))
               :: flat_map status_part (ps_Containers p)
             | None => []
             end ++
             match logTail with [] => [] | _ => ["last log lines:" +:+ newline +:+ "  " +:+ join (newline +:+ "  ") logTail] end).

(** ** Events *)
Record resultEvent := MkEvent { ev_Type : string; ev_Data : gomap }.
Definition set_event (f : string) (m : member) (e : resultEvent) : resultEvent * bool :=
  if bool_decide (f = "type") then let '(t, ok) := set_string (ev_Type e) m in (MkEvent t (ev_Data e), ok)
  else let '(d, ok) := set_map (ev_Data e) m in (MkEvent (ev_Type e) d, ok).
Definition read_event (line : string) : option resultEvent :=
  if has_prefix line "{" then let '(e, ok) := unmarshal_struct ["type"; "data"] set_event line (MkEvent "" None) in if ok : bool then Some e else None
  else None.
Fixpoint first_payload (ev : resultEvent) (keys : list string) : option string :=
  match keys with
  | [] => None
  | k :: keys => let v := get_str (ev_Data ev) k in if bool_decide (v = "") then first_payload ev keys else Some (oneLine (ev_Type ev +:+ ": " +:+ v))
  end.
Definition compactLogLine (line : string) : string :=
  match read_event line with
  | Some ev => if bool_decide (ev_Type ev = "") then oneLine line else default (oneLine line) (first_payload ev ["reason"; "msg"; "stage"; "file"])
  | None => oneLine line
  end.
Definition debuggerLogTailLines : nat := 20.
(** The last lines, oldest first. *)
Definition tail_add (buf : list string) (line : string) : list string :=
  let line := trim_space line in
  if bool_decide (line = "") then buf
  else (if (length buf =? debuggerLogTailLines)%nat then tail buf else buf) ++ [compactLogLine line].

(** The lines of a stream, as bufio.Scanner cuts them at newlines, the rest
    counting as a line; a carriage return at the end goes when a line is
    handed out. *)
Definition drop_cr (s : string) : string := if has_suffix s (String (chr 13) "") then stake (strlen s - 1) s else s.
Definition scan_lines (s : string) : list string :=
  let parts := split_at (chr 10) s in
  match last parts with
  | Some EmptyString => removelast parts
  | _ => parts
  end.
Definition max_line : Z := 16777216.
Inductive verdict :=
| VResult (data : gomap)
| VError (reason : string)                          (* profilerError *)
| VNone (ended : bool) (scan : option string) (tail : list string).
Fixpoint scan_events (lines : list string) (tail : list string) (ended : bool) (err : option string) : verdict :=
  match lines with
  | [] => VNone ended err tail
  | l :: lines =>
    if max_line <=? Z.of_nat (strlen l) then VNone ended (Some "bufio.Scanner: token too long") tail
    else
      let line := trim_space (drop_cr l) in
      let tail := tail_add tail line in
      match read_event line with
      | Some ev =>
        if bool_decide (ev_Type ev = "result") then VResult (ev_Data ev)
        else if bool_decide (ev_Type ev = "error") then
          let reason := get_str (ev_Data ev) "reason" in
          VError (if bool_decide (reason = "") then sprint_v (JObj (default [] (ev_Data ev))) else reason)
        else scan_events lines tail (ended || (bool_decide (ev_Type ev = "progress") && bool_decide (get_str (ev_Data ev) "stage" = "ended"))) err
      | None => scan_events lines tail ended err
      end
  end.
(** [content] is what the stream gives before it ends, with [err] when it
    ends with an error. *)
Definition readProfilerEvents (content : string) (err : option string) : verdict := scan_events (scan_lines content) [] false err.

(** ** The copied file: [filepath.Base] and the entries of a tar stream *)
Fixpoint trim_trailing_slashes (fuel : nat) (s : string) : string :=
  match fuel with
  | O => s
  | S fuel => if has_suffix s "/" then trim_trailing_slashes fuel (stake (strlen s - 1) s) else s
  end.
Definition path_base (p : string) : string :=
  if bool_decide (p = "") then "."
  else
    let p := trim_trailing_slashes (strlen p) p in
    let b := match cut_last (chr 47) p with Some (_, b) => b | None => p end in
    if bool_decide (b = "") then "/" else b.
Definition tarEntryMatches (entryName wantAbs wantBase : string) : bool :=
  bool_decide (entryName = wantAbs)
  || match wantAbs with String c r => (byte c =? 47) && bool_decide (entryName = r) | EmptyString => false end
  || bool_decide (path_base entryName = wantBase).
(** The entries of the stream: a header that cannot be read, or a name with
    its content or read error. *)
Fixpoint extractTarSingleFile (quote : string -> string) (entries : list (string + string * result string)) (want : string) : result string :=
  match entries with
  | [] => Err ("file " +:+ quote want +:+ " not found in tar stream")
  | inl e :: _ => Err ("read tar header: " +:+ e)
  | inr (name, content) :: entries =>
    if tarEntryMatches name want (path_base want) then rwrap ("read tar entry " +:+ quote name +:+ ": ") content
    else extractTarSingleFile quote entries want
  end.

(** * One profiler run *)

Record owner_set := MkOwnerSet { os_Name : string; os_Selector : option string (* its text, none when empty or invalid *); os_Controller : option (string * string) (* kind, name *) }.
Inductive request :=
| Budget                                              (* time.Until of the deadline, none without one *)
| Now
| CtxErr                                              (* ctx.Err() *)
| GetPod (ns name : string)                           (* the target *)
| GetNode (name : string)                             (* its container runtime version *)
| GetReplicaSet (ns name : string)
| GetDeployment (ns name : string)
| ListPods (ns selector : string)
| QueryBudget (limit : duration)                      (* time.Until of the lookup's deadline *)
| PromQuery (query timeout : string)
| LangCtxErr
| LangWait (d : duration)                             (* whether the delay passed *)
| CreateDebugger (d : debugger_pod)
| DeleteDebugger (ns name : string)
| GetDebugger (ns name : string)
| Tick                                                (* the next tick, or the error of the poll's context *)
| PollCtxErr
| TailLog (ns name : string) (lines : Z)
| FollowLog (ns name : string)
| TarExec (ns name container path : string).         (* tar cf - path in the container *)
Definition reply (q : request) : Type :=
  match q with
  | Budget | QueryBudget _ => option duration
  | Now => time
  | CtxErr | LangCtxErr | PollCtxErr => option string
  | GetPod _ _ | GetDebugger _ _ => kube_error + pod_state
  | GetNode _ => string + string
  | GetReplicaSet _ _ | GetDeployment _ _ => string + owner_set
  | ListPods _ _ => string + list pod_state
  | PromQuery _ _ => result string
  | LangWait _ => bool
  | Tick => option string
  | CreateDebugger _ => string + string               (* error or the created name *)
  | DeleteDebugger _ _ => option string
  | TailLog _ _ _ => string + string
  | FollowLog _ _ => string + string * option string  (* content, and the error it ends with *)
  | TarExec _ _ _ _ => string + list (string + string * result string)  (* the entries of its output *)
  end.
Abbreviation act := (prog reply).
Abbreviation call := (ask (R := reply)).

Section profiler.
Context (quote : string -> string) (md5sumHex : string -> string) (kube_text : kube_error -> string).
(** The handler: whether Prometheus is configured, the namespace for
    debugger pods and the variable PROFILER_IMAGE. *)
Context (configured has_prom : bool) (debuggerNamespace template : string).

Definition langDetectTimeout : duration := 10 * second.
Definition langDetectFirstAttempt : duration := 6 * second.
Definition langDetectRetryDelay : duration := 2 * second.
Definition langDetectWindow : string := "15m".
Definition profileOverhead : duration := 3 * minute.
Definition fallbackSlack : duration := minute.
Definition debuggerImagePullGrace : duration := minute.

(** ** Language detection *)
Definition applicationTypeToLang : list (string * string) :=
  [("golang", LangGo); ("java", LangJava); ("python", LangPython); ("nodejs", LangNode); ("ruby", LangRuby)].
Definition meta_char (c : ascii) : bool := contains_byte c "\.+*?()|[]{}^$".
(** A backslash of the pattern is written as two in the string literal. *)
Fixpoint promMatcherValue (s : string) : string :=
  match s with
  | String c r =>
    let escaped := if byte c =? 92 then "\\" else String c "" in
    if meta_char c then "\\" +:+ escaped +:+ promMatcherValue r else String c (promMatcherValue r)
  | EmptyString => ""
  end.
Definition lang_query (namespace pod : string) : string :=
  "last_over_time(container_application_type{container_id=~" +:+ dquote +:+ "/k8s/" +:+ promMatcherValue namespace +:+ "/" +:+ promMatcherValue pod
  +:+ "/.*" +:+ dquote +:+ "}[" +:+ langDetectWindow +:+ "])".
(** [int(d.Seconds())] of a duration of seconds *)
Definition whole_seconds (d : duration) : Z := Z.quot d second.
Definition queryLang (query : string) (limit : duration) : act (result string) :=
  let! remaining := call (QueryBudget limit) in
  let timeout := match remaining with Some d => if 0 <? whole_seconds d then itoa (whole_seconds d) +:+ "s" else "" | None => "" end in
  call (PromQuery query timeout).
Definition set_metric (f : string) (m : member) (l : smap) : smap * bool := set_string_map l m.
Record lang_response := MkLang { lr_Status : string; lr_Result : list smap }.
Definition set_lang_data (f : string) (m : member) (r : lang_response) : lang_response * bool :=
  let '(l, ok) := set_list (set_struct ["metric"] set_metric) None (lr_Result r) m in (MkLang (lr_Status r) l, ok).
Definition set_lang (f : string) (m : member) (r : lang_response) : lang_response * bool :=
  if bool_decide (f = "status") then let '(t, ok) := set_string (lr_Status r) m in (MkLang t (lr_Result r), ok)
  else set_struct ["result"] set_lang_data r m.
Fixpoint first_lang (l : list smap) : option string :=
  match l with
  | [] => None
  | m :: l => match assoc (to_lower (sget m "application_type")) applicationTypeToLang with Some lang => Some lang | None => first_lang l end
  end.
(** The language, or the reason there is none (without the decoder's own
    text). *)
Definition read_lang (raw : string) : result string :=
  let '(resp, ok) := unmarshal_struct ["status"; "data"] set_lang raw (MkLang "" []) in
  if negb ok then Err "the container_application_type response could not be read: "
  else if negb (bool_decide (lr_Status resp = "success")) then Err "Prometheus rejected the container_application_type query"
  else match first_lang (lr_Result resp) with
       | Some lang => Ok lang
       | None => Err (if bool_decide (lr_Result resp = []) then "no container_application_type metric reported for it in the last " +:+ langDetectWindow
                      else "it reports no language we have a profiler for")
       end.
Definition detectLang (namespace pod : string) : act (result string) :=
  if negb has_prom then Ret (Err "the agent has no Prometheus configured, so the language could not be looked up")
  else
    let query := lang_query namespace pod in
    let! first := queryLang query langDetectFirstAttempt in
    let! raw := match first with
                | Ok _ => Ret first
                | Err _ =>
                  let! ended := call LangCtxErr in
                  match ended with
                  | Some _ => Ret first
                  | None => let! waited := call (LangWait langDetectRetryDelay) in if waited then queryLang query 0 else Ret first
                  end
                end in
    Ret (match raw with Err e => Err ("the container_application_type lookup failed: " +:+ e) | Ok raw => read_lang raw end).

(** ** A target that is gone *)
Definition maxLivePods : nat := 5.
(** [^(.+)-[bcdfghjklmnpqrstvwxz2456789]{5}$] *)
Definition safe_char (c : ascii) : bool := contains_byte c "bcdfghjklmnpqrstvwxz2456789".
Definition replicaSetPodName (name : string) : option string :=
  let n := (strlen name - 6)%nat in
  if (strlen name <? 7)%nat then None
  else
    let rs := stake n name in
    match String.substring n 6 name with
    | String d r => if (byte d =? 45) && all_of safe_char r && negb (contains_byte (chr 10) rs) then Some rs else None
    | EmptyString => None
    end.
Definition is_running (p : pod_state) : bool := bool_decide (ps_Phase p = "Running").
Definition before (p p' : pod_state) : Prop :=
  if Bool.eqb (is_running p) (is_running p') then String.le (ps_Name p) (ps_Name p') else is_running p = true.
#[local] Instance before_dec p p' : Decision (before p p').
Proof. unfold before. destruct (Bool.eqb _ _); apply _. Defined.
Definition live_text (owner : string) (live : list pod_state) : string :=
  match live with
  | [] => owner +:+ " currently has no pods"
  | _ =>
    let names := map (fun p => ps_Name p +:+ " (" +:+ ps_Phase p +:+ ")") (take maxLivePods (merge_sort before live)) in
    let extra := (length live - maxLivePods)%nat in
    owner +:+ " currently runs " +:+ join ", " names +:+ (if (0 <? extra)%nat then " and " +:+ itoa (Z.of_nat extra) +:+ " more" else "")
  end.
Definition livePodsHint (namespace name : string) : act string :=
  match replicaSetPodName name with
  | None => Ret ""
  | Some rs =>
    let! got := call (GetReplicaSet namespace rs) in
    match got with
    | inl _ => Ret ""
    | inr rs =>
      let own := ("replicaset " +:+ os_Name rs, os_Selector rs) in
      let! owner := match os_Controller rs with
                    | Some (kind, dep) =>
                      if bool_decide (kind = "Deployment") then
                        let! got := call (GetDeployment namespace dep) in
                        Ret (match got with inr dep => ("deployment " +:+ os_Name dep, os_Selector dep) | inl _ => own end)
                      else Ret own
                    | None => Ret own
                    end in
      match owner.2 with
      | None => Ret ""
      | Some selector =>
        let! got := call (ListPods namespace selector) in
        Ret (match got with inl _ => "" | inr pods => live_text owner.1 (List.filter (fun p => negb (ps_Deleting p)) pods) end)
      end
    end
  end.
Definition targetGoneError (namespace name : string) : act string :=
  let! hint := livePodsHint namespace name in
  Ret ("pod_profiler: pod " +:+ namespace +:+ "/" +:+ name +:+ " no longer exists" +:+ (if bool_decide (hint = "") then "" else "; " +:+ hint)).

(** ** Waiting for the debugger pod *)
Definition unstartableReasons : list string := ["InvalidImageName"; "ErrImageNeverPull"; "CreateContainerConfigError"].
Definition imagePullReasons : list string := ["ErrImagePull"; "ImagePullBackOff"].
Inductive look := Ready | NotYet | Failed | Unstartable | LookError (e : string).
(** The containers in turn; the time the image pull started to fail. *)
Fixpoint check_containers (l : list container_status) (ready : bool) (since : option time) : act (look * option time) :=
  match l with
  | [] => Ret (if ready then Ready else NotYet, since)
  | cs :: l =>
    if match cs_Terminated cs with Some t => negb (t_ExitCode t =? 0) | None => false end then Ret (Failed, since)
    else
      let ready := ready && cs_Ready cs in
      match cs_Waiting cs with
      | Some (reason, _) =>
        if bool_decide (reason ∈ unstartableReasons) then Ret (Unstartable, since)
        else if bool_decide (reason ∈ imagePullReasons) then
          let! since := match since with Some t => Ret t | None => call Now end in
          let! now := call Now in
          if debuggerImagePullGrace <=? time_sub now since then Ret (Unstartable, Some since) else check_containers l ready (Some since)
        else check_containers l ready since
      | None => check_containers l ready since
      end
  end.
Definition check_debugger (p : pod_state) (since : option time) : act (look * option time) :=
  if bool_decide (ps_Phase p = "Failed") then Ret (Failed, since)
  else if bool_decide (ps_Phase p = "Succeeded") then Ret (Ready, since)
  else match ps_Containers p with [] => Ret (NotYet, since) | l => check_containers l true since end.
Fixpoint poll_ready (fuel : nat) (ns name : string) (since : option time) (last : option pod_state) : act (look * option pod_state) :=
  match fuel with
  | O => Ret (LookError "context deadline exceeded", last)
  | S fuel =>
    let! got := call (GetDebugger ns name) in
    match got with
    | inl e => Ret (LookError (kube_text e), last)
    | inr p =>
      let! seen := check_debugger p since in
      match seen.1 with
      | NotYet =>
        let! over := call Tick in
        match over with None => poll_ready fuel ns name seen.2 (Some p) | Some e => Ret (LookError e, Some p) end
      | l => Ret (l, Some p)
      end
    end
  end.
Definition looks (timeout interval : duration) : nat := S (Z.to_nat (timeout / interval)).
Definition debuggerLogTail (ns name : string) : act (list string) :=
  let! got := call (TailLog ns name (Z.of_nat debuggerLogTailLines)) in
  Ret (match got with inl _ => [] | inr content => fold_left tail_add (map drop_cr (scan_lines (stake 262144 content))) [] end).
(** [d.Round(time.Second)] of a positive duration *)
Definition round_second (d : duration) : duration := (d + 500000000) / second * second.
Definition waitForPodReady (ns name : string) (timeout : duration) : act (result unit) :=
  let timeout := if timeout <=? 0 then 5 * minute else timeout in
  let! start := call Now in
  let! seen := poll_ready (looks timeout (2 * second)) ns name None None in
  match seen.1 with
  | Ready => Ret (Ok tt)
  | Failed => let! tail := debuggerLogTail ns name in Ret (Err ("debugger pod failed: " +:+ describeDebugger seen.2 tail))
  | Unstartable => Ret (Err ("debugger pod cannot start: " +:+ describeDebugger seen.2 []))
  | NotYet => Ret (Err "")
  | LookError e =>
    let! ended := call PollCtxErr in
    match seen.2, ended with
    | Some p, Some _ =>
      let! now := call Now in
      Ret (Err ("debugger pod not ready after " +:+ duration_string (round_second (time_sub now start)) +:+ ": " +:+ describeDebugger (Some p) []))
    | _, _ => Ret (Err ("wait for debugger pod: " +:+ e))
    end
  end.

(** ** The result *)
Fixpoint poll_settled (fuel : nat) (ns name : string) (last : option pod_state) : act (option pod_state) :=
  match fuel with
  | O => Ret last
  | S fuel =>
    let! got := call (GetDebugger ns name) in
    let last := match got with inr p => Some p | inl _ => last end in
    let settled := match got with
                   | inr p => bool_decide (ps_Phase p = "Failed") || bool_decide (ps_Phase p = "Succeeded")
                              || existsb (fun cs => bool_decide (is_Some (cs_Terminated cs))) (ps_Containers p)
                   | inl _ => false
                   end in
    if settled then Ret last
    else let! over := call Tick in match over with None => poll_settled fuel ns name last | Some _ => Ret last end
  end.
Definition debuggerSettled (ns name : string) : act (option pod_state) := poll_settled (looks (5 * second) (500 * millisecond)) ns name None.
(** An error is the profiler's own message, or a text. *)
Inductive run_error := ProfilerError (reason : string) | RunError (text : string).
Definition error_text (e : run_error) : string :=
  match e with ProfilerError r => "pod_profiler: profiler reported error: " +:+ r | RunError t => t end.
Definition streamUntilResult (ns name : string) : act (run_error + gomap) :=
  let! got := call (FollowLog ns name) in
  match got with
  | inl e => Ret (inl (RunError ("pod_profiler: open log stream: " +:+ e)))
  | inr (content, err) =>
    match readProfilerEvents content err with
    | VResult data => Ret (inr data)
    | VError reason => Ret (inl (ProfilerError reason))
    | VNone ended scan tail =>
      let why := match scan with
                 | Some e => "log scan: " +:+ e
                 | None => if ended then "profiler ended without emitting a result event" else "log stream closed before result"
                 end in
      let said_ended := match scan with Some _ => false | None => ended end in
      let! p := (if said_ended then Ret None
                 else let! over := call CtxErr in match over with Some _ => Ret None | None => debuggerSettled ns name end) in
      Ret (inl (RunError (match p, tail with
                          | None, [] => "pod_profiler: " +:+ why
                          | _, _ => "pod_profiler: " +:+ why +:+ ": " +:+ describeDebugger p tail
                          end)))
    end
  end.
Record profileFile := MkFile { pf_Name : string; pf_Contents : string }.
Definition copyFileFromPod (ns name container path : string) : act (result string) :=
  let! got := call (TarExec ns name container path) in
  Ret (match got with inl e => Err e | inr entries => extractTarSingleFile quote entries path end).
Definition fetchResultFile (ns name : string) (data : gomap) : act (run_error + profileFile) :=
  let filename := get_str data "file" in
  let wantSum := get_str data "checksum" in
  if bool_decide (filename = "") then Ret (inl (RunError "pod_profiler: result missing `file`"))
  else
    let! got := copyFileFromPod ns name debuggerContainer filename in
    Ret (match got with
         | Err e => inl (RunError ("pod_profiler: copy file: " +:+ e))
         | Ok contents =>
           if negb (bool_decide (wantSum = "")) && negb (bool_decide (md5sumHex contents = wantSum))
           then inl (RunError ("pod_profiler: checksum mismatch (got " +:+ md5sumHex contents +:+ ", want " +:+ wantSum +:+ ")"))
           else inr (MkFile filename contents)
         end).
Definition with_name (a : buildDebuggerArgs) (name : string) : buildDebuggerArgs :=
  MkArgs name (a_Namespace a) (a_NodeName a) (a_Image a) (a_Lang a) (a_Tool a) (a_Output a) (a_PodUID a) (a_ContainerID a) (a_ContainerRuntime a) (a_ContainerRuntimePath a) (a_DurationSeconds a).
Definition generateDebuggerPodName : act string := let! now := call Now in Ret ("nudgebee-profiler-" +:+ itoa (now - unix_to_internal)).
Definition attempt (ns name : string) (seconds : Z) : act (run_error + profileFile) :=
  let! ready := waitForPodReady ns name (wrap64 (wrap64 (seconds * 5) * second)) in
  match ready with
  | Err e => Ret (inl (RunError ("pod_profiler: " +:+ e)))
  | Ok _ =>
    let! data := streamUntilResult ns name in
    match data with
    | inl e => Ret (inl e)
    | inr data => fetchResultFile ns name data
    end
  end.
Definition runDebugger (a : buildDebuggerArgs) : act (run_error + profileFile) :=
  let! name := generateDebuggerPodName in
  let! created := call (CreateDebugger (buildDebuggerPod (with_name a name))) in
  match created with
  | inl e => Ret (inl (RunError ("pod_profiler: create debugger pod: " +:+ e)))
  | inr name =>
    let! out := attempt (a_Namespace a) name (a_DurationSeconds a) in
    let! _ := call (DeleteDebugger (a_Namespace a) name) in
    Ret out
  end.

(** ** The run *)
Record FileResult := MkFileResult { fr_Filename : string; fr_ContentsBase64 : string; fr_Lang : string; fr_ProfileTool : string; fr_ProfileType : string;
                                    fr_Duration : Z; fr_FallbackFrom : string; fr_FallbackReason : string }.
Definition newFileResult (f : profileFile) (lang tool : string) (req : ProfileRequest) : FileResult :=
  MkFileResult (pf_Name f) (b64_encode (pf_Contents f)) lang tool (pr_ProfileType req) (pr_Seconds req) "" "".
Definition with_tool (a : buildDebuggerArgs) (tool output image : string) : buildDebuggerArgs :=
  MkArgs (a_Name a) (a_Namespace a) (a_NodeName a) image (a_Lang a) tool output (a_PodUID a) (a_ContainerID a) (a_ContainerRuntime a) (a_ContainerRuntimePath a) (a_DurationSeconds a).
Definition trim_prefix (s p : string) : string := default s (strip_prefix p s).
(** After a failed run: the retry with eBPF, or the error. *)
Definition fall_back (a : buildDebuggerArgs) (req : ProfileRequest) (e : run_error) : act (result FileResult) :=
  let lang := a_Lang a in
  match e with
  | RunError t => Ret (Err t)
  | ProfilerError reason =>
    if negb (bool_decide (lang = LangGo)) || negb (bool_decide (a_Tool a = ToolPprof)) then Ret (Err (error_text e))
    else match classifyPprofFailure reason with
         | None => Ret (Err (error_text e))
         | Some f =>
           let endpoint := failure_text f in
           if bool_decide (a_Output a = OutputHeapDump) then
             Ret (Err ("pod_profiler: " +:+ endpoint +:+ "; a Go heap profile can only be read from that endpoint, so serve /debug/pprof without authentication on a port the profiler can reach, or take a cpu profile"))
           else if bool_decide (a_Output a = OutputRaw) || negb (bool_decide (pr_ProfileTool req = "")) then Ret (Err ("pod_profiler: " +:+ endpoint))
           else
             let! remaining := call Budget in
             if match remaining with Some d => d <? wrap64 (wrap64 (pr_Seconds req * second) + fallbackSlack) | None => false end
             then Ret (Err ("pod_profiler: " +:+ endpoint +:+ ", and too little of this action's budget is left to retry with eBPF sampling"))
             else
               let! out := runDebugger (with_tool a ToolBpf OutputFlameGraph (defaultProfilerImage template lang ToolBpf)) in
               Ret (match out with
                    | inl fe => Err ("pod_profiler: " +:+ endpoint +:+ ", and the eBPF fallback failed too: " +:+ trim_prefix (error_text fe) "pod_profiler: ")
                    | inr file =>
                      let r := newFileResult file lang ToolBpf req in
                      Ok (MkFileResult (fr_Filename r) (fr_ContentsBase64 r) (fr_Lang r) (fr_ProfileTool r) (fr_ProfileType r) (fr_Duration r) ToolPprof endpoint)
                    end)
         end
  end.
Definition profile_pod (req : ProfileRequest) (lang tool output image : string) (pod : pod_state) (version containerID podUID : string) : act (result FileResult) :=
  let '(runtimeName, runtimePath) := containerRuntimeFor version in
  let a := MkArgs "" (if bool_decide (debuggerNamespace = "") then pr_Namespace req else debuggerNamespace) (ps_NodeName pod) image lang tool output podUID containerID
             runtimeName runtimePath (pr_Seconds req) in
  let! out := runDebugger a in
  match out with
  | inr file => Ret (Ok (newFileResult file lang tool req))
  | inl e => fall_back a req e
  end.
Definition target_language (req : ProfileRequest) : act (result string) :=
  if bool_decide (pr_Lang req = "") || bool_decide (pr_Lang req = LangUnknown) then
    let! detected := detectLang (pr_Namespace req) (pr_Name req) in
    Ret (match detected with
         | Ok lang => Ok lang
         | Err why => Err ("pod_profiler: could not determine the application language for " +:+ pr_Namespace req +:+ "/" +:+ pr_Name req
                           +:+ " — " +:+ why +:+ "; pass lang explicitly")
         end)
  else Ret (Ok (pr_Lang req)).
Definition with_seconds (req : ProfileRequest) : ProfileRequest :=
  if pr_Seconds req <=? 0 then MkProfile (pr_Name req) (pr_Namespace req) 60 (pr_ProfileType req) (pr_ProfileTool req) (pr_Lang req) (pr_OutputType req) else req.
Definition Profile (req : ProfileRequest) : act (result FileResult) :=
  if negb configured then Ret (Err "pod_profiler: kube client not configured")
  else if bool_decide (pr_Name req = "") || bool_decide (pr_Namespace req = "") then Ret (Err "pod_profiler: name and namespace required")
  else
    let req := with_seconds req in
    let need := wrap64 (wrap64 (pr_Seconds req * second) + profileOverhead) in
    let! budget := call Budget in
    match match budget with Some b => if b <? need then Some b else None | None => None end with
    | Some b => Ret (Err ("pod_profiler: a " +:+ itoa (pr_Seconds req) +:+ "s profile does not fit the " +:+ itoa (whole_seconds b)
                     +:+ "s this action has left (the debugger pod still has to start and the file be copied back) — ask for a shorter duration"))
    | None =>
      let! got := call (GetPod (pr_Namespace req) (pr_Name req)) in
      match got with
      | inl (NotFound _) => let! msg := targetGoneError (pr_Namespace req) (pr_Name req) in Ret (Err msg)
      | inl e => Ret (Err ("pod_profiler: get target pod: " +:+ kube_text e))
      | inr pod =>
        if bool_decide (ps_NodeName pod = "") then Ret (Err "pod_profiler: target pod has no nodeName (not scheduled yet)")
        else
          let! node := call (GetNode (ps_NodeName pod)) in
          match node with
          | inl e => Ret (Err ("pod_profiler: get node: " +:+ e))
          | inr version =>
            match targetContainer pod with
            | Err e => Ret (Err e)
            | Ok (containerID, podUID) =>
              let! lang := target_language req in
              match lang with
              | Err e => Ret (Err e)
              | Ok lang =>
                match resolveTool quote lang req with
                | Err e => Ret (Err e)
                | Ok (tool, output) => profile_pod req lang tool output (defaultProfilerImage template lang tool) pod version containerID podUID
                end
              end
            end
          end
      end
    end.

(** [parseProfileRequest]: through [json.Marshal] and back. *)
Definition set_request (f : string) (m : member) (r : ProfileRequest) : ProfileRequest * bool :=
  let '(MkProfile n ns s pt tool lang out) := r in
  if bool_decide (f = "seconds") then let '(z, ok) := set_int s m in (MkProfile n ns z pt tool lang out, ok)
  else if bool_decide (f = "name") then let '(t, ok) := set_string n m in (MkProfile t ns s pt tool lang out, ok)
    else if bool_decide (f = "namespace") then let '(t, ok) := set_string ns m in (MkProfile n t s pt tool lang out, ok)
    else if bool_decide (f = "profile_type") then let '(t, ok) := set_string pt m in (MkProfile n ns s t tool lang out, ok)
    else if bool_decide (f = "profile_tool") then let '(t, ok) := set_string tool m in (MkProfile n ns s pt t lang out, ok)
    else if bool_decide (f = "lang") then let '(t, ok) := set_string lang m in (MkProfile n ns s pt tool t out, ok)
    else let '(t, ok) := set_string out m in (MkProfile n ns s pt tool lang t, ok).
Definition request_fields : list string := ["name"; "namespace"; "seconds"; "profile_type"; "profile_tool"; "lang"; "output_type"].
Definition parseProfileRequest (params : gomap) : result ProfileRequest :=
  match params with
  | None => Err "pod_profiler: params required"
  | Some m =>
    match marshal (JObj m) with
    | None => Err "json: unsupported value"
    | Some b =>
      let '(req, ok) := unmarshal_struct request_fields set_request b (MkProfile "" "" 0 "" "" "" "") in
      if negb ok then Err "json: cannot unmarshal"
      else if bool_decide (pr_Name req = "") || bool_decide (pr_Namespace req = "") then Err "pod_profiler: name and namespace required" else Ok req
    end
  end.
Definition pod_profiler (params : gomap) : act (result FileResult) :=
  match parseProfileRequest params with Err e => Ret (Err e) | Ok req => Profile req end.
End profiler.

(** * What a run does to the cluster and what it reports *)

(** ** Tools *)
Lemma listed_type lang pt : pt = ProfileCPU \/ pt = ProfileMemory ->
  match profilingToolForType lang pt with Some (tool, output) => toolProduces tool pt output = true | None => pt = ProfileMemory end.
Proof.
  intros Hpt. unfold profilingToolForType. destruct Hpt as [-> | ->]; repeat (case_bool_decide; [try reflexivity|]); first [reflexivity|congruence].
Qed.

(** Whatever the language and the output a caller prefers, a request that
    names the kind of profile and no tool gets a tool that takes this kind of
    profile with an output the tool really returns, so the profiler never
    swaps it for another one; the only other answers are the two refusals: an
    unknown kind of profile, and a memory profile of a language without a
    memory profiler. *)
Theorem resolved_output_real quote lang req : pr_ProfileTool req = "" -> pr_ProfileType req <> "" ->
  match resolveTool quote lang req with
  | Ok (tool, output) => toolProduces tool (pr_ProfileType req) output = true
  | Err _ => (pr_ProfileType req <> ProfileCPU /\ pr_ProfileType req <> ProfileMemory)
             \/ pr_ProfileType req = ProfileMemory /\ lang <> LangJava /\ lang <> LangPython /\ lang <> LangGo
  end.
Proof.
  intros Ht Hpt. unfold resolveTool. rewrite (bool_decide_eq_true_2 _ Ht), (bool_decide_eq_false_2 _ Hpt). cbn [negb orb].
  destruct (negb (bool_decide (pr_ProfileType req = ProfileCPU)) && _) eqn:Ek.
  { apply andb_true_iff in Ek as [?%negb_true_iff%bool_decide_eq_false ?%negb_true_iff%bool_decide_eq_false]. by left. }
  assert (pr_ProfileType req = ProfileCPU \/ pr_ProfileType req = ProfileMemory) as Hk
    by (apply andb_false_iff in Ek as [?%negb_false_iff%bool_decide_eq_true | ?%negb_false_iff%bool_decide_eq_true]; auto).
  pose proof (listed_type lang _ Hk) as Hl. destruct (profilingToolForType lang (pr_ProfileType req)) as [[tool output]|] eqn:Er.
  - repeat (case_match; try done); by simplify_eq.
  - right. split; [done|]. rewrite Hl in Er. unfold profilingToolForType in Er.
    split_and!; intros ->; vm_compute in Er; done.
Qed.

Section runs.
Context (quote : string -> string) (md5sumHex : string -> string) (kube_text : kube_error -> string).
Context (configured has_prom : bool) (debuggerNamespace template : string).
Abbreviation run_profile := (Profile quote md5sumHex kube_text configured has_prom debuggerNamespace template).

(** ** What a run leaves behind *)
Inductive write := Created (d : debugger_pod) (name : option string) | Removed (ns name : string).
Definition written (e : event reply) : option write :=
  match e with
  | Event q a =>
    match q return reply q -> option write with
    | CreateDebugger d => fun r => Some (Created d (match r with inl _ => None | inr name => Some name end))
    | DeleteDebugger ns name => fun _ => Some (Removed ns name)
    | _ => fun _ => None
    end a
  end.
(** The changes to the cluster, in order; a creation with the name the server
    gave the pod, if it succeeded. *)
Definition writes (l : list (event reply)) : list write := omap written l.
Definition reading (q : request) : Prop := match q with CreateDebugger _ | DeleteDebugger _ _ => False | _ => True end.
(** The pod of one attempt: not created, or created and deleted again. *)
Definition one_pod (a : buildDebuggerArgs) (w : list write) : Prop :=
  exists name, let d := buildDebuggerPod (with_name a name) in
    w = [Created d None] \/ exists given, w = [Created d (Some given); Removed (a_Namespace a) given].
Definition as_ebpf (a : buildDebuggerArgs) : buildDebuggerArgs :=
  with_tool a ToolBpf OutputFlameGraph (defaultProfilerImage template (a_Lang a) ToolBpf).
Definition clean (req : ProfileRequest) (w : list write) : Prop :=
  w = [] \/ exists a, a_Namespace a = (if bool_decide (debuggerNamespace = "") then pr_Namespace req else debuggerNamespace) /\
    (one_pod a w \/
     exists w1 w2, w = w1 ++ w2 /\ one_pod a w1 /\ one_pod (as_ebpf a) w2 /\ a_Lang a = LangGo /\ a_Tool a = ToolPprof /\ pr_ProfileTool req = "").

Lemma debugger_writes_app l l' : writes (l ++ l') = writes l ++ writes l'.
Proof. apply omap_app. Qed.
Lemma debugger_writes_reading l l' : extends reading l l' -> writes l' = writes l.
Proof. apply omap_silent. by intros [[] a] H. Qed.

(** ** The parts that only read *)
Lemma detectLang_reading ns pod : calls reading (detectLang has_prom ns pod).
Proof. unfold detectLang, queryLang. calls_all. Qed.
Lemma targetGone_reading ns name : calls reading (targetGoneError ns name).
Proof. unfold targetGoneError, livePodsHint. calls_all. Qed.
Lemma check_containers_reading l ready since : calls reading (check_containers l ready since).
Proof. revert ready since. induction l as [|cs l IH]; intros ready since; cbn [check_containers]; [done|]. calls_all; apply IH. Qed.
Lemma poll_ready_reading fuel ns name since last : calls reading (poll_ready kube_text fuel ns name since last).
Proof.
  revert since last. induction fuel as [|fuel IH]; intros since last; cbn [poll_ready]; [done|].
  apply calls_ask_bind; [done|]. intros [e|p]; [done|]. apply calls_bind.
  - unfold check_debugger. repeat case_match; try done; apply check_containers_reading.
  - intros [seen since']. cbn [fst snd]. calls_all; apply IH.
Qed.
Lemma pod_wait_reading ns name timeout : calls reading (waitForPodReady kube_text ns name timeout).
Proof.
  unfold waitForPodReady, debuggerLogTail. cbv zeta. apply calls_ask_bind; [done|]. intros start. apply calls_bind; [apply poll_ready_reading|]. intros seen. calls_all.
Qed.
Lemma poll_settled_reading fuel ns name last : calls reading (poll_settled fuel ns name last).
Proof. revert last. induction fuel as [|fuel IH]; intros last; cbn [poll_settled]; [done|]. calls_all; apply IH. Qed.
Lemma settled_reading ns name : calls reading (debuggerSettled ns name).
Proof. apply poll_settled_reading. Qed.
Lemma stream_reading ns name : calls reading (streamUntilResult ns name).
Proof.
  unfold streamUntilResult. apply calls_ask_bind; [done|]. intros [e|[content err]]; [done|]. destruct (readProfilerEvents content err); [done..|].
  cbv zeta. apply calls_bind; [|done]. case_match; [done|]. apply calls_ask_bind; [done|]. intros [e|]; [done|]. apply settled_reading.
Qed.
Lemma fetch_reading ns name data : calls reading (fetchResultFile quote md5sumHex ns name data).
Proof. unfold fetchResultFile, copyFileFromPod. calls_all. Qed.
Lemma attempt_reading ns name seconds : calls reading (attempt quote md5sumHex kube_text ns name seconds).
Proof.
  unfold attempt. apply calls_bind; [apply pod_wait_reading|]. intros [_|e]; [|done].
  apply calls_bind; [apply stream_reading|]. intros [e|data]; [done|]. apply fetch_reading.
Qed.

(** ** The runs *)
Lemma runDebugger_clean a l :
  wp anything (runDebugger quote md5sumHex kube_text a) l (fun l' out => exists w, writes l' = writes l ++ w /\ one_pod a w).
Proof.
  unfold runDebugger, generateDebuggerPodName. apply wp_bind, wp_ask. intros t _. cbn [wp]. set (name := "nudgebee-profiler-" +:+ _).
  apply wp_ask. intros [e|given] _.
  - apply wp_ret. exists [Created (buildDebuggerPod (with_name a name)) None]. split; [by rewrite !debugger_writes_app, app_nil_r|]. exists name. by left.
  - apply (wp_calls _ reading); [apply attempt_reading|]. intros l' out El%debugger_writes_reading. apply wp_ask. intros r _. apply wp_ret.
    exists [Created (buildDebuggerPod (with_name a name)) (Some given); Removed (a_Namespace a) given].
    split; [by rewrite debugger_writes_app, El, !debugger_writes_app, app_nil_r, <- app_assoc|]. exists name. right. by exists given.
Qed.
Lemma profile_pod_clean req lang tool output image pod version cid uid l : writes l = [] ->
  wp anything (profile_pod quote md5sumHex kube_text debuggerNamespace template req lang tool output image pod version cid uid) l
    (fun l _ => clean req (writes l)).
Proof.
  intros Hl. unfold profile_pod. destruct (containerRuntimeFor version) as [rt path]. set (a := MkArgs _ _ _ _ _ _ _ _ _ _ _ _).
  eapply wp_seq; [apply runDebugger_clean|]. intros l' out (w & El & Hw). rewrite Hl in El. cbn in El.
  assert (clean req (writes l')) as Hdone by (right; exists a; split; [done|]; left; by rewrite El).
  destruct out as [e|file]; [|by apply wp_ret]. unfold fall_back. destruct e as [reason|t]; [|by apply wp_ret].
  destruct (_ || _) eqn:Eg; [by apply wp_ret|]. case_match; [|by apply wp_ret]. case_match; [by apply wp_ret|].
  destruct (bool_decide (a_Output a = OutputRaw) || _) eqn:Et; [by apply wp_ret|]. apply wp_ask. intros b _. destruct b as [b|]; cbv iota; [case_match|].
  1: apply wp_ret; by rewrite debugger_writes_app, app_nil_r.
  all: eapply wp_seq; [apply runDebugger_clean|]; intros l'' out (w' & El' & Hw'); apply wp_ret; right; exists a; split; [done|]; right;
    exists w, w'; rewrite El', debugger_writes_app, app_nil_r, El; apply orb_false_iff in Eg as [Eg1%negb_false_iff%bool_decide_eq_true Eg2%negb_false_iff%bool_decide_eq_true];
    apply orb_false_iff in Et as [_ Et%negb_false_iff%bool_decide_eq_true]; by split_and!.
Qed.

End runs.

Lemma resolved_output_real_witness :
  let req := MkProfile "api" "default" 60 ProfileMemory "" LangPython OutputPprof in
  (pr_ProfileTool req = "" /\ pr_ProfileType req <> "") /\
  match resolveTool (fun s => s) LangPython req with
  | Ok (tool, output) => toolProduces tool (pr_ProfileType req) output = true
  | Err _ => (pr_ProfileType req <> ProfileCPU /\ pr_ProfileType req <> ProfileMemory)
             \/ pr_ProfileType req = ProfileMemory /\ LangPython <> LangJava /\ LangPython <> LangPython /\ LangPython <> LangGo
  end.
Proof.
  split; [split; done|]. apply (resolved_output_real (fun s => s) LangPython (MkProfile "api" "default" 60 ProfileMemory "" LangPython OutputPprof)); done.
Defined.

(** A caller that names the tool is not checked: pprof takes no flamegraph,
    which is what a request without an output asks of it. *)
Example named_tool_unchecked :
  resolveTool (fun s => s) LangGo (MkProfile "api" "default" 60 ProfileCPU ToolPprof LangGo "") = Ok (ToolPprof, OutputFlameGraph)
  /\ toolProduces ToolPprof ProfileCPU OutputFlameGraph = false.
Proof. done. Qed.

(** A Go service whose endpoint refuses the connection, and the retry. *)
Definition mark (s : string) : string := ReplaceAll s "'" dquote.
Definition refusing_log : string :=
  mark "{'type':'error','data':{'reason':'wget http://127.0.0.1:8080/debug/pprof/profile: Connection refused'}}".
Definition flame_log : string :=
  mark "{'type':'progress','data':{'stage':'started'}}" +:+ newline +:+ mark "{'type':'result','data':{'file':'/tmp/flame.svg.gz','checksum':'d41d'}}" +:+ newline.
Definition created_pods (l : list (event reply)) : nat := length (List.filter (fun e => match e_call e with CreateDebugger _ => true | _ => false end) l).
Definition go_pod : pod_state := MkPodState "api" "uid-1" "node-1" "Running" "" "" false [MkStatus "main" "containerd://c1" true None None].
Definition go_env : environment reply := fun l q =>
  match q return reply q with
  | Budget | QueryBudget _ => None
  | Now => unix_to_internal
  | CtxErr | LangCtxErr | PollCtxErr => None
  | GetPod _ _ | GetDebugger _ _ => inr go_pod
  | GetNode _ => inr "containerd://1.7.2"
  | GetReplicaSet _ _ | GetDeployment _ _ => inl "not found"
  | ListPods _ _ => inr []
  | PromQuery _ _ => Err "none"
  | LangWait _ => false
  | Tick => None
  | CreateDebugger d => inr (d_Name d +:+ "-x")
  | DeleteDebugger _ _ => None
  | TailLog _ _ _ => inr ""
  | FollowLog _ _ => inr (if (created_pods l =? 1)%nat then refusing_log else flame_log, None)
  | TarExec _ _ _ _ => inr [inr ("tmp/flame.svg.gz", Ok "svg")]
  end.
Definition go_run (tool : string) : list (event reply) * result FileResult :=
  run go_env (Profile (fun s => s) (fun _ => "d41d") (fun _ => "") true false "nudgebee" "" (MkProfile "api" "default" 30 ProfileCPU tool LangGo "")) [].
Example falls_back :
  (go_run "").2 = Ok (MkFileResult "/tmp/flame.svg.gz" (b64_encode "svg") LangGo ToolBpf ProfileCPU 30 ToolPprof
                        "nothing in the target accepted a connection to its pprof endpoint on :8080")
  /\ map (fun w => match w with Created _ n => n | Removed _ n => Some n end) (writes (go_run "").1)
     = [Some "nudgebee-profiler-0-x"; Some "nudgebee-profiler-0-x"; Some "nudgebee-profiler-0-x"; Some "nudgebee-profiler-0-x"].
Proof. vm_compute. done. Qed.
Example named_tool_kept : (go_run ToolPprof).2 = Err "pod_profiler: nothing in the target accepted a connection to its pprof endpoint on :8080".
Proof. vm_compute. done. Qed.
